(* ===== verification/_CoqProject ===== *)
-Q . S2P
Prelude.v
Float32.v
ByteBuffer.v
Wire.v
WireProps.v
BitStream.v
Packet.v
Maps.v
Guid.v
Text.v
TextProps.v
Util.v
Utf8.v
Utf8Props.v
ClientPacket.v
Names.v
NamesProps.v
NameHandlers.v
NameHandlersProps.v
Timers.v
Events.v
Formulas.v
Reputation.v
ReputationProps.v
ReputationInv.v
ReputationLife.v
Channel.v
ChannelRuns.v
ChannelInv.v
ChannelOps.v
ChannelLife.v
ChannelFrame.v
ChannelMgr.v
ChannelMgrProps.v
ChannelSession.v
Social.v
SocialProps.v
SocialSession.v
MovementTables.v
Movement.v
MovementKinds.v
MovementWire.v
MovementRead.v
MovementProps.v
MovementEquiv.v
MovementSafe.v
MovementTotal.v
Mover.v
MoverProps.v
MoverExchange.v
Threat.v
ThreatInv.v
ThreatOps.v
ThreatVictim.v
ThreatSession.v
LFG.v
LFGRoles.v
LFGKeys.v
LFGOffers.v
LFGSearch.v
LFGPropose.v
LFGFind.v
LFGProps.v
LFGData.v
LFGMgr.v
LFGTick.v
LFGInv.v
LFGMgrProps.v
