(* ===== verification/Prelude.v ===== *)
(** * ZerosCore, verified

    A development beside the C++ of [src/src/server]: a game server whose world
    is shared by many clients.  What is modelled is the part of the server that
    decides what it sends, what it makes of what it receives, and the state
    machines behind it; the definitions are translated from the source and run
    ([vm_compute] evaluates them), and the theorems are about them.

    ** How the program fits together

    A client's packet arrives as bytes in a [WorldPacket] (an opcode and a
    [ByteBuffer]); [WorldSession::Update] gives it to the handler of its opcode
    and catches the [ByteBufferException] a short packet throws.  Handlers read
    the packet, change the state of a component (a channel, the reputation of a
    player, the movement of a unit, the queue of the dungeon finder), and the
    component answers with packets.  Deferred work is kept in event processors
    and interval timers, or done by the tick of the world, which calls the
    [Update] of each manager.

    ** Files

    Each file of definitions is followed by the files of its theorems.

    - [Prelude] (this file): machine integers as [Z] with [wrap]/[swrap], record
      update, the effect monad [M S E] (state, C++ exceptions, and [Abort] for
      what the language leaves undefined or ends the process), its
      total-correctness predicate [wp], lemmas on lists and integers.
      [Float32]: [float] as executable IEEE binary32.  [Maps]: [std::map].
    - [ByteBuffer] (shared/Packets/ByteBuffer.h, Utilities/ByteConverter.h): the
      byte and bit cursors, [<<] and [>>] of scalars, strings, packed GUIDs,
      packed dates; the byte order of the host is the class [Host].  A [bool] is
      written as four bytes, since there is no [operator<<] for it, and read as one.
      [Wire], [WireProps]: codecs as an interface ([Lawful]) that the scalar,
      string, GUID, vector and map codecs implement; round trips, and that
      reading any bytes ends inside the packet.  [BitStream]: the bit cursor
      against an abstract sequence of bits.  [Packet] (WorldPacket.h): what it
      is for a component to send exactly some bytes.  [ClientPacket]: what a
      handler reads of a packet of a client.
    - [Text], [TextProps], [Util] (shared/Utilities/Util.h, Util.cpp), [Timers]
      (Timer.h), [Events] (EventProcessor.h, .cpp), [Formulas]
      (Miscellaneous/Formulas.h).
    - [Utf8] (src/dep/utf8cpp/utf8/core.h, checked.h): decoding, encoding and
      converting texts, on iterators and buffers of fixed size.  [Utf8Props]:
      the library against the encodings of RFC 3629 and RFC 2781.  [Names]
      (Util.cpp, Globals/ObjectMgr.cpp, Accounts/AccountMgr.cpp): conversions of
      strings, the normal form of names, and the checks of names; [NamesProps].
      [NameHandlers], [NameHandlersProps] (Handlers/CharacterHandler.cpp,
      PetHandler.cpp): what a client can store as declined names.
    - [Reputation] (Reputation/ReputationMgr.h, .cpp): standings, ranks, flags,
      spillover, the packets of the list, loading and saving.
      [ReputationProps], [ReputationInv], [ReputationLife]: the invariant, the
      effect of each change, sessions of calls, save and load.
    - [Channel] (Chat/Channels/Channel.h, .cpp): members, roles, commands,
      notices, and the row of the database.  [ChannelRuns], [ChannelInv],
      [ChannelOps], [ChannelLife]: the invariant of a channel, sequences of
      commands of any players, and what is sent to whom.
    - [ChannelMgr] (Chat/Channels/ChannelMgr.h, .cpp, Handlers/ChannelHandler.cpp,
      and the lists of channels in Player.cpp): the managers that keep channels
      by name, channels as objects on a heap whose addresses the managers and
      the players hold, every handler with the packet it reads, changes of zone,
      logout.  An operation on a channel is that of [Channel], run on the object
      at an address.  [ChannelFrame]: what the operations of a channel leave
      alone.  [ChannelMgrProps]: the books of channels, managers and lists agree.
      [ChannelSession]: sequences of packets and other events of any players.
    - [Social] (Entities/Player/SocialMgr.h, .cpp, and the handlers of contacts in
      MiscHandler.cpp): friends and ignored players, in memory for who is online
      and in a table for all; what the statements do to that table.
      [SocialProps]: memory and table agree, the limits, the packets.
      [SocialSession]: sequences of logins, logouts, packets and results of
      queries of any players.
    - [MovementTables] (Movement/MovementStructures.h, .cpp): the elements and
      the sequence of elements of each opcode.  [Movement] (MovementInfo.h, .cpp,
      and the [PacketSender]): the interpreters that write and read along a
      sequence, the routines written by hand, [Sanitize].  [MovementKinds],
      [MovementWire], [MovementRead], [MovementProps]: every element as one of
      a few kinds, well-formedness of a sequence, and the round trip along every
      well-formed one.  [MovementEquiv]: routines by hand against the tables.
      [MovementSafe], [MovementTotal]: no input is read out of bounds, every
      movement can be written, in 720 bytes.
    - [Mover] (Handlers/MovementHandler.cpp, Unit.cpp, Player.cpp,
      MiscHandler.cpp): the numbered messages about movement, speeds, the
      synchronisation of clocks, acknowledgements and the client's moves, on a
      store of units by GUID.  [MoverProps]: the refinement of an abstract
      protocol.  [MoverExchange]: a change, its message on the wire, the answer
      of the client, and the server's decision.
    - [Threat] (Combat/ThreatManager.h, .cpp, HostileRefManager.h, .cpp,
      Dynamic/LinkedReference/Reference.h, and the packets of Unit.cpp): whom
      each creature hates and how much.  References are objects on a heap, in a
      list of the creature and in one of the unit.  [ThreatInv]: the invariant
      and what adding threat keeps.  [ThreatOps]: every other operation.
      [ThreatVictim]: the order of the list and the choice from it.
      [ThreatSession]: sequences of operations.
    - [Guid] (Entities/Object/ObjectDefines.h): the kinds of identifiers and
      their packing.
    - [LFG] (DungeonFinding/LFGQueue.h, .cpp, and [CheckGroupRoles] of
      LFGMgr.cpp): a queue of the dungeon finder, its cache of combinations, and
      the search that turns entries into proposals of five players.
      [LFGRoles]: [CheckGroupRoles] against the existence of an assignment of
      roles.  [LFGKeys]: keys of the cache against sets of entries.
      [LFGOffers]: what an entry offers and what a good proposal is, without the
      queue.  [LFGSearch], [LFGPropose], [LFGFind]: what each step of the search
      keeps and does, in the order of the code.  [LFGProps]: its theorems.
    - [LFGData] (LFGPlayerData.cpp, LFGGroupData.cpp): the state of a player and
      of a group.  [LFGMgr], [LFGTick] (LFGMgr.h, .cpp, LFGScripts.cpp): the
      manager: joining, leaving, role checks, proposals, votes, new groups,
      locks, rewards, the hooks of groups and players, the tick.  The manager
      hands its queues a [QueueView] of itself ([queue_view]), the interface
      against which the theorems of the queue are proved.  [LFGInv]: the
      invariant of the manager under every operation.  [LFGMgrProps]: dungeons
      a party may enter, the outcome of role checks and of failed proposals.

    ** What the theorems show

    - Round trips (wire, bits, movements, dates, durations, saved reputation,
      the row of a channel): what is written is what is read.  They hold for
      every value in range; the ranges are the widths of the C++ types ([bool]
      does not come back: [bool_not_symmetric]).
    - Safety: whatever bytes a client sends, reading them ends, inside the
      packet, with a value or a [ByteBufferException]; no assertion fails.
    - Invariants by induction on sequences of calls: [channel_session],
      [chat_session] (no channel is used once it is deleted, and players,
      channels and managers agree on who is where), [reputation_session],
      [manager_invariant], [threat_session] (no operation fails, and lists,
      references and victims agree), and the refinements [movement_session] and
      [social_session] (the lists in memory are what the table says).  The
      comment of each states what is assumed of the calls; what a client can send
      outside of it is in the findings ([owner_self_kick], [unasked_answer],
      characters beyond the BMP).
    - Texts from clients: exactly the encodings of Unicode are accepted
      ([utf8_valid]), the conversions are inverse to each other on the basic
      plane, which texts overrun the buffers of the server, and which names are
      taken.
    - The event processor: [Update] ends and fires every due event, whatever the
      events do to the queue within [EventContract] ([Update_fires_due]).
    - The search of the dungeon finder: it always ends, proposes only parties
      that fit ([proposals_good]), and leaves every entry in a list or in a
      proposal ([nobody_lost]).
    - Whom a creature attacks next, by the 110% and 130% of its victim's threat
      ([next_victim]), whom added threat makes it hate ([hate_added]), and what
      the end of a unit leaves ([references_deleted]).
    - Functional behaviour of the operations with the most cases, errors
      included, and delivery: who receives which packet.
    - Equivalence of routines written by hand with the tables they repeat, and
      of loops with their closed form.
    - Some theorems state what the code does where it is not what it means to
      do; these are the findings of the manifest.

    ** Bounds and fuel

    Loops over data are structural.  [KillAllEvents] and [Update] of the event
    processor take fuel: the first is proved to end when it is as large as the
    queue, the second when it is as large as the weights of the due events, which
    count the due events they may add while they run ([EventContract]).  The interpreters of
    movement run over a table whose length is bounded by the enum
    ([MSE_iterations]); [SetSpeed] calls itself once, for the pet of a player,
    which is not a player: depth 2 is enough, as [movement_session] shows.
    [CheckGroupRoles] calls itself with one role less: its fuel is the number of
    roles chosen, and [group_roles] shows that it always answers.  The search of
    the dungeon finder takes from a list at each step: the fuel is the length of
    the list ([try_all], [FindGroups]), and running out would abort, which
    [proposals_good] and [nobody_lost] exclude.
    [CleanupChannels] takes a channel from the player's list at each turn: the
    fuel is the length of the list, and [logout_leaves_all] shows that it is
    enough.
    The loops of utf8cpp take a sequence from the text at each step: the fuel is
    the length of the text, and [utf8_valid] and [Utf8toWStr_converts] show that
    it is enough.
    The loops over references follow the list while their bodies may add to it:
    no creature has more references than there are units, and what is added to
    the list of a unit is before the place reached; [threat_session] shows the
    fuel to be enough.  Threat to a pet is hate of its owner too: the recursion
    is bounded by the number of units when nobody owns himself ([owner_rank]).
    Packets are shorter than [2 ^ 31] bytes, as the network layer keeps them.

    ** What is not modelled

    The parts listed with that status in the manifest: sockets, databases,
    cryptography and geometry are wrappers of libraries; spells, scripts and
    maps are large state driven by tables of the world database.  What a
    modelled component asks of such a part is a class of functions ([World],
    [Calendar], [FormulaHooks], [LfgWorld], [ThreatWorld],
    ...), of which the witnesses give
    instances.  Random numbers are such a function, of the number of draws so
    far.  Groups are not modelled: what a call of [Group] does to the groups of
    players, and which hooks it runs, is a parameter of the dungeon finder
    ([group_effect], [group_hooks]); [Roster] bounds the players of a group by
    255.  Which characters exist and are not marked as deleted ([Characters]) does
    not change during a session of [Social]: deleting a character, which edits the
    table of friends by itself (Player.cpp:5098-5252), is not modelled.  [operator[]] on a map where the code only reads is a lookup with the
    default value: the empty entry it leaves behind is not kept.  The loading of
    dungeons and rewards and the body of [TeleportPlayer] are left out.  Logging
    has no effect in the model.

    ** This file

    Machine integers, the effect monad and its reasoning, and generic lemmas. *)

From Stdlib Require Export ZArith Lia.
From stdpp Require Export base numbers list gmap.

#[export] Set Default Proof Using "Type".
#[global] Open Scope Z_scope.
#[global] Arguments Z.ltb : simpl never.
#[global] Arguments Z.leb : simpl never.
#[global] Arguments Z.eqb : simpl never.
#[global] Arguments Z.add : simpl never.
#[global] Arguments Z.sub : simpl never.
#[global] Arguments Z.mul : simpl never.
#[global] Arguments Z.pow : simpl never.
#[global] Arguments Z.land : simpl never.
#[global] Arguments Z.lor : simpl never.
#[global] Arguments Z.shiftl : simpl never.
#[global] Arguments Z.shiftr : simpl never.
#[global] Arguments Z.testbit : simpl never.
#[global] Arguments Z.to_nat : simpl never.
#[global] Arguments Z.of_nat : simpl never.

(** ** Record update

    [r <| f := v |>] is [r] with field [f] set, [r <| f ::= g |>] with [g]
    applied to it.  A record states its expansion into its fields once, as an
    instance of [Settable]; the setter of a field is read off it. *)

Class Settable (R : Type) := expand : R -> R.
Class Setter {R T : Type} (proj : R -> T) := set_field : (T -> T) -> R -> R.
#[global] Arguments set_field {R T} proj {Setter} f r /.

Ltac field_setter R proj :=
  let e := constr:(_ : Settable R) in
  let e := eval red in e in
  lazymatch eval pattern proj in e with
  | ?u _ => let t := eval cbv beta in (fun g => u (fun r => g (proj r))) in exact t
  end.

#[export] Hint Extern 1 (@Setter ?R _ ?proj) => field_setter R proj : typeclass_instances.

Declare Scope update_scope.
Notation "r <| proj := v |>" := (set_field proj (fun _ => v) r)
  (at level 1, left associativity, v at level 99) : update_scope.
Notation "r <| proj ::= g |>" := (set_field proj g r)
  (at level 1, left associativity, g at level 99) : update_scope.
#[global] Open Scope update_scope.

(** ** Machine integers

    A fixed-width unsigned integer is a [Z] in [0, 2^w); arithmetic on it is
    done on [Z] and wrapped.  A signed one is kept in [-2^(w-1), 2^(w-1)). *)

Definition wrap (w x : Z) : Z := x mod 2 ^ w.
Definition swrap (w x : Z) : Z := (x + 2 ^ (w - 1)) mod 2 ^ w - 2 ^ (w - 1).

Abbreviation u8 := (wrap 8).
Abbreviation u16 := (wrap 16).
Abbreviation u32 := (wrap 32).
Abbreviation u64 := (wrap 64).
Abbreviation s8 := (swrap 8).
Abbreviation s16 := (swrap 16).
Abbreviation s32 := (swrap 32).
Abbreviation s64 := (swrap 64).

#[global] Arguments wrap : simpl never.
#[global] Arguments swrap : simpl never.

Definition in_width (w x : Z) : Prop := 0 <= x < 2 ^ w.
Definition in_swidth (w x : Z) : Prop := - 2 ^ (w - 1) <= x < 2 ^ (w - 1).

(** [HasFlag]: the truth value of a C++ [flags & mask]. *)
Definition has_flag (flags mask : Z) : bool := negb (Z.land flags mask =? 0).

Lemma wrap_range w x : 0 <= w -> in_width w (wrap w x).
Proof. intros. unfold wrap, in_width. apply Z.mod_pos_bound. lia. Qed.

Lemma wrap_small w x : in_width w x -> wrap w x = x.
Proof. unfold wrap, in_width. intros. by apply Z.mod_small. Qed.

Lemma wrap_wrap w x : 0 <= w -> wrap w (wrap w x) = wrap w x.
Proof. intros. apply wrap_small. by apply wrap_range. Qed.

Lemma swrap_range w x : 0 < w -> in_swidth w (swrap w x).
Proof.
  intros. unfold swrap, in_swidth.
  assert (H2 : 2 ^ w = 2 * 2 ^ (w - 1)) by (rewrite <- Z.pow_succ_r by lia; f_equal; lia).
  pose proof (Z.mod_pos_bound (x + 2 ^ (w - 1)) (2 ^ w)). lia.
Qed.

Lemma swrap_small w x : 0 < w -> in_swidth w x -> swrap w x = x.
Proof.
  intros. unfold swrap, in_swidth in *.
  assert (H2 : 2 ^ w = 2 * 2 ^ (w - 1)) by (rewrite <- Z.pow_succ_r by lia; f_equal; lia).
  rewrite Z.mod_small; lia.
Qed.

(** ** Effects

    A computation of type [M S E A] runs on a state [S]; it returns a value,
    throws a C++ exception of type [E] (the state keeps what was written before
    the throw), or ends the process: a failed [ASSERT], or an access that the
    language leaves undefined. *)

Inductive abort_reason :=
| AssertFailed
| UndefinedBehaviour.

Inductive result (S E A : Type) :=
| Ok (a : A) (s : S)
| Throw (e : E) (s : S)
| Abort (r : abort_reason).
Arguments Ok {_ _ _} _ _.
Arguments Throw {_ _ _} _ _.
Arguments Abort {_ _ _} _.

Definition M (S E A : Type) : Type := S -> result S E A.

#[export] Instance M_ret {S E} : MRet (M S E) := fun A a s => Ok a s.
#[export] Instance M_bind {S E} : MBind (M S E) := fun A B f m s =>
  match m s with
  | Ok a s' => f a s'
  | Throw e s' => Throw e s'
  | Abort r => Abort r
  end.

Definition getS {S E} : M S E S := fun s => Ok s s.
Definition gets {S E A} (f : S -> A) : M S E A := fun s => Ok (f s) s.
Definition putS {S E} (s : S) : M S E unit := fun _ => Ok tt s.
Definition modify {S E} (f : S -> S) : M S E unit := fun s => Ok tt (f s).
Definition throw {S E A} (e : E) : M S E A := fun s => Throw e s.
Definition abort {S E A} (r : abort_reason) : M S E A := fun _ => Abort r.
(** The [ASSERT] macro: the process stops when the condition is false. *)
Definition assert_ {S E} (b : bool) : M S E unit :=
  if b then mret tt else abort AssertFailed.
Definition when {S E} (b : bool) (m : M S E unit) : M S E unit :=
  if b then m else mret tt.

(** [for (...: l) body]: the body for each element, in order. *)
Fixpoint for_each {S E A} (l : list A) (body : A -> M S E unit) : M S E unit :=
  match l with
  | [] => mret tt
  | x :: l' => body x;; for_each l' body
  end.

(** A computation on a local object [s0], run inside one on another state. *)
Definition on_local {S T E A} (s0 : T) (m : M T E A) : M S E (A * T) := fun s =>
  match m s0 with
  | Ok a t => Ok (a, t) s
  | Throw e _ => Throw e s
  | Abort r => Abort r
  end.

(** A computation on a part of the state, reached by [get] and [set]. *)
Definition zoom {S T E A} (get : S -> T) (set : T -> S -> S) (m : M T E A) : M S E A := fun s =>
  match m (get s) with
  | Ok a t => Ok a (set t s)
  | Throw e t => Throw e (set t s)
  | Abort r => Abort r
  end.

(** [try { m } catch (E e) { h(e) }] *)
Definition try_catch {S E E' A} (m : M S E A) (h : E -> M S E' A) : M S E' A := fun s =>
  match m s with
  | Ok a s' => Ok a s'
  | Throw e s' => h e s'
  | Abort r => Abort r
  end.

(** ** Total correctness

    [wp m Q X s]: run from [s], [m] returns with [Q] or throws with [X]; it
    never aborts.  [returns m Q s] also excludes exceptions. *)

Definition wp {S E A} (m : M S E A) (Q : A -> S -> Prop) (X : E -> S -> Prop) (s : S) : Prop :=
  match m s with
  | Ok a s' => Q a s'
  | Throw e s' => X e s'
  | Abort _ => False
  end.

Definition returns {S E A} (m : M S E A) (Q : A -> S -> Prop) (s : S) : Prop :=
  wp m Q (fun _ _ => False) s.

Section WP.
Context {S E : Type}.
Implicit Types (s : S).

Lemma wp_ret {A} (a : A) (Q : A -> S -> Prop) (X : E -> S -> Prop) s :
  Q a s -> wp (mret a) Q X s.
Proof. done. Qed.

Lemma wp_bind {A B} (m : M S E A) (f : A -> M S E B) Q X s :
  wp m (fun a s' => wp (f a) Q X s') X s -> wp (m ≫= f) Q X s.
Proof. unfold wp, mbind, M_bind. by destruct (m s). Qed.

Lemma wp_bind_inv {A B} (m : M S E A) (f : A -> M S E B) Q X s :
  wp (m ≫= f) Q X s -> wp m (fun a s' => wp (f a) Q X s') X s.
Proof. unfold wp, mbind, M_bind. by destruct (m s). Qed.

Lemma wp_mono {A} (m : M S E A) (Q Q' : A -> S -> Prop) (X X' : E -> S -> Prop) s :
  wp m Q X s ->
  (forall a s', Q a s' -> Q' a s') -> (forall e s', X e s' -> X' e s') ->
  wp m Q' X' s.
Proof. unfold wp. destruct (m s); naive_solver. Qed.

Lemma returns_mono {A} (m : M S E A) (Q Q' : A -> S -> Prop) s :
  returns m Q s -> (forall a s', Q a s' -> Q' a s') -> returns m Q' s.
Proof. intros Hm HQ. by eapply wp_mono. Qed.

Lemma returns_bind {A B} (m : M S E A) (f : A -> M S E B) P Q s :
  returns m P s -> (forall a s', P a s' -> returns (f a) Q s') -> returns (m ≫= f) Q s.
Proof. intros Hm Hf. apply wp_bind. by eapply wp_mono. Qed.

Lemma wp_when (b : bool) (m : M S E unit) Q X s :
  (b = true -> wp m Q X s) -> (b = false -> Q tt s) -> wp (when b m) Q X s.
Proof. destruct b; unfold when, wp; naive_solver. Qed.

Lemma wp_if {A} (b : bool) (m1 m2 : M S E A) Q X s :
  (b = true -> wp m1 Q X s) -> (b = false -> wp m2 Q X s) ->
  wp (if b then m1 else m2) Q X s.
Proof. destruct b; naive_solver. Qed.

Lemma wp_getS (Q : S -> S -> Prop) (X : E -> S -> Prop) s : Q s s -> wp getS Q X s.
Proof. done. Qed.

Lemma wp_gets {A} (f : S -> A) (Q : A -> S -> Prop) (X : E -> S -> Prop) s :
  Q (f s) s -> wp (gets f) Q X s.
Proof. done. Qed.

Lemma wp_putS s' (Q : unit -> S -> Prop) (X : E -> S -> Prop) s : Q tt s' -> wp (putS s') Q X s.
Proof. done. Qed.

Lemma wp_modify f (Q : unit -> S -> Prop) (X : E -> S -> Prop) s :
  Q tt (f s) -> wp (modify f) Q X s.
Proof. done. Qed.

Lemma wp_throw {A} e (Q : A -> S -> Prop) (X : E -> S -> Prop) s : X e s -> wp (throw e) Q X s.
Proof. done. Qed.

(** A loop over a list keeps any invariant each iteration keeps. *)
Lemma wp_for_each {A} (l : list A) (body : A -> M S E unit) (I : S -> Prop) X s :
  I s ->
  (forall x s', x ∈ l -> I s' -> wp (body x) (fun _ => I) X s') ->
  wp (for_each l body) (fun _ => I) X s.
Proof.
  revert s. induction l as [|x l IH]; intros s HI Hb; [done|].
  cbn [for_each]. apply wp_bind.
  eapply wp_mono; [apply Hb; [set_solver|done]| |done].
  intros [] s' Hs'. apply IH; [done|]. intros y s'' Hy. apply Hb. set_solver.
Qed.

Lemma for_each_app {A} (l1 l2 : list A) (body : A -> M S E unit) s :
  for_each (l1 ++ l2) body s = (for_each l1 body;; for_each l2 body) s.
Proof.
  revert s. induction l1 as [|x l1 IH]; intros s; [done|].
  cbn [app for_each]. unfold mbind, M_bind in *. destruct (body x s); [apply IH|done..].
Qed.

(** A counted loop, with an invariant that depends on the counter. *)
Lemma wp_for_each_seqZ (a n : Z) (body : Z -> M S E unit) (I : Z -> S -> Prop) X s :
  0 <= n -> I a s ->
  (forall i s', a <= i < a + n -> I i s' -> wp (body i) (fun _ => I (i + 1)) X s') ->
  wp (for_each (seqZ a n) body) (fun _ => I (a + n)) X s.
Proof.
  intros Hn. rewrite <- (Z2Nat.id n) by done. generalize (Z.to_nat n). clear n Hn. intros n.
  revert a s. induction n as [|n IH]; intros a s HI Hb.
  - rewrite seqZ_nil by lia. cbn. by rewrite Z.add_0_r.
  - rewrite seqZ_cons by lia. cbn [for_each]. apply wp_bind.
    eapply wp_mono; [apply Hb; [lia|done]| |done].
    intros [] s' Hs'. replace (Z.pred (Z.of_nat (Datatypes.S n))) with (Z.of_nat n) by lia.
    replace (a + Z.of_nat (Datatypes.S n)) with ((a + 1) + Z.of_nat n) by lia.
    apply IH; [done|]. intros i s'' Hi. apply Hb. lia.
Qed.

Lemma returns_Ok {A} (m : M S E A) (Q : A -> S -> Prop) s :
  returns m Q s <-> exists a s', m s = Ok a s' /\ Q a s'.
Proof.
  unfold returns, wp. destruct (m s) as [a s'|e s'|r]; split; try naive_solver;
    intros (? & ? & [=]).
Qed.
End WP.

(** Running a sequence whose first part is known. *)
Lemma bind_run {S E A B} (m : M S E A) (f : A -> M S E B) s a s' :
  m s = Ok a s' -> (m ≫= f) s = f a s'.
Proof. intros Hm. unfold mbind, M_bind. by rewrite Hm. Qed.

Lemma bind_eq {S E A B} (m m' : M S E A) (f : A -> M S E B) s :
  m s = m' s -> (m ≫= f) s = (m' ≫= f) s.
Proof. unfold mbind, M_bind. by intros ->. Qed.

Lemma seq_run {S E A} (m1 m2 : M S E unit) (k : M S E A) s s' :
  (m1;; m2) s = Ok tt s' -> (m1;; m2;; k) s = k s'.
Proof.
  unfold mbind, M_bind. destruct (m1 s) as [[] s1| |]; [|done..]. by intros ->.
Qed.

Create HintDb wp discriminated.
#[export] Hint Resolve wp_ret : wp.

(** One step of symbolic execution of a goal [wp m Q X s]. *)
Ltac wp_step :=
  lazymatch goal with
  | |- wp (_ ≫= _) _ _ _ => apply wp_bind
  | |- wp (mret _) _ _ _ => apply wp_ret; cbn beta
  | |- wp (when _ _) _ _ _ => apply wp_when; intros ?
  | |- wp (if _ then _ else _) _ _ _ => apply wp_if; intros ?
  | |- wp getS _ _ _ => apply wp_getS; cbn beta
  | |- wp (gets _) _ _ _ => apply wp_gets; cbn beta
  | |- wp (modify _) _ _ _ => apply wp_modify; cbn beta
  | |- wp (putS _) _ _ _ => apply wp_putS; cbn beta
  | |- wp (throw _) _ _ _ => apply wp_throw; cbn beta
  end.

(** Decide, with [lia], the integer comparisons of the goal that have only one
    possible value in the context. *)
Ltac zbool :=
  repeat match goal with
  | |- context [?a =? ?b] =>
      first [ rewrite (proj2 (Z.eqb_eq a b)) by lia
            | rewrite (proj2 (Z.eqb_neq a b)) by lia ]
  | |- context [?a <? ?b] =>
      first [ rewrite (proj2 (Z.ltb_lt a b)) by lia
            | rewrite (proj2 (Z.ltb_ge a b)) by lia ]
  | |- context [?a <=? ?b] =>
      first [ rewrite (proj2 (Z.leb_le a b)) by lia
            | rewrite (proj2 (Z.leb_gt a b)) by lia ]
  end.

(** The boolean comparisons of the context, as propositions. *)
Ltac zprop :=
  repeat match goal with
  | H : (_ =? _) = true |- _ => apply Z.eqb_eq in H
  | H : (_ =? _) = false |- _ => apply Z.eqb_neq in H
  | H : (_ <? _) = true |- _ => apply Z.ltb_lt in H
  | H : (_ <? _) = false |- _ => apply Z.ltb_ge in H
  | H : (_ <=? _) = true |- _ => apply Z.leb_le in H
  | H : (_ <=? _) = false |- _ => apply Z.leb_gt in H
  | H : _ && _ = true |- _ => apply andb_true_iff in H; destruct H
  | H : _ || _ = false |- _ => apply orb_false_iff in H; destruct H
  | H : negb _ = true |- _ => apply negb_true_iff in H
  | H : negb _ = false |- _ => apply negb_false_iff in H
  end.

(** Evaluate the monadic combinators of the goal on the current state. *)
Ltac run := unfold mbind, M_bind, mret, M_ret, getS, gets, putS, modify, throw, abort,
                   assert_, when; cbn.
Tactic Notation "run" "in" hyp(H) :=
  unfold mbind, M_bind, mret, M_ret, getS, gets, putS, modify, throw, abort,
         assert_, when in H; cbn in H.

(** Drop wrap-arounds that do nothing. *)
Ltac no_wrap :=
  repeat match goal with
  | |- context [wrap ?w ?x] => rewrite (wrap_small w x) by (unfold in_width; lia)
  end.

(** ** Bits of integers *)

Lemma testbit_small x n i : 0 <= x < 2 ^ n -> 0 <= n <= i -> Z.testbit x i = false.
Proof.
  intros Hx Hi. rewrite <- (Z.mod_small x (2 ^ n)) by lia. apply Z.mod_pow2_bits_high. lia.
Qed.

Lemma lor_shiftl_add a b n : 0 <= n -> 0 <= a < 2 ^ n -> Z.lor a (Z.shiftl b n) = a + b * 2 ^ n.
Proof.
  intros Hn Ha. rewrite <- Z.shiftl_mul_pow2 by done.
  assert (H0 : Z.land a (Z.shiftl b n) = 0).
  { apply Z.bits_inj'. intros i Hi. rewrite Z.land_spec, Z.bits_0.
    destruct (Z.ltb_spec i n).
    - by rewrite Z.shiftl_spec_low, andb_false_r.
    - by rewrite (testbit_small a n i). }
  rewrite Z.add_nocarry_lxor by done. by rewrite Z.lxor_lor.
Qed.

Lemma land_bit m k : 0 <= k -> Z.land m (Z.shiftl 1 k) = if Z.testbit m k then 2 ^ k else 0.
Proof.
  intros Hk. rewrite Z.shiftl_1_l. apply Z.bits_inj'. intros i Hi.
  rewrite Z.land_spec, Z.pow2_bits_eqb by done.
  destruct (Z.eqb_spec k i) as [->|Hne].
  - destruct (Z.testbit m i) eqn:E; cbn; [|by rewrite Z.bits_0].
    by rewrite Z.pow2_bits_true.
  - rewrite andb_false_r. destruct (Z.testbit m k); [|by rewrite Z.bits_0].
    by rewrite Z.pow2_bits_false.
Qed.

Lemma land_bit_eqb m k : 0 <= k -> (Z.land m (Z.shiftl 1 k) =? 0) = negb (Z.testbit m k).
Proof.
  intros Hk. rewrite land_bit by done.
  destruct (Z.testbit m k); [|done]. cbn.
  apply Z.eqb_neq. pose proof (Z.pow_pos_nonneg 2 k). lia.
Qed.

Lemma wrap_testbit w x i : 0 <= i < w -> Z.testbit (wrap w x) i = Z.testbit x i.
Proof. intros. unfold wrap. apply Z.mod_pow2_bits_low. lia. Qed.

Lemma wrap_testbit_high w x i : 0 <= w <= i -> Z.testbit (wrap w x) i = false.
Proof. intros. unfold wrap. apply Z.mod_pow2_bits_high. lia. Qed.

Lemma wrap_pow2 w k : 0 <= k < w -> wrap w (Z.shiftl 1 k) = Z.shiftl 1 k.
Proof.
  intros. rewrite Z.shiftl_1_l. apply wrap_small. split; [lia|].
  apply Z.pow_lt_mono_r; lia.
Qed.

(** A number fits its width when its high bits are 0. *)
Lemma in_width_bits w x :
  0 <= w -> 0 <= x -> (forall i, w <= i -> Z.testbit x i = false) -> in_width w x.
Proof.
  intros Hw Hx Hb. replace x with (wrap w x); [by apply wrap_range|].
  apply Z.bits_inj'. intros i Hi. destruct (decide (i < w)).
  - by rewrite wrap_testbit by lia.
  - rewrite wrap_testbit_high, Hb by lia. done.
Qed.

Lemma in_width_high w x i : in_width w x -> 0 <= w <= i -> Z.testbit x i = false.
Proof. intros. by apply (testbit_small _ w). Qed.

Lemma in_width_land w x y : 0 <= w -> in_width w x -> in_width w y -> in_width w (Z.land x y).
Proof.
  intros Hw Hx Hy. apply in_width_bits; [done|apply Z.land_nonneg; left; apply Hx|].
  intros i Hi. rewrite Z.land_spec, (in_width_high w x) by (done || lia). done.
Qed.

Lemma in_width_lor w x y : 0 <= w -> in_width w x -> in_width w y -> in_width w (Z.lor x y).
Proof.
  intros Hw Hx Hy. apply in_width_bits; [done|apply Z.lor_nonneg; split; [apply Hx|apply Hy]|].
  intros i Hi. rewrite Z.lor_spec, (in_width_high w x), (in_width_high w y) by (done || lia). done.
Qed.

Lemma in_width_lxor w x y : 0 <= w -> in_width w x -> in_width w y -> in_width w (Z.lxor x y).
Proof.
  intros Hw Hx Hy. apply in_width_bits; [done| |].
  - apply Z.lxor_nonneg. destruct Hx, Hy. split; done.
  - intros i Hi. rewrite Z.lxor_spec, (in_width_high w x), (in_width_high w y) by (done || lia). done.
Qed.

Lemma wrap_lnot w x : 0 <= w -> in_width w x -> wrap w (Z.lnot x) = 2 ^ w - 1 - x.
Proof.
  intros Hw Hx. unfold wrap, in_width in *.
  replace (Z.lnot x) with ((2 ^ w - 1 - x) + (-1) * 2 ^ w)
    by (unfold Z.lnot; lia).
  rewrite Z.mod_add, Z.mod_small by lia. done.
Qed.

Lemma land_255 x : Z.land x 255 = x mod 256.
Proof. change 255 with (Z.ones 8). apply Z.land_ones. lia. Qed.

Lemma shiftr_8 x : Z.shiftr x 8 = x / 256.
Proof. apply Z.shiftr_div_pow2. lia. Qed.

(** A decidable property of the integers below a bound, by computation. *)
Lemma forall_below (P : Z -> Prop) `{forall c, Decision (P c)} n :
  forallb (fun c => bool_decide (P c)) (seqZ 0 n) = true -> forall c, 0 <= c < n -> P c.
Proof.
  intros Hall c Hc. rewrite forallb_forall in Hall.
  apply (bool_decide_eq_true_1 (P c)), Hall, list_elem_of_In, elem_of_seqZ. lia.
Qed.

(** ** Lists indexed by [Z] *)

Definition zlen {A} (l : list A) : Z := Z.of_nat (length l).
Definition ztake {A} (n : Z) (l : list A) : list A := take (Z.to_nat n) l.
Definition zdrop {A} (n : Z) (l : list A) : list A := drop (Z.to_nat n) l.

#[global] Arguments zlen : simpl never.
#[global] Arguments ztake : simpl never.
#[global] Arguments zdrop : simpl never.

Lemma zlen_app {A} (l1 l2 : list A) : zlen (l1 ++ l2) = zlen l1 + zlen l2.
Proof. unfold zlen. rewrite length_app. lia. Qed.

Lemma zlen_nonneg {A} (l : list A) : 0 <= zlen l.
Proof. unfold zlen. lia. Qed.

Lemma zlen_cons {A} (x : A) l : zlen (x :: l) = 1 + zlen l.
Proof. unfold zlen. cbn [length]. lia. Qed.

Lemma ztake_all {A} (l : list A) : ztake (zlen l) l = l.
Proof. unfold ztake, zlen. rewrite Nat2Z.id. apply firstn_all. Qed.

Lemma ztake_app {A} (l1 l2 : list A) : ztake (zlen l1) (l1 ++ l2) = l1.
Proof. unfold ztake, zlen. rewrite Nat2Z.id. apply take_app_length. Qed.

Lemma zdrop_app {A} (l1 l2 : list A) : zdrop (zlen l1) (l1 ++ l2) = l2.
Proof. unfold zdrop, zlen. rewrite Nat2Z.id. apply drop_app_length. Qed.

Lemma zlen_nil {A} : zlen (@nil A) = 0.
Proof. done. Qed.

Lemma zlen_omap {A B} (g : A -> option B) (l : list A) : zlen (omap g l) <= zlen l.
Proof.
  unfold omap. induction l as [|x l IH]; [done|]. cbn [list_omap].
  destruct (g x); rewrite !zlen_cons; lia.
Qed.

Lemma zlen_concat_const {A} (fmt : A -> list Z) n (l : list A) :
  (forall x, zlen (fmt x) = n) -> zlen (concat (map fmt l)) = n * zlen l.
Proof.
  intros Hn. induction l as [|x l IH]; cbn [map concat]; [unfold zlen; cbn; lia|].
  rewrite zlen_app, zlen_cons, Hn, IH. lia.
Qed.

Create Rewrite HintDb zlen.
#[export] Hint Rewrite @zlen_app @zlen_cons @zlen_nil : zlen.

(** Record that the lengths in sight are not negative. *)
Ltac zlen_pos :=
  repeat match goal with
  | |- context [zlen ?l] =>
      lazymatch goal with H : 0 <= zlen l |- _ => fail | _ => pose proof (zlen_nonneg l) end
  | _ : context [zlen ?l] |- _ =>
      lazymatch goal with H : 0 <= zlen l |- _ => fail | _ => pose proof (zlen_nonneg l) end
  end.

Ltac zsimp := autorewrite with zlen in *; zlen_pos.

(** Evaluate the powers of two of the goal. *)
Ltac zpow :=
  repeat match goal with
  | |- context [2 ^ ?k] =>
      let v := eval vm_compute in (2 ^ k) in
      lazymatch v with Z0 => idtac | Zpos _ => idtac end; change (2 ^ k) with v
  end.

Ltac no_swrap :=
  repeat match goal with
  | |- context [swrap ?w ?x] =>
      rewrite (swrap_small w x) by (lia || (unfold in_swidth; zpow; lia))
  end.

(** [lia] for goals with divisions by constants. *)
Ltac divmod_lia := Z.to_euclidean_division_equations; lia.
