(* ===== verification/Float32.v ===== *)
(** * Single-precision arithmetic

    The [float] of the C++ code: IEEE binary32 as the executable
    [spec_float] of the standard library (24 bits of precision, exponents up
    to 128, round to nearest even), with the integer conversions of the x86-64
    builds: a float out of the range of [int32] converts to the "integer
    indefinite" value [INT32_MIN]. *)

From Stdlib Require Import SpecFloat.
From S2P Require Import Prelude.

Abbreviation f32 := spec_float.

Definition f32_prec : Z := 24.
Definition f32_emax : Z := 128.

Definition f32_add (x y : f32) : f32 := SFadd f32_prec f32_emax x y.
Definition f32_sub (x y : f32) : f32 := SFsub f32_prec f32_emax x y.
Definition f32_mul (x y : f32) : f32 := SFmul f32_prec f32_emax x y.
Definition f32_div (x y : f32) : f32 := SFdiv f32_prec f32_emax x y.
Definition f32_ltb (x y : f32) : bool := SFltb x y.
Definition f32_leb (x y : f32) : bool := SFleb x y.
Definition f32_eqb (x y : f32) : bool := SFeqb x y.

(** [(float)z] for an integer [z]. *)
Definition f32_of_Z (z : Z) : f32 := binary_normalize f32_prec f32_emax z 0 false.

(** The real value of a finite float, rounded down or towards zero. *)
Definition f32_signed (s : bool) (m : positive) : Z := if s then Z.neg m else Z.pos m.

Definition f32_floor (x : f32) : option Z :=
  match x with
  | S754_zero _ => Some 0
  | S754_finite s m e =>
      Some (if 0 <=? e then f32_signed s m * 2 ^ e else f32_signed s m / 2 ^ (- e))
  | _ => None
  end.

Definition f32_trunc (x : f32) : option Z :=
  match x with
  | S754_zero _ => Some 0
  | S754_finite s m e =>
      Some (if 0 <=? e then f32_signed s m * 2 ^ e else Z.quot (f32_signed s m) (2 ^ (- e)))
  | _ => None
  end.

Definition to_int32 (o : option Z) : Z :=
  match o with
  | Some z => if (- 2 ^ 31 <=? z) && (z <? 2 ^ 31) then z else - 2 ^ 31
  | None => - 2 ^ 31
  end.

(** [int32(x)], and [int32(floor(x))]. *)
Definition int32_of_f32 (x : f32) : Z := to_int32 (f32_trunc x).
Definition int32_of_floor (x : f32) : Z := to_int32 (f32_floor x).

(** [uint32(x)]: the conversion to 64 bits, cut. *)
Definition uint32_of_f32 (x : f32) : Z :=
  match f32_trunc x with
  | Some z => if (- 2 ^ 63 <=? z) && (z <? 2 ^ 63) then u32 z else 0
  | None => 0
  end.

Definition f32_opp (x : f32) : f32 := SFopp x.

(** The constants the code uses. *)
Definition f32_quarter : f32 := S754_finite false 8388608 (-25).
Definition f32_half : f32 := S754_finite false 8388608 (-24).
Definition f32_zero : f32 := S754_zero false.
Definition f32_hundred : f32 := f32_of_Z 100.

(** ** Representations

    The 32 bits of a [float] in memory.  Which NaN an operation produces is not
    specified by the language; the quiet NaN of x86 stands for all. *)

Definition f32_of_bits (x : Z) : f32 :=
  let s := Z.testbit x 31 in
  let e := (x / 2 ^ 23) mod 256 in
  let m := x mod 2 ^ 23 in
  if e =? 255 then (if m =? 0 then S754_infinity s else S754_nan)
  else if e =? 0 then match m with Zpos p => S754_finite s p (-149) | _ => S754_zero s end
  else match m + 2 ^ 23 with Zpos p => S754_finite s p (e - 150) | _ => S754_nan end.

Definition f32_sign_bit (s : bool) : Z := if s then 2 ^ 31 else 0.

Definition f32_bits (x : f32) : Z :=
  match x with
  | S754_zero s => f32_sign_bit s
  | S754_infinity s => f32_sign_bit s + 255 * 2 ^ 23
  | S754_nan => 0x7FC00000
  | S754_finite s m e =>
      f32_sign_bit s +
      (if Zpos m <? 2 ^ 23 then Zpos m else (e + 150) * 2 ^ 23 + (Zpos m - 2 ^ 23))
  end.

(** [fmod], which is exact. *)
Definition f32_fmod (x y : f32) : f32 :=
  match x, y with
  | S754_finite s mx ex, S754_finite _ my ey =>
      let e := Z.min ex ey in
      let r := (Zpos mx * 2 ^ (ex - e)) mod (Zpos my * 2 ^ (ey - e)) in
      binary_normalize f32_prec f32_emax (if s then - r else r) e s
  | S754_zero _, S754_finite _ _ _ | S754_zero _, S754_infinity _ => x
  | S754_finite _ _ _, S754_infinity _ => x
  | _, _ => S754_nan
  end.

(** The [double]s a [float] is promoted to. *)
Definition f64_prec : Z := 53.
Definition f64_emax : Z := 1024.
Definition f64_add (x y : spec_float) : spec_float := SFadd f64_prec f64_emax x y.
Definition f64_sub (x y : spec_float) : spec_float := SFsub f64_prec f64_emax x y.
Definition f64_mul (x y : spec_float) : spec_float := SFmul f64_prec f64_emax x y.
Definition f64_of_f32 (x : f32) : spec_float :=
  match x with
  | S754_finite s m e => binary_normalize f64_prec f64_emax (f32_signed s m) e s
  | _ => x
  end.

Lemma to_int32_range o : in_swidth 32 (to_int32 o).
Proof.
  unfold to_int32, in_swidth. destruct o as [z|]; [|lia].
  destruct (_ && _) eqn:Hr; [|lia].
  apply andb_true_iff in Hr as [?%Z.leb_le ?%Z.ltb_lt]. lia.
Qed.

Lemma int32_of_f32_range x : in_swidth 32 (int32_of_f32 x).
Proof. apply to_int32_range. Qed.

Lemma int32_of_floor_range x : in_swidth 32 (int32_of_floor x).
Proof. apply to_int32_range. Qed.

(** A representation other than a NaN's is that of its value. *)
Lemma f32_bits_of_bits x :
  in_width 32 x -> f32_of_bits x <> S754_nan -> f32_bits (f32_of_bits x) = x.
Proof.
  unfold in_width. intros Hx. unfold f32_of_bits.
  assert (Hs : x = f32_sign_bit (Z.testbit x 31) + ((x / 2 ^ 23) mod 256 * 2 ^ 23 + x mod 2 ^ 23)).
  { unfold f32_sign_bit. rewrite Z.testbit_eqb by lia.
    destruct (Z.eqb_spec ((x / 2 ^ 31) mod 2) 1); divmod_lia. }
  pose proof (Z.mod_pos_bound x (2 ^ 23)). pose proof (Z.mod_pos_bound (x / 2 ^ 23) 256).
  set (s := Z.testbit x 31) in *. set (e := (x / 2 ^ 23) mod 256) in *.
  set (m := x mod 2 ^ 23) in *. clearbody s e m.
  destruct (Z.eqb_spec e 255) as [->|He].
  { destruct (Z.eqb_spec m 0) as [->|]; [|done]. intros _. cbn. lia. }
  destruct (Z.eqb_spec e 0) as [->|He0]; intros Hnan.
  - destruct m as [|p|p]; cbn [f32_bits]; zbool; lia.
  - destruct (m + 2 ^ 23) as [|p|p] eqn:Hp; [done| |done]. cbn [f32_bits]. zbool. lia.
Qed.

(** ** Order

    Numbers are ordered by sign, exponent and mantissa. *)

Definition number (x : f32) : bool := match x with S754_nan => false | _ => true end.

Definition order_key (x : f32) : Z * Z * Z :=
  match x with
  | S754_infinity s => ((if s then -2 else 2), 0, 0)
  | S754_finite s m e => if s then (-1, - e, Z.neg m) else (1, e, Z.pos m)
  | _ => (0, 0, 0)
  end.

Definition key_lt (k l : Z * Z * Z) : Prop :=
  k.1.1 < l.1.1 \/ k.1.1 = l.1.1 /\ (k.1.2 < l.1.2 \/ k.1.2 = l.1.2 /\ k.2 < l.2).

Lemma SFcompare_key x y : number x = true -> number y = true ->
  match SFcompare x y with
  | Some Lt => key_lt (order_key x) (order_key y)
  | Some Gt => key_lt (order_key y) (order_key x)
  | Some Eq => order_key x = order_key y
  | None => False
  end.
Proof.
  unfold key_lt. destruct x as [[]|[]| |[] m e], y as [[]|[]| |[] n f]; try done; intros _ _; cbn; try lia.
  - destruct (Z.compare_spec e f); cbn; try lia. subst.
    change (PosDef.Pos.compare_cont Eq m n) with (Pos.compare m n). destruct (Pos.compare_spec m n); cbn; [by subst|lia..].
  - destruct (Z.compare_spec e f); cbn; try lia. subst.
    change (PosDef.Pos.compare_cont Eq m n) with (Pos.compare m n). destruct (Pos.compare_spec m n); cbn; [by subst|lia..].
Qed.

Lemma ltb_key x y : f32_ltb x y = true <-> number x = true /\ number y = true /\ key_lt (order_key x) (order_key y).
Proof.
  unfold f32_ltb, SFltb. split.
  - intros Hlt. assert (number x = true /\ number y = true) as [Hx Hy].
    { by destruct x as [[]|[]| |[] ? ?], y as [[]|[]| |[] ? ?]. }
    pose proof (SFcompare_key x y Hx Hy) as Hc. by destruct (SFcompare x y) as [[]|].
  - intros (Hx & Hy & Hlt). pose proof (SFcompare_key x y Hx Hy) as Hc. unfold key_lt in *.
    destruct (SFcompare x y) as [[]|]; [rewrite Hc in Hlt; lia|done|lia|done].
Qed.

Lemma leb_key x y : f32_leb x y = true <-> number x = true /\ number y = true /\ ~ key_lt (order_key y) (order_key x).
Proof.
  unfold f32_leb, SFleb. split.
  - intros Hlt. assert (number x = true /\ number y = true) as [Hx Hy].
    { by destruct x as [[]|[]| |[] ? ?], y as [[]|[]| |[] ? ?]. }
    pose proof (SFcompare_key x y Hx Hy) as Hc. unfold key_lt in *. split_and!; [done..|].
    destruct (SFcompare x y) as [[]|]; [rewrite Hc; lia|lia|done..].
  - intros (Hx & Hy & Hlt). pose proof (SFcompare_key x y Hx Hy) as Hc. by destruct (SFcompare x y) as [[]|].
Qed.

Lemma leb_negb_ltb x y : number x = true -> number y = true -> f32_leb x y = negb (f32_ltb y x).
Proof.
  intros Hx Hy. apply eq_true_iff_eq. rewrite negb_true_iff, <- not_true_iff_false, ltb_key, leb_key. tauto.
Qed.

(** What is no greater than something at most [z] is at most [z]. *)
Lemma not_ltb_leb_trans x y z : number x = true -> f32_ltb y x = false -> f32_leb y z = true -> f32_leb x z = true.
Proof.
  intros Hx Hyx Hyz. apply leb_key in Hyz as (Hy & Hz & Hyz). apply leb_key. split_and!; [done..|].
  apply not_true_iff_false in Hyx. rewrite ltb_key in Hyx. unfold key_lt in *. intros Hzx. apply Hyx. split_and!; [done..|]. lia.
Qed.

(** ** Products of numbers *)

Lemma shr_1_nonneg r : 0 <= shr_m r -> 0 <= shr_m (shr_1 r).
Proof. destruct r as [[|[]|] ? ?]; cbn; lia. Qed.
Lemma iter_shr_nonneg n r : 0 <= shr_m r -> 0 <= shr_m (SpecFloat.iter_pos shr_1 n r).
Proof.
  revert r. induction n as [n IH|n IH|]; intros r Hr; cbn [SpecFloat.iter_pos]; [by apply IH, IH, shr_1_nonneg|by apply IH, IH|].
  by apply shr_1_nonneg.
Qed.
Lemma shr_fexp_nonneg m e l : 0 <= m -> 0 <= shr_m (fst (shr_fexp f32_prec f32_emax m e l)).
Proof.
  intros Hm. unfold shr_fexp, shr.
  assert (Hr : 0 <= shr_m (shr_record_of_loc m l)) by (destruct l as [|[]]; exact Hm).
  destruct (_ - _); cbn; [done|by apply iter_shr_nonneg|done].
Qed.
Lemma round_number s m e l : 0 <= m -> number (binary_round_aux f32_prec f32_emax s m e l) = true.
Proof.
  intros Hm. unfold binary_round_aux. destruct (shr_fexp _ _ m e l) as [r1 e1] eqn:E1.
  pose proof (shr_fexp_nonneg m e l Hm) as H1. rewrite E1 in H1. cbn in H1.
  assert (H2 : 0 <= round_nearest_even (shr_m r1) (loc_of_shr_record r1)).
  { unfold round_nearest_even. destruct (loc_of_shr_record r1) as [|[]]; try lia. destruct (Z.even _); lia. }
  destruct (shr_fexp _ _ (round_nearest_even _ _) e1 loc_Exact) as [r2 e2] eqn:E2.
  pose proof (shr_fexp_nonneg _ e1 loc_Exact H2) as H3. rewrite E2 in H3. cbn in H3.
  destruct (shr_m r2); [done|by destruct (e2 <=? _)|lia].
Qed.

Lemma mul_number s m e y : number y = true -> number (f32_mul (S754_finite s m e) y) = true.
Proof. intros Hy. destruct y as [| | |t n f]; try done. by apply round_number. Qed.
