(* ===== verification/ByteBuffer.v ===== *)
(** * The packet buffer

    [src/src/server/shared/Packets/ByteBuffer.h] with
    [Utilities/ByteConverter.h]: the byte and bit cursors over a byte vector
    through which every network packet is written and read. *)

From S2P Require Import Prelude Float32.

(** ** Data *)

Record ByteBuffer := mkByteBuffer {
  _rpos : Z;
  _wpos : Z;
  _bitpos : Z;
  _curbitval : Z;
  _storage : list Z
}.

#[export] Instance ByteBuffer_settable : Settable ByteBuffer :=
  fun b => mkByteBuffer (_rpos b) (_wpos b) (_bitpos b) (_curbitval b) (_storage b).

Inductive ByteBufferException :=
| ByteBufferPositionException (add : bool) (pos size valueSize : Z)
| ByteBufferSourceException (pos size valueSize : Z).

Abbreviation BB := (M ByteBuffer ByteBufferException).

(** The byte order of the host ([TRINITY_ENDIAN]). *)
Class Host := { TRINITY_BIGENDIAN : bool }.

(** [ByteBuffer()]; the reserved capacity is not observable. *)
Definition ByteBuffer_new : ByteBuffer :=
  {| _rpos := 0; _wpos := 0; _bitpos := 8; _curbitval := 0; _storage := [] |}.

Definition ByteBuffer_copy (buf : ByteBuffer) : ByteBuffer :=
  {| _rpos := _rpos buf; _wpos := _wpos buf; _bitpos := _bitpos buf;
     _curbitval := _curbitval buf; _storage := _storage buf |}.

Definition size (b : ByteBuffer) : Z := zlen (_storage b).
Definition empty (b : ByteBuffer) : bool := size b =? 0.
Definition contents (b : ByteBuffer) : list Z := _storage b.

Definition clear : BB unit :=
  modify (fun b => b <| _storage := [] |> <| _rpos := 0 |> <| _wpos := 0 |>).

(** ** Objects in memory and byte order *)

Fixpoint le_bytes (n : nat) (v : Z) : list Z :=
  match n with
  | O => []
  | S n' => v mod 256 :: le_bytes n' (v / 256)
  end.

Fixpoint le_value (bs : list Z) : Z :=
  match bs with
  | [] => 0
  | x :: bs' => x + 256 * le_value bs'
  end.

(** [ByteConverter::convert<T>]: swap the outer bytes, then the inner ones. *)
Fixpoint convert (T : nat) (val : list Z) : list Z :=
  match T with
  | S (S T') =>
      match val with
      | [] => []
      | x :: val' =>
          match last val' with
          | None => val
          | Some y => y :: convert T' (take (length val' - 1) val') ++ [x]
          end
      end
  | _ => val
  end.

Section Memory.
Context `{Host}.

(** The bytes of an [n]-byte object of value [v] on this host. *)
Definition object_bytes (n : nat) (v : Z) : list Z :=
  if TRINITY_BIGENDIAN then rev (le_bytes n v) else le_bytes n v.
Definition object_value (bs : list Z) : Z :=
  if TRINITY_BIGENDIAN then le_value (rev bs) else le_value bs.

(** [EndianConvert]: nothing on a little-endian host, and nothing for the
    one-byte overloads. *)
Definition EndianConvert (bs : list Z) : list Z :=
  if TRINITY_BIGENDIAN then convert (length bs) bs else bs.
End Memory.

(** ** Raw vector operations *)

(** [std::vector::resize(n, 0)]. *)
Definition vector_resize (n : Z) (l : list Z) : list Z :=
  ztake n l ++ replicate (Z.to_nat (n - zlen l)) 0.

(** [memcpy] of [src] over the vector, from index [pos]; past the end of the
    vector it is undefined. *)
Definition memcpy_at (pos : Z) (src : list Z) : BB unit := fun b =>
  if (0 <=? pos) && (pos + zlen src <=? size b)
  then Ok tt (b <| _storage := ztake pos (_storage b) ++ src ++ zdrop (pos + zlen src) (_storage b) |>)
  else Abort UndefinedBehaviour.

(** The [n] bytes from index [pos]. *)
Definition load_at (pos n : Z) : BB (list Z) := fun b =>
  if (0 <=? pos) && (pos + n <=? size b)
  then Ok (ztake n (zdrop pos (_storage b))) b
  else Abort UndefinedBehaviour.

(** ** Appending *)

(** [append(const uint8* src, size_t cnt)]; [None] is the null pointer. *)
Definition append_raw (src : option (list Z)) (cnt : Z) : BB unit :=
  b ← getS;
  if cnt =? 0 then throw (ByteBufferSourceException (_wpos b) (size b) cnt) else
  match src with
  | None => throw (ByteBufferSourceException (_wpos b) (size b) cnt)
  | Some bytes =>
      assert_ (size b <? 10000000);;
      when (size b <? u64 (_wpos b + cnt))
        (modify (fun b => b <| _storage ::= vector_resize (u64 (_wpos b + cnt)) |>));;
      memcpy_at (_wpos b) (ztake cnt bytes);;
      modify (fun b => b <| _wpos := u64 (_wpos b + cnt) |>)
  end.

Definition append_bytes (bs : list Z) : BB unit := append_raw (Some bs) (zlen bs).

Definition FlushBits : BB unit :=
  b ← getS;
  if _bitpos b =? 8 then mret tt else
  append_bytes [_curbitval b];;
  modify (fun b => b <| _curbitval := 0 |> <| _bitpos := 8 |>).

(** [append<T>(T value)] for a [T] of [n] bytes. *)
Definition append_T `{Host} (n : nat) (value : Z) : BB unit :=
  FlushBits;;
  append_bytes (EndianConvert (object_bytes n value)).

(** [append(const ByteBuffer& buffer)]. *)
Definition append_buffer (buffer : ByteBuffer) : BB unit :=
  when (negb (_wpos buffer =? 0))
    (append_raw (Some (contents buffer)) (_wpos buffer)).

(** ** Reading *)

(** [read<T>(size_t pos)]. *)
Definition read_T_at `{Host} (n : nat) (pos : Z) : BB Z :=
  b ← getS;
  if size b <? u64 (pos + Z.of_nat n)
  then throw (ByteBufferPositionException false pos (Z.of_nat n) (size b))
  else bs ← load_at pos (Z.of_nat n);
       mret (object_value (EndianConvert bs)).

(** [read<T>()]. *)
Definition read_T `{Host} (n : nat) : BB Z :=
  b ← getS;
  r ← read_T_at n (_rpos b);
  modify (fun b => b <| _rpos := u64 (_rpos b + Z.of_nat n) |>);;
  mret r.

(** [read(uint8* dest, size_t len)]. *)
Definition read_raw (len : Z) : BB (list Z) :=
  b ← getS;
  if size b <? u64 (_rpos b + len)
  then throw (ByteBufferPositionException false (_rpos b) len (size b))
  else bs ← load_at (_rpos b) len;
       modify (fun b => b <| _rpos := u64 (_rpos b + len) |>);;
       mret bs.

Definition read_skip (skip : Z) : BB unit :=
  b ← getS;
  if size b <? u64 (_rpos b + skip)
  then throw (ByteBufferPositionException false (_rpos b) skip (size b))
  else modify (fun b => b <| _rpos := u64 (_rpos b + skip) |>).

(** ** Bits *)

Definition WriteBit (bit : Z) : BB bool :=
  modify (fun b => b <| _bitpos ::= fun p => u64 (p - 1) |>);;
  b ← getS;
  when (negb (bit =? 0))
    (if 31 <? _bitpos b then abort UndefinedBehaviour else
     modify (fun b => b <| _curbitval ::= fun c => u8 (Z.lor c (Z.shiftl 1 (_bitpos b))) |>));;
  when (_bitpos b =? 0)
    (modify (fun b => b <| _bitpos := 8 |>);;
     b ← getS;
     append_bytes [_curbitval b];;
     modify (fun b => b <| _curbitval := 0 |>));;
  mret (negb (bit =? 0)).

Definition ReadBit `{Host} : BB bool :=
  modify (fun b => b <| _bitpos ::= fun p => u64 (p + 1) |>);;
  b ← getS;
  when (7 <? _bitpos b)
    (modify (fun b => b <| _bitpos := 0 |>);;
     c ← read_T 1;
     modify (fun b => b <| _curbitval := c |>));;
  b ← getS;
  mret (negb (Z.land (Z.shiftr (_curbitval b) (7 - _bitpos b)) 1 =? 0)).

(** [for (int32 i = bits-1; i >= 0; --i)]: the number of iterations. *)
Definition bit_iterations (bits : Z) : nat := Z.to_nat (s32 (u64 (bits - 1)) + 1).

(** A shift by the width [w] of its (promoted) operand or more is undefined. *)
Fixpoint WriteBits_loop (w : Z) (value : Z) (n : nat) : BB unit :=
  match n with
  | O => mret tt
  | S i =>
      (if w <=? Z.of_nat i then abort UndefinedBehaviour else
       WriteBit (Z.land (Z.shiftr value (Z.of_nat i)) 1));;
      WriteBits_loop w value i
  end.

(** [WriteBits<T>(T value, size_t bits)] for a [T] that promotes to [w] bits. *)
Definition WriteBits (w value bits : Z) : BB unit :=
  WriteBits_loop w value (bit_iterations bits).

Fixpoint ReadBits_loop `{Host} (n : nat) (value : Z) : BB Z :=
  match n with
  | O => mret value
  | S i =>
      bit ← ReadBit;
      if (bit : bool)
      then if 32 <=? Z.of_nat i then abort UndefinedBehaviour
           else ReadBits_loop i (Z.lor value (u32 (Z.shiftl 1 (Z.of_nat i))))
      else ReadBits_loop i value
  end.

Definition ReadBits `{Host} (bits : Z) : BB Z := ReadBits_loop (bit_iterations bits) 0.

(** [ReadByteSeq(uint8& b)] returns the new value of [b]. *)
Definition ReadByteSeq `{Host} (b : Z) : BB Z :=
  if negb (b =? 0) then x ← read_T 1; mret (Z.lxor b x) else mret b.

Definition WriteByteSeq `{Host} (b : Z) : BB unit :=
  if negb (b =? 0) then append_T 1 (Z.lxor b 1) else mret tt.

(** ** Overwriting *)

(** [put(size_t pos, const uint8 *src, size_t cnt)]. *)
Definition put_raw (pos : Z) (src : option (list Z)) (cnt : Z) : BB unit :=
  b ← getS;
  if size b <? u64 (pos + cnt) then throw (ByteBufferPositionException true pos cnt (size b)) else
  match src with
  | None => throw (ByteBufferSourceException (_wpos b) (size b) cnt)
  | Some bytes => memcpy_at pos (ztake cnt bytes)
  end.

(** [put<T>(size_t pos, T value)]. *)
Definition put_T `{Host} (n : nat) (pos value : Z) : BB unit :=
  let bs := EndianConvert (object_bytes n value) in
  put_raw pos (Some bs) (zlen bs).

(** One iteration of the loop of [PutBits]: bit [i] of the [bitCount]. *)
Definition PutBits_step (w pos value bitCount i : Z) : BB unit :=
  b ← getS;
  let wp := u64 (pos + i) / 8 in
  let bit := u64 (pos + i) mod 8 in
  if w <=? bitCount - i - 1 then abort UndefinedBehaviour else
  match _storage b !! Z.to_nat wp with
  | None => abort UndefinedBehaviour
  | Some x =>
      let x' := if negb (Z.land (Z.shiftr value (bitCount - i - 1)) 1 =? 0)
                then u8 (Z.lor x (Z.shiftl 1 (7 - bit)))
                else u8 (Z.land x (Z.lnot (Z.shiftl 1 (7 - bit)))) in
      modify (fun b => b <| _storage ::= <[Z.to_nat wp := x']> |>)
  end.

Definition PutBits (w pos value bitCount : Z) : BB unit :=
  b ← getS;
  if bitCount =? 0 then
    throw (ByteBufferSourceException (u64 (pos + bitCount) / 8) (size b) 0)
  else if u64 (size b * 8) <? u64 (pos + bitCount) then
    throw (ByteBufferPositionException false (u64 (pos + bitCount) / 8) (size b)
             ((bitCount - 1) / 8 + 1))
  else for_each (seqZ 0 bitCount) (PutBits_step w pos value bitCount).

(** ** Cursors *)

Definition get_rpos : BB Z := gets _rpos.
Definition set_rpos (rpos_ : Z) : BB Z := modify (fun b => b <| _rpos := rpos_ |>);; gets _rpos.
Definition rfinish : BB unit := modify (fun b => b <| _rpos := _wpos b |>).
Definition get_wpos : BB Z := gets _wpos.
Definition set_wpos (wpos_ : Z) : BB Z := modify (fun b => b <| _wpos := wpos_ |>);; gets _wpos.
Definition bitwpos_of (b : ByteBuffer) : Z := u64 (_wpos b * 8 + 8 - _bitpos b).
Definition bitwpos : BB Z := gets bitwpos_of.
Definition set_bitwpos (newPos : Z) : BB Z :=
  modify (fun b => b <| _wpos := newPos / 8 |> <| _bitpos := 8 - newPos mod 8 |>);;
  gets bitwpos_of.
Definition index (pos : Z) : BB Z :=
  b ← getS;
  if size b <=? pos then throw (ByteBufferPositionException false pos 1 (size b)) else
  match _storage b !! Z.to_nat pos with
  | Some x => mret x
  | None => abort UndefinedBehaviour
  end.
Definition resize (newsize : Z) : BB unit :=
  modify (fun b => b <| _storage ::= vector_resize newsize |> <| _rpos := 0 |>);;
  modify (fun b => b <| _wpos := size b |>).

(** ** Scalars: the [operator<<] and [operator>>] overloads *)

Inductive scalar :=
| TBool | TU8 | TU16 | TU32 | TU64 | TI8 | TI16 | TI32 | TI64 | TFloat | TDouble.

Definition sizeof (t : scalar) : nat :=
  match t with
  | TBool | TU8 | TI8 => 1
  | TU16 | TI16 => 2
  | TU32 | TI32 | TFloat => 4
  | TU64 | TI64 | TDouble => 8
  end.

(** The size of the parameter of the [operator<<] overload a type selects.
    There is none for [bool]: the promotion to [int] selects the one for
    [int32], so a [bool] is written as four bytes and read as one. *)
Definition sizeof_out (t : scalar) : nat :=
  match t with
  | TBool => 4
  | _ => sizeof t
  end.

(** [b << v]; floating-point values are given by their representation. *)
Definition out `{Host} (t : scalar) (value : Z) : BB unit := append_T (sizeof_out t) value.

(** [b >> v]; [char] is signed, so a [bool] is true from 1 to 127. *)
Definition inn `{Host} (t : scalar) : BB Z :=
  r ← read_T (sizeof t);
  mret (match t with
        | TBool => if 0 <? s8 r then 1 else 0
        | TI8 => s8 r
        | TI16 => s16 r
        | TI32 => s32 r
        | TI64 => s64 r
        | _ => r
        end).

(** ** Strings (their bytes, as unsigned values) *)

(** [operator<<(std::string const&)]: the text is appended raw, the
    terminator through [append<uint8>]. *)
Definition out_string `{Host} (value : list Z) : BB unit :=
  when (negb (zlen value =? 0)) (append_raw (Some value) (zlen value));;
  append_T 1 0.

(** The C string that starts a buffer: the bytes before the first zero. *)
Fixpoint c_str (s : list Z) : list Z :=
  match s with
  | [] => []
  | c :: s' => if c =? 0 then [] else c :: c_str s'
  end.

(** [operator<<] for a C string; [None] is the null pointer. *)
Definition out_cstring `{Host} (str : option (list Z)) : BB unit :=
  let len := match str with Some s => zlen (c_str s) | None => 0 end in
  when (negb (len =? 0)) (append_raw str len);;
  append_T 1 0.

(** [operator>>(std::string&)]: [fuel] bounds the iterations; the buffer's
    size is enough, as every iteration advances the read cursor. *)
Fixpoint inn_string_loop `{Host} (fuel : nat) (value : list Z) : BB (list Z) :=
  b ← getS;
  if _rpos b <? size b then
    match fuel with
    | O => abort UndefinedBehaviour
    | S fuel' =>
        c ← read_T 1;
        if c =? 0 then mret value else inn_string_loop fuel' (value ++ [c])
    end
  else mret value.

Definition inn_string `{Host} : BB (list Z) :=
  b ← getS;
  inn_string_loop (length (_storage b)) [].

(** [ReadString]: the C string in the next [length] bytes. *)
Definition ReadString (length : Z) : BB (list Z) :=
  if length =? 0 then mret [] else
  bs ← read_raw length;
  mret (c_str bs).

Definition WriteString (str : list Z) : BB unit :=
  when (negb (zlen str =? 0)) (append_raw (Some str) (zlen str)).

(** [read_skip<char*>]. *)
Definition read_skip_string `{Host} : BB unit := inn_string;; mret tt.

(** ** Packed GUIDs *)

Fixpoint readPackGUID_loop `{Host} (guidmark : Z) (i : list Z) (guid : Z) : BB Z :=
  match i with
  | [] => mret guid
  | k :: i' =>
      if negb (Z.land guidmark (u8 (Z.shiftl 1 k)) =? 0) then
        b ← getS;
        (if size b <? u64 (_rpos b + 1)
         then throw (ByteBufferPositionException false (_rpos b) 1 (size b))
         else mret tt);;
        bit ← inn TU8;
        readPackGUID_loop guidmark i' (Z.lor guid (u64 (Z.shiftl bit (k * 8))))
      else readPackGUID_loop guidmark i' guid
  end.

Definition readPackGUID `{Host} : BB Z :=
  b ← getS;
  (if size b <? u64 (_rpos b + 1)
   then throw (ByteBufferPositionException false (_rpos b) 1 (size b))
   else mret tt);;
  guidmark ← inn TU8;
  readPackGUID_loop guidmark (seqZ 0 8) 0.

(** The loop of [appendPackGUID]: the mask and the non-zero bytes.  A 64-bit
    value is shifted to zero within 8 iterations. *)
Fixpoint appendPackGUID_loop (fuel : nat) (i guid mask : Z) (bytes : list Z) : Z * list Z :=
  match fuel with
  | O => (mask, bytes)
  | S fuel' =>
      if guid =? 0 then (mask, bytes) else
      if negb (Z.land guid 255 =? 0)
      then appendPackGUID_loop fuel' (i + 1) (Z.shiftr guid 8)
             (u8 (Z.lor mask (u8 (Z.shiftl 1 i)))) (bytes ++ [Z.land guid 255])
      else appendPackGUID_loop fuel' (i + 1) (Z.shiftr guid 8) mask bytes
  end.

Definition appendPackGUID (guid : Z) : BB unit :=
  let '(mask, bytes) := appendPackGUID_loop 8 0 guid 0 [] in
  append_bytes (mask :: bytes).

(** ** Packed dates *)

(** The fields of [struct tm] that are used. *)
Record tm := mkTm {
  tm_min : Z; tm_hour : Z; tm_mday : Z; tm_mon : Z; tm_year : Z; tm_wday : Z
}.

Definition pack_tm (lt : tm) : Z :=
  u32 (Z.lor (Z.lor (Z.lor (Z.lor (Z.lor
    (Z.shiftl (tm_year lt - 100) 24) (Z.shiftl (tm_mon lt) 20))
    (Z.shiftl (tm_mday lt - 1) 14)) (Z.shiftl (tm_wday lt) 11))
    (Z.shiftl (tm_hour lt) 6)) (tm_min lt)).

Definition unpack_tm (packedDate : Z) : tm :=
  {| tm_min := Z.land packedDate 63;
     tm_hour := Z.land (Z.shiftr packedDate 6) 31;
     tm_mday := Z.land (Z.shiftr packedDate 14) 63 + 1;
     tm_mon := Z.land (Z.shiftr packedDate 20) 15;
     tm_year := Z.land (Z.shiftr packedDate 24) 31 + 100;
     tm_wday := 0 |}.

(** The C library's calendar: [localtime], [mktime] and [timezone]. *)
Class Calendar := {
  localtime : Z -> tm;
  mktime : tm -> Z;
  timezone : Z
}.

Definition AppendPackedTime `{Host, Calendar} (time : Z) : BB unit :=
  append_T 4 (pack_tm (localtime time)).

Definition ReadPackedTime `{Host, Calendar} : BB Z :=
  packedDate ← read_T 4;
  mret (u32 (mktime (unpack_tm packedDate) + timezone)).

(** ** Packed positions *)

Definition pack_coord (x : f32) (mask : Z) : Z :=
  Z.land (int32_of_f32 (f32_div x f32_quarter)) mask.

Definition pack_xyz (x y z : f32) : Z :=
  u32 (Z.lor (Z.lor (pack_coord x 2047) (Z.shiftl (pack_coord y 2047) 11))
             (Z.shiftl (pack_coord z 1023) 22)).

Definition appendPackXYZ `{Host} (x y z : f32) : BB unit := out TU32 (pack_xyz x y z).

#[global] Arguments vector_resize : simpl never.
#[global] Arguments append_raw : simpl never.
#[global] Arguments append_bytes : simpl never.
#[global] Arguments FlushBits : simpl never.
#[global] Arguments append_T : simpl never.
#[global] Arguments append_buffer : simpl never.
#[global] Arguments read_T_at : simpl never.
#[global] Arguments read_T : simpl never.
#[global] Arguments read_raw : simpl never.
#[global] Arguments read_skip : simpl never.
#[global] Arguments WriteBit : simpl never.
#[global] Arguments ReadBit : simpl never.
#[global] Arguments WriteBits : simpl never.
#[global] Arguments ReadBits : simpl never.
#[global] Arguments ReadByteSeq : simpl never.
#[global] Arguments WriteByteSeq : simpl never.
#[global] Arguments put_raw : simpl never.
#[global] Arguments put_T : simpl never.
#[global] Arguments PutBits_step : simpl never.
#[global] Arguments PutBits : simpl never.
#[global] Arguments out : simpl never.
#[global] Arguments inn : simpl never.
#[global] Arguments out_string : simpl never.
#[global] Arguments out_cstring : simpl never.
#[global] Arguments inn_string : simpl never.
#[global] Arguments ReadString : simpl never.
#[global] Arguments WriteString : simpl never.
#[global] Arguments readPackGUID : simpl never.
#[global] Arguments appendPackGUID : simpl never.
#[global] Arguments AppendPackedTime : simpl never.
#[global] Arguments ReadPackedTime : simpl never.
#[global] Arguments appendPackXYZ : simpl never.
#[global] Arguments memcpy_at : simpl never.
#[global] Arguments load_at : simpl never.
#[global] Arguments size : simpl never.

(** ** Lemmas: bytes of integers *)

Definition is_byte (x : Z) : Prop := 0 <= x < 256.

Lemma length_le_bytes n v : length (le_bytes n v) = n.
Proof. revert v. induction n; intros; cbn; auto. Qed.

Lemma zlen_le_bytes n v : zlen (le_bytes n v) = Z.of_nat n.
Proof. unfold zlen. by rewrite length_le_bytes. Qed.

Lemma le_bytes_is_byte n v : Forall is_byte (le_bytes n v).
Proof.
  revert v. induction n; intros; cbn; constructor; auto.
  unfold is_byte. apply Z.mod_pos_bound. lia.
Qed.

Lemma le_value_le_bytes n v : le_value (le_bytes n v) = v mod 256 ^ Z.of_nat n.
Proof.
  revert v. induction n as [|n IH]; intros v; [by rewrite Z.mod_1_r|].
  cbn [le_bytes le_value]. rewrite IH, Nat2Z.inj_succ, Z.pow_succ_r by lia.
  rewrite (Z.rem_mul_r v 256) by lia. done.
Qed.

Lemma le_value_range bs : Forall is_byte bs -> 0 <= le_value bs < 256 ^ zlen bs.
Proof.
  unfold zlen. induction 1 as [|x bs Hx _ IH]; cbn [le_value length]; [lia|].
  unfold is_byte in Hx. rewrite Nat2Z.inj_succ, Z.pow_succ_r by lia. nia.
Qed.

Lemma le_bytes_le_value bs : Forall is_byte bs -> le_bytes (length bs) (le_value bs) = bs.
Proof.
  induction 1 as [|x bs Hx H IH]; cbn; [done|]. unfold is_byte in Hx.
  rewrite (Z.mul_comm 256), Z.mod_add, Z.mod_small by lia.
  rewrite Z.div_add, Z.div_small by lia. by rewrite Z.add_0_l, IH.
Qed.

Lemma pow_256 n : 256 ^ Z.of_nat n = 2 ^ (8 * Z.of_nat n).
Proof. rewrite Z.pow_mul_r by lia. done. Qed.

Lemma convert_rev n (l : list Z) : length l = n -> convert n l = rev l.
Proof.
  revert l. induction n as [n IH] using lt_wf_ind; intros l Hl.
  destruct n as [|[|n]]; cbn [convert].
  - by destruct l.
  - destruct l as [|x [|]]; cbn in *; try lia; done.
  - destruct l as [|x l]; [done|]. cbn in Hl.
    destruct (last l) as [y|] eqn:Hy.
    + apply last_Some in Hy as [l' ->]. rewrite length_app in *. cbn in *.
      replace (length l' + 1 - 1)%nat with (length l') by lia.
      rewrite take_app_length, IH by lia.
      rewrite rev_app_distr. done.
    + apply last_None in Hy. subst. cbn in Hl. lia.
Qed.

Section Endian.
Context `{Host}.

(** What is put on the wire is little-endian on either kind of host. *)
Lemma EndianConvert_object n v : EndianConvert (object_bytes n v) = le_bytes n v.
Proof.
  unfold EndianConvert, object_bytes. destruct TRINITY_BIGENDIAN; [|done].
  rewrite convert_rev by done. apply rev_involutive.
Qed.

Lemma object_value_EndianConvert bs : object_value (EndianConvert bs) = le_value bs.
Proof.
  unfold EndianConvert, object_value. destruct TRINITY_BIGENDIAN; [|done].
  rewrite convert_rev by done. by rewrite rev_involutive.
Qed.
End Endian.

(** ** Lemmas: appending at the end of the vector *)

#[export] Hint Rewrite zlen_le_bytes : zlen.

(** A buffer that is being written: the cursor is at the end. *)
Definition at_end (b : ByteBuffer) : Prop := _wpos b = size b.

Lemma size_nonneg b : 0 <= size b.
Proof. apply zlen_nonneg. Qed.

Definition appended (bs : list Z) (b : ByteBuffer) : ByteBuffer :=
  b <| _storage := _storage b ++ bs |> <| _wpos := _wpos b + zlen bs |>.

Lemma size_appended bs b : size (appended bs b) = size b + zlen bs.
Proof. unfold size, appended. cbn. apply zlen_app. Qed.

Lemma at_end_appended bs b : at_end b -> at_end (appended bs b).
Proof. unfold at_end. rewrite size_appended. cbn. lia. Qed.

Lemma appended_app bs1 bs2 b : appended bs2 (appended bs1 b) = appended (bs1 ++ bs2) b.
Proof.
  unfold appended. cbn. rewrite zlen_app, app_assoc, Z.add_assoc. done.
Qed.

Lemma appended_nil b : appended [] b = b.
Proof. unfold appended. cbn. rewrite app_nil_r, Z.add_0_r. by destruct b. Qed.

Lemma append_raw_ok bs b :
  at_end b -> bs <> [] -> size b < 10000000 -> zlen bs < 2 ^ 63 ->
  append_raw (Some bs) (zlen bs) b = Ok tt (appended bs b).
Proof.
  intros Hend Hne Hsz Hlen. unfold at_end in Hend.
  assert (0 < zlen bs) by (destruct bs; [done|]; autorewrite with zlen; pose proof (zlen_nonneg bs); lia).
  pose proof (zlen_nonneg (_storage b)). unfold size in *.
  set (pad := replicate (Z.to_nat (zlen (_storage b) + zlen bs - zlen (_storage b))) 0).
  assert (Hpad : zlen pad = zlen bs) by (unfold pad, zlen; rewrite length_replicate; lia).
  assert (Hres : vector_resize (zlen (_storage b) + zlen bs) (_storage b) = _storage b ++ pad).
  { unfold vector_resize. f_equal. unfold ztake. apply take_ge. unfold zlen. lia. }
  unfold append_raw. run. unfold size. zbool. rewrite Hend. no_wrap. zbool. run.
  rewrite Hend, ztake_all. no_wrap. rewrite Hres.
  unfold memcpy_at, size. cbn. rewrite zlen_app, Hpad. zbool. cbn.
  rewrite ztake_app, <- Hpad, <- zlen_app.
  replace (zdrop _ _) with (@nil Z)
    by (unfold zdrop, zlen; rewrite Nat2Z.id; symmetry; apply drop_ge; lia).
  rewrite app_nil_r, zlen_app, Hpad. no_wrap. unfold appended. cbn. by rewrite Hend.
Qed.

Lemma append_bytes_ok bs b :
  at_end b -> bs <> [] -> size b < 10000000 -> zlen bs < 2 ^ 63 ->
  append_bytes bs b = Ok tt (appended bs b).
Proof. apply append_raw_ok. Qed.

Lemma FlushBits_aligned b : _bitpos b = 8 -> FlushBits b = Ok tt b.
Proof. intros H. unfold FlushBits. run. by rewrite H. Qed.

Section Typed.
Context `{Host}.

Lemma append_T_ok n v b :
  at_end b -> _bitpos b = 8 -> n <> O -> Z.of_nat n < 2 ^ 63 -> size b < 10000000 ->
  append_T n v b = Ok tt (appended (le_bytes n v) b).
Proof.
  intros Hend Hbit Hn Hn' Hsz. unfold append_T. run.
  rewrite (FlushBits_aligned _ Hbit), EndianConvert_object.
  apply append_bytes_ok; [done| |done|by rewrite zlen_le_bytes].
  intros Hnil. by destruct n.
Qed.

(** [b] is about to read [bs]. *)
Definition reads (bs : list Z) (b : ByteBuffer) : Prop :=
  exists pre post, _storage b = pre ++ bs ++ post /\ _rpos b = zlen pre /\ size b < 2 ^ 63.

Definition advanced (n : Z) (b : ByteBuffer) : ByteBuffer := b <| _rpos ::= Z.add n |>.

Lemma reads_app bs1 bs2 b :
  reads (bs1 ++ bs2) b -> reads bs1 b /\ reads bs2 (advanced (zlen bs1) b).
Proof.
  intros (pre & post & Hst & Hr & Hsz). split.
  - exists pre, (bs2 ++ post). split_and!; [by rewrite Hst, <- app_assoc|done|done].
  - exists (pre ++ bs1), post. split_and!; [|cbn; rewrite Hr, zlen_app; lia|done].
    cbn. by rewrite Hst, <- !app_assoc.
Qed.

Lemma reads_app_l bs1 bs2 b : reads (bs1 ++ bs2) b -> reads bs1 b.
Proof. intros ?%reads_app. tauto. Qed.

Lemma advanced_advanced n m b : advanced n (advanced m b) = advanced (m + n) b.
Proof. unfold advanced. cbn. f_equal. lia. Qed.

Lemma advanced_0 b : advanced 0 b = b.
Proof. unfold advanced. cbn. rewrite Z.add_0_l. by destruct b. Qed.

Lemma load_at_ok bs b : reads bs b -> load_at (_rpos b) (zlen bs) b = Ok bs b.
Proof.
  intros (pre & post & Hst & Hr & Hsz). unfold load_at, size in *.
  rewrite Hst, Hr, !zlen_app in *.
  pose proof (zlen_nonneg pre); pose proof (zlen_nonneg bs); pose proof (zlen_nonneg post).
  zbool. cbn. by rewrite zdrop_app, ztake_app.
Qed.

Lemma reads_bounds bs b :
  reads bs b -> 0 <= _rpos b /\ _rpos b + zlen bs <= size b < 2 ^ 63.
Proof.
  intros (pre & post & Hst & Hr & Hsz). unfold size in *.
  rewrite Hst, Hr, !zlen_app in *.
  pose proof (zlen_nonneg pre); pose proof (zlen_nonneg bs); pose proof (zlen_nonneg post). lia.
Qed.

Lemma read_T_ok n bs b :
  reads bs b -> length bs = n -> read_T n b = Ok (le_value bs) (advanced (zlen bs) b).
Proof.
  intros Hr Hn. pose proof (reads_bounds _ _ Hr) as Hb.
  pose proof (zlen_nonneg bs). unfold read_T, read_T_at. run.
  assert (Hz : Z.of_nat n = zlen bs) by (by unfold zlen; rewrite Hn).
  rewrite Hz. no_wrap. zbool. run. rewrite (load_at_ok _ _ Hr).
  rewrite object_value_EndianConvert. no_wrap.
  unfold advanced. cbn. by rewrite Z.add_comm.
Qed.

Lemma read_raw_ok bs b :
  reads bs b -> read_raw (zlen bs) b = Ok bs (advanced (zlen bs) b).
Proof.
  intros Hr. pose proof (reads_bounds _ _ Hr) as Hb.
  pose proof (zlen_nonneg bs). unfold read_raw. run.
  no_wrap. zbool. run. rewrite (load_at_ok _ _ Hr). no_wrap.
  unfold advanced. cbn. by rewrite Z.add_comm.
Qed.
End Typed.
