(* ===== verification/Wire.v ===== *)
(** * Formats of values on the wire

    The parts of [ByteBuffer.h] that compose the scalar accesses: strings,
    packed GUIDs and dates, and the [operator<<]/[operator>>] templates for
    vectors, lists and maps.  A [codec] pairs a writer with its reader;
    [Lawful] is what a codec promises: the writer appends exactly the bytes of
    its format, and the reader, on those bytes, gives the value back. *)

From stdpp Require Import sorting.
From S2P Require Import Prelude Float32 ByteBuffer.

(** ** Codecs *)

Record codec (T : Type) := mkCodec { c_out : T -> BB unit; c_in : BB T }.
Arguments mkCodec {_} _ _.
Arguments c_out {_} _ _.
Arguments c_in {_} _.

Section Containers.
Context `{Host}.

Definition scalar_codec (t : scalar) : codec Z := mkCodec (out t) (inn t).
Definition string_codec : codec (list Z) := mkCodec out_string inn_string.
Definition pair_codec {A B} (ca : codec A) (cb : codec B) : codec (A * B) :=
  mkCodec (fun v => c_out ca v.1;; c_out cb v.2)
          (a ← c_in ca; b ← c_in cb; mret (a, b)).

(** [operator<<(ByteBuffer&, std::vector<T>)]; the one for lists is the same. *)
Definition vector_out {T} (c : codec T) (v : list T) : BB unit :=
  out TU32 (zlen v);; for_each v (c_out c).

Fixpoint vector_in_loop {T} (c : codec T) (vsize : nat) (v : list T) : BB (list T) :=
  match vsize with
  | O => mret v
  | S n => t ← c_in c; vector_in_loop c n (v ++ [t])
  end.

Definition vector_in {T} (c : codec T) : BB (list T) :=
  vsize ← inn TU32; vector_in_loop c (Z.to_nat vsize) [].

Definition vector_codec {T} (c : codec T) : codec (list T) :=
  mkCodec (vector_out c) (vector_in c).

Section Map.
Context {K V : Type} (ltb : K -> K -> bool) (ck : codec K) (cv : codec V).

(** [std::map::insert] on the sorted sequence of the entries: an existing
    key keeps its value. *)
Fixpoint map_insert (k : K) (v : V) (m : list (K * V)) : list (K * V) :=
  match m with
  | [] => [(k, v)]
  | (k', v') :: m' =>
      if ltb k k' then (k, v) :: m
      else if ltb k' k then (k', v') :: map_insert k v m'
      else m
  end.

Definition map_out (m : list (K * V)) : BB unit :=
  out TU32 (zlen m);;
  for_each m (fun kv => c_out ck kv.1;; c_out cv kv.2).

Fixpoint map_in_loop (msize : nat) (m : list (K * V)) : BB (list (K * V)) :=
  match msize with
  | O => mret m
  | S n => k ← c_in ck; v ← c_in cv; map_in_loop n (map_insert k v m)
  end.

Definition map_in : BB (list (K * V)) :=
  msize ← inn TU32; map_in_loop (Z.to_nat msize) [].

Definition map_codec : codec (list (K * V)) := mkCodec map_out map_in.
End Map.
End Containers.

(** ** The contract of a codec

    [fmt] gives the bytes of a value; [ok] says which values are in the range
    of the format. *)

Class Lawful {T} (c : codec T) (fmt : T -> list Z) (ok : T -> Prop) : Prop := {
  lawful_out : forall v b,
    ok v -> at_end b -> _bitpos b = 8 -> size b + zlen (fmt v) <= 10000000 ->
    c_out c v b = Ok tt (appended (fmt v) b);
  lawful_in : forall v b,
    ok v -> reads (fmt v) b -> c_in c b = Ok v (advanced (zlen (fmt v)) b)
}.

(** The values of a scalar type that its two operators agree on: none for
    [bool], which is written as four bytes and read as one. *)
Definition scalar_ok (t : scalar) (v : Z) : Prop :=
  match t with
  | TBool => False
  | TU8 => in_width 8 v
  | TU16 => in_width 16 v
  | TU32 | TFloat => in_width 32 v
  | TU64 | TDouble => in_width 64 v
  | TI8 => in_swidth 8 v
  | TI16 => in_swidth 16 v
  | TI32 => in_swidth 32 v
  | TI64 => in_swidth 64 v
  end.

Definition scalar_fmt (t : scalar) (v : Z) : list Z := le_bytes (sizeof_out t) v.
Definition string_fmt (s : list Z) : list Z := s ++ [0].
Definition string_ok (s : list Z) : Prop := Forall (fun c => 0 < c < 256) s.
Definition vector_fmt {T} (fmt : T -> list Z) (v : list T) : list Z :=
  scalar_fmt TU32 (zlen v) ++ concat (map fmt v).

(** The packed form of a GUID of bytes [bs]: the mask of the non-zero bytes,
    then those bytes. *)
Fixpoint guid_mask (i : Z) (bs : list Z) : Z :=
  match bs with
  | [] => 0
  | x :: bs' => (if x =? 0 then 0 else 2 ^ i) + guid_mask (i + 1) bs'
  end.
Definition guid_bytes (bs : list Z) : list Z := filter (fun x => x <> 0) bs.
Definition guid_fmt (guid : Z) : list Z :=
  guid_mask 0 (le_bytes 8 guid) :: guid_bytes (le_bytes 8 guid).

(** ** Scalars *)

Lemma swrap_mod w v : 0 < w -> in_swidth w v -> swrap w (v mod 2 ^ w) = v.
Proof.
  intros Hw Hv. unfold swrap. rewrite Zplus_mod_idemp_l.
  unfold in_swidth in Hv.
  assert (H2 : 2 ^ w = 2 * 2 ^ (w - 1)) by (rewrite <- Z.pow_succ_r by lia; f_equal; lia).
  rewrite Z.mod_small; lia.
Qed.

Section Laws.
Context `{Host}.

#[export] Instance scalar_lawful t : Lawful (scalar_codec t) (scalar_fmt t) (scalar_ok t).
Proof.
  unfold scalar_fmt. split.
  - intros v b Hv Hend Hbit Hsz. rewrite zlen_le_bytes in Hsz.
    apply append_T_ok; try done; destruct t; cbn in *; lia.
  - intros v b Hv Hr. unfold scalar_codec, inn. cbn [c_in]. run.
    assert (Hsz : sizeof_out t = sizeof t) by by destruct t.
    rewrite Hsz in Hr |- *. rewrite (read_T_ok (sizeof t) _ _ Hr) by apply length_le_bytes.
    rewrite le_value_le_bytes, pow_256. f_equal.
    destruct t; cbn in Hv |- *; unfold in_width, in_swidth in Hv; cbn in Hv;
      try (apply Z.mod_small; lia); try (apply swrap_mod; [lia|done]).
    done.
Qed.

Lemma for_each_out {T} (c : codec T) fmt ok `{!Lawful c fmt ok} v b :
  Forall ok v -> at_end b -> _bitpos b = 8 ->
  size b + zlen (concat (map fmt v)) <= 10000000 ->
  for_each v (c_out c) b = Ok tt (appended (concat (map fmt v)) b).
Proof.
  intros Hok. revert b. induction Hok as [|x v Hx Hv IH]; intros b Hend Hbit Hsz.
  - cbn. by rewrite appended_nil.
  - cbn [for_each map concat] in *. autorewrite with zlen in Hsz.
    pose proof (zlen_nonneg (fmt x)). pose proof (zlen_nonneg (concat (map fmt v))).
    run. rewrite (lawful_out x b) by (done || lia).
    rewrite IH; [by rewrite appended_app|by apply at_end_appended|done|].
    rewrite size_appended. lia.
Qed.

Lemma vector_in_loop_ok {T} (c : codec T) fmt ok `{!Lawful c fmt ok} v acc b :
  Forall ok v -> reads (concat (map fmt v)) b ->
  vector_in_loop c (length v) acc b
  = Ok (acc ++ v) (advanced (zlen (concat (map fmt v))) b).
Proof.
  intros Hok. revert acc b. induction Hok as [|x v Hx Hv IH]; intros acc b Hr.
  - cbn. by rewrite app_nil_r, advanced_0.
  - cbn [vector_in_loop length map concat] in *.
    apply reads_app in Hr as [Hr1 Hr2]. run.
    rewrite (lawful_in x b) by done. rewrite IH by done.
    by rewrite <- app_assoc, advanced_advanced, zlen_app.
Qed.

(** A vector of lawful elements is lawful. *)
#[export] Instance vector_lawful {T} (c : codec T) fmt ok `{!Lawful c fmt ok} :
  Lawful (vector_codec c) (vector_fmt fmt) (fun v => Forall ok v /\ zlen v < 2 ^ 32).
Proof.
  unfold vector_fmt. split.
  - intros v b [Hok Hlen] Hend Hbit Hsz. autorewrite with zlen in Hsz.
    unfold scalar_fmt in *. rewrite zlen_le_bytes in Hsz. cbn in Hsz.
    pose proof (zlen_nonneg (concat (map fmt v))).
    cbn [c_out vector_codec]. unfold vector_out, out. run.
    rewrite append_T_ok by (done || lia).
    rewrite (for_each_out c fmt ok) by (done || (by apply at_end_appended) ||
      (rewrite size_appended, zlen_le_bytes; cbn; lia)).
    by rewrite appended_app.
  - intros v b [Hok Hlen] Hr. apply reads_app in Hr as [Hr1 Hr2].
    cbn [c_in vector_codec]. unfold vector_in. run.
    pose proof (lawful_in (c := scalar_codec TU32) (zlen v) b) as Hsz.
    cbn [c_in scalar_codec] in Hsz. pose proof (zlen_nonneg v).
    rewrite Hsz by (done || (unfold in_width; cbn; lia)).
    replace (Z.to_nat (zlen v)) with (length v) by (unfold zlen; lia).
    rewrite (vector_in_loop_ok c fmt ok) by done.
    rewrite advanced_advanced. by rewrite <- zlen_app.
Qed.

Lemma inn_string_loop_ok s acc fuel b :
  string_ok s -> reads (string_fmt s) b -> (length s < fuel)%nat ->
  inn_string_loop fuel acc b = Ok (acc ++ s) (advanced (zlen (string_fmt s)) b).
Proof.
  unfold string_fmt. intros Hs. revert acc fuel b.
  induction Hs as [|c s Hc Hs IH]; intros acc fuel b Hr Hf;
    (destruct fuel as [|fuel]; [cbn in Hf; lia|]); cbn [inn_string_loop].
  - pose proof (reads_bounds _ _ Hr) as Hb. zsimp.
    run. zbool. rewrite (read_T_ok 1 [0]) by done. cbn. by rewrite app_nil_r.
  - pose proof (reads_bounds _ _ Hr) as Hb. cbn [app] in Hb, Hr. zsimp.
    change (c :: s ++ [0]) with ([c] ++ (s ++ [0])) in Hr.
    apply reads_app in Hr as [Hr1 Hr2].
    run. zbool. rewrite (read_T_ok 1 [c]) by done. cbn [le_value].
    rewrite Z.mul_0_r, Z.add_0_r. zbool.
    rewrite IH; [|done|cbn in Hf; lia].
    rewrite <- app_assoc, advanced_advanced. cbn [app]. do 2 f_equal. zsimp. lia.
Qed.

#[export] Instance string_lawful : Lawful string_codec string_fmt string_ok.
Proof.
  split.
  - intros s b Hs Hend Hbit Hsz. unfold string_fmt in *. zsimp.
    cbn [c_out string_codec]. unfold out_string.
    destruct (decide (s = [])) as [->|Hne].
    + run. rewrite zlen_nil. zbool. run. rewrite append_T_ok by (done || lia). done.
    + pose proof (size_nonneg b).
      assert (0 < zlen s) by (destruct s; [done|]; zsimp; lia).
      run. zbool. cbn [negb]. rewrite append_raw_ok by (done || lia).
      rewrite append_T_ok; [by rewrite appended_app|by apply at_end_appended|done..|].
      rewrite size_appended. lia.
  - intros s b Hs Hr. cbn [c_in string_codec]. unfold inn_string. run.
    rewrite (inn_string_loop_ok s); [done..|].
    apply reads_bounds in Hr. unfold string_fmt, size, zlen in Hr.
    rewrite length_app in Hr. cbn in Hr. lia.
Qed.

#[export] Instance pair_lawful {A B} (ca : codec A) (cb : codec B) fa fb oka okb
    `{!Lawful ca fa oka, !Lawful cb fb okb} :
  Lawful (pair_codec ca cb) (fun v => fa v.1 ++ fb v.2) (fun v => oka v.1 /\ okb v.2).
Proof.
  split.
  - intros [x y] b [Hx Hy] Hend Hbit Hsz. cbn in *. autorewrite with zlen in Hsz.
    pose proof (zlen_nonneg (fa x)). pose proof (zlen_nonneg (fb y)).
    run. rewrite (lawful_out x b) by (done || lia).
    rewrite (lawful_out y); [by rewrite appended_app|done|by apply at_end_appended|done|].
    rewrite size_appended. lia.
  - intros [x y] b [Hx Hy] Hr. cbn in *. apply reads_app in Hr as [Hr1 Hr2].
    run. rewrite (lawful_in x b), (lawful_in y) by done.
    by rewrite advanced_advanced, zlen_app.
Qed.
End Laws.

(** ** Maps *)

Section MapLaws.
Context `{Host} {K V : Type} (ltb : K -> K -> bool).
Context (ltb_asym : forall x y, ltb x y = true -> ltb y x = false).
Context (ck : codec K) (cv : codec V) (fk : K -> list Z) (fv : V -> list Z)
        (okk : K -> Prop) (okv : V -> Prop).
Context `{!Lawful ck fk okk, !Lawful cv fv okv}.

Definition entry_lt (x y : K * V) : Prop := ltb x.1 y.1 = true.
Definition entry_fmt (kv : K * V) : list Z := fk kv.1 ++ fv kv.2.
Definition map_ok (m : list (K * V)) : Prop :=
  Forall (fun kv => okk kv.1 /\ okv kv.2) m /\ zlen m < 2 ^ 32 /\ StronglySorted entry_lt m.

Lemma map_insert_last (k : K) (v : V) m :
  Forall (fun kv => ltb kv.1 k = true) m -> map_insert ltb k v m = m ++ [(k, v)].
Proof using ltb_asym.
  induction 1 as [|[k' v'] m Hk Hm IH]; [done|]. cbn in *.
  by rewrite (ltb_asym _ _ Hk), Hk, IH.
Qed.

Lemma map_in_loop_ok (m acc : list (K * V)) b :
  Forall (fun kv => okk kv.1 /\ okv kv.2) m -> StronglySorted entry_lt (acc ++ m) ->
  reads (concat (map entry_fmt m)) b ->
  map_in_loop ltb ck cv (length m) acc b
  = Ok (acc ++ m) (advanced (zlen (concat (map entry_fmt m))) b).
Proof using All.
  revert acc b. induction m as [|[k v] m IH]; intros acc b Hok Hsort Hr.
  - cbn. by rewrite app_nil_r, advanced_0.
  - apply Forall_cons in Hok as [[Hk Hv] Hok].
    cbn [map_in_loop length map concat entry_fmt fst snd] in *.
    unfold entry_fmt in Hr at 1. cbn in Hr. rewrite <- app_assoc in Hr.
    apply reads_app in Hr as [Hr1 Hr]. apply reads_app in Hr as [Hr2 Hr].
    run. rewrite (lawful_in k b), (lawful_in v) by done.
    rewrite map_insert_last.
    + rewrite (cons_middle (k, v)), app_assoc in Hsort.
      rewrite IH by done. rewrite !advanced_advanced, <- app_assoc. do 2 f_equal.
      change (entry_fmt (k, v)) with (fk k ++ fv v). rewrite !zlen_app. lia.
    + apply Forall_forall. intros x Hx.
      apply (StronglySorted_app_1_elem_of _ _ _ _ (k, v) Hsort Hx). set_solver.
Qed.

(** A map of lawful keys and values is lawful. *)
#[export] Instance map_lawful :
  Lawful (map_codec ltb ck cv) (vector_fmt entry_fmt) map_ok.
Proof using All.
  pose proof (pair_lawful ck cv fk fv okk okv) as Hp.
  unfold vector_fmt. split.
  - intros m b (Hok & Hlen & _) Hend Hbit Hsz.
    exact (lawful_out (c := vector_codec (pair_codec ck cv)) m b
             (conj Hok Hlen) Hend Hbit Hsz).
  - intros m b (Hok & Hlen & Hsort) Hr. apply reads_app in Hr as [Hr1 Hr2].
    cbn [c_in map_codec]. unfold map_in. run.
    pose proof (lawful_in (c := scalar_codec TU32) (zlen m) b) as Hsz.
    cbn [c_in scalar_codec] in Hsz. pose proof (zlen_nonneg m).
    rewrite Hsz by (done || (unfold in_width; cbn; lia)).
    replace (Z.to_nat (zlen m)) with (length m) by (unfold zlen; lia).
    rewrite map_in_loop_ok by done.
    rewrite advanced_advanced. by rewrite <- zlen_app.
Qed.
End MapLaws.

(** ** Packed GUIDs *)

Section PackGUID.

Lemma le_value_0 bs : Forall is_byte bs -> le_value bs = 0 -> Forall (fun x => x = 0) bs.
Proof.
  induction 1 as [|x bs Hx Hbs IH]; cbn; [done|]. intros H0. unfold is_byte in Hx.
  pose proof (le_value_range bs Hbs). constructor; [lia|apply IH; lia].
Qed.

Lemma guid_zeros i bs :
  Forall (fun x => x = 0) bs -> guid_mask i bs = 0 /\ guid_bytes bs = [].
Proof.
  intros Hz. revert i. induction Hz as [|x bs -> Hz IH]; intros i; [done|].
  destruct (IH (i + 1)) as [H1 H2]. cbn [guid_mask]. rewrite H1. split; [done|].
  unfold guid_bytes in *. by rewrite filter_cons_False by lia.
Qed.

Lemma appendPackGUID_loop_ok fuel i mask bs acc :
  Forall is_byte bs -> length bs = fuel -> 0 <= i -> i + Z.of_nat fuel <= 8 ->
  0 <= mask < 2 ^ i ->
  appendPackGUID_loop fuel i (le_value bs) mask acc
  = (mask + guid_mask i bs, acc ++ guid_bytes bs).
Proof.
  intros Hbs. revert fuel i mask acc.
  induction Hbs as [|x bs Hx Hbs IH]; intros fuel i mask acc <- Hi Hf Hm; cbn [length] in *.
  - cbn. by rewrite Z.add_0_r, app_nil_r.
  - cbn [appendPackGUID_loop]. unfold is_byte in Hx.
    destruct (Z.eqb_spec (le_value (x :: bs)) 0) as [H0|_].
    { apply le_value_0 in H0; [|by constructor].
      destruct (guid_zeros i (x :: bs) H0) as [-> ->]. by rewrite Z.add_0_r, app_nil_r. }
    cbn [le_value]. rewrite land_255, shiftr_8.
    rewrite (Z.mul_comm 256), Z.mod_add, Z.mod_small, Z.div_add, Z.div_small by lia.
    rewrite Z.add_0_l.
    assert (Hp : 2 ^ (i + 1) = 2 * 2 ^ i) by (rewrite Z.pow_add_r by lia; lia).
    assert (2 ^ (i + 1) <= 2 ^ 8) by (apply Z.pow_le_mono_r; lia).
    destruct (Z.eqb_spec x 0) as [->|Hne]; cbn [negb].
    + rewrite IH by lia. unfold guid_bytes. cbn [guid_mask]. zbool.
      by rewrite filter_cons_False by lia.
    + rewrite (wrap_pow2 8) by lia.
      rewrite lor_shiftl_add by lia. rewrite (wrap_small 8) by (unfold in_width; lia).
      rewrite IH by lia. unfold guid_bytes. cbn [guid_mask]. zbool.
      rewrite filter_cons_True by lia. rewrite <- app_assoc. f_equal. lia.
Qed.

(** From bit [i] on, the bits of [gm] tell the non-zero bytes of [bs]. *)
Fixpoint bits_match (gm i : Z) (bs : list Z) : Prop :=
  match bs with
  | [] => True
  | x :: bs' => Z.testbit gm i = negb (x =? 0) /\ bits_match gm (i + 1) bs'
  end.

Lemma guid_mask_mult bs i : 0 <= i -> exists q, guid_mask i bs = q * 2 ^ i.
Proof.
  revert i. induction bs as [|x bs IH]; intros i Hi; cbn; [by exists 0|].
  destruct (IH (i + 1)) as [q ->]; [lia|]. rewrite Z.pow_add_r by lia.
  exists ((if x =? 0 then 0 else 1) + q * 2). destruct (x =? 0); lia.
Qed.

Lemma bits_match_mask low i bs :
  0 <= i -> 0 <= low < 2 ^ i -> bits_match (low + guid_mask i bs) i bs.
Proof.
  revert low i. induction bs as [|x bs IH]; intros low i Hi Hlow; cbn; [done|].
  assert (Hp : 2 ^ (i + 1) = 2 * 2 ^ i) by (rewrite Z.pow_add_r by lia; lia).
  split.
  - destruct (guid_mask_mult bs (i + 1)) as [q ->]; [lia|]. rewrite Hp.
    apply eq_true_iff_eq. rewrite Z.testbit_true by done.
    set (c := if x =? 0 then 0 else 1).
    replace (low + _) with (low + (c + q * 2) * 2 ^ i) by (unfold c; destruct (x =? 0); lia).
    rewrite Z.div_add, Z.div_small, Z.add_0_l, Z.mod_add by lia.
    unfold c. destruct (x =? 0); cbn; split; done || congruence.
  - rewrite Z.add_assoc. apply IH; [lia|]. destruct (x =? 0); lia.
Qed.

Lemma guid_mask_range bs i :
  0 <= i -> 0 <= guid_mask i bs <= 2 ^ (i + zlen bs) - 2 ^ i.
Proof.
  revert i. induction bs as [|x bs IH]; intros i Hi; cbn [guid_mask]; zsimp.
  - rewrite Z.add_0_r. lia.
  - specialize (IH (i + 1) ltac:(lia)).
    assert (Hp : 2 ^ (i + 1) = 2 * 2 ^ i) by (rewrite Z.pow_add_r by lia; lia).
    rewrite <- Z.add_assoc in IH. pose proof (Z.pow_pos_nonneg 2 i).
    destruct (x =? 0); lia.
Qed.

Context `{Host}.

Lemma readPackGUID_loop_ok gm i bs guid b :
  Forall is_byte bs -> 0 <= i -> i + zlen bs <= 8 -> bits_match gm i bs ->
  0 <= guid < 2 ^ (8 * i) -> reads (guid_bytes bs) b ->
  readPackGUID_loop gm (seqZ i (zlen bs)) guid b
  = Ok (guid + le_value bs * 2 ^ (8 * i)) (advanced (zlen (guid_bytes bs)) b).
Proof.
  intros Hbs. revert i guid b.
  induction Hbs as [|x bs Hx Hbs IH]; intros i guid b Hi Hle Hbits Hg Hr.
  - cbn. rewrite Z.add_0_r. by rewrite advanced_0.
  - autorewrite with zlen in *. zlen_pos. unfold is_byte in Hx.
    rewrite seqZ_cons by lia. rewrite <- Z.add_1_r.
    replace (Z.pred (1 + zlen bs)) with (zlen bs) by lia.
    cbn [readPackGUID_loop]. destruct Hbits as [Hbit Hbits].
    rewrite (wrap_pow2 8), land_bit_eqb, Hbit by lia.
    assert (Hp : 2 ^ (8 * (i + 1)) = 256 * 2 ^ (8 * i))
      by (replace (8 * (i + 1)) with (8 + 8 * i) by lia; by rewrite Z.pow_add_r by lia).
    unfold guid_bytes in *. destruct (Z.eqb_spec x 0) as [->|Hne]; cbn [negb].
    + rewrite filter_cons_False in * by lia. rewrite IH by (done || lia).
      f_equal. cbn [le_value]. lia.
    + rewrite filter_cons_True in * by lia.
      pose proof (reads_bounds _ _ Hr) as Hb. autorewrite with zlen in Hb.
      pose proof (zlen_nonneg (filter (fun y => y <> 0) bs)).
      apply (reads_app [x]) in Hr as [Hr1 Hr2].
      run. no_wrap. zbool. unfold inn. run. rewrite (read_T_ok 1 [x]) by done.
      cbn [le_value]. rewrite Z.mul_0_r, Z.add_0_r, (Z.mul_comm i).
      assert (Hs : Z.shiftl x (8 * i) = x * 2 ^ (8 * i)) by (apply Z.shiftl_mul_pow2; lia).
      assert (2 ^ (8 * (i + 1)) <= 2 ^ 64) by (apply Z.pow_le_mono_r; lia).
      rewrite (wrap_small 64) by (unfold in_width; rewrite Hs; nia).
      rewrite lor_shiftl_add by lia.
      rewrite IH; [|lia|lia|done|nia|done].
      rewrite advanced_advanced. f_equal; [cbn [le_value]; nia|].
      f_equal. autorewrite with zlen. lia.
Qed.

Definition guid_codec : codec Z := mkCodec appendPackGUID readPackGUID.

#[export] Instance guid_lawful : Lawful guid_codec guid_fmt (in_width 64).
Proof.
  unfold guid_fmt. split; intros guid b Hg.
  all: pose proof (le_bytes_is_byte 8 guid) as Hbytes.
  all: pose proof (length_le_bytes 8 guid) as Hlen8; pose proof (zlen_le_bytes 8 guid) as Hlen.
  all: pose proof (le_value_le_bytes 8 guid) as Hval; rewrite Z.mod_small in Hval by done.
  all: generalize dependent (le_bytes 8 guid); intros bs Hbytes Hlen8 Hlen Hval.
  all: pose proof (zlen_nonneg (guid_bytes bs)).
  - intros Hend Hbit Hsz. cbn [c_out guid_codec]. unfold appendPackGUID.
    pose proof (appendPackGUID_loop_ok 8 0 0 bs []) as Hl.
    rewrite Hval in Hl. rewrite Hl by (done || lia). rewrite Z.add_0_l, app_nil_l.
    autorewrite with zlen in Hsz. pose proof (size_nonneg b).
    apply append_bytes_ok; [done|done|lia|autorewrite with zlen; lia].
  - intros Hr. pose proof (reads_bounds _ _ Hr) as Hb. autorewrite with zlen in Hb.
    apply (reads_app [_]) in Hr as [Hr1 Hr2].
    cbn [c_in guid_codec]. unfold readPackGUID. run. no_wrap. zbool.
    unfold inn. run. rewrite (read_T_ok 1 _ _ Hr1) by done.
    cbn [le_value]. rewrite Z.mul_0_r, Z.add_0_r.
    change 8 with (Z.of_nat 8). rewrite <- Hlen.
    rewrite readPackGUID_loop_ok; [|done|lia|lia| |lia|done].
    + rewrite Hval, advanced_advanced. f_equal; [lia|]. f_equal. by autorewrite with zlen.
    + apply (bits_match_mask 0); lia.
Qed.
End PackGUID.
