(* ===== verification/WireProps.v ===== *)
(** * What the packet buffer guarantees

    The contract of [ByteBuffer.v] and [Wire.v] towards the handlers: values
    of every type the [<<] and [>>] operators cover survive the wire, whatever
    the byte orders of the two hosts; dates survive it to the minute; and
    parsing a packet of arbitrary contents never leaves the packet. *)

From Stdlib Require Import Btauto.
From S2P Require Import Prelude Float32 ByteBuffer Wire.

(** ** The types of the wire *)

(** The types the overloads and templates of the operators generate; maps are
    keyed by a scalar type. *)
Inductive wire_type :=
| WScalar (t : scalar)
| WString
| WPackGUID
| WPair (a b : wire_type)
| WVector (a : wire_type)
| WMap (k : scalar) (a : wire_type).

Fixpoint wire_value (t : wire_type) : Type :=
  match t with
  | WScalar _ => Z
  | WString => list Z
  | WPackGUID => Z
  | WPair a b => wire_value a * wire_value b
  | WVector a => list (wire_value a)
  | WMap _ a => list (Z * wire_value a)
  end.

Fixpoint wire_codec `{Host} (t : wire_type) : codec (wire_value t) :=
  match t with
  | WScalar s => scalar_codec s
  | WString => string_codec
  | WPackGUID => guid_codec
  | WPair a b => pair_codec (wire_codec a) (wire_codec b)
  | WVector a => vector_codec (wire_codec a)
  | WMap k a => map_codec Z.ltb (scalar_codec k) (wire_codec a)
  end.

Fixpoint wire_fmt (t : wire_type) : wire_value t -> list Z :=
  match t with
  | WScalar s => scalar_fmt s
  | WString => string_fmt
  | WPackGUID => guid_fmt
  | WPair a b => fun v => wire_fmt a v.1 ++ wire_fmt b v.2
  | WVector a => vector_fmt (wire_fmt a)
  | WMap k a => vector_fmt (entry_fmt (scalar_fmt k) (wire_fmt a))
  end.

Fixpoint wire_ok (t : wire_type) : wire_value t -> Prop :=
  match t with
  | WScalar s => scalar_ok s
  | WString => string_ok
  | WPackGUID => in_width 64
  | WPair a b => fun v => wire_ok a v.1 /\ wire_ok b v.2
  | WVector a => fun v => Forall (wire_ok a) v /\ zlen v < 2 ^ 32
  | WMap k a => map_ok Z.ltb (scalar_ok k) (wire_ok a)
  end.

(** ** The reading operations a handler can perform *)

Inductive read_op :=
| RValue (t : wire_type)
| RStringOf (length : Z)
| RRaw (len : Z)
| RSkip (skip : Z)
| RBit
| RBits (bits : Z)
| RByteSeq (b : Z).

Definition run_read `{Host} (op : read_op) : BB unit :=
  match op with
  | RValue t => v ← c_in (wire_codec t); mret tt
  | RStringOf n => s ← ReadString n; mret tt
  | RRaw n => s ← read_raw n; mret tt
  | RSkip n => read_skip n
  | RBit => x ← ReadBit; mret tt
  | RBits n => x ← ReadBits n; mret tt
  | RByteSeq b => x ← ReadByteSeq b; mret tt
  end.

(** The arguments the handlers pass: 32-bit lengths, at most 32 bits at once. *)
Definition read_op_ok (op : read_op) : Prop :=
  match op with
  | RStringOf n | RRaw n | RSkip n => in_width 32 n
  | RBits n => 0 <= n <= 32
  | _ => True
  end.

(** A packet being read: the cursors are inside it. *)
Definition rd_wf (b : ByteBuffer) : Prop :=
  0 <= _rpos b <= size b /\ size b < 2 ^ 62 /\ 0 <= _bitpos b <= 8.

(** What every outcome of a read keeps: a well-formed cursor that has not
    moved back, and the contents. *)
Definition rd_keeps (b b' : ByteBuffer) : Prop :=
  rd_wf b' /\ _storage b' = _storage b /\ _rpos b <= _rpos b'.

(** [m] returns or throws, and keeps the packet, from any packet. *)
Definition safe_read {A} (m : BB A) : Prop :=
  forall b, rd_wf b -> wp m (fun _ => rd_keeps b) (fun _ => rd_keeps b) b.

(** ** Lawfulness of every wire type *)

Lemma wire_lawful `{Host} t : Lawful (wire_codec t) (wire_fmt t) (wire_ok t).
Proof.
  induction t as [s| | |a IHa b IHb|a IH|k a IH]; cbn [wire_codec wire_fmt wire_ok].
  - apply scalar_lawful.
  - apply string_lawful.
  - apply guid_lawful.
  - by apply pair_lawful.
  - by apply vector_lawful.
  - apply map_lawful; [|apply scalar_lawful|done].
    intros x y Hlt. apply Z.ltb_lt in Hlt. apply Z.ltb_ge. lia.
Qed.

(** Two lawful codecs of one format understand each other. *)
Lemma codec_roundtrip {A} (cw cr : codec A) fmt ok (v : A) (b : ByteBuffer) :
  Lawful cw fmt ok -> Lawful cr fmt ok ->
  ok v -> at_end b -> _bitpos b = 8 -> size b + zlen (fmt v) <= 10000000 ->
  c_out cw v b = Ok tt (appended (fmt v) b) /\
  let b' := appended (fmt v) b in
  c_in cr (b' <| _rpos := size b |>) = Ok v (b' <| _rpos := size b' |>).
Proof.
  intros Hw Hr Hok Hend Hbit Hsz.
  split; [by apply lawful_out|].
  intros b'. rewrite (lawful_in v); [|done|].
  - f_equal. unfold b'. rewrite size_appended. unfold advanced. cbn. f_equal. lia.
  - exists (_storage b), []. unfold size in *. cbn.
    rewrite app_nil_r, zlen_app. split_and!; [done|done|]. lia.
Qed.

(** C4.  Round trip over the wire.  A value of any type covered by both
    operators, [bool] excepted, written at the end of a packet by a host of
    either byte order and read back from that position by a host of either byte
    order, is the value written, and the reader stops where the writer did.
    The types are the integers and floating-point numbers, strings, packed
    GUIDs, pairs, vectors and lists of them and maps keyed by a number; the
    values are those of their types (strings without a zero byte, fewer than
    2^32 elements, maps in the order of their keys), no bit is pending and the
    packet stays within its 10000000 bytes.  ([bool] has an [operator>>] but no
    [operator<<]: see [bool_not_symmetric].) *)
Theorem wire_roundtrip (writer reader : Host) (t : wire_type) (v : wire_value t)
    (b : ByteBuffer) :
  wire_ok t v -> at_end b -> _bitpos b = 8 -> size b + zlen (wire_fmt t v) <= 10000000 ->
  exists b',
    c_out (wire_codec (H := writer) t) v b = Ok tt b' /\
    c_in (wire_codec (H := reader) t) (b' <| _rpos := size b |>)
    = Ok v (b' <| _rpos := size b' |>).
Proof.
  intros Hok Hend Hbit Hsz. exists (appended (wire_fmt t v) b).
  by apply (codec_roundtrip _ _ _ _ _ _ (wire_lawful (H := writer) t) (wire_lawful (H := reader) t)).
Qed.

(** A [bool] is written as an [int32] and read as a [char]: the value read is
    the one written, and three bytes are left unread. *)
Theorem bool_not_symmetric (writer reader : Host) (v : Z) (b : ByteBuffer) :
  v = 0 \/ v = 1 -> at_end b -> _bitpos b = 8 -> size b + 4 <= 10000000 ->
  exists b',
    out (H := writer) TBool v b = Ok tt b' /\ size b' = size b + 4 /\
    inn (H := reader) TBool (b' <| _rpos := size b |>) = Ok v (b' <| _rpos := size b + 1 |>).
Proof.
  intros Hv Hend Hbit Hsz. exists (appended (le_bytes 4 v) b).
  split; [apply append_T_ok; done || (cbn; lia)|].
  split; [by rewrite size_appended, zlen_le_bytes|].
  assert (Hr : reads [v] ((appended (le_bytes 4 v) b) <| _rpos := size b |>)).
  { exists (_storage b), [0; 0; 0]. unfold size in *. cbn [appended _storage _rpos].
    destruct Hv as [-> | ->]; (split_and!; [done|done|]);
      cbn; unfold zlen in *; rewrite length_app; cbn; lia. }
  unfold inn. run. rewrite (read_T_ok 1 [v] _ Hr) by done.
  unfold advanced. cbn. f_equal; [by destruct Hv as [-> | ->]|].
  f_equal. rewrite zlen_cons, zlen_nil. lia.
Qed.

#[local] Instance little_host : Host := {| TRINITY_BIGENDIAN := false |}.
#[local] Instance big_host : Host := {| TRINITY_BIGENDIAN := true |}.

Lemma wire_roundtrip_witness :
  let t := WPair (WMap TU32 (WVector WString)) (WPair WPackGUID (WScalar TI16)) in
  let v := ([(7, [[72; 105]; []]); (9, [])], (0x0500AB0000001200, -2)) : wire_value t in
  exists b',
    c_out (wire_codec (H := big_host) t) v ByteBuffer_new = Ok tt b' /\
    c_in (wire_codec (H := little_host) t) (b' <| _rpos := 0 |>)
    = Ok v (b' <| _rpos := size b' |>).
Proof.
  intros t v. apply (wire_roundtrip big_host little_host t v ByteBuffer_new);
    [|done|done|by vm_compute].
  cbn. unfold map_ok, string_ok, in_width, in_swidth, entry_lt, zlen. cbn.
  repeat first [ done | lia | constructor ].
Defined.

(** ** Safety of reading *)

Lemma rd_keeps_trans b1 b2 b3 : rd_keeps b1 b2 -> rd_keeps b2 b3 -> rd_keeps b1 b3.
Proof. intros (_ & E1 & L1) (W & E2 & L2). split_and!; [done|congruence|lia]. Qed.

Lemma rd_keeps_refl b : rd_wf b -> rd_keeps b b.
Proof. intros. split_and!; [done|done|lia]. Qed.

Lemma rd_moved b b' :
  rd_wf b -> _storage b' = _storage b -> _rpos b <= _rpos b' <= size b ->
  0 <= _bitpos b' <= 8 -> rd_keeps b b'.
Proof.
  intros (Hr & Hs & Hb) Hst Hm Hb'. unfold rd_keeps, rd_wf, size in *. rewrite Hst.
  split_and!; done || lia.
Qed.

Lemma safe_ret {A} (a : A) : safe_read (mret a).
Proof. intros b Hb. by apply rd_keeps_refl. Qed.

Lemma safe_bind {A B} (m : BB A) (f : A -> BB B) :
  safe_read m -> (forall a, safe_read (f a)) -> safe_read (m ≫= f).
Proof.
  intros Hm Hf b Hb. apply wp_bind. eapply wp_mono; [by apply Hm| |done].
  intros a b' Hk. eapply wp_mono; [apply Hf; apply Hk| |];
    intros; by apply (rd_keeps_trans _ _ _ Hk).
Qed.

Lemma safe_if {A} (c : bool) (m1 m2 : BB A) :
  safe_read m1 -> safe_read m2 -> safe_read (if c then m1 else m2).
Proof. by destruct c. Qed.

Create HintDb safe discriminated.
#[local] Hint Resolve safe_ret safe_if safe_bind : safe.

Section Safety.
Context `{Host}.

(** A read of [n] bytes either moves inside the packet or throws. *)
Lemma safe_read_raw n : in_width 32 n -> safe_read (read_raw n).
Proof.
  intros Hn b Hwf. pose proof Hwf as (Hr & Hs & Hb). unfold in_width in Hn. unfold read_raw, wp. run. no_wrap.
  destruct (Z.ltb_spec (size b) (_rpos b + n)); run; [by apply rd_keeps_refl|].
  unfold load_at. zbool. cbn. no_wrap. by apply rd_moved; cbn; try lia.
Qed.

Lemma safe_read_skip n : in_width 32 n -> safe_read (read_skip n).
Proof.
  intros Hn b Hwf. pose proof Hwf as (Hr & Hs & Hb). unfold in_width in Hn. unfold read_skip, wp. run. no_wrap.
  destruct (Z.ltb_spec (size b) (_rpos b + n)); run; [by apply rd_keeps_refl|].
  no_wrap. by apply rd_moved; cbn; try lia.
Qed.

Lemma read_T_step n b :
  rd_wf b -> (n <= 8)%nat ->
  wp (read_T n) (fun _ b' => rd_keeps b b' /\ _rpos b' = _rpos b + Z.of_nat n)
     (fun _ => rd_keeps b) b.
Proof.
  intros Hwf Hn. pose proof Hwf as (Hr & Hs & Hb). unfold read_T, read_T_at, wp. run. no_wrap.
  destruct (Z.ltb_spec (size b) (_rpos b + Z.of_nat n)); run; [by apply rd_keeps_refl|].
  unfold load_at. zbool. cbn. no_wrap. split; [|done]. by apply rd_moved; cbn; try lia.
Qed.

Lemma safe_read_T n : (n <= 8)%nat -> safe_read (read_T n).
Proof.
  intros Hn b Hb. eapply wp_mono; [by apply read_T_step|naive_solver|done].
Qed.

Lemma safe_inn t : safe_read (inn t).
Proof.
  unfold inn. apply safe_bind; [apply safe_read_T; destruct t; cbn; lia|].
  intros. apply safe_ret.
Qed.

Lemma safe_inn_string_loop fuel acc b :
  rd_wf b -> size b - _rpos b <= Z.of_nat fuel ->
  wp (inn_string_loop fuel acc) (fun _ => rd_keeps b) (fun _ => rd_keeps b) b.
Proof.
  revert acc b. induction fuel as [|fuel IH]; intros acc b Hb Hf; cbn [inn_string_loop];
    apply wp_bind; unfold wp at 1; cbn [getS]; apply wp_if; intros Hc; zprop;
    try (by apply rd_keeps_refl); [destruct Hb; lia|].
  apply wp_bind. eapply wp_mono; [apply read_T_step; [done|lia]| |done].
  intros c b' [Hk Hr]. apply wp_if; intros _; [done|].
  pose proof Hk as (Hwf & Hst & Hle).
  eapply wp_mono; [apply IH; [done|]| |].
  - unfold size in *. rewrite Hst. lia.
  - intros. by apply (rd_keeps_trans _ _ _ Hk).
  - intros. by apply (rd_keeps_trans _ _ _ Hk).
Qed.

Lemma safe_inn_string : safe_read inn_string.
Proof.
  intros b Hb. apply wp_bind. unfold wp at 1. cbn [getS].
  apply safe_inn_string_loop; [done|]. destruct Hb. unfold size, zlen in *. lia.
Qed.

Lemma safe_check_one :
  safe_read (b ← getS;
             if size b <? u64 (_rpos b + 1)
             then throw (ByteBufferPositionException false (_rpos b) 1 (size b))
             else mret tt).
Proof.
  intros b Hb. apply wp_bind. unfold wp at 1. cbn [getS].
  apply wp_if; intros _; by apply rd_keeps_refl.
Qed.

Lemma safe_check_then {A} (f : BB A) :
  safe_read f ->
  safe_read (b ← getS;
             (if size b <? u64 (_rpos b + 1)
              then throw (ByteBufferPositionException false (_rpos b) 1 (size b))
              else mret tt);; f).
Proof.
  intros Hf b Hb. pose proof (safe_bind _ (fun _ => f) safe_check_one (fun _ => Hf) b Hb) as Hs.
  unfold wp in *. revert Hs. run. by destruct (_ <? _).
Qed.

Lemma safe_readPackGUID : safe_read readPackGUID.
Proof.
  assert (Hl : forall gm l g, safe_read (readPackGUID_loop gm l g)).
  2:{ apply safe_check_then, safe_bind; [apply safe_inn|auto]. }
  intros gm l. induction l as [|k l IH]; intros g;
    cbn [readPackGUID_loop]; [apply safe_ret|].
  apply safe_if; [|done].
  apply safe_check_then, safe_bind; [apply safe_inn|auto].
Qed.

Lemma safe_wire_codec t : safe_read (c_in (wire_codec t)).
Proof.
  induction t as [s| | |a IHa b IHb|a IH|k a IH]; cbn [wire_codec wire_value].
  - apply safe_inn.
  - apply safe_inn_string.
  - apply safe_readPackGUID.
  - apply safe_bind; [done|]. intros. apply safe_bind; [done|]. intros. apply safe_ret.
  - apply safe_bind; [apply safe_inn|]. intros vsize.
    generalize (Z.to_nat vsize) (@nil (wire_value a)). intros n.
    induction n as [|n IHn]; intros acc; cbn [vector_in_loop]; [apply safe_ret|].
    apply safe_bind; auto.
  - apply safe_bind; [apply safe_inn|]. intros vsize.
    generalize (Z.to_nat vsize) (@nil (Z * wire_value a)). intros n.
    induction n as [|n IHn]; intros acc; cbn [map_in_loop]; [apply safe_ret|].
    apply safe_bind; [apply safe_inn|]. intros. apply safe_bind; auto.
Qed.

Lemma safe_ReadBit : safe_read ReadBit.
Proof.
  intros b Hwf. pose proof Hwf as (Hr & Hs & Hb). unfold ReadBit.
  do 5 wp_step. cbn. no_wrap. wp_step; zprop.
  - do 3 wp_step. eapply wp_mono; [apply (read_T_step 1); [|lia]| |].
    + split_and!; unfold rd_wf, size in *; cbn; lia.
    + intros c b' [(Hwf' & Hst & Hle) _]. cbn in Hst, Hle. repeat wp_step.
      destruct Hwf' as (? & ? & ?). unfold size in *. rewrite Hst in *.
      by apply rd_moved; cbn; unfold size; try lia.
    + intros e b' (Hwf' & Hst & Hle). done.
  - repeat wp_step. by apply rd_moved; cbn; try lia.
Qed.

Lemma bit_iterations_ok bits : 0 <= bits < 2 ^ 31 -> bit_iterations bits = Z.to_nat bits.
Proof.
  intros Hb. unfold bit_iterations. f_equal.
  destruct (Z.eq_dec bits 0) as [->|]; [done|].
  no_wrap. rewrite swrap_small; [lia|lia|]. unfold in_swidth. cbn. lia.
Qed.

Lemma safe_ReadBits n : 0 <= n <= 32 -> safe_read (ReadBits n).
Proof.
  intros Hn. unfold ReadBits. rewrite bit_iterations_ok by lia.
  assert (Hle : (Z.to_nat n <= 32)%nat) by lia. revert Hle.
  generalize (Z.to_nat n) 0. clear n Hn. intros n. induction n as [|n IH]; intros v Hle;
    cbn [ReadBits_loop]; [apply safe_ret|].
  apply safe_bind; [apply safe_ReadBit|]. intros c.
  apply safe_if; [|apply IH; lia]. zbool. apply IH. lia.
Qed.

Lemma safe_run_read op : read_op_ok op -> safe_read (run_read op).
Proof.
  destruct op; cbn [read_op_ok run_read]; intros Hop.
  - apply safe_bind; [apply safe_wire_codec|]. intros. apply safe_ret.
  - apply safe_bind; [|intros; apply safe_ret].
    apply safe_if; [apply safe_ret|]. apply safe_bind; [by apply safe_read_raw|].
    intros. apply safe_ret.
  - apply safe_bind; [by apply safe_read_raw|]. intros. apply safe_ret.
  - by apply safe_read_skip.
  - apply safe_bind; [apply safe_ReadBit|]. intros. apply safe_ret.
  - apply safe_bind; [by apply safe_ReadBits|]. intros. apply safe_ret.
  - apply safe_bind; [|intros; apply safe_ret].
    apply safe_if; [|apply safe_ret]. apply safe_bind; [apply safe_read_T; lia|].
    intros. apply safe_ret.
Qed.
End Safety.

(** C12.  Parsing is memory-safe.  Any sequence of reads, with the argument
    ranges the handlers use, on a packet of arbitrary contents either completes
    or throws: it never reads outside the packet and never fails an assertion;
    the contents are unchanged, and the read cursor only moves forward and stays
    inside the packet. *)
Theorem parsing_safe `{Host} (ops : list read_op) (b : ByteBuffer) :
  Forall read_op_ok ops -> rd_wf b ->
  match for_each ops run_read b with
  | Ok _ b' | Throw _ b' => _storage b' = _storage b /\ _rpos b <= _rpos b' <= size b
  | Abort _ => False
  end.
Proof.
  intros Hops Hb.
  assert (Hsafe : safe_read (for_each ops run_read)).
  { clear b Hb. induction Hops; cbn [for_each]; [apply safe_ret|].
    apply safe_bind; [by apply safe_run_read|done]. }
  specialize (Hsafe b Hb). unfold wp in Hsafe.
  destruct (for_each ops run_read b); [| |done];
    destruct Hsafe as ((Hr & _) & Hst & Hle); unfold size in *; rewrite Hst in *;
    (split; [done|lia]).
Qed.

Definition short_packet : ByteBuffer :=
  {| _rpos := 0; _wpos := 6; _bitpos := 8; _curbitval := 0;
     _storage := [255; 3; 65; 66; 200; 1] |}.

Lemma parsing_safe_witness :
  let ops := [RBits 9; RSkip 1; RValue (WVector WString); RStringOf 4000000000] in
  match for_each ops (run_read (H := little_host)) short_packet with
  | Ok _ b' | Throw _ b' => _storage b' = _storage short_packet /\ 0 <= _rpos b' <= 6
  | Abort _ => False
  end.
Proof.
  apply (parsing_safe (H := little_host)); [repeat constructor; done || lia|].
  unfold rd_wf, size, zlen. cbn. lia.
Defined.

(** ** Packed dates *)

(** A date of the years 2000 to 2031, as [localtime] gives it. *)
Definition tm_ok (lt : tm) : Prop :=
  0 <= tm_min lt < 60 /\ 0 <= tm_hour lt < 24 /\ 1 <= tm_mday lt <= 31 /\
  0 <= tm_mon lt < 12 /\ 100 <= tm_year lt < 132 /\ 0 <= tm_wday lt < 7.

Definition without_wday (lt : tm) : tm :=
  {| tm_min := tm_min lt; tm_hour := tm_hour lt; tm_mday := tm_mday lt;
     tm_mon := tm_mon lt; tm_year := tm_year lt; tm_wday := 0 |}.

Lemma pack_tm_sum lt :
  tm_ok lt ->
  pack_tm lt = tm_min lt + tm_hour lt * 2 ^ 6 + tm_wday lt * 2 ^ 11 + (tm_mday lt - 1) * 2 ^ 14
               + tm_mon lt * 2 ^ 20 + (tm_year lt - 100) * 2 ^ 24.
Proof.
  intros (Hmin & Hh & Hd & Hm & Hy & Hw). unfold pack_tm.
  set (y := Z.shiftl (tm_year lt - 100) 24); set (m := Z.shiftl (tm_mon lt) 20).
  set (d := Z.shiftl (tm_mday lt - 1) 14); set (w := Z.shiftl (tm_wday lt) 11).
  set (h := Z.shiftl (tm_hour lt) 6).
  replace (Z.lor _ (tm_min lt))
    with (Z.lor (Z.lor (Z.lor (Z.lor (Z.lor (tm_min lt) h) w) d) m) y)
    by (apply Z.bits_inj'; intros i Hi; rewrite !Z.lor_spec; btauto).
  unfold y, m, d, w, h.
  rewrite (lor_shiftl_add _ _ 6), (lor_shiftl_add _ _ 11), (lor_shiftl_add _ _ 14),
    (lor_shiftl_add _ _ 20), (lor_shiftl_add _ _ 24) by lia.
  rewrite wrap_small by (unfold in_width; lia). done.
Qed.

Lemma unpack_pack_tm lt : tm_ok lt -> unpack_tm (pack_tm lt) = without_wday lt.
Proof.
  intros Hok. rewrite pack_tm_sum by done. destruct Hok as (Hmin & Hh & Hd & Hm & Hy & Hw).
  unfold unpack_tm, without_wday.
  change 63 with (Z.ones 6); change 31 with (Z.ones 5); change 15 with (Z.ones 4).
  rewrite !Z.land_ones, !Z.shiftr_div_pow2 by lia. zpow. f_equal; divmod_lia.
Qed.

(** A packed date survives the wire to the minute: reading the four bytes
    that [AppendPackedTime] wrote hands [mktime] the same minute, hour, day,
    month and year that [localtime] gave, for every date from 2000 to 2031. *)
Theorem packed_time_roundtrip (writer reader : Host) `{Calendar} (time : Z) (b : ByteBuffer) :
  tm_ok (localtime time) -> at_end b -> _bitpos b = 8 -> size b + 4 <= 10000000 ->
  exists b',
    AppendPackedTime (H := writer) time b = Ok tt b' /\ size b' = size b + 4 /\
    ReadPackedTime (H := reader) (b' <| _rpos := size b |>)
    = Ok (u32 (mktime (without_wday (localtime time)) + timezone)) (b' <| _rpos := size b' |>).
Proof.
  intros Hok Hend Hbit Hsz. exists (appended (scalar_fmt TU32 (pack_tm (localtime time))) b).
  pose proof (wrap_range 32) as Hr.
  assert (Hp : in_width 32 (pack_tm (localtime time))) by (apply Hr; lia).
  destruct (codec_roundtrip (scalar_codec (H := writer) TU32) (scalar_codec (H := reader) TU32)
              _ _ _ b (scalar_lawful (H := writer) TU32) (scalar_lawful (H := reader) TU32) Hp)
    as [Hw Hb']; [done|done|unfold scalar_fmt; by rewrite zlen_le_bytes|].
  split_and!; [apply Hw|rewrite size_appended; unfold scalar_fmt; by rewrite zlen_le_bytes|].
  unfold ReadPackedTime. cbn [c_in scalar_codec] in Hb'. cbn zeta in Hb'. unfold inn in Hb'. revert Hb'.
  unfold mbind, M_bind, mret, M_ret. change (sizeof TU32) with 4%nat.
  set (b1 := set_field _rpos (fun _ => size b) _). cbn in b1. clearbody b1.
  destruct (read_T 4 b1) as [v s| |]; [|done|done].
  intros Heq. injection Heq as -> ->. by rewrite unpack_pack_tm.
Qed.

Lemma packed_time_roundtrip_witness :
  let cal := {| localtime := fun _ => mkTm 59 23 31 11 131 3; mktime := tm_year; timezone := 0 |} in
  exists b',
    AppendPackedTime (H := big_host) (H0 := cal) 1956527940 ByteBuffer_new = Ok tt b' /\
    size b' = 4 /\
    ReadPackedTime (H := little_host) (H0 := cal) (b' <| _rpos := 0 |>)
    = Ok 131 (b' <| _rpos := size b' |>).
Proof.
  intros cal. apply (packed_time_roundtrip big_host little_host (H := cal) 1956527940 ByteBuffer_new);
    [|done|done|by vm_compute].
  unfold tm_ok. cbn. lia.
Defined.
