(* ===== verification/BitStream.v ===== *)
(** * The bit-level interface of the packet buffer

    [WriteBit], [WriteBits], [FlushBits], [ReadBit], [ReadBits] and [PutBits]
    of [ByteBuffer.h] keep a partial byte beside the byte vector.  The abstract
    state is a sequence of bits, most significant first: writing appends to
    it, reading consumes it, [PutBits] overwrites a range of it. *)

From S2P Require Import Prelude Float32 ByteBuffer.

(** ** The abstract view *)

(** The [n] low bits of [v], most significant first. *)
Fixpoint bits_msb (n : nat) (v : Z) : list bool :=
  match n with
  | O => []
  | S i => Z.testbit v (Z.of_nat i) :: bits_msb i v
  end.

(** The number a sequence of bits denotes. *)
Fixpoint bits_value (l : list bool) : Z :=
  match l with
  | [] => 0
  | x :: l' => (if x then 2 ^ zlen l' else 0) + bits_value l'
  end.

Definition bits_of (st : list Z) : list bool := concat (map (bits_msb 8) st).

(** The bits written so far, the partial byte included. *)
Definition written (b : ByteBuffer) : list bool :=
  bits_of (_storage b) ++ take (8 - Z.to_nat (_bitpos b)) (bits_msb 8 (_curbitval b)).

(** The bits a reader will get, the rest of the current byte first. *)
Definition unread (b : ByteBuffer) : list bool :=
  drop (1 + Z.to_nat (_bitpos b)) (bits_msb 8 (_curbitval b)) ++
  bits_of (drop (Z.to_nat (_rpos b)) (_storage b)).

(** A buffer that is being written: the unused bits of the partial byte are 0. *)
Definition wr_wf (b : ByteBuffer) : Prop :=
  at_end b /\ 1 <= _bitpos b <= 8 /\ 0 <= _curbitval b < 256 /\
  forall i, 0 <= i < _bitpos b -> Z.testbit (_curbitval b) i = false.

Definition bit_rd_wf (b : ByteBuffer) : Prop :=
  0 <= _rpos b <= size b /\ size b < 2 ^ 62 /\ 0 <= _bitpos b <= 8.

(** A bit field: the promoted width of its type, the value, the number of bits. *)
Record field := mkField { f_width : Z; f_value : Z; f_bits : Z }.

Definition field_ok (f : field) : Prop := 0 <= f_bits f <= f_width f /\ f_bits f <= 32.

Definition write_fields (fs : list field) : BB unit :=
  for_each fs (fun f => WriteBits (f_width f) (f_value f) (f_bits f)).

Fixpoint read_fields `{Host} (fs : list field) : BB (list Z) :=
  match fs with
  | [] => mret []
  | f :: fs' => v ← ReadBits (f_bits f); vs ← read_fields fs'; mret (v :: vs)
  end.

Definition total_bits (fs : list field) : Z := foldr (fun f n => f_bits f + n) 0 fs.

(** ** Lemmas on bit sequences *)

Lemma length_bits_msb n v : length (bits_msb n v) = n.
Proof. induction n; cbn; auto. Qed.

Lemma zlen_bits_msb n v : zlen (bits_msb n v) = Z.of_nat n.
Proof. unfold zlen. by rewrite length_bits_msb. Qed.

Lemma bits_msb_ext n v v' :
  (forall i, 0 <= i < Z.of_nat n -> Z.testbit v i = Z.testbit v' i) ->
  bits_msb n v = bits_msb n v'.
Proof.
  induction n as [|n IH]; intros Heq; cbn; [done|].
  f_equal; [apply Heq; lia|apply IH; intros; apply Heq; lia].
Qed.

Lemma lookup_bits_msb n v i :
  (i < n)%nat -> bits_msb n v !! i = Some (Z.testbit v (Z.of_nat (n - 1 - i))).
Proof.
  revert i. induction n as [|n IH]; intros i Hi; [lia|].
  destruct i as [|i]; cbn [bits_msb lookup list_lookup].
  - by replace (S n - 1 - 0)%nat with n by lia.
  - rewrite IH by lia. do 3 f_equal. lia.
Qed.

Lemma bits_value_msb n v : bits_value (bits_msb n v) = v mod 2 ^ Z.of_nat n.
Proof.
  induction n as [|n IH]; cbn [bits_msb bits_value]; [by rewrite Z.mod_1_r|].
  rewrite IH, zlen_bits_msb, Nat2Z.inj_succ, Z.pow_succ_r by lia.
  rewrite (Z.mul_comm 2), Z.rem_mul_r by lia.
  rewrite <- (Z.testbit_spec' v (Z.of_nat n)) by lia.
  destruct (Z.testbit v (Z.of_nat n)); cbn [Z.b2z]; lia.
Qed.

Lemma bits_of_app st1 st2 : bits_of (st1 ++ st2) = bits_of st1 ++ bits_of st2.
Proof. unfold bits_of. by rewrite map_app, concat_app. Qed.

Lemma bits_of_one x : bits_of [x] = bits_msb 8 x.
Proof. unfold bits_of. cbn [map concat]. by rewrite app_nil_r. Qed.

Lemma zlen_bits_of st : zlen (bits_of st) = 8 * zlen st.
Proof.
  induction st as [|x st IH]; [done|].
  change (x :: st) with ([x] ++ st). rewrite bits_of_app, bits_of_one.
  rewrite !zlen_app, IH, zlen_bits_msb. zsimp. lia.
Qed.

Lemma length_bits_of st : length (bits_of st) = (8 * length st)%nat.
Proof. pose proof (zlen_bits_of st). unfold zlen in *. lia. Qed.

#[local] Hint Rewrite zlen_bits_msb zlen_bits_of : zlen.

Lemma take_bits_msb n v m :
  (m <= n)%nat -> take m (bits_msb n v) = bits_msb m (Z.shiftr v (Z.of_nat (n - m))).
Proof.
  revert m. induction n as [|n IH]; intros m Hm.
  - destruct m; [done|lia].
  - destruct m as [|m]; [done|]. cbn [bits_msb firstn]. rewrite IH by lia.
    replace (S n - S m)%nat with (n - m)%nat by lia. f_equal.
    rewrite Z.shiftr_spec by lia. f_equal. lia.
Qed.

#[global] Arguments bits_msb : simpl never.
#[global] Arguments bits_of : simpl never.

(** ** Writing *)

Lemma written_set_bit c p (x : bool) :
  0 <= c < 256 -> 0 <= p < 8 -> (forall i, 0 <= i < p + 1 -> Z.testbit c i = false) ->
  let c' := if x then u8 (Z.lor c (Z.shiftl 1 p)) else c in
  0 <= c' < 256 /\ (forall i, 0 <= i < p -> Z.testbit c' i = false) /\
  take (8 - Z.to_nat p) (bits_msb 8 c')
  = take (8 - Z.to_nat (p + 1)) (bits_msb 8 c) ++ [x].
Proof.
  intros Hc Hp Hz c'.
  assert (Hbit : forall i, 0 <= i < 8 -> Z.testbit c' i = (x && (p =? i)) || Z.testbit c i).
  { intros i Hi. unfold c'. destruct x; [|done].
    rewrite wrap_testbit, Z.lor_spec, Z.shiftl_1_l, Z.pow2_bits_eqb by lia. apply orb_comm. }
  split; [|split].
  - unfold c'. destruct x; [|lia]. pose proof (wrap_range 8 (Z.lor c (Z.shiftl 1 p))) as Hw.
    unfold in_width in Hw. lia.
  - intros i Hi. rewrite Hbit, Hz by lia. zbool. by destruct x.
  - apply list_eq. intros i. destruct (decide (i < 8 - Z.to_nat p)%nat) as [Hi|Hi].
    + rewrite lookup_take_lt, lookup_bits_msb, Hbit by lia.
      destruct (decide (i = 7 - Z.to_nat p)%nat) as [->|].
      * rewrite lookup_app_r by (rewrite length_take, length_bits_msb; lia).
        rewrite length_take, length_bits_msb.
        replace (7 - Z.to_nat p - _)%nat with O by lia. cbn. zbool.
        rewrite Hz by lia. by destruct x.
      * rewrite lookup_app_l by (rewrite length_take, length_bits_msb; lia).
        rewrite lookup_take_lt, lookup_bits_msb by lia. zbool. by rewrite andb_false_r.
    + rewrite !lookup_ge_None_2; [done|..]; rewrite ?length_app, ?length_take, ?length_bits_msb;
        cbn; lia.
Qed.

Lemma zlen_written b :
  1 <= _bitpos b <= 8 -> zlen (written b) = 8 * size b + (8 - _bitpos b).
Proof.
  intros Hb. unfold written. rewrite zlen_app, zlen_bits_of.
  unfold size, zlen. rewrite length_take, length_bits_msb. lia.
Qed.

(** [WriteBit] as one step: the new partial byte, moved to the vector if full. *)
Lemma WriteBit_step bit b :
  1 <= _bitpos b <= 8 ->
  let x := negb (bit =? 0) in
  let p := _bitpos b - 1 in
  let c' := if x then u8 (Z.lor (_curbitval b) (Z.shiftl 1 p)) else _curbitval b in
  WriteBit bit b =
  if p =? 0
  then match append_bytes [c'] (b <| _bitpos := 8 |> <| _curbitval := c' |>) with
       | Ok _ s => Ok x (s <| _curbitval := 0 |>)
       | Throw e s => Throw e s
       | Abort r => Abort r
       end
  else Ok x (b <| _bitpos := p |> <| _curbitval := c' |>).
Proof.
  intros Hp. unfold WriteBit. run. no_wrap. zbool.
  destruct (negb (bit =? 0)); run; destruct (_bitpos b - 1 =? 0); run;
    solve [done | by destruct (append_bytes _ _) | by destruct b].
Qed.

Lemma WriteBit_ok bit b :
  wr_wf b -> size b < 10000000 ->
  exists b', WriteBit bit b = Ok (negb (bit =? 0)) b' /\ wr_wf b' /\
             written b' = written b ++ [negb (bit =? 0)] /\ _rpos b' = _rpos b.
Proof.
  intros (Hend & Hp & Hc & Hz) Hsz. rewrite WriteBit_step by done.
  destruct (written_set_bit (_curbitval b) (_bitpos b - 1) (negb (bit =? 0))) as (Hc' & Hz' & Hw);
    [done|lia|intros; apply Hz; lia|].
  replace (_bitpos b - 1 + 1) with (_bitpos b) in Hw by lia.
  cbn zeta. set (x := negb (bit =? 0)) in *.
  set (c' := if x then _ else _) in *. clearbody c'.
  destruct (Z.eqb_spec (_bitpos b - 1) 0) as [H1|H1].
  - rewrite append_bytes_ok; [|done|done|done|zsimp; lia].
    eexists; split; [done|]. split; [split_and!|split]; try done; cbn; try lia.
    + unfold at_end, size in *. cbn. rewrite Hend. zsimp. lia.
    + intros i Hi. apply Z.bits_0.
    + unfold written. cbn [_bitpos _storage _curbitval set_field]. cbn.
      rewrite bits_of_app, bits_of_one, app_nil_r, <- app_assoc. f_equal.
      rewrite H1 in Hw. rewrite <- Hw. done.
  - eexists; split; [done|]. split; [split_and!|split]; try done; cbn; try lia.
    unfold written. cbn [_bitpos _storage _curbitval set_field].
    cbn. by rewrite Hw, app_assoc.
Qed.

(** The whole bytes of what has been written, plus one for the partial byte. *)
Definition wr_room (b : ByteBuffer) (n : Z) : Prop := zlen (written b) + n <= 80000000.

Lemma wr_room_size b n : wr_wf b -> 1 <= n -> wr_room b n -> size b < 10000000.
Proof. intros (_ & Hp & _) Hn Hr. unfold wr_room in Hr. rewrite zlen_written in Hr by done. lia. Qed.

Lemma WriteBits_loop_ok w value n b :
  wr_wf b -> wr_room b (Z.of_nat n) -> Z.of_nat n <= w ->
  exists b', WriteBits_loop w value n b = Ok tt b' /\ wr_wf b' /\
             written b' = written b ++ bits_msb n value /\ _rpos b' = _rpos b.
Proof.
  revert b. induction n as [|n IH]; intros b Hwf Hroom Hw.
  - exists b. cbn [WriteBits_loop]. split_and!; try apply Hwf; try done. by rewrite app_nil_r.
  - cbn [WriteBits_loop]. zbool. run.
    destruct (WriteBit_ok (Z.land (Z.shiftr value (Z.of_nat n)) 1) b) as (b1 & -> & Hwf1 & Hw1 & Hr1);
      [done|eapply wr_room_size; [done|..|done]; lia|].
    assert (Hbit : negb (Z.land (Z.shiftr value (Z.of_nat n)) 1 =? 0) = Z.testbit value (Z.of_nat n)).
    { change 1 with (Z.shiftl 1 0). rewrite land_bit_eqb, negb_involutive by lia.
      by rewrite Z.shiftr_spec, Z.add_0_l by lia. }
    rewrite Hbit in Hw1.
    destruct (IH b1) as (b' & -> & Hwf' & Hw' & Hr'); [done| |lia|].
    { unfold wr_room in *. rewrite Hw1. zsimp. lia. }
    exists b'. split; [done|]. split; [done|]. split; [|congruence].
    rewrite Hw', Hw1, <- app_assoc. done.
Qed.

Lemma iterations_of bits : 0 <= bits < 2 ^ 31 -> bit_iterations bits = Z.to_nat bits.
Proof.
  intros Hb. unfold bit_iterations. f_equal.
  destruct (Z.eq_dec bits 0) as [->|]; [done|].
  no_wrap. rewrite swrap_small; [lia|lia|]. unfold in_swidth. cbn. lia.
Qed.

Lemma WriteBits_ok w value n b :
  wr_wf b -> wr_room b n -> 0 <= n <= w -> n <= 32 ->
  exists b', WriteBits w value n b = Ok tt b' /\ wr_wf b' /\
             written b' = written b ++ bits_msb (Z.to_nat n) value /\ _rpos b' = _rpos b.
Proof.
  intros Hwf Hroom Hn Hn32. unfold WriteBits. rewrite iterations_of by lia.
  apply WriteBits_loop_ok; [done|unfold wr_room in *; lia|lia].
Qed.

Lemma write_fields_ok fs b :
  Forall field_ok fs -> wr_wf b -> wr_room b (total_bits fs) ->
  exists b', write_fields fs b = Ok tt b' /\ wr_wf b' /\
             written b' = written b ++
               concat (map (fun f => bits_msb (Z.to_nat (f_bits f)) (f_value f)) fs) /\
             _rpos b' = _rpos b.
Proof.
  intros Hfs. revert b. unfold write_fields.
  assert (Hpos : forall l, Forall field_ok l -> 0 <= total_bits l).
  { induction 1 as [|f l [Hf _] _ IH]; unfold total_bits in *; cbn; lia. }
  induction Hfs as [|f fs [Hf Hf32] Hfs IH]; intros b Hwf Hroom.
  - exists b. cbn. rewrite app_nil_r. split; [done|]. split; [done|]. done.
  - specialize (Hpos fs Hfs). cbn [for_each map concat] in *. cbn [total_bits foldr] in Hroom.
    fold (total_bits fs) in Hroom. run.
    destruct (WriteBits_ok (f_width f) (f_value f) (f_bits f) b)
      as (b1 & -> & Hwf1 & Hw1 & Hr1); [done|unfold wr_room in *; lia|lia|lia|].
    destruct (IH b1) as (b' & -> & Hwf' & Hw' & Hr'); [done| |].
    { unfold wr_room in *. rewrite Hw1. zsimp. lia. }
    exists b'. split; [done|]. split; [done|]. split; [|congruence].
    rewrite Hw', Hw1, <- app_assoc. done.
Qed.

Lemma bits_msb_low_zero c p :
  0 <= p <= 8 -> (forall i, 0 <= i < p -> Z.testbit c i = false) ->
  bits_msb 8 c = take (8 - Z.to_nat p) (bits_msb 8 c) ++ replicate (Z.to_nat p) false.
Proof.
  intros Hp Hz. apply list_eq. intros i. destruct (decide (i < 8 - Z.to_nat p)%nat) as [Hi|Hi].
  - rewrite lookup_app_l by (rewrite length_take, length_bits_msb; lia).
    by rewrite lookup_take_lt by lia.
  - rewrite lookup_app_r by (rewrite length_take, length_bits_msb; lia).
    rewrite length_take, length_bits_msb. destruct (decide (i < 8)%nat).
    + rewrite lookup_bits_msb, Hz by lia. symmetry. apply lookup_replicate_2. lia.
    + rewrite !lookup_ge_None_2; [done|rewrite length_replicate; lia|rewrite length_bits_msb; lia].
Qed.

(** Flushing pads the partial byte with zeros. *)
Lemma FlushBits_ok b :
  wr_wf b -> wr_room b 1 ->
  exists b', FlushBits b = Ok tt b' /\ at_end b' /\ _bitpos b' = 8 /\ _rpos b' = _rpos b /\
             bits_of (_storage b') = written b ++ replicate (Z.to_nat (_bitpos b mod 8)) false.
Proof.
  intros Hwf Hroom. pose proof Hwf as (Hend & Hp & Hc & Hz).
  destruct (decide (_bitpos b = 8)) as [H8|H8].
  - exists b. rewrite FlushBits_aligned by done. split_and!; try done.
    unfold written. rewrite H8. cbn. by rewrite !app_nil_r.
  - unfold FlushBits. run. zbool. rewrite append_bytes_ok;
      [|done|done|by eapply wr_room_size|zsimp; lia].
    cbn. eexists. split; [done|]. split; [|split; [done|split; [done|]]].
    + unfold at_end, size in *. cbn. rewrite Hend. zsimp. lia.
    + cbn. unfold written. rewrite bits_of_app, bits_of_one, <- app_assoc. f_equal.
      rewrite Z.mod_small by lia. apply bits_msb_low_zero; [lia|done].
Qed.

(** After a flush nothing is pending. *)
Lemma FlushBits_full b :
  wr_wf b -> wr_room b 1 ->
  exists b', FlushBits b = Ok tt b' /\ at_end b' /\ _bitpos b' = 8 /\ _curbitval b' = 0 /\
             _rpos b' = _rpos b /\
             bits_of (_storage b') = written b ++ replicate (Z.to_nat (_bitpos b mod 8)) false.
Proof.
  intros Hwf Hroom. destruct (FlushBits_ok b Hwf Hroom) as (b' & Hf & ? & ? & ? & ?).
  exists b'. split_and!; try done. destruct Hwf as (_ & Hp & Hc & Hz).
  unfold FlushBits in Hf. run in Hf. destruct (Z.eqb_spec (_bitpos b) 8) as [H8|H8].
  - injection Hf as <-. apply Z.bits_inj'. intros i Hi. rewrite Z.bits_0.
    destruct (decide (i < 8)); [apply Hz; lia|]. apply (testbit_small _ 8); lia.
  - destruct (append_bytes _ b); [|done..]. by injection Hf as <-.
Qed.

(** Writing bits keeps the bytes that are already there. *)
Definition keeps_prefix {A} (m : BB A) : Prop :=
  forall P b a b', at_end b -> P `prefix_of` _storage b -> m b = Ok a b' ->
                   at_end b' /\ P `prefix_of` _storage b'.

Lemma prefix_ret {A} (a : A) : keeps_prefix (mret a).
Proof. by intros P b a' b' ? ? [= <- <-]. Qed.

Lemma prefix_bind {A B} (m : BB A) (f : A -> BB B) :
  keeps_prefix m -> (forall a, keeps_prefix (f a)) -> keeps_prefix (m ≫= f).
Proof.
  intros Hm Hf P b a b' Hend HP. unfold mbind, M_bind.
  destruct (m b) as [x b1| |] eqn:Hb; [|done..].
  destruct (Hm P b x b1 Hend HP Hb). by apply Hf.
Qed.

Lemma prefix_when c m : keeps_prefix m -> keeps_prefix (when c m).
Proof. destruct c; [done|]. intros _. apply prefix_ret. Qed.

Lemma prefix_if {A} (c : bool) (m1 m2 : BB A) :
  keeps_prefix m1 -> keeps_prefix m2 -> keeps_prefix (if c then m1 else m2).
Proof. by destruct c. Qed.

Lemma prefix_abort {A} r : keeps_prefix (abort (A := A) r).
Proof. by intros P b a b' ? ?. Qed.

Lemma prefix_getS : keeps_prefix getS.
Proof. by intros P b a b' ? ? [= <- <-]. Qed.

Lemma prefix_modify f :
  (forall b, _storage (f b) = _storage b /\ _wpos (f b) = _wpos b) -> keeps_prefix (modify f).
Proof.
  intros Hf P b a b' Hend HP [= <- <-]. destruct (Hf b) as [Hs Hw].
  unfold at_end, size in *. by rewrite Hs, Hw.
Qed.

Lemma prefix_append_byte c : keeps_prefix (append_bytes [c]).
Proof.
  intros P b a b' Hend HP Hrun.
  destruct (decide (size b < 10000000)) as [Hs|Hs].
  - rewrite append_bytes_ok in Hrun by done. injection Hrun as <- <-.
    split; [by apply at_end_appended|]. cbn. by apply prefix_app_r.
  - unfold append_bytes, append_raw in Hrun. run in Hrun.
    rewrite (proj2 (Z.ltb_ge _ _)) in Hrun by lia. done.
Qed.

Create HintDb keeps discriminated.
#[export] Hint Resolve prefix_ret prefix_bind prefix_when prefix_if prefix_abort prefix_getS
  prefix_append_byte : keeps.
#[export] Hint Extern 1 (keeps_prefix (modify _)) => (by apply prefix_modify) : keeps.

Lemma prefix_WriteBit bit : keeps_prefix (WriteBit bit).
Proof.
  unfold WriteBit. apply prefix_bind; [by apply prefix_modify|intros _].
  apply prefix_bind; [apply prefix_getS|intros b].
  apply prefix_bind; [apply prefix_when, prefix_if; [apply prefix_abort|by apply prefix_modify]|intros _].
  apply prefix_bind; [|auto with keeps]. apply prefix_when.
  apply prefix_bind; [by apply prefix_modify|intros _]. apply prefix_bind; [apply prefix_getS|intros b'].
  apply prefix_bind; [apply prefix_append_byte|intros _; by apply prefix_modify].
Qed.

Lemma prefix_WriteBits w value n : keeps_prefix (WriteBits w value n).
Proof.
  unfold WriteBits. induction (bit_iterations n) as [|i IH]; cbn [WriteBits_loop]; [apply prefix_ret|].
  apply prefix_bind; [|done]. apply prefix_if; [apply prefix_abort|].
  intros P b a b' Hend HP Hrun. destruct (WriteBit _ b) eqn:Hw; try done.
  injection Hrun as <- <-. by apply (prefix_WriteBit _ _ _ _ _ Hend HP Hw).
Qed.

Lemma prefix_FlushBits : keeps_prefix FlushBits.
Proof.
  unfold FlushBits. apply prefix_bind; [apply prefix_getS|intros b].
  apply prefix_if; [apply prefix_ret|].
  apply prefix_bind; [apply prefix_append_byte|intros _; by apply prefix_modify].
Qed.

Lemma prefix_for_each {A} (l : list A) (f : A -> BB unit) :
  (forall x, x ∈ l -> keeps_prefix (f x)) -> keeps_prefix (for_each l f).
Proof.
  induction l as [|x l IH]; intros Hl; cbn [for_each]; [apply prefix_ret|].
  apply prefix_bind; [apply Hl; set_solver|]. intros _. apply IH. set_solver.
Qed.

(** ** Reading *)

Lemma drop_bits_msb_cons p c :
  0 <= p <= 7 ->
  drop (Z.to_nat p) (bits_msb 8 c) = Z.testbit c (7 - p) :: drop (1 + Z.to_nat p) (bits_msb 8 c).
Proof.
  intros Hp. rewrite (drop_S _ (Z.testbit c (7 - p)) (Z.to_nat p)); [done|].
  rewrite lookup_bits_msb by lia. do 2 f_equal. lia.
Qed.

Lemma shift_mask_testbit c p :
  0 <= p <= 7 -> negb (Z.land (Z.shiftr c (7 - p)) 1 =? 0) = Z.testbit c (7 - p).
Proof.
  intros Hp. change 1 with (Z.shiftl 1 0). rewrite land_bit_eqb, negb_involutive by lia.
  by rewrite Z.shiftr_spec, Z.add_0_l by lia.
Qed.

Section Reader.
Context `{Host}.

Lemma ReadBit_ok x rest b :
  bit_rd_wf b -> unread b = x :: rest ->
  exists b', ReadBit b = Ok x b' /\ bit_rd_wf b' /\ unread b' = rest /\
             _storage b' = _storage b.
Proof.
  intros (Hr & Hs & Hb) Hun. unfold ReadBit. run. no_wrap.
  destruct (Z.ltb_spec 7 (_bitpos b + 1)) as [Hp|Hp]; run.
  - unfold unread in Hun. rewrite drop_ge in Hun by (rewrite length_bits_msb; lia).
    destruct (drop (Z.to_nat (_rpos b)) (_storage b)) as [|c st] eqn:Hd; [done|].
    assert (Hrd : reads [c] (b <| _bitpos := 0 |>)).
    { exists (take (Z.to_nat (_rpos b)) (_storage b)), st. cbn.
      assert (Hlen : 0 <= _rpos b <= zlen (_storage b)) by done. unfold zlen in *.
      split_and!; [by rewrite <- (take_drop (Z.to_nat (_rpos b)) (_storage b)), Hd at 1| |].
      - rewrite length_take. lia.
      - unfold size, zlen in *. cbn. lia. }
    rewrite (read_T_ok 1 [c]) by done. run. cbn [le_value].
    rewrite Z.mul_0_r, Z.add_0_r, shift_mask_testbit by lia.
    change (bits_of (c :: st)) with (bits_of ([c] ++ st)) in Hun.
    rewrite bits_of_app, bits_of_one in Hun. cbn [app] in Hun.
    rewrite <- (drop_0 (bits_msb 8 c)) in Hun.
    rewrite (drop_bits_msb_cons 0) in Hun by lia. cbn [app] in Hun. injection Hun as <- <-.
    eexists. split; [done|]. pose proof (reads_bounds _ _ Hrd) as Hbd.
    unfold size in *. cbn in Hbd. zsimp.
    split; [unfold bit_rd_wf, size; cbn; lia|]. split; [|done].
    unfold unread. cbn.
    replace (Z.to_nat (1 + 0 + _rpos b)) with (Z.to_nat (_rpos b) + 1)%nat by lia.
    by rewrite <- drop_drop, Hd.
  - rewrite shift_mask_testbit by lia. unfold unread in Hun.
    replace (1 + Z.to_nat (_bitpos b))%nat with (Z.to_nat (_bitpos b + 1)) in Hun by lia.
    rewrite drop_bits_msb_cons in Hun by lia. cbn [app] in Hun. injection Hun as <- <-.
    eexists. split; [done|]. split; [unfold bit_rd_wf, size in *; cbn; lia|]. split; [|done].
    unfold unread. cbn. done.
Qed.

Lemma ReadBits_loop_ok l rest acc b :
  (length l <= 32)%nat -> bit_rd_wf b -> unread b = l ++ rest ->
  acc mod 2 ^ zlen l = 0 -> 0 <= acc < 2 ^ 32 ->
  exists b', ReadBits_loop (length l) acc b = Ok (acc + bits_value l) b' /\ bit_rd_wf b' /\
             unread b' = rest /\ _storage b' = _storage b.
Proof.
  revert acc b. induction l as [|x l IH]; intros acc b Hlen Hwf Hun Hacc Hrange.
  - exists b. cbn. rewrite Z.add_0_r. split; [done|]. split; [done|]. done.
  - cbn [length] in Hlen. cbn [app] in Hun. cbn [ReadBits_loop length].
    destruct (ReadBit_ok x (l ++ rest) b) as (b1 & Hrun & Hwf1 & Hun1 & Hst1); [done|done|].
    run. rewrite Hrun. autorewrite with zlen in Hacc.
    assert (Hp : 2 ^ (1 + zlen l) = 2 * 2 ^ zlen l)
      by (rewrite Z.pow_add_r by (zlen_pos; lia); lia).
    assert (Hpos : 0 < 2 ^ zlen l) by (apply Z.pow_pos_nonneg; zlen_pos; lia).
    rewrite Hp in Hacc. apply Z.mod_divide in Hacc as [q ->]; [|lia].
    destruct x; cbn [bits_value].
    + zbool. change (Z.of_nat (length l)) with (zlen l) in *.
      assert (Hlt : 2 ^ zlen l < 2 ^ 32) by (apply Z.pow_lt_mono_r; unfold zlen; lia).
      rewrite (wrap_pow2 32) by (unfold zlen; lia).
      assert (Hlor : Z.lor (q * (2 * 2 ^ zlen l)) (Z.shiftl 1 (zlen l))
                     = q * (2 * 2 ^ zlen l) + 2 ^ zlen l).
      { replace (q * (2 * 2 ^ zlen l)) with (Z.shiftl q (1 + zlen l))
          by (rewrite Z.shiftl_mul_pow2, Hp by (zlen_pos; lia); done).
        rewrite Z.lor_comm, lor_shiftl_add; [|zlen_pos; lia|].
        - rewrite Z.shiftl_1_l, Z.shiftl_mul_pow2, Hp by (zlen_pos; lia). lia.
        - rewrite Z.shiftl_1_l, Hp. lia. }
      rewrite Hlor.
      destruct (IH (q * (2 * 2 ^ zlen l) + 2 ^ zlen l) b1) as (b' & -> & Hrest);
        [lia|done|done| | |].
      * replace (_ + _) with ((2 * q + 1) * 2 ^ zlen l) by lia. by apply Z.mod_mul; lia.
      * assert (H32 : 2 ^ 32 = 2 ^ (31 - zlen l) * (2 * 2 ^ zlen l)).
        { rewrite <- Hp, <- Z.pow_add_r by (unfold zlen; lia). f_equal. unfold zlen. lia. }
        rewrite H32 in *. revert Hrange Hpos.
        generalize (2 ^ zlen l) as P, (2 ^ (31 - zlen l)) as R. clear. intros P R Hrange HP.
        assert (q < R) by nia. nia.
      * exists b'. destruct Hrest as (? & ? & ?). split; [f_equal; lia|].
        split; [done|]. split; [done|congruence].
    + destruct (IH (q * (2 * 2 ^ zlen l)) b1) as (b' & -> & Hrest); [lia|done|done| |done|].
      * replace (_ * _) with ((2 * q) * 2 ^ zlen l) by lia. by apply Z.mod_mul; lia.
      * exists b'. destruct Hrest as (? & ? & ?). rewrite Z.add_0_l.
        split; [done|]. split; [done|]. split; [done|congruence].
Qed.

Lemma ReadBits_ok n v rest b :
  0 <= n <= 32 -> bit_rd_wf b -> unread b = bits_msb (Z.to_nat n) v ++ rest ->
  exists b', ReadBits n b = Ok (v mod 2 ^ n) b' /\ bit_rd_wf b' /\
             unread b' = rest /\ _storage b' = _storage b.
Proof.
  intros Hn Hwf Hun. unfold ReadBits. rewrite iterations_of by lia.
  destruct (ReadBits_loop_ok (bits_msb (Z.to_nat n) v) rest 0 b) as (b' & Hb' & Hrest);
    [rewrite length_bits_msb; lia|done|done|by rewrite Zmod_0_l|lia|].
  exists b'. split; [|done].
  rewrite length_bits_msb, bits_value_msb, Z.add_0_l, Z2Nat.id in Hb' by lia. done.
Qed.

Lemma read_fields_ok fs rest b :
  Forall field_ok fs -> bit_rd_wf b ->
  unread b = concat (map (fun f => bits_msb (Z.to_nat (f_bits f)) (f_value f)) fs) ++ rest ->
  exists b', read_fields fs b = Ok (map (fun f => f_value f mod 2 ^ f_bits f) fs) b' /\
             unread b' = rest /\ _storage b' = _storage b.
Proof.
  intros Hfs. revert b. induction Hfs as [|f fs [Hf Hf32] Hfs IH]; intros b Hwf Hun.
  - exists b. cbn in *. done.
  - cbn [map concat read_fields] in *. rewrite <- app_assoc in Hun.
    destruct (ReadBits_ok (f_bits f) (f_value f) _ b ltac:(lia) Hwf Hun)
      as (b1 & Hr1 & Hwf1 & Hun1 & Hst1).
    destruct (IH b1 Hwf1 Hun1) as (b' & Hr' & Hun' & Hst').
    exists b'. run. rewrite Hr1, Hr'. split; [done|]. split; [done|congruence].
Qed.
End Reader.

(** When what is left is less than a byte and the bits of [bs], the reader is
    at [bs]. *)
Lemma unread_reads pre bs n b :
  bit_rd_wf b -> unread b = replicate n false ++ bits_of bs -> (n < 8)%nat ->
  _storage b = pre ++ bs -> reads bs b /\ _rpos b = zlen pre.
Proof.
  intros (Hr & Hs & Hb) Hun Hn Hst.
  assert (Hp : _rpos b = zlen pre).
  2: { split; [|done]. exists pre, []. rewrite app_nil_r. split_and!; [done|done|lia]. }
  apply (f_equal length) in Hun. unfold unread in Hun.
  rewrite !length_app, length_drop, length_bits_msb, length_replicate, !length_bits_of, length_drop in Hun.
  unfold size in *. rewrite Hst, zlen_app in *. rewrite length_app in Hun. unfold zlen in *. lia.
Qed.

(** ** Overwriting *)

Lemma bits_of_cons x st : bits_of (x :: st) = bits_msb 8 x ++ bits_of st.
Proof. change (x :: st) with ([x] ++ st). by rewrite bits_of_app, bits_of_one. Qed.

(** Storing a byte that differs in one bit changes one bit of the sequence. *)
Lemma bits_of_insert st k x x' (j : nat) (bit : bool) :
  st !! k = Some x -> (j < 8)%nat ->
  (forall i, 0 <= i < 8 ->
     Z.testbit x' i = if i =? 7 - Z.of_nat j then bit else Z.testbit x i) ->
  bits_of (<[k := x']> st) = <[(8 * k + j)%nat := bit]> (bits_of st).
Proof.
  revert k. induction st as [|y st IH]; intros k Hk Hj Hx; [done|].
  destruct k as [|k].
  - change (<[0%nat := x']> (y :: st)) with (x' :: st). injection Hk as ->. rewrite !bits_of_cons.
    rewrite insert_app_l by (rewrite length_bits_msb; lia).
    f_equal. apply list_eq. intros i. destruct (decide (i < 8)%nat) as [Hi|Hi].
    + rewrite lookup_bits_msb, Hx by lia.
      destruct (decide (i = j)) as [->|Hne].
      * zbool. rewrite list_lookup_insert_eq by (rewrite length_bits_msb; lia). done.
      * zbool. rewrite list_lookup_insert_ne by lia. by rewrite lookup_bits_msb.
    + rewrite !lookup_ge_None_2; [done|..];
        rewrite ?length_insert, length_bits_msb; lia.
  - change (<[S k := x']> (y :: st)) with (y :: <[k := x']> st).
    rewrite !bits_of_cons, (IH k) by done.
    replace (8 * S k + j)%nat with (length (bits_msb 8 y) + (8 * k + j))%nat
      by (rewrite length_bits_msb; lia).
    by rewrite insert_app_r.
Qed.

Lemma PutBits_step_ok w pos value n i b :
  0 <= pos -> 0 <= i < n -> n <= w -> pos + n <= 8 * size b -> size b < 2 ^ 60 ->
  exists st', PutBits_step w pos value n i b = Ok tt (b <| _storage := st' |>) /\
              length st' = length (_storage b) /\
              bits_of st' = <[Z.to_nat (pos + i) := Z.testbit value (n - 1 - i)]> (bits_of (_storage b)).
Proof.
  intros Hpos Hi Hw Hroom Hsz. unfold PutBits_step. run. no_wrap. zbool.
  set (k := Z.to_nat ((pos + i) / 8)). set (j := (pos + i) mod 8).
  assert (Hj : 0 <= j < 8) by (unfold j; divmod_lia).
  assert (Hk : (k < length (_storage b))%nat)
    by (unfold k, size, zlen in *; divmod_lia).
  destruct (lookup_lt_is_Some_2 _ _ Hk) as [x Hx]. rewrite Hx.
  replace (negb _) with (Z.testbit value (n - 1 - i)).
  2: { change 1 with (Z.shiftl 1 0). rewrite land_bit_eqb, negb_involutive by lia.
       rewrite Z.shiftr_spec by lia. f_equal. lia. }
  eexists. split; [done|]. split; [apply length_insert|].
  replace (Z.to_nat (pos + i)) with (8 * k + Z.to_nat j)%nat
    by (unfold k, j; divmod_lia).
  apply (bits_of_insert _ _ x); [done|lia|]. intros l Hl.
  rewrite Z2Nat.id by lia.
  destruct (Z.testbit value (n - 1 - i)); rewrite wrap_testbit by lia;
    rewrite ?Z.lor_spec, ?Z.land_spec, ?Z.lnot_spec, Z.shiftl_1_l, Z.pow2_bits_eqb by lia;
    destruct (Z.eqb_spec l (7 - j)) as [->|Hne]; zbool;
    destruct (Z.testbit x _); done.
Qed.

Lemma PutBits_loop_ok w pos value n k i b :
  0 <= pos -> 0 <= i -> i + Z.of_nat k = n -> n <= w ->
  pos + n <= 8 * size b -> size b < 2 ^ 60 ->
  exists st', for_each (seqZ i (Z.of_nat k)) (PutBits_step w pos value n) b
              = Ok tt (b <| _storage := st' |>) /\ length st' = length (_storage b) /\
              bits_of st' = take (Z.to_nat (pos + i)) (bits_of (_storage b)) ++ bits_msb k value
                            ++ drop (Z.to_nat (pos + n)) (bits_of (_storage b)).
Proof.
  revert i b. induction k as [|k IH]; intros i b Hpos Hi Hn Hw Hroom Hsz.
  - rewrite seqZ_nil by lia. exists (_storage b). split; [by destruct b|].
    split; [done|]. replace (pos + n) with (pos + i) by lia. change (bits_msb 0 value) with (@nil bool).
    by rewrite app_nil_l, take_drop.
  - rewrite seqZ_cons by lia. cbn [for_each]. run.
    destruct (PutBits_step_ok w pos value n i b) as (st1 & -> & Hl1 & Hb1); [lia..|].
    destruct (IH (Z.succ i) (b <| _storage := st1 |>)) as (st' & Hrun & Hl' & Hb').
    1-6: unfold size, zlen in *; cbn; lia.
    replace (Z.pred (Z.of_nat (S k))) with (Z.of_nat k) by lia.
    exists st'. rewrite Hrun. cbn in *. split; [done|]. split; [lia|].
    rewrite Hb', Hb1.
    assert (Hlen : (Z.to_nat (pos + i) < length (bits_of (_storage b)))%nat)
      by (rewrite length_bits_of; unfold size, zlen in *; lia).
    replace (Z.to_nat (pos + Z.succ i)) with (S (Z.to_nat (pos + i))) by lia.
    erewrite take_S_r by by apply list_lookup_insert_eq.
    rewrite take_insert_ge, drop_insert_lt by lia. rewrite <- app_assoc.
    f_equal. unfold bits_msb at 2. fold bits_msb. cbn [app]. do 2 f_equal. lia.
Qed.

(** ** Claims *)

Lemma total_bits_concat fs :
  Forall field_ok fs ->
  zlen (concat (map (fun f => bits_msb (Z.to_nat (f_bits f)) (f_value f)) fs)) = total_bits fs
  /\ 0 <= total_bits fs.
Proof.
  induction 1 as [|f fs [Hf _] _ [IH Hp]]; [done|].
  cbn [map concat]. unfold total_bits in *. cbn [foldr]. zsimp. lia.
Qed.

(** Bit fields survive the wire: any sequence of [WriteBits], flushed, and
    read back by the same sequence of [ReadBits] gives the values written, each
    modulo the two to the number of bits of its field; the packet grows by the
    number of bits rounded up to whole bytes. *)
Theorem bit_fields_roundtrip (reader : Host) (fs : list field) (b : ByteBuffer) :
  Forall field_ok fs -> at_end b -> _bitpos b = 8 -> _curbitval b = 0 ->
  8 * size b + total_bits fs + 1 <= 80000000 ->
  exists b' b'',
    (write_fields fs;; FlushBits) b = Ok tt b' /\
    size b' = size b + (total_bits fs + 7) / 8 /\
    read_fields fs (b' <| _rpos := size b |>)
    = Ok (map (fun f => f_value f mod 2 ^ f_bits f) fs) b''.
Proof.
  intros Hfs Hend Hbit Hcur Hroom. destruct (total_bits_concat fs Hfs) as [Hlen Hnn].
  assert (Hwf : wr_wf b).
  { split_and!; try done; try lia. intros. rewrite Hcur. apply Z.bits_0. }
  assert (Hw0 : written b = bits_of (_storage b))
    by (unfold written; rewrite Hbit; cbn; by rewrite app_nil_r).
  destruct (write_fields_ok fs b) as (b1 & Hrun1 & Hwf1 & Hw1 & _); [done|done| |].
  { unfold wr_room. rewrite Hw0, zlen_bits_of. unfold size in *. lia. }
  destruct (FlushBits_ok b1) as (b2 & Hrun2 & Hend2 & Hbit2 & _ & Hw2); [done| |].
  { unfold wr_room. rewrite Hw1, Hw0, zlen_app, zlen_bits_of, Hlen. unfold size in *. lia. }
  pose proof Hwf1 as (_ & Hp1 & _).
  rewrite Hw1, Hw0, <- app_assoc in Hw2.
  assert (Hsz : 8 * size b2 = 8 * size b + total_bits fs + _bitpos b1 mod 8).
  { apply (f_equal zlen) in Hw2. rewrite !zlen_app, !zlen_bits_of, Hlen in Hw2.
    unfold size. unfold zlen in Hw2 at 3. rewrite length_replicate in Hw2.
    pose proof (Z.mod_pos_bound (_bitpos b1) 8). lia. }
  destruct (read_fields_ok fs (replicate (Z.to_nat (_bitpos b1 mod 8)) false)
              (b2 <| _rpos := size b |>)) as (b'' & Hrd & _);
    [done| | |].
  - unfold bit_rd_wf, size in *. cbn. pose proof (Z.mod_pos_bound (_bitpos b1) 8).
    zlen_pos. lia.
  - unfold unread. cbn. rewrite Hbit2, drop_ge by (rewrite length_bits_msb; lia). cbn [app].
    assert (Hlen0 : length (bits_of (_storage b)) = (8 * Z.to_nat (size b))%nat)
      by (rewrite length_bits_of; unfold size, zlen; lia).
    rewrite <- (take_drop (Z.to_nat (size b)) (_storage b2)), bits_of_app in Hw2.
    apply app_inj_1 in Hw2 as [_ ->]; [done|].
    rewrite Hlen0, length_bits_of, length_take. unfold size, zlen in *. 
    pose proof (Z.mod_pos_bound (_bitpos b1) 8). lia.
  - exists b2, b''. unfold mbind, M_bind. rewrite Hrun1. split; [done|].
    split; [|done]. pose proof (Z.mod_pos_bound (_bitpos b1) 8). divmod_lia.
Qed.

Lemma bit_fields_roundtrip_witness :
  let fs := [mkField 32 5 3; mkField 64 0x1FF 8; mkField 32 1 1; mkField 32 70000 22] in
  exists b' b'',
    (write_fields fs;; FlushBits) ByteBuffer_new = Ok tt b' /\ size b' = 5 /\
    read_fields (H := {| TRINITY_BIGENDIAN := true |}) fs
      (b' <| _rpos := 0 |>) = Ok [5; 255; 1; 70000] b''.
Proof.
  intros fs. apply (bit_fields_roundtrip {| TRINITY_BIGENDIAN := true |} fs ByteBuffer_new);
    [|done|done|done|done].
  repeat constructor; cbn; lia.
Defined.

(** [PutBits] back-patches exactly its bits: inside the written packet it
    succeeds, replaces the [n] bits from [pos] on by the [n] low bits of the
    value, most significant first, and leaves every other bit, the length and
    the cursors as they were. *)
Theorem PutBits_overwrites (w pos value n : Z) (b : ByteBuffer) :
  0 <= pos -> 1 <= n <= w -> pos + n <= 8 * size b -> size b < 2 ^ 60 ->
  exists st',
    PutBits w pos value n b = Ok tt (b <| _storage := st' |>) /\
    zlen st' = size b /\
    bits_of st' = ztake pos (bits_of (_storage b)) ++ bits_msb (Z.to_nat n) value
                  ++ zdrop (pos + n) (bits_of (_storage b)).
Proof.
  intros Hpos Hn Hroom Hsz.
  destruct (PutBits_loop_ok w pos value n (Z.to_nat n) 0 b) as (st' & Hrun & Hl & Hb); [lia..|].
  exists st'. rewrite Z2Nat.id, Z.add_0_r in * by lia. unfold PutBits. run. no_wrap. zbool.
  split; [done|]. split; [unfold size, zlen; lia|done].
Qed.

Lemma PutBits_overwrites_witness :
  let b := ByteBuffer_new <| _storage := [0xF0; 0x0F; 0xAA] |> in
  exists st',
    PutBits 32 6 0x2D 6 b = Ok tt (b <| _storage := st' |>) /\ zlen st' = 3 /\
    bits_of st' = ztake 6 (bits_of [0xF0; 0x0F; 0xAA]) ++ bits_msb 6 0x2D
                  ++ zdrop 12 (bits_of [0xF0; 0x0F; 0xAA]).
Proof. intros b. apply (PutBits_overwrites 32 6 0x2D 6 b); by vm_compute. Defined.

Example PutBits_bytes :
  let b := ByteBuffer_new <| _storage := [0xF0; 0x0F; 0xAA] |> in
  PutBits 32 6 0x2D 6 b = Ok tt (b <| _storage := [0xF2; 0xDF; 0xAA] |>).
Proof. reflexivity. Qed.
