(* ===== verification/Packet.v ===== *)
(** * Packets

    [src/src/server/game/Server/WorldPacket.h]: a buffer with an opcode.  The
    components that send packets are proved against [writes], the contract of
    a sequence of [operator<<] calls: it appends exactly its bytes. *)

From S2P Require Import Prelude Float32 ByteBuffer Wire.

(** ** WorldPacket *)

Record WorldPacket := mkWorldPacket { m_opcode : Z; buffer : ByteBuffer }.
#[export] Instance WorldPacket_settable : Settable WorldPacket :=
  fun p => mkWorldPacket (m_opcode p) (buffer p).

Definition UNKNOWN_OPCODE : Z := 0xFFFF + 1.

Abbreviation PK := (M WorldPacket ByteBufferException).

(** [WorldPacket()] and [WorldPacket(opcode, res)]; the reserve is not observable. *)
Definition WorldPacket_default : WorldPacket := mkWorldPacket UNKNOWN_OPCODE ByteBuffer_new.
Definition WorldPacket_new (opcode : Z) : WorldPacket := mkWorldPacket opcode ByteBuffer_new.
Definition WorldPacket_copy (packet : WorldPacket) : WorldPacket :=
  mkWorldPacket (m_opcode packet) (ByteBuffer_copy (buffer packet)).

(** A buffer operation on the packet. *)
Definition lift {A} (m : BB A) : PK A := fun p =>
  match m (buffer p) with
  | Ok a b => Ok a (mkWorldPacket (m_opcode p) b)
  | Throw e b => Throw e (mkWorldPacket (m_opcode p) b)
  | Abort r => Abort r
  end.

Definition Initialize (opcode newres : Z) : PK unit :=
  lift clear;;
  modify (fun p => p <| m_opcode := opcode |>).

Definition GetOpcode : PK Z := gets m_opcode.
Definition SetOpcode (opcode : Z) : PK unit := modify (fun p => p <| m_opcode := opcode |>).

(** ** The contract of writers *)

Definition writes (m : BB unit) (bs : list Z) : Prop :=
  forall b, at_end b -> _bitpos b = 8 -> size b + zlen bs <= 10000000 ->
            m b = Ok tt (appended bs b).

(** A packet made from scratch: what [m] makes of any packet without pending
    bits is the opcode and the bytes. *)
Definition packet_of (opcode : Z) (bs : list Z) : WorldPacket :=
  mkWorldPacket opcode (mkByteBuffer 0 (zlen bs) 8 0 bs).

Definition clean (p : WorldPacket) : Prop := _bitpos (buffer p) = 8 /\ _curbitval (buffer p) = 0.

Definition makes (m : PK unit) (opcode : Z) (bs : list Z) : Prop :=
  zlen bs <= 10000000 -> forall p, clean p -> m p = Ok tt (packet_of opcode bs).

Lemma clean_packet_of op bs : clean (packet_of op bs).
Proof. done. Qed.

Lemma clean_default : clean WorldPacket_default.
Proof. done. Qed.

#[export] Hint Resolve clean_packet_of clean_default : core.

Section Writers.
Context `{Host}.

Lemma writes_ret : writes (mret tt) [].
Proof. intros b _ _ _. by rewrite appended_nil. Qed.

Lemma writes_bind m1 m2 bs1 bs2 :
  writes m1 bs1 -> writes m2 bs2 -> writes (m1;; m2) (bs1 ++ bs2).
Proof.
  intros H1 H2 b Hend Hbit Hsz. zsimp. run. rewrite H1 by (done || lia).
  rewrite H2; [by rewrite appended_app|by apply at_end_appended|done|].
  rewrite size_appended. lia.
Qed.

Lemma writes_out t v : writes (out t v) (scalar_fmt t v).
Proof.
  intros b Hend Hbit Hsz. unfold scalar_fmt in *. rewrite zlen_le_bytes in Hsz.
  apply append_T_ok; try done; destruct t; cbn in *; lia.
Qed.

Lemma writes_out_string s : writes (out_string s) (string_fmt s).
Proof.
  intros b Hend Hbit Hsz. unfold string_fmt in *. zsimp. unfold out_string.
  destruct (decide (s = [])) as [->|Hne].
  - run. rewrite zlen_nil. zbool. run. rewrite append_T_ok by (done || lia). done.
  - pose proof (size_nonneg b).
    assert (0 < zlen s) by (destruct s; [done|]; zsimp; lia).
    run. zbool. cbn [negb]. rewrite append_raw_ok by (done || lia).
    rewrite append_T_ok; [by rewrite appended_app|by apply at_end_appended|done..|].
    rewrite size_appended. lia.
Qed.

Lemma writes_for_each {A} (l : list A) (f : A -> BB unit) (fmt : A -> list Z) :
  (forall x, x ∈ l -> writes (f x) (fmt x)) ->
  writes (for_each l f) (concat (map fmt l)).
Proof.
  induction l as [|x l IH]; intros Hl; cbn [for_each map concat]; [apply writes_ret|].
  apply writes_bind; [apply Hl; set_solver|]. apply IH. intros y Hy. apply Hl. set_solver.
Qed.

Lemma writes_if (c : bool) m1 m2 bs1 bs2 :
  writes m1 bs1 -> writes m2 bs2 ->
  writes (if c then m1 else m2) (if c then bs1 else bs2).
Proof. by destruct c. Qed.

Lemma makes_initialize op res m bs :
  writes m bs -> makes (Initialize op res;; lift m) op bs.
Proof.
  intros Hm Hsz p [Hb Hc]. unfold Initialize, clear, lift. run.
  rewrite Hm; [|done|done|done]. unfold packet_of, appended. cbn.
  by rewrite Hb, Hc.
Qed.

Lemma lift_bind {A B} (m1 : BB A) (m2 : A -> BB B) p :
  lift (m1 ≫= m2) p = (x ← lift m1; lift (m2 x)) p.
Proof. unfold lift. run. by destruct (m1 (buffer p)). Qed.

Lemma makes_more m op bs1 m2 bs2 :
  makes m op bs1 -> writes m2 bs2 -> makes (m;; lift m2) op (bs1 ++ bs2).
Proof.
  intros H1 H2 Hsz p Hp. rewrite zlen_app in Hsz. zlen_pos.
  run. rewrite H1 by (done || lia). unfold lift. cbn.
  rewrite H2; [|done|done|unfold size; cbn; lia]. unfold packet_of, appended. cbn. by rewrite zlen_app.
Qed.

(** Overwriting an integer in the middle of what was written. *)
Lemma put_T_ok n v pre old post b :
  _storage b = pre ++ old ++ post -> zlen old = Z.of_nat n -> size b < 2 ^ 63 ->
  put_T n (zlen pre) v b = Ok tt (b <| _storage := pre ++ le_bytes n v ++ post |>).
Proof.
  destruct b as [r w bp cv st]. cbn [_storage]. intros -> Hold Hsz.
  unfold size in Hsz. cbn [_storage] in Hsz.
  unfold put_T. rewrite EndianConvert_object. unfold put_raw, memcpy_at. run. unfold size. cbn.
  rewrite !zlen_app, Hold, zlen_le_bytes in *. zlen_pos. no_wrap. zbool.
  replace (ztake (Z.of_nat n) (le_bytes n v)) with (le_bytes n v)
    by (rewrite <- (zlen_le_bytes n v) at 1; by rewrite ztake_all).
  rewrite zlen_le_bytes. cbn. rewrite !zlen_app, Hold. zbool. do 2 f_equal. rewrite ztake_app, (app_assoc pre old).
  replace (zlen pre + Z.of_nat n) with (zlen (pre ++ old)) by (rewrite zlen_app; lia).
  by rewrite zdrop_app.
Qed.

(** A packet whose count field is filled in at the end. *)
Lemma writes_patched m1 m2 pre post (v0 v : Z) :
  writes m1 pre -> writes m2 post -> zlen pre + 4 + zlen post <= 10000000 ->
  (m1;; p ← get_wpos; out TU32 v0;; m2;; put_T 4 p v) ByteBuffer_new
  = Ok tt (buffer (packet_of 0 (pre ++ le_bytes 4 v ++ post))).
Proof.
  intros H1 H2 Hlen. zlen_pos. unfold mbind, M_bind, get_wpos, gets.
  assert (Hnew : size ByteBuffer_new = 0) by done.
  rewrite H1 by (done || lia).
  set (b1 := appended pre ByteBuffer_new).
  assert (Hb1 : at_end b1 /\ _bitpos b1 = 8 /\ size b1 = zlen pre)
    by (unfold b1; split; [by apply at_end_appended|split; [done|rewrite size_appended; lia]]).
  destruct Hb1 as (He1 & Hp1 & Hs1).
  rewrite writes_out by (done || (rewrite Hs1; unfold scalar_fmt; rewrite zlen_le_bytes; cbn; lia)).
  rewrite H2; [|by apply at_end_appended|done|].
  2: { rewrite size_appended, Hs1. unfold scalar_fmt. rewrite zlen_le_bytes. cbn. lia. }
  replace (_wpos b1) with (zlen pre) by (unfold b1; cbn; lia).
  erewrite (put_T_ok 4 v pre (scalar_fmt TU32 v0) post).
  - unfold packet_of, appended, b1, scalar_fmt. cbn [buffer]. cbn. f_equal. f_equal.
    unfold zlen. rewrite !length_app. cbn [length]. lia.
  - unfold appended, b1. cbn. by rewrite <- app_assoc.
  - by apply zlen_le_bytes.
  - rewrite !size_appended, Hs1. unfold scalar_fmt. rewrite zlen_le_bytes. cbn. lia.
Qed.
End Writers.

#[export] Hint Resolve writes_ret writes_bind writes_out writes_out_string writes_if : writes.
