(* ===== verification/Maps.v ===== *)
(** * Ordered maps

    [std::map] with integer keys: a finite map whose iteration visits the keys
    in increasing order, and counting of the entries with a property. *)

From stdpp Require Import sorting.
From S2P Require Import Prelude.

(** The keys in iteration order. *)
Definition keys {A} (m : gmap Z A) : list Z := merge_sort Z.le (map fst (map_to_list m)).

(** [begin()]: the entry with the least key. *)
Definition first_entry {A} (m : gmap Z A) : option (Z * A) :=
  match keys m with
  | [] => None
  | k :: _ => (fun v => (k, v)) <$> m !! k
  end.

(** The number of entries with a property. *)
Definition count_if {A} (P : Z -> A -> bool) (m : gmap Z A) : Z :=
  zlen (filter (fun kv => P kv.1 kv.2 = true) (map_to_list m)).

Section Maps.
Context {A : Type}.
Implicit Types (m : gmap Z A) (k : Z) (x y : A).

Lemma keys_perm m : keys m ≡ₚ map fst (map_to_list m).
Proof. apply merge_sort_Permutation. Qed.

Lemma elem_of_keys m k : k ∈ keys m <-> is_Some (m !! k).
Proof.
  rewrite keys_perm. rewrite list_elem_of_fmap. split.
  - intros ([k' x] & -> & Hx%elem_of_map_to_list). eauto.
  - intros [x Hx]. exists (k, x). by rewrite elem_of_map_to_list.
Qed.

Lemma length_keys m : length (keys m) = base.size m.
Proof. rewrite keys_perm, length_map. apply length_map_to_list. Qed.

Lemma NoDup_keys m : NoDup (keys m).
Proof. rewrite keys_perm. apply NoDup_fst_map_to_list. Qed.

Lemma keys_sorted m : StronglySorted Z.le (keys m).
Proof. apply Sorted_StronglySorted; [apply _|]. apply Sorted_merge_sort, _. Qed.

(** The iteration order, by its properties alone. *)
Lemma keys_unique m l :
  StronglySorted Z.le l -> NoDup l -> (forall k, k ∈ l <-> is_Some (m !! k)) -> keys m = l.
Proof.
  intros Hs Hn Hl.
  apply (StronglySorted_unique Z.le); [by apply keys_sorted|done|].
  apply NoDup_Permutation; [apply NoDup_keys|done|].
  intros k. by rewrite elem_of_keys, Hl.
Qed.

(** Writing an existing entry does not change the order. *)
Lemma keys_insert m k x : is_Some (m !! k) -> keys (<[k := x]> m) = keys m.
Proof.
  intros Hk. apply keys_unique; [apply keys_sorted|apply NoDup_keys|].
  intros j. rewrite elem_of_keys. destruct (decide (j = k)) as [->|].
  - rewrite lookup_insert_eq. split; eauto.
  - by rewrite lookup_insert_ne.
Qed.

Lemma first_entry_Some m k x :
  first_entry m = Some (k, x) ->
  m !! k = Some x /\ forall j, is_Some (m !! j) -> k <= j.
Proof.
  unfold first_entry. pose proof (keys_sorted m) as Hs. pose proof (elem_of_keys m) as Hk.
  destruct (keys m) as [|k' l]; [done|]. intros Hf.
  destruct (m !! k') as [x'|] eqn:Hl; [|done]. injection Hf as -> ->.
  split; [done|]. intros j Hj%Hk. apply elem_of_cons in Hj as [->|Hj]; [done|].
  apply StronglySorted_inv in Hs as [_ Hall]. rewrite Forall_forall in Hall. by apply Hall.
Qed.

Lemma first_entry_None m : first_entry m = None <-> m = ∅.
Proof.
  unfold first_entry. pose proof (elem_of_keys m) as Hk. split.
  - destruct (keys m) as [|k l].
    + intros _. apply map_empty. intros k. destruct (m !! k) eqn:Hl; [|done].
      assert (k ∈ @nil Z) by (apply Hk; eauto). by apply not_elem_of_nil in H.
    + destruct (proj1 (Hk k)) as [x ->]; [set_solver|done].
  - intros ->. destruct (keys (∅ : gmap Z A)) as [|k l] eqn:He; [done|].
    destruct (proj1 (elem_of_keys ∅ k)) as [x Hx]; [rewrite He; set_solver|].
    by rewrite lookup_empty in Hx.
Qed.

Lemma count_if_nonneg P m : 0 <= count_if P m.
Proof. apply zlen_nonneg. Qed.

Lemma count_if_empty P : count_if P (∅ : gmap Z A) = 0.
Proof. unfold count_if. by rewrite map_to_list_empty. Qed.

Lemma count_if_insert_new P m k x :
  m !! k = None -> count_if P (<[k := x]> m) = count_if P m + Z.b2z (P k x).
Proof.
  intros Hk. unfold count_if, zlen. rewrite map_to_list_insert by done.
  rewrite filter_cons. cbn [fst snd].
  destruct (P k x); [rewrite decide_True by done|rewrite decide_False by done];
    cbn [length Z.b2z]; lia.
Qed.

Lemma count_if_insert P m k x y :
  m !! k = Some x ->
  count_if P (<[k := y]> m) = count_if P m - Z.b2z (P k x) + Z.b2z (P k y).
Proof.
  intros Hk.
  assert (Hd : delete k m !! k = None) by apply lookup_delete_eq.
  rewrite <- (insert_delete_id m k x) at 2 by done.
  rewrite <- (insert_delete_eq m k y).
  rewrite !count_if_insert_new by done. lia.
Qed.

Lemma count_if_ext P Q m : (forall k x, P k x = Q k x) -> count_if P m = count_if Q m.
Proof.
  intros HPQ. unfold count_if. f_equal. apply list_filter_iff. intros [k x]. cbn. by rewrite HPQ.
Qed.

(** A map with keys in a range has no more entries than the range. *)
Lemma keys_length m n :
  (forall k x, m !! k = Some x -> 0 <= k < n) -> 0 <= n -> zlen (keys m) <= n.
Proof.
  intros Hr Hn. assert (Hle : (length (keys m) <= length (seqZ 0 n))%nat).
  { apply submseteq_length, NoDup_submseteq; [apply NoDup_keys|].
    intros k [x Hx]%elem_of_keys. apply elem_of_seqZ. apply Hr in Hx. lia. }
  rewrite length_seqZ in Hle. unfold zlen. lia.
Qed.
End Maps.

Lemma count_if_fmap {A B} (P : Z -> B -> bool) (g : A -> B) (m : gmap Z A) :
  count_if P (g <$> m) = count_if (fun k x => P k (g x)) m.
Proof.
  unfold count_if, zlen. rewrite map_to_list_fmap. f_equal.
  induction (map_to_list m) as [|[k x] l IH]; [done|].
  cbn [fmap list_fmap]. rewrite !filter_cons. cbn.
  destruct (decide (P k (g x) = true)); cbn; lia.
Qed.

Lemma alter_Some {A} (F : A -> A) (g : Z) (m : gmap Z A) x : m !! g = Some x -> alter F g m = <[g := F x]> m.
Proof.
  intros Hx. apply map_eq. intros j. destruct (decide (j = g)) as [->|].
  - by rewrite lookup_alter_eq, Hx, lookup_insert_eq.
  - by rewrite lookup_alter_ne, lookup_insert_ne.
Qed.

Lemma keys_fmap {A B} (g : A -> B) (m : gmap Z A) : keys (g <$> m) = keys m.
Proof.
  apply keys_unique; [apply keys_sorted|apply NoDup_keys|].
  intros k. rewrite elem_of_keys, lookup_fmap. destruct (m !! k); cbn; split; intros [? ?]; eauto; done.
Qed.
