(* ===== verification/Guid.v ===== *)
(** * Identifiers of objects

    [src/src/server/game/Entities/Object/ObjectDefines.h]: an object's GUID is 64
    bits: a kind on top, an entry for the kinds that have one, and a counter. *)

From S2P Require Import Prelude.

(** ** Kinds *)

Definition HIGHGUID_ITEM : Z := 0x400.
Definition HIGHGUID_CONTAINER : Z := 0x400.
Definition HIGHGUID_PLAYER : Z := 0x000.
Definition HIGHGUID_GAMEOBJECT : Z := 0xF11.
Definition HIGHGUID_TRANSPORT : Z := 0xF12.
Definition HIGHGUID_UNIT : Z := 0xF13.
Definition HIGHGUID_PET : Z := 0xF14.
Definition HIGHGUID_VEHICLE : Z := 0xF15.
Definition HIGHGUID_DYNAMICOBJECT : Z := 0xF10.
Definition HIGHGUID_CORPSE : Z := 0xF101.
Definition HIGHGUID_AREATRIGGER : Z := 0xF102.
Definition HIGHGUID_BATTLEGROUND : Z := 0x1F1.
Definition HIGHGUID_MO_TRANSPORT : Z := 0x1FC.
Definition HIGHGUID_GROUP : Z := 0x1F5.
Definition HIGHGUID_GUILD : Z := 0x1FF.

Create HintDb guids discriminated.
#[export] Hint Unfold HIGHGUID_ITEM HIGHGUID_CONTAINER HIGHGUID_PLAYER HIGHGUID_GAMEOBJECT HIGHGUID_TRANSPORT
  HIGHGUID_UNIT HIGHGUID_PET HIGHGUID_VEHICLE HIGHGUID_DYNAMICOBJECT HIGHGUID_CORPSE HIGHGUID_AREATRIGGER
  HIGHGUID_BATTLEGROUND HIGHGUID_MO_TRANSPORT HIGHGUID_GROUP HIGHGUID_GUILD : guids.

(** ** Pairs *)

Definition MAKE_PAIR64 (l h : Z) : Z := u64 (Z.lor l (u64 (Z.shiftl h 32))).
Definition PAIR64_HIPART (x : Z) : Z := u32 (Z.land (Z.shiftr x 32) 0xFFFFFFFF).
Definition PAIR64_LOPART (x : Z) : Z := u32 (Z.land x 0xFFFFFFFF).
Definition MAKE_PAIR32 (l h : Z) : Z := u32 (Z.lor l (u32 (Z.shiftl h 16))).
Definition PAIR32_HIPART (x : Z) : Z := u16 (Z.land (Z.shiftr x 16) 0xFFFF).
Definition PAIR32_LOPART (x : Z) : Z := u16 (Z.land x 0xFFFF).
Definition MAKE_PAIR16 (l h : Z) : Z := u16 (Z.lor l (Z.shiftl h 8)).

(** ** GUIDs *)

Definition MAKE_NEW_GUID (l e h : Z) : Z :=
  u64 (Z.lor (Z.lor l (u64 (Z.shiftl e 32)))
    (u64 (Z.shiftl h (if (h =? HIGHGUID_CORPSE) || (h =? HIGHGUID_AREATRIGGER) then 48 else 52)))).

Definition GUID_HIPART (guid : Z) : Z :=
  let t := Z.land (Z.shiftr guid 48) 0xFFFF in
  if (t =? HIGHGUID_CORPSE) || (t =? HIGHGUID_AREATRIGGER) then t
  else Z.land (Z.shiftr t 4) 0xFFF.

Definition IsGuidHaveEnPart (guid : Z) : bool :=
  negb (bool_decide (GUID_HIPART guid ∈
    [HIGHGUID_ITEM; HIGHGUID_PLAYER; HIGHGUID_DYNAMICOBJECT; HIGHGUID_CORPSE; HIGHGUID_GROUP;
     HIGHGUID_GUILD])).

Definition GUID_ENPART (x : Z) : Z :=
  if IsGuidHaveEnPart x then u32 (Z.land (Z.shiftr x 32) 0xFFFFF) else 0.

Definition GUID_LOPART (x : Z) : Z := PAIR64_LOPART x.

Definition IS_EMPTY_GUID (guid : Z) : bool := guid =? 0.
Definition IS_CREATURE_GUID (guid : Z) : bool := GUID_HIPART guid =? HIGHGUID_UNIT.
Definition IS_PET_GUID (guid : Z) : bool := GUID_HIPART guid =? HIGHGUID_PET.
Definition IS_VEHICLE_GUID (guid : Z) : bool := GUID_HIPART guid =? HIGHGUID_VEHICLE.
Definition IS_CRE_OR_VEH_GUID (guid : Z) : bool := IS_CREATURE_GUID guid || IS_VEHICLE_GUID guid.
Definition IS_CRE_OR_VEH_OR_PET_GUID (guid : Z) : bool := IS_CRE_OR_VEH_GUID guid || IS_PET_GUID guid.
Definition IS_PLAYER_GUID (guid : Z) : bool := negb (guid =? 0) && (GUID_HIPART guid =? HIGHGUID_PLAYER).
Definition IS_GUILD_GUID (guid : Z) : bool := GUID_HIPART guid =? HIGHGUID_GUILD.
Definition IS_UNIT_GUID (guid : Z) : bool := IS_CRE_OR_VEH_OR_PET_GUID guid || IS_PLAYER_GUID guid.
Definition IS_ITEM_GUID (guid : Z) : bool := GUID_HIPART guid =? HIGHGUID_ITEM.
Definition IS_GAMEOBJECT_GUID (guid : Z) : bool := GUID_HIPART guid =? HIGHGUID_GAMEOBJECT.
Definition IS_DYNAMICOBJECT_GUID (guid : Z) : bool := GUID_HIPART guid =? HIGHGUID_DYNAMICOBJECT.
Definition IS_CORPSE_GUID (guid : Z) : bool := GUID_HIPART guid =? HIGHGUID_CORPSE.
Definition IS_TRANSPORT_GUID (guid : Z) : bool := GUID_HIPART guid =? HIGHGUID_TRANSPORT.
Definition IS_MO_TRANSPORT_GUID (guid : Z) : bool := GUID_HIPART guid =? HIGHGUID_MO_TRANSPORT.
Definition IS_GROUP_GUID (guid : Z) : bool := GUID_HIPART guid =? HIGHGUID_GROUP.
Definition IS_AREATRIGGER_GUID (guid : Z) : bool := GUID_HIPART guid =? HIGHGUID_AREATRIGGER.

(** ** The parts of a GUID *)

(** The kinds there are. *)
Definition high_guids : list Z :=
  [HIGHGUID_ITEM; HIGHGUID_PLAYER; HIGHGUID_GAMEOBJECT; HIGHGUID_TRANSPORT; HIGHGUID_UNIT; HIGHGUID_PET;
   HIGHGUID_VEHICLE; HIGHGUID_DYNAMICOBJECT; HIGHGUID_CORPSE; HIGHGUID_AREATRIGGER;
   HIGHGUID_BATTLEGROUND; HIGHGUID_MO_TRANSPORT; HIGHGUID_GROUP; HIGHGUID_GUILD].

(** The kinds of sixteen bits. *)
Definition wide (h : Z) : bool := (h =? HIGHGUID_CORPSE) || (h =? HIGHGUID_AREATRIGGER).

(** The entry of a kind that has one; that of an area trigger overlaps its kind. *)
Definition entry_of (h e : Z) : Z :=
  if h =? HIGHGUID_AREATRIGGER then e + 0x20000
  else if bool_decide (h ∈ [HIGHGUID_ITEM; HIGHGUID_PLAYER; HIGHGUID_DYNAMICOBJECT; HIGHGUID_CORPSE;
                            HIGHGUID_GROUP; HIGHGUID_GUILD])
  then 0 else e.

(** Where the kind starts. *)
Definition high_shift (h : Z) : Z := if wide h then 48 else 52.

Lemma high_fits h : h ∈ high_guids -> 0 <= h < 2 ^ (64 - high_shift h).
Proof.
  intros Hh. assert (Hall : forallb (fun h => (0 <=? h) && (h <? 2 ^ (64 - high_shift h))) high_guids = true)
    by by vm_compute.
  rewrite forallb_forall in Hall. specialize (Hall h). rewrite <- list_elem_of_In in Hall.
  specialize (Hall Hh). lia.
Qed.

Lemma make_guid l e h :
  in_width 32 l -> 0 <= e -> e * 2 ^ 32 + 2 ^ 32 <= 2 ^ high_shift h -> h ∈ high_guids ->
  MAKE_NEW_GUID l e h = l + e * 2 ^ 32 + h * 2 ^ high_shift h /\ in_width 64 (MAKE_NEW_GUID l e h).
Proof.
  intros Hl He Hle Hh. split; [|by apply wrap_range].
  apply high_fits in Hh. unfold MAKE_NEW_GUID. fold (wide h) (high_shift h).
  assert (Hs : 48 <= high_shift h <= 52) by (unfold high_shift; by destruct (wide h)).
  assert (Hp : h * 2 ^ high_shift h + 2 ^ high_shift h <= 2 ^ 64).
  { replace 64 with ((64 - high_shift h) + high_shift h) by lia. rewrite Z.pow_add_r by lia. nia. }
  assert (Hh64 : 2 ^ high_shift h <= 2 ^ 52) by (apply Z.pow_le_mono_r; lia).
  unfold in_width in Hl.
  rewrite (wrap_small 64 (Z.shiftl e 32)) by (rewrite Z.shiftl_mul_pow2 by lia; unfold in_width; lia).
  rewrite lor_shiftl_add by lia.
  rewrite (wrap_small 64 (Z.shiftl h _)) by (rewrite Z.shiftl_mul_pow2 by lia; unfold in_width; nia).
  rewrite lor_shiftl_add by lia. apply wrap_small. unfold in_width. nia.
Qed.

(** The entries a kind has room for.  The kind of dynamic objects is a prefix of
    that of corpses, so its entries may not reach the bits between. *)
Definition entry_fits (h e : Z) : Prop :=
  0 <= e < (if wide h || (h =? HIGHGUID_DYNAMICOBJECT) then 2 ^ 16 else 2 ^ 20).

Lemma land_ones_mod x n : 0 <= n -> Z.land x (Z.ones n) = x mod 2 ^ n.
Proof. apply Z.land_ones. Qed.

(** The sixteen bits on top. *)
Lemma top_bits l e h :
  in_width 32 l -> entry_fits h e -> h ∈ high_guids ->
  Z.land (Z.shiftr (MAKE_NEW_GUID l e h) 48) 0xFFFF = if wide h then h else h * 16 + e / 2 ^ 16.
Proof.
  intros Hl He Hh. unfold entry_fits in He.
  destruct (make_guid l e h Hl) as [-> _]; [destruct (_ || _); lia| |done|].
  { unfold high_shift. destruct (wide h); cbn [orb] in He; [lia|]. destruct (_ =? _); lia. }
  change 0xFFFF with (Z.ones 16). rewrite Z.land_ones, Z.shiftr_div_pow2 by lia.
  apply high_fits in Hh. unfold in_width in Hl. unfold high_shift in *.
  destruct (wide h); cbn [orb] in He.
  - replace (l + e * 2 ^ 32 + h * 2 ^ 48) with (h * 2 ^ 48 + (l + e * 2 ^ 32)) by lia.
    rewrite Z.div_add_l, Z.div_small, Z.add_0_r, Z.mod_small by lia. done.
  - assert (e < 2 ^ 20) by (destruct (_ =? _); lia).
    replace (l + e * 2 ^ 32 + h * 2 ^ 52) with (h * 16 * 2 ^ 48 + (l + e * 2 ^ 32)) by lia.
    rewrite Z.div_add_l by lia.
    assert (Hq : (l + e * 2 ^ 32) / 2 ^ 48 = e / 2 ^ 16).
    { change (2 ^ 48) with (2 ^ 32 * 2 ^ 16). rewrite <- Z.div_div by lia.
      rewrite Z.div_add, (Z.div_small l) by lia. by rewrite Z.add_0_l. }
    rewrite Hq. apply Z.mod_small.
    assert (0 <= e / 2 ^ 16 < 16) by (split; [apply Z.div_pos; lia|apply Z.div_lt_upper_bound; lia]). lia.
Qed.

Lemma hipart l e h :
  in_width 32 l -> entry_fits h e -> h ∈ high_guids -> GUID_HIPART (MAKE_NEW_GUID l e h) = h.
Proof.
  intros Hl He Hh. unfold GUID_HIPART. rewrite (top_bits l e h Hl He Hh).
  unfold entry_fits in He.
  assert (Hq : 0 <= e / 2 ^ 16 < (if h =? HIGHGUID_DYNAMICOBJECT then 1 else 16)).
  { destruct (wide h); cbn [orb] in He; [|destruct (h =? _)]; (split; [apply Z.div_pos; lia|apply Z.div_lt_upper_bound; lia])
      || (destruct (h =? _); split; [apply Z.div_pos; lia|apply Z.div_lt_upper_bound; lia|apply Z.div_pos; lia|apply Z.div_lt_upper_bound; lia]). }
  revert Hq. generalize (e / 2 ^ 16). intros q Hq. clear He.
  unfold high_guids in Hh. rewrite !elem_of_cons, elem_of_nil in Hh.
  assert (Hsmall : forall k, wide k = false -> 0 <= k < 0x1000 ->
    k * 16 + q <> HIGHGUID_CORPSE -> k * 16 + q <> HIGHGUID_AREATRIGGER -> 0 <= q < 16 ->
    (if (k * 16 + q =? HIGHGUID_CORPSE) || (k * 16 + q =? HIGHGUID_AREATRIGGER) then k * 16 + q
     else Z.land (Z.shiftr (k * 16 + q) 4) 0xFFF) = k).
  { intros k _ Hk H1 H2 Hq'. rewrite (proj2 (Z.eqb_neq _ _) H1), (proj2 (Z.eqb_neq _ _) H2). cbn [orb].
    change 0xFFF with (Z.ones 12). rewrite Z.land_ones, Z.shiftr_div_pow2 by lia.
    change (2 ^ 4) with 16. rewrite Z.div_add_l, (Z.div_small q) by lia. rewrite Z.add_0_r, Z.mod_small; lia. }
  assert (Hcase : wide h = true \/ (wide h = false /\ 0 <= h < 0x1000 /\
    h * 16 + q <> HIGHGUID_CORPSE /\ h * 16 + q <> HIGHGUID_AREATRIGGER /\ 0 <= q < 16)).
  { repeat destruct Hh as [->|Hh]; try done;
      match type of Hq with context [if ?b then _ else _] =>
        let v := eval vm_compute in b in change b with v in Hq; cbn iota in Hq end;
      (left; by vm_compute) || (right; split; [by vm_compute|]; repeat split;
        match goal with
        | |- _ <> ?c => let v := eval vm_compute in c in change c with v
        | _ => idtac
        end; autounfold with guids; lia). }
  destruct Hcase as [Hw|(Hw & ? & ? & ? & ?)]; rewrite Hw.
  - unfold wide in Hw. by rewrite Hw.
  - by apply Hsmall.
Qed.

Lemma enpart_bits l e h :
  in_width 32 l -> entry_fits h e -> h ∈ high_guids ->
  u32 (Z.land (Z.shiftr (MAKE_NEW_GUID l e h) 32) 0xFFFFF)
  = if wide h then (e + h * 2 ^ 16) mod 2 ^ 20 else e.
Proof.
  intros Hl He Hh. unfold entry_fits in He.
  destruct (make_guid l e h Hl) as [-> _]; [destruct (_ || _); lia| |done|].
  { unfold high_shift. destruct (wide h); cbn [orb] in He; [lia|]. destruct (_ =? _); lia. }
  change 0xFFFFF with (Z.ones 20). rewrite Z.land_ones, Z.shiftr_div_pow2 by lia.
  assert (Hlow : forall x, (l + x * 2 ^ 32) / 2 ^ 32 = x).
  { intros x. unfold in_width in Hl. rewrite Z.div_add, (Z.div_small l) by lia. lia. }
  rewrite wrap_small by (unfold in_width; pose proof (Z.mod_pos_bound ((l + e * 2 ^ 32 + h * 2 ^ high_shift h) / 2 ^ 32) (2 ^ 20)); lia).
  unfold high_shift. destruct (wide h); cbn [orb] in He.
  - replace (l + e * 2 ^ 32 + h * 2 ^ 48) with (l + (e + h * 2 ^ 16) * 2 ^ 32) by lia. by rewrite Hlow.
  - replace (l + e * 2 ^ 32 + h * 2 ^ 52) with (l + (e + h * 2 ^ 20) * 2 ^ 32) by lia. rewrite Hlow.
    assert (e < 2 ^ 20) by (destruct (_ =? _); lia). rewrite Z.mod_add, Z.mod_small; lia.
Qed.

(** C33.  The parts of a GUID.  For a counter and an entry the kind has room for,
    [GUID_HIPART], [GUID_LOPART] and [GUID_ENPART] give back what
    [MAKE_NEW_GUID] was given, the entry only for the kinds that have one; but
    the kind of an area trigger reaches into the bits of its entry, which
    comes back with [0x20000] added. *)
Theorem guid_roundtrip (l e h : Z) :
  in_width 32 l -> entry_fits h e -> h ∈ high_guids ->
  in_width 64 (MAKE_NEW_GUID l e h) /\ GUID_HIPART (MAKE_NEW_GUID l e h) = h /\
  GUID_LOPART (MAKE_NEW_GUID l e h) = l /\ GUID_ENPART (MAKE_NEW_GUID l e h) = entry_of h e.
Proof.
  intros Hl He Hh. assert (Hw : in_width 64 (MAKE_NEW_GUID l e h)) by by apply wrap_range.
  split; [done|]. split; [by apply hipart|]. split.
  - unfold GUID_LOPART, PAIR64_LOPART. unfold entry_fits in He.
    destruct (make_guid l e h Hl) as [-> _]; [destruct (_ || _); lia| |done|].
    { unfold high_shift. destruct (wide h); cbn [orb] in He; [lia|]. destruct (_ =? _); lia. }
    change 0xFFFFFFFF with (Z.ones 32). rewrite Z.land_ones by lia. fold (wrap 32 (l + e * 2 ^ 32 + h * 2 ^ high_shift h)).
    rewrite wrap_wrap by lia. unfold wrap. rewrite <- (Z.mod_small l (2 ^ 32)) at 2 by done.
    assert (Hd : exists k, h * 2 ^ high_shift h = k * 2 ^ 32).
    { unfold high_shift. destruct (wide h); [exists (h * 2 ^ 16)|exists (h * 2 ^ 20)]; lia. }
    destruct Hd as [k ->]. by rewrite !Z.mod_add by lia.
  - unfold GUID_ENPART, IsGuidHaveEnPart, entry_of. rewrite hipart, enpart_bits by done.
    unfold entry_fits in He. unfold high_guids in Hh. rewrite !elem_of_cons, elem_of_nil in Hh.
    repeat destruct Hh as [->|Hh]; try done.
    change (0 <= e < 2 ^ 16) in He. change (negb _) with true. cbn iota.
    change (wide HIGHGUID_AREATRIGGER) with true. change (HIGHGUID_AREATRIGGER =? HIGHGUID_AREATRIGGER) with true. cbn iota.
    replace (e + HIGHGUID_AREATRIGGER * 2 ^ 16) with (e + 0x20000 + 0xF10 * 2 ^ 20)
      by (autounfold with guids; lia).
    rewrite Z.mod_add, Z.mod_small; lia.
Qed.

Lemma guid_roundtrip_witness :
  entry_fits HIGHGUID_UNIT 46499 /\
  GUID_HIPART (MAKE_NEW_GUID 77 46499 HIGHGUID_UNIT) = HIGHGUID_UNIT /\
  GUID_LOPART (MAKE_NEW_GUID 77 46499 HIGHGUID_UNIT) = 77 /\
  GUID_ENPART (MAKE_NEW_GUID 77 46499 HIGHGUID_UNIT) = 46499.
Proof.
  assert (He : entry_fits HIGHGUID_UNIT 46499) by by vm_compute.
  split; [done|]. destruct (guid_roundtrip 77 46499 HIGHGUID_UNIT) as (_ & H1 & H2 & H3).
  - by vm_compute.
  - exact He.
  - apply (bool_decide_unpack _). by vm_compute.
  - exact (conj H1 (conj H2 H3)).
Defined.

(** An area trigger's entry, and a dynamic object that is taken for a corpse. *)
Example area_trigger_entry : GUID_ENPART (MAKE_NEW_GUID 5 3 HIGHGUID_AREATRIGGER) = 0x20003.
Proof. reflexivity. Qed.

Example dynamic_object_as_corpse : IS_CORPSE_GUID (MAKE_NEW_GUID 5 0x10000 HIGHGUID_DYNAMICOBJECT) = true.
Proof. reflexivity. Qed.
