(* ===== verification/Text.v ===== *)
(** * Text utilities

    The string functions of [src/src/server/shared/Utilities/Util.cpp]: the
    tokenizer, chat line cleaning, times and amounts of money as text, hex
    dumps.  A [std::string] is the list of its bytes. *)

From Stdlib Require Import Ascii String.
From S2P Require Import Prelude.

(** The bytes of a string literal. *)
Definition chars (s : string) : list Z :=
  map (fun c => Z.of_N (N_of_ascii c)) (list_ascii_of_string s).

#[global] Arguments chars !s%_string_scope.

(** ** The standard library's numbers as text *)

Definition isdigit (c : Z) : bool := (48 <=? c) && (c <=? 57).
Definition isspace (c : Z) : bool := (c =? 32) || ((9 <=? c) && (c <=? 13)).

(** [ostream << n] for an unsigned [n]. *)
Fixpoint dec_loop (fuel : nat) (n : Z) (acc : list Z) : list Z :=
  match fuel with
  | O => acc
  | S fuel' =>
      let acc' := 48 + n mod 10 :: acc in
      if n <? 10 then acc' else dec_loop fuel' (n / 10) acc'
  end.

Definition dec (n : Z) : list Z := dec_loop (S (Z.to_nat (Z.log2 n))) n [].

(** [long]: 64 bits, or 32 on Windows and 32-bit hosts. *)
Class Platform := { long_bits : Z; long_bits_ok : 32 <= long_bits }.

Fixpoint atol_digits (s : list Z) (v : Z) : Z :=
  match s with
  | c :: s' => if isdigit c then atol_digits s' (10 * v + (c - 48)) else v
  | [] => v
  end.

Fixpoint skip_spaces (s : list Z) : list Z :=
  match s with
  | c :: s' => if isspace c then skip_spaces s' else s
  | [] => []
  end.

(** [atol], saturating as [strtol] does. *)
Definition atol `{Platform} (s : list Z) : Z :=
  let v := match skip_spaces s with
           | [] => 0
           | c :: s' => if c =? 45 then - atol_digits s' 0
                        else if c =? 43 then atol_digits s' 0
                        else atol_digits (c :: s') 0
           end in
  Z.max (- 2 ^ (long_bits - 1)) (Z.min v (2 ^ (long_bits - 1) - 1)).

(** ** Tokenizer

    The buffer is the string with its final NUL; a token runs from [posold] to
    the separator that the loop overwrote with NUL, so it is [cur], the bytes
    between [posold] and [posnew].  With NUL as separator the loop runs off
    the buffer. *)

Fixpoint Tokenizer_loop {E} (sep : Z) (buffer cur : list Z) (m_storage : list (list Z))
  : M unit E (list (list Z)) :=
  match buffer with
  | [] => abort UndefinedBehaviour
  | c :: buffer' =>
      if c =? sep then Tokenizer_loop sep buffer' [] (m_storage ++ [cur])
      else if c =? 0 then
        mret (match cur with [] => m_storage | _ => m_storage ++ [cur] end)
      else Tokenizer_loop sep buffer' (cur ++ [c]) m_storage
  end.

Definition Tokenizer {E} (src : list Z) (sep : Z) : M unit E (list (list Z)) :=
  Tokenizer_loop sep (src ++ [0]) [] [].

(** ** stripLineInvisibleChars *)

Definition invChars : list Z := [32; 9; 7; 10].
Definition is_inv (c : Z) : bool := bool_decide (c ∈ invChars).

(** [str.find(pat) != npos] *)
Fixpoint is_prefix (pat s : list Z) : bool :=
  match pat, s with
  | [], _ => true
  | x :: pat', y :: s' => (x =? y) && is_prefix pat' s'
  | _, [] => false
  end.

Fixpoint contains (pat s : list Z) : bool :=
  is_prefix pat s || match s with [] => false | _ :: s' => contains pat s' end.

(** One iteration: the string, the write position, whether a space was written. *)
Definition strip_step (st : list Z * Z * bool) (pos : Z) : list Z * Z * bool :=
  let '(str, wpos, space) := st in
  match str !! Z.to_nat pos with
  | None => st
  | Some c =>
      if is_inv c then
        if negb space then (<[Z.to_nat wpos := 32]> str, wpos + 1, true) else st
      else if negb (wpos =? pos) then (<[Z.to_nat wpos := c]> str, wpos + 1, false)
      else (str, wpos + 1, false)
  end.

Definition stripLineInvisibleChars (str : list Z) : list Z :=
  let '(str', wpos, _) := fold_left strip_step (seqZ 0 (zlen str)) (str, 0, false) in
  let str'' := if wpos <? zlen str' then ztake wpos str' else str' in
  if contains (chars "|TInterface") str'' then [] else str''.

(** ** Times *)

Definition MINUTE : Z := 60.
Definition HOUR : Z := MINUTE * 60.
Definition DAY : Z := HOUR * 24.

Definition secsToTimeString (timeInSecs : Z) (shortText hoursOnly : bool) : list Z :=
  let secs := timeInSecs mod MINUTE in
  let minutes := timeInSecs mod HOUR / MINUTE in
  let hours := timeInSecs mod DAY / HOUR in
  let days := timeInSecs / DAY in
  (if negb (days =? 0) then dec days ++ (if shortText then chars "d" else chars " Day(s) ") else []) ++
  (if negb (hours =? 0) || hoursOnly
   then dec hours ++ (if shortText then chars "h" else chars " Hour(s) ") else []) ++
  (if negb hoursOnly then
     (if negb (minutes =? 0)
      then dec minutes ++ (if shortText then chars "m" else chars " Minute(s) ") else []) ++
     (if negb (secs =? 0) || ((days =? 0) && (hours =? 0) && (minutes =? 0))
      then dec secs ++ (if shortText then chars "s" else chars " Second(s).") else [])
   else []).

Fixpoint TimeStringToSecs_loop (s : list Z) (secs buffer : Z) : Z :=
  match s with
  | [] => secs
  | c :: s' =>
      if isdigit c then TimeStringToSecs_loop s' secs (u32 (u32 (buffer * 10) + (c - 48)))
      else
        let multiplier :=
          if c =? 100 then Some DAY
          else if c =? 104 then Some HOUR
          else if c =? 109 then Some MINUTE
          else if c =? 115 then Some 1
          else None in
        match multiplier with
        | None => 0
        | Some m => TimeStringToSecs_loop s' (u32 (secs + u32 (buffer * m))) 0
        end
  end.

Definition TimeStringToSecs (timestring : list Z) : Z := TimeStringToSecs_loop timestring 0 0.

(** ** Money *)

Definition count_char (c : Z) (s : list Z) : Z := zlen (filter (fun x => x = c) s).

Fixpoint money_loop `{Platform} (tokens : list (list Z)) (money : Z) : Z :=
  match tokens with
  | [] => money
  | t :: tokens' =>
      let gCount := count_char 103 t in
      let sCount := count_char 115 t in
      let cCount := count_char 99 t in
      if negb (gCount + sCount + cCount =? 1) then 0
      else
        let amount := u64 (atol t) in
        money_loop tokens'
          (if gCount =? 1 then s64 (money + u64 (amount * 100 * 100))
           else if sCount =? 1 then s64 (money + u64 (amount * 100))
           else if cCount =? 1 then s64 (money + amount) else money)
  end.

Definition MoneyStringToMoney `{Platform} {E} (moneyString : list Z) : M unit E Z :=
  if negb ((count_char 103 moneyString =? 1) || (count_char 115 moneyString =? 1)
           || (count_char 99 moneyString =? 1))
  then mret 0
  else tokens ← Tokenizer moneyString 32; mret (money_loop tokens 0).

(** ** Hex dumps *)

Definition hex_digit (n : Z) : Z := if n <? 10 then 48 + n else 55 + n.
(** [sprintf("%02X", byte)] *)
Definition hex_byte (x : Z) : list Z := [hex_digit (x / 16); hex_digit (x mod 16)].

(** [for (i = init; i != end; i += op)], with as many iterations as elements. *)
Fixpoint hex_loop (fuel : nat) (bytes : list Z) (i end_ op : Z) (ss : list Z) : option (list Z) :=
  if i =? end_ then Some ss
  else match fuel with
       | O => None
       | S fuel' =>
           match bytes !! Z.to_nat i with
           | Some x => if i <? 0 then None
                       else hex_loop fuel' bytes (i + op) end_ op (ss ++ hex_byte x)
           | None => None
           end
       end.

Definition ByteArrayToHexStr (bytes : list Z) (arrayLen : Z) (reverse : bool) : option (list Z) :=
  if reverse
  then hex_loop (Z.to_nat arrayLen) bytes (s32 (arrayLen - 1)) (-1) (-1) []
  else hex_loop (Z.to_nat arrayLen) bytes 0 (s32 arrayLen) 1 [].

Example secs_ex : secsToTimeString 93784 true false = chars "1d2h3m4s".
Proof. reflexivity. Qed.
Example strip_ex : stripLineInvisibleChars (chars "a   b c  ") = chars "a b c ".
Proof. reflexivity. Qed.
Example hex_ex : ByteArrayToHexStr [1; 171; 255] 3 true = Some (chars "FFAB01").
Proof. reflexivity. Qed.
