(* ===== verification/TextProps.v ===== *)
(** * Properties of the text utilities

    Round trips between values and their text form, the tokenizer against
    joining, and chat line cleaning against its reference definition. *)

From Stdlib Require Import String.
From S2P Require Import Prelude Text.

(** ** Decimal numbers *)

Lemma dec_loop_app fuel n acc : dec_loop fuel n acc = dec_loop fuel n [] ++ acc.
Proof.
  revert n acc. induction fuel as [|fuel IH]; intros n acc; cbn [dec_loop]; [done|].
  destruct (n <? 10); [done|]. rewrite IH, (IH _ [_]), <- app_assoc. done.
Qed.

Lemma dec_loop_fuel f1 f2 n :
  0 <= n -> n < 2 ^ Z.of_nat f1 -> n < 2 ^ Z.of_nat f2 -> f1 <> O -> f2 <> O ->
  dec_loop f1 n [] = dec_loop f2 n [].
Proof.
  revert f2 n. induction f1 as [|f1 IH]; intros f2 n Hn H1 H2 Hf1 Hf2; [done|].
  destruct f2 as [|f2]; [done|]. cbn [dec_loop].
  destruct (Z.ltb_spec n 10) as [|Hge]; [done|].
  rewrite (dec_loop_app f1), (dec_loop_app f2). f_equal.
  rewrite Nat2Z.inj_succ, Z.pow_succ_r in H1, H2 by lia.
  apply IH; try divmod_lia.
  - intros ->. change (2 ^ Z.of_nat 0) with 1 in H1. lia.
  - intros ->. change (2 ^ Z.of_nat 0) with 1 in H2. lia.
Qed.

Lemma dec_unfold n :
  0 <= n -> dec n = if n <? 10 then [48 + n] else dec (n / 10) ++ [48 + n mod 10].
Proof.
  intros Hn. unfold dec at 1. cbn [dec_loop].
  destruct (Z.ltb_spec n 10) as [Hlt|Hge]; [by rewrite Z.mod_small by lia|].
  rewrite dec_loop_app. f_equal. unfold dec.
  pose proof (Z.log2_spec n ltac:(lia)) as [_ Hlog].
  pose proof (Z.log2_spec (n / 10) ltac:(divmod_lia)) as [_ Hlog'].
  pose proof (Z.log2_nonneg n). pose proof (Z.log2_nonneg (n / 10)).
  pose proof (Z.log2_le_mono 8 n ltac:(lia)) as Hl. change (Z.log2 8) with 3 in Hl.
  rewrite Z.pow_succ_r in Hlog by lia.
  apply dec_loop_fuel; [divmod_lia|rewrite Z2Nat.id by lia; divmod_lia| |lia|lia].
  rewrite Nat2Z.inj_succ, Z2Nat.id by lia. done.
Qed.

Lemma natlike_rec3 (P : Z -> Prop) :
  (forall x, 0 <= x -> (forall y, 0 <= y < x -> P y) -> P x) -> forall x, 0 <= x -> P x.
Proof. intros Hstep x Hx. revert x Hx. by apply Zlt_0_ind; intros; apply Hstep. Qed.

(** Induction on the decimal digits of a number. *)
Lemma dec_ind (P : Z -> Prop) :
  (forall n, 0 <= n < 10 -> P n) ->
  (forall n, 10 <= n -> P (n / 10) -> P n) ->
  forall n, 0 <= n -> P n.
Proof.
  intros Hbase Hstep n Hn. revert n Hn.
  apply (natlike_rec3 P). intros x Hx IH.
  destruct (decide (x < 10)); [apply Hbase; lia|].
  apply Hstep; [lia|]. apply IH; divmod_lia.
Qed.

Definition digits_value (s : list Z) (v : Z) : Z :=
  fold_left (fun b c => 10 * b + (c - 48)) s v.

Lemma dec_spec n :
  0 <= n ->
  Forall (fun c => isdigit c = true) (dec n) /\ dec n <> [] /\ digits_value (dec n) 0 = n.
Proof.
  revert n. apply dec_ind.
  - intros n Hn. rewrite dec_unfold by lia. zbool. cbn.
    split; [|split; [done|lia]]. repeat constructor. unfold isdigit. zbool. done.
  - intros n Hn (Hd & Hne & Hv). rewrite dec_unfold by lia. zbool.
    split; [|split].
    + apply Forall_app. split; [done|]. repeat constructor. unfold isdigit.
      pose proof (Z.mod_pos_bound n 10). zbool. done.
    + by destruct (dec (n / 10)).
    + unfold digits_value in *. rewrite fold_left_app, Hv. cbn. divmod_lia.
Qed.

Lemma dec_digits n c : 0 <= n -> c ∈ dec n -> 48 <= c <= 57.
Proof.
  intros Hn Hc. destruct (dec_spec n Hn) as [Hd _].
  rewrite Forall_forall in Hd. specialize (Hd c Hc). unfold isdigit in Hd.
  apply andb_true_iff in Hd as [H1%Z.leb_le H2%Z.leb_le]. lia.
Qed.

Lemma digits_value_ge s v :
  Forall (fun c => isdigit c = true) s -> 0 <= v -> v <= digits_value s v.
Proof.
  intros Hs. revert v. induction Hs as [|c s Hc Hs IH]; intros v Hv; cbn; [lia|].
  unfold isdigit in Hc. apply andb_true_iff in Hc as [H1%Z.leb_le H2%Z.leb_le].
  etransitivity; [|apply IH; lia]. lia.
Qed.

Lemma atol_digits_app s rest v :
  Forall (fun c => isdigit c = true) s ->
  match rest with c :: _ => isdigit c = false | [] => True end ->
  atol_digits (s ++ rest) v = digits_value s v.
Proof.
  intros Hs Hr. revert v. induction Hs as [|c s Hc Hs IH]; intros v; cbn.
  - destruct rest as [|c rest]; cbn; [done|by rewrite Hr].
  - by rewrite Hc, IH.
Qed.

(** [atol] reads back what the stream wrote, up to the first non-digit. *)
Lemma atol_dec `{Platform} n rest :
  0 <= n < 2 ^ (long_bits - 1) ->
  match rest with c :: _ => isdigit c = false | [] => True end ->
  atol (dec n ++ rest) = n.
Proof.
  intros Hn Hr. destruct (dec_spec n) as (Hd & Hne & Hv); [lia|].
  assert (Hv' : atol_digits (dec n ++ rest) 0 = n) by by rewrite atol_digits_app.
  unfold atol. destruct (dec n) as [|c s] eqn:Hdec; [done|]. cbn [app] in *.
  apply Forall_cons in Hd as [Hc _]. unfold isdigit in Hc.
  apply andb_true_iff in Hc as [H1%Z.leb_le H2%Z.leb_le].
  assert (Hsk : skip_spaces (c :: s ++ rest) = c :: s ++ rest).
  { cbn. unfold isspace. by zbool. }
  rewrite Hsk.
  zbool. rewrite Hv'. lia.
Qed.

(** ** Tokens *)

Definition token_ok (sep : Z) (t : list Z) : Prop := Forall (fun c => c <> sep /\ c <> 0) t.

Lemma Tokenizer_loop_token {E} sep t rest cur st :
  token_ok sep t ->
  Tokenizer_loop (E := E) sep (t ++ rest) cur st = Tokenizer_loop sep rest (cur ++ t) st.
Proof.
  intros Ht. revert cur. induction Ht as [|c t [Hs Hz] Ht IH]; intros cur; cbn [app].
  - by rewrite app_nil_r.
  - cbn [Tokenizer_loop]. zbool. by rewrite IH, <- app_assoc.
Qed.

Lemma Tokenizer_loop_many {E} sep ts rest st :
  Forall (token_ok sep) ts ->
  Tokenizer_loop (E := E) sep (concat (map (fun t => t ++ [sep]) ts) ++ rest) [] st
  = Tokenizer_loop sep rest [] (st ++ ts).
Proof.
  intros Hts. revert st. induction Hts as [|t ts Ht Hts IH]; intros st; cbn [map concat].
  - by rewrite app_nil_r.
  - rewrite <- !app_assoc, Tokenizer_loop_token by done. cbn [app Tokenizer_loop].
    zbool. by rewrite IH, <- app_assoc.
Qed.

(** The tokens of a line: all of them are ended by a separator, except a last
    one that is not empty. *)
Lemma Tokenizer_spec {E} sep ts last :
  sep <> 0 -> Forall (token_ok sep) ts -> token_ok sep last ->
  Tokenizer (E := E) (concat (map (fun t => t ++ [sep]) ts) ++ last) sep tt
  = Ok (ts ++ match last with [] => [] | _ => [last] end) tt.
Proof.
  intros Hsep Hts Hl. unfold Tokenizer.
  rewrite <- app_assoc, Tokenizer_loop_many, Tokenizer_loop_token by done.
  cbn [app Tokenizer_loop]. zbool. destruct last; [by rewrite app_nil_r|done].
Qed.

(** ** Times *)

Lemma time_digits s rest secs v :
  Forall (fun c => isdigit c = true) s -> 0 <= v -> digits_value s v < 2 ^ 32 ->
  TimeStringToSecs_loop (s ++ rest) secs v = TimeStringToSecs_loop rest secs (digits_value s v).
Proof.
  intros Hs. revert v. induction Hs as [|c s Hc Hs IH]; intros v Hv Hlt; cbn [app]; [done|].
  cbn [TimeStringToSecs_loop]. rewrite Hc.
  unfold isdigit in Hc. apply andb_true_iff in Hc as [H1%Z.leb_le H2%Z.leb_le].
  change (digits_value (c :: s) v) with (digits_value s (10 * v + (c - 48))) in *.
  pose proof (digits_value_ge s (10 * v + (c - 48)) Hs ltac:(lia)).
  no_wrap. rewrite (Z.mul_comm v). apply IH; lia.
Qed.

(** One "number, unit" group of a time. *)
Lemma time_group n unit m rest secs :
  0 <= n < 2 ^ 32 ->
  (unit, m) ∈ [(100, DAY); (104, HOUR); (109, MINUTE); (115, 1)] ->
  0 <= secs -> secs + n * m < 2 ^ 32 ->
  TimeStringToSecs_loop (dec n ++ unit :: rest) secs 0
  = TimeStringToSecs_loop rest (secs + n * m) 0.
Proof.
  intros Hn Hu Hsecs Hlt. destruct (dec_spec n) as (Hd & _ & Hv); [lia|].
  rewrite time_digits by (try done; rewrite Hv; lia). rewrite Hv.
  assert (0 <= n * m) by
    (rewrite !elem_of_cons in Hu; destruct Hu as [[= -> ->]|[[= -> ->]|[[= -> ->]|[[= -> ->]|Hu]]]];
     unfold DAY, HOUR, MINUTE; try lia; by apply not_elem_of_nil in Hu).
  assert (Hw : u32 (secs + u32 (n * m)) = secs + n * m) by (by no_wrap).
  rewrite !elem_of_cons in Hu.
  destruct Hu as [[= -> ->]|[[= -> ->]|[[= -> ->]|[[= -> ->]|Hu]]]]; try by (rewrite <- Hw).
  by apply not_elem_of_nil in Hu.
Qed.

(** Printing a duration in the short form and parsing it back is the
    identity on every duration that fits in 32 bits; with [hoursOnly] the
    parse gives the duration rounded down to whole hours. *)
Theorem time_string_roundtrip (t : Z) :
  in_width 32 t ->
  TimeStringToSecs (secsToTimeString t true false) = t /\
  TimeStringToSecs (secsToTimeString t true true) = t / HOUR * HOUR.
Proof.
  intros Ht. unfold in_width in Ht.
  assert (Hmem : forall k, (k < 4)%nat ->
    nth k [(100, DAY); (104, HOUR); (109, MINUTE); (115, 1)] (0, 0)
    ∈ [(100, DAY); (104, HOUR); (109, MINUTE); (115, 1)]).
  { intros k Hk. apply list_elem_of_In, nth_In. done. }
  pose proof (Hmem 0%nat ltac:(lia)) as Hday; pose proof (Hmem 1%nat ltac:(lia)) as Hhour;
  pose proof (Hmem 2%nat ltac:(lia)) as Hmin; pose proof (Hmem 3%nat ltac:(lia)) as Hsec.
  cbn [nth] in *. clear Hmem.
  unfold secsToTimeString, TimeStringToSecs, DAY, HOUR, MINUTE in *.
  change (chars "d") with [100]; change (chars "h") with [104];
  change (chars "m") with [109]; change (chars "s") with [115].
  change (60 * 60 * 24) with 86400 in *. change (60 * 60) with 3600 in *.
  set (d := t / 86400). set (h := t mod 86400 / 3600).
  set (m := t mod 3600 / 60). set (s := t mod 60).
  assert (Hsum : t = d * 86400 + h * 3600 + m * 60 + s) by (unfold d, h, m, s; divmod_lia).
  assert (Hh : t / 3600 * 3600 = d * 86400 + h * 3600) by (unfold d, h; divmod_lia).
  assert (0 <= d /\ 0 <= h < 24 /\ 0 <= m < 60 /\ 0 <= s < 60) as (Hd0 & Hh0 & Hm0 & Hs0)
    by (unfold d, h, m, s; split_and!; divmod_lia).
  rewrite Hh, Hsum in *. clearbody d h m s.
  destruct (Z.eqb_spec d 0) as [->|], (Z.eqb_spec h 0) as [->|], (Z.eqb_spec m 0) as [->|],
    (Z.eqb_spec s 0) as [->|]; cbn [negb andb orb]; rewrite ?app_nil_r; cbn [app];
    rewrite <- ?app_assoc; cbn [app];
    (split; repeat (erewrite time_group by first [eassumption | lia]); cbn; lia).
Qed.

Lemma time_string_roundtrip_witness :
  TimeStringToSecs (secsToTimeString 93784 true false) = 93784 /\
  TimeStringToSecs (secsToTimeString 93784 true true) = 93600.
Proof. apply (time_string_roundtrip 93784). unfold in_width. lia. Defined.

(** ** Cleaning a chat line *)

(** The reference: a run of invisible characters becomes one space. *)
Fixpoint collapse (space : bool) (s : list Z) : list Z :=
  match s with
  | [] => []
  | c :: s' =>
      if is_inv c then if space then collapse true s' else 32 :: collapse true s'
      else c :: collapse false s'
  end.

Lemma collapse_idem space s : collapse space (collapse space s) = collapse space s.
Proof.
  revert space. induction s as [|c s IH]; intros space; cbn [collapse]; [done|].
  destruct (is_inv c) eqn:Hc; [destruct space; [done|]|]; cbn [collapse]; rewrite ?Hc, IH; done.
Qed.

Lemma insert_middle (out : list Z) x y rest :
  <[Z.to_nat (zlen out) := x]> (out ++ y :: rest) = out ++ x :: rest.
Proof.
  unfold zlen. rewrite Nat2Z.id. replace (length out) with (length out + 0)%nat by lia.
  by rewrite insert_app_r.
Qed.

(** The loop: [out] is written, [mid] is the gap between the two positions. *)
Lemma strip_loop rest out mid space :
  exists junk space',
    fold_left strip_step (seqZ (zlen out + zlen mid) (zlen rest)) (out ++ mid ++ rest, zlen out, space)
    = (out ++ collapse space rest ++ junk, zlen out + zlen (collapse space rest), space').
Proof.
  revert out mid space. induction rest as [|c rest IH]; intros out mid space.
  { exists mid, space. cbn. rewrite app_nil_r, Z.add_0_r. done. }
  zsimp. rewrite seqZ_cons by lia. cbn [fold_left].
  replace (Z.pred (1 + zlen rest)) with (zlen rest) by lia.
  assert (Hlook : (out ++ mid ++ c :: rest) !! Z.to_nat (zlen out + zlen mid) = Some c).
  { rewrite app_assoc. unfold zlen. rewrite lookup_app_r by (rewrite length_app; lia).
    rewrite length_app. by replace (_ - _)%nat with O by lia. }
  unfold strip_step at 2. rewrite Hlook. cbn [collapse].
  assert (Hgap : forall x, exists mid', zlen mid' = zlen mid /\
    <[Z.to_nat (zlen out) := x]> (out ++ mid ++ c :: rest) = (out ++ [x]) ++ mid' ++ rest).
  { intros x. destruct mid as [|y mid].
    - exists []. cbn [app]. by rewrite insert_middle, <- app_assoc.
    - exists (mid ++ [c]). zsimp. split; [lia|].
      cbn [app]. by rewrite insert_middle, <- !app_assoc. }
  assert (Hcont : forall x sp str, (exists mid', zlen mid' = zlen mid /\ str = (out ++ [x]) ++ mid' ++ rest) ->
    exists junk space',
      fold_left strip_step (seqZ (Z.succ (zlen out + zlen mid)) (zlen rest)) (str, zlen out + 1, sp)
      = (out ++ (x :: collapse sp rest) ++ junk, zlen out + zlen (x :: collapse sp rest), space')).
  { intros x sp str (mid' & Hmid & ->).
    destruct (IH (out ++ [x]) mid' sp) as (junk & space' & Heq). exists junk, space'.
    zsimp. replace (Z.succ (zlen out + zlen mid)) with (zlen out + (1 + 0) + zlen mid') by lia.
    replace (zlen out + 1) with (zlen out + (1 + 0)) by lia. rewrite Heq, <- app_assoc.
    cbn [app]. f_equal. f_equal. lia. }
  destruct (is_inv c).
  - destruct space; cbn [negb].
    + destruct (IH out (mid ++ [c]) true) as (junk & space' & Heq). exists junk, space'.
      zsimp. rewrite <- app_assoc in Heq. cbn [app] in Heq. rewrite <- Heq.
      do 2 f_equal. lia.
    + apply Hcont, Hgap.
  - destruct (Z.eqb_spec (zlen out) (zlen out + zlen mid)) as [Hz|Hz]; cbn [negb].
    + apply Hcont. exists []. destruct mid; [|zsimp; lia]. split; [done|]. by rewrite <- app_assoc.
    + apply Hcont, Hgap.
Qed.

Lemma strip_collapse str :
  stripLineInvisibleChars str
  = if contains (chars "|TInterface") (collapse false str) then [] else collapse false str.
Proof.
  unfold stripLineInvisibleChars.
  destruct (strip_loop str [] [] false) as (junk & space' & Heq).
  cbn [app] in Heq. rewrite !(@zlen_nil Z), !Z.add_0_l in Heq. rewrite Heq.
  assert (Htake : (if zlen (collapse false str) <? zlen (collapse false str ++ junk)
                   then ztake (zlen (collapse false str)) (collapse false str ++ junk)
                   else collapse false str ++ junk) = collapse false str).
  { destruct (Z.ltb_spec (zlen (collapse false str)) (zlen (collapse false str ++ junk))) as [H|H].
    - apply ztake_app.
    - destruct junk; [by rewrite app_nil_r|zsimp; lia]. }
  by rewrite Htake.
Qed.

(** The in-place loop of [stripLineInvisibleChars] computes its reference
    definition: every run of blanks, tabs, bells and line feeds becomes one
    space, and a line with a client interface escape becomes empty.  Cleaning
    a clean line changes nothing. *)
Theorem strip_spec (str : list Z) :
  stripLineInvisibleChars str
  = (if contains (chars "|TInterface") (collapse false str) then [] else collapse false str) /\
  stripLineInvisibleChars (stripLineInvisibleChars str) = stripLineInvisibleChars str.
Proof.
  split; [apply strip_collapse|]. rewrite (strip_collapse str).
  destruct (contains _ (collapse false str)) eqn:Hc; [done|].
  by rewrite strip_collapse, collapse_idem, Hc.
Qed.

(** ** Money *)

Lemma count_char_app c s1 s2 : count_char c (s1 ++ s2) = count_char c s1 + count_char c s2.
Proof. unfold count_char. by rewrite filter_app, zlen_app. Qed.

Lemma count_char_dec c n : 0 <= n -> ~ (48 <= c <= 57) -> count_char c (dec n) = 0.
Proof.
  intros Hn Hc. unfold count_char. replace (filter _ (dec n)) with (@nil Z); [done|].
  symmetry. destruct (filter _ (dec n)) as [|x l] eqn:Hf; [done|].
  assert (Hx : x ∈ filter (fun x => x = c) (dec n)) by (rewrite Hf; set_solver).
  apply list_elem_of_filter in Hx as [-> Hx]. by apply dec_digits in Hx.
Qed.

Lemma token_dec n unit :
  0 <= n -> unit ∈ [103; 115; 99] -> token_ok 32 (dec n ++ [unit]).
Proof.
  intros Hn Hu. apply Forall_app. split.
  - apply Forall_forall. intros c Hc%dec_digits; lia.
  - assert (unit <> 32 /\ unit <> 0) by (set_unfold; lia). by apply Forall_singleton.
Qed.

Definition money_string (g s c : Z) : list Z :=
  dec g ++ chars "g " ++ dec s ++ chars "s " ++ dec c ++ chars "c".

(** An amount written as "Gg Ss Cc" is read as G gold, S silver and C
    copper, for all amounts that fit: no count of coins is mistaken for
    another, and the sum does not wrap. *)
Theorem money_string_parse `{Platform} {E} (g s c : Z) :
  0 <= g -> 0 <= s -> 0 <= c ->
  Z.max g (Z.max s c) < 2 ^ (long_bits - 1) -> g * 10000 + s * 100 + c < 2 ^ 63 ->
  MoneyStringToMoney (E := E) (money_string g s c) tt = Ok (g * 10000 + s * 100 + c) tt.
Proof.
  intros Hg Hs Hc Hlong Hsum. unfold MoneyStringToMoney, money_string.
  change (chars "g ") with [103; 32]; change (chars "s ") with [115; 32]; change (chars "c") with [99].
  rewrite !count_char_app, !count_char_dec by lia. cbn [negb orb].
  change (count_char 103 [103; 32]) with 1. change (count_char 103 [115; 32]) with 0.
  change (count_char 103 [99]) with 0. zbool. cbn [negb orb].
  replace (dec g ++ _) with
    (concat (map (fun t => t ++ [32]) [dec g ++ [103]; dec s ++ [115]]) ++ dec c ++ [99])
    by (cbn; rewrite app_nil_r, <- !app_assoc; done).
  unfold mbind, M_bind. rewrite Tokenizer_spec; [|done| |by apply token_dec; set_solver].
  2: { repeat constructor; apply token_dec; set_solver. }
  destruct (dec c ++ [99]) as [|x l] eqn:Hlast; [by destruct (dec c)|]. rewrite <- Hlast.
  cbn [app]. unfold mret, M_ret. f_equal. cbn [money_loop].
  rewrite !count_char_app, !count_char_dec by lia.
  rewrite !atol_dec by (done || lia).
  repeat match goal with |- context [count_char ?a [?b]] =>
    let v := eval vm_compute in (count_char a [b]) in change (count_char a [b]) with v end.
  cbn [negb Z.eqb]. zbool. no_wrap.
  cbn [negb]. no_swrap. lia.
Qed.

Lemma money_string_parse_witness :
  let p := {| long_bits := 32; long_bits_ok := Z.le_refl 32 |} in
  MoneyStringToMoney (H := p) (E := unit) (money_string 12 3 45) tt = Ok 120345 tt.
Proof.
  intros p. apply (money_string_parse (H := p) (E := unit) 12 3 45); cbn; lia.
Defined.

(** ** Hex dumps *)

Definition hex_str (bytes : list Z) : list Z := concat (map hex_byte bytes).

Definition hex_value (c : Z) : Z := if c <? 65 then c - 48 else c - 55.
Fixpoint parse_hex (s : list Z) : list Z :=
  match s with
  | x :: y :: s' => hex_value x * 16 + hex_value y :: parse_hex s'
  | _ => []
  end.

Lemma hex_digit_value n : 0 <= n < 16 -> hex_value (hex_digit n) = n.
Proof.
  intros Hn. unfold hex_digit. destruct (Z.ltb_spec n 10); unfold hex_value; zbool; lia.
Qed.

Lemma parse_hex_str bytes : Forall (in_width 8) bytes -> parse_hex (hex_str bytes) = bytes.
Proof.
  induction 1 as [|x bytes Hx _ IH]; [done|]. unfold hex_str in *. unfold in_width in Hx.
  cbn [map concat app parse_hex hex_byte]. rewrite IH, !hex_digit_value by divmod_lia.
  f_equal. divmod_lia.
Qed.

(** The loop in either direction, on the part still to be written. *)
Lemma hex_loop_up pre mid ss :
  hex_loop (length mid) (pre ++ mid) (zlen pre) (zlen pre + zlen mid) 1 ss
  = Some (ss ++ hex_str mid).
Proof.
  revert pre ss. induction mid as [|x mid IH]; intros pre ss; cbn [length hex_loop]; zsimp; zbool.
  - cbn. by rewrite app_nil_r.
  - replace ((pre ++ x :: mid) !! Z.to_nat (zlen pre)) with (Some x)
      by (unfold zlen; rewrite Nat2Z.id; symmetry; by apply list_lookup_middle).
    replace (pre ++ x :: mid) with ((pre ++ [x]) ++ mid) by (by rewrite <- app_assoc).
    specialize (IH (pre ++ [x]) (ss ++ hex_byte x)). zsimp.
    replace (zlen pre + 1) with (zlen pre + (1 + 0)) by lia.
    replace (zlen pre + (1 + zlen mid)) with (zlen pre + (1 + 0) + zlen mid) by lia.
    rewrite IH, <- app_assoc. done.
Qed.

Lemma hex_loop_down mid post ss :
  hex_loop (length mid) (rev mid ++ post) (zlen mid - 1) (-1) (-1) ss
  = Some (ss ++ hex_str mid).
Proof.
  revert post ss. induction mid as [|x mid IH]; intros post ss; cbn [length hex_loop]; zsimp; zbool.
  - cbn. by rewrite app_nil_r.
  - cbn [rev]. rewrite <- app_assoc. cbn [app].
    replace ((rev mid ++ x :: post) !! Z.to_nat (1 + zlen mid - 1)) with (Some x)
      by (unfold zlen; symmetry; apply list_lookup_middle; rewrite length_rev; lia).
    replace (1 + zlen mid - 1 + -1) with (zlen mid - 1) by lia.
    by rewrite IH, <- app_assoc.
Qed.

(** [ByteArrayToHexStr] on a whole array writes two hex digits per byte,
    in order or reversed, reads nothing out of bounds, and the digits parse
    back to the bytes. *)
Theorem hex_str_roundtrip (bytes : list Z) (reverse : bool) :
  Forall (in_width 8) bytes -> zlen bytes < 2 ^ 31 ->
  exists s, ByteArrayToHexStr bytes (zlen bytes) reverse = Some s /\
            parse_hex s = if reverse then rev bytes else bytes.
Proof.
  intros Hb Hlen. zlen_pos. unfold ByteArrayToHexStr.
  assert (Hn : Z.to_nat (zlen bytes) = length bytes) by (unfold zlen; lia).
  exists (hex_str (if reverse then rev bytes else bytes)). destruct reverse.
  - no_swrap.
    pose proof (hex_loop_down (rev bytes) [] []) as Hd.
    rewrite rev_involutive, app_nil_r, length_rev in Hd. unfold zlen in *. rewrite length_rev in Hd.
    rewrite Hn, Hd. split; [done|]. apply parse_hex_str, Forall_rev, Hb.
  - no_swrap.
    rewrite Hn. split; [apply (hex_loop_up [] bytes [])|by apply parse_hex_str].
Qed.

Lemma hex_str_roundtrip_witness :
  exists s, ByteArrayToHexStr [1; 171; 255] 3 true = Some s /\ parse_hex s = [255; 171; 1].
Proof.
  apply (hex_str_roundtrip [1; 171; 255] true); [|by vm_compute].
  repeat constructor; cbn; lia.
Defined.
