(* ===== verification/Util.v ===== *)
(** * Characters, flags and numeric helpers

    The inline part of [src/src/server/shared/Utilities/Util.h]: character
    classes and case conversion of wide characters, the declension helper
    [GetMainPartOfName], percentages, and the 96-bit flag type [flag96]. *)

From S2P Require Import Prelude Float32.

(** ** Wide characters ([wchar_t] as its code) *)

Definition isBasicLatinCharacter (wchar : Z) : bool :=
  if (97 <=? wchar) && (wchar <=? 122) then true
  else if (65 <=? wchar) && (wchar <=? 90) then true
  else false.

Definition isExtendedLatinCharacter (wchar : Z) : bool :=
  if isBasicLatinCharacter wchar then true
  else if (0x00C0 <=? wchar) && (wchar <=? 0x00D6) then true
  else if (0x00D8 <=? wchar) && (wchar <=? 0x00DF) then true
  else if wchar =? 0x00DF then true
  else if (0x00E0 <=? wchar) && (wchar <=? 0x00F6) then true
  else if (0x00F8 <=? wchar) && (wchar <=? 0x00FE) then true
  else if (0x0100 <=? wchar) && (wchar <=? 0x012F) then true
  else if wchar =? 0x1E9E then true
  else false.

Definition isCyrillicCharacter (wchar : Z) : bool :=
  if (0x0410 <=? wchar) && (wchar <=? 0x044F) then true
  else if (wchar =? 0x0401) || (wchar =? 0x0451) then true
  else false.

Definition isEastAsianCharacter (wchar : Z) : bool :=
  if (0x1100 <=? wchar) && (wchar <=? 0x11F9) then true
  else if (0x3041 <=? wchar) && (wchar <=? 0x30FF) then true
  else if (0x3131 <=? wchar) && (wchar <=? 0x318E) then true
  else if (0x31F0 <=? wchar) && (wchar <=? 0x31FF) then true
  else if (0x3400 <=? wchar) && (wchar <=? 0x4DB5) then true
  else if (0x4E00 <=? wchar) && (wchar <=? 0x9FC3) then true
  else if (0xAC00 <=? wchar) && (wchar <=? 0xD7A3) then true
  else if (0xFF01 <=? wchar) && (wchar <=? 0xFFEE) then true
  else false.

Definition isNumeric (c : Z) : bool := (48 <=? c) && (c <=? 57).
(** [isNumeric(char const* str)], on the bytes before the NUL. *)
Definition isNumericStr (str : list Z) : bool := forallb isNumeric str.
Definition isNumericOrSpace (wchar : Z) : bool := isNumeric wchar || (wchar =? 32).

(** The four [is...String] functions: [cls] is the character class. *)
Fixpoint is_string_of (cls : Z -> bool) (wstr : list Z) (numericOrSpace : bool) : bool :=
  match wstr with
  | [] => true
  | c :: wstr' =>
      if negb (cls c) && (negb numericOrSpace || negb (isNumericOrSpace c)) then false
      else is_string_of cls wstr' numericOrSpace
  end.
Definition isBasicLatinString := is_string_of isBasicLatinCharacter.
Definition isExtendedLatinString := is_string_of isExtendedLatinCharacter.
Definition isCyrillicString := is_string_of isCyrillicCharacter.
Definition isEastAsianString := is_string_of isEastAsianCharacter.

Definition wcharToUpper (wchar : Z) : Z :=
  if (97 <=? wchar) && (wchar <=? 122) then u16 wchar - 0x20
  else if wchar =? 0x00DF then 0x1E9E
  else if (0x00E0 <=? wchar) && (wchar <=? 0x00F6) then u16 wchar - 0x20
  else if (0x00F8 <=? wchar) && (wchar <=? 0x00FE) then u16 wchar - 0x20
  else if (0x0101 <=? wchar) && (wchar <=? 0x012F) && (wchar mod 2 =? 1) then u16 wchar - 1
  else if (0x0430 <=? wchar) && (wchar <=? 0x044F) then u16 wchar - 0x20
  else if wchar =? 0x0451 then 0x0401
  else wchar.

Definition wcharToUpperOnlyLatin (wchar : Z) : Z :=
  if isBasicLatinCharacter wchar then wcharToUpper wchar else wchar.

Definition wcharToLower (wchar : Z) : Z :=
  if (65 <=? wchar) && (wchar <=? 90) then u16 wchar + 0x20
  else if (0x00C0 <=? wchar) && (wchar <=? 0x00D6) then u16 wchar + 0x20
  else if (0x00D8 <=? wchar) && (wchar <=? 0x00DE) then u16 wchar + 0x20
  else if (0x0100 <=? wchar) && (wchar <=? 0x012E) && (wchar mod 2 =? 0) then u16 wchar + 1
  else if wchar =? 0x1E9E then 0x00DF
  else if wchar =? 0x0401 then 0x0451
  else if (0x0410 <=? wchar) && (wchar <=? 0x042F) then u16 wchar + 0x20
  else wchar.

Definition wstrToUpper (str : list Z) : list Z := map wcharToUpper str.
Definition wstrToLower (str : list Z) : list Z := map wcharToLower str.

(** ** Declensions *)

(** The endings of each case, in the order they are tried. *)
Definition dropEnds : list (list (list Z)) :=
  let a_End := [0x0430] in let o_End := [0x043E] in let ya_End := [0x044F] in
  let ie_End := [0x0435] in let i_End := [0x0438] in let yeru_End := [0x044B] in
  let u_End := [0x0443] in let yu_End := [0x044E] in let oj_End := [0x043E; 0x0439] in
  let ie_j_End := [0x0435; 0x0439] in let io_j_End := [0x0451; 0x0439] in
  let o_m_End := [0x043E; 0x043C] in let io_m_End := [0x0451; 0x043C] in
  let ie_m_End := [0x0435; 0x043C] in let soft_End := [0x044C] in let j_End := [0x0439] in
  [ [a_End; o_End; ya_End; ie_End; soft_End; j_End];
    [a_End; ya_End; yeru_End; i_End];
    [ie_End; u_End; yu_End; i_End];
    [u_End; yu_End; o_End; ie_End; soft_End; ya_End; a_End];
    [oj_End; io_j_End; ie_j_End; o_m_End; io_m_End; ie_m_End; yu_End];
    [ie_End; i_End] ].

(** [str.substr(pos, n)]: [std::out_of_range] when [pos] is past the end. *)
Definition substr (str : list Z) (pos n : Z) : option (list Z) :=
  if zlen str <? pos then None else Some (ztake n (zdrop pos str)).

Fixpoint drop_end (ends : list (list Z)) (wname : list Z) : option (list Z) :=
  match ends with
  | [] => Some wname
  | e :: ends' =>
      let len := zlen e in
      match substr wname (u64 (zlen wname - len)) len with
      | None => None
      | Some t => if bool_decide (t = e) then substr wname 0 (u64 (zlen wname - len))
                  else drop_end ends' wname
      end
  end.

(** [None] is the exception [std::out_of_range]. *)
Definition GetMainPartOfName (wname : list Z) (declension : Z) : option (list Z) :=
  match wname with
  | [] => Some wname
  | c :: _ =>
      if negb (isCyrillicCharacter c) || (5 <? declension) then Some wname
      else drop_end (nth (Z.to_nat declension) dropEnds []) wname
  end.

(** ** Numbers *)

(** [RoundToInterval(num, floor, ceil)] *)
Definition RoundToInterval (num floor ceil : Z) : Z :=
  let m := if num <? floor then floor else num in
  if ceil <? m then ceil else m.

(** [CalculatePct<int32, int32>]: the percentage is taken in single precision. *)
Definition CalculatePct (base pct : Z) : Z :=
  int32_of_f32 (f32_div (f32_mul (f32_of_Z base) (f32_of_Z pct)) (f32_of_Z 100)).
Definition AddPct (base pct : Z) : Z := s32 (base + CalculatePct base pct).
Definition ApplyPct (base pct : Z) : Z := CalculatePct base pct.

(** [roll_chance_i], given what [irand(0, 99)] returned. *)
Definition roll_chance_i (chance irand_0_99 : Z) : bool := irand_0_99 <? chance.

(** [IsIPAddrInNetwork] on the 32-bit addresses. *)
Definition IsIPAddrInNetwork (net addr subnetMask : Z) : bool :=
  Z.land net subnetMask =? Z.land addr subnetMask.

(** ** flag96 *)

Record flag96 := mkFlag96 { part0 : Z; part1 : Z; part2 : Z }.

#[export] Instance flag96_eq_dec : EqDecision flag96.
Proof. solve_decision. Defined.

Definition flag96_of_64 (p1 p2 : Z) : flag96 :=
  mkFlag96 (u32 (Z.land p1 0xFFFFFFFF)) (u32 (Z.land (Z.shiftr p1 32) 0xFFFFFFFF)) p2.

Definition flag_IsEqual (f : flag96) (p1 p2 p3 : Z) : bool :=
  (part0 f =? p1) && (part1 f =? p2) && (part2 f =? p3).
Definition flag_HasFlag (f : flag96) (p1 p2 p3 : Z) : bool :=
  has_flag (part0 f) p1 || has_flag (part1 f) p2 || has_flag (part2 f) p3.
Definition flag_Set (f : flag96) (p1 p2 p3 : Z) : flag96 := mkFlag96 p1 p2 p3.

(** [part[i]]; an index above 2 is outside the array. *)
Definition flag_part (f : flag96) (el : Z) : option Z :=
  if el =? 0 then Some (part0 f) else if el =? 1 then Some (part1 f)
  else if el =? 2 then Some (part2 f) else None.

(** The loop of [operator<], from the most significant part down. *)
Fixpoint flag_lt_loop (i : nat) (left right : flag96) : bool :=
  match i with
  | O => false
  | S i' =>
      match flag_part left (Z.of_nat i'), flag_part right (Z.of_nat i') with
      | Some l, Some r => if l <? r then true else if r <? l then false
                          else flag_lt_loop i' left right
      | _, _ => false
      end
  end.
Definition flag_lt (left right : flag96) : bool := flag_lt_loop 3 left right.

Definition flag_eq (left right : flag96) : bool :=
  (part0 left =? part0 right) && (part1 left =? part1 right) && (part2 left =? part2 right).
Definition flag_neq (left right : flag96) : bool := negb (flag_eq left right).

Definition flag_and (l r : flag96) : flag96 :=
  mkFlag96 (Z.land (part0 l) (part0 r)) (Z.land (part1 l) (part1 r)) (Z.land (part2 l) (part2 r)).
Definition flag_or (l r : flag96) : flag96 :=
  mkFlag96 (Z.lor (part0 l) (part0 r)) (Z.lor (part1 l) (part1 r)) (Z.lor (part2 l) (part2 r)).
Definition flag_xor (l r : flag96) : flag96 :=
  mkFlag96 (Z.lxor (part0 l) (part0 r)) (Z.lxor (part1 l) (part1 r)) (Z.lxor (part2 l) (part2 r)).
Definition flag_not (f : flag96) : flag96 :=
  mkFlag96 (u32 (Z.lnot (part0 f))) (u32 (Z.lnot (part1 f))) (u32 (Z.lnot (part2 f))).
Definition flag_bool (f : flag96) : bool :=
  negb (part0 f =? 0) || negb (part1 f =? 0) || negb (part2 f =? 0).

(** ** Properties *)

Lemma wchar_high c : 0x460 <= c -> c <> 0x1E9E -> wcharToLower c = c /\ wcharToUpper c = c.
Proof.
  intros Hc Hne. unfold wcharToLower, wcharToUpper. zbool. cbn [andb]. zbool. done.
Qed.

(** Case conversion of names: lowering is idempotent, a character and its
    upper case have the same lower case, so that names differing only in case
    get one key, and conversion never leaves its script. *)
Theorem wchar_case (c : Z) :
  0 <= c ->
  wcharToLower (wcharToLower c) = wcharToLower c /\
  wcharToLower (wcharToUpper c) = wcharToLower c /\
  wcharToUpper (wcharToUpper c) = wcharToUpper c /\
  isExtendedLatinCharacter (wcharToLower c) = isExtendedLatinCharacter c /\
  isCyrillicCharacter (wcharToLower c) = isCyrillicCharacter c.
Proof.
  intros Hc. destruct (decide (c < 0x460)) as [Hlt|Hge].
  - revert c Hc Hlt. enough (Hall : forall c, 0 <= c < 0x460 ->
      wcharToLower (wcharToLower c) = wcharToLower c /\
      wcharToLower (wcharToUpper c) = wcharToLower c /\
      wcharToUpper (wcharToUpper c) = wcharToUpper c /\
      isExtendedLatinCharacter (wcharToLower c) = isExtendedLatinCharacter c /\
      isCyrillicCharacter (wcharToLower c) = isCyrillicCharacter c)
      by (intros; by apply Hall).
    apply (forall_below _). vm_compute. reflexivity.
  - destruct (decide (c = 0x1E9E)) as [->|Hne]; [by vm_compute|].
    destruct (wchar_high c) as [Hl Hu]; [lia|done|]. rewrite !Hl, !Hu, ?Hl. done.
Qed.

Lemma wchar_upper_idem c : 0 <= c -> wcharToUpper (wcharToUpper c) = wcharToUpper c.
Proof. intros Hc. apply (wchar_case c Hc). Qed.
Lemma wchar_lower_idem c : 0 <= c -> wcharToLower (wcharToLower c) = wcharToLower c.
Proof. intros Hc. apply (wchar_case c Hc). Qed.

Lemma wchar_case_witness :
  wcharToLower (wcharToLower 0x1E9E) = wcharToLower 0x1E9E /\
  wcharToLower (wcharToUpper 0x1E9E) = wcharToLower 0x1E9E /\
  wcharToUpper (wcharToUpper 0x1E9E) = wcharToUpper 0x1E9E /\
  isExtendedLatinCharacter (wcharToLower 0x1E9E) = isExtendedLatinCharacter 0x1E9E /\
  isCyrillicCharacter (wcharToLower 0x1E9E) = isCyrillicCharacter 0x1E9E.
Proof. apply (wchar_case 0x1E9E). lia. Defined.

(** ** Declensions *)

Lemma drop_end_ok ends wname :
  2 <= zlen wname < 2 ^ 32 -> Forall (fun e => zlen e = 1 \/ zlen e = 2) ends ->
  exists suffix main, drop_end ends wname = Some main /\ wname = main ++ suffix /\
                      (suffix = [] \/ suffix ∈ ends).
Proof.
  intros Hlen Hends. induction Hends as [|e ends He Hends IH]; cbn [drop_end].
  - exists [], wname. rewrite app_nil_r. auto.
  - assert (Hn : u64 (zlen wname - zlen e) = zlen wname - zlen e) by (no_wrap; done).
    rewrite Hn. unfold substr at 1. zbool.
    case_bool_decide as Heq.
    + unfold substr. zbool.
      exists (zdrop (zlen wname - zlen e) wname), (ztake (zlen wname - zlen e) wname).
      split; [done|]. split; [symmetry; apply take_drop|]. right.
      replace (zdrop _ wname) with e; [set_solver|].
      rewrite <- Heq at 1. unfold ztake, zdrop, zlen in *. apply take_ge.
      rewrite length_drop. lia.
    + destruct IH as (suffix & main & Hd & Hw & Hs). exists suffix, main.
      split; [done|]. split; [done|]. set_solver.
Qed.

Lemma main_part_prefix wname declension :
  2 <= zlen wname < 2 ^ 32 -> 0 <= declension ->
  exists main suffix,
    GetMainPartOfName wname declension = Some main /\ wname = main ++ suffix /\
    (suffix = [] \/ suffix ∈ nth (Z.to_nat declension) dropEnds []).
Proof.
  intros Hlen Hd. unfold GetMainPartOfName.
  destruct wname as [|c wname]; [cbn in Hlen; unfold zlen in Hlen; cbn in Hlen; lia|].
  destruct (negb (isCyrillicCharacter c)); cbn [orb].
  { exists (c :: wname), []. rewrite app_nil_r. auto. }
  destruct (Z.ltb_spec 5 declension).
  { exists (c :: wname), []. rewrite app_nil_r. auto. }
  destruct (drop_end_ok (nth (Z.to_nat declension) dropEnds []) (c :: wname))
    as (suffix & main & Hdrop & Hw & Hs); [done| |by exists main, suffix].
  assert (Hall : Forall (Forall (fun e : list Z => zlen e = 1 \/ zlen e = 2)) dropEnds)
    by (repeat constructor; vm_compute; auto).
  rewrite Forall_forall in Hall. apply Hall, list_elem_of_In, nth_In.
  change (length dropEnds) with 6%nat. lia.
Qed.

Lemma main_part_returns wname declension :
  2 <= zlen wname < 2 ^ 32 -> 0 <= declension ->
  exists main, GetMainPartOfName wname declension = Some main.
Proof. intros Hl Hd. destruct (main_part_prefix wname declension Hl Hd) as (main & _ & H & _). eauto. Qed.

(** [GetMainPartOfName] on a name of at least two characters returns (no
    [std::out_of_range]), and what it returns is the name without one of the
    endings of the case, or the whole name. *)
Theorem GetMainPartOfName_prefix (wname : list Z) (declension : Z) :
  2 <= zlen wname < 2 ^ 32 -> 0 <= declension ->
  exists main suffix,
    GetMainPartOfName wname declension = Some main /\ wname = main ++ suffix /\
    (suffix = [] \/ suffix ∈ nth (Z.to_nat declension) dropEnds []).
Proof. apply main_part_prefix. Qed.

Lemma GetMainPartOfName_prefix_witness :
  exists main suffix,
    GetMainPartOfName [0x0410; 0x043D; 0x043D; 0x0430] 0 = Some main /\
    [0x0410; 0x043D; 0x043D; 0x0430] = main ++ suffix /\
    (suffix = [] \/ suffix ∈ nth 0 dropEnds []).
Proof.
  apply (GetMainPartOfName_prefix [0x0410; 0x043D; 0x043D; 0x0430] 0); [|done].
  by vm_compute.
Defined.

(** A one-letter Cyrillic name raises [std::out_of_range] in the
    instrumental case: the first ending tried has two letters, and the position
    of the substring wraps around. *)
Theorem GetMainPartOfName_short (c : Z) :
  isCyrillicCharacter c = true -> GetMainPartOfName [c] 4 = None.
Proof. intros Hc. unfold GetMainPartOfName. rewrite Hc. reflexivity. Qed.

Lemma GetMainPartOfName_short_witness : GetMainPartOfName [0x042F] 4 = None.
Proof. apply (GetMainPartOfName_short 0x042F). reflexivity. Defined.

(** ** flag96 *)

(** The 96-bit number a flag set denotes. *)
Definition flag_value (f : flag96) : Z := part0 f + 2 ^ 32 * part1 f + 2 ^ 64 * part2 f.

Definition flag_ok (f : flag96) : Prop :=
  in_width 32 (part0 f) /\ in_width 32 (part1 f) /\ in_width 32 (part2 f).

Lemma flag_value_testbit f i :
  flag_ok f -> 0 <= i ->
  Z.testbit (flag_value f) i =
  if i <? 32 then Z.testbit (part0 f) i
  else if i <? 64 then Z.testbit (part1 f) (i - 32) else Z.testbit (part2 f) (i - 64).
Proof.
  intros (H0 & H1 & H2) Hi. unfold in_width in *.
  assert (Hv : flag_value f =
    Z.lor (Z.lor (part0 f) (Z.shiftl (part1 f) 32)) (Z.shiftl (part2 f) 64)).
  { rewrite lor_shiftl_add; [|lia|];
      rewrite (lor_shiftl_add (part0 f)) by lia; unfold flag_value; lia. }
  rewrite Hv, !Z.lor_spec, !Z.shiftl_spec by lia.
  destruct (Z.ltb_spec i 32); [|destruct (Z.ltb_spec i 64)].
  - rewrite (Z.testbit_neg_r _ (i - 32)), (Z.testbit_neg_r _ (i - 64)) by lia.
    by rewrite !orb_false_r.
  - rewrite (testbit_small (part0 f) 32), (Z.testbit_neg_r _ (i - 64)) by lia.
    by rewrite orb_false_r.
  - rewrite (testbit_small (part0 f) 32), (testbit_small (part1 f) 32) by lia. done.
Qed.

(** The bitwise operators stay in the range of the type. *)
Ltac flag_bits_ok :=
  unfold flag_ok; cbn; split; [|split];
  (apply in_width_land || apply in_width_lor || apply in_width_lxor); done.

Lemma flag_value_range f : flag_ok f -> in_width 96 (flag_value f).
Proof. unfold flag_ok, in_width, flag_value. lia. Qed.

(** A flag set is its 96-bit number: [operator<] is the order of the
    numbers (so a strict total order, usable as a map key), [operator==] their
    equality, and the bitwise operators act on the whole number. *)
Theorem flag96_as_number (f g : flag96) :
  flag_ok f -> flag_ok g ->
  flag_lt f g = (flag_value f <? flag_value g) /\
  flag_eq f g = (flag_value f =? flag_value g) /\
  flag_value (flag_and f g) = Z.land (flag_value f) (flag_value g) /\
  flag_value (flag_or f g) = Z.lor (flag_value f) (flag_value g) /\
  flag_value (flag_xor f g) = Z.lxor (flag_value f) (flag_value g) /\
  flag_value (flag_not f) = 2 ^ 96 - 1 - flag_value f /\
  flag_bool f = negb (flag_value f =? 0).
Proof.
  intros Hf Hg. pose proof Hf as (F0 & F1 & F2). pose proof Hg as (G0 & G1 & G2).
  split; [|split; [|split; [|split; [|split; [|split]]]]].
  - unfold in_width, flag_lt, flag_value, flag_lt_loop, flag_part in *. zbool.
    repeat match goal with |- context [if ?x <? ?y then _ else _] => destruct (Z.ltb_spec x y) end;
      symmetry; (apply Z.ltb_lt || apply Z.ltb_ge); lia.
  - unfold in_width, flag_eq, flag_value in *.
    destruct (Z.eqb_spec (part0 f) (part0 g)), (Z.eqb_spec (part1 f) (part1 g)),
      (Z.eqb_spec (part2 f) (part2 g)); cbn [andb]; symmetry;
      (apply Z.eqb_eq || apply Z.eqb_neq); lia.
  - apply Z.bits_inj'. intros i Hi. rewrite Z.land_spec, !flag_value_testbit by
      (done || flag_bits_ok). cbn [part0 part1 part2 flag_and].
    destruct (i <? 32); [|destruct (i <? 64)]; apply Z.land_spec.
  - apply Z.bits_inj'. intros i Hi. rewrite Z.lor_spec, !flag_value_testbit by
      (done || flag_bits_ok). cbn [part0 part1 part2 flag_or].
    destruct (i <? 32); [|destruct (i <? 64)]; apply Z.lor_spec.
  - apply Z.bits_inj'. intros i Hi. rewrite Z.lxor_spec, !flag_value_testbit by
      (done || flag_bits_ok). cbn [part0 part1 part2 flag_xor].
    destruct (i <? 32); [|destruct (i <? 64)]; apply Z.lxor_spec.
  - unfold flag_not, flag_value. cbn [part0 part1 part2].
    rewrite !wrap_lnot by (done || lia). lia.
  - unfold in_width, flag_bool, flag_value in *.
    destruct (Z.eqb_spec (part0 f) 0), (Z.eqb_spec (part1 f) 0), (Z.eqb_spec (part2 f) 0);
      cbn [negb orb]; symmetry; (apply negb_true_iff, Z.eqb_neq || apply negb_false_iff, Z.eqb_eq); lia.
Qed.

Lemma flag96_as_number_witness :
  let f := mkFlag96 1 0 0x80000000 in let g := mkFlag96 0xFFFFFFFF 7 0 in
  flag_lt f g = (flag_value f <? flag_value g) /\
  flag_eq f g = (flag_value f =? flag_value g) /\
  flag_value (flag_and f g) = Z.land (flag_value f) (flag_value g) /\
  flag_value (flag_or f g) = Z.lor (flag_value f) (flag_value g) /\
  flag_value (flag_xor f g) = Z.lxor (flag_value f) (flag_value g) /\
  flag_value (flag_not f) = 2 ^ 96 - 1 - flag_value f /\
  flag_bool f = negb (flag_value f =? 0).
Proof. intros f g. apply (flag96_as_number f g); by vm_compute. Defined.
