(* ===== verification/Utf8.v ===== *)
(** * UTF-8 and UTF-16 (utf8cpp)

    The library of [src/dep/utf8cpp] ([utf8/core.h], [utf8/checked.h]) with which the server converts texts.  An iterator over octets
    or 16-bit units is the list of what lies between it and [end]; an output
    iterator is a buffer of fixed size and a position in it, and a write past
    the buffer is undefined behaviour.  A [char] is the number of its bit
    pattern, 0 to 255; every use of one in the library masks it. *)

From S2P Require Import Prelude.

(** ** core.h: constants and classes of units *)

Definition LEAD_SURROGATE_MIN : Z := 0xd800.
Definition LEAD_SURROGATE_MAX : Z := 0xdbff.
Definition TRAIL_SURROGATE_MIN : Z := 0xdc00.
Definition TRAIL_SURROGATE_MAX : Z := 0xdfff.
Definition LEAD_OFFSET : Z := u16 (LEAD_SURROGATE_MIN - Z.shiftr 0x10000 10).
Definition SURROGATE_OFFSET : Z :=
  u32 (0x10000 - Z.shiftl LEAD_SURROGATE_MIN 10 - TRAIL_SURROGATE_MIN).
Definition CODE_POINT_MAX : Z := 0x10ffff.

Definition mask8 (oc : Z) : Z := u8 (Z.land 0xff oc).
Definition mask16 (oc : Z) : Z := u16 (Z.land 0xffff oc).
Definition is_trail (oc : Z) : bool := Z.shiftr (mask8 oc) 6 =? 0x2.
Definition is_lead_surrogate (cp : Z) : bool :=
  (LEAD_SURROGATE_MIN <=? cp) && (cp <=? LEAD_SURROGATE_MAX).
Definition is_trail_surrogate (cp : Z) : bool :=
  (TRAIL_SURROGATE_MIN <=? cp) && (cp <=? TRAIL_SURROGATE_MAX).
Definition is_surrogate (cp : Z) : bool :=
  (LEAD_SURROGATE_MIN <=? cp) && (cp <=? TRAIL_SURROGATE_MAX).
Definition is_code_point_valid (cp : Z) : bool :=
  (cp <=? CODE_POINT_MAX) && negb (is_surrogate cp).

(** [sequence_length(lead_it)], given [*lead_it]. *)
Definition sequence_length (lead_octet : Z) : Z :=
  let lead := mask8 lead_octet in
  if lead <? 0x80 then 1
  else if Z.shiftr lead 5 =? 0x6 then 2
  else if Z.shiftr lead 4 =? 0xe then 3
  else if Z.shiftr lead 3 =? 0x1e then 4
  else 0.

Definition is_overlong_sequence (cp length : Z) : bool :=
  if cp <? 0x80 then negb (length =? 1)
  else if cp <? 0x800 then negb (length =? 2)
  else if cp <? 0x10000 then negb (length =? 3)
  else false.

(** ** Iterators *)

(** [*it]; the library reads it only before [end]. *)
Definition deref {E} : M (list Z) E Z := fun it =>
  match it with [] => Abort UndefinedBehaviour | c :: _ => Ok c it end.
(** [++it] *)
Definition advance {E} : M (list Z) E () := fun it =>
  match it with [] => Abort UndefinedBehaviour | _ :: it' => Ok () it' end.
(** [it == end] *)
Definition it_end {E} : M (list Z) E bool :=
  gets (fun it => match it with [] => true | _ :: _ => false end).
(** [*it++] *)
Definition pop {E} : M (list Z) E Z := c ← deref; advance;; mret c.

(** ** core.h: decoding one sequence *)

(** The values of [utf_error] that are errors; [UTF8_OK] is the normal return,
    and returning an error is [throw]. *)
Inductive utf_error :=
| NOT_ENOUGH_ROOM | INVALID_LEAD | INCOMPLETE_SEQUENCE | OVERLONG_SEQUENCE | INVALID_CODE_POINT.

Definition octets := M (list Z) utf_error.

Definition increase_safely : octets () :=
  advance;;
  e ← it_end;
  if e : bool then throw NOT_ENOUGH_ROOM else
  c ← deref;
  if is_trail c then mret () else throw INCOMPLETE_SEQUENCE.

(** The [get_sequence_x] leave [it] on the last octet of the sequence.  No
    intermediate value reaches [2 ^ 32]. *)
Definition get_sequence_1 : octets Z :=
  e ← it_end;
  if e : bool then throw NOT_ENOUGH_ROOM else
  c ← deref;
  mret (mask8 c).

Definition get_sequence_2 : octets Z :=
  e ← it_end;
  if e : bool then throw NOT_ENOUGH_ROOM else
  c ← deref;
  let code_point := mask8 c in
  increase_safely;;
  c ← deref;
  mret (Z.land (Z.shiftl code_point 6) 0x7ff + Z.land c 0x3f).

Definition get_sequence_3 : octets Z :=
  e ← it_end;
  if e : bool then throw NOT_ENOUGH_ROOM else
  c ← deref;
  let code_point := mask8 c in
  increase_safely;;
  c ← deref;
  let code_point := Z.land (Z.shiftl code_point 12) 0xffff +
                    Z.land (Z.shiftl (mask8 c) 6) 0xfff in
  increase_safely;;
  c ← deref;
  mret (code_point + Z.land c 0x3f).

Definition get_sequence_4 : octets Z :=
  e ← it_end;
  if e : bool then throw NOT_ENOUGH_ROOM else
  c ← deref;
  let code_point := mask8 c in
  increase_safely;;
  c ← deref;
  let code_point := Z.land (Z.shiftl code_point 18) 0x1fffff +
                    Z.land (Z.shiftl (mask8 c) 12) 0x3ffff in
  increase_safely;;
  c ← deref;
  let code_point := code_point + Z.land (Z.shiftl (mask8 c) 6) 0xfff in
  increase_safely;;
  c ← deref;
  mret (code_point + Z.land c 0x3f).

(** The [switch] of [validate_next]. *)
Definition get_sequence (length : Z) : octets Z :=
  if length =? 1 then get_sequence_1
  else if length =? 2 then get_sequence_2
  else if length =? 3 then get_sequence_3
  else if length =? 4 then get_sequence_4
  else throw INVALID_LEAD.

(** On failure the iterator is put back. *)
Definition validate_next : octets Z := fun original_it =>
  try_catch
    (lead ← deref;
     let length := sequence_length lead in
     cp ← get_sequence length;
     if is_code_point_valid cp then
       if negb (is_overlong_sequence cp length) then advance;; mret cp
       else throw OVERLONG_SEQUENCE
     else throw INVALID_CODE_POINT)
    (fun err => putS original_it;; throw err) original_it.

(** [find_invalid(start, end)]: what is left from the first invalid sequence
    on.  The fuel is the number of octets. *)
Fixpoint find_invalid_loop (fuel : nat) (result : list Z) : option (list Z) :=
  match fuel with
  | O => None
  | S fuel' =>
      match result with
      | [] => Some result
      | _ :: _ =>
          match validate_next result with
          | Ok _ result' => find_invalid_loop fuel' result'
          | Throw _ _ => Some result
          | Abort _ => None
          end
      end
  end.
Definition find_invalid (start : list Z) : option (list Z) :=
  find_invalid_loop (S (length start)) start.
(** [find_invalid(start, end) == end] *)
Definition is_valid (start : list Z) : bool :=
  match find_invalid start with Some [] => true | _ => false end.

(** ** checked.h *)

(** The exceptions, all derived from [utf8::exception]. *)
Inductive utf8_exception :=
| invalid_code_point (cp : Z)
| invalid_utf8 (u8 : Z)
| invalid_utf16 (u16 : Z)
| not_enough_room.

(** [next]: [cp] keeps its initial value 0 when [validate_next] fails. *)
Definition next : M (list Z) utf8_exception Z :=
  try_catch validate_next (fun err =>
    match err with
    | NOT_ENOUGH_ROOM => throw not_enough_room
    | INVALID_LEAD | INCOMPLETE_SEQUENCE | OVERLONG_SEQUENCE =>
        c ← deref; throw (invalid_utf8 (u8 c))
    | INVALID_CODE_POINT => throw (invalid_code_point 0)
    end).

(** [distance(first, last)]: the number of code points. *)
Fixpoint distance_loop (fuel : nat) (dist : Z) : M (list Z) utf8_exception Z :=
  match fuel with
  | O => abort UndefinedBehaviour
  | S fuel' =>
      e ← it_end;
      if e : bool then mret dist else
      _ ← next;
      distance_loop fuel' (dist + 1)
  end.
Definition distance (text : list Z) : result (list Z) utf8_exception Z :=
  distance_loop (S (length text)) 0 text.

(** An output iterator into the buffer [buf]. *)
Record out_iterator := mkOut { buf : list Z; pos : Z }.

(** [*result++ = x] *)
Definition put {E} (x : Z) : M out_iterator E () := fun o =>
  if pos o <? zlen (buf o)
  then Ok () (mkOut (<[Z.to_nat (pos o) := x]> (buf o)) (pos o + 1))
  else Abort UndefinedBehaviour.

Definition append (cp : Z) : M out_iterator utf8_exception () :=
  if negb (is_code_point_valid cp) then throw (invalid_code_point cp) else
  if cp <? 0x80 then put (u8 cp)
  else if cp <? 0x800 then
    put (u8 (Z.lor (Z.shiftr cp 6) 0xc0));;
    put (u8 (Z.lor (Z.land cp 0x3f) 0x80))
  else if cp <? 0x10000 then
    put (u8 (Z.lor (Z.shiftr cp 12) 0xe0));;
    put (u8 (Z.lor (Z.land (Z.shiftr cp 6) 0x3f) 0x80));;
    put (u8 (Z.lor (Z.land cp 0x3f) 0x80))
  else
    put (u8 (Z.lor (Z.shiftr cp 18) 0xf0));;
    put (u8 (Z.lor (Z.land (Z.shiftr cp 12) 0x3f) 0x80));;
    put (u8 (Z.lor (Z.land (Z.shiftr cp 6) 0x3f) 0x80));;
    put (u8 (Z.lor (Z.land cp 0x3f) 0x80)).

(** The state of a conversion: the input and the output iterator. *)
Record conv := mkConv { start : list Z; res : out_iterator }.
#[export] Instance conv_settable : Settable conv := fun c => mkConv (start c) (res c).
Definition input {E A} (m : M (list Z) E A) : M conv E A :=
  zoom start (fun it c => c <| start := it |>) m.
Definition output {E A} (m : M out_iterator E A) : M conv E A :=
  zoom res (fun o c => c <| res := o |>) m.

Definition utf16to8_step : M conv utf8_exception () :=
  c ← input pop;
  let cp := mask16 c in
  cp ← (if is_lead_surrogate cp then
          e ← input it_end;
          if e : bool then throw (invalid_utf16 (u16 cp)) else
          c' ← input pop;
          let trail_surrogate := mask16 c' in
          if is_trail_surrogate trail_surrogate
          then mret (u32 (Z.shiftl cp 10 + trail_surrogate + SURROGATE_OFFSET))
          else throw (invalid_utf16 (u16 trail_surrogate))
        else if is_trail_surrogate cp then throw (invalid_utf16 (u16 cp))
        else mret cp);
  output (append cp).

Fixpoint utf16to8_loop (fuel : nat) : M conv utf8_exception () :=
  match fuel with
  | O => abort UndefinedBehaviour
  | S fuel' =>
      e ← input it_end;
      if e : bool then mret () else utf16to8_step;; utf16to8_loop fuel'
  end.

(** [utf16to8(start, end, result)], from the output iterator [result]. *)
Definition utf16to8 (text : list Z) : M out_iterator utf8_exception () := fun result =>
  match utf16to8_loop (S (length text)) (mkConv text result) with
  | Ok _ c => Ok () (res c)
  | Throw e c => Throw e (res c)
  | Abort r => Abort r
  end.

Definition utf8to16_step : M conv utf8_exception () :=
  cp ← input next;
  if 0xffff <? cp then
    output (put (u16 (Z.shiftr cp 10 + LEAD_OFFSET)));;
    output (put (u16 (Z.land cp 0x3ff + TRAIL_SURROGATE_MIN)))
  else output (put (u16 cp)).

Fixpoint utf8to16_loop (fuel : nat) : M conv utf8_exception () :=
  match fuel with
  | O => abort UndefinedBehaviour
  | S fuel' =>
      e ← input it_end;
      if e : bool then mret () else utf8to16_step;; utf8to16_loop fuel'
  end.

Definition utf8to16 (text : list Z) : M out_iterator utf8_exception () := fun result =>
  match utf8to16_loop (S (length text)) (mkConv text result) with
  | Ok _ c => Ok () (res c)
  | Throw e c => Throw e (res c)
  | Abort r => Abort r
  end.

#[global] Arguments distance : simpl never.
#[global] Arguments utf8to16 : simpl never.
#[global] Arguments utf16to8 : simpl never.
