(* ===== verification/Utf8Props.v ===== *)
(** * UTF-8 and UTF-16: the reference encodings

    The encodings of a code point as RFC 3629 and RFC 2781 define them, in
    arithmetic, and the library against them: [validate_next] accepts exactly
    the encodings, [append] and the conversions write exactly them, and how much
    room they need. *)

From S2P Require Import Prelude Utf8.

(** ** The reference *)

(** A Unicode scalar value. *)
Definition scalar (cp : Z) : Prop := 0 <= cp <= 0x10ffff /\ ~ (0xd800 <= cp <= 0xdfff).
(** A character of the basic multilingual plane, which is one 16-bit unit. *)
Definition bmp (cp : Z) : Prop := scalar cp /\ cp <= 0xffff.
Definition octet (c : Z) : Prop := 0 <= c < 256.

#[export] Instance scalar_dec cp : Decision (scalar cp).
Proof. unfold scalar. apply _. Defined.
#[export] Instance bmp_dec cp : Decision (bmp cp).
Proof. unfold bmp. apply _. Defined.

Definition utf8_bytes (cp : Z) : list Z :=
  if cp <? 0x80 then [cp]
  else if cp <? 0x800 then [0xc0 + cp / 64; 0x80 + cp mod 64]
  else if cp <? 0x10000 then
    [0xe0 + cp / 4096; 0x80 + cp / 64 mod 64; 0x80 + cp mod 64]
  else [0xf0 + cp / 262144; 0x80 + cp / 4096 mod 64; 0x80 + cp / 64 mod 64; 0x80 + cp mod 64].

Definition utf16_units (cp : Z) : list Z :=
  if cp <? 0x10000 then [cp]
  else [0xd800 + (cp - 0x10000) / 1024; 0xdc00 + (cp - 0x10000) mod 1024].

Definition utf8_text (cps : list Z) : list Z := concat (map utf8_bytes cps).
Definition utf16_text (cps : list Z) : list Z := concat (map utf16_units cps).

(** ** Octets *)

Lemma sequence_length_lead c :
  octet c ->
  sequence_length c =
  if c <? 0x80 then 1 else if c <? 0xc0 then 0 else if c <? 0xe0 then 2
  else if c <? 0xf0 then 3 else if c <? 0xf8 then 4 else 0.
Proof. revert c. apply (forall_below _). vm_compute. reflexivity. Qed.

Lemma mask8_octet c : octet c -> mask8 c = c.
Proof. revert c. apply (forall_below _). vm_compute. reflexivity. Qed.

Lemma trail_octet b :
  0 <= b < 64 ->
  is_trail (0x80 + b) = true /\ Z.land (0x80 + b) 0x3f = b /\
  Z.land (Z.shiftl (mask8 (0x80 + b)) 6) 0xfff = b * 64 /\
  Z.land (Z.shiftl (mask8 (0x80 + b)) 12) 0x3ffff = b * 4096.
Proof. revert b. apply (forall_below _). vm_compute. reflexivity. Qed.

Lemma is_trail_inv c : octet c -> is_trail c = true -> exists b, 0 <= b < 64 /\ c = 0x80 + b.
Proof.
  intros Hc Ht. exists (c - 0x80). split; [|lia].
  revert Ht. revert c Hc.
  apply (forall_below (fun c => is_trail c = true -> 0 <= c - 0x80 < 64)). vm_compute. reflexivity.
Qed.

Lemma lead2 a :
  0 <= a < 32 -> Z.land (Z.shiftl (mask8 (0xc0 + a)) 6) 0x7ff = a * 64.
Proof. revert a. apply (forall_below _). vm_compute. reflexivity. Qed.
Lemma lead3 a :
  0 <= a < 16 -> Z.land (Z.shiftl (mask8 (0xe0 + a)) 12) 0xffff = a * 4096.
Proof. revert a. apply (forall_below _). vm_compute. reflexivity. Qed.
Lemma lead4 a :
  0 <= a < 8 -> Z.land (Z.shiftl (mask8 (0xf0 + a)) 18) 0x1fffff = a * 262144.
Proof. revert a. apply (forall_below _). vm_compute. reflexivity. Qed.

Lemma scalar_valid cp : 0 <= cp -> is_code_point_valid cp = true <-> scalar cp.
Proof.
  intros Hcp. unfold is_code_point_valid, is_surrogate, CODE_POINT_MAX, LEAD_SURROGATE_MIN,
    TRAIL_SURROGATE_MAX, scalar.
  rewrite andb_true_iff, negb_true_iff, andb_false_iff, Z.leb_le, !Z.leb_gt. lia.
Qed.

(** ** Decoding one sequence *)

(** What [validate_next] makes of a sequence of [n] octets that decodes to
    [cp]. *)
Definition check (it : list Z) (cp n : Z) (rest : list Z) : result (list Z) utf_error Z :=
  if is_code_point_valid cp then
    if is_overlong_sequence cp n then Throw OVERLONG_SEQUENCE it else Ok cp rest
  else Throw INVALID_CODE_POINT it.

Ltac vn_run :=
  unfold validate_next, try_catch, get_sequence, get_sequence_1, get_sequence_2, get_sequence_3,
    get_sequence_4, increase_safely, it_end, deref, advance, check; run.

Ltac vn_cases :=
  destruct is_code_point_valid; cbn; [destruct is_overlong_sequence|]; reflexivity.

Lemma vn1 c rest :
  0 <= c < 0x80 -> validate_next (c :: rest) = Ok c rest.
Proof.
  intros Hc. vn_run. rewrite sequence_length_lead by (unfold octet; lia). zbool. cbn.
  rewrite mask8_octet by (unfold octet; lia).
  rewrite (proj2 (scalar_valid c ltac:(lia))) by (unfold scalar; lia).
  unfold is_overlong_sequence. zbool. reflexivity.
Qed.

Lemma vn2 a b rest :
  0 <= a < 32 -> 0 <= b < 64 ->
  let it := 0xc0 + a :: 0x80 + b :: rest in
  validate_next it = check it (a * 64 + b) 2 rest.
Proof.
  intros Ha Hb it. unfold it. destruct (trail_octet b Hb) as (T1 & T2 & _).
  vn_run. rewrite sequence_length_lead by (unfold octet; lia). zbool. cbn.
  rewrite T1. cbn. rewrite T2, lead2 by lia.
  vn_cases.
Qed.

Lemma vn3 a b c rest :
  0 <= a < 16 -> 0 <= b < 64 -> 0 <= c < 64 ->
  let it := 0xe0 + a :: 0x80 + b :: 0x80 + c :: rest in
  validate_next it = check it (a * 4096 + b * 64 + c) 3 rest.
Proof.
  intros Ha Hb Hc it. unfold it.
  destruct (trail_octet b Hb) as (T1 & T2 & T3 & _), (trail_octet c Hc) as (U1 & U2 & _).
  vn_run. rewrite sequence_length_lead by (unfold octet; lia). zbool. cbn.
  rewrite T1. cbn. rewrite U1. cbn. rewrite U2, T3, lead3 by lia.
  vn_cases.
Qed.

Lemma vn4 a b c d rest :
  0 <= a < 8 -> 0 <= b < 64 -> 0 <= c < 64 -> 0 <= d < 64 ->
  let it := 0xf0 + a :: 0x80 + b :: 0x80 + c :: 0x80 + d :: rest in
  validate_next it = check it (a * 262144 + b * 4096 + c * 64 + d) 4 rest.
Proof.
  intros Ha Hb Hc Hd it. unfold it.
  destruct (trail_octet b Hb) as (T1 & T2 & T3 & T4), (trail_octet c Hc) as (U1 & U2 & U3 & _),
    (trail_octet d Hd) as (V1 & V2 & _).
  vn_run. rewrite sequence_length_lead by (unfold octet; lia). zbool. cbn.
  rewrite T1. cbn. rewrite U1. cbn. rewrite V1. cbn. rewrite V2, U3, T4, lead4 by lia.
  vn_cases.
Qed.

Ltac byte_arith := unfold utf8_bytes; zbool; cbn [app]; repeat (apply (f_equal2 cons); [divmod_lia|]).

Lemma check_ok it cp n rest :
  scalar cp -> is_overlong_sequence cp n = false -> check it cp n rest = Ok cp rest.
Proof.
  intros Hs Ho. unfold check. rewrite (proj2 (scalar_valid cp ltac:(unfold scalar in *; lia)) Hs).
  by rewrite Ho.
Qed.

(** The encoding of a scalar value is decoded to it. *)
Lemma validate_next_encode cp rest :
  scalar cp -> validate_next (utf8_bytes cp ++ rest) = Ok cp rest.
Proof.
  intros Hs. pose proof Hs as [Hr _]. unfold utf8_bytes.
  destruct (Z.ltb_spec cp 0x80); [|destruct (Z.ltb_spec cp 0x800);
    [|destruct (Z.ltb_spec cp 0x10000)]]; cbn [app].
  - apply vn1. lia.
  - rewrite vn2 by divmod_lia. replace (cp / 64 * 64 + cp mod 64) with cp by divmod_lia.
    apply check_ok; [done|]. unfold is_overlong_sequence. zbool. done.
  - rewrite vn3 by divmod_lia.
    replace (cp / 4096 * 4096 + cp / 64 mod 64 * 64 + cp mod 64) with cp by divmod_lia.
    apply check_ok; [done|]. unfold is_overlong_sequence. zbool. done.
  - rewrite vn4 by divmod_lia.
    replace (cp / 262144 * 262144 + cp / 4096 mod 64 * 4096 + cp / 64 mod 64 * 64 + cp mod 64)
      with cp by divmod_lia.
    apply check_ok; [done|]. unfold is_overlong_sequence. zbool. done.
Qed.

(** Either [s] starts with the encoding of a scalar value and it is decoded, or
    decoding fails and the iterator stays. *)
Definition decodes_or_fails (s : list Z) : Prop :=
  (exists cp rest, scalar cp /\ s = utf8_bytes cp ++ rest /\ validate_next s = Ok cp rest) \/
  (exists err, validate_next s = Throw err s).

Lemma check_cases s cp n rest :
  0 <= cp -> validate_next s = check s cp n rest ->
  (is_overlong_sequence cp n = false -> s = utf8_bytes cp ++ rest) -> decodes_or_fails s.
Proof.
  intros Hcp Hv Hs. unfold check in Hv. destruct (is_code_point_valid cp) eqn:Hc.
  - destruct (is_overlong_sequence cp n) eqn:Ho; [right; eauto|].
    left. exists cp, rest. rewrite scalar_valid in Hc by done. auto.
  - right. eauto.
Qed.

(** The rest ends before the sequence does, or an octet of it is not a trail. *)
Ltac vn_short :=
  right; vn_run; rewrite sequence_length_lead by (unfold octet in *; lia); zbool; cbn;
  repeat match goal with H : is_trail _ = _ |- _ => rewrite H; cbn end; eauto.

(** Take one trail octet [0x80 + b] off the rest [s]. *)
Ltac vn_trail s b :=
  let y := fresh "y" in let Hy := fresh in let Ty := fresh "Ty" in
  destruct s as [|y s]; [vn_short|];
  match goal with H : Forall octet (_ :: _) |- _ => apply Forall_cons in H as [Hy H] end;
  destruct (is_trail y) eqn:Ty; [|vn_short];
  destruct (is_trail_inv y Hy Ty) as (b & ? & ->).

Ltac vn_not_overlong :=
  unfold is_overlong_sequence;
  repeat match goal with |- context [?x <? ?y] => destruct (Z.ltb_spec x y) end;
  intros [=]; first [lia | byte_arith; reflexivity].

Lemma cases1 x s : 0 <= x < 0x80 -> decodes_or_fails (x :: s).
Proof.
  intros Hx. apply (check_cases _ x 1 s); [lia| |]; [|intros _; unfold utf8_bytes; by zbool].
  rewrite vn1 by lia. symmetry. apply check_ok; [unfold scalar; lia|].
  unfold is_overlong_sequence. by zbool.
Qed.

Lemma cases2 x s : 0xc0 <= x < 0xe0 -> Forall octet s -> decodes_or_fails (x :: s).
Proof.
  intros Hx Hs. vn_trail s b. remember (x - 0xc0) as a eqn:Ha. replace x with (0xc0 + a) by lia.
  apply (check_cases _ (a * 64 + b) 2 s); [lia|apply vn2; lia|vn_not_overlong].
Qed.

Lemma cases3 x s : 0xe0 <= x < 0xf0 -> Forall octet s -> decodes_or_fails (x :: s).
Proof.
  intros Hx Hs. vn_trail s b. vn_trail s c. remember (x - 0xe0) as a eqn:Ha. replace x with (0xe0 + a) by lia.
  apply (check_cases _ (a * 4096 + b * 64 + c) 3 s); [lia|apply vn3; lia|vn_not_overlong].
Qed.

Lemma cases4 x s : 0xf0 <= x < 0xf8 -> Forall octet s -> decodes_or_fails (x :: s).
Proof.
  intros Hx Hs. vn_trail s b. vn_trail s c. vn_trail s d.
  remember (x - 0xf0) as a eqn:Ha. replace x with (0xf0 + a) by lia.
  apply (check_cases _ (a * 262144 + b * 4096 + c * 64 + d) 4 s);
    [lia|apply vn4; lia|vn_not_overlong].
Qed.

Lemma validate_next_cases s : s <> [] -> Forall octet s -> decodes_or_fails s.
Proof.
  intros Hne Hs. destruct s as [|x s]; [done|]. apply Forall_cons in Hs as [Hx Hs].
  pose proof Hx as Hx'. unfold octet in Hx'.
  destruct (Z.ltb_spec x 0x80); [apply cases1; lia|].
  destruct (Z.ltb_spec x 0xc0); [vn_short|].
  destruct (Z.ltb_spec x 0xe0); [apply cases2; [lia|done]|].
  destruct (Z.ltb_spec x 0xf0); [apply cases3; [lia|done]|].
  destruct (Z.ltb_spec x 0xf8); [apply cases4; [lia|done]|vn_short].
Qed.

(** ** Texts *)

(** No sequence can be decoded at the start of [rest]: it is the end, or
    [validate_next] refuses it. *)
Definition stuck (rest : list Z) : Prop :=
  rest = [] \/ (rest <> [] /\ exists err, validate_next rest = Throw err rest).

Lemma utf8_bytes_length cp : (1 <= length (utf8_bytes cp) <= 4)%nat.
Proof. unfold utf8_bytes. repeat case_match; cbn; lia. Qed.

Lemma utf16_units_length cp : (1 <= length (utf16_units cp) <= 2)%nat.
Proof. unfold utf16_units. case_match; cbn; lia. Qed.

Lemma utf8_text_cons cp cps : utf8_text (cp :: cps) = utf8_bytes cp ++ utf8_text cps.
Proof. done. Qed.

Lemma utf16_text_cons cp cps : utf16_text (cp :: cps) = utf16_units cp ++ utf16_text cps.
Proof. done. Qed.

Lemma utf8_text_length cps : (length cps <= length (utf8_text cps))%nat.
Proof.
  induction cps as [|cp cps IH]; [done|]. rewrite utf8_text_cons, length_app. cbn [length].
  pose proof (utf8_bytes_length cp). lia.
Qed.

(** Octets are the encoding of code points, as far as they can be decoded. *)
Lemma utf8_split s :
  Forall octet s ->
  exists cps rest, s = utf8_text cps ++ rest /\ Forall scalar cps /\ stuck rest.
Proof.
  induction s as [s IH] using (induction_ltof1 _ (@length Z)). intros Hs.
  destruct (decide (s = [])) as [->|Hne].
  { exists [], []. split; [done|]. split; [constructor|by left]. }
  destruct (validate_next_cases s Hne Hs) as [(cp & rest & Hcp & -> & _)|[err Herr]].
  - apply Forall_app in Hs as [_ Hrest].
    destruct (IH rest) as (cps & rest' & -> & Hcps & Hstuck); [|done|].
    { unfold ltof. rewrite length_app. pose proof (utf8_bytes_length cp). lia. }
    exists (cp :: cps), rest'. rewrite utf8_text_cons, <- app_assoc. auto.
  - exists [], s. split; [done|]. split; [constructor|]. right. eauto.
Qed.

Lemma bytes_app_cons cp l : exists x l', utf8_bytes cp ++ l = x :: l'.
Proof. unfold utf8_bytes. repeat case_match; cbn [app]; eauto. Qed.

Lemma it_end_bytes {E} cp l :
  it_end (E := E) (utf8_bytes cp ++ l) = Ok false (utf8_bytes cp ++ l).
Proof. unfold it_end. run. by destruct (bytes_app_cons cp l) as (x & l' & ->). Qed.

(** A loop over the sequences of a text takes one step for each code point. *)
Lemma find_invalid_text_loop cps rest fuel :
  Forall scalar cps -> stuck rest -> (length cps < fuel)%nat ->
  find_invalid_loop fuel (utf8_text cps ++ rest) = Some rest.
Proof.
  intros Hcps Hrest. revert fuel. induction Hcps as [|cp cps Hcp Hcps IH]; intros fuel Hf.
  - destruct fuel as [|fuel]; [lia|]. cbn [utf8_text map concat app find_invalid_loop].
    destruct Hrest as [->|[Hne [err Herr]]]; [done|]. destruct rest; [done|]. by rewrite Herr.
  - destruct fuel as [|fuel]; [cbn in Hf; lia|]. rewrite utf8_text_cons, <- app_assoc.
    cbn [find_invalid_loop]. rewrite validate_next_encode by done.
    destruct (bytes_app_cons cp (utf8_text cps ++ rest)) as (x & l & ->).
    apply IH. cbn in Hf. lia.
Qed.

Lemma find_invalid_text cps rest :
  Forall scalar cps -> stuck rest -> find_invalid (utf8_text cps ++ rest) = Some rest.
Proof.
  intros. apply find_invalid_text_loop; [done..|]. rewrite length_app.
  pose proof (utf8_text_length cps). lia.
Qed.

(** [next] at the start of a text, and where it is stuck. *)
Lemma next_encode cp rest : scalar cp -> next (utf8_bytes cp ++ rest) = Ok cp rest.
Proof. intros. unfold next, try_catch. by rewrite validate_next_encode. Qed.

Lemma next_stuck rest : stuck rest -> rest <> [] -> exists e, next rest = Throw e rest.
Proof.
  intros [->|[Hne [err Herr]]] Hne'; [done|]. unfold next, try_catch. rewrite Herr.
  destruct rest; [done|]. destruct err; run; eauto.
Qed.

Lemma distance_text_loop cps rest fuel dist :
  Forall scalar cps -> stuck rest -> (length cps < fuel)%nat ->
  (rest = [] -> distance_loop fuel dist (utf8_text cps ++ rest) = Ok (dist + zlen cps) []) /\
  (rest <> [] -> exists e, distance_loop fuel dist (utf8_text cps ++ rest) = Throw e rest).
Proof.
  intros Hcps Hrest. revert fuel dist. induction Hcps as [|cp cps Hcp Hcps IH]; intros fuel dist Hf;
    (destruct fuel as [|fuel]; [cbn in Hf; lia|]).
  - cbn [utf8_text map concat app distance_loop]. split.
    + intros ->. unfold it_end. run. by rewrite Z.add_0_r.
    + intros Hne. destruct (next_stuck rest Hrest Hne) as [e He]. exists e.
      unfold it_end. run. destruct rest; [done|]. by rewrite He.
  - rewrite utf8_text_cons, <- app_assoc. cbn [distance_loop].
    destruct (IH fuel (dist + 1)) as [IH1 IH2]; [cbn in Hf; lia|].
    assert (Hstep : (e ← it_end; if e : bool then mret dist else
                     _ ← next; distance_loop fuel (dist + 1))
                      (utf8_bytes cp ++ utf8_text cps ++ rest) =
                    distance_loop fuel (dist + 1) (utf8_text cps ++ rest)).
    { rewrite (bind_run _ _ _ _ _ (it_end_bytes _ _)).
      exact (bind_run _ _ _ _ _ (next_encode cp _ Hcp)). }
    rewrite Hstep, zlen_cons, Z.add_assoc. auto.
Qed.

(** [utf8::distance] counts the code points of a text, and throws on anything
    else. *)
Lemma distance_text cps : Forall scalar cps -> distance (utf8_text cps) = Ok (zlen cps) [].
Proof.
  intros Hcps. unfold distance. pose proof (utf8_text_length cps).
  destruct (distance_text_loop cps [] (S (length (utf8_text cps))) 0) as [H1 _];
    [done|by left|lia|].
  rewrite app_nil_r in H1. by apply H1.
Qed.

Lemma distance_invalid cps rest :
  Forall scalar cps -> stuck rest -> rest <> [] ->
  exists e, distance (utf8_text cps ++ rest) = Throw e rest.
Proof.
  intros Hcps Hrest Hne. unfold distance. rewrite length_app. pose proof (utf8_text_length cps).
  destruct (distance_text_loop cps rest (S (length (utf8_text cps) + length rest)) 0) as [_ H2];
    [done..|lia|]. auto.
Qed.

(** ** Writing *)

(** The units [l] written through the iterator, one after the other. *)
Definition put_list (l : list Z) : M out_iterator utf8_exception () := for_each l put.

Lemma put_list_app l1 l2 o : put_list (l1 ++ l2) o = (put_list l1;; put_list l2) o.
Proof. apply for_each_app. Qed.

Lemma put_list_no_throw l o e o' : put_list l o <> Throw e o'.
Proof.
  revert o. induction l as [|x l IH]; intros o; [done|].
  change (put_list (x :: l) o) with ((put x;; put_list l) o). unfold mbind, M_bind, put.
  case_match; case_match; naive_solver.
Qed.

(** Either all fit, and replace what was in the buffer there, or the buffer is
    overrun. *)
Lemma put_list_run l o :
  0 <= pos o <= zlen (buf o) ->
  put_list l o =
  if pos o + zlen l <=? zlen (buf o)
  then Ok () (mkOut (ztake (pos o) (buf o) ++ l ++ zdrop (pos o + zlen l) (buf o)) (pos o + zlen l))
  else Abort UndefinedBehaviour.
Proof.
  revert o. induction l as [|x l IH]; intros [b p]; cbn [buf pos]; intros Hp.
  - cbn. rewrite zlen_nil, Z.add_0_r. zbool. cbn. f_equal. f_equal. symmetry. apply take_drop.
  - unfold put_list. cbn [for_each]. fold (put_list l). rewrite zlen_cons.
    unfold put at 1. run. cbn [buf pos]. destruct (Z.ltb_spec p (zlen b)).
    + rewrite IH by (cbn [buf pos]; unfold zlen in *; rewrite length_insert; lia). cbn [buf pos].
      assert (Hl : zlen (<[Z.to_nat p := x]> b) = zlen b)
        by (unfold zlen; by rewrite length_insert).
      rewrite Hl, <- Z.add_assoc. destruct (p + (1 + zlen l) <=? zlen b); [|done].
      f_equal. f_equal. unfold ztake, zdrop.
      replace (Z.to_nat (p + 1)) with (S (Z.to_nat p)) by lia.
      assert (Hlt : (Z.to_nat p < length b)%nat) by (unfold zlen in *; lia).
      rewrite (take_S_r _ _ x) by (by apply list_lookup_insert_eq).
      rewrite take_insert_ge by lia. rewrite <- app_assoc. cbn [app].
      f_equal. f_equal. f_equal. apply drop_insert_lt. unfold zlen. lia.
    + zbool. pose proof (zlen_nonneg l). by zbool.
Qed.

(** Octets of a code point, as [append] computes them. *)
Lemma or_trail x : u8 (Z.lor (Z.land x 0x3f) 0x80) = 0x80 + x mod 64.
Proof.
  change 0x3f with (Z.ones 6). rewrite Z.land_ones by lia. change (2 ^ 6) with 64.
  assert (H : forall y, 0 <= y < 64 -> u8 (Z.lor y 0x80) = 0x80 + y)
    by (apply (forall_below _); vm_compute; reflexivity).
  apply H. divmod_lia.
Qed.

Lemma or_lead2 y : 0 <= y < 32 -> u8 (Z.lor y 0xc0) = 0xc0 + y.
Proof. revert y. apply (forall_below _). vm_compute. reflexivity. Qed.
Lemma or_lead3 y : 0 <= y < 16 -> u8 (Z.lor y 0xe0) = 0xe0 + y.
Proof. revert y. apply (forall_below _). vm_compute. reflexivity. Qed.
Lemma or_lead4 y : 0 <= y < 8 -> u8 (Z.lor y 0xf0) = 0xf0 + y.
Proof. revert y. apply (forall_below _). vm_compute. reflexivity. Qed.

(** A sequence of [put] is a [put_list]. *)
Ltac put_chain :=
  cbn [for_each]; run;
  repeat match goal with
  | |- context [put ?x ?o] => destruct (put x o) as [[] ?| |]; [|reflexivity..]
  end; reflexivity.

Lemma append_encode cp o : scalar cp -> append cp o = put_list (utf8_bytes cp) o.
Proof.
  intros Hs. pose proof Hs as [Hr _]. unfold append, utf8_bytes, put_list.
  rewrite (proj2 (scalar_valid cp ltac:(lia)) Hs). cbn [negb].
  rewrite !or_trail, !Z.shiftr_div_pow2 by lia. zpow.
  destruct (Z.ltb_spec cp 0x80); [|destruct (Z.ltb_spec cp 0x800);
    [|destruct (Z.ltb_spec cp 0x10000)]].
  - rewrite wrap_small by (unfold in_width; lia). put_chain.
  - rewrite or_lead2 by divmod_lia. put_chain.
  - rewrite or_lead3 by divmod_lia. put_chain.
  - rewrite or_lead4 by divmod_lia. put_chain.
Qed.

(** ** Conversions *)

(** Writing inside a conversion. *)
Lemma output_run {A} (m : M out_iterator utf8_exception A) it o :
  output m (mkConv it o) =
  match m o with
  | Ok a o' => Ok a (mkConv it o')
  | Throw e o' => Throw e (mkConv it o')
  | Abort r => Abort r
  end.
Proof. done. Qed.

Lemma input_run {A} (m : M (list Z) utf8_exception A) it it' a o :
  m it = Ok a it' -> input m (mkConv it o) = Ok a (mkConv it' o).
Proof. unfold input, zoom. cbn [start]. by intros ->. Qed.

Lemma utf8to16_step_run cp rest o :
  scalar cp ->
  utf8to16_step (mkConv (utf8_bytes cp ++ rest) o) =
  output (put_list (utf16_units cp)) (mkConv rest o).
Proof.
  intros Hs. pose proof Hs as [Hr Hn]. unfold utf8to16_step.
  rewrite (bind_run _ _ _ cp (mkConv rest o)) by (apply input_run, next_encode; done).
  unfold utf16_units, put_list. destruct (Z.ltb_spec cp 0x10000) as [Hlt|Hge]; zbool.
  - rewrite wrap_small by (unfold in_width; lia). rewrite !output_run. put_chain.
  - change 0x3ff with (Z.ones 10). rewrite Z.land_ones, Z.shiftr_div_pow2 by lia. zpow.
    change LEAD_OFFSET with 0xd7c0. change TRAIL_SURROGATE_MIN with 0xdc00.
    rewrite !wrap_small by (unfold in_width; divmod_lia).
    replace (cp / 1024 + 0xd7c0) with (0xd800 + (cp - 0x10000) / 1024) by divmod_lia.
    replace (cp mod 1024 + 0xdc00) with (0xdc00 + (cp - 0x10000) mod 1024) by divmod_lia.
    unfold mbind, M_bind. rewrite !output_run. cbn [for_each]. run.
    destruct (put _ o) as [[] o'| |]; [|reflexivity..]. rewrite output_run.
    destruct (put _ o') as [[] o''| |]; reflexivity.
Qed.

Lemma utf8to16_text_loop cps fuel o :
  Forall scalar cps -> (length cps < fuel)%nat ->
  utf8to16_loop fuel (mkConv (utf8_text cps) o) =
  output (put_list (utf16_text cps)) (mkConv [] o).
Proof.
  intros Hcps. revert fuel o. induction Hcps as [|cp cps Hcp Hcps IH]; intros fuel o Hf;
    (destruct fuel as [|fuel]; [cbn in Hf; lia|]); cbn [utf8to16_loop].
  - reflexivity.
  - rewrite utf8_text_cons, utf16_text_cons.
    rewrite (bind_run _ _ _ _ _ (input_run _ _ _ _ _ (it_end_bytes _ _))).
    unfold mbind, M_bind. rewrite utf8to16_step_run by done.
    rewrite !output_run, put_list_app. unfold mbind, M_bind.
    destruct (put_list (utf16_units cp) o) as [[] o'|e o'|] eqn:Hp;
      [|by destruct (put_list_no_throw _ _ _ _ Hp)|done].
    rewrite IH by (cbn in Hf; lia). apply output_run.
Qed.

(** The conversions write exactly the units of the other encoding. *)
Lemma utf8to16_text cps o :
  Forall scalar cps -> utf8to16 (utf8_text cps) o = put_list (utf16_text cps) o.
Proof.
  intros Hcps. unfold utf8to16. pose proof (utf8_text_length cps).
  rewrite utf8to16_text_loop by (done || lia). rewrite output_run.
  by destruct (put_list _ o) as [[] ?| |].
Qed.

(** *** UTF-16 to UTF-8 *)

(** A 16-bit unit. *)
Definition unit16 (c : Z) : Prop := 0 <= c < 0x10000.

Lemma mask16_unit c : unit16 c -> mask16 c = c.
Proof.
  intros Hc. unfold mask16, unit16 in *. rewrite Z.land_comm. change 0xffff with (Z.ones 16).
  rewrite Z.land_ones by lia. rewrite Z.mod_small by lia. apply wrap_small. done.
Qed.

Lemma is_lead_spec c : is_lead_surrogate c = true <-> 0xd800 <= c <= 0xdbff.
Proof.
  unfold is_lead_surrogate, LEAD_SURROGATE_MIN, LEAD_SURROGATE_MAX.
  rewrite andb_true_iff, !Z.leb_le. lia.
Qed.

Lemma is_trail_spec c : is_trail_surrogate c = true <-> 0xdc00 <= c <= 0xdfff.
Proof.
  unfold is_trail_surrogate, TRAIL_SURROGATE_MIN, TRAIL_SURROGATE_MAX.
  rewrite andb_true_iff, !Z.leb_le. lia.
Qed.

Lemma is_lead_false c : ~ 0xd800 <= c <= 0xdbff -> is_lead_surrogate c = false.
Proof. rewrite <- is_lead_spec. by destruct is_lead_surrogate. Qed.
Lemma is_trail_false c : ~ 0xdc00 <= c <= 0xdfff -> is_trail_surrogate c = false.
Proof. rewrite <- is_trail_spec. by destruct is_trail_surrogate. Qed.

Lemma pop_run {E} c it : pop (E := E) (c :: it) = Ok c it.
Proof. done. Qed.

Lemma it_end_cons {E} c it : it_end (E := E) (c :: it) = Ok false (c :: it).
Proof. done. Qed.

Lemma utf16to8_step_bmp cp rest o :
  bmp cp -> utf16to8_step (mkConv (cp :: rest) o) = output (put_list (utf8_bytes cp)) (mkConv rest o).
Proof.
  intros [Hs Hb]. pose proof Hs as [Hr Hn]. unfold utf16to8_step.
  rewrite (bind_run _ _ _ _ _ (input_run _ _ _ _ _ (pop_run cp rest))).
  rewrite mask16_unit by (unfold unit16; lia).
  rewrite is_lead_false, is_trail_false by lia.
  unfold mbind, M_bind, mret, M_ret. rewrite !output_run. by rewrite append_encode.
Qed.

Lemma utf16to8_step_pair cp rest o :
  scalar cp -> 0x10000 <= cp ->
  utf16to8_step (mkConv (utf16_units cp ++ rest) o) =
  output (put_list (utf8_bytes cp)) (mkConv rest o).
Proof.
  intros Hs Hge. pose proof Hs as [Hr Hn]. unfold utf16_units. zbool. cbn [app].
  unfold utf16to8_step. set (h := 0xd800 + _). set (l := 0xdc00 + _).
  assert (Hh : 0xd800 <= h <= 0xdbff) by (unfold h; divmod_lia).
  assert (Hl : 0xdc00 <= l <= 0xdfff) by (unfold l; divmod_lia).
  rewrite (bind_run _ _ _ _ _ (input_run _ _ _ _ _ (pop_run h (l :: rest)))).
  rewrite mask16_unit by (unfold unit16; lia). rewrite (proj2 (is_lead_spec h)) by done.
  unfold mbind, M_bind. rewrite (input_run _ _ _ _ _ (it_end_cons l rest)).
  rewrite (input_run _ _ _ _ _ (pop_run l rest)).
  rewrite mask16_unit by (unfold unit16; lia). rewrite (proj2 (is_trail_spec l)) by done.
  unfold mret, M_ret. rewrite !output_run.
  replace (u32 (Z.shiftl h 10 + l + SURROGATE_OFFSET)) with cp; [by rewrite append_encode|].
  change SURROGATE_OFFSET with (2 ^ 32 + 0x10000 - 0xd800 * 1024 - 0xdc00).
  rewrite Z.shiftl_mul_pow2 by lia. unfold h, l, wrap. zpow. divmod_lia.
Qed.

Lemma utf16to8_step_encode cp rest o :
  scalar cp ->
  utf16to8_step (mkConv (utf16_units cp ++ rest) o) =
  output (put_list (utf8_bytes cp)) (mkConv rest o).
Proof.
  intros Hs. destruct (Z.ltb_spec cp 0x10000) as [Hlt|Hge]; [|by apply utf16to8_step_pair].
  unfold utf16_units. zbool. apply utf16to8_step_bmp. split; [done|lia].
Qed.

(** *** Texts of 16-bit units *)

(** The step fails at the start of [rest], without writing; or it is the end. *)
Definition stuck16 (rest : list Z) : Prop :=
  rest = [] \/
  (rest <> [] /\ forall o, exists e c, utf16to8_step (mkConv rest o) = Throw e c /\ res c = o).

Lemma stuck16_lead h rest :
  0xd800 <= h <= 0xdbff ->
  match rest with [] => True | l :: _ => unit16 l /\ ~ 0xdc00 <= l <= 0xdfff end ->
  stuck16 (h :: rest).
Proof.
  intros Hh Hrest. right. split; [done|]. intros o. unfold utf16to8_step.
  rewrite (bind_run _ _ _ _ _ (input_run _ _ _ _ _ (pop_run h rest))).
  rewrite mask16_unit by (unfold unit16; lia). rewrite (proj2 (is_lead_spec h)) by done.
  destruct rest as [|l rest]; [by do 2 eexists|]. destruct Hrest as [Hl Hn].
  unfold mbind, M_bind. rewrite (input_run _ _ _ _ _ (it_end_cons l rest)).
  rewrite (input_run _ _ _ _ _ (pop_run l rest)), mask16_unit, is_trail_false by done.
  by do 2 eexists.
Qed.

Lemma stuck16_trail l rest : 0xdc00 <= l <= 0xdfff -> stuck16 (l :: rest).
Proof.
  intros Hl. right. split; [done|]. intros o. unfold utf16to8_step.
  rewrite (bind_run _ _ _ _ _ (input_run _ _ _ _ _ (pop_run l rest))).
  rewrite mask16_unit by (unfold unit16; lia).
  rewrite is_lead_false by lia. rewrite (proj2 (is_trail_spec l)) by done. by do 2 eexists.
Qed.

Lemma units_of_pair h l :
  0xd800 <= h <= 0xdbff -> 0xdc00 <= l <= 0xdfff ->
  let cp := 0x10000 + (h - 0xd800) * 1024 + (l - 0xdc00) in
  scalar cp /\ utf16_units cp = [h; l].
Proof.
  intros Hh Hl cp. unfold cp, scalar, utf16_units. split; [lia|]. zbool.
  repeat (apply (f_equal2 cons); [divmod_lia|]). done.
Qed.

Lemma utf16_split s :
  Forall unit16 s ->
  exists cps rest, s = utf16_text cps ++ rest /\ Forall scalar cps /\ stuck16 rest.
Proof.
  induction s as [s IH] using (induction_ltof1 _ (@length Z)). unfold ltof in IH. intros Hs.
  assert (Hcons : forall cp s', s = utf16_units cp ++ s' -> scalar cp ->
    exists cps rest, s = utf16_text cps ++ rest /\ Forall scalar cps /\ stuck16 rest).
  { intros cp s' -> Hcp. apply Forall_app in Hs as [_ Hs'].
    destruct (IH s') as (cps & rest & -> & Hcps & Hst); [|done|].
    { rewrite length_app. pose proof (utf16_units_length cp). lia. }
    exists (cp :: cps), rest. rewrite utf16_text_cons, <- app_assoc. auto. }
  destruct s as [|h s]; [exists [], []; repeat split; [constructor|by left]|].
  pose proof (Forall_inv Hs) as Hh. pose proof (Forall_inv_tail Hs) as Hs'. unfold unit16 in Hh.
  destruct (decide (0xd800 <= h <= 0xdbff)) as [Hlead|Hlead].
  - destruct s as [|l s].
    { exists [], [h]. repeat split; [constructor|by apply stuck16_lead]. }
    destruct (decide (0xdc00 <= l <= 0xdfff)) as [Hl|Hl].
    + destruct (units_of_pair h l Hlead Hl) as [Hsc Hu]. by apply (Hcons (0x10000 + (h - 0xd800) * 1024 + (l - 0xdc00)) s);
        [rewrite Hu|].
    + exists [], (h :: l :: s). repeat split; [constructor|].
      apply stuck16_lead; [done|]. split; [by apply Forall_inv in Hs'|done].
  - destruct (decide (0xdc00 <= h <= 0xdfff)) as [Hl|Hl].
    + exists [], (h :: s). repeat split; [constructor|by apply stuck16_trail].
    + apply (Hcons h s); [unfold utf16_units; by zbool|unfold scalar; lia].
Qed.

Lemma units_app_cons cp l : exists x l', utf16_units cp ++ l = x :: l'.
Proof. unfold utf16_units. case_match; cbn [app]; eauto. Qed.

Lemma utf16to8_loop_text cps rest fuel o :
  Forall scalar cps ->
  utf16to8_loop (length cps + fuel) (mkConv (utf16_text cps ++ rest) o) =
  match put_list (utf8_text cps) o with
  | Ok _ o' => utf16to8_loop fuel (mkConv rest o')
  | Throw e o' => Throw e (mkConv rest o')
  | Abort r => Abort r
  end.
Proof.
  intros Hcps. revert o. induction Hcps as [|cp cps Hcp Hcps IH]; intros o; [done|].
  rewrite utf8_text_cons, utf16_text_cons, <- app_assoc, put_list_app.
  cbn [length Nat.add utf16to8_loop].
  destruct (units_app_cons cp (utf16_text cps ++ rest)) as (x & l & Hxl).
  rewrite Hxl, (bind_run _ _ _ _ _ (input_run _ _ _ _ _ (it_end_cons x l))), <- Hxl.
  unfold mbind, M_bind. rewrite utf16to8_step_encode, output_run by done.
  destruct (put_list (utf8_bytes cp) o) as [[] o'|e o'|] eqn:Hp;
    [apply IH|by destruct (put_list_no_throw _ _ _ _ Hp)|done].
Qed.

Lemma utf16_text_length cps : (length cps <= length (utf16_text cps))%nat.
Proof.
  induction cps as [|cp cps IH]; [done|]. rewrite utf16_text_cons, length_app. cbn [length].
  pose proof (utf16_units_length cp). lia.
Qed.

Lemma utf16to8_split cps rest o :
  Forall scalar cps ->
  utf16to8 (utf16_text cps ++ rest) o =
  match put_list (utf8_text cps) o with
  | Ok _ o' =>
      match utf16to8_loop (S (length (utf16_text cps ++ rest) - length cps)) (mkConv rest o') with
      | Ok _ c => Ok () (res c) | Throw e c => Throw e (res c) | Abort r => Abort r
      end
  | Throw e o' => Throw e o'
  | Abort r => Abort r
  end.
Proof.
  intros Hcps. unfold utf16to8. pose proof (utf16_text_length cps).
  replace (S (length (utf16_text cps ++ rest))) with
    (length cps + S (length (utf16_text cps ++ rest) - length cps))%nat
    by (rewrite length_app; lia).
  rewrite utf16to8_loop_text by done. by destruct (put_list (utf8_text cps) o).
Qed.

Lemma utf16to8_text cps o :
  Forall scalar cps -> utf16to8 (utf16_text cps) o = put_list (utf8_text cps) o.
Proof.
  intros Hcps. rewrite <- (app_nil_r (utf16_text cps)), utf16to8_split by done.
  by destruct (put_list (utf8_text cps) o) as [[] ?| |].
Qed.

Lemma utf16to8_invalid cps rest o o' :
  Forall scalar cps -> stuck16 rest -> rest <> [] -> put_list (utf8_text cps) o = Ok () o' ->
  exists e, utf16to8 (utf16_text cps ++ rest) o = Throw e o'.
Proof.
  intros Hcps [->|[_ Hst]] Hne Hput; [done|]. rewrite utf16to8_split, Hput by done.
  destruct (Hst o') as (e & c & He & Hc). exists e. cbn [utf16to8_loop]. destruct rest; [done|].
  rewrite (bind_run _ _ _ _ _ (input_run _ _ _ _ _ (it_end_cons _ _))).
  unfold mbind, M_bind. by rewrite He, Hc.
Qed.

(** Room: at most three octets for each 16-bit unit, and two units or more
    octets than that for each code point. *)
Lemma utf8_utf16_length cps : zlen (utf8_text cps) <= 3 * zlen (utf16_text cps).
Proof.
  induction cps as [|cp cps IH]; [done|]. rewrite utf8_text_cons, utf16_text_cons, !zlen_app.
  assert (zlen (utf8_bytes cp) <= 3 * zlen (utf16_units cp)).
  { unfold utf8_bytes, utf16_units.
    destruct (Z.ltb_spec cp 0x10000); repeat case_match; zprop; zsimp; lia. }
  lia.
Qed.

Lemma utf16_bmp cps : Forall bmp cps -> utf16_text cps = cps.
Proof.
  induction 1 as [|cp cps [Hs Hb] _ IH]; [done|]. rewrite utf16_text_cons, IH.
  unfold utf16_units. by zbool.
Qed.

Lemma utf16_zlen cps : zlen cps <= zlen (utf16_text cps).
Proof. unfold zlen. pose proof (utf16_text_length cps). lia. Qed.

(** One unit per code point exactly when all are in the basic plane. *)
Lemma utf16_zlen_bmp cps :
  Forall scalar cps -> zlen (utf16_text cps) = zlen cps <-> Forall bmp cps.
Proof.
  intros Hs. split; [|intros Hb; by rewrite utf16_bmp].
  induction Hs as [|cp cps Hcp Hcps IH]; [constructor|].
  rewrite utf16_text_cons, zlen_app, zlen_cons. pose proof (utf16_zlen cps).
  unfold utf16_units. destruct (Z.ltb_spec cp 0x10000); zsimp; [|lia].
  intros Hl. constructor; [split; [done|lia]|apply IH; lia].
Qed.

Lemma utf8_inj : forall cps cps', Forall scalar cps -> Forall scalar cps' ->
  utf8_text cps = utf8_text cps' -> cps = cps'.
Proof.
  intros cps cps' Hs. revert cps'. induction Hs as [|cp cps Hcp Hcps IH]; intros cps' Hs' Heq.
  - destruct cps' as [|cp' cps']; [done|]. rewrite utf8_text_cons in Heq.
    destruct (bytes_app_cons cp' (utf8_text cps')) as (x & l & Hx). by rewrite Hx in Heq.
  - destruct cps' as [|cp' cps'].
    { rewrite utf8_text_cons in Heq.
      destruct (bytes_app_cons cp (utf8_text cps)) as (x & l & Hx). by rewrite Hx in Heq. }
    apply Forall_cons in Hs' as [Hcp' Hs']. rewrite !utf8_text_cons in Heq.
    pose proof (validate_next_encode cp (utf8_text cps) Hcp) as Hv.
    rewrite Heq, (validate_next_encode cp' _ Hcp') in Hv. injection Hv as -> Ht.
    f_equal. by apply IH.
Qed.

(** A text of units determines its code points, and what follows them. *)
Lemma utf16to8_step_stuck cp rest l :
  scalar cp -> stuck16 l -> l = utf16_units cp ++ rest -> False.
Proof.
  intros Hcp [->|[_ Hst]] Heq.
  - destruct (units_app_cons cp rest) as (x & l & Hx). congruence.
  - destruct (Hst (mkOut (replicate 4 0) 0)) as (e & c & He & _). subst l.
    rewrite utf16to8_step_encode, output_run in He by done.
    destruct (put_list _ _) eqn:Hp; [done| |done]. by destruct (put_list_no_throw _ _ _ _ Hp).
Qed.

Lemma utf16_units_inj cp cp' l l' :
  scalar cp -> scalar cp' -> utf16_units cp ++ l = utf16_units cp' ++ l' -> cp = cp' /\ l = l'.
Proof.
  intros [Hr Hn] [Hr' Hn']. unfold utf16_units.
  destruct (Z.ltb_spec cp 0x10000), (Z.ltb_spec cp' 0x10000); cbn [app].
  - by intros [= -> ->].
  - intros [= Hc _]. exfalso. divmod_lia.
  - intros [= Hc _]. exfalso. divmod_lia.
  - intros [= Ha Hb ->]. split; [divmod_lia|done].
Qed.

Lemma utf16_app_stuck cps cps' rest :
  Forall scalar cps -> Forall scalar cps' -> stuck16 rest ->
  utf16_text cps' = utf16_text cps ++ rest -> rest = [].
Proof.
  intros Hcps Hcps' Hst. revert cps' Hcps'. induction Hcps as [|cp cps Hcp Hcps IH]; intros cps' Hcps' Heq.
  - cbn [utf16_text map concat app] in Heq. destruct Hcps' as [|cp' cps' Hcp' Hcps']; [done|].
    rewrite utf16_text_cons in Heq. by destruct (utf16to8_step_stuck cp' (utf16_text cps') rest).
  - rewrite utf16_text_cons, <- app_assoc in Heq. destruct Hcps' as [|cp' cps' Hcp' Hcps'].
    + destruct (units_app_cons cp (utf16_text cps ++ rest)) as (x & l & Hx). by rewrite Hx in Heq.
    + rewrite utf16_text_cons in Heq. apply utf16_units_inj in Heq as [_ Heq]; [|done..].
      by apply (IH cps').
Qed.

Lemma utf16_inj cps cps' :
  Forall scalar cps -> Forall scalar cps' -> utf16_text cps = utf16_text cps' -> cps = cps'.
Proof.
  intros Hcps. revert cps'. induction Hcps as [|cp cps Hcp Hcps IH]; intros cps' Hcps' Heq;
    destruct Hcps' as [|cp' cps' Hcp' Hcps']; [done|..]; rewrite ?utf16_text_cons in Heq.
  - destruct (units_app_cons cp' (utf16_text cps')) as (x & l & Hx). by rewrite Hx in Heq.
  - destruct (units_app_cons cp (utf16_text cps)) as (x & l & Hx). by rewrite Hx in Heq.
  - apply utf16_units_inj in Heq as [-> Heq]; [|done..]. f_equal. by apply IH.
Qed.
