(* ===== verification/ClientPacket.v ===== *)
(** * What handlers read of a client's packet

    Reads of texts and numbers from what the socket lets through: the value, or a
    [ByteBufferException], and never an access outside the packet. *)

From S2P Require Import Prelude Utf8Props ByteBuffer Wire WireProps.

(** What the socket lets through: no more than 10240 bytes. *)
Definition client_buffer (b : ByteBuffer) : Prop :=
  rd_wf b /\ Forall octet (_storage b) /\ size b <= 10240.

(** Octets, no more than a packet holds. *)
Definition text (s : list Z) : Prop := Forall octet s /\ zlen s <= 10240.

Section Reading.
Context `{Host}.

(** [m] returns a value with [P], or throws, and never leaves the packet. *)
Definition reads {A} (P : A -> Prop) (m : BB A) : Prop := forall b,
  client_buffer b -> wp m (fun a b' => rd_keeps b b' /\ P a) (fun _ => rd_keeps b) b.

Lemma client_keeps b b' : client_buffer b -> rd_keeps b b' -> client_buffer b'.
Proof. intros (_ & Ho & Hs) (Hw & Hst & _). unfold client_buffer, size in *. by rewrite Hst. Qed.

Lemma reads_ret {A} (P : A -> Prop) a : P a -> reads P (mret a).
Proof. intros Ha b (Hb & _). apply wp_ret. split; [by apply rd_keeps_refl|done]. Qed.

Lemma reads_bind {A B} (P : A -> Prop) (Q : B -> Prop) (m : BB A) (f : A -> BB B) :
  reads P m -> (forall a, P a -> reads Q (f a)) -> reads Q (m ≫= f).
Proof.
  intros Hm Hf b Hb. apply wp_bind. eapply wp_mono; [by apply Hm| |done].
  intros a b' [Hk Ha]. eapply wp_mono; [apply (Hf a Ha), (client_keeps b b' Hb Hk)| |]; cbn.
  - intros x b'' [Hk' Hx]. split; [by eapply rd_keeps_trans|done].
  - intros e b'' Hk'. by eapply rd_keeps_trans.
Qed.

Lemma reads_safe {A} (m : BB A) : safe_read m -> reads (fun _ => True) m.
Proof. intros Hm b (Hb & _). eapply wp_mono; [by apply Hm|by auto|done]. Qed.

Lemma reads_mono {A} (P Q : A -> Prop) (m : BB A) : reads P m -> (forall a, P a -> Q a) -> reads Q m.
Proof. intros Hm HPQ b Hb. eapply wp_mono; [by apply Hm| |done]. intros a b' [? ?]. auto. Qed.

Lemma reads_bits n : 0 <= n <= 31 -> reads (in_width 32) (ReadBits n).
Proof.
  intros Hn. unfold ReadBits. rewrite bit_iterations_ok by lia.
  assert (Hle : (Z.to_nat n <= 31)%nat) by lia. revert Hle.
  assert (H0 : in_width 32 0) by by vm_compute. revert H0.
  generalize (Z.to_nat n) 0. clear n Hn. intros n. induction n as [|n IH]; intros v Hv Hle;
    cbn [ReadBits_loop]; [by apply reads_ret|].
  eapply reads_bind; [apply reads_safe, safe_ReadBit|]. intros bit _.
  destruct bit; [|apply IH; [done|lia]]. zbool. apply IH; [|lia].
  apply in_width_lor; [lia|done|]. apply wrap_range. lia.
Qed.

Lemma text_take n k l : Forall octet l -> zlen l <= 10240 -> text (ztake n (zdrop k l)).
Proof.
  intros Ho Hl. split; [by apply Forall_take, Forall_drop|].
  unfold zlen, ztake, zdrop in *. rewrite length_take, length_drop. lia.
Qed.

Lemma text_c_str s : text s -> text (c_str s).
Proof.
  intros [Ho Hl]. split.
  - clear Hl. induction Ho as [|c s Hc _ IH]; cbn [c_str]; [constructor|].
    destruct (c =? 0); [constructor|]. by constructor.
  - etransitivity; [|exact Hl]. clear. induction s as [|c s IH]; cbn [c_str]; [done|].
    destruct (c =? 0); zsimp; lia.
Qed.

Lemma reads_string n : in_width 32 n -> reads text (ReadString n).
Proof.
  intros Hn. unfold ReadString. destruct (n =? 0); [by apply reads_ret; split; vm_compute|].
  eapply (reads_bind text); [|intros bs Hbs; by apply reads_ret, text_c_str].
  intros b (Hb & Ho & Hs). pose proof (safe_read_raw n Hn b Hb) as Hk. unfold in_width in Hn.
  revert Hk. unfold read_raw, wp. run. destruct (size b <? _); run; [done|].
  unfold load_at. destruct (_ && _); [|done]. run. intros Hk. split; [done|]. by apply text_take.
Qed.

Lemma object_value_1 c : object_value (EndianConvert [c]) = c.
Proof.
  assert (Hc : EndianConvert [c] = [c]) by (unfold EndianConvert; by destruct TRINITY_BIGENDIAN).
  rewrite Hc. unfold object_value. destruct TRINITY_BIGENDIAN; cbn; lia.
Qed.

(** A byte that is read is an octet, one further. *)
Lemma read_byte b :
  client_buffer b ->
  wp (read_T 1) (fun c b' => rd_keeps b b' /\ _rpos b' = _rpos b + 1 /\ octet c) (fun _ => rd_keeps b) b.
Proof.
  intros (Hb & Ho & Hs). pose proof (read_T_step 1 b Hb ltac:(lia)) as Hk. revert Hk.
  unfold read_T, read_T_at, wp. run. destruct (size b <? _); run; [done|].
  unfold load_at. destruct (_ && _) eqn:Hin; [|done]. run. intros [Hk Hr]. split; [done|]. split; [done|].
  apply andb_true_iff in Hin as [H1%Z.leb_le H2%Z.leb_le].
  destruct (ztake 1 (zdrop (_rpos b) (_storage b))) as [|c l] eqn:Hd.
  { apply (f_equal length) in Hd. unfold ztake, zdrop, size, zlen in *. rewrite length_take, length_drop in Hd.
    cbn in Hd. lia. }
  pose proof (text_take 1 (_rpos b) _ Ho Hs) as [Hc _]. rewrite Hd in Hc.
  assert (l = []) as ->.
  { apply (f_equal length) in Hd. unfold ztake in Hd. rewrite length_take in Hd. destruct l; [done|].
    cbn in Hd. lia. }
  change (Z.of_nat 1) with 1. rewrite Hd, object_value_1. by apply Forall_inv in Hc.
Qed.

Lemma reads_inn_string : reads text inn_string.
Proof.
  assert (Hloop : forall fuel acc b, client_buffer b -> Forall octet acc -> zlen acc <= _rpos b ->
    size b - _rpos b <= Z.of_nat fuel ->
    wp (inn_string_loop fuel acc) (fun a b' => rd_keeps b b' /\ text a) (fun _ => rd_keeps b) b).
  { induction fuel as [|fuel IH]; intros acc b Hb Ha Hl Hf; pose proof Hb as (Hwf & _ & Hs);
      pose proof Hwf as (Hp & _); cbn [inn_string_loop]; apply wp_bind, wp_getS; apply wp_if; intros Hc; zprop;
      try (apply wp_ret; split; [by apply rd_keeps_refl|split; [done|lia]]); [cbn in Hf; lia|].
    apply wp_bind. eapply wp_mono; [by apply read_byte| |done]. intros c b' (Hk & Hr & Hco).
    pose proof (client_keeps b b' Hb Hk) as Hb'. pose proof Hb' as (Hwf' & _ & Hs').
    pose proof Hwf' as (Hp' & _). pose proof Hk as (_ & Hst & _).
    apply wp_if; intros _; [apply wp_ret; split; [done|split; [done|lia]]|].
    eapply wp_mono; [apply IH; [done| | |]| |].
    - apply Forall_app. split; [done|by constructor].
    - zsimp. lia.
    - unfold size in *. rewrite Hst. lia.
    - intros a b'' [Hk' Ht]. split; [by eapply rd_keeps_trans|done].
    - intros e b'' Hk'. by eapply rd_keeps_trans. }
  intros b Hb. apply wp_bind, wp_getS. pose proof Hb as ((Hp & _) & _). apply Hloop; [done|constructor| |].
  - rewrite zlen_nil. lia.
  - unfold size, zlen in *. lia.
Qed.

Lemma reads_bits8 : reads (in_width 32) (ReadBits 8).
Proof. apply reads_bits. lia. Qed.
Lemma reads_bits7 : reads (in_width 32) (ReadBits 7).
Proof. apply reads_bits. lia. Qed.
Lemma reads_u32 : reads (fun _ => True) (inn TU32).
Proof. apply reads_safe, safe_inn. Qed.
Lemma reads_bit : reads (fun _ => True) ReadBit.
Proof. apply reads_safe, safe_ReadBit. Qed.

Definition texts (p : list Z * list Z) : Prop := text p.1 /\ text p.2.
End Reading.

Create HintDb reads discriminated.
#[export] Hint Resolve reads_bits8 reads_bits7 reads_u32 reads_bit reads_string reads_inn_string : reads.

(** Read after read, to the value at the end. *)
Ltac reading :=
  repeat (eapply reads_bind; [solve [eauto with reads]|]; intros); eauto with reads;
  try (apply reads_ret; unfold texts; cbn; tauto).
