(* ===== verification/Names.v ===== *)
(** * Names and texts of clients

    The conversions of [src/src/server/shared/Utilities/Util.cpp] between UTF-8
    and wide strings, and their clients that decide which names are acceptable:
    [normalizePlayerName] and the checks of
    [src/src/server/game/Globals/ObjectMgr.cpp], [normalizeString] of
    [src/src/server/game/Accounts/AccountMgr.cpp].  A [wchar_t] is the number of
    a 32-bit unit; a [wchar_t*] with room for [n] units is a list of length
    [n], and an access outside it is undefined behaviour. *)

From S2P Require Import Prelude Util Utf8.

(** ** Strings *)

(** [s.resize(n)]: new units are zero. *)
Definition resize (n : Z) (s : list Z) : list Z :=
  ztake n s ++ replicate (Z.to_nat (n - zlen s)) 0.

(** [utf8::distance] on a whole string. *)
Definition utf8_distance {S} (utf8str : list Z) : M S utf8_exception Z :=
  '(n, _) ← on_local utf8str distance; mret n.

(** ** Util.cpp *)

(** The state of the functions that take a [std::string&] or a [std::wstring&]
    is that string; none of them lets an exception out, so that the type of
    exceptions is free. *)

Definition utf8length {E} : M (list Z) E Z :=
  try_catch
    (utf8str ← getS; utf8_distance utf8str)
    (fun _ => putS [];; mret 0).

Definition utf8truncate {E} (len : Z) : M (list Z) E () :=
  try_catch
    (utf8str ← getS;
     wlen ← utf8_distance utf8str;
     if wlen <=? len then mret () else
     '(_, o) ← on_local (mkOut (resize wlen []) 0) (utf8to16 utf8str);
     let wstr := resize len (buf o) in
     oend ← zoom (fun s => mkOut s 0) (fun o _ => buf o) (utf16to8 wstr;; gets pos);
     modify (resize oend))
    (fun _ => putS []).

(** The buffer and the size that [Utf8toWStr(utf8str, csize, wstr, wsize)] reads
    and writes. *)
Record WBuf := mkWBuf { wstr : list Z; wsize : Z }.
#[export] Instance WBuf_settable : Settable WBuf := fun w => mkWBuf (wstr w) (wsize w).

(** [wstr[i] = c] *)
Definition set_at {E} (i c : Z) : M WBuf E () := fun w =>
  if (0 <=? i) && (i <? zlen (wstr w)) then Ok () (w <| wstr ::= <[Z.to_nat i := c]> |>)
  else Abort UndefinedBehaviour.

Definition Utf8toWStr_buffer {E} (utf8str : list Z) : M WBuf E bool :=
  try_catch
    (len ← utf8_distance utf8str;
     w ← getS;
     if wsize w <? len then
       when (0 <? wsize w) (set_at 0 0);;
       modify (fun w => w <| wsize := 0 |>);;
       mret false
     else
       modify (fun w => w <| wsize := len |>);;
       zoom (fun w => mkOut (wstr w) 0) (fun o w => w <| wstr := buf o |>) (utf8to16 utf8str);;
       set_at len 0;;
       mret true)
    (fun _ =>
       w ← getS;
       when (0 <? wsize w) (set_at 0 0);;
       modify (fun w => w <| wsize := 0 |>);;
       mret false).

(** On a [std::wstring&]. *)
Definition Utf8toWStr {E} (utf8str : list Z) : M (list Z) E bool :=
  try_catch
    (len ← utf8_distance utf8str;
     when (negb (len =? 0))
       (modify (resize len);;
        zoom (fun w => mkOut w 0) (fun o _ => buf o) (utf8to16 utf8str));;
     mret true)
    (fun _ => putS [];; mret false).

(** The two [WStrToUtf8] have the same body: [units] is what is converted. *)
Definition wstr_to_utf8 {E} (units : list Z) : M (list Z) E bool :=
  try_catch
    (let utf8str2 := resize (zlen units * 4) [] in
     utf8str2 ← (if negb (zlen units =? 0) then
                   '(_, o) ← on_local (mkOut utf8str2 0) (utf16to8 units);
                   mret (resize (pos o) (buf o))
                 else mret utf8str2);
     putS utf8str2;;
     mret true)
    (fun _ => putS [];; mret false).

Definition WStrToUtf8_buffer {E} (wstr : list Z) (size : Z) : M (list Z) E bool :=
  if zlen wstr <? size then abort UndefinedBehaviour else wstr_to_utf8 (ztake size wstr).
Definition WStrToUtf8 {E} (wstr : list Z) : M (list Z) E bool := wstr_to_utf8 wstr.

(** [s.find(search) != npos] *)
Fixpoint starts_with (search s : list Z) : bool :=
  match search, s with
  | [], _ => true
  | c :: search', d :: s' => (c =? d) && starts_with search' s'
  | _ :: _, [] => false
  end.
Fixpoint contains (search s : list Z) : bool :=
  starts_with search s || match s with [] => false | _ :: s' => contains search s' end.

Definition Utf8FitTo {S E} (str search : list Z) : M S E bool :=
  '(ok, temp) ← on_local [] (Utf8toWStr str);
  if negb ok then mret false else mret (contains search (wstrToLower temp)).

(** ** normalizePlayerName (ObjectMgr.cpp) *)

Definition MAX_PLAYER_NAME : Z := 12.
Definition MAX_INTERNAL_PLAYER_NAME : Z := 15.
Definition MAX_PET_NAME : Z := 12.
Definition MAX_CHARTER_NAME : Z := 24.

(** [b[i] = f(b[i])], inside the buffer. *)
Definition update_at (f : Z -> Z) (b : list Z) (i : Z) : list Z := alter f (Z.to_nat i) b.

(** [wstr_buf] is what the array on the stack holds before it is written; its
    length is [MAX_INTERNAL_PLAYER_NAME + 1]. *)
Definition normalizePlayerName {E} (wstr_buf : list Z) : M (list Z) E bool :=
  name ← getS;
  if (zlen name =? 0) then mret false else
  '(ok, w) ← on_local (mkWBuf wstr_buf MAX_INTERNAL_PLAYER_NAME) (Utf8toWStr_buffer name);
  if negb ok then mret false else
  let wstr_len := wsize w in
  let b := update_at wcharToUpper (wstr w) 0 in
  let b := fold_left (update_at wcharToLower) (seqZ 1 (wstr_len - 1)) b in
  ok ← WStrToUtf8_buffer b wstr_len;
  if negb ok then mret false else mret true.

(** [AccountMgr::normalizeString] *)
Definition MAX_ACCOUNT_STR : Z := 16.
Definition normalizeString {E} (buffer : list Z) : M (list Z) E bool :=
  utf8String ← getS;
  '(ok, w) ← on_local (mkWBuf buffer MAX_ACCOUNT_STR) (Utf8toWStr_buffer utf8String);
  if negb ok then mret false else
  let maxLength := wsize w in
  WStrToUtf8_buffer (map wcharToUpperOnlyLatin (ztake maxLength (wstr w)) ++
                     zdrop maxLength (wstr w)) maxLength.

(** ** Acceptable names (ObjectMgr.cpp) *)

(** The options of [worldserver.conf] that the checks read. *)
Class NameConfig := {
  CONFIG_REALM_ZONE : Z;
  CONFIG_MIN_PLAYER_NAME : Z;
  CONFIG_STRICT_PLAYER_NAMES : Z;
  CONFIG_MIN_CHARTER_NAME : Z;
  CONFIG_STRICT_CHARTER_NAMES : Z;
  CONFIG_MIN_PET_NAME : Z;
  CONFIG_STRICT_PET_NAMES : Z
}.

Definition LT_BASIC_LATIN : Z := 0x0000.
Definition LT_EXTENDEN_LATIN : Z := 0x0001.
Definition LT_CYRILLIC : Z := 0x0002.
Definition LT_EAST_ASIA : Z := 0x0004.
Definition LT_ANY : Z := 0xFFFF.

Definition REALM_ZONE_UNKNOWN : Z := 0.
Definition REALM_ZONE_DEVELOPMENT : Z := 1.
Definition REALM_ZONE_UNITED_STATES : Z := 2.
Definition REALM_ZONE_OCEANIC : Z := 3.
Definition REALM_ZONE_LATIN_AMERICA : Z := 4.
Definition REALM_ZONE_KOREA : Z := 6.
Definition REALM_ZONE_ENGLISH : Z := 8.
Definition REALM_ZONE_GERMAN : Z := 9.
Definition REALM_ZONE_FRENCH : Z := 10.
Definition REALM_ZONE_SPANISH : Z := 11.
Definition REALM_ZONE_RUSSIAN : Z := 12.
Definition REALM_ZONE_TAIWAN : Z := 14.
Definition REALM_ZONE_CHINA : Z := 16.
Definition REALM_ZONE_TEST_SERVER : Z := 26.
Definition REALM_ZONE_QA_SERVER : Z := 28.

Definition CHAR_NAME_SUCCESS : Z := 89.
Definition CHAR_NAME_TOO_SHORT : Z := 92.
Definition CHAR_NAME_TOO_LONG : Z := 93.
Definition CHAR_NAME_INVALID_CHARACTER : Z := 94.
Definition CHAR_NAME_MIXED_LANGUAGES : Z := 95.
Definition CHAR_NAME_THREE_CONSECUTIVE : Z := 100.

Definition PET_NAME_SUCCESS : Z := 0.
Definition PET_NAME_INVALID : Z := 1.
Definition PET_NAME_TOO_SHORT : Z := 3.
Definition PET_NAME_TOO_LONG : Z := 4.
Definition PET_NAME_MIXED_LANGUAGES : Z := 6.

Section Checks.
Context `{NameConfig}.

Definition GetRealmLanguageType (create : bool) : Z :=
  let zone := CONFIG_REALM_ZONE in
  if existsb (Z.eqb zone) [REALM_ZONE_UNKNOWN; REALM_ZONE_DEVELOPMENT; REALM_ZONE_TEST_SERVER;
                           REALM_ZONE_QA_SERVER] then LT_ANY
  else if existsb (Z.eqb zone) [REALM_ZONE_UNITED_STATES; REALM_ZONE_OCEANIC;
                                REALM_ZONE_LATIN_AMERICA; REALM_ZONE_ENGLISH; REALM_ZONE_GERMAN;
                                REALM_ZONE_FRENCH; REALM_ZONE_SPANISH] then LT_EXTENDEN_LATIN
  else if existsb (Z.eqb zone) [REALM_ZONE_KOREA; REALM_ZONE_TAIWAN; REALM_ZONE_CHINA]
    then LT_EAST_ASIA
  else if zone =? REALM_ZONE_RUSSIAN then LT_CYRILLIC
  else if create then LT_BASIC_LATIN else LT_ANY.

Definition isValidString (wstr : list Z) (strictMask : Z) (numericOrSpace create : bool) : bool :=
  if strictMask =? 0 then
    isExtendedLatinString wstr numericOrSpace || isCyrillicString wstr numericOrSpace ||
    isEastAsianString wstr numericOrSpace
  else
    (has_flag strictMask 0x2 &&
     let lt := GetRealmLanguageType create in
     ((has_flag lt LT_EXTENDEN_LATIN && isExtendedLatinString wstr numericOrSpace) ||
      (has_flag lt LT_CYRILLIC && isCyrillicString wstr numericOrSpace) ||
      (has_flag lt LT_EAST_ASIA && isEastAsianString wstr numericOrSpace)))
    || (has_flag strictMask 0x1 && isBasicLatinString wstr numericOrSpace).

(** The loop of [CheckPlayerName]: some character equals the two before it. *)
Fixpoint three_consecutive (wname : list Z) : bool :=
  match wname with
  | a :: ((b :: c :: _) as wname') => ((c =? b) && (c =? a)) || three_consecutive wname'
  | _ => false
  end.

Definition CheckPlayerName {S E} (name : list Z) (create : bool) : M S E Z :=
  '(ok, wname) ← on_local [] (Utf8toWStr name);
  if negb ok then mret CHAR_NAME_INVALID_CHARACTER else
  if MAX_PLAYER_NAME <? zlen wname then mret CHAR_NAME_TOO_LONG else
  if zlen wname <? CONFIG_MIN_PLAYER_NAME then mret CHAR_NAME_TOO_SHORT else
  if negb (isValidString wname CONFIG_STRICT_PLAYER_NAMES false create)
  then mret CHAR_NAME_MIXED_LANGUAGES else
  if three_consecutive (wstrToLower wname) then mret CHAR_NAME_THREE_CONSECUTIVE else
  mret CHAR_NAME_SUCCESS.

Definition IsValidCharterName {S E} (name : list Z) : M S E bool :=
  '(ok, wname) ← on_local [] (Utf8toWStr name);
  if negb ok then mret false else
  if MAX_CHARTER_NAME <? zlen wname then mret false else
  if zlen wname <? CONFIG_MIN_CHARTER_NAME then mret false else
  mret (isValidString wname CONFIG_STRICT_CHARTER_NAMES true false).

Definition CheckPetName {S E} (name : list Z) : M S E Z :=
  '(ok, wname) ← on_local [] (Utf8toWStr name);
  if negb ok then mret PET_NAME_INVALID else
  if MAX_PET_NAME <? zlen wname then mret PET_NAME_TOO_LONG else
  if zlen wname <? CONFIG_MIN_PET_NAME then mret PET_NAME_TOO_SHORT else
  if negb (isValidString wname CONFIG_STRICT_PET_NAMES false false)
  then mret PET_NAME_MIXED_LANGUAGES else
  mret PET_NAME_SUCCESS.
End Checks.

(** [_reservedNamesStore]: the names in lower case, as wide strings. *)
Definition ReservedNames := gset (list Z).

(** One row of [LoadReservedPlayersNames]; an invalid name is skipped. *)
Definition LoadReservedName {E} (name : list Z) : M ReservedNames E () :=
  '(ok, wstr) ← on_local [] (Utf8toWStr name);
  if negb ok then mret () else modify (fun store => {[wstrToLower wstr]} ∪ store).

Definition IsReservedName {E} (name : list Z) : M ReservedNames E bool :=
  '(ok, wstr) ← on_local [] (Utf8toWStr name);
  if negb ok then mret false else
  gets (fun store => bool_decide (wstrToLower wstr ∈ store)).

(** ** Declined names *)

Definition MAX_DECLINED_NAME_CASES : Z := 5.

(** [std::out_of_range], which [std::wstring::substr] throws. *)
Inductive std_exception := out_of_range.

Definition main_part {S} (wname : list Z) (declension : Z) : M S std_exception (list Z) :=
  match GetMainPartOfName wname declension with
  | Some main => mret main
  | None => throw out_of_range
  end.

(** The loop of [CheckDeclinedNames] from case [i] on. *)
Fixpoint declined_loop {S} (w_ownname mainpart : list Z) (names : list (list Z)) (i : Z)
    (x y : bool) : M S std_exception bool :=
  match names with
  | [] => mret (x || y)
  | name :: names' =>
      '(ok, wname) ← on_local [] (Utf8toWStr name);
      if negb ok then mret false else
      main ← main_part wname (i + 1);
      let x := if bool_decide (mainpart = main) then x else false in
      let y := if bool_decide (w_ownname = wname) then y else false in
      declined_loop w_ownname mainpart names' (i + 1) x y
  end.

Definition CheckDeclinedNames {S} (w_ownname : list Z) (names : list (list Z)) :
    M S std_exception bool :=
  mainpart ← main_part w_ownname 0;
  declined_loop w_ownname mainpart names 0 true true.
