(* ===== verification/NamesProps.v ===== *)
(** * Names and texts of clients: theorems

    What the conversions make of every string of octets, the normal form of a
    player's name, and the verdicts of the checks. *)

From S2P Require Import Prelude Util Utf8 Utf8Props Names.

(** ** Counting *)

Lemma utf8_distance_text {S} cps (s : S) :
  Forall scalar cps -> utf8_distance (utf8_text cps) s = Ok (zlen cps) s.
Proof. intros Hcps. unfold utf8_distance, on_local. run. by rewrite distance_text. Qed.

(** Octets are a text, or counting its code points throws. *)
Definition well_formed (s : list Z) : Prop := exists cps, Forall scalar cps /\ s = utf8_text cps.

Lemma stuck_not_encode cp rest l : scalar cp -> stuck l -> l = utf8_bytes cp ++ rest -> False.
Proof.
  intros Hcp [->|[_ [err Herr]]] Heq.
  - destruct (bytes_app_cons cp rest) as (x & l & Hx). congruence.
  - subst l. rewrite validate_next_encode in Herr by done. discriminate.
Qed.

Lemma text_app_stuck cps cps' rest :
  Forall scalar cps -> Forall scalar cps' -> stuck rest ->
  utf8_text cps' = utf8_text cps ++ rest -> rest = [].
Proof.
  intros Hcps Hcps' Hst Heq.
  pose proof (find_invalid_text cps rest Hcps Hst) as H1.
  pose proof (find_invalid_text cps' [] Hcps' ltac:(by left)) as H2.
  rewrite app_nil_r, Heq in H2. congruence.
Qed.

Lemma utf8_distance_invalid {S} utf8str (s : S) :
  Forall octet utf8str -> ~ well_formed utf8str -> exists e, utf8_distance utf8str s = Throw e s.
Proof.
  intros Hs Hwf. destruct (utf8_split utf8str Hs) as (cps & rest & -> & Hcps & Hst).
  destruct (distance_invalid cps rest Hcps Hst) as [e He].
  { intros ->. apply Hwf. exists cps. by rewrite app_nil_r. }
  exists e. unfold utf8_distance, on_local. run. by rewrite He.
Qed.

Lemma well_formed_dec utf8str : Forall octet utf8str -> well_formed utf8str \/ ~ well_formed utf8str.
Proof.
  intros Hs. destruct (utf8_split utf8str Hs) as (cps & rest & Heq & Hcps & Hst).
  destruct (decide (rest = [])) as [->|Hne].
  - left. exists cps. by rewrite app_nil_r in Heq.
  - right. intros (cps' & Hcps' & Heq'). apply Hne. eapply (text_app_stuck cps cps'); [done..|].
    by rewrite <- Heq, <- Heq'.
Qed.

(** ** Lists *)

Lemma zlen_resize n s : 0 <= n -> zlen (resize n s) = n.
Proof.
  intros Hn. unfold resize, ztake, zlen. rewrite length_app, length_take, length_replicate. lia.
Qed.

Lemma ztake_0 {A} (l : list A) : ztake 0 l = [].
Proof. done. Qed.

Lemma zdrop_ge {A} n (l : list A) : zlen l <= n -> zdrop n l = [].
Proof. intros. unfold zdrop, zlen in *. apply drop_ge. lia. Qed.

Lemma resize_take n s : 0 <= n <= zlen s -> resize n s = ztake n s.
Proof.
  intros Hn. unfold resize. replace (Z.to_nat (n - zlen s)) with 0%nat by lia. apply app_nil_r.
Qed.

(** ** Utf8toWStr *)

Lemma Utf8toWStr_invalid {E} utf8str w :
  Forall octet utf8str -> ~ well_formed utf8str -> Utf8toWStr (E := E) utf8str w = Ok false [].
Proof.
  intros Hs Hwf. destruct (utf8_distance_invalid utf8str w Hs Hwf) as [e He].
  unfold Utf8toWStr, try_catch. run. by rewrite He.
Qed.

Lemma put_all l b :
  zlen l <= zlen b -> put_list l (mkOut b 0) = Ok () (mkOut (l ++ zdrop (zlen l) b) (zlen l)).
Proof.
  intros Hl. zlen_pos. rewrite put_list_run by (cbn [pos buf]; lia). cbn [pos buf].
  rewrite Z.add_0_l. by zbool.
Qed.

Lemma put_overrun l b :
  zlen b < zlen l -> put_list l (mkOut b 0) = Abort UndefinedBehaviour.
Proof.
  intros Hl. zlen_pos. rewrite put_list_run by (cbn [pos buf]; lia). cbn [pos buf].
  rewrite Z.add_0_l. by zbool.
Qed.

Lemma Utf8toWStr_text {E} cps w :
  Forall scalar cps -> cps <> [] ->
  Utf8toWStr (E := E) (utf8_text cps) w =
  if bool_decide (Forall bmp cps) then Ok true cps else Abort UndefinedBehaviour.
Proof.
  intros Hcps Hne. unfold Utf8toWStr, try_catch, mbind, M_bind.
  rewrite utf8_distance_text by done.
  assert (0 < zlen cps) by (destruct cps; [done|rewrite zlen_cons; zlen_pos; lia]).
  zbool. cbn [negb when]. run. unfold zoom. rewrite utf8to16_text by done.
  pose proof (utf16_zlen cps).
  case_bool_decide as Hb.
  - rewrite put_all by (rewrite utf16_bmp, zlen_resize by (done || lia); lia). cbn.
    rewrite utf16_bmp, zdrop_ge, app_nil_r by (done || rewrite zlen_resize; lia). done.
  - rewrite put_overrun; [done|]. rewrite zlen_resize by lia.
    rewrite <- utf16_zlen_bmp in Hb by done. lia.
Qed.

Lemma Utf8toWStr_cases {E} (utf8str w : list Z) :
  Forall octet utf8str -> utf8str <> [] ->
  (~ well_formed utf8str /\ Utf8toWStr (E := E) utf8str w = Ok false []) \/
  (exists cps, utf8str = utf8_text cps /\ Forall bmp cps /\
               Utf8toWStr (E := E) utf8str w = Ok true cps) \/
  (exists cps, utf8str = utf8_text cps /\ Forall scalar cps /\ Exists (fun cp => 0xffff < cp) cps /\
               Utf8toWStr (E := E) utf8str w = Abort UndefinedBehaviour).
Proof.
  intros Hs Hne. destruct (well_formed_dec utf8str Hs) as [(cps & Hcps & Heq)|Hwf];
    [|left; split; [done|by apply Utf8toWStr_invalid]].
  assert (Hc : cps <> []) by (intros ->; by subst).
  right. pose proof (Utf8toWStr_text (E := E) cps w Hcps Hc) as Hrun. rewrite <- Heq in Hrun.
  case_bool_decide as Hb; [left|right]; exists cps; [done|].
  split; [done|]. split; [done|]. split; [|done].
  apply Exists_exists. apply not_Forall_Exists in Hb; [|intros ?; apply bmp_dec].
  apply Exists_exists in Hb as (cp & Hin & Hn). exists cp. split; [done|].
  rewrite Forall_forall in Hcps. specialize (Hcps cp Hin). unfold bmp in Hn.
  destruct (Z.lt_ge_cases 0xffff cp); [done|]. by destruct Hn.
Qed.

(** C35.  [Utf8toWStr] into a [std::wstring] counts code points and writes 16-bit
    units: octets that are not UTF-8 are refused and the string emptied; a text,
    not empty, of characters of the basic plane becomes those characters, whatever the
    string held; for the empty text the guard leaves the string as it was and
    the conversion succeeds (Util.cpp:341); and any text with a character beyond
    the basic plane overruns the string, which is undefined behaviour. *)
Theorem Utf8toWStr_converts {E} (utf8str w : list Z) :
  Forall octet utf8str ->
  (utf8str = [] /\ Utf8toWStr (E := E) utf8str w = Ok true w) \/
  (~ well_formed utf8str /\ Utf8toWStr (E := E) utf8str w = Ok false []) \/
  (exists cps, utf8str = utf8_text cps /\ cps <> [] /\ Forall bmp cps /\
               Utf8toWStr (E := E) utf8str w = Ok true cps) \/
  (exists cps, utf8str = utf8_text cps /\ Forall scalar cps /\ Exists (fun cp => 0xffff < cp) cps /\
               Utf8toWStr (E := E) utf8str w = Abort UndefinedBehaviour).
Proof.
  intros Hs. destruct (decide (utf8str = [])) as [->|Hne]; [by left|right].
  destruct (Utf8toWStr_cases (E := E) utf8str w Hs Hne) as [H|[(cps & -> & Hb & H)|H]]; [by left| |by do 2 right].
  right. left. exists cps. split; [done|]. split; [by intros ->|done].
Qed.

(** The witness: U+1F600 is one code point, and two units. *)
Lemma Utf8toWStr_converts_witness :
  exists cps, [0xF0; 0x9F; 0x98; 0x80] = utf8_text cps /\ Forall scalar cps /\
    Exists (fun cp => 0xffff < cp) cps /\
    Utf8toWStr (E := utf8_exception) [0xF0; 0x9F; 0x98; 0x80] [] = Abort UndefinedBehaviour.
Proof.
  destruct (Utf8toWStr_converts (E := utf8_exception) [0xF0; 0x9F; 0x98; 0x80] []) as [H|[H|[H|H]]].
  - repeat constructor; vm_compute; intuition discriminate.
  - destruct H as [H _]. discriminate H.
  - destruct H as [_ H]. vm_compute in H. discriminate H.
  - destruct H as (cps & _ & _ & _ & H). vm_compute in H. discriminate H.
  - exact H.
Defined.

(** ** Utf8toWStr into a buffer *)

(** The buffer after a refused text. *)
Definition cleared (b : list Z) (n : Z) : WBuf :=
  mkWBuf (if 0 <? n then <[0%nat := 0]> b else b) 0.

Lemma set_at_0 {E} b n :
  0 < zlen b ->
  set_at (E := E) 0 0 (mkWBuf b n) = Ok () (mkWBuf (<[0%nat := 0]> b) n).
Proof. intros Hb. unfold set_at. cbn [wstr]. by zbool. Qed.

Lemma clear_buffer {E} b n :
  n <= zlen b ->
  (when (0 <? n) (set_at (E := E) 0 0);; modify (fun w => w <| wsize := 0 |>);; mret false)
    (mkWBuf b n) = Ok false (cleared b n).
Proof.
  intros Hb. unfold cleared, mbind, M_bind, when. destruct (Z.ltb_spec 0 n); [|done].
  by rewrite set_at_0 by lia.
Qed.

Lemma Utf8toWStr_buffer_invalid {E} utf8str b n :
  Forall octet utf8str -> ~ well_formed utf8str -> n <= zlen b ->
  Utf8toWStr_buffer (E := E) utf8str (mkWBuf b n) = Ok false (cleared b n).
Proof.
  intros Hs Hwf Hb. destruct (utf8_distance_invalid utf8str (mkWBuf b n) Hs Hwf) as [e He].
  unfold Utf8toWStr_buffer, try_catch. unfold mbind at 1, M_bind at 1. rewrite He.
  by apply clear_buffer.
Qed.

Lemma Utf8toWStr_buffer_long {E} cps b n :
  Forall scalar cps -> n <= zlen b -> n < zlen cps ->
  Utf8toWStr_buffer (E := E) (utf8_text cps) (mkWBuf b n) = Ok false (cleared b n).
Proof.
  intros Hcps Hb Hn. unfold Utf8toWStr_buffer, try_catch. unfold mbind at 1, M_bind at 1.
  rewrite utf8_distance_text by done. unfold mbind at 1, M_bind at 1, getS. cbn [wsize]. zbool.
  by rewrite clear_buffer.
Qed.

Lemma Utf8toWStr_buffer_text {E} cps b n :
  Forall scalar cps -> zlen cps <= n < zlen b ->
  Utf8toWStr_buffer (E := E) (utf8_text cps) (mkWBuf b n) =
  if zlen (utf16_text cps) <=? zlen b then
    Ok true (mkWBuf (<[Z.to_nat (zlen cps) := 0]>
                      (utf16_text cps ++ zdrop (zlen (utf16_text cps)) b)) (zlen cps))
  else Abort UndefinedBehaviour.
Proof.
  intros Hcps [Hn Hb]. unfold Utf8toWStr_buffer, try_catch. unfold mbind at 1, M_bind at 1.
  rewrite utf8_distance_text by done. unfold mbind at 1, M_bind at 1, getS. cbn [wsize]. zbool.
  unfold mbind, M_bind, modify, zoom. cbn [wstr set_field].
  rewrite utf8to16_text by done. zlen_pos. destruct (Z.leb_spec (zlen (utf16_text cps)) (zlen b)).
  - rewrite put_all by done. unfold set_at. cbn [buf wstr set_field].
    assert (Hl : zlen (utf16_text cps ++ zdrop (zlen (utf16_text cps)) b) = zlen b).
    { rewrite zlen_app. unfold zdrop, zlen in *. rewrite length_drop. lia. }
    rewrite Hl. zbool. done.
  - by rewrite put_overrun by lia.
Qed.

(** ** WStrToUtf8 *)

Lemma wstr_to_utf8_text {E} cps s :
  Forall scalar cps -> wstr_to_utf8 (E := E) (utf16_text cps) s = Ok true (utf8_text cps).
Proof.
  intros Hcps. pose proof (utf8_utf16_length cps). zlen_pos.
  unfold wstr_to_utf8, try_catch, mbind, M_bind. destruct (Z.eqb_spec (zlen (utf16_text cps)) 0) as [Hz|Hz].
  - cbn [negb]. run. rewrite Hz. replace (utf8_text cps) with (@nil Z); [done|].
    symmetry. apply length_zero_iff_nil. unfold zlen in *. lia.
  - cbn [negb]. unfold on_local. rewrite utf16to8_text by done.
    rewrite put_all by (rewrite zlen_resize by lia; lia). run. cbn [pos buf].
    rewrite resize_take by (zsimp; lia). by rewrite ztake_app.
Qed.

(** A list of 16-bit units is UTF-16, or the conversion throws. *)
Lemma wstr_to_utf8_invalid {E} units s :
  Forall unit16 units -> ~ (exists cps, Forall scalar cps /\ units = utf16_text cps) ->
  wstr_to_utf8 (E := E) units s = Ok false [].
Proof.
  intros Hu Hwf. destruct (utf16_split units Hu) as (cps & rest & -> & Hcps & Hst).
  assert (Hne : rest <> []) by (intros ->; apply Hwf; exists cps; by rewrite app_nil_r).
  pose proof (utf8_utf16_length cps).
  unfold wstr_to_utf8, try_catch, mbind, M_bind.
  assert (0 < zlen (utf16_text cps ++ rest))
    by (destruct rest; [done|]; zsimp; lia).
  zbool. cbn [negb]. unfold on_local.
  edestruct (utf16to8_invalid cps rest) as [e He]; [done..|apply put_all|rewrite He; done].
  rewrite zlen_resize by lia. zsimp. lia.
Qed.

(** C36.  The conversions are inverse to each other on the characters of the basic
    plane: a text, not empty, that [Utf8toWStr] converts is what [WStrToUtf8] makes
    of the result, octet for octet; and what [WStrToUtf8] makes of units (of 16 bits), at
    least one and all of the basic plane, [Utf8toWStr] turns back into them, whatever the
    string held.  Surrogate pairs, which [WStrToUtf8] accepts, do not come back:
    [Utf8toWStr] overruns the string on its result.  [WStrToUtf8] refuses units that
    are not UTF-16, emptying the string, and never overruns its buffer. *)
Theorem conversions_roundtrip {E} (units s w : list Z) :
  Forall unit16 units ->
  (WStrToUtf8 (E := E) units s = Ok false [] /\
   forall text, Forall octet text -> text <> [] -> Utf8toWStr (E := E) text w <> Ok true units) \/
  (exists text, WStrToUtf8 (E := E) units s = Ok true text /\ well_formed text /\
     (units <> [] -> Forall bmp units -> Utf8toWStr (E := E) text w = Ok true units) /\
     (units <> [] -> ~ Forall bmp units -> Utf8toWStr (E := E) text w = Abort UndefinedBehaviour) /\
     (forall text', Forall octet text' -> text' <> [] ->
        Utf8toWStr (E := E) text' w = Ok true units -> text' = text)).
Proof.
  intros Hu.
  assert (Hinv : forall text, Forall octet text -> text <> [] ->
    Utf8toWStr (E := E) text w = Ok true units -> Forall bmp units /\ text = utf8_text units).
  { intros text Ht Hne Hrun. destruct (Utf8toWStr_cases (E := E) text w Ht Hne)
      as [[_ H]|[(cps & -> & Hb & H)|(cps & _ & _ & _ & H)]]; rewrite H in Hrun; [done| |done].
    injection Hrun as ->. done. }
  assert (Hscalar : Forall bmp units -> Forall scalar units)
    by (intros Hb; eapply Forall_impl; [exact Hb|by intros cp [Hs _]]).
  destruct (utf16_split units Hu) as (cps & rest & Heq & Hcps & Hst).
  destruct (decide (rest = [])) as [->|Hne].
  - rewrite app_nil_r in Heq. subst units. right. exists (utf8_text cps).
    split; [by apply wstr_to_utf8_text|]. split; [by exists cps|].
    assert (Hsame : Forall bmp (utf16_text cps) -> utf16_text cps = cps).
    { intros Hb. apply (utf16_inj (utf16_text cps) cps); [auto..|]. by rewrite utf16_bmp. }
    split; [|split].
    + intros Hne Hb. pose proof (Hsame Hb) as Hcc. rewrite Hcc in Hb |- *.
      rewrite Utf8toWStr_text by (done || congruence). by rewrite bool_decide_eq_true_2.
    + intros Hne Hnb. rewrite Utf8toWStr_text by (done || (by intros ->)).
      rewrite bool_decide_eq_false_2; [done|]. intros Hb. apply Hnb. by rewrite utf16_bmp.
    + intros text' Ht' Hne' Hrun. destruct (Hinv text' Ht' Hne' Hrun) as [Hb ->].
      by rewrite (Hsame Hb).
  - assert (Hwf : ~ exists cps, Forall scalar cps /\ units = utf16_text cps).
    { intros (cps' & Hcps' & Heq'). apply Hne. eapply (utf16_app_stuck cps cps'); [done..|].
      by rewrite <- Heq, <- Heq'. }
    left. split; [by apply wstr_to_utf8_invalid|].
    intros text Ht Htne Hrun. apply Hwf. destruct (Hinv text Ht Htne Hrun) as [Hb _].
    exists units. split; [auto|]. symmetry. by apply utf16_bmp.
Qed.

Lemma conversions_roundtrip_witness :
  exists text, WStrToUtf8 (E := utf8_exception) [0x41; 0x20AC] [] = Ok true text /\
    well_formed text /\
    ([0x41; 0x20AC] <> [] -> Forall bmp [0x41; 0x20AC] ->
     Utf8toWStr (E := utf8_exception) text [] = Ok true [0x41; 0x20AC]) /\
    ([0x41; 0x20AC] <> [] -> ~ Forall bmp [0x41; 0x20AC] ->
     Utf8toWStr (E := utf8_exception) text [] = Abort UndefinedBehaviour) /\
    (forall text', Forall octet text' -> text' <> [] ->
       Utf8toWStr (E := utf8_exception) text' [] = Ok true [0x41; 0x20AC] -> text' = text).
Proof.
  destruct (conversions_roundtrip (E := utf8_exception) [0x41; 0x20AC] [] []) as [H|H].
  - repeat constructor; vm_compute; intuition discriminate.
  - destruct H as [H _]. vm_compute in H. discriminate H.
  - exact H.
Defined.

(** C34.  [is_valid] accepts exactly the encodings of lists of Unicode scalar
    values, so no overlong form, no surrogate and nothing above U+10FFFF; and
    [find_invalid] stops after the longest prefix that is one.  The loops end:
    the fuel is the length of the input. *)
Theorem utf8_valid (s : list Z) :
  Forall octet s ->
  (is_valid s = true <-> well_formed s) /\
  (exists cps rest, s = utf8_text cps ++ rest /\ Forall scalar cps /\ find_invalid s = Some rest /\
     forall cp rest', scalar cp -> rest <> utf8_bytes cp ++ rest').
Proof.
  intros Hs. destruct (utf8_split s Hs) as (cps & rest & Heq & Hcps & Hst).
  assert (Hf : find_invalid s = Some rest) by (subst s; by apply find_invalid_text).
  split.
  - unfold is_valid. rewrite Hf. split.
    + destruct rest; [|done]. intros _. exists cps. by rewrite app_nil_r in Heq.
    + intros (cps' & Hcps' & Heq').
      by rewrite (text_app_stuck cps cps' rest Hcps Hcps' Hst) by congruence.
  - exists cps, rest. split; [done|]. split; [done|]. split; [done|].
    intros cp rest' Hcp Hr. exact (stuck_not_encode cp rest' rest Hcp Hst Hr).
Qed.

Lemma utf8_valid_witness :
  let s := [0x41; 0xC0; 0x80] in
  (is_valid s = true <-> well_formed s) /\
  (exists cps rest, s = utf8_text cps ++ rest /\ Forall scalar cps /\ find_invalid s = Some rest /\
     forall cp rest', scalar cp -> rest <> utf8_bytes cp ++ rest').
Proof.
  intros s. apply (utf8_valid s). repeat constructor; vm_compute; intuition discriminate.
Defined.

(** ** normalizePlayerName *)

(** The normal form: the first letter in upper case, the others in lower case. *)
Definition capitalize (name : list Z) : list Z :=
  match name with [] => [] | c :: name' => wcharToUpper c :: map wcharToLower name' end.

Lemma fold_update_app f (l1 l2 l3 : list Z) :
  fold_left (update_at f) (seqZ (zlen l1) (zlen l2)) (l1 ++ l2 ++ l3) = l1 ++ map f l2 ++ l3.
Proof.
  revert l1. induction l2 as [|x l2 IH]; intros l1; [done|].
  rewrite seqZ_cons by (rewrite zlen_cons; zlen_pos; lia). cbn [fold_left].
  unfold update_at at 2. cbn [app].
  replace (Z.to_nat (zlen l1)) with (length l1 + 0)%nat by (unfold zlen; lia).
  rewrite alter_app_r. cbn [map app]. specialize (IH (l1 ++ [f x])).
  rewrite <- !app_assoc, zlen_app in IH. cbn [app] in IH.
  replace (Z.pred (zlen (x :: l2))) with (zlen l2) by (zsimp; lia).
  replace (Z.succ (zlen l1)) with (zlen l1 + zlen [f x]) by (zsimp; lia). exact IH.
Qed.

Lemma bmp_case c : bmp c -> bmp (wcharToUpper c) /\ bmp (wcharToLower c).
Proof.
  intros Hc. assert (Hr : 0 <= c) by (destruct Hc as [[? _] _]; lia).
  destruct (decide (c < 0x460)) as [Hlt|Hge].
  - revert Hc. apply (forall_below (fun c => bmp c -> bmp (wcharToUpper c) /\ bmp (wcharToLower c))
      0x460); [vm_compute; reflexivity|lia].
  - destruct (decide (c = 0x1E9E)) as [->|Hne]; [by vm_compute|].
    destruct (wchar_high c) as [-> ->]; [lia|done..].
Qed.

Lemma bmp_capitalize name : Forall bmp name -> Forall bmp (capitalize name).
Proof.
  destruct 1 as [|c name Hc Hname]; [constructor|]. cbn [capitalize]. constructor.
  - by apply bmp_case.
  - induction Hname; constructor; [by apply bmp_case|done].
Qed.

Lemma capitalize_idem name : Forall bmp name -> capitalize (capitalize name) = capitalize name.
Proof.
  destruct 1 as [|c name [[Hc _] _] Hname]; [done|]. cbn [capitalize]. f_equal.
  - apply wchar_upper_idem. lia.
  - rewrite map_map. apply map_ext_in. intros d Hd. apply wchar_lower_idem.
    rewrite Forall_forall in Hname. destruct (Hname d) as [[? _] _]; [by apply list_elem_of_In|lia].
Qed.

Lemma zlen_capitalize name : zlen (capitalize name) = zlen name.
Proof. destruct name; [done|]. unfold zlen. cbn. by rewrite length_map. Qed.

(** What the loop of [normalizePlayerName] makes of the buffer. *)
Lemma capitalize_loop c name rest :
  fold_left (update_at wcharToLower) (seqZ 1 (zlen (c :: name) - 1))
    (update_at wcharToUpper (c :: name ++ rest) 0) = capitalize (c :: name) ++ rest.
Proof.
  pose proof (fold_update_app wcharToLower [wcharToUpper c] name rest) as H.
  replace (zlen (c :: name) - 1) with (zlen name) by (zsimp; lia). exact H.
Qed.

Lemma insert_app_here {A} (l : list A) x y rest :
  <[Z.to_nat (zlen l) := x]> (l ++ y :: rest) = l ++ x :: rest.
Proof.
  unfold zlen. rewrite Nat2Z.id. replace (length l) with (length l + 0)%nat at 1 by lia.
  by rewrite insert_app_r.
Qed.

Lemma normalize_run {E} wstr_buf name :
  name <> [] ->
  normalizePlayerName (E := E) wstr_buf name =
  match Utf8toWStr_buffer name (mkWBuf wstr_buf 15) with
  | Ok false _ => Ok false name
  | Ok true w =>
      (ok ← WStrToUtf8_buffer
              (fold_left (update_at wcharToLower) (seqZ 1 (wsize w - 1))
                 (update_at wcharToUpper (wstr w) 0)) (wsize w);
       if negb ok then mret false else mret true) name
  | Throw e _ => Throw e name
  | Abort r => Abort r
  end.
Proof.
  intros Hne. assert (0 < zlen name) by (destruct name; [done|rewrite zlen_cons; zlen_pos; lia]).
  unfold normalizePlayerName. unfold mbind at 1, M_bind at 1, getS. zbool.
  unfold mbind at 1, M_bind at 1, on_local. change MAX_INTERNAL_PLAYER_NAME with 15.
  by destruct (Utf8toWStr_buffer name (mkWBuf wstr_buf 15)) as [[] ?| |].
Qed.

Lemma normalize_bmp {E} cps b :
  zlen b = 16 -> cps <> [] -> zlen cps <= 15 -> Forall bmp cps ->
  normalizePlayerName (E := E) b (utf8_text cps) = Ok true (utf8_text (capitalize cps)).
Proof.
  intros Hb Hne Hlen Hbmp.
  assert (Hcps : Forall scalar cps) by (eapply Forall_impl; [exact Hbmp|by intros cp [? _]]).
  destruct cps as [|c cps]; [done|]. clear Hne.
  rewrite normalize_run.
  2: { rewrite utf8_text_cons. destruct (bytes_app_cons c (utf8_text cps)) as (x & l & ->). done. }
  rewrite Utf8toWStr_buffer_text by (done || lia). rewrite utf16_bmp by done. zbool.
  cbn [wstr wsize].
  assert (Hr : exists y rest, zdrop (zlen (c :: cps)) b = y :: rest).
  { destruct (zdrop (zlen (c :: cps)) b) as [|y rest] eqn:Hd; [|eauto].
    apply (f_equal length) in Hd. unfold zdrop, zlen in *. rewrite length_drop in Hd. cbn in *. lia. }
  destruct Hr as (y & rest & ->). rewrite insert_app_here. cbn [app]. rewrite capitalize_loop.
  unfold WStrToUtf8_buffer. rewrite <- (zlen_capitalize (c :: cps)).
  assert (Hz : zlen (capitalize (c :: cps)) <= zlen (capitalize (c :: cps) ++ 0 :: rest))
    by (rewrite zlen_app; zlen_pos; lia).
  zbool. rewrite ztake_app. unfold mbind, M_bind.
  pose proof (bmp_capitalize _ Hbmp) as Hcb.
  rewrite <- (utf16_bmp (capitalize (c :: cps))) at 1 by done.
  rewrite wstr_to_utf8_text by (eapply Forall_impl; [exact Hcb|by intros cp [? _]]). done.
Qed.

(** C37.  [normalizePlayerName], whatever the stack holds: what is not UTF-8 or
    has more than 15 characters is refused and left as it is; a name of
    characters of the basic plane becomes its normal form, which is a fixed
    point and has as many characters; a name of at most 15 characters that needs
    more than 16 units overruns the array on the stack. *)
Theorem normalizePlayerName_spec {E} (name wstr_buf : list Z) :
  Forall octet name -> name <> [] -> zlen wstr_buf = MAX_INTERNAL_PLAYER_NAME + 1 ->
  (~ well_formed name -> normalizePlayerName (E := E) wstr_buf name = Ok false name) /\
  (forall cps, name = utf8_text cps -> Forall scalar cps ->
     (MAX_INTERNAL_PLAYER_NAME < zlen cps ->
      normalizePlayerName (E := E) wstr_buf name = Ok false name) /\
     (zlen cps <= MAX_INTERNAL_PLAYER_NAME < zlen (utf16_text cps) - 1 ->
      normalizePlayerName (E := E) wstr_buf name = Abort UndefinedBehaviour) /\
     (zlen cps <= MAX_INTERNAL_PLAYER_NAME -> Forall bmp cps ->
      normalizePlayerName (E := E) wstr_buf name = Ok true (utf8_text (capitalize cps)) /\
      normalizePlayerName (E := E) wstr_buf (utf8_text (capitalize cps)) =
        Ok true (utf8_text (capitalize cps)))).
Proof.
  intros Hs Hne Hb. change MAX_INTERNAL_PLAYER_NAME with 15 in *.
  split; [|intros cps -> Hcps; split; [|split]].
  - intros Hwf. rewrite normalize_run by done. by rewrite Utf8toWStr_buffer_invalid by (done || lia).
  - intros Hlong. rewrite normalize_run by done. by rewrite Utf8toWStr_buffer_long by (done || lia).
  - intros [Hlen Hover]. rewrite normalize_run by done.
    rewrite Utf8toWStr_buffer_text by (done || lia). by zbool.
  - intros Hlen Hbmp. assert (Hc : cps <> []) by (intros ->; done).
    pose proof (normalize_bmp (E := E) cps wstr_buf Hb Hc Hlen Hbmp) as H1. split; [done|].
    rewrite <- (capitalize_idem cps) at 2 by done.
    apply normalize_bmp; [done|by destruct cps|by rewrite zlen_capitalize|by apply bmp_capitalize].
Qed.

Lemma bmp_text w : (forallb (fun c => bool_decide (bmp c)) w) = true -> Forall bmp w.
Proof.
  intros Hw. rewrite Forall_forall. rewrite forallb_forall in Hw. intros c Hc.
  apply (bool_decide_eq_true_1 (bmp c)), Hw. by apply list_elem_of_In.
Qed.

Lemma octets_text s : forallb (fun c => (0 <=? c) && (c <? 256)) s = true -> Forall octet s.
Proof.
  intros Hs. rewrite Forall_forall. rewrite forallb_forall in Hs. intros c Hc.
  assert (Hb : (0 <=? c) && (c <? 256) = true) by (apply Hs; by apply list_elem_of_In).
  unfold octet. zprop. lia.
Qed.

(** The witness: fifteen times U+1F600 is fifteen characters, and thirty
    units. *)
Lemma normalizePlayerName_spec_witness :
  normalizePlayerName (E := utf8_exception) (replicate 16 0) (utf8_text (replicate 15 0x1F600)) =
  Abort UndefinedBehaviour.
Proof.
  apply (normalizePlayerName_spec (E := utf8_exception) (utf8_text (replicate 15 0x1F600))
           (replicate 16 0)) with (cps := replicate 15 0x1F600).
  - apply octets_text. vm_compute. reflexivity.
  - vm_compute. discriminate.
  - reflexivity.
  - reflexivity.
  - repeat constructor; vm_compute; intuition discriminate.
  - vm_compute. split; [discriminate|reflexivity].
Defined.

(** ** Acceptable names *)

Lemma is_string_of_map cls (f : Z -> Z) s b :
  Forall (fun c => cls (f c) = cls c /\ isNumericOrSpace (f c) = isNumericOrSpace c) s ->
  is_string_of cls (map f s) b = is_string_of cls s b.
Proof.
  induction 1 as [|c s [Hc Hn] _ IH]; [done|]. cbn [map is_string_of]. by rewrite Hc, Hn, IH.
Qed.

(** The classes of characters do not depend on their case. *)
Definition caseless (cls : Z -> bool) : Prop :=
  forall c, 0 <= c ->
    (cls (wcharToUpper c) = cls c /\ cls (wcharToLower c) = cls c).

Lemma caseless_intro cls :
  forallb (fun c => Bool.eqb (cls (wcharToUpper c)) (cls c) && Bool.eqb (cls (wcharToLower c)) (cls c))
    (0x1E9E :: seqZ 0 0x460) = true -> caseless cls.
Proof.
  intros Hall c Hc. rewrite forallb_forall in Hall.
  destruct (decide (c = 0x1E9E \/ c < 0x460)) as [Hin|Hout].
  - assert (Hb : Bool.eqb (cls (wcharToUpper c)) (cls c) &&
                 Bool.eqb (cls (wcharToLower c)) (cls c) = true).
    { apply Hall. destruct Hin as [->|Hin]; [by left|]. right.
      apply list_elem_of_In, elem_of_seqZ. lia. }
    apply andb_true_iff in Hb as [H1 H2]. split; by apply Bool.eqb_prop.
  - destruct (wchar_high c) as [-> ->]; [lia..|done].
Qed.

Lemma caseless_basic : caseless isBasicLatinCharacter.
Proof. apply caseless_intro. vm_compute. reflexivity. Qed.
Lemma caseless_extended : caseless isExtendedLatinCharacter.
Proof. apply caseless_intro. vm_compute. reflexivity. Qed.
Lemma caseless_cyrillic : caseless isCyrillicCharacter.
Proof. apply caseless_intro. vm_compute. reflexivity. Qed.
Lemma caseless_east_asian : caseless isEastAsianCharacter.
Proof. apply caseless_intro. vm_compute. reflexivity. Qed.
Lemma caseless_numeric : caseless isNumericOrSpace.
Proof. apply caseless_intro. vm_compute. reflexivity. Qed.

Lemma is_string_of_capitalize cls cps b :
  caseless cls -> Forall bmp cps -> is_string_of cls (capitalize cps) b = is_string_of cls cps b.
Proof.
  intros Hcls Hb. destruct Hb as [|c cps Hc Hcps]; [done|]. cbn [capitalize is_string_of].
  assert (H0 : forall d, bmp d -> 0 <= d) by (intros d [[? _] _]; lia).
  destruct (Hcls c (H0 c Hc)) as [-> _], (caseless_numeric c (H0 c Hc)) as [-> _].
  rewrite is_string_of_map; [done|]. eapply Forall_impl; [exact Hcps|]. intros d Hd. cbn beta.
  split; [apply Hcls, H0, Hd|apply caseless_numeric, H0, Hd].
Qed.

Lemma wstrToLower_capitalize cps :
  Forall bmp cps -> wstrToLower (capitalize cps) = wstrToLower cps.
Proof.
  intros Hb. destruct Hb as [|c cps [[Hc _] _] Hcps]; [done|]. unfold wstrToLower. cbn [capitalize map].
  f_equal; [apply wchar_case; lia|]. rewrite map_map. apply map_ext_in. intros d Hd.
  apply wchar_lower_idem. rewrite Forall_forall in Hcps.
  destruct (Hcps d) as [[? _] _]; [by apply list_elem_of_In|lia].
Qed.

Lemma three_consecutive_spec l :
  three_consecutive l = true <->
  exists i a, l !! i = Some a /\ l !! S i = Some a /\ l !! S (S i) = Some a.
Proof.
  induction l as [|a l IH]; [split; [done|intros (i & ? & ? & _)]; by rewrite lookup_nil in *|].
  destruct l as [|b [|c l]].
  - split; [done|]. by intros (i & ? & _ & ? & _).
  - split; [done|]. by intros (i & ? & _ & _ & ?).
  - change (three_consecutive (a :: b :: c :: l)) with
      (((c =? b) && (c =? a)) || three_consecutive (b :: c :: l)).
    rewrite orb_true_iff, andb_true_iff, !Z.eqb_eq, IH. split.
    + intros [[-> ->]|(i & x & H)]; [by exists 0%nat, a|by exists (S i), x].
    + intros ([|i] & x & H0 & H1 & H2); [left; cbn in *; split; congruence|right; by exists i, x].
Qed.

(** All letters of one of the scripts. *)
Definition one_script (cps : list Z) : Prop :=
  Forall (fun c => isExtendedLatinCharacter c = true) cps \/
  Forall (fun c => isCyrillicCharacter c = true) cps \/
  Forall (fun c => isEastAsianCharacter c = true) cps.

Lemma is_string_of_letters cls cps :
  is_string_of cls cps false = true <-> Forall (fun c => cls c = true) cps.
Proof.
  induction cps as [|c cps IH]; [split; [constructor|done]|]. cbn [is_string_of].
  rewrite Forall_cons. destruct (cls c); cbn [negb andb orb]; naive_solver.
Qed.

Lemma basic_is_extended cps :
  isBasicLatinString cps false = true -> isExtendedLatinString cps false = true.
Proof.
  unfold isBasicLatinString, isExtendedLatinString. rewrite !is_string_of_letters.
  intros Hb. eapply Forall_impl; [exact Hb|]. intros c Hc. cbn beta in *.
  unfold isExtendedLatinCharacter. by rewrite Hc.
Qed.

Lemma isValidString_script `{NameConfig} cps strict create :
  isValidString cps strict false create = true -> one_script cps.
Proof.
  unfold isValidString, one_script. rewrite <- !is_string_of_letters.
  fold isExtendedLatinString isCyrillicString isEastAsianString.
  pose proof (basic_is_extended cps).
  destruct (strict =? 0); rewrite !orb_true_iff, ?andb_true_iff, ?orb_true_iff, ?andb_true_iff;
    naive_solver.
Qed.

Section CheckPlayerName.
Context `{NameConfig}.

Lemma CheckPlayerName_text {S E} cps create (s : S) :
  Forall bmp cps -> cps <> [] ->
  CheckPlayerName (E := E) (utf8_text cps) create s =
  Ok (if MAX_PLAYER_NAME <? zlen cps then CHAR_NAME_TOO_LONG
      else if zlen cps <? CONFIG_MIN_PLAYER_NAME then CHAR_NAME_TOO_SHORT
      else if negb (isValidString cps CONFIG_STRICT_PLAYER_NAMES false create)
        then CHAR_NAME_MIXED_LANGUAGES
      else if three_consecutive (wstrToLower cps) then CHAR_NAME_THREE_CONSECUTIVE
      else CHAR_NAME_SUCCESS) s.
Proof.
  intros Hb Hne. unfold CheckPlayerName, mbind, M_bind, on_local.
  rewrite Utf8toWStr_text by (done || (eapply Forall_impl; [exact Hb|by intros cp [? _]])).
  rewrite bool_decide_eq_true_2 by done. cbn [negb].
  repeat match goal with |- context [if ?b then _ else _] => destruct b end; reflexivity.
Qed.

Lemma isValidString_capitalize cps strict create :
  Forall bmp cps ->
  isValidString (capitalize cps) strict false create = isValidString cps strict false create.
Proof.
  intros Hb. unfold isValidString, isExtendedLatinString, isCyrillicString, isEastAsianString,
    isBasicLatinString.
  by rewrite !is_string_of_capitalize by (apply caseless_basic || apply caseless_extended ||
    apply caseless_cyrillic || apply caseless_east_asian || done).
Qed.

(** C38.  [CheckPlayerName] judges a name, not empty and of characters of the basic
    plane, and its normal form alike, so that
    the order of [normalizePlayerName] and the check does not matter; a name
    that passes has 12 characters at most and as many as the option asks, of one
    script, and no three in a row that differ only in case; and without strict
    names, every such name passes. *)
Theorem CheckPlayerName_verdict {S E} (cps : list Z) (create : bool) (s : S) :
  Forall bmp cps -> cps <> [] ->
  exists verdict,
    CheckPlayerName (E := E) (utf8_text cps) create s = Ok verdict s /\
    CheckPlayerName (E := E) (utf8_text (capitalize cps)) create s = Ok verdict s /\
    let good := CONFIG_MIN_PLAYER_NAME <= zlen cps <= MAX_PLAYER_NAME /\ one_script cps /\
                ~ exists i a, wstrToLower cps !! i = Some a /\
                              wstrToLower cps !! Datatypes.S i = Some a /\
                              wstrToLower cps !! Datatypes.S (Datatypes.S i) = Some a in
    (verdict = CHAR_NAME_SUCCESS -> good) /\
    (CONFIG_STRICT_PLAYER_NAMES = 0 -> good -> verdict = CHAR_NAME_SUCCESS).
Proof.
  intros Hb Hne. eexists. split; [by apply CheckPlayerName_text|].
  rewrite CheckPlayerName_text by (by apply bmp_capitalize || by destruct cps).
  rewrite zlen_capitalize, isValidString_capitalize, wstrToLower_capitalize by done.
  split; [done|]. cbn zeta. rewrite <- three_consecutive_spec.
  destruct (Z.ltb_spec MAX_PLAYER_NAME (zlen cps)); [split; [done|lia]|].
  destruct (Z.ltb_spec (zlen cps) CONFIG_MIN_PLAYER_NAME); [split; [done|lia]|].
  destruct (isValidString cps CONFIG_STRICT_PLAYER_NAMES false create) eqn:Hv; cbn [negb].
  - pose proof (isValidString_script cps _ create Hv).
    destruct (three_consecutive (wstrToLower cps)).
    + split; [done|]. intros _ (_ & _ & Hn). by destruct Hn.
    + split; [|done]. intros _. split; [lia|]. split; [done|]. intros [=].
  - split; [done|]. intros Hz (_ & Hs & _). rewrite Hz in Hv. exfalso.
    unfold isValidString, one_script in *. rewrite <- !is_string_of_letters in Hs.
    change (0 =? 0) with true in Hv. cbv iota in Hv. fold isExtendedLatinString isCyrillicString isEastAsianString in Hs.
    rewrite !orb_false_iff in Hv. destruct Hv as [[V1 V2] V3]. intuition congruence.
Qed.
End CheckPlayerName.

#[local] Instance default_names : NameConfig := {|
  CONFIG_REALM_ZONE := REALM_ZONE_DEVELOPMENT;
  CONFIG_MIN_PLAYER_NAME := 2;
  CONFIG_STRICT_PLAYER_NAMES := 0;
  CONFIG_MIN_CHARTER_NAME := 2;
  CONFIG_STRICT_CHARTER_NAMES := 0;
  CONFIG_MIN_PET_NAME := 2;
  CONFIG_STRICT_PET_NAMES := 0
|}.

Lemma CheckPlayerName_verdict_witness :
  exists verdict,
    CheckPlayerName (E := utf8_exception) (utf8_text [0x61; 0x41; 0x61]) true () = Ok verdict () /\
    CheckPlayerName (E := utf8_exception) (utf8_text (capitalize [0x61; 0x41; 0x61])) true () =
      Ok verdict () /\
    let good := 2 <= zlen [0x61; 0x41; 0x61] <= MAX_PLAYER_NAME /\ one_script [0x61; 0x41; 0x61] /\
                ~ exists i a, wstrToLower [0x61; 0x41; 0x61] !! i = Some a /\
                              wstrToLower [0x61; 0x41; 0x61] !! Datatypes.S i = Some a /\
                              wstrToLower [0x61; 0x41; 0x61] !! Datatypes.S (Datatypes.S i) = Some a in
    (verdict = CHAR_NAME_SUCCESS -> good) /\ (0 = 0 -> good -> verdict = CHAR_NAME_SUCCESS).
Proof.
  apply (@CheckPlayerName_verdict default_names unit utf8_exception [0x61; 0x41; 0x61] true ()).
  - apply bmp_text. vm_compute. reflexivity.
  - discriminate.
Defined.

(** ** Declined names *)

(** The stems of the declined names, each by its case. *)
Definition stems (i : Z) (wnames : list (list Z)) : list (option (list Z)) :=
  imap (fun n w => GetMainPartOfName w (i + Z.of_nat n + 1)) wnames.

Lemma stems_cons i w wnames :
  stems i (w :: wnames) = GetMainPartOfName w (i + 1) :: stems (i + 1) wnames.
Proof.
  unfold stems. rewrite imap_cons. f_equal; [f_equal; lia|].
  apply imap_ext. intros n x _. cbn. f_equal. lia.
Qed.

(** A name that can be declined: UTF-8 of two characters or more. *)
Definition declinable (w : list Z) : Prop := Forall bmp w /\ 2 <= zlen w < 2 ^ 32.

Lemma main_part_ok {S} w d (s : S) :
  declinable w -> 0 <= d ->
  exists main, GetMainPartOfName w d = Some main /\ main_part w d s = Ok main s.
Proof.
  intros [_ Hl] Hd. destruct (main_part_returns w d Hl Hd) as [main Hm]. exists main.
  unfold main_part. by rewrite Hm.
Qed.

Lemma Utf8toWStr_declinable {E} w :
  declinable w -> Utf8toWStr (E := E) (utf8_text w) [] = Ok true w.
Proof.
  intros [Hb Hl]. rewrite Utf8toWStr_text.
  - by rewrite bool_decide_eq_true_2.
  - eapply Forall_impl; [exact Hb|by intros cp [? _]].
  - intros ->. rewrite zlen_nil in Hl. lia.
Qed.

Lemma bool_decide_Forall_cons {A} (P : A -> Prop) `{forall x, Decision (P x)} x l :
  bool_decide (Forall P (x :: l)) = bool_decide (P x) && bool_decide (Forall P l).
Proof. rewrite <- bool_decide_and. apply bool_decide_ext, Forall_cons. Qed.

Lemma declined_loop_run {S} own main wnames i x y (s : S) :
  Forall declinable wnames -> 0 <= i ->
  declined_loop own main (map utf8_text wnames) i x y s =
  Ok ((x && bool_decide (Forall (eq (Some main)) (stems i wnames))) ||
      (y && bool_decide (Forall (eq own) wnames))) s.
Proof.
  intros Hw. revert i x y. induction Hw as [|w wnames Hw Hws IH]; intros i x y Hi.
  - cbn. by rewrite !andb_true_r.
  - cbn [map declined_loop]. unfold mbind, M_bind, on_local.
    rewrite Utf8toWStr_declinable by done. cbn [negb].
    destruct (main_part_ok w (i + 1) s Hw) as (m & Hm & Hr); [lia|].
    rewrite Hr, IH by lia. rewrite stems_cons, Hm.
    f_equal. f_equal; rewrite bool_decide_Forall_cons.
    + rewrite (bool_decide_ext (main = m) (Some main = Some m)) by naive_solver.
      destruct x, (bool_decide (Some main = Some m)); reflexivity.
    + destruct y, (bool_decide (own = w)); reflexivity.
Qed.

Lemma declined_check {S} (own : list Z) (wnames : list (list Z)) (s : S) :
  declinable own -> Forall declinable wnames ->
  exists main, GetMainPartOfName own 0 = Some main /\
    CheckDeclinedNames own (map utf8_text wnames) s =
    Ok (bool_decide (Forall (eq (Some main)) (stems 0 wnames)) ||
        bool_decide (Forall (eq own) wnames)) s.
Proof.
  intros Ho Hw. destruct (main_part_ok own 0 s Ho) as (main & Hm & Hr); [done|].
  exists main. split; [done|]. unfold CheckDeclinedNames, mbind, M_bind. rewrite Hr.
  rewrite declined_loop_run by done. by rewrite !andb_true_l.
Qed.

(** The witness: a name, and its five cases. *)
Definition Anna : list Z := [0x0410; 0x043D; 0x043D; 0x0430].
Definition Anna_cases : list (list Z) :=
  map (fun e => [0x0410; 0x043D; 0x043D] ++ e) [[0x044B]; [0x0435]; [0x0443]; [0x043E; 0x0439]; [0x0435]].

Lemma declinable_intro w :
  forallb (fun c => bool_decide (bmp c)) w && (2 <=? zlen w) && (zlen w <? 2 ^ 32) = true -> declinable w.
Proof. intros Hw. zprop. split; [by apply bmp_text|lia]. Qed.

Example Anna_declined : CheckDeclinedNames Anna (map utf8_text Anna_cases) () = Ok true ().
Proof. vm_compute. reflexivity. Qed.

(** A name of one Cyrillic letter in the instrumental case lets
    [std::out_of_range] out. *)
Lemma CheckDeclinedNames_throws {S} own w0 w1 w2 c rest (s : S) :
  declinable own -> Forall declinable [w0; w1; w2] -> isCyrillicCharacter c = true ->
  CheckDeclinedNames own (map utf8_text ([w0; w1; w2; [c]] ++ rest)) s = Throw out_of_range s.
Proof.
  intros Ho Hw Hc. destruct (main_part_ok own 0 s Ho) as (main & Hm & Hr); [done|].
  unfold CheckDeclinedNames, mbind, M_bind. rewrite Hr. cbn [app map].
  assert (Hstep : forall w ws i x y, declinable w -> 0 <= i ->
    exists x' y', declined_loop own main (utf8_text w :: ws) i x y s =
                  declined_loop own main ws (i + 1) x' y' s).
  { intros w ws i x y Hd Hi. destruct (main_part_ok w (i + 1) s Hd) as (m & _ & Hmr); [lia|].
    do 2 eexists. cbn [declined_loop]. unfold mbind, M_bind, on_local.
    rewrite Utf8toWStr_declinable by done. cbn [negb]. rewrite Hmr. reflexivity. }
  pose proof (Forall_inv Hw) as H0. pose proof (Forall_inv_tail Hw) as Hw'.
  pose proof (Forall_inv Hw') as H1. pose proof (Forall_inv (Forall_inv_tail Hw')) as H2.
  destruct (Hstep w0 (utf8_text w1 :: utf8_text w2 :: utf8_text [c] :: map utf8_text rest)
              0 true true H0 ltac:(lia)) as (x0 & y0 & ->).
  destruct (Hstep w1 (utf8_text w2 :: utf8_text [c] :: map utf8_text rest)
              (0 + 1) x0 y0 H1 ltac:(lia)) as (x1 & y1 & ->).
  destruct (Hstep w2 (utf8_text [c] :: map utf8_text rest)
              (0 + 1 + 1) x1 y1 H2 ltac:(lia)) as (x2 & y2 & ->).
  cbn [declined_loop]. unfold mbind, M_bind, on_local.
  assert (Hb : bmp c).
  { unfold isCyrillicCharacter in Hc. unfold bmp, scalar.
    destruct ((0x0410 <=? c) && (c <=? 0x044F)) eqn:H3; [zprop; lia|].
    destruct ((c =? 0x0401) || (c =? 0x0451)) eqn:H4; [|discriminate].
    apply orb_true_iff in H4 as [H4|H4]; zprop; lia. }
  rewrite Utf8toWStr_text by (done || (constructor; [apply Hb|constructor])).
  rewrite bool_decide_eq_true_2 by (by constructor). cbn [negb].
  unfold main_part. change (0 + 1 + 1 + 1 + 1) with 4.
  replace (GetMainPartOfName [c] 4) with (@None (list Z)); [done|].
  unfold GetMainPartOfName. rewrite Hc. reflexivity.
Qed.

(** ** utf8truncate *)

Lemma zlen_take {A} n (l : list A) : 0 <= n <= zlen l -> zlen (ztake n l) = n.
Proof. intros Hn. unfold ztake, zlen in *. rewrite length_take. lia. Qed.

Lemma ztake_drop_app {A} n (l : list A) : ztake n l ++ zdrop n l = l.
Proof. apply take_drop. Qed.

Lemma utf8_text_app l1 l2 : utf8_text (l1 ++ l2) = utf8_text l1 ++ utf8_text l2.
Proof. induction l1 as [|cp l1 IH]; [done|]. cbn [app]. by rewrite !utf8_text_cons, IH, <- app_assoc. Qed.

Lemma scalar_bmp cps : Forall bmp cps -> Forall scalar cps.
Proof. intros Hb. eapply Forall_impl; [exact Hb|by intros cp [? _]]. Qed.

(** What is not UTF-8 is emptied, a text of at most [len] code points stays, and
    of a longer text of the basic plane the first [len] are left; a longer text
    with other characters overruns the buffer. *)
Lemma utf8truncate_cases {E} len s :
  Forall octet s -> 0 <= len ->
  (~ well_formed s /\ utf8truncate (E := E) len s = Ok () []) \/
  (exists cps, s = utf8_text cps /\ Forall scalar cps /\
     utf8truncate (E := E) len s =
       if zlen cps <=? len then Ok () s
       else if bool_decide (Forall bmp cps) then Ok () (utf8_text (ztake len cps))
       else Abort UndefinedBehaviour).
Proof.
  intros Hs Hlen. destruct (well_formed_dec s Hs) as [(cps & Hcps & ->)|Hwf]; [right|left].
  2: { split; [done|]. destruct (utf8_distance_invalid s s Hs Hwf) as [e He].
       unfold utf8truncate, try_catch. run. by rewrite He. }
  exists cps. split; [done|]. split; [done|].
  unfold utf8truncate, try_catch, mbind, M_bind. run. rewrite utf8_distance_text by done.
  destruct (Z.leb_spec (zlen cps) len) as [Hle|Hgt]; [done|]. unfold on_local, zoom.
  rewrite utf8to16_text by done. pose proof (utf16_zlen cps). zlen_pos.
  case_bool_decide as Hb.
  - rewrite utf16_bmp by done. rewrite put_all by (rewrite zlen_resize by lia; lia). cbn.
    rewrite (zdrop_ge (zlen cps) (resize _ _)), app_nil_r by (rewrite zlen_resize; lia).
    rewrite resize_take by lia.
    assert (Hbt : Forall bmp (ztake len cps)) by by apply Forall_take.
    rewrite <- (utf16_bmp (ztake len cps)) at 1 by done.
    rewrite utf16to8_text by by apply scalar_bmp.
    assert (Heq : utf8_text cps = utf8_text (ztake len cps) ++ utf8_text (zdrop len cps))
      by by rewrite <- utf8_text_app, ztake_drop_app.
    rewrite put_all by (rewrite Heq, zlen_app; zlen_pos; lia). cbn.
    rewrite resize_take by (zsimp; lia). by rewrite ztake_app.
  - rewrite put_overrun; [done|]. rewrite zlen_resize by lia.
    rewrite <- utf16_zlen_bmp in Hb by done. lia.
Qed.

(** ** Texts that overrun nothing *)

(** No character of a text is beyond the basic plane, where [Utf8toWStr] overruns
    its string. *)
Definition basic (name : list Z) : Prop :=
  forall cps, name = utf8_text cps -> Forall scalar cps -> Forall bmp cps.

(** A name given by the client is refused or normalised. *)
Lemma normalize_total {E} name b :
  Forall octet name -> basic name -> zlen b = MAX_INTERNAL_PLAYER_NAME + 1 ->
  exists ok t, normalizePlayerName (E := E) b name = Ok ok t /\ (ok = true -> zlen t <= 45).
Proof.
  intros Hoct Hbmp Hb. change MAX_INTERNAL_PLAYER_NAME with 15 in Hb.
  destruct (decide (name = [])) as [->|Hne]; [by exists false, []|].
  destruct (well_formed_dec name Hoct) as [(cps & Hcps & ->)|Hwf].
  2: { exists false, name. rewrite normalize_run by done.
       by rewrite Utf8toWStr_buffer_invalid by (done || lia). }
  assert (Hc : cps <> []) by (intros ->; done).
  destruct (Z.lt_ge_cases 15 (zlen cps)) as [Hlong|Hshort].
  { exists false, (utf8_text cps). rewrite normalize_run by done.
    by rewrite Utf8toWStr_buffer_long by (done || lia). }
  specialize (Hbmp cps eq_refl Hcps).
  exists true, (utf8_text (capitalize cps)). split; [by apply normalize_bmp|]. intros _.
  etransitivity; [apply utf8_utf16_length|]. rewrite utf16_bmp, zlen_capitalize by by apply bmp_capitalize. lia.
Qed.

(** A text cut to [len] characters. *)
Lemma utf8truncate_total {E} len s :
  Forall octet s -> basic s -> 0 <= len ->
  exists t, utf8truncate (E := E) len s = Ok () t /\ zlen t <= 3 * len.
Proof.
  intros Hoct Hb Hlen. destruct (utf8truncate_cases (E := E) len s Hoct Hlen) as [[_ ->]|(cps & -> & Hcps & ->)].
  - exists []. split; [done|]. rewrite zlen_nil. lia.
  - specialize (Hb cps eq_refl Hcps). rewrite bool_decide_eq_true_2 by done. zlen_pos.
    destruct (Z.leb_spec (zlen cps) len); eexists; (split; [done|]);
      (etransitivity; [apply utf8_utf16_length|]).
    + rewrite utf16_bmp by done. lia.
    + rewrite utf16_bmp, zlen_take by (lia || by apply Forall_take). lia.
Qed.

(** ASCII is such a text. *)
Lemma ascii_basic s : forallb (fun c => (0 <=? c) && (c <? 128)) s = true -> Forall octet s /\ basic s.
Proof.
  intros Hs. assert (Ha : Forall (fun c => 0 <= c < 128) s).
  { rewrite Forall_forall. rewrite forallb_forall in Hs. intros c Hc%list_elem_of_In%Hs. zprop. lia. }
  assert (Hsc : Forall scalar s) by (eapply Forall_impl; [exact Ha|]; unfold scalar; lia).
  assert (Hid : utf8_text s = s).
  { clear -Ha. induction Ha as [|c s Hc Hs IH]; [done|]. rewrite utf8_text_cons, IH.
    unfold utf8_bytes. by zbool. }
  split.
  - eapply Forall_impl; [exact Ha|]. unfold octet. lia.
  - intros cps Heq Hcps. rewrite <- Hid in Heq. apply utf8_inj in Heq as <-; [|done..].
    rewrite Forall_forall in *. intros c Hc. split; [by apply Hsc|]. specialize (Ha c Hc). cbn in Ha. lia.
Qed.
