(* ===== verification/NameHandlers.v ===== *)
(** * The handlers that set declined names

    [HandleSetPlayerDeclinedNames]
    ([src/src/server/game/Handlers/CharacterHandler.cpp]) and [HandlePetRename]
    ([PetHandler.cpp]): what a client can send, and what becomes of it.  A
    [ByteBufferException] is caught by [WorldSession::Update]; any other
    exception is not. *)

From S2P Require Import Prelude Guid Util Utf8 Names ByteBuffer Packet.

(** ** The session *)

(** A prepared statement: its name and the parameters set, by index. *)
Inductive stmt_name :=
| CHAR_DEL_CHAR_DECLINED_NAME | CHAR_INS_CHAR_DECLINED_NAME
| CHAR_DEL_CHAR_PET_DECLINEDNAME | CHAR_ADD_CHAR_PET_DECLINEDNAME.
Inductive sql_value := SqlUInt32 (n : Z) | SqlString (s : list Z).
Record statement := mkStatement { st_name : stmt_name; st_params : list (Z * sql_value) }.

(** What a handler does, in order. *)
Inductive effect :=
| SendPacket (data : WorldPacket)
| CommitTransaction (stmts : list statement)
| SetGroupUpdateFlag (owner : Z).

(** A unit that [ObjectAccessor::FindPet] can find; [GetCharmInfo] is the number
    of the pet, when it has one. *)
Record Pet := mkPet {
  isPet : bool; getPetType : Z; UNIT_CAN_BE_RENAMED : bool; GetOwnerGUID : Z;
  GetCharmInfo : option Z; m_name : list Z }.
#[export] Instance Pet_settable : Settable Pet := fun p =>
  mkPet (isPet p) (getPetType p) (UNIT_CAN_BE_RENAMED p) (GetOwnerGUID p) (GetCharmInfo p) (m_name p).

Record NSession := mkNSession {
  recvData : WorldPacket; pets : gmap Z Pet; reserved : ReservedNames; done_ : list effect }.
#[export] Instance NSession_settable : Settable NSession := fun s =>
  mkNSession (recvData s) (pets s) (reserved s) (done_ s).

(** The exceptions that reach [WorldSession::Update]. *)
Inductive exception := buffer_exception (e : ByteBufferException) | uncaught (e : std_exception).
Abbreviation NM := (M NSession exception).

(** What the handlers ask of other parts: the names of the players in the world
    and in the character cache, the groups, and the escaping of MySQL. *)
Class NameWorld := {
  FindPlayer_name : Z -> option (list Z);
  GetCharInfo_name : Z -> option (list Z);
  owner_in_group : Z -> bool;
  EscapeString : list Z -> list Z
}.

Definition HUNTER_PET : Z := 1.
Definition SMSG_SET_PLAYER_DECLINED_NAMES_RESULT : Z := 0x2B25.
Definition SMSG_PET_NAME_INVALID : Z := 0x6007.
Definition PET_NAME_RESERVED : Z := 8.
Definition PET_NAME_DECLENSION_DOESNT_MATCH_BASE_NAME : Z := 16.

Section Handlers.
Context `{Host} `{NameWorld} `{NameConfig}.

Definition do_ (e : effect) : NM () := modify (fun s => s <| done_ ::= fun l => l ++ [e] |>).

(** A read from the packet. *)
Definition recv {A} (m : BB A) : NM A :=
  try_catch (zoom recvData (fun p s => s <| recvData := p |>) (lift m))
    (fun e => throw (buffer_exception e)).

(** A computation that may throw [std::out_of_range]. *)
Definition std {A} (m : M NSession std_exception A) : NM A :=
  try_catch m (fun e => throw (uncaught e)).

(** Write a packet; nothing written here throws. *)
Definition send (opcode : Z) (m : BB ()) : NM () :=
  '(_, data) ← try_catch (on_local (WorldPacket_new opcode) (lift m))
                 (fun e => throw (buffer_exception e));
  do_ (SendPacket data).

(** *** Players *)

Definition GetPlayerNameByGUID (guid : Z) : option (list Z) :=
  match FindPlayer_name guid with
  | Some name => Some name
  | None => GetCharInfo_name (GUID_LOPART guid)
  end.

(** [data << uint32(1)]: the names are refused. *)
Definition send_refusal : NM () :=
  send SMSG_SET_PLAYER_DECLINED_NAMES_RESULT (out TU32 1).

(** The loop that reads [i] names, on the stack [wstr_buf]; [None] when one is
    refused. *)
Fixpoint read_declined (wstr_buf : list Z) (i : nat) : NM (option (list (list Z))) :=
  match i with
  | O => mret (Some [])
  | S i' =>
      name ← recv inn_string;
      '(ok, name) ← on_local name (normalizePlayerName wstr_buf);
      if negb ok then mret None else
      names ← read_declined wstr_buf i';
      mret (option_map (cons name) names)
  end.

Definition declined_params (names : list (list Z)) : list (Z * sql_value) :=
  imap (fun i name => (Z.of_nat i + 1, SqlString name)) names.

(** [wname[0]] of an empty string is undefined. *)
Definition HandleSetPlayerDeclinedNames (wstr_buf : list Z) : NM () :=
  guid ← recv (inn TU64);
  match GetPlayerNameByGUID guid with
  | None => send_refusal
  | Some name =>
      '(ok, wname) ← on_local [] (Utf8toWStr name);
      if negb ok then send_refusal else
      match wname with
      | [] => abort UndefinedBehaviour
      | c :: _ =>
          if negb (isCyrillicCharacter c) then send_refusal else
          name2 ← recv inn_string;
          if negb (bool_decide (name2 = name)) then send_refusal else
          names ← read_declined wstr_buf (Z.to_nat MAX_DECLINED_NAME_CASES);
          match names with
          | None => send_refusal
          | Some names =>
              ok ← std (CheckDeclinedNames wname names);
              if negb ok then send_refusal else
              let names := map EscapeString names in
              do_ (CommitTransaction
                [mkStatement CHAR_DEL_CHAR_DECLINED_NAME [(0, SqlUInt32 (GUID_LOPART guid))];
                 mkStatement CHAR_INS_CHAR_DECLINED_NAME
                   ((0, SqlUInt32 (GUID_LOPART guid)) :: declined_params names)]);;
              send SMSG_SET_PLAYER_DECLINED_NAMES_RESULT (out TU32 0;; out TU64 guid)
          end
      end
  end.

(** *** Pets *)

Definition SendPetNameInvalid (error : Z) (name : list Z) (declinedName : option (list (list Z))) :
    NM () :=
  send SMSG_PET_NAME_INVALID
    (out TU32 error;;
     out_string name;;
     out TU8 (if declinedName then 1 else 0);;
     match declinedName with
     | Some names => for_each names out_string
     | None => mret ()
     end).

(** The names of a pet are read as they are. *)
Fixpoint read_names (i : nat) : NM (list (list Z)) :=
  match i with
  | O => mret []
  | S i' => name ← recv inn_string; names ← read_names i'; mret (name :: names)
  end.

Definition on_pet (petguid : Z) (f : Pet -> Pet) : NM () :=
  modify (fun s => s <| pets ::= alter f petguid |>).

(** The part after [SetName] and the flags; the time stamp of the name, which
    is the clock's, is left out. *)
Definition pet_declined (player petNumber isdeclined : Z) (name : list Z) : NM () :=
  '(ok, names) ←
    (if negb (isdeclined =? 0) then
       names ← read_names (Z.to_nat MAX_DECLINED_NAME_CASES);
       '(_, wname) ← on_local [] (Utf8toWStr name);
       ok ← std (CheckDeclinedNames wname names);
       mret (ok, Some names)
     else mret (true, None));
  if negb ok then SendPetNameInvalid PET_NAME_DECLENSION_DOESNT_MATCH_BASE_NAME name names else
  do_ (CommitTransaction
    match names with
    | Some names =>
        [mkStatement CHAR_DEL_CHAR_PET_DECLINEDNAME [(0, SqlUInt32 petNumber)];
         mkStatement CHAR_ADD_CHAR_PET_DECLINEDNAME
           ((0, SqlUInt32 (GUID_LOPART player)) :: declined_params names)]
    | None => []
    end).

Definition HandlePetRename (player : Z) : NM () :=
  petguid ← recv (inn TU64);
  name ← recv inn_string;
  isdeclined ← recv (inn TU8);
  s ← getS;
  match pets s !! petguid with
  | None => mret ()
  | Some pet =>
      match GetCharmInfo pet with
      | None => mret ()
      | Some petNumber =>
          if negb (isPet pet) || negb (getPetType pet =? HUNTER_PET) ||
             negb (UNIT_CAN_BE_RENAMED pet) || negb (GetOwnerGUID pet =? player)
          then mret () else
          res ← CheckPetName name;
          if negb (res =? PET_NAME_SUCCESS) then SendPetNameInvalid res name None else
          is_reserved ← zoom reserved (fun r s => s <| reserved := r |>) (IsReservedName name);
          if is_reserved : bool then SendPetNameInvalid PET_NAME_RESERVED name None else
          on_pet petguid (fun p => p <| m_name := name |>);;
          when (owner_in_group player) (do_ (SetGroupUpdateFlag player));;
          on_pet petguid (fun p => p <| UNIT_CAN_BE_RENAMED := false |>);;
          pet_declined player petNumber isdeclined name
      end
  end.
End Handlers.
