(* ===== verification/NameHandlersProps.v ===== *)
(** * Declined names: what a client can store

    The outcome of [HandleSetPlayerDeclinedNames] on every complete packet for
    a character with a Cyrillic name, and the packets that end the server. *)

From S2P Require Import Prelude Guid Util Utf8 Utf8Props Names NamesProps ByteBuffer Wire Packet NameHandlers.

Section Handlers.
Context `{Host} `{NameWorld}.

(** ** Reading *)

(** What is left of the packet begins with [bs]. *)
Definition coming (bs : list Z) (s : NSession) : Prop := reads bs (buffer (recvData s)).
Definition taken (n : Z) (s : NSession) : NSession :=
  s <| recvData ::= fun p => p <| buffer ::= advanced n |> |>.

Lemma taken_taken n m s : taken n (taken m s) = taken (m + n) s.
Proof. unfold taken. cbn. by rewrite advanced_advanced. Qed.

Lemma recv_ok {A} (c : codec A) fmt ok `{!Lawful c fmt ok} v bs s :
  ok v -> coming (fmt v ++ bs) s ->
  recv (c_in c) s = Ok v (taken (zlen (fmt v)) s) /\ coming bs (taken (zlen (fmt v)) s).
Proof.
  intros Hv Hr. apply reads_app in Hr as [Hr1 Hr2]. split; [|exact Hr2].
  unfold recv, try_catch, zoom, lift. by rewrite (lawful_in v).
Qed.

Lemma recv_string v bs s :
  string_ok v -> coming (string_fmt v ++ bs) s ->
  recv inn_string s = Ok v (taken (zlen (string_fmt v)) s) /\
  coming bs (taken (zlen (string_fmt v)) s).
Proof. apply (recv_ok string_codec string_fmt string_ok). Qed.

Lemma recv_u64 v bs s :
  in_width 64 v -> coming (scalar_fmt TU64 v ++ bs) s ->
  recv (inn TU64) s = Ok v (taken (zlen (scalar_fmt TU64 v)) s) /\
  coming bs (taken (zlen (scalar_fmt TU64 v)) s).
Proof. apply (recv_ok (scalar_codec TU64) (scalar_fmt TU64) (scalar_ok TU64)). Qed.

(** Answers. *)
Lemma send_ok opcode m bs s :
  writes m bs -> zlen bs <= 10000000 ->
  send opcode m s = Ok () (s <| done_ ::= fun l => l ++ [SendPacket (packet_of opcode bs)] |>).
Proof.
  intros Hm Hl. unfold send, mbind, M_bind, try_catch, on_local, lift.
  rewrite (Hm (buffer (WorldPacket_new opcode))) by (done || (unfold size; cbn; lia)). reflexivity.
Qed.

(** ** Names *)

(** A character other than NUL of the basic plane. *)
Definition letter (c : Z) : Prop := bmp c /\ 0 < c.

Lemma string_ok_bytes c : letter c -> string_ok (utf8_bytes c).
Proof.
  intros [[[Hr _] Hb] Hc]. unfold utf8_bytes, string_ok.
  destruct (Z.ltb_spec c 0x80); [|destruct (Z.ltb_spec c 0x800);
    [|destruct (Z.ltb_spec c 0x10000); [|lia]]];
    repeat (apply Forall_cons; split; [divmod_lia|]); by apply Forall_nil.
Qed.

Lemma string_ok_text w : Forall letter w -> string_ok (utf8_text w).
Proof.
  induction 1 as [|c w Hc _ IH]; [apply Forall_nil; exact I|]. rewrite utf8_text_cons.
  apply Forall_app. split; [by apply string_ok_bytes|exact IH].
Qed.

(** A name a client sends for one of the cases. *)
Definition sent_name (w : list Z) : Prop :=
  Forall letter w /\ 1 <= zlen w <= MAX_INTERNAL_PLAYER_NAME.

Lemma letters_bmp w : Forall letter w -> Forall bmp w.
Proof. intros Hw. eapply Forall_impl; [exact Hw|by intros c [? _]]. Qed.

Lemma read_declined_ok wstr_buf wnames bs s :
  zlen wstr_buf = MAX_INTERNAL_PLAYER_NAME + 1 -> Forall sent_name wnames ->
  coming (concat (map (fun w => string_fmt (utf8_text w)) wnames) ++ bs) s ->
  exists n, read_declined wstr_buf (length wnames) s =
            Ok (Some (map (fun w => utf8_text (capitalize w)) wnames)) (taken n s).
Proof.
  intros Hbuf Hw. revert s. induction Hw as [|w wnames [Hl Hlen] Hw IH]; intros s Hr.
  - exists 0. cbn. unfold taken. destruct s as [[op b] ? ? ?]. cbn. by rewrite advanced_0.
  - cbn [map concat length read_declined] in *. rewrite <- app_assoc in Hr.
    destruct (recv_string (utf8_text w) _ s (string_ok_text w Hl) Hr) as [H1 H2].
    unfold mbind, M_bind. rewrite H1. unfold on_local.
    change MAX_INTERNAL_PLAYER_NAME with 15 in *.
    rewrite normalize_bmp; [|done|by intros ->; rewrite zlen_nil in Hlen; lia|lia|by apply letters_bmp].
    cbn [negb]. destruct (IH _ H2) as [n Hn]. rewrite Hn. rewrite taken_taken. by eexists.
Qed.

(** ** HandleSetPlayerDeclinedNames *)

Definition refusal : effect :=
  SendPacket (packet_of SMSG_SET_PLAYER_DECLINED_NAMES_RESULT (scalar_fmt TU32 1)).

(** The row of [character_declinedname] of the character, and the answer. *)
Definition acceptance (guid : Z) (names : list (list Z)) : list effect :=
  [CommitTransaction
     [mkStatement CHAR_DEL_CHAR_DECLINED_NAME [(0, SqlUInt32 (GUID_LOPART guid))];
      mkStatement CHAR_INS_CHAR_DECLINED_NAME
        ((0, SqlUInt32 (GUID_LOPART guid)) :: declined_params (map EscapeString names))];
   SendPacket (packet_of SMSG_SET_PLAYER_DECLINED_NAMES_RESULT
                 (scalar_fmt TU32 0 ++ scalar_fmt TU64 guid))].

(** The packet: the identifier, the name, and the names of the cases. *)
Definition declined_packet (guid : Z) (name2 : list Z) (wnames : list (list Z)) : list Z :=
  scalar_fmt TU64 guid ++ string_fmt name2 ++
  concat (map (fun w => string_fmt (utf8_text w)) wnames).

(** A character with a Cyrillic name of two letters or more. *)
Definition cyrillic_character (guid : Z) (own : list Z) : Prop :=
  in_width 64 guid /\ GetPlayerNameByGUID guid = Some (utf8_text own) /\ declinable own /\
  match own with c :: _ => isCyrillicCharacter c = true | [] => False end.

Lemma send_refusal_ok s : send_refusal s = Ok () (s <| done_ ::= fun l => l ++ [refusal] |>).
Proof. apply send_ok; [apply writes_out|done]. Qed.

(** The handler up to the names. *)
Lemma declined_prefix wstr_buf guid own name2 wnames s :
  cyrillic_character guid own -> string_ok name2 -> length wnames = 5%nat ->
  zlen wstr_buf = MAX_INTERNAL_PLAYER_NAME + 1 -> Forall sent_name wnames ->
  coming (declined_packet guid name2 wnames) s ->
  exists n,
    HandleSetPlayerDeclinedNames wstr_buf s =
    (if negb (bool_decide (name2 = utf8_text own)) then send_refusal else
     ok ← std (CheckDeclinedNames own (map utf8_text (map capitalize wnames)));
     if negb ok then send_refusal else
     let names := map EscapeString (map utf8_text (map capitalize wnames)) in
     do_ (CommitTransaction
       [mkStatement CHAR_DEL_CHAR_DECLINED_NAME [(0, SqlUInt32 (GUID_LOPART guid))];
        mkStatement CHAR_INS_CHAR_DECLINED_NAME
          ((0, SqlUInt32 (GUID_LOPART guid)) :: declined_params names)]);;
     send SMSG_SET_PLAYER_DECLINED_NAMES_RESULT (out TU32 0;; out TU64 guid)) (taken n s).
Proof.
  intros (Hg & Hname & Ho & Hc) Hn2 Hlen Hbuf Hw Hr. unfold declined_packet in Hr.
  destruct (recv_u64 guid _ s Hg Hr) as [H1 Hr1].
  destruct (recv_string name2 _ _ Hn2 Hr1) as [H2 Hr2].
  rewrite <- (app_nil_r (concat _)) in Hr2.
  destruct (read_declined_ok wstr_buf wnames [] _ Hbuf Hw Hr2) as [n Hn].
  unfold HandleSetPlayerDeclinedNames. unfold mbind at 1, M_bind at 1. rewrite H1, Hname.
  unfold mbind at 1, M_bind at 1, on_local. rewrite Utf8toWStr_declinable by done. cbn [negb].
  destruct own as [|c own]; [done|]. rewrite Hc. cbn [negb].
  unfold mbind at 1, M_bind at 1. rewrite H2.
  destruct (negb (bool_decide (name2 = utf8_text (c :: own)))).
  - eexists. by rewrite taken_taken.
  - exists (zlen (scalar_fmt TU64 guid) + zlen (string_fmt name2) + n).
    unfold mbind at 1, M_bind at 1. change (Z.to_nat MAX_DECLINED_NAME_CASES) with 5%nat.
    rewrite <- Hlen, Hn, !taken_taken, Z.add_assoc, (map_map capitalize utf8_text). reflexivity.
Qed.

Lemma declinable_capitalize w : sent_name w -> 2 <= zlen w -> declinable (capitalize w).
Proof.
  intros [Hl Hlen] H2. change MAX_INTERNAL_PLAYER_NAME with 15 in Hlen.
  split; [by apply bmp_capitalize, letters_bmp|]. rewrite zlen_capitalize. lia.
Qed.

(** The invariant part of the session: only what was done is compared. *)
Definition does (m : NM ()) (s : NSession) (effects : list effect) : Prop :=
  exists s', m s = Ok () s' /\ done_ s' = done_ s ++ effects.

(** C39.  What [HandleSetPlayerDeclinedNames] does with a complete packet for a
    character with a Cyrillic name, whose five names have two to fifteen letters
    of the BMP each (a longer or an empty name is refused, and one of a single
    letter can let an exception out, see C40): it answers a refusal, and does nothing else,
    when the packet has another name or the five names are not its declensions;
    otherwise it stores the five names, in their normal form, as the one row of
    that character, and says so.  Nothing asks whose character it is. *)
Theorem declined_names_stored (wstr_buf : list Z) (guid : Z) (own name2 : list Z)
    (wnames : list (list Z)) (s : NSession) :
  cyrillic_character guid own -> string_ok name2 -> length wnames = 5%nat ->
  zlen wstr_buf = MAX_INTERNAL_PLAYER_NAME + 1 -> Forall sent_name wnames ->
  Forall (fun w => 2 <= zlen w) wnames ->
  coming (declined_packet guid name2 wnames) s ->
  let names := map capitalize wnames in
  exists main, GetMainPartOfName own 0 = Some main /\
    does (HandleSetPlayerDeclinedNames wstr_buf) s
      (if bool_decide (name2 = utf8_text own) &&
          (bool_decide (Forall (eq (Some main)) (stems 0 names)) ||
           bool_decide (Forall (eq own) names))
       then acceptance guid (map utf8_text names) else [refusal]).
Proof.
  intros Hch Hn2 Hlen Hbuf Hw H2 Hr names.
  destruct (declined_prefix wstr_buf guid own name2 wnames s Hch Hn2 Hlen Hbuf Hw Hr) as [n Hn].
  assert (Hd : Forall declinable names).
  { unfold names. rewrite Forall_map, Forall_forall in *. intros w Hin.
    apply declinable_capitalize; [apply Hw, Hin|apply H2, Hin]. }
  destruct Hch as (_ & _ & Ho & _).
  destruct (declined_check own names (taken n s) Ho Hd) as (main & Hm & Hrun).
  exists main. split; [done|]. unfold does. rewrite Hn.
  destruct (bool_decide (name2 = utf8_text own)); cbn [negb andb].
  - unfold mbind at 1, M_bind at 1, std, try_catch. fold names. rewrite Hrun.
    destruct (_ || _); cbn [negb].
    + eexists. unfold mbind, M_bind, do_ at 1, modify.
      split; [apply send_ok; [apply writes_bind; apply writes_out|done]|].
      cbn. by rewrite <- app_assoc.
    + eexists. by rewrite send_refusal_ok.
  - eexists. by rewrite send_refusal_ok.
Qed.

(** C40.  A declined name of one Cyrillic letter in the fourth place ends the
    server: [CheckDeclinedNames] lets [std::out_of_range] out of the handler,
    and [WorldSession::Update] catches only [ByteBufferException].  Any client
    that passed authentication can send it. *)
Theorem declined_names_crash (wstr_buf : list Z) (guid : Z) (own : list Z)
    (w0 w1 w2 w4 : list Z) (c : Z) (s : NSession) :
  cyrillic_character guid own -> zlen wstr_buf = MAX_INTERNAL_PLAYER_NAME + 1 ->
  Forall letter own -> Forall sent_name [w0; w1; w2; [c]; w4] ->
  Forall (fun w => 2 <= zlen w) [w0; w1; w2] -> isCyrillicCharacter (wcharToUpper c) = true ->
  coming (declined_packet guid (utf8_text own) [w0; w1; w2; [c]; w4]) s ->
  exists s', HandleSetPlayerDeclinedNames wstr_buf s = Throw (uncaught out_of_range) s'.
Proof.
  intros Hch Hbuf Hl Hw H2 Hc Hr.
  destruct (declined_prefix wstr_buf guid own (utf8_text own) [w0; w1; w2; [c]; w4] s Hch
              (string_ok_text own Hl)) as [n Hn]; [reflexivity|done..|].
  rewrite Hn, bool_decide_eq_true_2 by done. cbn [negb].
  assert (Hd : Forall declinable [capitalize w0; capitalize w1; capitalize w2]).
  { rewrite !Forall_cons in Hw, H2. destruct Hw as (W0 & W1 & W2 & _), H2 as (L0 & L1 & L2 & _).
    repeat (apply Forall_cons; split; [by apply declinable_capitalize|]). by apply Forall_nil. }
  destruct Hch as (_ & _ & Ho & _).
  pose proof (CheckDeclinedNames_throws own _ _ _ _ [capitalize w4] (taken n s) Ho Hd Hc) as Ht.
  exists (taken n s).
  unfold mbind at 1, M_bind at 1, std, try_catch.
  change (map utf8_text (map capitalize [w0; w1; w2; [c]; w4])) with
    (map utf8_text ([capitalize w0; capitalize w1; capitalize w2; [wcharToUpper c]] ++ [capitalize w4])).
  by rewrite Ht.
Qed.
End Handlers.

(** ** Witnesses *)

#[local] Instance small_host : Host := {| TRINITY_BIGENDIAN := false |}.

(** The character cache knows one character, 7. *)
#[local] Instance one_character : NameWorld := {|
  FindPlayer_name := fun _ => None;
  GetCharInfo_name := fun lo => if lo =? 7 then Some (utf8_text Anna) else None;
  owner_in_group := fun _ => false;
  EscapeString := fun s => s
|}.

Definition declined_session (wnames : list (list Z)) : NSession :=
  mkNSession (packet_of 0x6316 (declined_packet 7 (utf8_text Anna) wnames)) ∅ ∅ [].

Lemma coming_all op bs p r d : zlen bs < 2 ^ 63 -> coming bs (mkNSession (packet_of op bs) p r d).
Proof. intros Hl. exists [], []. by rewrite app_nil_r. Qed.

Lemma Anna_character : cyrillic_character 7 Anna.
Proof.
  split; [by vm_compute|]. split; [reflexivity|]. split; [|reflexivity].
  apply declinable_intro. vm_compute. reflexivity.
Qed.

Definition letterb (c : Z) : bool := bool_decide (bmp c) && (0 <? c).

Lemma letters_intro w : forallb letterb w = true -> Forall letter w.
Proof.
  intros Hw. rewrite Forall_forall. rewrite forallb_forall in Hw. intros c Hc.
  assert (Hl : letterb c = true) by (apply Hw; by apply list_elem_of_In).
  apply andb_true_iff in Hl as [Hb Hp]. zprop. split; [by apply (bool_decide_eq_true_1 (bmp c))|done].
Qed.

Lemma sent_name_intro w :
  forallb letterb w && ((1 <=? zlen w) && (zlen w <=? 15)) = true -> sent_name w.
Proof.
  intros Hw. apply andb_true_iff in Hw as [Hl Hlen].
  split; [by apply letters_intro|change MAX_INTERNAL_PLAYER_NAME with 15; zprop; lia].
Qed.

Ltac by_computing tac :=
  repeat (apply Forall_cons; split; [tac; vm_compute; (reflexivity || discriminate)|]);
  apply Forall_nil; exact I.

Lemma declined_names_stored_witness :
  exists main, GetMainPartOfName Anna 0 = Some main /\
    does (HandleSetPlayerDeclinedNames (replicate 16 0)) (declined_session Anna_cases)
      (if bool_decide (utf8_text Anna = utf8_text Anna) &&
          (bool_decide (Forall (eq (Some main)) (stems 0 (map capitalize Anna_cases))) ||
           bool_decide (Forall (eq Anna) (map capitalize Anna_cases)))
       then acceptance 7 (map utf8_text (map capitalize Anna_cases)) else [refusal]).
Proof.
  apply (declined_names_stored (replicate 16 0) 7 Anna (utf8_text Anna) Anna_cases
           (declined_session Anna_cases)).
  - exact Anna_character.
  - apply string_ok_text, letters_intro. reflexivity.
  - reflexivity.
  - reflexivity.
  - by_computing ltac:(apply sent_name_intro).
  - by_computing idtac.
  - apply coming_all. vm_compute. reflexivity.
Defined.

Lemma declined_names_crash_witness :
  exists s', HandleSetPlayerDeclinedNames (replicate 16 0)
               (declined_session [Anna; Anna; Anna; [0x042F]; Anna]) =
             Throw (uncaught out_of_range) s'.
Proof.
  apply (declined_names_crash (replicate 16 0) 7 Anna Anna Anna Anna Anna 0x042F
           (declined_session [Anna; Anna; Anna; [0x042F]; Anna])).
  - exact Anna_character.
  - reflexivity.
  - apply letters_intro. reflexivity.
  - by_computing ltac:(apply sent_name_intro).
  - by_computing idtac.
  - reflexivity.
  - apply coming_all. vm_compute. reflexivity.
Defined.

(** *** Pets *)

#[local] Instance any_pet_name : NameConfig := {|
  CONFIG_REALM_ZONE := REALM_ZONE_DEVELOPMENT; CONFIG_MIN_PLAYER_NAME := 2;
  CONFIG_STRICT_PLAYER_NAMES := 0; CONFIG_MIN_CHARTER_NAME := 2; CONFIG_STRICT_CHARTER_NAMES := 0;
  CONFIG_MIN_PET_NAME := 2; CONFIG_STRICT_PET_NAMES := 0
|}.

Definition pet_session (wnames : list (list Z)) : NSession :=
  mkNSession (packet_of 0 (scalar_fmt TU64 99 ++ string_fmt (utf8_text Anna) ++ scalar_fmt TU8 1 ++
                           concat (map (fun w => string_fmt (utf8_text w)) wnames)))
    {[99 := mkPet true HUNTER_PET true 7 (Some 5) []]} ∅ [].

(** The statement has seven parameters: the pet, the owner and the five names.
    The handler sets the player in the place of the pet, the first name in the
    place of the owner, and no seventh parameter. *)
Example pet_declined_row :
  match HandlePetRename 7 (pet_session Anna_cases) with
  | Ok _ s' =>
      done_ s' = [CommitTransaction
        [mkStatement CHAR_DEL_CHAR_PET_DECLINEDNAME [(0, SqlUInt32 5)];
         mkStatement CHAR_ADD_CHAR_PET_DECLINEDNAME
           ((0, SqlUInt32 7) ::
            imap (fun i w => (Z.of_nat i + 1, SqlString (utf8_text w))) Anna_cases)]]
  | _ => False
  end.
Proof. vm_compute. reflexivity. Qed.

(** The declined names are checked after the name is set and the right to
    rename the pet is spent: the client is told that the name is invalid, and
    the pet has it. *)
Example pet_renamed_and_refused :
  match HandlePetRename 7 (pet_session (replicate 5 [0x0410; 0x0411])) with
  | Ok _ s' =>
      pets s' !! 99 = Some (mkPet true HUNTER_PET false 7 (Some 5) (utf8_text Anna)) /\
      match done_ s' with [SendPacket data] => m_opcode data = SMSG_PET_NAME_INVALID | _ => False end
  | _ => False
  end.
Proof. vm_compute. split; reflexivity. Qed.
