(* ===== verification/Timers.v ===== *)
(** * Timers

    [src/src/server/shared/Utilities/Timer.h]: the millisecond clock and the
    timer structures the world update loop is driven by.  [time_t] is a 64-bit
    signed integer; the arithmetic of every field is written at its width. *)

From S2P Require Import Prelude.

(** ** The millisecond clock *)

(** [getMSTime], from the two readings of the system clock in milliseconds. *)
Definition getMSTime (ApplicationStartTime now : Z) : Z := u32 (now - ApplicationStartTime).

Definition getMSTimeDiff (oldMSTime newMSTime : Z) : Z :=
  if newMSTime <? oldMSTime then u32 (u32 (0xFFFFFFFF - oldMSTime) + newMSTime)
  else u32 (newMSTime - oldMSTime).

Definition GetMSTimeDiffToNow (ApplicationStartTime now oldMSTime : Z) : Z :=
  getMSTimeDiff oldMSTime (getMSTime ApplicationStartTime now).

(** ** IntervalTimer *)

Record IntervalTimer := mkIntervalTimer { _interval : Z; _current : Z }.
#[export] Instance IntervalTimer_settable : Settable IntervalTimer :=
  fun t => mkIntervalTimer (_interval t) (_current t).

Definition IntervalTimer_new : IntervalTimer := mkIntervalTimer 0 0.
Definition IT_Update (diff : Z) (t : IntervalTimer) : IntervalTimer :=
  let c := s64 (_current t + diff) in
  t <| _current := if c <? 0 then 0 else c |>.
Definition IT_Passed (t : IntervalTimer) : bool := _interval t <=? _current t.
Definition IT_Reset (t : IntervalTimer) : IntervalTimer :=
  if _interval t <=? _current t then t <| _current := s64 (_current t - _interval t) |> else t.
Definition IT_SetCurrent (current : Z) (t : IntervalTimer) : IntervalTimer := t <| _current := current |>.
Definition IT_SetInterval (interval : Z) (t : IntervalTimer) : IntervalTimer :=
  t <| _interval := interval |>.

(** The way the world uses one: update, and on [Passed] reset and act. *)
Fixpoint IT_run (diffs : list Z) (t : IntervalTimer) : Z * IntervalTimer :=
  match diffs with
  | [] => (0, t)
  | d :: diffs' =>
      let t1 := IT_Update d t in
      let '(n, t') := IT_run diffs' (if IT_Passed t1 then IT_Reset t1 else t1) in
      ((if IT_Passed t1 then 1 else 0) + n, t')
  end.

(** ** TimeTracker and TimeTrackerSmall *)

Record TimeTracker := mkTimeTracker { i_expiryTime : Z }.
Definition TT_Update (diff : Z) (t : TimeTracker) : TimeTracker :=
  mkTimeTracker (s64 (i_expiryTime t - diff)).
Definition TT_Passed (t : TimeTracker) : bool := i_expiryTime t <=? 0.
Definition TT_Reset (interval : Z) (t : TimeTracker) : TimeTracker := mkTimeTracker interval.

Definition TTS_new (expiry : Z) : TimeTracker := mkTimeTracker (s32 expiry).
Definition TTS_Update (diff : Z) (t : TimeTracker) : TimeTracker :=
  mkTimeTracker (s32 (i_expiryTime t - diff)).
Definition TTS_Reset (interval : Z) (t : TimeTracker) : TimeTracker := mkTimeTracker (s32 interval).

(** ** PeriodicTimer *)

Record PeriodicTimer := mkPeriodicTimer { i_period : Z; i_expireTime : Z }.
#[export] Instance PeriodicTimer_settable : Settable PeriodicTimer :=
  fun t => mkPeriodicTimer (i_period t) (i_expireTime t).

(** [Update]; [diff] is a [uint32]. *)
Definition PT_Update (diff : Z) (t : PeriodicTimer) : bool * PeriodicTimer :=
  let e := s32 (i_expireTime t - diff) in
  if 0 <? e then (false, t <| i_expireTime := e |>)
  else (true, t <| i_expireTime := s32 (e + (if s32 diff <? i_period t then i_period t else diff)) |>).
Definition PT_SetPeriodic (period start_time : Z) (t : PeriodicTimer) : PeriodicTimer :=
  mkPeriodicTimer period start_time.
Definition PT_TUpdate (diff : Z) (t : PeriodicTimer) : PeriodicTimer :=
  t <| i_expireTime := s32 (i_expireTime t - diff) |>.
Definition PT_TPassed (t : PeriodicTimer) : bool := i_expireTime t <=? 0.
Definition PT_TReset (diff period : Z) (t : PeriodicTimer) : PeriodicTimer :=
  t <| i_expireTime := s32 (i_expireTime t + (if diff <? period then period else diff)) |>.

Fixpoint PT_run (diffs : list Z) (t : PeriodicTimer) : Z * PeriodicTimer :=
  match diffs with
  | [] => (0, t)
  | d :: diffs' =>
      let '(b, t1) := PT_Update d t in
      let '(n, t') := PT_run diffs' t1 in ((if (b : bool) then 1 else 0) + n, t')
  end.

(** ** Properties *)

Definition zsum (l : list Z) : Z := foldr Z.add 0 l.

#[global] Arguments zsum : simpl never.

Lemma zsum_cons x l : zsum (x :: l) = x + zsum l.
Proof. done. Qed.

Lemma zsum_nonneg l : Forall (Z.le 0) l -> 0 <= zsum l.
Proof. unfold zsum. induction 1; cbn; lia. Qed.

(** [getMSTimeDiff] against the elapsed time modulo 2^32: exact while the
    clock has not wrapped, and one millisecond short when it has. *)
Theorem getMSTimeDiff_spec (old new : Z) :
  in_width 32 old -> in_width 32 new ->
  getMSTimeDiff old new
  = if old <=? new then u32 (new - old) else u32 (new - old) - 1.
Proof.
  unfold in_width. intros Ho Hn. unfold getMSTimeDiff.
  destruct (Z.ltb_spec new old); zbool; [|done].
  rewrite (wrap_small 32 (_ - old)) by (unfold in_width; lia).
  assert (Hw : u32 (new - old) = new - old + 2 ^ 32).
  { unfold wrap. rewrite <- (Z.mod_add _ 1), Z.mod_small by lia. lia. }
  rewrite Hw, wrap_small; [lia|unfold in_width; lia].
Qed.

Lemma getMSTimeDiff_spec_witness : getMSTimeDiff 0xFFFFFFF0 16 = u32 (16 - 0xFFFFFFF0) - 1.
Proof. apply (getMSTimeDiff_spec 0xFFFFFFF0 16); unfold in_width; lia. Defined.

(** An interval timer loses no time: run with updates no longer than its
    interval, it fires once per whole interval elapsed, and what it keeps is
    the remainder. *)
Theorem IT_run_periodic (interval : Z) (diffs : list Z) :
  0 < interval < 2 ^ 62 -> Forall (fun d => 0 <= d <= interval) diffs ->
  IT_run diffs (mkIntervalTimer interval 0)
  = (zsum diffs / interval, mkIntervalTimer interval (zsum diffs mod interval)).
Proof.
  intros Hi Hd. enough (Hgen : forall c, 0 <= c < interval ->
    IT_run diffs (mkIntervalTimer interval c)
    = ((c + zsum diffs) / interval, mkIntervalTimer interval ((c + zsum diffs) mod interval)))
    by (apply Hgen; lia).
  induction Hd as [|d diffs Hd Hds IH]; intros c Hc.
  - change (zsum []) with 0. cbn. by rewrite Z.add_0_r, Z.div_small, Z.mod_small by lia.
  - cbn [IT_run]. unfold IT_Update. cbn. no_swrap. zbool. unfold IT_Passed, IT_Reset. cbn.
    rewrite zsum_cons.
    destruct (Z.leb_spec interval (c + d)); cbn; zbool.
    + no_swrap. rewrite IH by lia.
      replace (c + (d + zsum diffs)) with (c + d - interval + zsum diffs + 1 * interval) by lia.
      rewrite Z.div_add, Z.mod_add by lia. f_equal. lia.
    + rewrite IH by lia. by rewrite Z.add_assoc, Z.add_0_l.
Qed.

Lemma IT_run_periodic_witness :
  IT_run [400; 700; 1000; 50] (mkIntervalTimer 1000 0) = (2, mkIntervalTimer 1000 150).
Proof. apply (IT_run_periodic 1000 [400; 700; 1000; 50]); [lia|]. repeat constructor; lia. Defined.

(** A periodic timer keeps its phase: with updates shorter than the period
    its expiry is always the start time minus the time elapsed plus one period
    per firing, and stays positive and at most the larger of start and period. *)
Theorem PT_run_phase (period start : Z) (diffs : list Z) :
  0 < period < 2 ^ 30 -> 0 < start < 2 ^ 30 -> Forall (fun d => 0 <= d < period) diffs ->
  let '(n, t) := PT_run diffs (mkPeriodicTimer period start) in
  i_expireTime t = start - zsum diffs + period * n /\
  0 < i_expireTime t <= Z.max start period /\ i_period t = period.
Proof.
  intros Hp Hs Hd. revert start Hs.
  induction Hd as [|d diffs Hd Hds IH]; intros start Hs; cbn [PT_run].
  - change (zsum []) with 0. cbn. lia.
  - unfold PT_Update. cbn. no_swrap.
    rewrite zsum_cons.
    destruct (Z.ltb_spec 0 (start - d)); cbn; zbool; no_swrap.
    + specialize (IH (start - d)).
      destruct (PT_run diffs _) as [n t]. destruct IH as (He & Hb & ->); lia.
    + specialize (IH (start - d + period)).
      destruct (PT_run diffs _) as [n t]. destruct IH as (He & Hb & ->); lia.
Qed.

Lemma PT_run_phase_witness :
  let '(n, t) := PT_run [30; 80; 99; 10] (mkPeriodicTimer 100 50) in
  i_expireTime t = 50 - zsum [30; 80; 99; 10] + 100 * n /\
  0 < i_expireTime t <= Z.max 50 100 /\ i_period t = 100.
Proof. apply (PT_run_phase 100 50 [30; 80; 99; 10]); [lia..|]. repeat constructor; lia. Defined.
