(* ===== verification/Events.v ===== *)
(** * The event processor

    [src/src/server/shared/Utilities/EventProcessor.{h,cpp}]: the time-ordered
    queue of delayed events every world object carries.  Events are heap
    objects reached through pointers; a pointer is an identifier, and reading
    or deleting one that is not allocated is undefined behaviour. *)

From stdpp Require Import sorting.
From S2P Require Import Prelude.

(** ** Data *)

Record BasicEvent := mkBasicEvent { to_Abort : bool; m_addTime : Z; m_execTime : Z }.
#[export] Instance BasicEvent_settable : Settable BasicEvent :=
  fun e => mkBasicEvent (to_Abort e) (m_addTime e) (m_execTime e).

(** What the processor called on an event, in order. *)
Inductive call :=
| Executed (Event : Z)
| Aborted (Event : Z)
| Deleted (Event : Z).

#[export] Instance call_eq_dec : EqDecision call.
Proof. solve_decision. Defined.

(** [m_events]: the entries of the multimap in iteration order. *)
Record EventProcessor := mkEventProcessor {
  m_time : Z;
  m_events : list (Z * Z);
  m_aborting : bool;
  heap : gmap Z BasicEvent;
  calls : list call
}.
#[export] Instance EventProcessor_settable : Settable EventProcessor :=
  fun p => mkEventProcessor (m_time p) (m_events p) (m_aborting p) (heap p) (calls p).

(** The main loop of [Update] ran out of the given number of iterations. *)
Inductive diverged := Diverged.

Abbreviation EP := (M EventProcessor diverged).

Definition EventProcessor_new (heap : gmap Z BasicEvent) : EventProcessor :=
  mkEventProcessor 0 [] false heap [].

Definition BasicEvent_new : BasicEvent := mkBasicEvent false 0 0.

(** The virtual functions of the events. *)
Class EventClass := {
  Execute : Z -> Z -> Z -> EP bool;
  Abort_ : Z -> Z -> EP unit;
  IsDeletable : Z -> bool
}.

(** ** Operations *)

Definition deref (Event : Z) : EP BasicEvent :=
  p ← getS;
  match heap p !! Event with
  | Some e => mret e
  | None => abort UndefinedBehaviour
  end.

Definition store (Event : Z) (e : BasicEvent) : EP unit :=
  deref Event;; modify (fun p => p <| heap ::= <[Event := e]> |>).

Definition log (c : call) : EP unit := modify (fun p => p <| calls ::= fun l => l ++ [c] |>).

Definition delete_event (Event : Z) : EP unit :=
  deref Event;; modify (fun p => p <| heap ::= delete Event |>);; log (Deleted Event).

(** [std::multimap::insert]: after the entries with the same key. *)
Fixpoint multimap_insert (key Event : Z) (l : list (Z * Z)) : list (Z * Z) :=
  match l with
  | [] => [(key, Event)]
  | (k, x) :: l' => if key <? k then (key, Event) :: l else (k, x) :: multimap_insert key Event l'
  end.

(** The iterator after an entry; [None] when the entry is not in the container. *)
Fixpoint successor (i : Z * Z) (l : list (Z * Z)) : option (option (Z * Z)) :=
  match l with
  | [] => None
  | x :: l' => if bool_decide (x = i) then Some (head l') else successor i l'
  end.

Fixpoint erase (i : Z * Z) (l : list (Z * Z)) : list (Z * Z) :=
  match l with
  | [] => []
  | x :: l' => if bool_decide (x = i) then l' else x :: erase i l'
  end.

Definition AddEvent (Event e_time : Z) (set_addtime : bool) : EP unit :=
  p ← getS;
  when set_addtime (e ← deref Event; store Event (e <| m_addTime := m_time p |>));;
  e ← deref Event;
  store Event (e <| m_execTime := e_time |>);;
  modify (fun p => p <| m_events ::= multimap_insert e_time Event |>).

Definition CalculateTime (t_offset : Z) : EP Z := gets (fun p => u64 (m_time p + t_offset)).

Section Processor.
Context `{EventClass}.

(** One iteration of the main loop, on the entry already removed. *)
Definition Update_entry (p_time Event : Z) : EP unit :=
  e ← deref Event;
  p ← getS;
  if negb (to_Abort e) then
    log (Executed Event);;
    b ← Execute Event (m_time p) p_time;
    when b (delete_event Event)
  else log (Aborted Event);; Abort_ Event (m_time p);; delete_event Event.

(** The [while] loop: [fuel] bounds its iterations. *)
Fixpoint Update_loop (fuel : nat) (p_time : Z) : EP unit :=
  p ← getS;
  match m_events p with
  | (t, Event) :: rest =>
      if t <=? m_time p then
        match fuel with
        | O => throw Diverged
        | S fuel' =>
            modify (fun p => p <| m_events := rest |>);;
            Update_entry p_time Event;;
            Update_loop fuel' p_time
        end
      else mret tt
  | [] => mret tt
  end.

Definition Update (fuel : nat) (p_time : Z) : EP unit :=
  modify (fun p => p <| m_time := u64 (m_time p + p_time) |>);;
  Update_loop fuel p_time.

(** The loop of [KillAllEvents] on the live container: [i] is the iterator,
    the entry it designates, or the end. *)
Fixpoint KillAllEvents_loop (fuel : nat) (force : bool) (i : option (Z * Z)) : EP unit :=
  match i with
  | None => mret tt
  | Some i_old =>
      match fuel with
      | O => throw Diverged
      | S fuel' =>
          p ← getS;
          match successor i_old (m_events p) with
          | None => abort UndefinedBehaviour
          | Some i' =>
              e ← deref i_old.2;
              store i_old.2 (e <| to_Abort := true |>);;
              log (Aborted i_old.2);; Abort_ i_old.2 (m_time p);;
              when (force || IsDeletable i_old.2)
                (delete_event i_old.2;;
                 when (negb force) (modify (fun p => p <| m_events ::= erase i_old |>)));;
              KillAllEvents_loop fuel' force i'
          end
      end
  end.

Definition KillAllEvents (fuel : nat) (force : bool) : EP unit :=
  modify (fun p => p <| m_aborting := true |>);;
  p ← getS;
  KillAllEvents_loop fuel force (head (m_events p));;
  when force (modify (fun p => p <| m_events := [] |>)).

(** [~EventProcessor] *)
Definition EventProcessor_destroy (fuel : nat) : EP unit := KillAllEvents fuel true.
End Processor.

(** ** Well-formed queues

    The entries are in the order of their times, no event is queued twice, and
    every queued event is allocated. *)

Definition entry_le (x y : Z * Z) : Prop := x.1 <= y.1.

Definition queue_ok (p : EventProcessor) : Prop :=
  StronglySorted entry_le (m_events p) /\ NoDup (map snd (m_events p)) /\
  forall x, x ∈ map snd (m_events p) -> is_Some (heap p !! x).

(** The entries [Update] has to handle now. *)
Definition due (p : EventProcessor) : list (Z * Z) :=
  filter (fun x => x.1 <= m_time p) (m_events p).

Definition fired (l : list call) : list Z :=
  omap (fun c => match c with Executed x | Aborted x => Some x | Deleted _ => None end) l.

(** How much [Update] has to do: an event counts for itself and for the due
    events it may add, [weight] says how many. *)
Definition load (weight : Z -> nat) (p : EventProcessor) : nat :=
  sum_list_with weight (map snd (due p)).

(** What a call of a virtual function leaves: a well-formed queue, the same
    time, and every due event either still due or fired by the call itself
    (one that calls [KillAllEvents], as the cleanup of a unit does). *)
Definition leaves (p p' : EventProcessor) : Prop :=
  queue_ok p' /\ m_time p' = m_time p /\
  exists l, calls p' = calls p ++ l /\
    forall x, x ∈ map snd (due p) -> x ∈ map snd (due p') \/ x ∈ fired l.

(** What the virtual functions promise [Update], which calls them on an
    allocated event it has taken from the queue.  They may add events, due
    ones included, mark, abort and delete the others, and queue their own event
    again; the due events they add weigh less than the event itself (a loop
    that gets as much work as it does need not end), and an event that asks
    for its deletion is allocated and not queued. *)
Record EventContract `{EventClass} (weight : Z -> nat) : Prop := {
  Execute_ok : forall Event p_time p,
    queue_ok p -> is_Some (heap p !! Event) -> Event ∉ map snd (m_events p) ->
    returns (Execute Event (m_time p) p_time)
      (fun b p' => leaves p p' /\ (load weight p' < load weight p + weight Event)%nat /\
                   (b = true -> is_Some (heap p' !! Event) /\ Event ∉ map snd (m_events p'))) p;
  Abort_ok : forall Event p,
    queue_ok p -> is_Some (heap p !! Event) -> Event ∉ map snd (m_events p) ->
    returns (Abort_ Event (m_time p))
      (fun _ p' => leaves p p' /\ (load weight p' < load weight p + weight Event)%nat /\
                   is_Some (heap p' !! Event) /\ Event ∉ map snd (m_events p')) p
}.

(** Events that leave the due entries as they are and call nothing. *)
Record QuietEvents `{EventClass} : Prop := {
  Execute_quiet : forall Event p_time p,
    returns (Execute Event (m_time p) p_time)
      (fun _ p' => due p' = due p /\ calls p' = calls p) p;
  Abort_quiet : forall Event p,
    returns (Abort_ Event (m_time p)) (fun _ p' => due p' = due p /\ calls p' = calls p) p
}.

(** What [KillAllEvents] relies on: its iterator survives the calls of
    [Abort] only when they leave the queue alone. *)
Record AbortContract `{EventClass} : Prop := {
  Abort_still : forall Event p,
    is_Some (heap p !! Event) ->
    returns (Abort_ Event (m_time p))
      (fun _ p' => m_events p' = m_events p /\ m_time p' = m_time p /\ calls p' = calls p /\
                   heap p' = heap p) p
}.

(** ** Lemmas *)

Lemma deref_ok Event e (p : EventProcessor) : heap p !! Event = Some e -> deref Event p = Ok e p.
Proof. intros Hl. unfold deref. run. by rewrite Hl. Qed.

Lemma multimap_insert_perm key x l : multimap_insert key x l ≡ₚ (key, x) :: l.
Proof.
  induction l as [|[k y] l IH]; cbn; [done|]. destruct (key <? k); [done|].
  rewrite IH. apply Permutation_swap.
Qed.

Lemma multimap_insert_sorted key x l :
  StronglySorted entry_le l -> StronglySorted entry_le (multimap_insert key x l).
Proof.
  induction 1 as [|[k y] l Hs IH Hall]; cbn; [repeat constructor|].
  destruct (Z.ltb_spec key k).
  - constructor; [by constructor|]. constructor; [unfold entry_le; cbn; lia|].
    eapply Forall_impl; [done|]. unfold entry_le. cbn. intros; lia.
  - constructor; [done|]. rewrite multimap_insert_perm. constructor; [|done].
    unfold entry_le. cbn. lia.
Qed.

Lemma multimap_insert_due (t key x : Z) l :
  filter (fun y : Z * Z => y.1 <= t) (multimap_insert key x l)
  ≡ₚ (if key <=? t then [(key, x)] else []) ++ filter (fun y : Z * Z => y.1 <= t) l.
Proof.
  rewrite multimap_insert_perm, filter_cons. cbn.
  destruct (Z.leb_spec key t); [by rewrite decide_True|by rewrite decide_False by lia].
Qed.

(** Adding a future event leaves the due ones alone. *)
Lemma multimap_insert_later (t key x : Z) l :
  t < key ->
  filter (fun y : Z * Z => y.1 <= t) (multimap_insert key x l)
  = filter (fun y : Z * Z => y.1 <= t) l.
Proof.
  intros Hk. induction l as [|[k y] l IH]; cbn [multimap_insert].
  - rewrite filter_cons_False; [done|cbn; lia].
  - destruct (Z.ltb_spec key k).
    + rewrite (filter_cons_False _ (key, x)); [done|cbn; lia].
    + rewrite !filter_cons, IH. done.
Qed.

Lemma AddEvent_ok Event e_time set_addtime p :
  queue_ok p -> is_Some (heap p !! Event) -> Event ∉ map snd (m_events p) ->
  returns (AddEvent Event e_time set_addtime)
    (fun _ p' => queue_ok p' /\ m_time p' = m_time p /\ calls p' = calls p /\
                 (forall x, is_Some (heap p !! x) -> is_Some (heap p' !! x)) /\
                 m_events p' = multimap_insert e_time Event (m_events p)) p.
Proof.
  intros (Hs & Hn & Ha) [e He] Hq. apply returns_Ok.
  enough (Hrun : exists h, AddEvent Event e_time set_addtime p
    = Ok tt (p <| heap := h |> <| m_events ::= multimap_insert e_time Event |>) /\
      is_Some (h !! Event) /\ forall x, is_Some (heap p !! x) -> is_Some (h !! x)).
  { destruct Hrun as (h & -> & Hev & Hh). do 2 eexists. split; [done|].
    split; [split; [|split]|done].
    - by apply multimap_insert_sorted.
    - cbn. rewrite multimap_insert_perm. cbn. by constructor.
    - cbn. intros x. rewrite multimap_insert_perm. cbn. rewrite elem_of_cons.
      intros [->|Hx]; auto. }
  unfold AddEvent, store.
  destruct set_addtime; run;
    repeat (erewrite deref_ok by (first [exact He | cbn; apply lookup_insert_eq]); run);
    (eexists; split; [destruct p; reflexivity|]; split; [rewrite lookup_insert_eq; eauto|];
     intros x Hx; rewrite ?insert_insert_eq;
     destruct (decide (x = Event)) as [->|];
       [rewrite lookup_insert_eq; eauto|by rewrite lookup_insert_ne]).
Qed.

Lemma fired_app l1 l2 : fired (l1 ++ l2) = fired l1 ++ fired l2.
Proof. unfold fired. apply omap_app. Qed.

(** An event that is not queued can be deleted. *)
Lemma delete_event_ok Event (p : EventProcessor) :
  queue_ok p -> is_Some (heap p !! Event) -> Event ∉ map snd (m_events p) ->
  exists p', delete_event Event p = Ok tt p' /\ queue_ok p' /\ m_time p' = m_time p /\
             due p' = due p /\ calls p' = calls p ++ [Deleted Event].
Proof.
  intros (Hs & Hn & Ha) [e He] Hq. unfold delete_event, log. run.
  erewrite deref_ok by done. run. eexists. split; [done|]. cbn.
  split; [split; [done|split; [done|]]|done]. cbn.
  intros x Hx. rewrite lookup_delete_ne by (intros ->; done). auto.
Qed.

Lemma filter_late (t : Z) (l : list (Z * Z)) k x :
  StronglySorted entry_le ((k, x) :: l) -> t < k ->
  filter (fun y : Z * Z => y.1 <= t) ((k, x) :: l) = [].
Proof.
  intros [_ Hall]%StronglySorted_inv Hk. rewrite filter_cons_False by (cbn; lia).
  induction Hall as [|[k' y] l Hle Hall IH]; [done|].
  unfold entry_le in Hle. cbn in Hle. rewrite filter_cons_False by (cbn; lia). done.
Qed.

Lemma heap_step_ne (b : bool) (x y : Z) (e : BasicEvent) (h : gmap Z BasicEvent) :
  y <> x -> (if b then delete x h else <[x := e]> h) !! y = h !! y.
Proof. intros. destruct b; [by rewrite lookup_delete_ne|by rewrite lookup_insert_ne]. Qed.

(** The due entries are a prefix of the queue. *)
Lemma due_cons p t x dues :
  StronglySorted entry_le (m_events p) -> due p = (t, x) :: dues ->
  exists rest, m_events p = (t, x) :: rest /\ t <= m_time p /\
               filter (fun y : Z * Z => y.1 <= m_time p) rest = dues.
Proof.
  intros Hs Hd. unfold due in Hd. destruct (m_events p) as [|[k y] rest] eqn:Hev; [done|].
  destruct (decide (k <= m_time p)) as [Hk|Hk].
  - rewrite filter_cons_True in Hd by done. injection Hd as -> -> Hd. eauto.
  - rewrite filter_late in Hd; [done|done|lia].
Qed.

Lemma successor_app i kept rest :
  i ∉ kept -> successor i (kept ++ i :: rest) = Some (head rest).
Proof.
  induction kept as [|x kept IH]; intros Hi; cbn.
  - by rewrite bool_decide_true.
  - rewrite bool_decide_false by set_solver. apply IH. set_solver.
Qed.

Lemma erase_app i kept rest : i ∉ kept -> erase i (kept ++ i :: rest) = kept ++ rest.
Proof.
  induction kept as [|x kept IH]; intros Hi; cbn.
  - by rewrite bool_decide_true.
  - rewrite bool_decide_false by set_solver. f_equal. apply IH. set_solver.
Qed.

Lemma load_due weight p p' : due p' = due p -> load weight p' = load weight p.
Proof. unfold load. by intros ->. Qed.

(** A call that fires its own event and leaves the rest, then deletes it. *)
Lemma leaves_delete weight Event c (p p2 : EventProcessor) :
  fired [c] = [Event] ->
  leaves (p <| calls ::= fun l => l ++ [c] |>) p2 -> is_Some (heap p2 !! Event) ->
  Event ∉ map snd (m_events p2) ->
  exists p3 l, delete_event Event p2 = Ok tt p3 /\ queue_ok p3 /\ m_time p3 = m_time p /\
    due p3 = due p2 /\ load weight p3 = load weight p2 /\ calls p3 = calls p ++ l /\
    Event ∈ fired l /\
    (forall x, x ∈ map snd (due p) -> x ∈ map snd (due p3) \/ x ∈ fired l) /\
    (calls p2 = calls p ++ [c] -> fired l = [Event]).
Proof.
  intros Hf (Hq2 & Ht2 & l & Hc2 & Hl) Hal Hnq.
  destruct (delete_event_ok Event p2) as (p3 & Hrun & Hq3 & Ht3 & Hd3 & Hc3); [done..|].
  exists p3, ([c] ++ l ++ [Deleted Event]). rewrite Hd3.
  split; [done|]. split; [done|]. split; [by rewrite Ht3, Ht2|]. split; [done|].
  split; [by apply load_due|]. split.
  { rewrite Hc3, Hc2. cbn. by rewrite <- !app_assoc. }
  rewrite !fired_app, Hf. split; [set_solver|]. split.
  - intros x Hx. destruct (Hl x Hx) as [|]; [by left|right; set_solver].
  - rewrite Hc2. cbn. intros Hcc. rewrite <- app_assoc in Hcc.
    apply app_inv_head in Hcc. injection Hcc as ->. done.
Qed.

Section Properties.
Context `{EC : EventClass}.

(** What an iteration of the loop of [Update] on an entry does. *)
Lemma Update_entry_ok weight (Contract : EventContract weight) p_time Event p :
  queue_ok p -> is_Some (heap p !! Event) -> Event ∉ map snd (m_events p) ->
  returns (Update_entry p_time Event)
    (fun _ p' => queue_ok p' /\ m_time p' = m_time p /\
                 (load weight p' < load weight p + weight Event)%nat /\
                 exists l, calls p' = calls p ++ l /\ Event ∈ fired l /\
                   (forall x, x ∈ map snd (due p) -> x ∈ map snd (due p') \/ x ∈ fired l) /\
                   (QuietEvents -> due p' = due p /\ fired l = [Event])) p.
Proof.
  intros Hq [e He] Hx. apply returns_Ok. unfold Update_entry. run.
  erewrite deref_ok by done. destruct (to_Abort e); cbn [negb]; run.
  - set (p1 := p <| calls ::= fun l => l ++ [Aborted Event] |>).
    pose proof (Abort_ok _ Contract Event p1 Hq ltac:(eauto) Hx) as Hab.
    apply returns_Ok in Hab as ([] & p2 & Hrun & Hlv & Hw & Hal & Hnq).
    change (Abort_ Event (m_time p) _) with (Abort_ Event (m_time p1) p1). rewrite Hrun.
    destruct (leaves_delete weight Event (Aborted Event) p p2)
      as (p3 & l & -> & Hq3 & Ht3 & Hd3 & Hw3 & Hc3 & Hin & Hl & Hone); [done..|].
    exists tt, p3. split; [done|]. split; [done|]. split; [done|].
    split; [rewrite Hw3; exact Hw|]. exists l. split; [done|]. split; [done|]. split; [done|].
    intros Quiet. pose proof (Abort_quiet Quiet Event p1) as Hqu.
    apply returns_Ok in Hqu as (? & ? & Hrun' & Hd & Hc). rewrite Hrun in Hrun'.
    injection Hrun' as <- <-.
    split; [by rewrite Hd3, Hd|by apply Hone].
  - set (p1 := p <| calls ::= fun l => l ++ [Executed Event] |>).
    pose proof (Execute_ok _ Contract Event p_time p1 Hq ltac:(eauto) Hx) as Hex.
    apply returns_Ok in Hex as (b & p2 & Hrun & Hlv & Hw & Hdel).
    change (Execute Event (m_time p) p_time _) with (Execute Event (m_time p1) p_time p1).
    assert (Hqu : QuietEvents -> due p2 = due p /\ calls p2 = calls p ++ [Executed Event]).
    { intros Quiet. pose proof (Execute_quiet Quiet Event p_time p1) as Hqu.
      apply returns_Ok in Hqu as (? & ? & Hrun' & Hd & Hc). rewrite Hrun in Hrun'.
      injection Hrun' as <- <-. done. }
    rewrite Hrun. destruct b; cbn.
    + destruct Hdel as [Hal Hnq]; [done|].
      destruct (leaves_delete weight Event (Executed Event) p p2)
        as (p3 & l & -> & Hq3 & Ht3 & Hd3 & Hw3 & Hc3 & Hin & Hl & Hone); [done..|].
      exists tt, p3. split; [done|]. split; [done|]. split; [done|].
      split; [rewrite Hw3; exact Hw|]. exists l. split; [done|]. split; [done|]. split; [done|].
      intros [Hd Hc]%Hqu. split; [by rewrite Hd3, Hd|by apply Hone].
    + destruct Hlv as (Hq2 & Ht2 & l & Hc2 & Hl).
      exists tt, p2. split; [done|]. split; [done|]. split; [done|]. split; [exact Hw|].
      exists ([Executed Event] ++ l). split; [rewrite Hc2; cbn; by rewrite <- app_assoc|].
      rewrite fired_app. split; [cbn; set_solver|]. split.
      * intros x Hx'. destruct (Hl x Hx'); [by left|right; set_solver].
      * intros [Hd Hc]%Hqu. split; [done|]. rewrite Hc2 in Hc. cbn in Hc.
        rewrite <- app_assoc in Hc. apply app_inv_head in Hc. injection Hc as ->. done.
Qed.

Lemma Update_loop_idle fuel p_time p : due p = [] -> Update_loop fuel p_time p = Ok tt p.
Proof.
  intros Hd. unfold due in Hd. destruct fuel; cbn [Update_loop]; run;
    (destruct (m_events p) as [|[t x] rest]; [done|];
     destruct (Z.leb_spec t (m_time p)); [|done];
     by rewrite filter_cons_True in Hd).
Qed.

Lemma Update_loop_ok weight (Contract : EventContract weight) fuel p_time p :
  queue_ok p -> (load weight p <= fuel)%nat ->
  returns (Update_loop fuel p_time)
    (fun _ p' => queue_ok p' /\ m_time p' = m_time p /\ due p' = [] /\
                 exists l, calls p' = calls p ++ l /\
                   (forall x, x ∈ map snd (due p) -> x ∈ fired l) /\
                   (QuietEvents -> fired l = map snd (due p))) p.
Proof.
  revert p. induction fuel as [|fuel IH]; intros p Hq Hfuel; apply returns_Ok;
    (destruct (due p) as [|[t x] dues] eqn:Hd;
     [exists tt, p; split; [by apply Update_loop_idle|];
      split; [done|]; split; [done|]; split; [done|]; exists []; rewrite app_nil_r;
      split; [done|]; split; [set_solver|done]|]);
    (destruct (due_cons p t x dues) as (rest & Hev & Ht & Hrest); [apply Hq|done|];
     set (p1 := p <| m_events := rest |>);
     destruct Hq as (Hs & Hn & Ha); rewrite Hev in Hs, Hn, Ha; cbn in Hn, Ha;
     apply NoDup_cons in Hn as [Hx Hn]; apply StronglySorted_inv in Hs as [Hs _];
     assert (Hq1 : queue_ok p1) by (split; [done|split; [done|]]; intros y Hy; apply Ha; set_solver);
     pose proof (Update_entry_ok weight Contract p_time x p1 Hq1 (Ha x ltac:(set_solver)) Hx) as Hen;
     apply returns_Ok in Hen
       as ([] & p2 & Hrun2 & Hq2 & Ht2 & Hw2 & l2 & Hc2 & Hin2 & Hl2 & Hqu2);
     assert (Hd1 : due p1 = dues) by done;
     assert (Hw : load weight p = (weight x + load weight p1)%nat)
       by (unfold load; by rewrite Hd, Hd1));
    [exfalso; lia|].
  specialize (IH p2 Hq2 ltac:(lia)).
  apply returns_Ok in IH as ([] & p3 & Hrun3 & Hq3 & Ht3 & Hd3 & l3 & Hc3 & Hl3 & Hqu3).
  exists tt, p3. split.
  { cbn [Update_loop]. run. rewrite Hev. zbool.
    change (Update_entry p_time x _) with (Update_entry p_time x p1). by rewrite Hrun2. }
  split; [done|]. split; [by rewrite Ht3, Ht2|]. split; [done|].
  exists (l2 ++ l3). rewrite Hc3, Hc2, <- app_assoc. split; [done|].
  rewrite fired_app. cbn. split.
  - intros y. rewrite elem_of_cons, elem_of_app. intros [->|Hy]; [by left|].
    rewrite <- Hd1 in Hy. destruct (Hl2 y Hy); [right; by apply Hl3|by left].
  - intros Quiet. destruct (Hqu2 Quiet) as [Hd2 ->].
    rewrite (Hqu3 Quiet), Hd2, Hd1. done.
Qed.

Context (Contract : AbortContract).

(** One iteration of the loop of [KillAllEvents]. *)
Lemma KillAllEvents_step fuel force kept t x rest p e :
  m_events p = kept ++ (t, x) :: rest -> (t, x) ∉ kept -> heap p !! x = Some e ->
  exists p',
    KillAllEvents_loop (S fuel) force (Some (t, x)) p = KillAllEvents_loop fuel force (head rest) p' /\
    m_time p' = m_time p /\
    m_events p' = (if negb force && IsDeletable x then kept ++ rest else kept ++ (t, x) :: rest) /\
    heap p' = (if force || IsDeletable x then delete x (heap p)
               else <[x := e <| to_Abort := true |>]> (heap p)) /\
    exists l, calls p' = calls p ++ l /\ fired l = [x].
Proof using Contract.
  intros Hev Hk He. cbn [KillAllEvents_loop]. run. rewrite Hev, successor_app by done.
  erewrite deref_ok by done. unfold store, log. run. erewrite deref_ok by done. run.
  match goal with |- context [Abort_ x _ ?s] => set (p1 := s) end.
  assert (Hal : is_Some (heap p1 !! x)) by (cbn; rewrite lookup_insert_eq; eauto).
  pose proof (Abort_still Contract x p1 Hal) as Hab.
  apply returns_Ok in Hab as ([] & p2 & Hrun & Hev2 & Ht2 & Hc2 & Hh2).
  change (m_time p) with (m_time p1). rewrite Hrun.
  assert (Hl : heap p2 !! x = Some (e <| to_Abort := true |>))
    by (rewrite Hh2; cbn; apply lookup_insert_eq).
  unfold delete_event, log, when. destruct (force || IsDeletable x) eqn:Hf.
  - run. erewrite deref_ok by done. run. destruct force; cbn [negb andb] in *.
    + eexists. split; [done|]. cbn. rewrite Ht2, Hev2, Hc2, Hh2. cbn.
      split; [done|]. split; [done|]. split; [apply delete_insert_eq|].
      exists [Aborted x; Deleted x]. by rewrite <- app_assoc.
    + cbn in Hf. rewrite Hf. eexists. split; [done|]. cbn. rewrite Ht2, Hev2, Hc2, Hh2. cbn.
      split; [done|]. split; [rewrite Hev; by apply erase_app|]. split; [apply delete_insert_eq|].
      exists [Aborted x; Deleted x]. by rewrite <- app_assoc.
  - apply orb_false_iff in Hf as [-> Hf]. rewrite Hf. run.
    exists p2. rewrite Ht2, Hev2, Hc2, Hh2. cbn. split; [done|]. split; [done|].
    split; [done|]. split; [done|]. by exists [Aborted x].
Qed.

(** The loop, on the entries [todo] that remain; [kept] were passed over. *)
Lemma KillAllEvents_loop_ok fuel force kept todo p :
  (length todo <= fuel)%nat -> m_events p = kept ++ todo ->
  NoDup (map snd (kept ++ todo)) -> (forall x, x ∈ map snd todo -> is_Some (heap p !! x)) ->
  returns (KillAllEvents_loop fuel force (head todo))
    (fun _ p' =>
       m_time p' = m_time p /\
       m_events p' = kept ++ (if force then todo
                              else filter (fun y => IsDeletable y.2 = false) todo) /\
       (forall x, heap p' !! x =
          if decide (x ∈ map snd todo)
          then if force || IsDeletable x then None
               else (fun e => e <| to_Abort := true |>) <$> heap p !! x
          else heap p !! x) /\
       exists l, calls p' = calls p ++ l /\ fired l = map snd todo) p.
Proof using Contract.
  revert fuel kept p. induction todo as [|[t x] todo IH]; intros fuel kept p Hfuel Hev Hn Ha.
  - apply returns_Ok. exists tt, p. split; [by destruct fuel|].
    split; [done|]. split; [rewrite Hev; by destruct force|]. split; [done|].
    exists []. by rewrite app_nil_r.
  - destruct fuel as [|fuel]; [cbn in Hfuel; lia|]. cbn [head].
    rewrite map_app in Hn. cbn [map] in Hn.
    apply NoDup_app in Hn as (Hn1 & Hn2 & Hn3). apply NoDup_cons in Hn3 as [Hx Hn3].
    cbn [map] in Ha. destruct (Ha x) as [e He]; [set_solver|].
    destruct (KillAllEvents_step fuel force kept t x todo p e)
      as (p1 & Hrun & Ht1 & Hev1 & Hh1 & l1 & Hc1 & Hf1); [done| |done|].
    { intros Hin. apply (Hn2 x); [apply list_elem_of_fmap; by exists (t, x)|set_solver]. }
    unfold returns, wp. rewrite Hrun.
    set (kept' := if negb force && IsDeletable x then kept else kept ++ [(t, x)]).
    assert (Hev1' : m_events p1 = kept' ++ todo).
    { rewrite Hev1. unfold kept'. destruct (negb force && IsDeletable x); [done|].
      by rewrite <- app_assoc. }
    assert (Hn' : NoDup (map snd (kept' ++ todo))).
    { unfold kept'. rewrite map_app. apply NoDup_app.
      destruct (negb force && IsDeletable x); [split; [done|]; split; [set_solver|done]|].
      rewrite map_app. split; [|split; [set_solver|done]].
      apply NoDup_app. split; [done|]. split; [set_solver|apply NoDup_singleton]. }
    assert (Ha' : forall y, y ∈ map snd todo -> is_Some (heap p1 !! y)).
    { intros y Hy. rewrite Hh1, heap_step_ne by (intros ->; done). apply Ha. set_solver. }
    specialize (IH fuel kept' p1 ltac:(cbn in Hfuel; lia) Hev1' Hn' Ha').
    apply returns_Ok in IH as ([] & p2 & Hrun2 & Ht2 & Hev2 & Hh2 & l2 & Hc2 & Hf2).
    rewrite Hrun2. split; [by rewrite Ht2, Ht1|]. split; [|split].
    + rewrite Hev2. unfold kept'. destruct force; cbn [negb andb].
      * by rewrite <- app_assoc.
      * rewrite filter_cons. cbn [snd]. destruct (IsDeletable x); cbn; [done|].
        by rewrite <- app_assoc.
    + intros y. rewrite Hh2, Hh1. cbn [map snd].
      destruct (decide (y = x)) as [->|Hne].
      * rewrite decide_False by done. rewrite decide_True by set_solver.
        destruct (force || IsDeletable x); [apply lookup_delete_eq|].
        by rewrite lookup_insert_eq, He.
      * rewrite heap_step_ne by done. destruct (decide (y ∈ map snd todo)).
        -- rewrite decide_True by set_solver. done.
        -- rewrite decide_False by set_solver. done.
    + exists (l1 ++ l2). rewrite Hc2, Hc1, <- app_assoc. split; [done|].
      by rewrite fired_app, Hf1, Hf2.
Qed.
End Properties.

(** ** Claims *)

(** C23.  [Update] terminates, fires every event that was due, by [Execute] or by
    [Abort], and leaves a well-formed queue in which nothing is due; no event
    is used after its deletion.  This holds whatever the events do to the
    processor within [EventContract]: they may add events that are due at once
    (as boarding a vehicle does), mark, abort or delete the others (as the
    cleanup of a unit does) and queue themselves again; what the contract asks
    for is a queue that stays well formed, no change of the time, no due event
    that vanishes without being fired, an event that asks for its deletion to
    be allocated and not queued, and due events added of a smaller [weight]
    than that of the event that adds them, without which the loop need not end.
    As many iterations as the due events weigh suffice.  When the events leave
    the due ones alone and fire none themselves, each due event is fired
    exactly once, in the order of the times and, within one time, of
    insertion. *)
Theorem Update_fires_due `{EventClass} (weight : Z -> nat) (p_time : Z) (p : EventProcessor)
  (fuel : nat) :
  let p0 := p <| m_time := u64 (m_time p + p_time) |> in
  EventContract weight -> queue_ok p -> (load weight p0 <= fuel)%nat ->
  exists p' l,
    Update fuel p_time p = Ok tt p' /\ queue_ok p' /\ due p' = [] /\
    m_time p' = u64 (m_time p + p_time) /\ calls p' = calls p ++ l /\
    (forall x, x ∈ map snd (due p0) -> x ∈ fired l) /\
    (QuietEvents -> fired l = map snd (due p0)).
Proof.
  intros p0 Hc Hq Hfuel. unfold Update. run.
  pose proof (Update_loop_ok weight Hc fuel p_time p0 Hq Hfuel) as Hl.
  apply returns_Ok in Hl as ([] & p' & Hrun & Hq' & Ht & Hd & l & Hcl & Hin & Hf).
  exists p', l. split; [exact Hrun|]. by split_and!.
Qed.

(** [KillAllEvents] aborts every queued event once, in queue order; with
    [force] it deletes them all and empties the queue, without it the events
    that cannot be deleted stay queued, allocated and marked as aborted. *)
Theorem KillAllEvents_spec `{EventClass} (force : bool) (p : EventProcessor) (fuel : nat) :
  AbortContract -> queue_ok p -> (length (m_events p) <= fuel)%nat ->
  exists p' l,
    KillAllEvents fuel force p = Ok tt p' /\
    m_events p' = (if force then [] else filter (fun y => IsDeletable y.2 = false) (m_events p)) /\
    calls p' = calls p ++ l /\ fired l = map snd (m_events p) /\
    forall x, x ∈ map snd (m_events p) ->
      heap p' !! x = if force || IsDeletable x then None
                     else (fun e => e <| to_Abort := true |>) <$> heap p !! x.
Proof.
  intros Hc (Hs & Hn & Ha) Hfuel. unfold KillAllEvents. run.
  match goal with |- context [KillAllEvents_loop _ _ _ ?q] => set (p1 := q) end.
  pose proof (KillAllEvents_loop_ok Hc fuel force [] (m_events p) p1 Hfuel eq_refl Hn Ha) as Hl.
  apply returns_Ok in Hl as ([] & p' & Hrun & Ht & Hev & Hh & l & Hcl & Hf).
  rewrite Hrun.
  assert (Hheap : forall x, x ∈ map snd (m_events p) ->
    heap p' !! x = if force || IsDeletable x then None
                   else (fun e => e <| to_Abort := true |>) <$> heap p !! x)
    by (intros x Hx; rewrite Hh, decide_True by done; done).
  destruct force; cbn; (do 2 eexists; split; [done|]); by split_and!.
Qed.

(** What adding an event, due or not, leaves of the rest. *)
Lemma AddEvent_leaves weight Event e_time set_addtime p :
  queue_ok p -> is_Some (heap p !! Event) -> Event ∉ map snd (m_events p) ->
  returns (AddEvent Event e_time set_addtime)
    (fun _ p' => leaves p p' /\
       load weight p' = ((if (e_time <=? m_time p)%Z then weight Event else 0) + load weight p)%nat /\
       (forall x, is_Some (heap p !! x) -> is_Some (heap p' !! x)) /\
       forall x, x ∈ map snd (m_events p') -> x = Event \/ x ∈ map snd (m_events p)) p.
Proof.
  intros Hq Hal Hnq. eapply wp_mono; [by apply AddEvent_ok| |done].
  intros [] p' (Hq' & Ht & Hc & Hh & Hev).
  assert (Hd : due p' ≡ₚ (if e_time <=? m_time p then [(e_time, Event)] else []) ++ due p)
    by (unfold due; rewrite Hev, Ht; apply multimap_insert_due).
  split; [split; [done|split; [done|]]|split; [|split; [done|]]].
  - exists []. rewrite app_nil_r. split; [done|]. intros x Hx. left.
    rewrite Hd, map_app. set_solver.
  - unfold load. rewrite Hd. by destruct (e_time <=? m_time p).
  - intros x. rewrite Hev, multimap_insert_perm. cbn. set_solver.
Qed.

Lemma sum_filter_le (f : Z -> nat) (P Q : Z * Z -> Prop) `{forall x, Decision (P x)}
  `{forall x, Decision (Q x)} l :
  (sum_list_with f (map snd (filter P (filter Q l))) <= sum_list_with f (map snd (filter P l)))%nat.
Proof.
  induction l as [|x l IH]; [done|]. rewrite !(filter_cons _ x).
  destruct (decide (Q x)), (decide (P x)); rewrite ?filter_cons;
    rewrite ?decide_True, ?decide_False by done; cbn; lia.
Qed.

Lemma filter_sorted (P : Z * Z -> Prop) `{forall x, Decision (P x)} l :
  StronglySorted entry_le l -> StronglySorted entry_le (filter P l).
Proof.
  induction 1 as [|x l Hs IH Hall]; [constructor|]. rewrite filter_cons.
  destruct (decide (P x)); [|done]. constructor; [done|].
  rewrite Forall_forall in *. intros y [_ Hy]%list_elem_of_filter. auto.
Qed.

(** [KillAllEvents] called by an event. *)
Lemma KillAllEvents_leaves `{EventClass} weight p :
  AbortContract -> queue_ok p ->
  returns (KillAllEvents (length (m_events p)) false)
    (fun _ p' => leaves p p' /\ (load weight p' <= load weight p)%nat /\
                 forall x, x ∉ map snd (m_events p) ->
                   heap p' !! x = heap p !! x /\ x ∉ map snd (m_events p')) p.
Proof.
  intros Hc (Hs & Hn & Ha). apply returns_Ok. unfold KillAllEvents. run.
  match goal with |- context [KillAllEvents_loop _ _ _ ?q] => set (p1 := q) end.
  pose proof (KillAllEvents_loop_ok Hc _ false [] (m_events p) p1 (le_n _) eq_refl Hn Ha) as Hl.
  apply returns_Ok in Hl as ([] & p' & Hrun & Ht & Hev & Hh & l & Hcl & Hf).
  rewrite Hrun. cbn. cbn in Hev, Hh. exists tt, p'. split; [done|].
  assert (Hsub : forall x, x ∈ map snd (m_events p') -> x ∈ map snd (m_events p) /\ IsDeletable x = false).
  { intros x. rewrite Hev. intros (y & -> & [Hy1 Hy2]%list_elem_of_filter)%list_elem_of_fmap.
    split; [by apply list_elem_of_fmap_2|done]. }
  split; [split; [split; [|split]|split; [done|]]|split].
  - rewrite Hev. by apply filter_sorted.
  - rewrite Hev. eapply sublist_NoDup; [exact Hn|]. apply fmap_sublist, sublist_filter.
  - intros x Hx. destruct (Hsub x Hx) as [Hin Hd]. rewrite Hh, decide_True, Hd by done.
    cbn. destruct (Ha x Hin) as [e ->]. eauto.
  - exists l. split; [done|]. intros x (y & -> & [_ Hy]%list_elem_of_filter)%list_elem_of_fmap.
    right. rewrite Hf. by apply list_elem_of_fmap_2.
  - unfold load, due. rewrite Hev, Ht. apply sum_filter_le.
  - intros x Hx. rewrite Hh, decide_False by done. split; [done|].
    intros [Hin _]%Hsub. done.
Qed.

(** An event class with a repeating event (1), an undeletable one (2), one
    that adds another due event (3 adds 5) and one that kills all the others
    (6). *)
Definition sample_kill (p : EventProcessor) : EP unit :=
  @KillAllEvents {| Execute := fun _ _ _ => mret true; Abort_ := fun _ _ => mret tt;
                    IsDeletable := fun Event => negb (Event =? 2) |}
    (length (m_events p)) false.

Definition sample_Execute (Event e_time : Z) (p : EventProcessor) : EP bool :=
  if (Event =? 1) && (e_time <? 2 ^ 63) then AddEvent Event (e_time + 100) true;; mret false
  else if (Event =? 3) && bool_decide (heap p !! 5 = None) then
    modify (fun p => p <| heap ::= <[5 := BasicEvent_new]> |>);;
    t ← CalculateTime 0;
    AddEvent 5 t true;; mret true
  else if Event =? 6 then sample_kill p;; mret true
  else mret true.

#[local] Instance sample_class : EventClass := {
  Execute := fun Event e_time _ => p ← getS; sample_Execute Event e_time p;
  Abort_ := fun _ _ => mret tt;
  IsDeletable := fun Event => negb (Event =? 2)
}.

Definition sample_weight (Event : Z) : nat := if Event =? 3 then 2 else 1.

Lemma leaves_refl p : queue_ok p -> leaves p p.
Proof. split; [done|split; [done|]]. exists []. rewrite app_nil_r. split; [done|]. auto. Qed.

Lemma sample_weight_pos x : (0 < sample_weight x)%nat.
Proof. unfold sample_weight. destruct (x =? 3); lia. Qed.

Lemma sample_contract : EventContract sample_weight.
Proof.
  split; intros Event; [intros p_time|]; intros p Hq Hal Hnq;
    pose proof (sample_weight_pos Event) as Hpos;
    [apply wp_bind, wp_getS; unfold sample_Execute|
     cbn; split; [by apply leaves_refl|]; split; [lia|done]].
  destruct ((Event =? 1) && (m_time p <? 2 ^ 63)).
  { apply wp_bind. eapply wp_mono;
      [apply (AddEvent_leaves sample_weight Event (m_time p + 100) true p); done| |done].
    intros [] p' (Hlv & Hw & _ & _). apply wp_ret.
    destruct (Z.leb_spec (m_time p + 100) (m_time p)); [lia|].
    split; [done|]. split; [lia|done]. }
  destruct (Z.eqb_spec Event 3) as [->|]; cbn [andb]; [case_bool_decide as H5|].
  - apply wp_bind, wp_modify, wp_bind, wp_gets.
    set (p1 := p <| heap ::= <[5 := BasicEvent_new]> |>).
    assert (Hq1 : queue_ok p1).
    { destruct Hq as (Hs & Hn & Ha). split; [done|split; [done|]]. intros x Hx.
      apply lookup_insert_is_Some. destruct (decide (5 = x)); auto. }
    apply wp_bind. eapply wp_mono; [apply (AddEvent_leaves sample_weight 5 _ true p1 Hq1)| |done].
    + cbn. rewrite lookup_insert_eq. eauto.
    + intros Hin. destruct Hq as (_ & _ & Ha). apply Ha in Hin. rewrite H5 in Hin.
      by destruct Hin.
    + intros [] p' (Hlv & Hw & Hh & Hin). apply wp_ret. split; [done|].
      change (load sample_weight p1) with (load sample_weight p) in Hw.
      change (sample_weight 3) with 2%nat. change (sample_weight 5) with 1%nat in Hw.
      split; [destruct (_ <=? _)%Z; lia|].
      intros _. split; [apply Hh; cbn; by rewrite lookup_insert_ne|].
      intros [?|?]%Hin; done.
  - apply wp_ret. split; [by apply leaves_refl|]. split; [lia|done].
  - destruct (Event =? 6).
    + apply wp_bind. unfold sample_kill.
      eapply wp_mono; [apply (KillAllEvents_leaves sample_weight p)| |done]; [|done|].
      { split. intros. apply wp_ret. done. }
      intros [] p' (Hlv & Hw & Hh). apply wp_ret. split; [done|]. split; [lia|].
      intros _. destruct (Hh Event Hnq) as [-> ?]. done.
    + apply wp_ret. split; [by apply leaves_refl|]. split; [lia|done].
Qed.

Lemma sample_aborts : AbortContract.
Proof. split. intros. by apply wp_ret. Qed.

Definition sample_processor : EventProcessor :=
  mkEventProcessor 1000 [(1010, 3); (1020, 1); (1020, 2); (2000, 4)] false
    (list_to_map [(1, BasicEvent_new); (2, mkBasicEvent true 0 0); (3, BasicEvent_new);
                  (4, BasicEvent_new)]) [].

Lemma sample_queue_ok : queue_ok sample_processor.
Proof.
  split; [|split].
  - repeat constructor; unfold entry_le; cbn; lia.
  - apply (bool_decide_unpack _). by vm_compute.
  - intros x Hx. cbn in Hx. set_unfold in Hx. destruct Hx as [->|[->|[->|[->|[]]]]]; eauto.
Qed.

(** Event 3 adds event 5, which is due at once and executed in the same
    [Update], after the entries that were due before it. *)
Example Update_runs_added :
  match Update 4 50 sample_processor with
  | Ok _ p' => calls p' = [Executed 3; Deleted 3; Executed 1; Aborted 2; Deleted 2;
                           Executed 5; Deleted 5] /\ m_events p' = [(1150, 1); (2000, 4)]
  | _ => False
  end.
Proof. vm_compute. by split. Qed.

(** An event that kills the others: they are aborted, not executed, and the
    undeletable one stays queued and is aborted a second time. *)
Example Update_after_kill :
  match Update 4 50 (sample_processor <| m_events := [(1010, 6); (1020, 1); (1020, 2)] |>
                       <| heap ::= <[6 := BasicEvent_new]> |>) with
  | Ok _ p' => calls p' = [Executed 6; Aborted 1; Deleted 1; Aborted 2; Deleted 6;
                           Aborted 2; Deleted 2] /\ m_events p' = []
  | _ => False
  end.
Proof. vm_compute. by split. Qed.

Lemma Update_fires_due_witness :
  exists p' l,
    Update 4 50 sample_processor = Ok tt p' /\ queue_ok p' /\ due p' = [] /\
    m_time p' = 1050 /\ calls p' = [] ++ l /\ (forall x, x ∈ [3; 1; 2] -> x ∈ fired l) /\
    (QuietEvents -> fired l = [3; 1; 2]).
Proof.
  apply (Update_fires_due sample_weight 50 sample_processor 4 sample_contract sample_queue_ok).
  vm_compute. lia.
Defined.

Lemma KillAllEvents_spec_witness :
  exists p' l,
    KillAllEvents 4 false sample_processor = Ok tt p' /\ m_events p' = [(1020, 2)] /\
    calls p' = [] ++ l /\ fired l = [3; 1; 2; 4] /\
    forall x, x ∈ [3; 1; 2; 4] ->
      heap p' !! x = if false || IsDeletable x then None
                     else (fun e => e <| to_Abort := true |>) <$> heap sample_processor !! x.
Proof.
  apply (KillAllEvents_spec false sample_processor 4 sample_aborts sample_queue_ok).
  cbn. lia.
Defined.

(** The comment "prevent event insertions" on [m_aborting] notwithstanding, an
    event can be added after [KillAllEvents]: nothing reads the flag. *)
Theorem m_aborting_not_read (Event e_time : Z) :
  let p := mkEventProcessor 0 [] true {[ Event := BasicEvent_new ]} [] in
  exists p', AddEvent Event e_time false p = Ok tt p' /\ m_aborting p' = true /\
             m_events p' = [(e_time, Event)].
Proof.
  intros p. unfold AddEvent, store. run.
  repeat (erewrite deref_ok by apply lookup_insert_eq; run). by eexists.
Qed.
