(* ===== verification/Formulas.v ===== *)
(** * Experience and honor formulas

    [src/src/server/game/Miscellaneous/Formulas.h].  Every formula ends in a
    script hook that may change its result; the hooks are the class
    [FormulaHooks], and [no_scripts] is the server without formula scripts. *)

From Stdlib Require Import SpecFloat.
From S2P Require Import Prelude Float32.

Inductive XPColorChar := XP_RED | XP_ORANGE | XP_YELLOW | XP_GREEN | XP_GRAY.
#[export] Instance XPColorChar_eq_dec : EqDecision XPColorChar.
Proof. solve_decision. Defined.

Inductive ContentLevels :=
| CONTENT_1_60 | CONTENT_61_70 | CONTENT_71_80 | CONTENT_81_85 | CONTENT_other (n : Z).

(** The [FormulaScript] callbacks: each takes the result by reference. *)
Class FormulaHooks := {
  OnHonorCalculation : f32 -> Z -> f32 -> f32;
  OnGrayLevelCalculation : Z -> Z -> Z;
  OnColorCodeCalculation : XPColorChar -> Z -> Z -> XPColorChar;
  OnZeroDifferenceCalculation : Z -> Z -> Z;
  OnBaseGainCalculation : Z -> Z -> Z -> ContentLevels -> Z;
  OnGainCalculation : Z -> Z;
  OnGroupRateCalculation : f32 -> Z -> bool -> f32
}.

#[export] Instance no_scripts : FormulaHooks := {
  OnHonorCalculation := fun honor _ _ => honor;
  OnGrayLevelCalculation := fun level _ => level;
  OnColorCodeCalculation := fun color _ _ => color;
  OnZeroDifferenceCalculation := fun diff _ => diff;
  OnBaseGainCalculation := fun gain _ _ _ => gain;
  OnGainCalculation := fun gain => gain;
  OnGroupRateCalculation := fun rate _ _ => rate
}.

Definition f32_ceil (x : f32) : f32 :=
  match f32_floor (f32_opp x) with Some z => f32_of_Z (- z) | None => x end.

Definition f32_1_55 : f32 := S754_finite false 13002342 (-23).
Definition f32_1_0 : f32 := f32_of_Z 1.
Definition f32_1_166 : f32 := S754_finite false 9781117 (-23).
Definition f32_1_3 : f32 := S754_finite false 10905190 (-23).
Definition f32_1_4 : f32 := S754_finite false 11744051 (-23).

(** What [Gain] asks about the victim. *)
Record Victim := mkVictim {
  is_creature : bool;                   (* GetTypeId() == TYPEID_UNIT *)
  isTotem : bool; isPet : bool;
  no_xp_at_kill : bool;                 (* CREATURE_FLAG_EXTRA_NO_XP_AT_KILL *)
  is_critter : bool;
  isElite : bool;
  in_dungeon : bool;                    (* GetMap() && GetMap()->IsDungeon() *)
  v_level : Z;
  v_content : ContentLevels             (* GetContentLevelsForMapAndZone *)
}.

Section Formulas.
Context `{FormulaHooks}.

Definition hk_honor_at_level_f (level : Z) (multiplier : f32) : f32 :=
  let honor := f32_mul (f32_mul multiplier (f32_of_Z level)) f32_1_55 in
  OnHonorCalculation honor level multiplier.

Definition hk_honor_at_level (level : Z) (multiplier : f32) : Z :=
  uint32_of_f32 (f32_ceil (hk_honor_at_level_f level multiplier)).

Definition GetGrayLevel (pl_level : Z) : Z :=
  let level :=
    if pl_level <=? 5 then 0
    else if pl_level <=? 39 then u8 (pl_level - 5 - pl_level / 10)
    else if pl_level <=? 59 then u8 (pl_level - 1 - pl_level / 5)
    else u8 (pl_level - 9) in
  OnGrayLevelCalculation level pl_level.

Definition GetColorCode (pl_level mob_level : Z) : XPColorChar :=
  let color :=
    if pl_level + 5 <=? mob_level then XP_RED
    else if pl_level + 3 <=? mob_level then XP_ORANGE
    else if pl_level - 2 <=? mob_level then XP_YELLOW
    else if GetGrayLevel pl_level <? mob_level then XP_GREEN
    else XP_GRAY in
  OnColorCodeCalculation color pl_level mob_level.

Definition GetZeroDifference (pl_level : Z) : Z :=
  let diff :=
    if pl_level <? 8 then 5
    else if pl_level <? 10 then 6
    else if pl_level <? 12 then 7
    else if pl_level <? 16 then 8
    else if pl_level <? 20 then 9
    else if pl_level <? 30 then 11
    else if pl_level <? 40 then 12
    else if pl_level <? 45 then 13
    else if pl_level <? 50 then 14
    else if pl_level <? 55 then 15
    else if pl_level <? 60 then 16
    else 17 in
  OnZeroDifferenceCalculation diff pl_level.

Definition nBaseExp (content : ContentLevels) : Z :=
  match content with
  | CONTENT_1_60 => 45
  | CONTENT_61_70 => 235
  | CONTENT_71_80 => 580
  | CONTENT_81_85 => 1878
  | CONTENT_other _ => 45
  end.

(** [BaseGain]; a hook that sets the zero difference to 0 makes it divide by
    zero. *)
Definition BaseGain (pl_level mob_level : Z) (content : ContentLevels) : option Z :=
  let baseGain :=
    if pl_level <=? mob_level then
      let d := u8 (mob_level - pl_level) in
      let nLevelDiff := if 4 <? d then 4 else d in
      Some (u32 (u32 ((pl_level * 5 + nBaseExp content) * (20 + nLevelDiff)) / 10 + 1) / 2)
    else
      let gray_level := GetGrayLevel pl_level in
      if gray_level <? mob_level then
        let ZD := GetZeroDifference pl_level in
        if ZD =? 0 then None
        else Some (u32 ((pl_level * 5 + nBaseExp content) * u32 (ZD + mob_level - pl_level)) / ZD)
      else Some 0 in
  match baseGain with
  | None => None
  | Some g => Some (OnBaseGainCalculation g pl_level mob_level content)
  end.

(** [Gain]; [rate] is [sWorld->getRate(RATE_XP_KILL)].  [gain * 2.75] is exact
    in double precision. *)
Definition Gain (pl_level : Z) (u : Victim) (rate : f32) : option Z :=
  let gain :=
    if is_creature u && (isTotem u || isPet u || no_xp_at_kill u || is_critter u)
    then Some 0
    else
      match BaseGain pl_level (v_level u) (v_content u) with
      | None => None
      | Some g =>
          let g' :=
            if negb (g =? 0) && is_creature u && isElite u
            then if in_dungeon u then u32 (g * 11 / 4) else u32 (g * 2)
            else g in
          Some (uint32_of_f32 (f32_mul (f32_of_Z g') rate))
      end in
  match gain with None => None | Some g => Some (OnGainCalculation g) end.

Definition xp_in_group_rate (count : Z) (isRaid : bool) : f32 :=
  let rate :=
    if isRaid then f32_1_0
    else if (count =? 0) || (count =? 1) || (count =? 2) then f32_1_0
    else if count =? 3 then f32_1_166
    else if count =? 4 then f32_1_3
    else f32_1_4 in
  OnGroupRateCalculation rate count isRaid.
End Formulas.

(** ** Properties *)

(** The exact arithmetic of the experience for a lower-level victim: nothing
    wraps. *)
Lemma lower_gain_exact p m :
  in_width 8 p -> in_width 8 m -> m < p -> GetGrayLevel p < m ->
  0 < GetZeroDifference p + m - p <= GetZeroDifference p - 1 /\ GetZeroDifference p <= 17.
Proof.
  intros Hp Hm Hlt. unfold in_width in *.
  unfold GetGrayLevel, OnGrayLevelCalculation, no_scripts. fold no_scripts.
  assert (Hg : forall x, 0 <= x < 256 -> u8 x = x) by (intros; by apply wrap_small).
  destruct (Z.leb_spec p 5); [|destruct (Z.leb_spec p 39); [|destruct (Z.leb_spec p 59)]];
    rewrite ?Hg by divmod_lia; intros Hgray;
    unfold GetZeroDifference, OnZeroDifferenceCalculation, no_scripts;
    repeat match goal with |- context [if p <? ?n then _ else _] =>
      destruct (Z.ltb_spec p n); [divmod_lia|] end; divmod_lia.
Qed.

Lemma nBaseExp_range c : 45 <= nBaseExp c <= 1878.
Proof. destruct c; cbn; lia. Qed.

(** The two ways a victim is judged come down to the gray level. *)
Lemma GetColorCode_gray p m :
  in_width 8 p -> in_width 8 m -> 1 <= m ->
  GetColorCode p m = XP_GRAY <-> m < p /\ m <= GetGrayLevel p.
Proof.
  intros Hp Hm H1. unfold in_width in *.
  assert (Hg : GetGrayLevel p < p - 2 \/ GetGrayLevel p = 0).
  { destruct (decide (p <= 5)); unfold GetGrayLevel; cbn; zbool; [by right|left].
    destruct (Z.leb_spec p 39); [|destruct (Z.leb_spec p 59)]; zbool;
      rewrite wrap_small by (unfold in_width; divmod_lia); divmod_lia. }
  unfold GetColorCode, OnColorCodeCalculation, no_scripts. fold no_scripts.
  destruct (Z.leb_spec (p + 5) m); [split; [done|lia]|].
  destruct (Z.leb_spec (p + 3) m); [split; [done|lia]|].
  destruct (Z.leb_spec (p - 2) m); [split; [done|lia]|].
  destruct (Z.ltb_spec (GetGrayLevel p) m); (split; [done || lia|done || lia]).
Qed.

Lemma BaseGain_range p m content :
  in_width 8 p -> in_width 8 m ->
  exists g, BaseGain p m content = Some g /\ 0 <= g < 2 ^ 13 /\
            (g = 0 <-> m < p /\ m <= GetGrayLevel p).
Proof.
  intros Hp Hm. pose proof (nBaseExp_range content) as Hn.
  pose proof (lower_gain_exact p m Hp Hm) as Hz. unfold in_width in *.
  unfold BaseGain, OnBaseGainCalculation, no_scripts. fold no_scripts.
  destruct (Z.leb_spec p m) as [Hle|Hlt].
  - eexists; split; [done|]. no_wrap.
    set (d := if 4 <? m - p then 4 else m - p).
    assert (0 <= d <= 4) by (unfold d; destruct (Z.ltb_spec 4 (m - p)); lia).
    assert (Hprod : 20 * 45 <= (p * 5 + nBaseExp content) * (20 + d) <= 3153 * 24) by nia.
    no_wrap. rewrite (wrap_small 32) by (unfold in_width; divmod_lia).
    split; [divmod_lia|]. split; [intros; divmod_lia|lia].
  - destruct (Z.ltb_spec (GetGrayLevel p) m) as [Hgr|Hgr].
    + destruct Hz as [Hz1 Hz2]; [lia|lia|]. zbool. eexists; split; [done|]. no_wrap.
      set (ZD := GetZeroDifference p) in *. set (e := ZD + m - p) in *.
      assert (Hprod : e * 45 <= (p * 5 + nBaseExp content) * e <= 3153 * e) by nia.
      rewrite wrap_small by (unfold in_width; lia).
      assert (Hq : 0 < (p * 5 + nBaseExp content) * e / ZD < 2 ^ 13).
      { split; [apply Z.div_str_pos; lia|apply Z.div_lt_upper_bound; nia]. }
      lia.
    + eexists; split; [done|]. lia.
Qed.

(** Experience and color agree: without scripts, [BaseGain] never divides
    by zero or wraps, and a victim of level one or more is gray exactly when it
    gives no experience, for all pairs of 8-bit levels and any content. *)
Theorem BaseGain_gray (pl_level mob_level : Z) (content : ContentLevels) :
  in_width 8 pl_level -> in_width 8 mob_level -> 1 <= mob_level ->
  exists g, BaseGain pl_level mob_level content = Some g /\ 0 <= g < 2 ^ 13 /\
            (g = 0 <-> GetColorCode pl_level mob_level = XP_GRAY).
Proof.
  intros Hp Hm H1. destruct (BaseGain_range pl_level mob_level content Hp Hm) as (g & Hg & Hr & Hz).
  exists g. split; [done|]. split; [done|]. by rewrite Hz, GetColorCode_gray.
Qed.

Lemma BaseGain_gray_witness :
  exists g, BaseGain 60 51 CONTENT_1_60 = Some g /\ 0 <= g < 2 ^ 13 /\
            (g = 0 <-> GetColorCode 60 51 = XP_GRAY).
Proof. apply (BaseGain_gray 60 51 CONTENT_1_60); unfold in_width; lia. Defined.

Lemma BaseGain_step_lt p m content g1 g2 :
  in_width 8 p -> in_width 8 (m + 1) -> 0 <= m -> m + 1 < p ->
  BaseGain p m content = Some g1 -> BaseGain p (m + 1) content = Some g2 -> g1 <= g2.
Proof.
  intros Hp Hm H0 Hlt. pose proof (nBaseExp_range content) as Hn.
  pose proof (lower_gain_exact p m Hp ltac:(unfold in_width in *; lia) ltac:(lia)) as Hz1.
  pose proof (lower_gain_exact p (m + 1) Hp Hm Hlt) as Hz2. unfold in_width in *.
  unfold BaseGain, OnBaseGainCalculation, no_scripts. fold no_scripts. zbool.
  set (ZD := GetZeroDifference p) in *. set (k := p * 5 + nBaseExp content) in *.
  destruct (Z.ltb_spec (GetGrayLevel p) m); [|intros [= <-]].
  - destruct Hz1; [lia|]. destruct Hz2; [lia|]. zbool.
    rewrite (wrap_small 32 (ZD + m - p)), (wrap_small 32 (ZD + (m + 1) - p)) by (unfold in_width; lia).
    rewrite !(wrap_small 32 (k * _)) by (unfold in_width; nia).
    intros [= <-] [= <-]. apply Z.div_le_mono; nia.
  - destruct (Z.ltb_spec (GetGrayLevel p) (m + 1)); [|by intros [= <-]].
    destruct Hz2; [lia|]. zbool.
    rewrite (wrap_small 32 (ZD + (m + 1) - p)), wrap_small by (unfold in_width; nia).
    intros [= <-]. apply Z.div_pos; nia.
Qed.

Lemma BaseGain_step_ge p m content g1 g2 :
  in_width 8 p -> in_width 8 (m + 1) -> 0 <= m -> p <= m + 1 ->
  BaseGain p m content = Some g1 -> BaseGain p (m + 1) content = Some g2 -> g1 <= g2.
Proof.
  intros Hp Hm H0 Hge. pose proof (nBaseExp_range content) as Hn.
  pose proof (lower_gain_exact p m Hp ltac:(unfold in_width in *; lia)) as Hz. unfold in_width in *.
  unfold BaseGain, OnBaseGainCalculation, no_scripts. fold no_scripts. zbool.
  rewrite (wrap_small 8 (m + 1 - p)) by (unfold in_width; lia).
  set (k := p * 5 + nBaseExp content) in *.
  set (d2 := if 4 <? m + 1 - p then 4 else m + 1 - p).
  assert (Hd2 : 0 <= d2 <= 4 /\ d2 <= m + 1 - p /\ (m + 1 - p <= 4 -> d2 = m + 1 - p))
    by (unfold d2; destruct (Z.ltb_spec 4 (m + 1 - p)); lia).
  rewrite (wrap_small 32 (k * (20 + d2))) by (unfold in_width; nia).
  assert (Hq2 : 0 <= k * (20 + d2) / 10 < 2 ^ 20)
    by (split; [apply Z.div_pos; nia|apply Z.div_lt_upper_bound; nia]).
  rewrite (wrap_small 32 (k * (20 + d2) / 10 + 1)) by (unfold in_width; lia).
  destruct (Z.leb_spec p m).
  - rewrite (wrap_small 8 (m - p)) by (unfold in_width; lia).
    set (d1 := if 4 <? m - p then 4 else m - p).
    assert (Hd1 : 0 <= d1 <= d2)
      by (unfold d1, d2; destruct (Z.ltb_spec 4 (m - p)), (Z.ltb_spec 4 (m + 1 - p)); lia).
    rewrite (wrap_small 32 (k * (20 + d1))) by (unfold in_width; nia).
    assert (Hk : k * (20 + d1) / 10 <= k * (20 + d2) / 10) by (apply Z.div_le_mono; nia).
    assert (0 <= k * (20 + d1) / 10) by (apply Z.div_pos; nia).
    rewrite wrap_small by (unfold in_width; lia).
    intros [= <-] [= <-]. apply Z.div_le_mono; lia.
  - assert (Hpm : p = m + 1) by lia. assert (Hd0 : d2 = 0) by lia. rewrite Hd0, Z.add_0_r.
    assert (Hk : k <= (k * 20 / 10 + 1) / 2) by (replace (k * 20) with (k * 2 * 10) by lia;
      rewrite Z.div_mul by lia; divmod_lia).
    destruct (Z.ltb_spec (GetGrayLevel p) m); [|intros [= <-] [= <-]; lia].
    destruct Hz as [Hz1 Hz2]; [lia|lia|]. zbool. set (ZD := GetZeroDifference p) in *.
    rewrite (wrap_small 32 (ZD + m - p)), wrap_small by (unfold in_width; nia).
    intros [= <-] [= <-]. etransitivity; [|exact Hk].
    apply Z.div_le_upper_bound; [lia|]. nia.
Qed.

(** A stronger victim never gives less experience: without scripts
    [BaseGain] is monotone in the victim's level, across the gray, lower and
    higher level formulas. *)
Theorem BaseGain_monotone (pl_level mob1 mob2 : Z) (content : ContentLevels) (g1 g2 : Z) :
  in_width 8 pl_level -> in_width 8 mob2 -> 0 <= mob1 <= mob2 ->
  BaseGain pl_level mob1 content = Some g1 -> BaseGain pl_level mob2 content = Some g2 ->
  g1 <= g2.
Proof.
  intros Hp Hm [H0 Hle] H1. revert g2 Hm.
  apply (Zlt_lower_bound_ind (fun mob2 => forall g2, in_width 8 mob2 ->
           BaseGain pl_level mob2 content = Some g2 -> g1 <= g2) mob1); [|done].
  intros m IH Hm g2 Hw H2. destruct (decide (m = mob1)) as [->|Hne].
  - rewrite H1 in H2. injection H2 as ->. done.
  - assert (Hw' : in_width 8 (m - 1)) by (unfold in_width in *; lia).
    destruct (BaseGain_range pl_level (m - 1) content Hp Hw') as (g & Hg & _).
    etransitivity; [apply (IH (m - 1) ltac:(lia) g Hw' Hg)|].
    replace m with (m - 1 + 1) in H2, Hw by lia.
    destruct (decide (m - 1 + 1 < pl_level)).
    + apply (BaseGain_step_lt pl_level (m - 1) content); by try lia.
    + apply (BaseGain_step_ge pl_level (m - 1) content); by try lia.
Qed.

Lemma BaseGain_monotone_witness : 65 <= 105.
Proof.
  apply (BaseGain_monotone 20 14 17 CONTENT_1_60 65 105); unfold in_width;
    [lia|lia|lia|reflexivity|reflexivity].
Defined.
