(* ===== verification/Reputation.v ===== *)
(** * Reputation with factions

    [src/src/server/game/Reputation/ReputationMgr.{h,cpp}]: a player's standing
    with each faction, its limits and ranks, spillover between factions, the
    counters of ranks and the packets that report them. *)

From S2P Require Import Prelude Float32 ByteBuffer Wire Packet Maps.

(** ** Data *)

Definition FACTION_FLAG_VISIBLE : Z := 0x01.
Definition FACTION_FLAG_AT_WAR : Z := 0x02.
Definition FACTION_FLAG_HIDDEN : Z := 0x04.
Definition FACTION_FLAG_INVISIBLE_FORCED : Z := 0x08.
Definition FACTION_FLAG_PEACE_FORCED : Z := 0x10.
Definition FACTION_FLAG_INACTIVE : Z := 0x20.
Definition FACTION_FLAG_SPECIAL : Z := 0x80.

Definition REP_HATED : Z := 0.
Definition REP_HOSTILE : Z := 1.
Definition REP_HONORED : Z := 5.
Definition REP_REVERED : Z := 6.
Definition REP_EXALTED : Z := 7.
Definition MIN_REPUTATION_RANK : Z := REP_HATED.
Definition MAX_REPUTATION_RANK : Z := 8.

Definition PointsInRank : list Z := [36000; 3000; 3000; 3000; 6000; 12000; 21000; 1000].
Definition Reputation_Cap : Z := 42999.
Definition Reputation_Bottom : Z := -42000.

(** A row of Faction.dbc. *)
Record FactionEntry := mkFactionEntry {
  fe_ID : Z;
  reputationListID : Z;
  BaseRepRaceMask : list Z;
  BaseRepClassMask : list Z;
  BaseRepValue : list Z;
  ReputationFlags : list Z;
  fe_team : Z;
  spilloverRateIn : f32;
  spilloverRateOut : f32;
  spilloverMaxRankIn : Z
}.

Record FactionState := mkFactionState {
  fs_ID : Z;
  ReputationListID : Z;
  Standing : Z;
  Flags : Z;
  needSend : bool;
  needSave : bool
}.
#[export] Instance FactionState_settable : Settable FactionState :=
  fun f => mkFactionState (fs_ID f) (ReputationListID f) (Standing f) (Flags f) (needSend f)
             (needSave f).

(** [FactionState()], the value-initialized element of [operator[]]. *)
Definition FactionState_zero : FactionState := mkFactionState 0 0 0 0 false false.

(** A row of [reputation_spillover_template]: faction, rate, highest rank. *)
Definition RepSpilloverTemplate : Type := list (Z * f32 * Z).

(** What leaves the manager: packets to the player, the notification of the
    player's quests and achievements (the calls at the end of
    [SetOneFactionReputation], as one), the statements added to a transaction. *)
Inductive rep_output :=
| SendDirectMessage (data : WorldPacket)
| ReputationChanged (faction : Z)
| GuildReachLevel (level : Z)
| DeleteReputation (guid faction : Z)
| InsertReputation (guid faction standing flags : Z).

Record ReputationMgr := mkReputationMgr {
  _factions : gmap Z FactionState;
  _forcedReactions : gmap Z Z;
  _visibleFactionCount : Z;
  _honoredFactionCount : Z;
  _reveredFactionCount : Z;
  _exaltedFactionCount : Z;
  _sendFactionIncreased : bool;
  output : list rep_output
}.
#[export] Instance ReputationMgr_settable : Settable ReputationMgr :=
  fun r => mkReputationMgr (_factions r) (_forcedReactions r) (_visibleFactionCount r)
             (_honoredFactionCount r) (_reveredFactionCount r) (_exaltedFactionCount r)
             (_sendFactionIncreased r) (output r).

Definition ReputationMgr_new : ReputationMgr := mkReputationMgr ∅ ∅ 0 0 0 0 false [].

Abbreviation RM := (M ReputationMgr ByteBufferException).

(** What the manager reads of the rest of the server: the faction store, the
    player, the configuration, the spillover tables and the script hook that
    may change a standing. *)
Class World := {
  LookupEntry : Z -> option FactionEntry;
  GetNumRows : Z;
  raceMask : Z;
  classMask : Z;
  player_level : Z;
  GUIDLow : Z;
  PlayerLoading : bool;
  RATE_REPUTATION_GAIN : f32;
  GetRepSpilloverTemplate : Z -> option RepSpilloverTemplate;
  GetFactionTeamList : Z -> option (list Z);
  OnPlayerReputationChange : Z -> Z -> bool -> Z
}.

(** ** Ranks *)

(** The loop of [ReputationToRank], with [i] the rank below which to look. *)
Fixpoint ReputationToRank_loop (i : nat) (limit standing : Z) : Z :=
  match i with
  | O => MIN_REPUTATION_RANK
  | S i' =>
      let limit' := s32 (limit - nth i' PointsInRank 0) in
      if limit' <=? standing then Z.of_nat i' else ReputationToRank_loop i' limit' standing
  end.

Definition ReputationToRank (standing : Z) : Z :=
  ReputationToRank_loop (Z.to_nat MAX_REPUTATION_RANK) (Reputation_Cap + 1) standing.

Definition emit (o : rep_output) : RM unit := modify (fun r => r <| output ::= fun l => l ++ [o] |>).

(** A packet of a body of writes, sent to the player. *)
Definition send_packet (opcode : Z) (body : BB unit) : RM unit :=
  '(_, b) ← on_local ByteBuffer_new body;
  emit (SendDirectMessage (mkWorldPacket opcode b)).

Definition SMSG_SET_FACTION_STANDING : Z := 0x0126.
Definition SMSG_SET_FACTION_VISIBLE : Z := 0x2525.
Definition SMSG_INITIALIZE_FACTIONS : Z := 0x4634.
Definition SMSG_SET_FORCED_REACTIONS : Z := 0x4615.

Definition UpdateRankCounters (old_rank new_rank : Z) : RM unit :=
  when (REP_EXALTED <=? old_rank) (modify (fun r => r <| _exaltedFactionCount ::= fun n => u8 (n - 1) |>));;
  when (REP_REVERED <=? old_rank) (modify (fun r => r <| _reveredFactionCount ::= fun n => u8 (n - 1) |>));;
  when (REP_HONORED <=? old_rank) (modify (fun r => r <| _honoredFactionCount ::= fun n => u8 (n - 1) |>));;
  when (REP_EXALTED <=? new_rank) (modify (fun r => r <| _exaltedFactionCount ::= fun n => u8 (n + 1) |>));;
  when (REP_REVERED <=? new_rank) (modify (fun r => r <| _reveredFactionCount ::= fun n => u8 (n + 1) |>));;
  when (REP_HONORED <=? new_rank) (modify (fun r => r <| _honoredFactionCount ::= fun n => u8 (n + 1) |>)).

Section ReputationMgr.
Context `{Host, World}.

(** *** Base values *)

Definition base_matches (e : FactionEntry) (i : nat) : bool :=
  let race := nth i (BaseRepRaceMask e) 0 in
  let cls := nth i (BaseRepClassMask e) 0 in
  (has_flag race raceMask || ((race =? 0) && negb (cls =? 0))) &&
  (has_flag cls classMask || (cls =? 0)).

Fixpoint base_lookup (e : FactionEntry) (values : list Z) (indices : list nat) : Z :=
  match indices with
  | [] => 0
  | i :: rest => if base_matches e i then nth i values 0 else base_lookup e values rest
  end.

Definition GetBaseReputation (e : option FactionEntry) : Z :=
  match e with
  | None => 0
  | Some e => base_lookup e (BaseRepValue e) (seq 0 4)
  end.

Definition GetDefaultStateFlags (e : option FactionEntry) : Z :=
  match e with
  | None => 0
  | Some e => base_lookup e (ReputationFlags e) (seq 0 4)
  end.

Definition GetState (e : FactionEntry) (r : ReputationMgr) : option FactionState :=
  if 0 <=? reputationListID e then _factions r !! reputationListID e else None.

Definition IsAtWar (e : option FactionEntry) (r : ReputationMgr) : bool :=
  match e with
  | None => false
  | Some e => match GetState e r with
              | Some f => has_flag (Flags f) FACTION_FLAG_AT_WAR
              | None => false
              end
  end.

Definition IsAtWar_id (faction_id : Z) (r : ReputationMgr) : bool :=
  match LookupEntry faction_id with
  | None => false
  | Some e => IsAtWar (Some e) r
  end.

Definition GetReputation (e : option FactionEntry) (r : ReputationMgr) : Z :=
  match e with
  | None => 0
  | Some e => match GetState e r with
              | Some f => s32 (GetBaseReputation (Some e) + Standing f)
              | None => 0
              end
  end.

Definition GetReputation_id (faction_id : Z) (r : ReputationMgr) : Z :=
  match LookupEntry faction_id with
  | None => 0
  | Some e => GetReputation (Some e) r
  end.

Definition GetRank (e : option FactionEntry) (r : ReputationMgr) : Z :=
  ReputationToRank (GetReputation e r).

Definition GetBaseRank (e : option FactionEntry) : Z := ReputationToRank (GetBaseReputation e).

(** *** State changes of one faction *)

Definition ApplyForceReaction (faction_id rank : Z) (apply : bool) : RM unit :=
  modify (fun r => r <| _forcedReactions ::=
    if apply then <[faction_id := rank]> else delete faction_id |>).

Definition SendVisible (faction : FactionState) : RM unit :=
  if PlayerLoading then mret tt
  else send_packet SMSG_SET_FACTION_VISIBLE (out TU32 (ReputationListID faction)).

(** Dereference of a pointer into [_factions]. *)
Definition get_state (id : Z) : RM FactionState :=
  r ← getS;
  match _factions r !! id with
  | Some f => mret f
  | None => abort UndefinedBehaviour
  end.

Definition put_state (id : Z) (f : FactionState) : RM unit :=
  modify (fun r => r <| _factions ::= <[id := f]> |>).

(** [SetVisible(FactionState)] *)
Definition SetVisible_state (id : Z) : RM unit :=
  f ← get_state id;
  if has_flag (Flags f) (Z.lor FACTION_FLAG_INVISIBLE_FORCED FACTION_FLAG_HIDDEN) &&
     negb (has_flag (Flags f) FACTION_FLAG_SPECIAL)
  then mret tt
  else if has_flag (Flags f) FACTION_FLAG_VISIBLE then mret tt
  else
    let f' := f <| Flags := Z.lor (Flags f) FACTION_FLAG_VISIBLE |>
                <| needSend := true |> <| needSave := true |> in
    put_state id f';;
    modify (fun r => r <| _visibleFactionCount ::= fun n => u8 (n + 1) |>);;
    SendVisible f'.

(** [SetAtWar(FactionState, bool)] *)
Definition SetAtWar_state (id : Z) (atWar : bool) : RM unit :=
  f ← get_state id;
  if atWar && has_flag (Flags f) FACTION_FLAG_PEACE_FORCED then mret tt
  else if eqb (has_flag (Flags f) FACTION_FLAG_AT_WAR) atWar then mret tt
  else
    put_state id
      (f <| Flags := if atWar then Z.lor (Flags f) FACTION_FLAG_AT_WAR
                     else u8 (Z.land (Flags f) (Z.lnot FACTION_FLAG_AT_WAR)) |>
         <| needSend := true |> <| needSave := true |>).

(** [SetInactive(FactionState, bool)] *)
Definition SetInactive_state (id : Z) (inactive : bool) : RM unit :=
  f ← get_state id;
  if inactive &&
     (has_flag (Flags f) (Z.lor FACTION_FLAG_INVISIBLE_FORCED FACTION_FLAG_HIDDEN) ||
      negb (has_flag (Flags f) FACTION_FLAG_VISIBLE))
  then mret tt
  else if eqb (has_flag (Flags f) FACTION_FLAG_INACTIVE) inactive then mret tt
  else
    put_state id
      (f <| Flags := if inactive then Z.lor (Flags f) FACTION_FLAG_INACTIVE
                     else u8 (Z.land (Flags f) (Z.lnot FACTION_FLAG_INACTIVE)) |>
         <| needSend := true |> <| needSave := true |>).

(** [SetVisible(FactionEntry)] *)
Definition SetVisible (e : FactionEntry) : RM unit :=
  if reputationListID e <? 0 then mret tt
  else r ← getS;
       match _factions r !! reputationListID e with
       | None => mret tt
       | Some _ => SetVisible_state (reputationListID e)
       end.

(** [SetVisible(FactionTemplateEntry)], on its [faction] field. *)
Definition SetVisible_template (faction : Z) : RM unit :=
  if faction =? 0 then mret tt
  else match LookupEntry faction with
       | None => mret tt
       | Some e =>
           when (negb (has_flag (nth 1 (BaseRepRaceMask e) 0) raceMask &&
                       (nth 1 (BaseRepValue e) 0 =? Reputation_Bottom)))
             (SetVisible e)
       end.

Definition SetAtWar (repListID : Z) (on : bool) : RM unit :=
  r ← getS;
  match _factions r !! repListID with
  | None => mret tt
  | Some f =>
      if has_flag (Flags f) (Z.lor FACTION_FLAG_INVISIBLE_FORCED FACTION_FLAG_HIDDEN)
      then mret tt
      else SetAtWar_state repListID on
  end.

Definition SetInactive (repListID : Z) (on : bool) : RM unit :=
  r ← getS;
  match _factions r !! repListID with
  | None => mret tt
  | Some _ => SetInactive_state repListID on
  end.

(** *** Standing *)

(** [find(factionEntry->reputationListID)]: the signed id as a [uint32]. *)
Definition list_key (e : FactionEntry) : Z := u32 (reputationListID e).

Definition SetOneFactionReputation (e : FactionEntry) (standing : Z) (incremental : bool)
  : RM bool :=
  r ← getS;
  match _factions r !! list_key e with
  | None => mret false
  | Some f =>
      let BaseRep := GetBaseReputation (Some e) in
      let standing1 :=
        if incremental then
          s32 (int32_of_floor (f32_add (f32_mul (f32_of_Z standing) RATE_REPUTATION_GAIN) f32_half)
               + s32 (Standing f + BaseRep))
        else standing in
      let standing2 :=
        if Reputation_Cap <? standing1 then Reputation_Cap
        else if standing1 <? Reputation_Bottom then Reputation_Bottom
        else standing1 in
      let old_rank := ReputationToRank (s32 (Standing f + BaseRep)) in
      let new_rank := ReputationToRank standing2 in
      put_state (list_key e)
        (f <| Standing := s32 (standing2 - BaseRep) |> <| needSend := true |>
           <| needSave := true |>);;
      SetVisible_state (list_key e);;
      when (new_rank <=? REP_HOSTILE) (SetAtWar_state (list_key e) true);;
      when (old_rank <? new_rank) (modify (fun r => r <| _sendFactionIncreased := true |>));;
      UpdateRankCounters old_rank new_rank;;
      emit (ReputationChanged (fe_ID e));;
      when (fe_ID e =? 1168) (emit (GuildReachLevel player_level));;
      mret true
  end.

(** [SendState(&_factions[id])]: the standing of the faction, then those of
    the others whose [needSend] is set. *)
Definition SendState_others (id : Z) : RM (list (Z * Z)) :=
  r ← getS;
  let others := omap (fun k => match _factions r !! k with
                               | Some f => if needSend f && negb (ReputationListID f =? id)
                                           then Some (ReputationListID f, Standing f) else None
                               | None => None
                               end) (keys (_factions r)) in
  modify (fun r => r <| _factions ::= fmap (fun f => f <| needSend := false |>) |>);;
  mret others.

Definition SendState (id : Z) : RM unit :=
  f ← get_state id;
  r ← getS;
  let increased := _sendFactionIncreased r in
  modify (fun r => r <| _sendFactionIncreased := false |>);;
  others ← SendState_others (ReputationListID f);
  send_packet SMSG_SET_FACTION_STANDING
    ((out TFloat 0;; out TU8 (if (increased : bool) then 1 else 0));;
     p_count ← get_wpos;
     out TU32 1;;
     (out TU32 (ReputationListID f);; out TU32 (Standing f);;
      for_each others (fun o => out TU32 o.1;; out TU32 o.2));;
     put_T 4 p_count (1 + zlen others)).

Definition SendStates : RM unit :=
  r ← getS;
  for_each (keys (_factions r)) SendState.

(** The entries from [a] up to [b], absent ones. *)
Definition absent (a b : Z) : BB unit :=
  for_each (seqZ a (u32 (b - a))) (fun _ => out TU8 0;; out TU32 0).

Fixpoint initial_entries (a : Z) (l : list (Z * FactionState)) : BB unit :=
  match l with
  | [] => absent a 256
  | (k, f) :: l' =>
      absent a k;;
      out TU8 (Flags f);;
      out TU32 (Standing f);;
      initial_entries (u32 (k + 1)) l'
  end.

Definition entries_in_order (r : ReputationMgr) : list (Z * FactionState) :=
  omap (fun k => (fun f => (k, f)) <$> _factions r !! k) (keys (_factions r)).

Definition SendInitialReputations : RM unit :=
  r ← getS;
  send_packet SMSG_INITIALIZE_FACTIONS
    (out TU32 256;; initial_entries 0 (entries_in_order r));;
  modify (fun r => r <| _factions ::= fmap (fun f => f <| needSend := false |>) |>).

Definition SendForceReactions : RM unit :=
  r ← getS;
  let m := _forcedReactions r in
  send_packet SMSG_SET_FORCED_REACTIONS
    (out TU32 (Z.of_nat (base.size m));;
     for_each (keys m) (fun k => match m !! k with
                                 | Some rank => out TU32 k;; out TU32 rank
                                 | None => mret tt
                                 end)).

(** *** Spillover *)

Definition spill_template (tpl : RepSpilloverTemplate) (standing : Z) (incremental : bool)
  : RM unit :=
  for_each tpl (fun row =>
    let '(faction, rate, max_rank) := row in
    if faction =? 0 then mret tt
    else
      r ← getS;
      if GetRank (LookupEntry faction) r <=? max_rank then
        match LookupEntry faction with
        | None => abort UndefinedBehaviour
        | Some e =>
            SetOneFactionReputation e (int32_of_f32 (f32_mul (f32_of_Z standing) rate)) incremental;;
            mret tt
        end
      else mret tt).

(** The factions of [flist]; the result of the last change made. *)
Fixpoint spill_list (flist : list Z) (self : Z) (spillOverRepOut : f32) (incremental res : bool)
  : RM bool :=
  match flist with
  | [] => mret res
  | x :: flist' =>
      match LookupEntry x with
      | None => spill_list flist' self spillOverRepOut incremental res
      | Some e =>
          r ← getS;
          if (fe_ID e =? self) || (spilloverMaxRankIn e <? GetRank (Some e) r)
          then spill_list flist' self spillOverRepOut incremental res
          else
            let spilloverRep := int32_of_f32 (f32_mul spillOverRepOut (spilloverRateIn e)) in
            if negb (spilloverRep =? 0) || negb incremental then
              res' ← SetOneFactionReputation e spilloverRep incremental;
              spill_list flist' self spillOverRepOut incremental res'
            else spill_list flist' self spillOverRepOut incremental res
      end
  end.

Definition spill_dbc (e : FactionEntry) (standing : Z) (incremental : bool) : RM bool :=
  let flist := GetFactionTeamList (fe_ID e) in
  match flist with
  | Some l => spill_list l (fe_ID e) (f32_of_Z standing) incremental false
  | None =>
      if negb (fe_team e =? 0) && negb (f32_eqb (spilloverRateOut e) f32_zero) then
        let spillOverRepOut := f32_mul (f32_of_Z standing) (spilloverRateOut e) in
        match LookupEntry (fe_team e) with
        | None => mret false
        | Some parent =>
            r ← getS;
            let special := match _factions r !! list_key parent with
                           | Some f => has_flag (Flags f) FACTION_FLAG_SPECIAL
                           | None => false
                           end in
            if (special : bool) then
              SetOneFactionReputation parent (int32_of_f32 spillOverRepOut) incremental;;
              mret false
            else match GetFactionTeamList (fe_team e) with
                 | Some l => spill_list l (fe_ID e) spillOverRepOut incremental false
                 | None => mret false
                 end
        end
      else mret false
  end.

(** [SetReputation(factionEntry, standing, incremental)] *)
Definition SetReputation (e : FactionEntry) (standing0 : Z) (incremental : bool) : RM bool :=
  let standing := OnPlayerReputationChange (fe_ID e) standing0 incremental in
  res ← (match GetRepSpilloverTemplate (fe_ID e) with
         | Some tpl => spill_template tpl standing incremental;; mret false
         | None => spill_dbc e standing incremental
         end);
  r ← getS;
  match _factions r !! list_key e with
  | None => mret res
  | Some _ =>
      res' ← SetOneFactionReputation e standing incremental;
      SendState (list_key e);;
      mret res'
  end.

(** *** Loading and saving *)

Definition Initialize_entry (i : Z) : RM unit :=
  match LookupEntry i with
  | None => mret tt
  | Some e =>
      if 0 <=? reputationListID e then
        let flags := u8 (GetDefaultStateFlags (Some e)) in
        when (has_flag flags FACTION_FLAG_VISIBLE)
          (modify (fun r => r <| _visibleFactionCount ::= fun n => u8 (n + 1) |>));;
        UpdateRankCounters REP_HOSTILE (GetBaseRank (Some e));;
        put_state (list_key e)
          (mkFactionState (fe_ID e) (list_key e) 0 flags true true)
      else mret tt
  end.

Definition Initialize : RM unit :=
  modify (fun r => r <| _factions := ∅ |> <| _visibleFactionCount := 0 |>
                     <| _honoredFactionCount := 0 |> <| _reveredFactionCount := 0 |>
                     <| _exaltedFactionCount := 0 |> <| _sendFactionIncreased := false |>);;
  for_each (seqZ 1 (GetNumRows - 1)) Initialize_entry.

(** One row of [character_reputation]: faction, standing, flags. *)
Definition LoadFromDB_row (row : Z * Z * Z) : RM unit :=
  let '(faction, standing, dbFactionFlags) := row in
  match LookupEntry faction with
  | None => mret tt
  | Some e =>
      if 0 <=? reputationListID e then
        let id := list_key e in
        r ← getS;
        let f := default FactionState_zero (_factions r !! id) in
        put_state id (f <| Standing := standing |>);;
        let BaseRep := GetBaseReputation (Some e) in
        UpdateRankCounters (ReputationToRank BaseRep) (ReputationToRank (s32 (BaseRep + standing)));;
        when (has_flag dbFactionFlags FACTION_FLAG_VISIBLE) (SetVisible_state id);;
        when (has_flag dbFactionFlags FACTION_FLAG_INACTIVE) (SetInactive_state id true);;
        (if has_flag dbFactionFlags FACTION_FLAG_AT_WAR then SetAtWar_state id true
         else f ← get_state id;
              when (has_flag (Flags f) FACTION_FLAG_VISIBLE) (SetAtWar_state id false));;
        r ← getS;
        when (GetRank (Some e) r <=? REP_HOSTILE) (SetAtWar_state id true);;
        f ← get_state id;
        when (Flags f =? dbFactionFlags)
          (put_state id (f <| needSend := false |> <| needSave := false |>))
      else mret tt
  end.

Definition LoadFromDB (result : option (list (Z * Z * Z))) : RM unit :=
  Initialize;;
  match result with
  | None => mret tt
  | Some rows => for_each rows LoadFromDB_row
  end.

Definition SaveToDB : RM unit :=
  r ← getS;
  for_each (keys (_factions r)) (fun k =>
    f ← get_state k;
    when (needSave f)
      (emit (DeleteReputation GUIDLow (u16 (fs_ID f)));;
       emit (InsertReputation GUIDLow (u16 (fs_ID f)) (Standing f) (u16 (Flags f)));;
       put_state k (f <| needSave := false |>))).
End ReputationMgr.
