(* ===== verification/ReputationProps.v ===== *)
(** * Correctness of the reputation manager

    Ranks and their bounds, the effect of a change of standing, the invariant
    that ties the rank counters to the standings, and the packets. *)

From stdpp Require Import sorting.
From S2P Require Import Prelude Float32 ByteBuffer Wire Packet Maps Reputation.

#[global] Arguments ReputationToRank : simpl never.
#[global] Arguments GetBaseReputation : simpl never.
#[global] Arguments base_lookup : simpl never.
#[global] Arguments has_flag : simpl never.

(** ** Ranks *)

(** The least standing of each rank. *)
Definition rank_floor (r : Z) : Z :=
  if r =? 7 then 42000 else if r =? 6 then 21000 else if r =? 5 then 9000
  else if r =? 4 then 3000 else if r =? 3 then 0 else if r =? 2 then -3000
  else if r =? 1 then -6000 else -42000.

Lemma ReputationToRank_eq s :
  ReputationToRank s =
  if 42000 <=? s then 7 else if 21000 <=? s then 6 else if 9000 <=? s then 5
  else if 3000 <=? s then 4 else if 0 <=? s then 3 else if -3000 <=? s then 2
  else if -6000 <=? s then 1 else 0.
Proof.
  unfold ReputationToRank, Reputation_Cap.
  change (Z.to_nat MAX_REPUTATION_RANK) with 8%nat.
  cbn [ReputationToRank_loop nth PointsInRank]. no_swrap.
  change (42999 + 1 - 1000) with 42000. change (42000 - 21000) with 21000.
  change (21000 - 12000) with 9000. change (9000 - 6000) with 3000.
  change (3000 - 3000) with 0. change (0 - 3000) with (-3000).
  change (-3000 - 3000) with (-6000). change (-6000 - 36000) with (-42000).
  repeat match goal with |- context [if ?x <=? ?y then _ else _] => destruct (x <=? y) end; done.
Qed.

Lemma ReputationToRank_range s : 0 <= ReputationToRank s <= 7.
Proof.
  rewrite ReputationToRank_eq.
  repeat match goal with |- context [if ?x <=? ?y then _ else _] => destruct (x <=? y) end; lia.
Qed.

(** A standing has the rank whose range contains it: rank [r] from its
    least standing up to the least standing of the next rank, the lowest rank
    with no lower limit and the highest with no upper limit. *)
Theorem ReputationToRank_spec (s r : Z) :
  0 <= r <= 7 ->
  ReputationToRank s = r <-> (r = 0 \/ rank_floor r <= s) /\ (r = 7 \/ s < rank_floor (r + 1)).
Proof.
  intros Hr. rewrite ReputationToRank_eq.
  assert (r = 0 \/ r = 1 \/ r = 2 \/ r = 3 \/ r = 4 \/ r = 5 \/ r = 6 \/ r = 7) as Hc by lia.
  repeat match goal with |- context [if ?x <=? ?y then _ else _] => destruct (Z.leb_spec x y) end;
    destruct Hc as [->|[->|[->|[->|[->|[->|[->| ->]]]]]]]; unfold rank_floor; zbool; lia.
Qed.

Lemma ReputationToRank_spec_witness :
  ReputationToRank 20999 = 5 <-> (5 = 0 \/ rank_floor 5 <= 20999) /\ (5 = 7 \/ 20999 < rank_floor 6).
Proof. apply (ReputationToRank_spec 20999 5). lia. Defined.

(** ** Flags *)

Lemma has_flag_lor a b m : has_flag (Z.lor a b) m = has_flag a m || has_flag b m.
Proof.
  unfold has_flag. rewrite Z.land_lor_distr_l.
  destruct (Z.eqb_spec (Z.land a m) 0) as [Ha|Ha], (Z.eqb_spec (Z.land b m) 0) as [Hb|Hb];
    cbn; rewrite ?Ha, ?Hb.
  - done.
  - rewrite Z.lor_0_l. by apply negb_true_iff, Z.eqb_neq.
  - rewrite Z.lor_0_r. by apply negb_true_iff, Z.eqb_neq.
  - apply negb_true_iff, Z.eqb_neq. intros [Ha' _]%Z.lor_eq_0_iff. done.
Qed.

(** The pure effect of the flag operations on a state. *)
Definition may_show (f : FactionState) : bool :=
  negb (has_flag (Flags f) (Z.lor FACTION_FLAG_INVISIBLE_FORCED FACTION_FLAG_HIDDEN) &&
        negb (has_flag (Flags f) FACTION_FLAG_SPECIAL)) &&
  negb (has_flag (Flags f) FACTION_FLAG_VISIBLE).

Definition shown (f : FactionState) : FactionState :=
  if may_show f
  then f <| Flags := Z.lor (Flags f) FACTION_FLAG_VISIBLE |> <| needSend := true |> <| needSave := true |>
  else f.

Definition at_war (f : FactionState) : FactionState :=
  if has_flag (Flags f) FACTION_FLAG_PEACE_FORCED || has_flag (Flags f) FACTION_FLAG_AT_WAR then f
  else f <| Flags := Z.lor (Flags f) FACTION_FLAG_AT_WAR |> <| needSend := true |> <| needSave := true |>.

Definition is_visible (f : FactionState) : bool := has_flag (Flags f) FACTION_FLAG_VISIBLE.

Lemma is_visible_shown f : is_visible (shown f) = is_visible f || may_show f.
Proof.
  unfold shown. destruct (may_show f) eqn:Hm; [|by rewrite orb_false_r].
  unfold is_visible. cbn. rewrite has_flag_lor. cbn. by rewrite !orb_true_r.
Qed.

Lemma is_visible_at_war f : is_visible (at_war f) = is_visible f.
Proof.
  unfold at_war. destruct (_ || _); [done|]. unfold is_visible. cbn.
  rewrite has_flag_lor. cbn. apply orb_false_r.
Qed.

Lemma Standing_shown f : Standing (shown f) = Standing f /\ fs_ID (shown f) = fs_ID f /\
  ReputationListID (shown f) = ReputationListID f.
Proof. unfold shown. by destruct (may_show f). Qed.

Lemma Standing_at_war f : Standing (at_war f) = Standing f /\ fs_ID (at_war f) = fs_ID f /\
  ReputationListID (at_war f) = ReputationListID f.
Proof. unfold at_war. by destruct (_ || _). Qed.

(** ** Runs of the operations

    Each operation on one faction is its pure effect on the state, with some
    more output. *)

Section Runs.
Context `{Host, World}.

Definition upd (id : Z) (f : FactionState) (vis : Z) (l : list rep_output) (r : ReputationMgr)
  : ReputationMgr :=
  r <| _factions := <[id := f]> (_factions r) |> <| _visibleFactionCount := vis |>
    <| output := output r ++ l |>.

Lemma send_packet_built opcode body bs r :
  body ByteBuffer_new = Ok tt (buffer (packet_of opcode bs)) ->
  send_packet opcode body r
  = Ok tt (r <| output := output r ++ [SendDirectMessage (packet_of opcode bs)] |>).
Proof. intros Hb. unfold send_packet, on_local, emit. run. by rewrite Hb. Qed.

Lemma send_packet_run opcode body bs r :
  writes body bs -> zlen bs <= 10000000 ->
  send_packet opcode body r
  = Ok tt (r <| output := output r ++ [SendDirectMessage (packet_of opcode bs)] |>).
Proof. intros Hw Hlen. apply send_packet_built. by apply Hw. Qed.

Lemma SetVisible_state_run id f r :
  _factions r !! id = Some f ->
  exists l, SetVisible_state id r =
    Ok tt (upd id (shown f)
             (if may_show f then u8 (_visibleFactionCount r + 1) else _visibleFactionCount r) l r).
Proof.
  intros Hf. unfold SetVisible_state, get_state. run. rewrite Hf. unfold shown, may_show.
  destruct (has_flag (Flags f) (Z.lor _ _) && _) eqn:H1; cbn [negb andb];
    [|destruct (has_flag (Flags f) FACTION_FLAG_VISIBLE) eqn:H2; cbn [negb andb]].
  1,2: exists []; unfold upd; rewrite insert_id, app_nil_r by done; by destruct r.
  unfold put_state, SendVisible. run. destruct PlayerLoading.
  - exists []. unfold upd. run. by rewrite app_nil_r.
  - eexists. erewrite send_packet_run; [|apply writes_out|done]. reflexivity.
Qed.

Lemma SetAtWar_state_true_run id f r :
  _factions r !! id = Some f ->
  SetAtWar_state id true r = Ok tt (upd id (at_war f) (_visibleFactionCount r) [] r).
Proof.
  intros Hf. unfold SetAtWar_state, get_state. run. rewrite Hf. unfold at_war.
  destruct (has_flag (Flags f) FACTION_FLAG_PEACE_FORCED); cbn [orb];
    [|destruct (has_flag (Flags f) FACTION_FLAG_AT_WAR); cbn [eqb]].
  1,2: unfold upd; rewrite insert_id, app_nil_r by done; by destruct r.
  unfold put_state, upd. run. by rewrite app_nil_r.
Qed.

Lemma upd_upd id f1 f2 v1 v2 l1 l2 r :
  upd id f2 v2 l2 (upd id f1 v1 l1 r) = upd id f2 v2 (l1 ++ l2) r.
Proof. unfold upd. cbn. by rewrite insert_insert_eq, app_assoc. Qed.

(** The rank counters move by the difference of the two ranks. *)
Definition crossed (rank old new : Z) : Z := Z.b2z (rank <=? new) - Z.b2z (rank <=? old).

Lemma UpdateRankCounters_run old new r :
  in_width 8 (_honoredFactionCount r) -> in_width 8 (_reveredFactionCount r) ->
  in_width 8 (_exaltedFactionCount r) ->
  UpdateRankCounters old new r = Ok tt (r
    <| _honoredFactionCount ::= fun n => u8 (n + crossed REP_HONORED old new) |>
    <| _reveredFactionCount ::= fun n => u8 (n + crossed REP_REVERED old new) |>
    <| _exaltedFactionCount ::= fun n => u8 (n + crossed REP_EXALTED old new) |>).
Proof.
  intros Hh Hr He. unfold UpdateRankCounters, crossed. run.
  assert (Hadd : forall n a b, u8 (u8 (n + a) + b) = u8 (n + (a + b))).
  { intros n a b. unfold wrap. rewrite Z.add_mod_idemp_l by lia. f_equal. lia. }
  destruct (REP_EXALTED <=? old), (REP_REVERED <=? old), (REP_HONORED <=? old),
    (REP_EXALTED <=? new), (REP_REVERED <=? new), (REP_HONORED <=? new); cbn;
    unfold Z.sub; rewrite ?Hadd; cbn;
    destruct r; cbn in *; f_equal; f_equal; rewrite ?Z.add_0_r; symmetry; auto using wrap_small.
Qed.
End Runs.

(** ** One change of standing *)

Definition clamp (s : Z) : Z :=
  if Reputation_Cap <? s then Reputation_Cap
  else if s <? Reputation_Bottom then Reputation_Bottom else s.

Lemma clamp_range s : Reputation_Bottom <= clamp s <= Reputation_Cap.
Proof.
  unfold clamp, Reputation_Cap, Reputation_Bottom.
  destruct (Z.ltb_spec 42999 s); [lia|]. destruct (Z.ltb_spec s (-42000)); lia.
Qed.

Section Standing.
Context `{Host, World}.

(** The standing asked for, before it is clamped. *)
Definition target (f : FactionState) (BaseRep standing : Z) (incremental : bool) : Z :=
  if incremental
  then s32 (int32_of_floor (f32_add (f32_mul (f32_of_Z standing) RATE_REPUTATION_GAIN) f32_half)
            + s32 (Standing f + BaseRep))
  else standing.

Definition restated (f : FactionState) (BaseRep s : Z) : FactionState :=
  let f1 := shown (f <| Standing := s32 (s - BaseRep) |> <| needSend := true |>
                     <| needSave := true |>) in
  if ReputationToRank s <=? REP_HOSTILE then at_war f1 else f1.

Definition rank_counts_moved (old new : Z) (r : ReputationMgr) : ReputationMgr :=
  r <| _honoredFactionCount ::= fun n => u8 (n + crossed REP_HONORED old new) |>
    <| _reveredFactionCount ::= fun n => u8 (n + crossed REP_REVERED old new) |>
    <| _exaltedFactionCount ::= fun n => u8 (n + crossed REP_EXALTED old new) |>.

Definition counters_wide (r : ReputationMgr) : Prop :=
  in_width 8 (_honoredFactionCount r) /\ in_width 8 (_reveredFactionCount r) /\
  in_width 8 (_exaltedFactionCount r).

Lemma SetOneFactionReputation_run e standing incremental r f :
  counters_wide r -> _factions r !! list_key e = Some f ->
  let BaseRep := GetBaseReputation (Some e) in
  let s := clamp (target f BaseRep standing incremental) in
  let old := ReputationToRank (s32 (Standing f + BaseRep)) in
  let moved l :=
    rank_counts_moved old (ReputationToRank s)
      (upd (list_key e) (restated f BaseRep s)
         (if may_show f then u8 (_visibleFactionCount r + 1) else _visibleFactionCount r) l r) in
  exists l inc,
    SetOneFactionReputation e standing incremental r =
    Ok true ((moved l) <| _sendFactionIncreased := inc |>).
Proof.
  intros (Hh & Hr & He) Hf BaseRep s old moved.
  unfold SetOneFactionReputation. rewrite (bind_run getS _ r r r) by done. cbv beta. rewrite Hf.
  cbv zeta. fold BaseRep. fold (target f BaseRep standing incremental).
  fold (clamp (target f BaseRep standing incremental)). fold s old.
  set (f0 := f <| Standing := s32 (s - BaseRep) |> <| needSend := true |> <| needSave := true |>).
  unfold put_state. erewrite bind_run by done.
  destruct (SetVisible_state_run (list_key e) f0 (r <| _factions ::= <[list_key e := f0]> |>))
    as [l1 Hvis]; [apply lookup_insert_eq|].
  erewrite bind_run by exact Hvis. clear Hvis.
  set (vis := if may_show f0 then _ else _).
  replace (upd (list_key e) (shown f0) vis l1 _) with (upd (list_key e) (shown f0) vis l1 r)
    by (unfold upd; cbn; by rewrite insert_insert_eq).
  erewrite (bind_run _ _ _ tt (upd (list_key e) (restated f BaseRep s) vis l1 r)).
  2: { unfold when, restated. fold f0. destruct (ReputationToRank s <=? REP_HOSTILE); [|done].
       erewrite SetAtWar_state_true_run by apply lookup_insert_eq.
       by rewrite upd_upd, app_nil_r. }
  set (inc := if old <? ReputationToRank s then true else _sendFactionIncreased r).
  erewrite (bind_run _ _ _ tt ((upd (list_key e) (restated f BaseRep s) vis l1 r)
                                 <| _sendFactionIncreased := inc |>))
    by (unfold inc, when; by destruct (old <? ReputationToRank s)).
  erewrite bind_run by by apply UpdateRankCounters_run.
  unfold emit. erewrite bind_run by done.
  exists (l1 ++ ReputationChanged (fe_ID e)
            :: if fe_ID e =? 1168 then [GuildReachLevel player_level] else []), inc.
  destruct (fe_ID e =? 1168); run; unfold moved, rank_counts_moved, upd; cbn;
    rewrite <- ?app_assoc; reflexivity.
Qed.
End Standing.

(** ** The invariant

    The faction store: ids are row numbers, list ids are unique and below 256
    (the number of entries of the initial packet), base values are standings. *)

Class StoreOk `{World} : Prop := {
  store_rows : 1 <= GetNumRows;
  store_id : forall i e, LookupEntry i = Some e -> fe_ID e = i;
  store_list : forall i e, LookupEntry i = Some e ->
    -1 <= reputationListID e < 256 /\ (0 <= reputationListID e -> 1 <= i < GetNumRows);
  store_unique : forall i j e e', LookupEntry i = Some e -> LookupEntry j = Some e' ->
    reputationListID e = reputationListID e' -> 0 <= reputationListID e -> i = j;
  store_base : forall i e, LookupEntry i = Some e ->
    Reputation_Bottom <= GetBaseReputation (Some e) <= Reputation_Cap
}.

Section Invariant.
Context `{Host, World, !StoreOk}.
#[local] Set Default Proof Using "All".

Definition base_of (f : FactionState) : Z := GetBaseReputation (LookupEntry (fs_ID f)).
Definition rank_of (f : FactionState) : Z := ReputationToRank (base_of f + Standing f).
Definition ranked (rank : Z) (_ : Z) (f : FactionState) : bool := rank <=? rank_of f.

Definition state_ok (k : Z) (f : FactionState) : Prop :=
  0 <= k /\ ReputationListID f = k /\ in_width 8 (Flags f) /\
  Reputation_Bottom <= base_of f + Standing f <= Reputation_Cap /\
  exists e, LookupEntry (fs_ID f) = Some e /\ reputationListID e = k.

Definition states_ok (r : ReputationMgr) : Prop :=
  forall k f, _factions r !! k = Some f -> state_ok k f.

Definition counts_ok (r : ReputationMgr) : Prop :=
  _visibleFactionCount r = u8 (count_if (fun _ => is_visible) (_factions r)) /\
  _honoredFactionCount r = u8 (count_if (ranked REP_HONORED) (_factions r)) /\
  _reveredFactionCount r = u8 (count_if (ranked REP_REVERED) (_factions r)) /\
  _exaltedFactionCount r = u8 (count_if (ranked REP_EXALTED) (_factions r)).

Definition rep_inv (r : ReputationMgr) : Prop := states_ok r /\ counts_ok r.

Lemma counters_wide_ok r : counts_ok r -> counters_wide r.
Proof. unfold counters_wide. intros (_ & -> & -> & ->). split_and!; apply wrap_range; lia. Qed.

Lemma u8_add a b : u8 (u8 a + b) = u8 (a + b).
Proof. unfold wrap. by rewrite Z.add_mod_idemp_l by lia. Qed.

Lemma base_range f k : state_ok k f -> Reputation_Bottom <= base_of f <= Reputation_Cap.
Proof.
  intros (_ & _ & _ & _ & e & He & _). unfold base_of. rewrite He. by eapply store_base.
Qed.

Lemma Flags_shown f : in_width 8 (Flags f) -> in_width 8 (Flags (shown f)).
Proof.
  intros Hf. unfold shown. destruct (may_show f); [|done]. cbn.
  apply in_width_lor; [lia|done|]. unfold in_width, FACTION_FLAG_VISIBLE. lia.
Qed.

Lemma Flags_at_war f : in_width 8 (Flags f) -> in_width 8 (Flags (at_war f)).
Proof.
  intros Hf. unfold at_war. destruct (_ || _); [done|]. cbn.
  apply in_width_lor; [lia|done|]. unfold in_width, FACTION_FLAG_AT_WAR. lia.
Qed.

(** A change of one state that keeps its identity, with the counters moved
    by the difference it makes. *)
Lemma rep_inv_upd r k f g r' :
  rep_inv r -> _factions r !! k = Some f -> state_ok k g ->
  _factions r' = <[k := g]> (_factions r) ->
  _visibleFactionCount r' = u8 (_visibleFactionCount r + (Z.b2z (is_visible g) - Z.b2z (is_visible f))) ->
  _honoredFactionCount r' = u8 (_honoredFactionCount r + crossed REP_HONORED (rank_of f) (rank_of g)) ->
  _reveredFactionCount r' = u8 (_reveredFactionCount r + crossed REP_REVERED (rank_of f) (rank_of g)) ->
  _exaltedFactionCount r' = u8 (_exaltedFactionCount r + crossed REP_EXALTED (rank_of f) (rank_of g)) ->
  rep_inv r'.
Proof.
  intros [Hs (Hv & Hh & Hr & He)] Hf Hg Hm Hv' Hh' Hr' He'. split.
  - intros j x. rewrite Hm. intros [[<- <-]|[_ Hj]]%lookup_insert_Some; [done|by apply Hs].
  - unfold counts_ok. rewrite Hm, Hv', Hh', Hr', He', Hv, Hh, Hr, He, !u8_add.
    rewrite !(count_if_insert _ _ _ f g Hf). unfold ranked, crossed.
    split_and!; f_equal; lia.
Qed.

(** The faction behind a list id. *)
Lemma state_entry r i e f :
  states_ok r -> LookupEntry i = Some e -> _factions r !! list_key e = Some f ->
  fs_ID f = i /\ list_key e = reputationListID e /\ base_of f = GetBaseReputation (Some e).
Proof.
  intros Hs He Hf. destruct (Hs _ _ Hf) as (Hk & _ & _ & _ & e' & He' & Hl).
  destruct (store_list _ _ He) as [Hr _]. destruct (store_list _ _ He') as [Hr' _].
  unfold list_key in *.
  assert (Hpos : 0 <= reputationListID e).
  { destruct (decide (reputationListID e = -1)) as [Hn|]; [|lia].
    rewrite Hn in Hl. change (u32 (-1)) with (2 ^ 32 - 1) in Hl. lia. }
  rewrite wrap_small in Hl by (unfold in_width; lia).
  assert (Hi : fs_ID f = i) by (eapply store_unique; [done|done|done|lia]).
  split; [done|]. split; [apply wrap_small; unfold in_width; lia|].
  unfold base_of. by rewrite Hi, He.
Qed.

Lemma restated_facts f BaseRep s :
  Reputation_Bottom <= BaseRep <= Reputation_Cap -> Reputation_Bottom <= s <= Reputation_Cap ->
  Standing (restated f BaseRep s) = s - BaseRep /\ fs_ID (restated f BaseRep s) = fs_ID f /\
  ReputationListID (restated f BaseRep s) = ReputationListID f /\
  is_visible (restated f BaseRep s) = is_visible f || may_show f /\
  (in_width 8 (Flags f) -> in_width 8 (Flags (restated f BaseRep s))).
Proof.
  unfold Reputation_Bottom, Reputation_Cap. intros Hb Hs. unfold restated.
  set (f0 := f <| Standing := s32 (s - BaseRep) |> <| needSend := true |> <| needSave := true |>).
  assert (Hst0 : Standing f0 = s - BaseRep) by (cbn; by no_swrap).
  assert (Hid0 : fs_ID f0 = fs_ID f /\ ReputationListID f0 = ReputationListID f) by done.
  destruct Hid0 as [Hid0 Hli0]. destruct (Standing_shown f0) as (Hst & Hid & Hli).
  destruct (Standing_at_war (shown f0)) as (Hst' & Hid' & Hli').
  assert (Hv : is_visible (shown f0) = is_visible f || may_show f) by by rewrite is_visible_shown.
  destruct (ReputationToRank s <=? REP_HOSTILE).
  - rewrite Hst', Hid', Hli', is_visible_at_war. split_and!; try congruence.
    intros. by apply Flags_at_war, Flags_shown.
  - split_and!; try congruence. intros. by apply Flags_shown.
Qed.

Lemma SetOneFactionReputation_inv i e standing incremental r :
  LookupEntry i = Some e -> rep_inv r ->
  returns (SetOneFactionReputation e standing incremental)
    (fun b r' => rep_inv r' /\ b = bool_decide (is_Some (_factions r !! list_key e)) /\
                 dom (_factions r') = dom (_factions r) /\
                 _forcedReactions r' = _forcedReactions r /\
                 forall k, k <> list_key e -> _factions r' !! k = _factions r !! k) r.
Proof.
  intros He Hinv. pose proof Hinv as [Hs Hc].
  destruct (_factions r !! list_key e) as [f|] eqn:Hf.
  - destruct (state_entry r i e f Hs He Hf) as (Hid & Hkey & Hbase).
    pose proof (Hs _ _ Hf) as Hok.
    destruct (SetOneFactionReputation_run e standing incremental r f (counters_wide_ok r Hc) Hf)
      as (l & inc & Hrun).
    apply returns_Ok. do 2 eexists. split; [exact Hrun|].
    pose proof (base_range _ _ Hok) as Hbr. rewrite Hbase in Hbr.
    pose proof (clamp_range (target f (GetBaseReputation (Some e)) standing incremental)) as Hcl.
    set (s := clamp _) in *.
    destruct (restated_facts f _ s Hbr Hcl) as (Hst & Hid' & Hli & Hvis & Hfl).
    destruct Hok as (Hk & Hl & Hw & Hrange & Hent).
    assert (Hrank : rank_of (restated f (GetBaseReputation (Some e)) s) = ReputationToRank s).
    { unfold rank_of, base_of. rewrite Hst, Hid'. fold (base_of f). rewrite Hbase. f_equal. lia. }
    assert (Hrank0 : ReputationToRank (s32 (Standing f + GetBaseReputation (Some e))) = rank_of f).
    { unfold rank_of. rewrite Hbase in *. unfold Reputation_Bottom, Reputation_Cap in *.
      rewrite swrap_small; [f_equal; lia|lia|unfold in_swidth; zpow; lia]. }
    split; [|split; [|split; [|split]]].
    + eapply (rep_inv_upd r (list_key e) f (restated f (GetBaseReputation (Some e)) s)).
      * done.
      * done.
      * split; [done|]. split; [congruence|]. split; [auto|]. split; [|by rewrite Hid'].
        unfold base_of. rewrite Hst, Hid'. fold (base_of f). rewrite Hbase. lia.
      * done.
      * cbn. rewrite Hvis. destruct Hc as [Hv _]. rewrite Hv.
        destruct (may_show f) eqn:Hm; [|by rewrite orb_false_r, Z.sub_diag, Z.add_0_r, wrap_wrap by lia].
        assert (Hnv : is_visible f = false)
          by (unfold may_show in Hm; apply andb_true_iff in Hm as [_ Hm%negb_true_iff]; exact Hm).
        by rewrite Hnv.
      * cbn. by rewrite Hrank, Hrank0.
      * cbn. by rewrite Hrank, Hrank0.
      * cbn. by rewrite Hrank, Hrank0.
    + symmetry. by apply bool_decide_eq_true_2.
    + cbn. rewrite dom_insert_L. apply elem_of_dom_2 in Hf. set_solver.
    + done.
    + intros k Hne. cbn. by rewrite lookup_insert_ne.
  - apply returns_Ok. unfold SetOneFactionReputation. erewrite bind_run by done.
    cbv beta. rewrite Hf. exists false, r. split; [done|]. split; [done|].
    split; [|done]. symmetry. apply bool_decide_eq_false_2. intros [? ?]. done.
Qed.

(** Changes that leave standings, identities and visibility alone. *)
Lemma rep_inv_same r r' (g : FactionState -> FactionState) :
  rep_inv r -> _factions r' = g <$> _factions r ->
  (forall f, Standing (g f) = Standing f /\ fs_ID (g f) = fs_ID f /\
             ReputationListID (g f) = ReputationListID f /\ Flags (g f) = Flags f) ->
  _visibleFactionCount r' = _visibleFactionCount r ->
  _honoredFactionCount r' = _honoredFactionCount r ->
  _reveredFactionCount r' = _reveredFactionCount r ->
  _exaltedFactionCount r' = _exaltedFactionCount r -> rep_inv r'.
Proof.
  intros [Hs Hc] Hm Hg Hv Hh Hr He. split.
  - intros k f. rewrite Hm, lookup_fmap. destruct (_factions r !! k) as [f0|] eqn:Hf; [|done].
    cbn. intros [= <-]. destruct (Hg f0) as (Hst & Hid & Hli & Hfl).
    unfold state_ok, base_of. rewrite Hst, Hid, Hli, Hfl. by apply Hs.
  - unfold counts_ok. rewrite Hm, Hv, Hh, Hr, He, !count_if_fmap.
    erewrite (count_if_ext (fun _ x => is_visible (g x)));
      [|intros k x; destruct (Hg x) as (_ & _ & _ & Hfl); unfold is_visible; by rewrite Hfl].
    assert (Hrk : forall rank, count_if (fun k x => ranked rank k (g x)) (_factions r)
                               = count_if (ranked rank) (_factions r)).
    { intros rank. apply count_if_ext. intros k x. unfold ranked, rank_of, base_of.
      destruct (Hg x) as (Hst & Hid & _). by rewrite Hst, Hid. }
    rewrite !Hrk. exact Hc.
Qed.

Lemma rep_inv_output r l : rep_inv r -> rep_inv (r <| output := l |>).
Proof. done. Qed.

(** A change of flags other than visibility. *)
Lemma rep_inv_flags r k f flags send save :
  rep_inv r -> _factions r !! k = Some f -> in_width 8 flags ->
  has_flag flags FACTION_FLAG_VISIBLE = is_visible f ->
  rep_inv (r <| _factions ::= <[k := f <| Flags := flags |> <| needSend := send |>
                                      <| needSave := save |>]> |>).
Proof.
  intros Hinv Hf Hw Hvis. pose proof Hinv as [Hs (Hv & Hh & Hr & He)].
  eapply (rep_inv_upd r k f); [done|done| |reflexivity|..]; cbn.
  - destruct (Hs _ _ Hf) as (P1 & P2 & _ & P3 & P4). exact (conj P1 (conj P2 (conj Hw (conj P3 P4)))).
  - unfold is_visible at 1. cbn. rewrite Hvis, Z.sub_diag, Z.add_0_r. by rewrite Hv, wrap_wrap by lia.
  - unfold crossed. unfold rank_of at 2, base_of. cbn. fold (base_of f). fold (rank_of f).
    rewrite Z.sub_diag, Z.add_0_r. by rewrite Hh, wrap_wrap by lia.
  - unfold crossed. unfold rank_of at 2, base_of. cbn. fold (base_of f). fold (rank_of f).
    rewrite Z.sub_diag, Z.add_0_r. by rewrite Hr, wrap_wrap by lia.
  - unfold crossed. unfold rank_of at 2, base_of. cbn. fold (base_of f). fold (rank_of f).
    rewrite Z.sub_diag, Z.add_0_r. by rewrite He, wrap_wrap by lia.
Qed.

Lemma has_flag_clear a b m :
  Z.land (Z.lnot b) m = m -> in_width 8 m -> has_flag (u8 (Z.land a (Z.lnot b))) m = has_flag a m.
Proof.
  intros Hbm Hm. unfold has_flag. do 2 f_equal.
  transitivity (Z.land (Z.land a (Z.lnot b)) m); [|by rewrite <- Z.land_assoc, Hbm].
  apply Z.bits_inj'. intros i Hi. rewrite !Z.land_spec. destruct (decide (i < 8)).
  - by rewrite wrap_testbit, Z.land_spec by lia.
  - rewrite (in_width_high 8 m) by (done || lia). by rewrite !andb_false_r.
Qed.

Lemma get_state_run id f r : _factions r !! id = Some f -> get_state id r = Ok f r.
Proof. intros Hf. unfold get_state. erewrite bind_run by done. cbv beta. by rewrite Hf. Qed.

(** Which faction has which standing, and nothing else. *)
Definition standings (r : ReputationMgr) : gmap Z (Z * Z) :=
  (fun f => (fs_ID f, Standing f)) <$> _factions r.

Lemma standings_insert r k f g r' :
  _factions r !! k = Some f -> _factions r' = <[k := g]> (_factions r) ->
  Standing g = Standing f -> fs_ID g = fs_ID f -> standings r' = standings r.
Proof.
  intros Hf Hm Hst Hid. unfold standings. rewrite Hm, fmap_insert, Hst, Hid.
  apply insert_id. by rewrite lookup_fmap, Hf.
Qed.

Lemma standings_lookup r r' k f :
  standings r' = standings r -> _factions r !! k = Some f ->
  exists f', _factions r' !! k = Some f' /\ Standing f' = Standing f /\ fs_ID f' = fs_ID f.
Proof.
  intros Heq Hf. apply (f_equal (fun m => m !! k)) in Heq. unfold standings in Heq.
  rewrite !lookup_fmap, Hf in Heq. cbn in Heq.
  destruct (_factions r' !! k) as [f'|] eqn:Hf'; [|done]. cbn in Heq.
  injection Heq as Hid Hst. by exists f'.
Qed.

Lemma standings_is_Some r r' k :
  standings r' = standings r -> is_Some (_factions r !! k) -> is_Some (_factions r' !! k).
Proof. intros Heq [f Hf]. destruct (standings_lookup r r' k f Heq Hf) as (f' & ? & _). eauto. Qed.

(** What the operations on flags keep. *)
Definition same_standings (r r' : ReputationMgr) : Prop :=
  rep_inv r' /\ standings r' = standings r /\ _forcedReactions r' = _forcedReactions r.

Lemma SetVisible_state_inv id f r :
  rep_inv r -> _factions r !! id = Some f ->
  returns (SetVisible_state id)
    (fun _ r' => same_standings r r') r.
Proof.
  intros Hinv Hf. pose proof Hinv as [Hs (Hv & Hh & Hr & He)].
  destruct (SetVisible_state_run id f r Hf) as [l Hrun].
  destruct (Standing_shown f) as (Hst & Hid & Hli).
  apply returns_Ok. do 2 eexists. split; [exact Hrun|].
  split; [|split; [by apply (standings_insert r id f (shown f))|done]].
  assert (Hrk : rank_of (shown f) = rank_of f) by (unfold rank_of, base_of; by rewrite Hst, Hid).
  assert (Hbase : base_of (shown f) = base_of f) by (unfold base_of; by rewrite Hid).
  eapply (rep_inv_upd r id f); [done|done| |reflexivity|..]; cbn;
    rewrite ?Hrk; unfold crossed; rewrite ?Z.sub_diag, ?Z.add_0_r.
  - destruct (Hs _ _ Hf) as (P1 & P2 & P3 & P4 & P5). unfold state_ok.
    rewrite Hst, Hid, Hli, Hbase. apply Flags_shown in P3.
    exact (conj P1 (conj P2 (conj P3 (conj P4 P5)))).
  - rewrite is_visible_shown, Hv. destruct (may_show f) eqn:Hm.
    + assert (Hnv : is_visible f = false)
        by (unfold may_show in Hm; apply andb_true_iff in Hm as [_ Hm%negb_true_iff]; exact Hm).
      by rewrite Hnv.
    + by rewrite orb_false_r, Z.sub_diag, Z.add_0_r, wrap_wrap by lia.
  - by rewrite Hh, wrap_wrap by lia.
  - by rewrite Hr, wrap_wrap by lia.
  - by rewrite He, wrap_wrap by lia.
Qed.

Lemma SetAtWar_state_inv id on r :
  rep_inv r -> is_Some (_factions r !! id) ->
  returns (SetAtWar_state id on)
    (fun _ r' => same_standings r r') r.
Proof.
  intros Hinv [f Hf]. pose proof (proj1 Hinv _ _ Hf) as (_ & _ & Hw & _).
  unfold SetAtWar_state. apply wp_bind. unfold wp at 1. rewrite (get_state_run id f) by done.
  apply wp_if; intros H2; [by apply wp_ret|]. apply wp_if; intros H3; [by apply wp_ret|].
  apply wp_modify.
  split; [|split; [by eapply (standings_insert r id f _); [done|reflexivity|..]|done]].
  apply rep_inv_flags; [done|done| |]; destruct on.
  - apply in_width_lor; [lia|done|]. unfold in_width, FACTION_FLAG_AT_WAR. lia.
  - apply wrap_range. lia.
  - rewrite has_flag_lor. by rewrite orb_false_r.
  - by rewrite has_flag_clear by (done || (unfold in_width, FACTION_FLAG_VISIBLE; lia)).
Qed.

Lemma SetInactive_state_inv id on r :
  rep_inv r -> is_Some (_factions r !! id) ->
  returns (SetInactive_state id on)
    (fun _ r' => same_standings r r') r.
Proof.
  intros Hinv [f Hf]. pose proof (proj1 Hinv _ _ Hf) as (_ & _ & Hw & _).
  unfold SetInactive_state. apply wp_bind. unfold wp at 1. rewrite (get_state_run id f) by done.
  apply wp_if; intros H2; [by apply wp_ret|]. apply wp_if; intros H3; [by apply wp_ret|].
  apply wp_modify.
  split; [|split; [by eapply (standings_insert r id f _); [done|reflexivity|..]|done]].
  apply rep_inv_flags; [done|done| |]; destruct on.
  - apply in_width_lor; [lia|done|]. unfold in_width, FACTION_FLAG_INACTIVE. lia.
  - apply wrap_range. lia.
  - rewrite has_flag_lor. by rewrite orb_false_r.
  - by rewrite has_flag_clear by (done || (unfold in_width, FACTION_FLAG_VISIBLE; lia)).
Qed.

(** *** Packets *)

Lemma keys_bound r : rep_inv r -> zlen (keys (_factions r)) <= 256.
Proof.
  intros [Hs _]. apply keys_length; [|lia]. intros k f Hf.
  destruct (Hs _ _ Hf) as (Hk & _ & _ & _ & e & He & Hl).
  destruct (store_list _ _ He) as [? _]. lia.
Qed.

Definition pair_fmt (o : Z * Z) : list Z := scalar_fmt TU32 o.1 ++ scalar_fmt TU32 o.2.

Lemma zlen_pair_fmt o : zlen (pair_fmt o) = 8.
Proof. unfold pair_fmt, scalar_fmt. by rewrite zlen_app, !zlen_le_bytes. Qed.

Definition unsent (id : Z) (r : ReputationMgr) : list (Z * Z) :=
  omap (fun k => match _factions r !! k with
                 | Some f => if needSend f && negb (ReputationListID f =? id)
                             then Some (ReputationListID f, Standing f) else None
                 | None => None
                 end) (keys (_factions r)).

(** The bytes of [SMSG_SET_FACTION_STANDING]. *)
Definition standing_fmt (increased : bool) (l : list (Z * Z)) : list Z :=
  scalar_fmt TFloat 0 ++ scalar_fmt TU8 (if increased then 1 else 0) ++
  scalar_fmt TU32 (zlen l) ++ concat (map pair_fmt l).

Lemma SendState_run id f r :
  rep_inv r -> _factions r !! id = Some f ->
  SendState id r = Ok tt
    (r <| _factions := (fun f => f <| needSend := false |>) <$> _factions r |>
       <| _sendFactionIncreased := false |>
       <| output := output r ++ [SendDirectMessage (packet_of SMSG_SET_FACTION_STANDING
            (standing_fmt (_sendFactionIncreased r)
               ((ReputationListID f, Standing f) :: unsent (ReputationListID f) r)))] |>).
Proof.
  intros Hinv Hf. unfold SendState.
  erewrite bind_run by by apply get_state_run. erewrite bind_run by done.
  erewrite bind_run by done. unfold SendState_others.
  match goal with |- ((?m ≫= _) _) = _ => set (m0 := m) end.
  erewrite (bind_run m0) by (unfold m0; run; reflexivity). subst m0. cbn [_factions].
  fold (unsent (ReputationListID f) r).
  set (others := unsent (ReputationListID f) r).
  assert (Hlen : zlen others <= 256)
    by (etransitivity; [apply zlen_omap|by apply keys_bound]).
  set (head := scalar_fmt TFloat 0 ++ scalar_fmt TU8 (if _sendFactionIncreased r then 1 else 0)).
  set (post := concat (map pair_fmt ((ReputationListID f, Standing f) :: others))).
  assert (Hpost : zlen post = 8 * (1 + zlen others))
    by (unfold post; rewrite (zlen_concat_const _ 8) by apply zlen_pair_fmt; by rewrite zlen_cons).
  assert (Hhead : zlen head = 5) by done.
  erewrite (send_packet_built _ _ (head ++ le_bytes 4 (1 + zlen others) ++ post)).
  { unfold standing_fmt. rewrite zlen_cons. unfold head. by rewrite <- app_assoc. }
  apply (writes_patched _ _ head post).
  - apply writes_bind; apply writes_out.
  - unfold post. cbn [map concat]. unfold pair_fmt at 1. rewrite <- app_assoc.
    apply writes_bind; [apply writes_out|]. apply writes_bind; [apply writes_out|].
    apply writes_for_each. intros o _. apply writes_bind; apply writes_out.
  - zlen_pos. lia.
Qed.

(** One entry of the initial packet. *)
Definition entry_fmt (o : option FactionState) : list Z :=
  match o with
  | Some f => scalar_fmt TU8 (Flags f) ++ scalar_fmt TU32 (Standing f)
  | None => scalar_fmt TU8 0 ++ scalar_fmt TU32 0
  end.

Definition entries_fmt (look : Z -> option FactionState) (a b : Z) : list Z :=
  concat (map (fun k => entry_fmt (look k)) (seqZ a (b - a))).

Lemma entries_fmt_split look a k b :
  0 <= a <= k -> k <= b -> entries_fmt look a b = entries_fmt look a k ++ entries_fmt look k b.
Proof.
  clear. intros Ha Hk. unfold entries_fmt.
  replace (b - a) with ((k - a) + (b - k)) by lia.
  rewrite seqZ_app by lia. rewrite map_app, concat_app.
  do 4 f_equal. lia.
Qed.

Lemma absent_writes look a k :
  0 <= a <= k -> k <= 256 -> (forall j, a <= j < k -> look j = None) ->
  writes (absent a k) (entries_fmt look a k).
Proof.
  intros Ha Hk Hn. unfold absent, entries_fmt. no_wrap.
  replace (map (fun j => entry_fmt (look j)) (seqZ a (k - a)))
    with (map (fun _ => entry_fmt None) (seqZ a (k - a))).
  - apply writes_for_each. intros j _. apply writes_bind; apply writes_out.
  - apply map_ext_in. intros j Hj. apply list_elem_of_In, elem_of_seqZ in Hj.
    rewrite Hn by lia. done.
Qed.

(** The loop over the factions and the gaps between them. *)
Lemma initial_entries_writes look a l :
  0 <= a <= 256 -> StronglySorted Z.lt (map fst l) ->
  (forall k, k ∈ map fst l -> a <= k < 256) ->
  (forall k f, (k, f) ∈ l -> look k = Some f) ->
  (forall k, a <= k < 256 -> k ∉ map fst l -> look k = None) ->
  writes (initial_entries a l) (entries_fmt look a 256).
Proof.
  revert a. induction l as [|[k f] l IH]; intros a Ha Hs Hr Hl Hn.
  - cbn [initial_entries]. apply absent_writes; [lia|lia|].
    intros j Hj. apply Hn; [lia|]. apply not_elem_of_nil.
  - cbn [initial_entries map] in *. apply StronglySorted_inv in Hs as [Hs Hall].
    cbn [fst] in Hall. rewrite Forall_forall in Hall.
    assert (Hk : a <= k < 256) by (apply Hr; set_solver).
    rewrite (entries_fmt_split look a k 256), (entries_fmt_split look k (k + 1) 256) by lia.
    assert (Hone : entries_fmt look k (k + 1) = scalar_fmt TU8 (Flags f) ++ scalar_fmt TU32 (Standing f)).
    { unfold entries_fmt. replace (k + 1 - k) with 1 by lia.
      rewrite seqZ_cons, seqZ_nil by lia. cbn [map concat].
      rewrite (Hl k f) by set_solver. by rewrite app_nil_r. }
    rewrite Hone, <- app_assoc.
    apply writes_bind; [|apply writes_bind; [apply writes_out|]; apply writes_bind; [apply writes_out|]].
    + apply absent_writes; [lia|lia|]. intros j Hj. apply Hn; [lia|]. cbn.
      intros [->|Hin]%elem_of_cons; [lia|]. apply Hall in Hin. lia.
    + no_wrap. apply IH; [lia|done| | |].
      * intros j Hj. split; [apply Hall in Hj; lia|apply Hr; set_solver].
      * intros j g Hj. apply Hl. set_solver.
      * intros j Hj Hnj. apply Hn; [lia|]. cbn. intros [->|Hin]%elem_of_cons; [lia|done].
Qed.

Lemma entries_in_order_fst r : map fst (entries_in_order r) = keys (_factions r).
Proof.
  clear. unfold entries_in_order. pose proof (elem_of_keys (_factions r)) as Hk.
  assert (Hall : forall k, k ∈ keys (_factions r) -> is_Some (_factions r !! k)) by (intros; by apply Hk).
  clear Hk. induction (keys (_factions r)) as [|k l IH]; [done|].
  destruct (Hall k) as [f Hf]; [set_solver|]. cbn. rewrite Hf. cbn. f_equal.
  apply IH. intros j Hj. apply Hall. set_solver.
Qed.

Lemma keys_strictly_sorted (m : gmap Z FactionState) : StronglySorted Z.lt (keys m).
Proof.
  clear. pose proof (keys_sorted m) as Hs. pose proof (NoDup_keys m) as Hn. revert Hn.
  induction Hs as [|k l Hs IH Hall]; intros Hn; [constructor|].
  apply NoDup_cons in Hn as [Hk Hn]. constructor; [by apply IH|].
  rewrite Forall_forall in *. intros j Hj. specialize (Hall j Hj).
  assert (j <> k) by (intros ->; done). lia.
Qed.

Lemma zlen_entries_fmt look a b : 0 <= b - a -> zlen (entries_fmt look a b) = 5 * (b - a).
Proof.
  clear. intros Hab. unfold entries_fmt. rewrite (zlen_concat_const _ 5).
  - unfold zlen. rewrite length_seqZ. lia.
  - intros k. destruct (look k); unfold entry_fmt, scalar_fmt; by rewrite zlen_app, !zlen_le_bytes.
Qed.

Lemma SendInitialReputations_run r :
  rep_inv r ->
  SendInitialReputations r = Ok tt
    (r <| output := output r ++ [SendDirectMessage (packet_of SMSG_INITIALIZE_FACTIONS
            (scalar_fmt TU32 256 ++ entries_fmt (fun k => _factions r !! k) 0 256))] |>
       <| _factions := (fun f => f <| needSend := false |>) <$> _factions r |>).
Proof.
  intros Hinv. unfold SendInitialReputations. erewrite bind_run by done. cbv beta.
  assert (Hw : writes (out TU32 256;; initial_entries 0 (entries_in_order r))
                 (scalar_fmt TU32 256 ++ entries_fmt (fun k => _factions r !! k) 0 256)).
  { apply writes_bind; [apply writes_out|]. apply initial_entries_writes; [lia| | | |].
    + rewrite entries_in_order_fst. apply keys_strictly_sorted.
    + intros k. rewrite entries_in_order_fst. intros [f Hf]%elem_of_keys.
      destruct (proj1 Hinv _ _ Hf) as (Hk & _ & _ & _ & e & He & Hl).
      destruct (store_list _ _ He). lia.
    + intros k f Hin. unfold entries_in_order in Hin.
      apply list_elem_of_omap in Hin as (j & _ & Hj).
      destruct (_factions r !! j) eqn:Hf; [|done]. cbn in Hj. by injection Hj as <- <-.
    + intros k _. rewrite entries_in_order_fst. intros Hk.
      destruct (_factions r !! k) eqn:Hf; [|done]. exfalso. apply Hk, elem_of_keys. eauto. }
  rewrite (bind_run _ _ _ _ _ (send_packet_run SMSG_INITIALIZE_FACTIONS _ _ r Hw
    ltac:(rewrite zlen_app, zlen_entries_fmt by lia; unfold scalar_fmt;
          rewrite zlen_le_bytes; cbn; lia))).
  done.
Qed.

End Invariant.
