(* ===== verification/ReputationInv.v ===== *)
(** * The reputation manager over its whole life

    Loading, every public operation and saving keep the invariant of
    [ReputationProps]: no sequence of calls throws or reaches an undefined
    access, standings stay in their range and the counters count. *)

From S2P Require Import Prelude Float32 ByteBuffer Wire Packet Maps Reputation ReputationProps.

Section Operations.
Context `{Host, World, !StoreOk}.
#[local] Set Default Proof Using "All".

(** The spillover templates name factions of the store (their loader drops
    the rows that do not). *)
Definition templates_ok : Prop :=
  forall i tpl faction rate top, GetRepSpilloverTemplate i = Some tpl ->
    (faction, rate, top) ∈ tpl -> faction <> 0 -> is_Some (LookupEntry faction).

(** What a change of standings keeps. *)
Definition kept (r : ReputationMgr) (r' : ReputationMgr) : Prop :=
  rep_inv r' /\ dom (_factions r') = dom (_factions r) /\
  _forcedReactions r' = _forcedReactions r.

Lemma kept_refl r : rep_inv r -> kept r r.
Proof. done. Qed.

Lemma kept_trans r1 r2 r3 : kept r1 r2 -> kept r2 r3 -> kept r1 r3.
Proof. unfold kept. intros (_ & -> & ->) (? & <- & <-). done. Qed.

Lemma kept_standings r r' : same_standings r r' -> kept r r'.
Proof.
  intros (Hinv & Heq & Hf). split; [done|]. split; [|done].
  apply (f_equal dom) in Heq. unfold standings in Heq. by rewrite !dom_fmap_L in Heq.
Qed.

Lemma kept_Some r r' k : kept r r' -> is_Some (_factions r !! k) -> is_Some (_factions r' !! k).
Proof. intros (_ & Hd & _) Hk. apply elem_of_dom. rewrite Hd. by apply elem_of_dom. Qed.

Lemma SetOneFactionReputation_kept i e standing incremental r0 r :
  LookupEntry i = Some e -> rep_inv r -> kept r0 r ->
  returns (SetOneFactionReputation e standing incremental) (fun _ r' => kept r0 r') r.
Proof.
  intros He Hinv Hk.
  eapply returns_mono; [by eapply SetOneFactionReputation_inv|].
  intros b r' (Hinv' & _ & Hd & Hfr & _). eapply kept_trans; [exact Hk|]. done.
Qed.

Lemma SendState_kept id r :
  rep_inv r -> is_Some (_factions r !! id) ->
  returns (SendState id) (fun _ r' => kept r r') r.
Proof.
  intros Hinv [f Hf]. apply returns_Ok. do 2 eexists. split; [by apply SendState_run|]. split.
  - eapply (rep_inv_same r _ (fun f => f <| needSend := false |>)); done.
  - split; [cbn; apply dom_fmap_L|done].
Qed.

Lemma SendStates_inv r : rep_inv r -> returns SendStates (fun _ r' => kept r r') r.
Proof.
  intros Hinv. unfold SendStates. apply wp_bind, wp_getS.
  apply (wp_for_each _ _ (kept r)); [by apply kept_refl|].
  intros k r' Hk%elem_of_keys Hr'.
  eapply returns_mono; [apply (SendState_kept k r')|].
  - apply Hr'.
  - by eapply kept_Some.
  - intros [] r'' Hr''. by eapply kept_trans.
Qed.

Lemma spill_template_inv tpl standing incremental r :
  (forall faction rate top, (faction, rate, top) ∈ tpl -> faction <> 0 ->
                            is_Some (LookupEntry faction)) ->
  rep_inv r -> returns (spill_template tpl standing incremental) (fun _ r' => kept r r') r.
Proof.
  intros Htpl Hinv. unfold spill_template.
  apply (wp_for_each _ _ (kept r)); [by apply kept_refl|].
  intros [[faction rate] top] r' Hin Hr'. cbn beta iota.
  destruct (Z.eqb_spec faction 0) as [|Hne]; [by apply wp_ret|].
  apply wp_bind, wp_getS. apply wp_if; intros _; [|by apply wp_ret].
  destruct (Htpl _ _ _ Hin Hne) as [e He]. rewrite He. 
  eapply returns_bind; [eapply SetOneFactionReputation_kept; [exact He|apply Hr'|exact Hr']|].
  intros b r'' Hr''. by apply wp_ret.
Qed.

Lemma spill_list_inv l self rate incremental res r0 r :
  kept r0 r -> returns (spill_list l self rate incremental res) (fun _ r' => kept r0 r') r.
Proof.
  revert r res. induction l as [|x l IH]; intros r res Hr; cbn [spill_list]; [by apply wp_ret|].
  destruct (LookupEntry x) as [e|] eqn:He; [|by apply IH].
  apply wp_bind, wp_getS. apply wp_if; intros _; [by apply IH|].
  apply wp_if; intros _; [|by apply IH]. 
  eapply returns_bind; [eapply SetOneFactionReputation_kept; [exact He|apply Hr|exact Hr]|].
  intros b r' Hr'. by apply IH.
Qed.

Lemma spill_dbc_inv e standing incremental r :
  rep_inv r -> returns (spill_dbc e standing incremental) (fun _ r' => kept r r') r.
Proof.
  intros Hinv. unfold spill_dbc.
  destruct (GetFactionTeamList (fe_ID e)) as [l|]; [by apply spill_list_inv|].
  apply wp_if; intros _; [|by apply wp_ret].
  destruct (LookupEntry (fe_team e)) as [parent|] eqn:Hp; [|by apply wp_ret].
  apply wp_bind, wp_getS. apply wp_if; intros _.
  -  eapply returns_bind; [eapply SetOneFactionReputation_kept; [exact Hp|done|done]|].
    intros b r' Hr'. by apply wp_ret.
  - destruct (GetFactionTeamList (fe_team e)); [by apply spill_list_inv|by apply wp_ret].
Qed.

Lemma SetReputation_inv i e standing incremental r :
  templates_ok -> LookupEntry i = Some e -> rep_inv r ->
  returns (SetReputation e standing incremental) (fun _ r' => kept r r') r.
Proof.
  intros Htpl He Hinv. unfold SetReputation.
  apply (returns_bind _ _ (fun _ r' => kept r r')).
  - destruct (GetRepSpilloverTemplate (fe_ID e)) as [tpl|] eqn:Ht; [|by apply spill_dbc_inv].
    eapply returns_bind; [apply spill_template_inv|].
    + intros faction rate top. by apply (Htpl _ _ _ _ _ Ht).
    + done.
    + intros [] r' Hr'. by apply wp_ret.
  - intros res r1 Hr1. apply wp_bind, wp_getS.
    destruct (_factions r1 !! list_key e) as [f|] eqn:Hf; [|by apply wp_ret].
    eapply returns_bind;
      [eapply SetOneFactionReputation_kept; [exact He|apply Hr1|by apply kept_refl, Hr1]|].
    intros b r2 Hr2.
    eapply returns_bind; [apply (SendState_kept (list_key e));
      [apply Hr2|apply (kept_Some r1); [exact Hr2|eauto]]|].
    intros [] r3 Hr3. apply wp_ret.
    exact (kept_trans _ _ _ Hr1 (kept_trans _ _ _ Hr2 Hr3)).
Qed.

(** *** The operations on flags *)

Lemma SetVisible_inv e r :
  rep_inv r -> returns (SetVisible e) (fun _ r' => same_standings r r') r.
Proof.
  intros Hinv. unfold SetVisible. apply wp_if; intros _; [by apply wp_ret|].
  apply wp_bind, wp_getS. destruct (_factions r !! reputationListID e) as [f|] eqn:Hf.
  - by eapply SetVisible_state_inv.
  - by apply wp_ret.
Qed.

Lemma SetVisible_template_inv faction r :
  rep_inv r -> returns (SetVisible_template faction) (fun _ r' => same_standings r r') r.
Proof.
  intros Hinv. unfold SetVisible_template. apply wp_if; intros _; [by apply wp_ret|].
  destruct (LookupEntry faction); [|by apply wp_ret].
  apply wp_when; intros _; [by apply SetVisible_inv|done].
Qed.

Lemma SetAtWar_inv id on r :
  rep_inv r -> returns (SetAtWar id on) (fun _ r' => same_standings r r') r.
Proof.
  intros Hinv. unfold SetAtWar. apply wp_bind, wp_getS.
  destruct (_factions r !! id) as [f|] eqn:Hf; [|by apply wp_ret].
  apply wp_if; intros _; [by apply wp_ret|]. apply SetAtWar_state_inv; [done|eauto].
Qed.

Lemma SetInactive_inv id on r :
  rep_inv r -> returns (SetInactive id on) (fun _ r' => same_standings r r') r.
Proof.
  intros Hinv. unfold SetInactive. apply wp_bind, wp_getS.
  destruct (_factions r !! id) as [f|] eqn:Hf; [|by apply wp_ret].
  apply SetInactive_state_inv; [done|eauto].
Qed.

(** *** Packets and saving *)

(** Changes of the two dirty flags only. *)
Lemma marks_same r r' g :
  rep_inv r -> _factions r' = g <$> _factions r ->
  (forall f, Standing (g f) = Standing f /\ fs_ID (g f) = fs_ID f /\
             ReputationListID (g f) = ReputationListID f /\ Flags (g f) = Flags f) ->
  _visibleFactionCount r' = _visibleFactionCount r ->
  _honoredFactionCount r' = _honoredFactionCount r ->
  _reveredFactionCount r' = _reveredFactionCount r ->
  _exaltedFactionCount r' = _exaltedFactionCount r ->
  _forcedReactions r' = _forcedReactions r -> same_standings r r'.
Proof.
  intros Hinv Hm Hg Hv Hh Hr He Hfr. split; [by eapply rep_inv_same|]. split; [|done].
  unfold standings. rewrite Hm, <- map_fmap_compose. apply map_fmap_ext. intros k f _. cbn.
  by destruct (Hg f) as (-> & -> & _).
Qed.

Lemma SendInitialReputations_inv r :
  rep_inv r -> returns SendInitialReputations (fun _ r' => same_standings r r') r.
Proof.
  intros Hinv. apply returns_Ok. do 2 eexists. split; [by apply SendInitialReputations_run|].
  by apply (marks_same r _ (fun f => f <| needSend := false |>)).
Qed.

Definition forced_fmt (m : gmap Z Z) : list Z :=
  scalar_fmt TU32 (Z.of_nat (base.size m)) ++
  concat (map (fun k => pair_fmt (k, default 0 (m !! k))) (keys m)).

Lemma SendForceReactions_run r :
  (forall k, is_Some (_forcedReactions r !! k) -> 0 <= k < 65536) ->
  SendForceReactions r = Ok tt
    (r <| output := output r ++ [SendDirectMessage (packet_of SMSG_SET_FORCED_REACTIONS
            (forced_fmt (_forcedReactions r)))] |>).
Proof.
  intros Hr. unfold SendForceReactions. erewrite bind_run by done. cbv beta zeta.
  assert (Hlen : zlen (keys (_forcedReactions r)) <= 65536)
    by (apply keys_length; [intros k x Hx; apply Hr; eauto|lia]).
  apply send_packet_run.
  - apply writes_bind; [apply writes_out|]. apply writes_for_each.
    intros k [rank Hk]%elem_of_keys. rewrite Hk. apply writes_bind; apply writes_out.
  - unfold forced_fmt, scalar_fmt. rewrite zlen_app, zlen_le_bytes.
    rewrite (zlen_concat_const _ 8) by (intros; by apply zlen_pair_fmt). cbn. lia.
Qed.

Lemma SaveToDB_inv r : rep_inv r -> returns SaveToDB (fun _ r' => same_standings r r') r.
Proof.
  intros Hinv. unfold SaveToDB. apply wp_bind, wp_getS.
  apply (wp_for_each _ _ (same_standings r)); [done|].
  intros k r' Hk%elem_of_keys Hr'. pose proof Hr' as (Hinv' & Hst & Hfr).
  destruct (standings_is_Some r r' k Hst Hk) as [f Hf].
  apply wp_bind. unfold wp at 1. rewrite (get_state_run k f) by done.
  apply wp_when; intros _; [|done].
  apply wp_bind, wp_modify, wp_bind, wp_modify, wp_modify.
  split; [|split; [|done]].
  - pose proof (rep_inv_flags r' k f (Flags f) (needSend f) false Hinv' Hf
                  (proj1 (proj2 (proj2 (proj1 Hinv' _ _ Hf)))) eq_refl) as Hf'.
    destruct f. exact Hf'.
  - rewrite <- Hst. by eapply (standings_insert r' k f (f <| needSave := false |>)).
Qed.

(** *** Loading *)

(** A faction that had no state gets one. *)
Lemma rep_inv_new r k g r' :
  rep_inv r -> _factions r !! k = None -> state_ok k g ->
  _factions r' = <[k := g]> (_factions r) ->
  _visibleFactionCount r' = u8 (_visibleFactionCount r + Z.b2z (is_visible g)) ->
  _honoredFactionCount r' = u8 (_honoredFactionCount r + Z.b2z (REP_HONORED <=? rank_of g)) ->
  _reveredFactionCount r' = u8 (_reveredFactionCount r + Z.b2z (REP_REVERED <=? rank_of g)) ->
  _exaltedFactionCount r' = u8 (_exaltedFactionCount r + Z.b2z (REP_EXALTED <=? rank_of g)) ->
  rep_inv r'.
Proof.
  intros [Hs (Hv & Hh & Hr & He)] Hk Hg Hm Hv' Hh' Hr' He'. split.
  - intros j x. rewrite Hm. intros [[<- <-]|[_ Hj]]%lookup_insert_Some; [done|by apply Hs].
  - unfold counts_ok. rewrite Hm, Hv', Hh', Hr', He', Hv, Hh, Hr, He, !u8_add.
    by rewrite !(count_if_insert_new _ _ _ g Hk).
Qed.

Lemma crossed_low rank old new : old < rank -> crossed rank old new = Z.b2z (rank <=? new).
Proof. intros Hlt. unfold crossed. rewrite (proj2 (Z.leb_gt rank old)) by done. apply Z.sub_0_r. Qed.

Lemma list_key_small e i : LookupEntry i = Some e -> 0 <= reputationListID e ->
  list_key e = reputationListID e.
Proof.
  intros He Hpos. destruct (store_list _ _ He). apply wrap_small. unfold in_width. lia.
Qed.

(** The state of the store when the rows below [n] have been initialized. *)
Definition initialized (n : Z) (r : ReputationMgr) : Prop :=
  rep_inv r /\
  forall k x, standings r !! k = Some x <->
    x.2 = 0 /\ 1 <= x.1 < n /\
    exists e, LookupEntry x.1 = Some e /\ reputationListID e = k /\ 0 <= k.

Lemma standings_None r k : standings r !! k = None -> _factions r !! k = None.
Proof. unfold standings. rewrite lookup_fmap. by destruct (_factions r !! k). Qed.

Lemma Initialize_entry_inv i r :
  1 <= i -> initialized i r ->
  returns (Initialize_entry i)
    (fun _ r' => initialized (i + 1) r' /\ _forcedReactions r' = _forcedReactions r) r.
Proof.
  intros Hi [Hinv Hini]. pose proof Hinv as [Hs Hc]. unfold Initialize_entry.
  assert (Hskip : (forall e, LookupEntry i = Some e -> reputationListID e < 0) ->
                  initialized (i + 1) r).
  { intros Hno. split; [done|]. intros k [j st]. rewrite Hini. cbn.
    split; (intros (? & ? & e & He & Hl & Hk); split; [done|]; split; [|eauto]); [lia|].
    destruct (decide (j = i)) as [->|]; [|lia]. specialize (Hno e He). lia. }
  destruct (LookupEntry i) as [e|] eqn:He; [|by apply wp_ret; split; [apply Hskip|]].
  destruct (Z.leb_spec 0 (reputationListID e)) as [Hpos|Hneg];
    [|by apply wp_ret; split; [apply Hskip; intros ? [= <-]|]].
  clear Hskip. pose proof (list_key_small e i He Hpos) as Hkey. rewrite Hkey.
  assert (Hnew : standings r !! reputationListID e = None).
  { destruct (standings r !! reputationListID e) as [[j st]|] eqn:Hst; [|done].
    apply Hini in Hst as (_ & Hj & e' & He' & Hl & _). cbn in *.
    assert (j = i) by (apply (store_unique j i e' e He' He); lia). lia. }
  set (flags := u8 (GetDefaultStateFlags (Some e))).
  set (g := mkFactionState (fe_ID e) (reputationListID e) 0 flags true true).
  pose proof (store_id _ _ He) as Hid.
  assert (Hbase : base_of g = GetBaseReputation (Some e)) by (unfold base_of; cbn; by rewrite Hid, He).
  assert (Hrk : rank_of g = GetBaseRank (Some e))
    by (unfold rank_of, GetBaseRank; rewrite Hbase; f_equal; cbn; lia).
  set (r1 := if has_flag flags FACTION_FLAG_VISIBLE
             then r <| _visibleFactionCount ::= fun n => u8 (n + 1) |> else r).
  assert (Hc1 : counters_wide r1).
  { pose proof (counters_wide_ok r Hc). unfold r1. by destruct (has_flag _ _). }
  apply returns_Ok. do 2 eexists.
  split.
  { erewrite (bind_run _ _ _ tt r1) by (unfold when, r1; by destruct (has_flag _ _)).
    erewrite bind_run by (apply UpdateRankCounters_run; apply Hc1). reflexivity. }
  split; [|unfold r1; by destruct (has_flag _ _)]. split.
  - eapply (rep_inv_new r (reputationListID e) g); [done|by apply standings_None| |
      unfold r1; by destruct (has_flag _ _)|..].
    + pose proof (store_base _ _ He). split; [done|]. split; [done|].
      split; [apply wrap_range; lia|]. split; [rewrite Hbase; cbn; lia|].
      exists e. split; [cbn; by rewrite Hid|done].
    + destruct Hc as [Hv _]. unfold r1, is_visible. cbn. fold flags.
      destruct (has_flag flags FACTION_FLAG_VISIBLE); cbn; [done|].
      by rewrite Hv, Z.add_0_r, wrap_wrap by lia.
    + cbn. rewrite Hrk, crossed_low by done. unfold r1. by destruct (has_flag _ _).
    + cbn. rewrite Hrk, crossed_low by done. unfold r1. by destruct (has_flag _ _).
    + cbn. rewrite Hrk, crossed_low by done. unfold r1. by destruct (has_flag _ _).
  - intros k [j st]. unfold standings. cbn. replace (_factions r1) with (_factions r)
      by (unfold r1; by destruct (has_flag _ _)).
    rewrite fmap_insert. fold (standings r). rewrite lookup_insert_Some, Hini. cbn. rewrite Hid. split.
    + intros [[<- [= <- <-]]|(Hne & Hst & Hj & e' & He' & Hl & Hk)].
      * split; [done|]. split; [lia|]. eauto.
      * split; [done|]. split; [lia|]. eauto.
    + intros (-> & Hj & e' & He' & Hl & Hk). destruct (decide (j = i)) as [->|].
      * left. rewrite He in He'. injection He' as <-. done.
      * right. split; [|split; [done|split; [lia|eauto]]].
        intros Heq. assert (i = j) by (eapply (store_unique i j); eauto; lia). lia.
Qed.

Lemma Initialize_inv r :
  returns Initialize
    (fun _ r' => initialized GetNumRows r' /\ _forcedReactions r' = _forcedReactions r) r.
Proof.
  unfold Initialize. apply wp_bind, wp_modify.
  pose proof store_rows. assert (Hn : 1 + (GetNumRows - 1) = GetNumRows) by lia.
  eapply returns_mono;
    [apply (wp_for_each_seqZ 1 (GetNumRows - 1) _
              (fun n r' => initialized n r' /\ _forcedReactions r' = _forcedReactions r));
       [lia| |]|cbn; by rewrite Hn].
  - split; [|done]. split.
    + split; [intros k f; cbn; by rewrite lookup_empty|].
      unfold counts_ok. cbn. by rewrite !count_if_empty.
    + intros k x. unfold standings. cbn. rewrite fmap_empty, lookup_empty.
      split; [done|]. intros (_ & ? & _). lia.
  - intros i r1 Hi [Hr1 Hfr].
    eapply returns_mono; [apply (Initialize_entry_inv i r1); [lia|done]|].
    cbn. intros _ r2 [? ->]. done.
Qed.

Lemma same_standings_trans r1 r2 r3 :
  same_standings r1 r2 -> same_standings r2 r3 -> same_standings r1 r3.
Proof. intros (_ & Hs & Hf) (? & Hs' & Hf'). split; [done|split; congruence]. Qed.

Lemma same_standings_is_Some r1 r2 k :
  same_standings r1 r2 -> is_Some (_factions r1 !! k) -> is_Some (_factions r2 !! k).
Proof. intros (_ & Hst & _). by apply standings_is_Some. Qed.

(** The part of a loaded row that works on flags. *)
Lemma loaded_flags_inv e id dbFactionFlags r :
  rep_inv r -> is_Some (_factions r !! id) ->
  returns
    (when (has_flag dbFactionFlags FACTION_FLAG_VISIBLE) (SetVisible_state id);;
     when (has_flag dbFactionFlags FACTION_FLAG_INACTIVE) (SetInactive_state id true);;
     (if has_flag dbFactionFlags FACTION_FLAG_AT_WAR then SetAtWar_state id true
      else f ← get_state id;
           when (has_flag (Flags f) FACTION_FLAG_VISIBLE) (SetAtWar_state id false));;
     r ← getS;
     when (GetRank (Some e) r <=? REP_HOSTILE) (SetAtWar_state id true);;
     f ← get_state id;
     when (Flags f =? dbFactionFlags)
       (put_state id (f <| needSend := false |> <| needSave := false |>)))
    (fun _ r' => same_standings r r') r.
Proof.
  intros Hinv Hid.
  assert (Hnext : forall (m : RM unit) r1, same_standings r r1 ->
    (forall r2, rep_inv r2 -> is_Some (_factions r2 !! id) ->
                returns m (fun _ r' => same_standings r2 r') r2) ->
    returns m (fun _ r' => same_standings r r') r1).
  { intros m r1 Hr1 Hm. eapply returns_mono; [apply Hm|].
    - apply Hr1.
    - by eapply same_standings_is_Some.
    - intros [] r2 Hr2. by eapply same_standings_trans. }
  assert (Hr0 : same_standings r r) by done.
  eapply returns_bind; [eapply Hnext; [exact Hr0|]|intros [] r1 Hr1].
  { intros r1 Hr1 [f Hf]. apply wp_when; intros _; [by eapply SetVisible_state_inv|done]. }
  eapply returns_bind; [eapply Hnext; [exact Hr1|]|intros [] r2 Hr2].
  { intros r2 Hr2 Hf. apply wp_when; intros _; [by apply SetInactive_state_inv|done]. }
  eapply returns_bind; [eapply Hnext; [exact Hr2|]|intros [] r3 Hr3].
  { intros r3 Hr3 Hf. apply wp_if; intros _; [by apply SetAtWar_state_inv|].
    destruct Hf as [f Hf]. apply wp_bind. unfold wp at 1. rewrite (get_state_run id f) by done.
    apply wp_when; intros _; [apply SetAtWar_state_inv; eauto|done]. }
  apply wp_bind, wp_getS.
  eapply returns_bind; [eapply Hnext; [exact Hr3|]|intros [] r4 Hr4].
  { intros r4 Hr4 Hf. apply wp_when; intros _; [by apply SetAtWar_state_inv|done]. }
  eapply Hnext; [exact Hr4|]. intros r5 Hr5 [f Hf].
  apply wp_bind. unfold wp at 1. rewrite (get_state_run id f) by done.
  apply wp_when; intros _; [|done]. apply wp_modify.
  split; [|split; [by eapply (standings_insert r5 id f _); [done|reflexivity|..]|done]].
  pose proof (rep_inv_flags r5 id f (Flags f) false false Hr5 Hf
                (proj1 (proj2 (proj2 (proj1 Hr5 _ _ Hf)))) eq_refl) as Hf'.
  destruct f. exact Hf'.
Qed.

Definition row_faction (row : Z * Z * Z) : Z := row.1.1.

(** What loading needs of a row: the standing it gives is one. *)
Definition row_ok (row : Z * Z * Z) : Prop :=
  forall e, LookupEntry (row_faction row) = Some e -> 0 <= reputationListID e ->
    Reputation_Bottom <= GetBaseReputation (Some e) + row.1.2 <= Reputation_Cap.

Definition row_applied (row : Z * Z * Z) (m : gmap Z (Z * Z)) : gmap Z (Z * Z) :=
  match LookupEntry (row_faction row) with
  | Some e => if 0 <=? reputationListID e
              then <[reputationListID e := (row_faction row, row.1.2)]> m else m
  | None => m
  end.

(** Before a row is loaded its faction has its base standing. *)
Definition row_fresh (row : Z * Z * Z) (r : ReputationMgr) : Prop :=
  forall e, LookupEntry (row_faction row) = Some e -> 0 <= reputationListID e ->
    standings r !! reputationListID e = Some (row_faction row, 0).

Lemma LoadFromDB_row_inv row r :
  rep_inv r -> row_ok row -> row_fresh row r ->
  returns (LoadFromDB_row row)
    (fun _ r' => rep_inv r' /\ standings r' = row_applied row (standings r) /\
                 _forcedReactions r' = _forcedReactions r) r.
Proof.
  intros Hinv Hok Hfresh. destruct row as [[faction standing] flags].
  unfold LoadFromDB_row, row_applied, row_ok, row_fresh, row_faction in *. cbn [fst snd] in *.
  destruct (LookupEntry faction) as [e|] eqn:He; [|by apply wp_ret].
  destruct (Z.leb_spec 0 (reputationListID e)) as [Hpos|]; [|by apply wp_ret].
  specialize (Hok e eq_refl Hpos). specialize (Hfresh e eq_refl Hpos).
  pose proof (list_key_small e _ He Hpos) as Hkey. rewrite Hkey.
  unfold standings in Hfresh. rewrite lookup_fmap in Hfresh.
  destruct (_factions r !! reputationListID e) as [f|] eqn:Hf; [|done].
  injection Hfresh as Hid Hst.
  pose proof (proj1 Hinv _ _ Hf) as (P1 & P2 & P3 & P4 & P5).
  assert (Hbase : base_of f = GetBaseReputation (Some e)) by (unfold base_of; by rewrite Hid, He).
  assert (Hrk0 : rank_of f = ReputationToRank (GetBaseReputation (Some e)))
    by (unfold rank_of; rewrite Hst, Hbase; f_equal; lia).
  set (g := f <| Standing := standing |>).
  set (new := ReputationToRank (s32 (GetBaseReputation (Some e) + standing))).
  assert (Hrk : rank_of g = new).
  { unfold rank_of, new. change (base_of g) with (base_of f). rewrite Hbase. cbn.
    unfold Reputation_Bottom, Reputation_Cap in *. by no_swrap. }
  apply wp_bind, wp_getS. rewrite Hf. cbn [default]. apply wp_bind, wp_modify. fold g new.
  set (r1 := r <| _factions ::= <[reputationListID e := g]> |>).
  apply wp_bind. unfold wp at 1.
  rewrite UpdateRankCounters_run by apply (counters_wide_ok r), Hinv.
  fold (rank_counts_moved (ReputationToRank (GetBaseReputation (Some e))) new r1).
  eapply returns_mono; [apply loaded_flags_inv|].
  - destruct Hinv as [Hs Hc]. pose proof Hc as (Hv & Hh & Hr & Hx).
    eapply (rep_inv_upd r (reputationListID e) f g); [done|done| |reflexivity|..]; cbn.
    + split; [done|]. split; [done|]. split; [done|]. split; [|done].
      change (base_of g) with (base_of f). rewrite Hbase. cbn. lia.
    + unfold is_visible. cbn. by rewrite Z.sub_diag, Z.add_0_r, Hv, wrap_wrap by lia.
    + by rewrite Hrk, Hrk0.
    + by rewrite Hrk, Hrk0.
    + by rewrite Hrk, Hrk0.
  - cbn. rewrite lookup_insert_eq. eauto.
  - intros [] r' (Hinv' & Hst' & Hfr). split; [done|]. split; [|done]. rewrite Hst'.
    unfold standings. cbn. rewrite fmap_insert. cbn. by rewrite Hid.
Qed.

(** The rows one after the other. *)
Definition rows_applied (rows : list (Z * Z * Z)) (m : gmap Z (Z * Z)) : gmap Z (Z * Z) :=
  fold_left (fun m row => row_applied row m) rows m.

Lemma rows_inv rows r :
  rep_inv r -> Forall row_ok rows -> NoDup (map row_faction rows) ->
  (forall row, row ∈ rows -> row_fresh row r) ->
  returns (for_each rows LoadFromDB_row)
    (fun _ r' => rep_inv r' /\ standings r' = rows_applied rows (standings r) /\
                 _forcedReactions r' = _forcedReactions r) r.
Proof.
  revert r. induction rows as [|row rows IH]; intros r Hinv Hok Hnd Hfresh; [done|].
  cbn [for_each map] in *. apply Forall_cons in Hok as [Hrow Hok].
  apply NoDup_cons in Hnd as [Hnin Hnd].
  eapply returns_bind; [apply LoadFromDB_row_inv; [done|done|apply Hfresh; set_solver]|].
  intros [] r1 (Hinv1 & Hst1 & Hfr1). eapply returns_mono; [apply IH; [done..|]|].
  - intros row' Hin e He Hpos. rewrite Hst1. unfold row_applied.
    destruct (LookupEntry (row_faction row)) as [e0|] eqn:He0; [|apply Hfresh; set_solver].
    destruct (Z.leb_spec 0 (reputationListID e0)); [|apply Hfresh; set_solver].
    rewrite lookup_insert_ne; [apply Hfresh; set_solver|].
    intros Heq. assert (Hsame : row_faction row' = row_faction row)
      by (eapply (store_unique _ _ e e0); eauto).
    apply Hnin. rewrite <- Hsame. by apply list_elem_of_fmap_2.
  - cbn. intros _ r2 (Hinv2 & Hst2 & Hfr2). split; [done|].
    split; [by rewrite Hst2, Hst1|congruence].
Qed.

Definition rows_ok (rows : list (Z * Z * Z)) : Prop :=
  Forall row_ok rows /\ NoDup (map row_faction rows).

Lemma LoadFromDB_inv result r :
  (forall rows, result = Some rows -> rows_ok rows) ->
  returns (LoadFromDB result)
    (fun _ r' => rep_inv r' /\ _forcedReactions r' = _forcedReactions r /\
       exists r0, initialized GetNumRows r0 /\
         standings r' = rows_applied (default [] result) (standings r0)) r.
Proof.
  intros Hrows. unfold LoadFromDB. eapply returns_bind; [apply Initialize_inv|].
  intros [] r0 [Hini Hfr]. destruct result as [rows|].
  - destruct (Hrows rows eq_refl) as [Hok Hnd]. pose proof Hini as [Hinv Hst].
    eapply returns_mono; [apply rows_inv; [done..|]|].
    + intros row _ e He Hpos. apply Hst. cbn. split; [done|].
      destruct (store_list _ _ He) as [? Hr]. split; [by apply Hr|eauto].
    + intros [] r' (Hinv' & Hst' & Hfr'). split; [done|]. split; [congruence|eauto].
  - apply wp_ret. split; [apply Hini|]. split; [done|]. by exists r0.
Qed.

(** The standing saved for a faction, if there is one. *)
Fixpoint saved (rows : list (Z * Z * Z)) (faction : Z) : option Z :=
  match rows with
  | [] => None
  | row :: rows' => if row_faction row =? faction then Some row.1.2 else saved rows' faction
  end.

Lemma saved_None rows faction : faction ∉ map row_faction rows -> saved rows faction = None.
Proof.
  induction rows as [|row rows IH]; [done|]. cbn. intros Hn.
  destruct (Z.eqb_spec (row_faction row) faction) as [Heq|]; [set_solver|].
  apply IH. set_solver.
Qed.

Lemma rows_applied_lookup rows i e st (m : gmap Z (Z * Z)) :
  NoDup (map row_faction rows) -> LookupEntry i = Some e -> 0 <= reputationListID e ->
  m !! reputationListID e = Some (i, st) ->
  rows_applied rows m !! reputationListID e = Some (i, default st (saved rows i)).
Proof.
  revert m st. induction rows as [|row rows IH]; intros m st Hnd He Hpos Hm; [done|].
  cbn [map] in Hnd. apply NoDup_cons in Hnd as [Hnin Hnd]. cbn [rows_applied fold_left saved].
  destruct (Z.eqb_spec (row_faction row) i) as [Heq|Hne].
  - fold (rows_applied rows (row_applied row m)).
    rewrite (IH _ row.1.2); [|done..|].
    + rewrite saved_None by congruence. done.
    + unfold row_applied. rewrite Heq, He, (proj2 (Z.leb_le 0 _)) by done. apply lookup_insert_eq.
  - apply IH; [done..|]. unfold row_applied.
    destruct (LookupEntry (row_faction row)) as [e0|] eqn:He0; [|done].
    destruct (Z.leb_spec 0 (reputationListID e0)); [|done].
    rewrite lookup_insert_ne; [done|]. intros Heq. apply Hne.
    by eapply (store_unique _ _ e0 e).
Qed.

(** *** The table [character_reputation] of one player *)

Definition apply_stmt (t : gmap Z (Z * Z)) (o : rep_output) : gmap Z (Z * Z) :=
  match o with
  | DeleteReputation _ faction => delete faction t
  | InsertReputation _ faction standing flags => <[faction := (standing, flags)]> t
  | _ => t
  end.

Definition table (t0 : gmap Z (Z * Z)) (r : ReputationMgr) : gmap Z (Z * Z) :=
  fold_left apply_stmt (output r) t0.

(** The result of the query: the rows of the table. *)
Definition table_rows (t : gmap Z (Z * Z)) : list (Z * Z * Z) :=
  map (fun x => (x.1, x.2.1, x.2.2)) (map_to_list t).

(** The states that are not to be saved, and those of no key of [l], are as
    the table has them. *)
Definition stored (t0 : gmap Z (Z * Z)) (l : list Z) (r : ReputationMgr) : Prop :=
  forall k f, _factions r !! k = Some f -> needSave f = false \/ k ∉ l ->
    table t0 r !! fs_ID f = Some (Standing f, Flags f).

Lemma SaveToDB_stores t0 r :
  GetNumRows <= 65536 -> rep_inv r -> stored t0 (keys (_factions r)) r ->
  returns SaveToDB (fun _ r' => same_standings r r' /\ stored t0 [] r') r.
Proof.
  intros Hn Hinv Hst. unfold SaveToDB. apply wp_bind, wp_getS. revert Hst.
  assert (Hin : forall k, k ∈ keys (_factions r) -> is_Some (_factions r !! k))
    by (intros k; apply elem_of_keys).
  revert Hin Hinv. generalize (keys (_factions r)) as l. intros l. revert r.
  induction l as [|k l IH]; intros r Hin Hinv Hst; [done|]. cbn [for_each].
  destruct (Hin k) as [f Hf]; [set_solver|].
  apply wp_bind, wp_bind. unfold wp at 1. rewrite (get_state_run k f) by done.
  destruct (needSave f) eqn:Hneed; cbn [when].
  2: { apply wp_ret. apply IH; [set_solver|done|]. intros j g Hg Hj.
       apply (Hst j g Hg). destruct (decide (j = k)) as [->|]; [left; congruence|set_solver]. }
  apply wp_bind, wp_modify, wp_bind, wp_modify, wp_modify.
  pose proof (proj1 Hinv _ _ Hf) as (_ & _ & Hw & _ & e & He & Hl).
  assert (Hk0 : 0 <= k) by apply (proj1 Hinv _ _ Hf).
  destruct (store_list _ _ He) as [_ Hrow]. rewrite Hl in Hrow. specialize (Hrow Hk0).
  rewrite !(wrap_small 16) by (unfold in_width in *; cbn in *; lia).
  set (r1 := (r <| output ::= _ |> <| output ::= _ |>) <| _factions ::= _ |>).
  assert (Hsame : same_standings r r1).
  { split; [|split; [by eapply (standings_insert r k f _); [done|reflexivity|..]|done]].
    pose proof (rep_inv_flags r k f (Flags f) (needSend f) false Hinv Hf Hw eq_refl) as Hf'.
    unfold r1. destruct f. exact Hf'. }
  eapply (returns_mono _ (fun _ r' => same_standings r1 r' /\ stored t0 [] r')); [apply (IH r1)|].
  - intros j Hj. eapply same_standings_is_Some; [exact Hsame|]. apply Hin. set_solver.
  - apply Hsame.
  - intros j g. unfold r1. cbn. intros Hg Hj.
    unfold table. cbn. rewrite !fold_left_app. cbn. fold (table t0 r).
    rewrite insert_delete_eq. apply lookup_insert_Some in Hg as [[<- <-]|[Hne Hg]].
    + apply lookup_insert_eq.
    + destruct (proj1 Hinv _ _ Hg) as (_ & _ & _ & _ & e' & He' & Hl').
      rewrite lookup_insert_ne by congruence. apply (Hst j g Hg). set_solver.
  - intros [] r2 [Hr2 Hst2]. split; [by eapply same_standings_trans|done].
Qed.

Lemma saved_Some rows row :
  NoDup (map row_faction rows) -> row ∈ rows -> saved rows (row_faction row) = Some row.1.2.
Proof.
  induction rows as [|row' rows IH]; [set_solver|]. cbn [map saved]. intros Hnd Hin.
  apply NoDup_cons in Hnd as [Hnin Hnd].
  destruct (Z.eqb_spec (row_faction row') (row_faction row)) as [Heq|Hne].
  - apply elem_of_cons in Hin as [->|Hin]; [done|].
    exfalso. apply Hnin. rewrite Heq. by apply list_elem_of_fmap_2.
  - apply IH; [done|]. set_solver.
Qed.

Lemma table_rows_NoDup t : NoDup (map row_faction (table_rows t)).
Proof.
  unfold table_rows. rewrite map_map. unfold row_faction. cbn [fst]. apply NoDup_fst_map_to_list.
Qed.

Lemma elem_of_table_rows t i st fl : (i, st, fl) ∈ table_rows t <-> t !! i = Some (st, fl).
Proof.
  unfold table_rows. rewrite <- elem_of_map_to_list, list_elem_of_fmap. split.
  - by intros ([j [st' fl']] & [= -> -> ->] & Hin).
  - intros Hin. by exists (i, (st, fl)).
Qed.

Lemma rows_applied_ne rows k (m : gmap Z (Z * Z)) :
  (forall i e, LookupEntry i = Some e -> reputationListID e = k -> reputationListID e < 0) ->
  rows_applied rows m !! k = m !! k.
Proof.
  intros Hno. revert m. induction rows as [|row rows IH]; intros m; [done|].
  cbn [rows_applied fold_left]. fold (rows_applied rows (row_applied row m)). rewrite IH.
  unfold row_applied. destruct (LookupEntry (row_faction row)) as [e|] eqn:He; [|done].
  destruct (Z.leb_spec 0 (reputationListID e)); [|done].
  rewrite lookup_insert_ne; [done|]. intros Heq. specialize (Hno _ _ He Heq). lia.
Qed.

(** Every faction of the store that has a list id has a state. *)
Definition complete (r : ReputationMgr) : Prop :=
  forall i e, LookupEntry i = Some e -> 0 <= reputationListID e ->
    is_Some (_factions r !! reputationListID e).

(** The table holds what [r] has: loading it gives the standings of [r]. *)
Lemma reload t r :
  rep_inv r -> complete r ->
  (forall k f, _factions r !! k = Some f -> t !! fs_ID f = Some (Standing f, Flags f)) ->
  rows_ok (table_rows t) /\
  forall r0, initialized GetNumRows r0 ->
    rows_applied (table_rows t) (standings r0) = standings r.
Proof.
  intros [Hs Hc] Hcomp Ht.
  assert (Hstate : forall i e, LookupEntry i = Some e -> 0 <= reputationListID e ->
            exists f, _factions r !! reputationListID e = Some f /\ fs_ID f = i).
  { intros i e He Hpos. destruct (Hcomp i e He Hpos) as [f Hf]. exists f. split; [done|].
    eapply state_entry; [exact Hs|exact He|]. by rewrite (list_key_small e i). }
  split; [split; [|apply table_rows_NoDup]|].
  - apply Forall_forall. intros [[i st] fl] Hin e He Hpos. unfold row_faction in He. cbn in *.
    apply elem_of_table_rows in Hin. destruct (Hstate i e He Hpos) as (f & Hf & Hid).
    specialize (Ht _ _ Hf). rewrite Hid, Hin in Ht. injection Ht as -> ->.
    destruct (Hs _ _ Hf) as (_ & _ & _ & Hr & _). unfold base_of in Hr. by rewrite Hid, He in Hr.
  - intros r0 [_ Hini]. apply map_eq. intros k. unfold standings at 2. rewrite lookup_fmap.
    destruct (_factions r !! k) as [f|] eqn:Hf; cbn.
    + destruct (Hs _ _ Hf) as (Hk & _ & _ & _ & e & He & Hl). subst k.
      rewrite (rows_applied_lookup _ (fs_ID f) e 0); [|apply table_rows_NoDup|done|done|].
      * assert (Hin : (fs_ID f, Standing f, Flags f) ∈ table_rows t)
          by (apply elem_of_table_rows; by apply (Ht _ _ Hf)).
        pose proof (saved_Some _ _ (table_rows_NoDup t) Hin) as Hsv.
        unfold row_faction in Hsv. cbn in Hsv. by rewrite Hsv.
      * apply Hini. cbn. split; [done|]. destruct (store_list _ _ He) as [_ Hr].
        split; [by apply Hr|eauto].
    + rewrite rows_applied_ne.
      * destruct (standings r0 !! k) as [[i st]|] eqn:H0k; [|done].
        apply Hini in H0k as (_ & _ & e & He & <- & Hpos).
        destruct (Hcomp i e He Hpos) as [f Hf']. congruence.
      * intros i e He <-. destruct (decide (0 <= reputationListID e)); [|lia].
        destruct (Hcomp i e He) as [f Hf']; [done|congruence].
Qed.
End Operations.
