(* ===== verification/ReputationLife.v ===== *)
(** * Guarantees of the reputation manager

    The properties a client of [ReputationMgr] relies on, with a small faction
    store on which they are exercised. *)

From S2P Require Import Prelude Float32 ByteBuffer Wire Packet Maps Reputation ReputationProps ReputationInv.

(** ** Calls of the manager *)

Inductive rep_call :=
| CSetReputation (faction standing : Z) (incremental : bool)
| CSetOneFactionReputation (faction standing : Z) (incremental : bool)
| CSetVisible (faction : Z)
| CSetVisible_template (faction : Z)
| CSetAtWar (repListID : Z) (on : bool)
| CSetInactive (repListID : Z) (on : bool)
| CApplyForceReaction (faction rank : Z) (apply : bool)
| CSendForceReactions
| CSendInitialReputations
| CSendState (repListID : Z)
| CSendStates
| CSaveToDB.

Section Calls.
Context `{Host, World, !StoreOk}.
#[local] Set Default Proof Using "All".

(** A call of each of the public modifiers and senders and of [SaveToDB]; [SetReputation]
    and [ModifyReputation] are [CSetReputation].  The ones that
    take a row of the store are made with one, and [SendState], which takes a
    state, with one of the manager's. *)
Definition run_call (c : rep_call) : RM unit :=
  match c with
  | CSetReputation faction standing incremental =>
      match LookupEntry faction with
      | Some e => SetReputation e standing incremental;; mret tt
      | None => mret tt
      end
  | CSetOneFactionReputation faction standing incremental =>
      match LookupEntry faction with
      | Some e => SetOneFactionReputation e standing incremental;; mret tt
      | None => mret tt
      end
  | CSetVisible faction =>
      match LookupEntry faction with Some e => SetVisible e | None => mret tt end
  | CSetVisible_template faction => SetVisible_template faction
  | CSetAtWar id on => SetAtWar id on
  | CSetInactive id on => SetInactive id on
  | CApplyForceReaction faction rank apply => ApplyForceReaction faction rank apply
  | CSendForceReactions => SendForceReactions
  | CSendInitialReputations => SendInitialReputations
  | CSendState id =>
      r ← getS; match _factions r !! id with Some _ => SendState id | None => mret tt end
  | CSendStates => SendStates
  | CSaveToDB => SaveToDB
  end.

Definition call_ok (c : rep_call) : Prop :=
  match c with CApplyForceReaction faction _ _ => 0 <= faction < 65536 | _ => True end.

Definition life_inv (r : ReputationMgr) : Prop :=
  rep_inv r /\ forall k, is_Some (_forcedReactions r !! k) -> 0 <= k < 65536.

Lemma kept_life r r' : life_inv r -> kept r r' -> life_inv r'.
Proof. intros [_ Hf] (Hr & _ & Heq). split; [done|]. by rewrite Heq. Qed.

Lemma same_life r r' : life_inv r -> same_standings r r' -> life_inv r'.
Proof. intros [_ Hf] (Hr & _ & Heq). split; [done|]. by rewrite Heq. Qed.

Lemma run_call_inv c r :
  templates_ok -> call_ok c -> life_inv r -> returns (run_call c) (fun _ r' => life_inv r') r.
Proof.
  intros Htpl Hc Hl. pose proof Hl as [Hinv Hforced].
  assert (Hsame : forall m : RM unit, returns m (fun (_ : unit) r' => same_standings r r') r ->
                            returns m (fun _ r' => life_inv r') r).
  { intros m Hm. eapply returns_mono; [exact Hm|]. intros [] r'. by apply same_life. }
  destruct c; cbn [run_call call_ok] in *.
  - destruct (LookupEntry faction) as [e|] eqn:He; [|by apply wp_ret].
    eapply returns_bind; [by eapply SetReputation_inv|].
    intros b r' Hr'. apply wp_ret. by eapply kept_life.
  - destruct (LookupEntry faction) as [e|] eqn:He; [|by apply wp_ret].
    eapply returns_bind; [by eapply (SetOneFactionReputation_kept _ _ _ _ r), kept_refl|].
    intros b r' Hr'. apply wp_ret. by eapply kept_life.
  - destruct (LookupEntry faction); [by apply Hsame, SetVisible_inv|by apply wp_ret].
  - by apply Hsame, SetVisible_template_inv.
  - by apply Hsame, SetAtWar_inv.
  - by apply Hsame, SetInactive_inv.
  - apply wp_modify. split; [done|]. cbn. intros k. destruct apply.
    + rewrite lookup_insert_is_Some. intros [<-|[_ Hk]]; [done|auto].
    + rewrite lookup_delete_is_Some. intros [_ Hk]. auto.
  - apply returns_Ok. do 2 eexists. split; [by apply SendForceReactions_run|done].
  - by apply Hsame, SendInitialReputations_inv.
  - apply wp_bind, wp_getS. destruct (_factions r !! repListID) eqn:Hf; [|by apply wp_ret].
    eapply returns_mono; [by apply (SendState_kept repListID r); [|eexists]|]. intros [] r'. by apply kept_life.
  - eapply returns_mono; [by apply SendStates_inv|]. intros [] r'. by apply kept_life.
  - by apply Hsame, SaveToDB_inv.
Qed.

(** C13.  A player's reputation over a session.  Loaded from rows with at most
    one for each faction and legal standings, and whatever calls of the public
    modifiers, senders and [SaveToDB] follow, the manager
    never reaches an undefined access and never throws; afterwards every
    faction's base plus standing is between -42000 and 42999, each state
    belongs to the faction of its list id, and the four counters are the
    numbers (as [uint8]) of the visible factions and of those at least
    honored, revered and exalted.  The calls name factions of the store and
    states of the manager, and forced reactions are of ids below 65536 (the
    packet that lists them stays within its bounds).  Of the data: factions have
    their ids and distinct list ids below 256, base reputations are legal
    ([StoreOk]), and spillover templates name factions of the store
    ([templates_ok]). *)
Theorem reputation_session (result : option (list (Z * Z * Z))) (calls : list rep_call) :
  templates_ok -> (forall rows, result = Some rows -> rows_ok rows) -> Forall call_ok calls ->
  returns (LoadFromDB result;; for_each calls run_call)
    (fun _ r => states_ok r /\ counts_ok r) ReputationMgr_new.
Proof.
  intros Htpl Hrows Hcalls. eapply returns_bind; [by apply LoadFromDB_inv|].
  intros [] r1 (Hinv & Hfr & _).
  eapply returns_mono; [apply (wp_for_each _ _ life_inv)|].
  - split; [done|]. rewrite Hfr. cbn. intros k [? Hk]. by rewrite lookup_empty in Hk.
  - intros c r2 Hin Hr2. apply run_call_inv; [done| |done].
    rewrite Forall_forall in Hcalls. by apply Hcalls.
  - intros [] r' [[Hs Hc] _]. done.
Qed.

(** Setting one faction's reputation: the standing asked for (after the
    gain rate when it is an increment), cut to the legal range, is the
    faction's reputation afterwards; a faction that becomes hostile or hated
    is at war unless peace is forced; no other faction changes; and an
    untracked faction changes nothing. *)
Theorem SetOneFactionReputation_effect (i : Z) (e : FactionEntry) (standing : Z)
    (incremental : bool) (r : ReputationMgr) :
  LookupEntry i = Some e -> rep_inv r ->
  returns (SetOneFactionReputation e standing incremental)
    (fun tracked r' =>
       match _factions r !! list_key e with
       | None => tracked = false /\ r' = r
       | Some f =>
           let s := clamp (target f (GetBaseReputation (Some e)) standing incremental) in
           tracked = true /\ GetReputation (Some e) r' = s /\
           GetRank (Some e) r' = ReputationToRank s /\
           (ReputationToRank s <= REP_HOSTILE -> has_flag (Flags f) FACTION_FLAG_PEACE_FORCED = false ->
            IsAtWar (Some e) r' = true) /\
           forall k, k <> list_key e -> _factions r' !! k = _factions r !! k
       end) r.
Proof.
  intros He Hinv. pose proof Hinv as [Hs Hc].
  destruct (_factions r !! list_key e) as [f|] eqn:Hf.
  - destruct (state_entry r i e f Hs He Hf) as (Hid & Hkey & Hbase).
    destruct (SetOneFactionReputation_run e standing incremental r f (counters_wide_ok r Hc) Hf)
      as (l & inc & Hrun).
    apply returns_Ok. do 2 eexists. split; [exact Hrun|]. cbv zeta.
    pose proof (base_range _ _ (Hs _ _ Hf)) as Hbr. rewrite Hbase in Hbr.
    pose proof (clamp_range (target f (GetBaseReputation (Some e)) standing incremental)) as Hcl.
    set (s := clamp _) in *.
    destruct (restated_facts f _ s Hbr Hcl) as (Hst & _).
    assert (Hpos : 0 <= reputationListID e) by (rewrite <- Hkey; apply (Hs _ _ Hf)).
    set (r' := _ <| _sendFactionIncreased := inc |>).
    assert (Hget : GetState e r' = Some (restated f (GetBaseReputation (Some e)) s)).
    { unfold GetState. rewrite (proj2 (Z.leb_le 0 _)) by done. rewrite <- Hkey.
      unfold r'. cbn. apply lookup_insert_eq. }
    assert (Hrep : GetReputation (Some e) r' = s).
    { unfold GetReputation. rewrite Hget, Hst. unfold Reputation_Bottom, Reputation_Cap in *.
      rewrite swrap_small; [lia|lia|]. unfold in_swidth. zpow. lia. }
    split; [done|]. split; [exact Hrep|]. split; [unfold GetRank; by rewrite Hrep|]. split.
    + intros Hlow Hpeace. unfold IsAtWar. rewrite Hget. unfold restated.
      rewrite (proj2 (Z.leb_le _ _) Hlow). unfold at_war.
      set (f1 := shown _).
      assert (Hp : has_flag (Flags f1) FACTION_FLAG_PEACE_FORCED = false).
      { unfold f1, shown. destruct (may_show _); cbn; [|done].
        rewrite has_flag_lor, Hpeace. done. }
      rewrite Hp. cbn [orb]. destruct (has_flag (Flags f1) FACTION_FLAG_AT_WAR) eqn:Hw; [done|].
      cbn. rewrite has_flag_lor. cbn. apply orb_true_r.
    + intros k Hne. unfold r'. cbn. by rewrite lookup_insert_ne.
  - apply returns_Ok. unfold SetOneFactionReputation. erewrite bind_run by done.
    cbv beta. rewrite Hf. eauto.
Qed.

(** C30.  Saving and loading: once a manager that tracks every faction of the
    store has saved what it has to, the player's rows of the table are legal
    and loading them into a new manager gives every faction its standing.  The
    states that are not marked as to be saved are those the table has already
    ([stored]), and the store has at most 65536 rows. *)
Theorem save_load_roundtrip (t0 : gmap Z (Z * Z)) (r : ReputationMgr) :
  GetNumRows <= 65536 -> rep_inv r -> complete r -> stored t0 (keys (_factions r)) r ->
  returns SaveToDB
    (fun _ r1 => rows_ok (table_rows (table t0 r1)) /\
       returns (LoadFromDB (Some (table_rows (table t0 r1))))
         (fun _ r2 => rep_inv r2 /\ standings r2 = standings r) ReputationMgr_new) r.
Proof.
  intros Hn Hinv Hcomp Hst. eapply returns_mono; [by apply (SaveToDB_stores t0)|].
  intros [] r1 [Hsame Hst1]. pose proof Hsame as (Hinv1 & Hs1 & _).
  assert (Hcomp1 : complete r1).
  { intros i e He Hpos. eapply same_standings_is_Some; [exact Hsame|]. by eapply Hcomp. }
  destruct (reload (table t0 r1) r1 Hinv1 Hcomp1) as [Hrows Hload].
  { intros k f Hf. apply (Hst1 k f Hf). right. apply not_elem_of_nil. }
  split; [done|]. eapply returns_mono; [apply LoadFromDB_inv|].
  - by intros rows [= <-].
  - intros [] r2 (Hinv2 & _ & r0 & Hini & Hst2). split; [done|].
    rewrite Hst2, <- Hs1. exact (Hload r0 Hini).
Qed.

(** The initial packet has the count 256 and then one entry for every
    list id from 0 to 255, 1284 bytes in all: flags and standing of the
    faction with that list id, zeros where the player tracks none. *)
Theorem SendInitialReputations_packet (r : ReputationMgr) :
  rep_inv r ->
  exists bs,
    returns SendInitialReputations
      (fun _ r' => output r' = output r ++ [SendDirectMessage (packet_of SMSG_INITIALIZE_FACTIONS bs)]
                   /\ standings r' = standings r) r /\
    zlen bs = 1284 /\ ztake 4 bs = le_bytes 4 256 /\
    forall k, 0 <= k < 256 ->
      ztake 5 (zdrop (4 + 5 * k) bs) =
      match _factions r !! k with
      | Some f => le_bytes 1 (Flags f) ++ le_bytes 4 (Standing f)
      | None => [0; 0; 0; 0; 0]
      end.
Proof.
  intros Hinv. set (look := fun k => _factions r !! k).
  exists (scalar_fmt TU32 256 ++ entries_fmt look 0 256). split; [|split; [|split]].
  - apply returns_Ok. do 2 eexists. split; [by apply SendInitialReputations_run|].
    split; [done|]. unfold standings. cbn. rewrite <- map_fmap_compose.
    apply map_fmap_ext. done.
  - rewrite zlen_app, zlen_entries_fmt by lia. done.
  - apply (ztake_app (scalar_fmt TU32 256)).
  - intros k Hk. rewrite (entries_fmt_split look 0 k 256) by lia.
    rewrite app_assoc. replace (4 + 5 * k) with (zlen (scalar_fmt TU32 256 ++ entries_fmt look 0 k))
      by (rewrite zlen_app, zlen_entries_fmt by lia; change (zlen (scalar_fmt TU32 256)) with 4; lia).
    rewrite zdrop_app. rewrite (entries_fmt_split look k (k + 1) 256) by lia.
    replace (entries_fmt look k (k + 1)) with (entry_fmt (look k)).
    + replace 5 with (zlen (entry_fmt (look k)))
        by (destruct (look k); unfold entry_fmt, scalar_fmt; by rewrite zlen_app, !zlen_le_bytes).
      rewrite ztake_app. unfold look. by destruct (_factions r !! k).
    + unfold entries_fmt. replace (k + 1 - k) with 1 by lia.
      rewrite seqZ_cons, seqZ_nil by lia. cbn [map concat]. by rewrite app_nil_r.
Qed.
End Calls.

(** ** A small store

    Three factions: one neutral and visible, one friendly that gives half of
    its gains to the first, and one without a standing. *)

#[local] Instance sample_host : Host := {| TRINITY_BIGENDIAN := false |}.

Definition sample_faction (id list base flags team : Z) : FactionEntry :=
  mkFactionEntry id list [0; 0; 0; 0] [1; 0; 0; 0] [base; 0; 0; 0] [flags; 0; 0; 0] team
    (f32_of_Z 1) f32_half 7.

Definition sample_store (i : Z) : option FactionEntry :=
  if i =? 1 then Some (sample_faction 1 0 0 1 0)
  else if i =? 2 then Some (sample_faction 2 7 3500 0 0)
  else if i =? 3 then Some (sample_faction 3 (-1) 0 0 0)
  else None.

#[local] Instance sample_world : World := {|
  LookupEntry := sample_store;
  GetNumRows := 4;
  raceMask := 1;
  classMask := 1;
  player_level := 10;
  GUIDLow := 77;
  PlayerLoading := false;
  RATE_REPUTATION_GAIN := f32_of_Z 1;
  GetRepSpilloverTemplate := fun i => if i =? 2 then Some [(1, f32_half, 7); (0, f32_half, 0)] else None;
  GetFactionTeamList := fun _ => None;
  OnPlayerReputationChange := fun _ standing _ => standing
|}.

Ltac sample_cases i :=
  destruct (Z.eqb_spec i 1) as [->|]; [|destruct (Z.eqb_spec i 2) as [->|];
    [|destruct (Z.eqb_spec i 3) as [->|]]].

Lemma sample_store_Some i e : sample_store i = Some e ->
  (i = 1 /\ e = sample_faction 1 0 0 1 0) \/ (i = 2 /\ e = sample_faction 2 7 3500 0 0) \/
  (i = 3 /\ e = sample_faction 3 (-1) 0 0 0).
Proof. unfold sample_store. sample_cases i; intros [= <-]; auto. Qed.

#[local] Instance sample_ok : StoreOk.
Proof.
  split.
  - done.
  - intros i e [[-> ->]|[[-> ->]|[-> ->]]]%sample_store_Some; done.
  - intros i e [[-> ->]|[[-> ->]|[-> ->]]]%sample_store_Some; cbn; lia.
  - intros i j e e' [[-> ->]|[[-> ->]|[-> ->]]]%sample_store_Some
      [[-> ->]|[[-> ->]|[-> ->]]]%sample_store_Some; cbn; lia.
  - intros i e [[-> ->]|[[-> ->]|[-> ->]]]%sample_store_Some; vm_compute; done.
Qed.

Lemma sample_templates : templates_ok.
Proof.
  intros i tpl faction rate top. cbn. destruct (i =? 2); [|done]. intros [= <-].
  rewrite !elem_of_cons. intros [[= -> _ _]|[[= -> _ _]|Hin%elem_of_nil]]; done.
Qed.

(** The manager of a new player. *)
Definition sample_manager : ReputationMgr :=
  match LoadFromDB None ReputationMgr_new with Ok _ r => r | _ => ReputationMgr_new end.

Lemma sample_inv : rep_inv sample_manager.
Proof.
  assert (Hl : returns (LoadFromDB None) (fun _ r => rep_inv r) ReputationMgr_new).
  { eapply returns_mono; [by apply LoadFromDB_inv|]. by intros [] r' (? & _). }
  unfold sample_manager. revert Hl. unfold returns, wp.
  destruct (LoadFromDB None ReputationMgr_new); done.
Qed.

Lemma reputation_session_witness :
  returns (LoadFromDB (Some [(1, 41000, 1); (2, -9500, 3)]);;
           for_each [CSetReputation 2 (-7000) true; CSetOneFactionReputation 1 50000 false; CSetAtWar 0 true;
                     CSendState 7; CApplyForceReaction 3 4 true;
                     CSendForceReactions; CSendStates; CSendInitialReputations; CSaveToDB] run_call)
    (fun _ r => states_ok r /\ counts_ok r) ReputationMgr_new.
Proof.
  apply reputation_session.
  - exact sample_templates.
  - intros rows [= <-]. split.
    + apply Forall_forall. intros row Hin e He _. apply sample_store_Some in He.
      apply elem_of_cons in Hin as [->|[->|[]%elem_of_nil]%elem_of_cons]; cbn in He;
        destruct He as [[[=] ->]|[[[=] ->]|[[=] ->]]]; vm_compute; split; discriminate.
    + apply (bool_decide_unpack _). vm_compute. exact I.
  - repeat constructor; cbn; lia.
Defined.

Lemma SetOneFactionReputation_effect_witness :
  returns (SetOneFactionReputation (sample_faction 2 7 3500 0 0) (-50000) true)
    (fun tracked r' => tracked = true /\
       GetReputation (Some (sample_faction 2 7 3500 0 0)) r' = Reputation_Bottom /\
       IsAtWar (Some (sample_faction 2 7 3500 0 0)) r' = true) sample_manager.
Proof.
  eapply returns_mono;
    [apply (SetOneFactionReputation_effect 2 (sample_faction 2 7 3500 0 0) (-50000) true);
       [reflexivity|exact sample_inv]|].
  intros b r'.
  replace (_factions sample_manager !! list_key (sample_faction 2 7 3500 0 0))
    with (Some (mkFactionState 2 7 0 0 true true)) by (vm_compute; reflexivity).
  intros (Hb & Hrep & _ & Hwar & _). split; [exact Hb|]. split.
  - rewrite Hrep. vm_compute. reflexivity.
  - apply Hwar; [vm_compute; discriminate|reflexivity].
Defined.

Lemma save_load_roundtrip_witness :
  returns SaveToDB
    (fun _ r1 => rows_ok (table_rows (table ∅ r1)) /\
       returns (LoadFromDB (Some (table_rows (table ∅ r1))))
         (fun _ r2 => rep_inv r2 /\ standings r2 = standings sample_manager) ReputationMgr_new)
    sample_manager.
Proof.
  apply save_load_roundtrip.
  - discriminate.
  - exact sample_inv.
  - intros i e [[-> ->]|[[-> ->]|[-> ->]]]%sample_store_Some; vm_compute; intros Hpos; eauto.
    by destruct Hpos.
  - intros k f Hf [Hs|Hk].
    + exfalso.
      assert (Hall : map_Forall (fun _ f => needSave f = true) (_factions sample_manager))
        by (apply (bool_decide_unpack _); vm_compute; exact I).
      specialize (Hall k f Hf). cbn in Hall. congruence.
    + exfalso. apply Hk, elem_of_keys. eauto.
Defined.

Lemma SendInitialReputations_packet_witness :
  exists bs,
    returns SendInitialReputations
      (fun _ r' => output r' = output sample_manager
                     ++ [SendDirectMessage (packet_of SMSG_INITIALIZE_FACTIONS bs)]
                   /\ standings r' = standings sample_manager) sample_manager /\
    zlen bs = 1284 /\ ztake 4 bs = le_bytes 4 256 /\
    forall k, 0 <= k < 256 ->
      ztake 5 (zdrop (4 + 5 * k) bs) =
      match _factions sample_manager !! k with
      | Some f => le_bytes 1 (Flags f) ++ le_bytes 4 (Standing f)
      | None => [0; 0; 0; 0; 0]
      end.
Proof. apply SendInitialReputations_packet. exact sample_inv. Defined.
