(* ===== verification/Channel.v ===== *)
(** * Chat channels

    [src/src/server/game/Chat/Channels/Channel.{h,cpp}]: the members of a
    channel, their roles, the commands on them, the notices they send and the
    row of the database that keeps a custom channel. *)

From Stdlib Require Import Ascii String.
From S2P Require Import Prelude ByteBuffer Wire Packet Maps Guid Text.

(** ** Constants *)

Definition CHAT_JOINED_NOTICE : Z := 0x00.
Definition CHAT_LEFT_NOTICE : Z := 0x01.
Definition CHAT_YOU_JOINED_NOTICE : Z := 0x02.
Definition CHAT_YOU_LEFT_NOTICE : Z := 0x03.
Definition CHAT_WRONG_PASSWORD_NOTICE : Z := 0x04.
Definition CHAT_NOT_MEMBER_NOTICE : Z := 0x05.
Definition CHAT_NOT_MODERATOR_NOTICE : Z := 0x06.
Definition CHAT_PASSWORD_CHANGED_NOTICE : Z := 0x07.
Definition CHAT_OWNER_CHANGED_NOTICE : Z := 0x08.
Definition CHAT_PLAYER_NOT_FOUND_NOTICE : Z := 0x09.
Definition CHAT_NOT_OWNER_NOTICE : Z := 0x0A.
Definition CHAT_CHANNEL_OWNER_NOTICE : Z := 0x0B.
Definition CHAT_MODE_CHANGE_NOTICE : Z := 0x0C.
Definition CHAT_ANNOUNCEMENTS_ON_NOTICE : Z := 0x0D.
Definition CHAT_ANNOUNCEMENTS_OFF_NOTICE : Z := 0x0E.
Definition CHAT_MUTED_NOTICE : Z := 0x11.
Definition CHAT_PLAYER_KICKED_NOTICE : Z := 0x12.
Definition CHAT_BANNED_NOTICE : Z := 0x13.
Definition CHAT_PLAYER_BANNED_NOTICE : Z := 0x14.
Definition CHAT_PLAYER_UNBANNED_NOTICE : Z := 0x15.
Definition CHAT_PLAYER_NOT_BANNED_NOTICE : Z := 0x16.
Definition CHAT_PLAYER_ALREADY_MEMBER_NOTICE : Z := 0x17.
Definition CHAT_INVITE_NOTICE : Z := 0x18.
Definition CHAT_INVITE_WRONG_FACTION_NOTICE : Z := 0x19.
Definition CHAT_WRONG_FACTION_NOTICE : Z := 0x1A.
Definition CHAT_INVALID_NAME_NOTICE : Z := 0x1B.
Definition CHAT_NOT_MODERATED_NOTICE : Z := 0x1C.
Definition CHAT_PLAYER_INVITED_NOTICE : Z := 0x1D.
Definition CHAT_PLAYER_INVITE_BANNED_NOTICE : Z := 0x1E.
Definition CHAT_THROTTLED_NOTICE : Z := 0x1F.
Definition CHAT_NOT_IN_AREA_NOTICE : Z := 0x20.
Definition CHAT_NOT_IN_LFG_NOTICE : Z := 0x21.
Definition CHAT_VOICE_ON_NOTICE : Z := 0x22.
Definition CHAT_VOICE_OFF_NOTICE : Z := 0x23.

Definition CHANNEL_FLAG_CUSTOM : Z := 0x01.
Definition CHANNEL_FLAG_TRADE : Z := 0x04.
Definition CHANNEL_FLAG_NOT_LFG : Z := 0x08.
Definition CHANNEL_FLAG_GENERAL : Z := 0x10.
Definition CHANNEL_FLAG_CITY : Z := 0x20.
Definition CHANNEL_FLAG_LFG : Z := 0x40.

Definition CHANNEL_DBC_FLAG_TRADE : Z := 0x00008.
Definition CHANNEL_DBC_FLAG_CITY_ONLY2 : Z := 0x00020.
Definition CHANNEL_DBC_FLAG_LFG : Z := 0x40000.

Definition MEMBER_FLAG_NONE : Z := 0x00.
Definition MEMBER_FLAG_OWNER : Z := 0x01.
Definition MEMBER_FLAG_MODERATOR : Z := 0x02.
Definition MEMBER_FLAG_MUTED : Z := 0x08.

Definition SMSG_CHANNEL_LIST : Z := 0x2214.
Definition SMSG_CHANNEL_NOTIFY : Z := 0x0825.
Definition SMSG_MESSAGECHAT : Z := 0x2026.
Definition SMSG_USERLIST_ADD : Z := 0x0F37.
Definition SMSG_USERLIST_REMOVE : Z := 0x2006.
Definition SMSG_USERLIST_UPDATE : Z := 0x0135.
Definition CHAT_MSG_CHANNEL : Z := 0x11.
Definition LANG_UNIVERSAL : Z := 0.

Definition SEC_PLAYER : Z := 0.
Definition SEC_GAMEMASTER : Z := 3.
Definition SEC_CONSOLE : Z := 10.

Definition IsPlayerAccount (gmlevel : Z) : bool := gmlevel =? SEC_PLAYER.
Definition IsGMAccount (gmlevel : Z) : bool :=
  (SEC_GAMEMASTER <=? gmlevel) && (gmlevel <=? SEC_CONSOLE).

(** ** Data *)

Record PlayerInfo := mkPlayerInfo { pi_player : Z; pi_flags : Z }.
#[export] Instance PlayerInfo_settable : Settable PlayerInfo :=
  fun p => mkPlayerInfo (pi_player p) (pi_flags p).

(** The element [operator[]] makes for a new key. *)
Definition PlayerInfo_zero : PlayerInfo := mkPlayerInfo 0 0.

Definition pi_set (flag : Z) (state : bool) (p : PlayerInfo) : PlayerInfo :=
  p <| pi_flags := if state then Z.lor (pi_flags p) flag
                   else u8 (Z.land (pi_flags p) (Z.lnot flag)) |>.

Definition IsOwner (p : PlayerInfo) : bool := has_flag (pi_flags p) MEMBER_FLAG_OWNER.
Definition IsModerator (p : PlayerInfo) : bool := has_flag (pi_flags p) MEMBER_FLAG_MODERATOR.
Definition IsMuted (p : PlayerInfo) : bool := has_flag (pi_flags p) MEMBER_FLAG_MUTED.
Definition pi_SetOwner : bool -> PlayerInfo -> PlayerInfo := pi_set MEMBER_FLAG_OWNER.
Definition pi_SetModerator : bool -> PlayerInfo -> PlayerInfo := pi_set MEMBER_FLAG_MODERATOR.
Definition pi_SetMuted : bool -> PlayerInfo -> PlayerInfo := pi_set MEMBER_FLAG_MUTED.

Record Channel := mkChannel {
  _announce : bool;
  _ownership : bool;
  _IsSaved : bool;
  _flags : Z;
  _channelId : Z;
  _Team : Z;
  _ownerGUID : Z;
  _name : list Z;
  _password : list Z;
  playersStore : gmap Z PlayerInfo;
  bannedStore : gmap Z unit
}.
#[export] Instance Channel_settable : Settable Channel :=
  fun c => mkChannel (_announce c) (_ownership c) (_IsSaved c) (_flags c) (_channelId c) (_Team c)
             (_ownerGUID c) (_name c) (_password c) (playersStore c) (bannedStore c).

(** What a channel reads of a player's object. *)
Record Player := mkPlayer {
  GetGUID : Z;
  GetName : list Z;
  GetSecurity : Z;
  GetTeam : Z;
  GetGroup : bool;
  HasIgnore : Z -> bool;
  isGMVisible : bool;
  IsVisible : bool;
  GetChatTag : Z;
  IsInWorld : bool
}.

(** The rest of the server, as a channel sees it during one call: the players
    in the order of the global map, the configuration, the stores and the
    result of the query for a channel's row. *)
Class Server := {
  GetPlayers : list Player;
  CONFIG_PRESERVE_CUSTOM_CHANNELS : bool;
  CONFIG_PRESERVE_CUSTOM_CHANNEL_DURATION : Z;
  CONFIG_RESTRICTED_LFG_CHANNEL : bool;
  CONFIG_SILENTLY_GM_JOIN_TO_CHANNEL : bool;
  CONFIG_ALLOW_TWO_SIDE_INTERACTION_CHANNEL : bool;
  CONFIG_GM_LEVEL_IN_WHO_LIST : Z;
  ChatChannelsEntry_flags : Z -> option Z;
  GetPlayerNameByGUID : Z -> option (list Z);
  CHAR_SEL_CHANNEL : list Z -> Z -> option (bool * bool * list Z * option (list Z))
}.

(** The effects that leave the channel. *)
Inductive chan_output :=
| SendPacket (guid : Z) (data : WorldPacket)
| CHAR_INS_CHANNEL (name : list Z) (team : Z)
| CHAR_UPD_CHANNEL (announce ownership : bool) (password bannedList name : list Z) (team : Z)
| CHAR_UPD_CHANNEL_USAGE (name : list Z) (team : Z)
| CHAR_DEL_OLD_CHANNELS (age : Z).

(** The channel, the players that have it in their [m_channels], and what has
    been sent and executed. *)
Record CState := mkCState { chan : Channel; m_channels : list Z; sent : list chan_output }.
#[export] Instance CState_settable : Settable CState :=
  fun s => mkCState (chan s) (m_channels s) (sent s).

Abbreviation CM := (M CState ByteBufferException).

Definition emit (o : chan_output) : CM unit := modify (fun s => s <| sent ::= fun l => l ++ [o] |>).
Definition channel : CM Channel := gets chan.
Definition set_channel (f : Channel -> Channel) : CM unit := modify (fun s => s <| chan ::= f |>).

(** [Player::JoinedChannel] and [Player::LeftChannel]. *)
Definition JoinedChannel (p : Player) : CM unit :=
  modify (fun s => s <| m_channels ::= fun l => l ++ [GetGUID p] |>).
Definition LeftChannel (p : Player) : CM unit :=
  modify (fun s => s <| m_channels ::= filter (fun g => g <> GetGUID p) |>).

(** ** Members of the class *)

Definition IsConstant (c : Channel) : bool := negb (_channelId c =? 0).
Definition HasFlag (c : Channel) (flag : Z) : bool := has_flag (_flags c) flag.
Definition IsLFG (c : Channel) : bool := HasFlag c CHANNEL_FLAG_LFG.
Definition GetNumPlayers (c : Channel) : Z := u32 (Z.of_nat (base.size (playersStore c))).
Definition IsOn (who : Z) (c : Channel) : bool := bool_decide (is_Some (playersStore c !! who)).
Definition IsBanned (guid : Z) (c : Channel) : bool := bool_decide (is_Some (bannedStore c !! guid)).
Definition GetPlayerFlags (guid : Z) (c : Channel) : Z :=
  match playersStore c !! guid with Some p => pi_flags p | None => 0 end.

(** [playersStore[guid]], read and updated in place. *)
Definition member (guid : Z) : CM PlayerInfo :=
  c ← channel;
  match playersStore c !! guid with
  | Some p => mret p
  | None => set_channel (fun c => c <| playersStore ::= <[guid := PlayerInfo_zero]> |>);;
            mret PlayerInfo_zero
  end.

Definition update_member (guid : Z) (f : PlayerInfo -> PlayerInfo) : CM unit :=
  p ← member guid;
  set_channel (fun c => c <| playersStore ::= <[guid := f p]> |>).

(** ** The players of the server *)

(** [::tolower] on bytes, in the C locale. *)
Definition tolower (c : Z) : Z := if (65 <=? c) && (c <=? 90) then c + 32 else c.

Section Lookup.
Context `{Server}.

Definition FindPlayer (guid : Z) : option Player :=
  match List.find (fun p => GetGUID p =? guid) GetPlayers with
  | Some p => if IsInWorld p then Some p else None
  | None => None
  end.

Definition FindPlayerByName (name : list Z) : option Player :=
  List.find (fun p => IsInWorld p && bool_decide (map tolower name = map tolower (GetName p)))
    GetPlayers.

(** [Player::IsVisibleGloballyFor]; two player objects are the same when
    their GUIDs are. *)
Definition IsVisibleGloballyFor (p u : Player) : bool :=
  if GetGUID u =? GetGUID p then true
  else if IsVisible p then true
  else if negb (IsPlayerAccount (GetSecurity u)) then GetSecurity p <=? GetSecurity u
  else if negb (IsVisible p) then false
  else true.
End Lookup.

(** ** Notices *)

Section Notices.
Context `{Host}.
Implicit Types c : Channel.

Definition MakeNotifyPacket c (notify_type : Z) : PK unit :=
  Initialize SMSG_CHANNEL_NOTIFY (1 + zlen (_name c));;
  lift (out TU8 notify_type);;
  lift (out_string (_name c)).

Definition notify0 (t : Z) c : PK unit := MakeNotifyPacket c t.
Definition notify1 (t guid : Z) c : PK unit :=
  MakeNotifyPacket c t;; lift (out TU64 guid).
Definition notify2 (t bad good : Z) c : PK unit :=
  MakeNotifyPacket c t;; lift (out TU64 bad);; lift (out TU64 good).
Definition notify_name (t : Z) (name : list Z) c : PK unit :=
  MakeNotifyPacket c t;; lift (out_string name).

Definition MakeJoined guid := notify1 CHAT_JOINED_NOTICE guid.
Definition MakeLeft guid := notify1 CHAT_LEFT_NOTICE guid.
Definition MakeYouJoined c : PK unit :=
  MakeNotifyPacket c CHAT_YOU_JOINED_NOTICE;;
  lift (out TU8 (_flags c));; lift (out TU32 (_channelId c));; lift (out TU32 0).
Definition MakeYouLeft c : PK unit :=
  MakeNotifyPacket c CHAT_YOU_LEFT_NOTICE;;
  lift (out TU32 (_channelId c));; lift (out TU8 (Z.b2z (IsConstant c))).
Definition MakeWrongPassword := notify0 CHAT_WRONG_PASSWORD_NOTICE.
Definition MakeNotMember := notify0 CHAT_NOT_MEMBER_NOTICE.
Definition MakeNotModerator := notify0 CHAT_NOT_MODERATOR_NOTICE.
Definition MakePasswordChanged guid := notify1 CHAT_PASSWORD_CHANGED_NOTICE guid.
Definition MakeOwnerChanged guid := notify1 CHAT_OWNER_CHANGED_NOTICE guid.
Definition MakePlayerNotFound name := notify_name CHAT_PLAYER_NOT_FOUND_NOTICE name.
Definition MakeNotOwner := notify0 CHAT_NOT_OWNER_NOTICE.
Definition MakeChannelOwner `{Server} c : PK unit :=
  let name := match GetPlayerNameByGUID (_ownerGUID c) with
              | Some ((_ :: _) as n) => n
              | _ => chars "PLAYER_NOT_FOUND"
              end in
  MakeNotifyPacket c CHAT_CHANNEL_OWNER_NOTICE;;
  lift (out_string (if IsConstant c || (_ownerGUID c =? 0) then chars "Nobody" else name)).
Definition MakeModeChange guid oldflags c : PK unit :=
  MakeNotifyPacket c CHAT_MODE_CHANGE_NOTICE;;
  lift (out TU64 guid);; lift (out TU8 oldflags);; lift (out TU8 (GetPlayerFlags guid c)).
Definition MakeAnnouncementsOn guid := notify1 CHAT_ANNOUNCEMENTS_ON_NOTICE guid.
Definition MakeAnnouncementsOff guid := notify1 CHAT_ANNOUNCEMENTS_OFF_NOTICE guid.
Definition MakeMuted := notify0 CHAT_MUTED_NOTICE.
Definition MakePlayerKicked bad good := notify2 CHAT_PLAYER_KICKED_NOTICE bad good.
Definition MakeBanned := notify0 CHAT_BANNED_NOTICE.
Definition MakePlayerBanned bad good := notify2 CHAT_PLAYER_BANNED_NOTICE bad good.
Definition MakePlayerUnbanned bad good := notify2 CHAT_PLAYER_UNBANNED_NOTICE bad good.
Definition MakePlayerNotBanned name := notify_name CHAT_PLAYER_NOT_BANNED_NOTICE name.
Definition MakePlayerAlreadyMember guid := notify1 CHAT_PLAYER_ALREADY_MEMBER_NOTICE guid.
Definition MakeInvite guid := notify1 CHAT_INVITE_NOTICE guid.
Definition MakeInviteWrongFaction := notify0 CHAT_INVITE_WRONG_FACTION_NOTICE.
Definition MakeWrongFaction := notify0 CHAT_WRONG_FACTION_NOTICE.
Definition MakeInvalidName := notify0 CHAT_INVALID_NAME_NOTICE.
Definition MakeNotModerated := notify0 CHAT_NOT_MODERATED_NOTICE.
Definition MakePlayerInvited name := notify_name CHAT_PLAYER_INVITED_NOTICE name.
Definition MakePlayerInviteBanned name := notify_name CHAT_PLAYER_INVITE_BANNED_NOTICE name.
Definition MakeThrottled := notify0 CHAT_THROTTLED_NOTICE.
Definition MakeNotInArea := notify0 CHAT_NOT_IN_AREA_NOTICE.
Definition MakeNotInLfg := notify0 CHAT_NOT_IN_LFG_NOTICE.
Definition MakeVoiceOn guid := notify1 CHAT_VOICE_ON_NOTICE guid.
Definition MakeVoiceOff guid := notify1 CHAT_VOICE_OFF_NOTICE guid.
End Notices.

(** ** Sending *)

Section Channel.
Context `{Host, Platform, Server}.

(** [WorldPacket data; Make...(&data)], on the channel as it is. *)
Definition build_on (data : WorldPacket) (make : Channel -> PK unit) : CM WorldPacket :=
  c ← channel;
  '(_, p) ← on_local data (make c);
  mret p.
Definition build : (Channel -> PK unit) -> CM WorldPacket := build_on WorldPacket_default.

Definition SendToOne (data : WorldPacket) (who : Z) : CM unit :=
  match FindPlayer who with
  | Some _ => emit (SendPacket who data)
  | None => mret tt
  end.

Definition SendToAll (data : WorldPacket) (guid : Z) : CM unit :=
  c ← channel;
  for_each (keys (playersStore c)) (fun k =>
    match FindPlayer k with
    | Some p => when ((guid =? 0) || negb (HasIgnore p (GUID_LOPART guid))) (emit (SendPacket k data))
    | None => mret tt
    end).

Definition SendToAllButOne (data : WorldPacket) (who : Z) : CM unit :=
  c ← channel;
  for_each (keys (playersStore c)) (fun k =>
    if k =? who then mret tt
    else match FindPlayer k with
         | Some _ => emit (SendPacket k data)
         | None => mret tt
         end).

Definition tell (who : Z) (make : Channel -> PK unit) : CM unit :=
  data ← build make; SendToOne data who.
Definition tell_all (make : Channel -> PK unit) : CM unit :=
  data ← build make; SendToAll data 0.

(** *** The database *)

Definition UpdateChannelInDB : CM unit :=
  c ← channel;
  when (_IsSaved c)
    (emit (CHAR_UPD_CHANNEL (_announce c) (_ownership c) (_password c)
             (concat (map (fun g => dec g ++ chars " ") (keys (bannedStore c))))
             (_name c) (_Team c))).

Definition UpdateChannelUseageInDB : CM unit :=
  c ← channel;
  emit (CHAR_UPD_CHANNEL_USAGE (_name c) (_Team c)).

Definition CleanOldChannelsInDB : CM unit :=
  when (0 <? CONFIG_PRESERVE_CUSTOM_CHANNEL_DURATION)
    (emit (CHAR_DEL_OLD_CHANNELS (u32 (CONFIG_PRESERVE_CUSTOM_CHANNEL_DURATION * DAY)))).

(** The constructor: the new channel, and the statement it executes. *)
Definition load_banned (tokens : list (list Z)) : gmap Z unit :=
  fold_left (fun m t => let banned_guid := u64 (atol t) in
                        if banned_guid =? 0 then m else <[banned_guid := tt]> m) tokens ∅.

Definition Channel_new (name : list Z) (channelId team : Z)
  : M unit ByteBufferException (Channel * list chan_output) :=
  let base := mkChannel true true false 0 channelId team 0 name [] ∅ ∅ in
  match ChatChannelsEntry_flags channelId with
  | Some ch =>
      let f0 := CHANNEL_FLAG_GENERAL in
      let f1 := if has_flag ch CHANNEL_DBC_FLAG_TRADE then Z.lor f0 CHANNEL_FLAG_TRADE else f0 in
      let f2 := if has_flag ch CHANNEL_DBC_FLAG_CITY_ONLY2 then Z.lor f1 CHANNEL_FLAG_CITY else f1 in
      let f3 := Z.lor f2 (if has_flag ch CHANNEL_DBC_FLAG_LFG then CHANNEL_FLAG_LFG
                          else CHANNEL_FLAG_NOT_LFG) in
      mret (base <| _announce := false |> <| _ownership := false |> <| _flags := f3 |>, [])
  | None =>
      let c := base <| _flags := CHANNEL_FLAG_CUSTOM |> in
      if CONFIG_PRESERVE_CUSTOM_CHANNELS then
        match CHAR_SEL_CHANNEL name team with
        | Some (announce, ownership, password, db_BannedList) =>
            let c1 := c <| _announce := announce |> <| _ownership := ownership |>
                        <| _password := password |> <| _IsSaved := true |> in
            match db_BannedList with
            | Some l => tokens ← Tokenizer (c_str l) 32;
                        mret (c1 <| bannedStore := load_banned tokens |>, [])
            | None => mret (c1, [])
            end
        | None => mret (c <| _IsSaved := true |>, [CHAR_INS_CHANNEL name team])
        end
      else mret (c, [])
  end.

(** *** Roles *)

Definition SetOwner_guid (guid : Z) (exclaim : bool) : CM unit :=
  c ← channel;
  when (negb (_ownerGUID c =? 0))
    (match playersStore c !! _ownerGUID c with
     | Some p => set_channel (fun c => c <| playersStore ::= <[_ownerGUID c := pi_SetOwner false p]> |>)
     | None => mret tt
     end);;
  set_channel (fun c => c <| _ownerGUID := guid |>);;
  when (negb (guid =? 0))
    (c ← channel;
     let oldFlag := GetPlayerFlags guid c in
     update_member guid (pi_SetModerator true);;
     update_member guid (pi_SetOwner true);;
     data ← build (MakeModeChange guid oldFlag);
     SendToAll data 0;;
     when exclaim
       (data ← build_on data (MakeOwnerChanged guid);
        SendToAll data 0);;
     UpdateChannelInDB).

Definition change_mode (has : PlayerInfo -> bool) (f : bool -> PlayerInfo -> PlayerInfo)
    (guid : Z) (set : bool) : CM unit :=
  p ← member guid;
  when (negb (eqb (has p) set))
    (c ← channel;
     let oldFlag := GetPlayerFlags guid c in
     update_member guid (f set);;
     tell_all (MakeModeChange guid oldFlag)).

Definition SetModerator : Z -> bool -> CM unit := change_mode IsModerator pi_SetModerator.
Definition SetMute : Z -> bool -> CM unit := change_mode IsMuted pi_SetMuted.

(** *** Joining and leaving *)

(** [WorldPacket data(opcode, res)] and the writes on it. *)
Definition new_packet (opcode : Z) (body : BB unit) : CM WorldPacket :=
  '(_, p) ← on_local (WorldPacket_new opcode) (lift body);
  mret p.

Definition JoinNotify (guid : Z) : CM unit :=
  c ← channel;
  data ← new_packet (if IsConstant c then SMSG_USERLIST_ADD else SMSG_USERLIST_UPDATE)
    (out TU64 guid;; out TU8 (GetPlayerFlags guid c);; out TU8 (_flags c);;
     out TU32 (GetNumPlayers c);; out_string (_name c));
  if IsConstant c then SendToAllButOne data guid else SendToAll data 0.

Definition LeaveNotify (guid : Z) : CM unit :=
  c ← channel;
  data ← new_packet SMSG_USERLIST_REMOVE
    (out TU64 guid;; out TU8 (_flags c);; out TU32 (GetNumPlayers c);; out_string (_name c));
  if IsConstant c then SendToAllButOne data guid else SendToAll data 0.

Definition announces (c : Channel) (p : Player) : bool :=
  _announce c && (negb (IsGMAccount (GetSecurity p)) || negb CONFIG_SILENTLY_GM_JOIN_TO_CHANNEL).

Definition JoinChannel (player : Player) (pass : list Z) : CM unit :=
  c ← channel;
  let guid := GetGUID player in
  if IsOn guid c then
    when (negb (IsConstant c)) (tell guid (MakePlayerAlreadyMember guid))
  else if IsBanned guid c then tell guid MakeBanned
  else if negb (bool_decide (_password c = [])) && negb (bool_decide (pass = _password c)) then
    tell guid MakeWrongPassword
  else if HasFlag c CHANNEL_FLAG_LFG && CONFIG_RESTRICTED_LFG_CHANNEL &&
          IsPlayerAccount (GetSecurity player) && GetGroup player then
    tell guid MakeNotInLfg
  else
    JoinedChannel player;;
    when (announces c player) (tell_all (MakeJoined guid));;
    set_channel (fun c => c <| playersStore ::= <[guid := mkPlayerInfo guid MEMBER_FLAG_NONE]> |>);;
    tell guid MakeYouJoined;;
    JoinNotify guid;;
    when (negb (IsConstant c))
      (c ← channel;
       when (negb (bool_decide (playersStore c = ∅))) UpdateChannelUseageInDB;;
       when ((_ownerGUID c =? 0) && _ownership c)
         (SetOwner_guid guid (1 <? Z.of_nat (base.size (playersStore c)));;
          update_member guid (pi_SetModerator true))).

Definition LeaveChannel (player : Player) (send : bool) : CM unit :=
  c ← channel;
  let guid := GetGUID player in
  if negb (IsOn guid c) then when send (tell guid MakeNotMember)
  else
    when send (tell guid MakeYouLeft;; LeftChannel player);;
    p ← member guid;
    let changeowner := IsOwner p in
    set_channel (fun c => c <| playersStore ::= delete guid |>);;
    when (announces c player) (tell_all (MakeLeft guid));;
    LeaveNotify guid;;
    when (negb (IsConstant c))
      (UpdateChannelUseageInDB;;
       c ← channel;
       when (changeowner && _ownership c)
         (match first_entry (playersStore c) with
          | Some (_, p) =>
              let newowner := pi_player p in
              update_member newowner (pi_SetModerator true);;
              SetOwner_guid newowner true
          | None => mret tt
          end)).

(** *** Commands of members *)

(** The checks most commands start with. *)
Definition member_only (player : Player) (body : Channel -> CM unit) : CM unit :=
  c ← channel;
  if negb (IsOn (GetGUID player) c) then tell (GetGUID player) MakeNotMember
  else body c.

Definition moderator_only (player : Player) (body : Channel -> CM unit) : CM unit :=
  member_only player (fun _ =>
    p ← member (GetGUID player);
    if negb (IsModerator p) && negb (IsGMAccount (GetSecurity player))
    then tell (GetGUID player) MakeNotModerator
    else c ← channel; body c).

Definition KickOrBan (player : Player) (badname : list Z) (ban : bool) : CM unit :=
  moderator_only player (fun c =>
    let sec := GetSecurity player in
    let good := GetGUID player in
    match FindPlayerByName badname with
    | None => tell good (MakePlayerNotFound badname)
    | Some bad =>
        let victim := GetGUID bad in
        if (victim =? 0) || negb (IsOn victim c) then tell good (MakePlayerNotFound badname)
        else
          let changeowner := _ownerGUID c =? victim in
          if negb (IsGMAccount sec) && changeowner && negb (good =? _ownerGUID c)
          then tell good MakeNotOwner
          else
            let notify := negb (IsGMAccount sec && CONFIG_SILENTLY_GM_JOIN_TO_CHANNEL) in
            (if ban && negb (IsBanned victim c) then
               set_channel (fun c => c <| bannedStore ::= <[victim := tt]> |>);;
               UpdateChannelInDB;;
               when notify (tell_all (MakePlayerBanned victim good))
             else when notify (tell_all (MakePlayerKicked victim good)));;
            set_channel (fun c => c <| playersStore ::= delete victim |>);;
            LeftChannel bad;;
            c ← channel;
            when (changeowner && _ownership c && negb (bool_decide (playersStore c = ∅)))
              (update_member good (pi_SetModerator true);;
               SetOwner_guid good true)
    end).

Definition UnBan (player : Player) (badname : list Z) : CM unit :=
  moderator_only player (fun c =>
    let good := GetGUID player in
    match FindPlayerByName badname with
    | None => tell good (MakePlayerNotFound badname)
    | Some bad =>
        let victim := GetGUID bad in
        if (victim =? 0) || negb (IsBanned victim c) then tell good (MakePlayerNotFound badname)
        else
          set_channel (fun c => c <| bannedStore ::= delete victim |>);;
          tell_all (MakePlayerUnbanned victim good);;
          UpdateChannelInDB
    end).

Definition Password (player : Player) (pass : list Z) : CM unit :=
  moderator_only player (fun _ =>
    set_channel (fun c => c <| _password := pass |>);;
    tell_all (MakePasswordChanged (GetGUID player));;
    UpdateChannelInDB).

Definition SetMode (player : Player) (p2n : list Z) (mod_ set : bool) : CM unit :=
  moderator_only player (fun c =>
    let guid := GetGUID player in
    let sec := GetSecurity player in
    if (guid =? _ownerGUID c) && bool_decide (p2n = GetName player) && mod_ then mret tt
    else
      match FindPlayerByName p2n with
      | None => tell guid (MakePlayerNotFound p2n)
      | Some newp =>
          let victim := GetGUID newp in
          if (victim =? 0) || negb (IsOn victim c) ||
             ((negb (IsGMAccount sec) || negb (IsGMAccount (GetSecurity newp))) &&
              negb (GetTeam player =? GetTeam newp) &&
              negb CONFIG_ALLOW_TWO_SIDE_INTERACTION_CHANNEL)
          then tell guid (MakePlayerNotFound p2n)
          else if (_ownerGUID c =? victim) && negb (_ownerGUID c =? guid)
          then tell guid MakeNotOwner
          else if mod_ then SetModerator victim set else SetMute victim set
      end).

Definition SetOwner (player : Player) (newname : list Z) : CM unit :=
  member_only player (fun c =>
    let guid := GetGUID player in
    if negb (IsGMAccount (GetSecurity player)) && negb (guid =? _ownerGUID c)
    then tell guid MakeNotOwner
    else
      match FindPlayerByName newname with
      | None => tell guid (MakePlayerNotFound newname)
      | Some newp =>
          let victim := GetGUID newp in
          if (victim =? 0) || negb (IsOn victim c) ||
             (negb (GetTeam newp =? GetTeam player) &&
              negb CONFIG_ALLOW_TWO_SIDE_INTERACTION_CHANNEL)
          then tell guid (MakePlayerNotFound newname)
          else
            update_member victim (pi_SetModerator true);;
            SetOwner_guid victim true
      end).

Definition SendWhoOwner (guid : Z) : CM unit :=
  c ← channel;
  tell guid (if IsOn guid c then MakeChannelOwner else MakeNotMember).

(** The members [List] shows to a player. *)
Definition listed (player : Player) (k : Z) : bool :=
  match FindPlayer k with
  | Some m =>
      (negb (IsPlayerAccount (GetSecurity player)) ||
       (GetSecurity m <=? CONFIG_GM_LEVEL_IN_WHO_LIST)) && IsVisibleGloballyFor m player
  | None => false
  end.

Fixpoint List_loop (player : Player) (c : Channel) (l : list Z) (count : Z) : BB Z :=
  match l with
  | [] => mret count
  | k :: l' =>
      if listed player k then
        out TU64 k;; out TU8 (GetPlayerFlags k c);;
        List_loop player c l' (u32 (count + 1))
      else List_loop player c l' count
  end.

Definition List_ (player : Player) : CM unit :=
  member_only player (fun c =>
    data ← new_packet SMSG_CHANNEL_LIST
      ((out TU8 1;; out_string (_name c);; out TU8 (_flags c));;
       pos ← get_wpos;
       out TU32 0;;
       count ← List_loop player c (keys (playersStore c)) 0;
       put_T 4 pos count);
    SendToOne data (GetGUID player)).

Definition Announce (player : Player) : CM unit :=
  moderator_only player (fun c =>
    set_channel (fun c => c <| _announce ::= negb |>);;
    tell_all (if negb (_announce c) then MakeAnnouncementsOn (GetGUID player)
              else MakeAnnouncementsOff (GetGUID player));;
    UpdateChannelInDB).

Definition Say (guid : Z) (what : list Z) (lang0 : Z) : CM unit :=
  if bool_decide (what = []) then mret tt
  else
    let lang := if CONFIG_ALLOW_TWO_SIDE_INTERACTION_CHANNEL then LANG_UNIVERSAL else lang0 in
    c ← channel;
    if negb (IsOn guid c) then tell guid MakeNotMember
    else
      p ← member guid;
      if IsMuted p then tell guid MakeMuted
      else
        data ← new_packet SMSG_MESSAGECHAT
          (out TU8 CHAT_MSG_CHANNEL;; out TU32 lang;; out TU64 guid;; out TU32 0;;
           out_string (_name c);; out TU64 guid;; out TU32 (u32 (zlen what + 1));;
           out_string what;;
           out TU8 (match FindPlayer guid with Some p => GetChatTag p | None => 0 end));
        p ← member guid;
        SendToAll data (if negb (IsModerator p) then guid else 0).

Definition Invite (player : Player) (newname : list Z) : CM unit :=
  member_only player (fun c =>
    let guid := GetGUID player in
    match FindPlayerByName newname with
    | None => tell guid (MakePlayerNotFound newname)
    | Some newp =>
        if negb (isGMVisible newp) then tell guid (MakePlayerNotFound newname)
        else if IsBanned (GetGUID newp) c then tell guid (MakePlayerInviteBanned newname)
        else if negb (GetTeam newp =? GetTeam player) &&
                negb CONFIG_ALLOW_TWO_SIDE_INTERACTION_CHANNEL
        then tell guid MakeInviteWrongFaction
        else if IsOn (GetGUID newp) c then tell guid (MakePlayerAlreadyMember (GetGUID newp))
        else
          when (negb (HasIgnore newp (GUID_LOPART guid))) (tell (GetGUID newp) (MakeInvite guid));;
          tell guid (MakePlayerInvited (GetName newp))
    end).

(** [Player::CleanupChannels], on this channel. *)
Definition CleanupChannel (player : Player) : CM unit :=
  LeftChannel player;;
  LeaveChannel player false.
End Channel.
