(* ===== verification/ChannelRuns.v ===== *)
(** * Runs of the channel operations

    What the senders of a channel do, and the effect of the operations on
    roles: they change the members and only send packets and statements. *)

From Stdlib Require Import Ascii String.
From S2P Require Import Prelude ByteBuffer Wire Packet Maps Guid Text Channel.

(** ** Flags of a member *)

Lemma has_flag_set flag state p m :
  in_width 8 (pi_flags p) -> in_width 8 m -> (Z.land flag m = 0 \/ flag = m) -> m <> 0 ->
  has_flag (pi_flags (pi_set flag state p)) m =
  if decide (flag = m) then state else has_flag (pi_flags p) m.
Proof.
  intros Hp Hm Hf Hm0. unfold has_flag, pi_set. cbn.
  assert (Hclear : forall x, Z.land (u8 (Z.land (pi_flags p) x)) m = Z.land (Z.land (pi_flags p) x) m).
  { intros x. apply Z.bits_inj'. intros i Hi. rewrite !Z.land_spec. destruct (decide (i < 8)).
    - by rewrite wrap_testbit, Z.land_spec by lia.
    - rewrite (in_width_high 8 m) by (done || lia). by rewrite !andb_false_r. }
  destruct (decide (flag = m)) as [->|Hne].
  - destruct state.
    + replace (Z.land (Z.lor (pi_flags p) m) m) with m; [by zbool|].
      apply Z.bits_inj'. intros i Hi. rewrite Z.land_spec, Z.lor_spec.
      by destruct (Z.testbit (pi_flags p) i), (Z.testbit m i).
    + rewrite Hclear. replace (Z.land (Z.land (pi_flags p) (Z.lnot m)) m) with 0; [done|].
      rewrite <- Z.land_assoc, (Z.land_comm (Z.lnot m)), Z.land_lnot_diag. by rewrite Z.land_0_r.
  - destruct Hf as [Hf|]; [|done]. destruct state.
    + by rewrite Z.land_lor_distr_l, Hf, Z.lor_0_r.
    + rewrite Hclear. do 2 f_equal. rewrite <- Z.land_assoc. f_equal.
      apply Z.bits_inj'. intros i Hi. rewrite Z.land_spec, Z.lnot_spec by done.
      apply (f_equal (fun z => Z.testbit z i)) in Hf. rewrite Z.land_spec, Z.bits_0 in Hf.
      by destruct (Z.testbit flag i), (Z.testbit m i).
Qed.

Lemma pi_set_width flag state p :
  in_width 8 flag -> in_width 8 (pi_flags p) -> in_width 8 (pi_flags (pi_set flag state p)).
Proof.
  intros Hf Hp. unfold pi_set. cbn. destruct state; [by apply in_width_lor|apply wrap_range; lia].
Qed.

Definition member_ok (p : PlayerInfo) : Prop := in_width 8 (pi_flags p).

Ltac flag_set := intros Hp; unfold IsOwner, IsModerator, IsMuted, pi_SetOwner, pi_SetModerator, pi_SetMuted;
  rewrite has_flag_set; [reflexivity|exact Hp|unfold in_width, MEMBER_FLAG_OWNER, MEMBER_FLAG_MODERATOR,
   MEMBER_FLAG_MUTED; lia|auto|discriminate].

Lemma IsOwner_SetOwner b p : member_ok p -> IsOwner (pi_SetOwner b p) = b.
Proof. flag_set. Qed.
Lemma IsOwner_SetModerator b p : member_ok p -> IsOwner (pi_SetModerator b p) = IsOwner p.
Proof. flag_set. Qed.
Lemma IsOwner_SetMuted b p : member_ok p -> IsOwner (pi_SetMuted b p) = IsOwner p.
Proof. flag_set. Qed.
Lemma IsModerator_SetOwner b p : member_ok p -> IsModerator (pi_SetOwner b p) = IsModerator p.
Proof. flag_set. Qed.
Lemma IsModerator_SetModerator b p : member_ok p -> IsModerator (pi_SetModerator b p) = b.
Proof. flag_set. Qed.
Lemma IsModerator_SetMuted b p : member_ok p -> IsModerator (pi_SetMuted b p) = IsModerator p.
Proof. flag_set. Qed.

Lemma member_ok_SetOwner b p : member_ok p -> member_ok (pi_SetOwner b p).
Proof. intros Hp. by apply pi_set_width. Qed.
Lemma member_ok_SetModerator b p : member_ok p -> member_ok (pi_SetModerator b p).
Proof. intros Hp. by apply pi_set_width. Qed.
Lemma member_ok_SetMuted b p : member_ok p -> member_ok (pi_SetMuted b p).
Proof. intros Hp. by apply pi_set_width. Qed.

#[export] Hint Resolve member_ok_SetOwner member_ok_SetModerator member_ok_SetMuted : core.
Create Rewrite HintDb roles.
#[export] Hint Rewrite IsOwner_SetOwner IsOwner_SetModerator IsOwner_SetMuted IsModerator_SetOwner
  IsModerator_SetModerator IsModerator_SetMuted using (eauto) : roles.

#[global] Arguments pi_SetOwner : simpl never.
#[global] Arguments pi_SetModerator : simpl never.
#[global] Arguments pi_SetMuted : simpl never.
#[global] Arguments IsOwner : simpl never.
#[global] Arguments IsModerator : simpl never.
#[global] Arguments IsMuted : simpl never.

Lemma IsOn_true g c : IsOn g c = true <-> is_Some (playersStore c !! g).
Proof. apply bool_decide_eq_true. Qed.

Lemma IsBanned_true g c : IsBanned g c = true <-> is_Some (bannedStore c !! g).
Proof. apply bool_decide_eq_true. Qed.

(** ** Sending *)

Definition say_more (l : list chan_output) (s : CState) : CState := s <| sent := sent s ++ l |>.

Lemma say_more_app l1 l2 s : say_more l2 (say_more l1 s) = say_more (l1 ++ l2) s.
Proof. unfold say_more. cbn. by rewrite app_assoc. Qed.

Lemma say_more_nil s : say_more [] s = s.
Proof. unfold say_more. rewrite app_nil_r. by destruct s. Qed.

(** [m] only sends. *)
Definition only_sends (m : CM unit) (s : CState) : Prop := exists l, m s = Ok tt (say_more l s).

Definition name_ok (n : list Z) : Prop := zlen n <= 1000000.

Definition notice (c : Channel) (t : Z) (rest : list Z) : list Z :=
  le_bytes 1 t ++ string_fmt (_name c) ++ rest.

Section Sending.
Context `{Host, Server}.

Definition deliver (who : Z) (p : WorldPacket) : list chan_output :=
  match FindPlayer who with Some _ => [SendPacket who p] | None => [] end.

Definition receives (guid k : Z) : bool :=
  match FindPlayer k with
  | Some p => (guid =? 0) || negb (HasIgnore p (GUID_LOPART guid))
  | None => false
  end.

Definition broadcast (c : Channel) (guid : Z) (p : WorldPacket) : list chan_output :=
  map (fun k => SendPacket k p) (List.filter (receives guid) (keys (playersStore c))).

Lemma build_run make op bs s :
  makes (make (chan s)) op bs -> zlen bs <= 10000000 -> build make s = Ok (packet_of op bs) s.
Proof.
  intros Hm Hlen. unfold build, build_on, channel. erewrite bind_run by done.
  erewrite bind_run; [|unfold on_local; rewrite Hm by done; reflexivity]. done.
Qed.

Lemma build_on_run data make op bs s :
  clean data -> makes (make (chan s)) op bs -> zlen bs <= 10000000 ->
  build_on data make s = Ok (packet_of op bs) s.
Proof.
  intros Hc Hm Hlen. unfold build_on, channel. erewrite bind_run by done.
  erewrite bind_run; [|unfold on_local; rewrite Hm by done; reflexivity]. done.
Qed.

Lemma new_packet_built opcode body bs s :
  body ByteBuffer_new = Ok tt (buffer (packet_of opcode bs)) ->
  new_packet opcode body s = Ok (packet_of opcode bs) s.
Proof. intros Hb. unfold new_packet, on_local, lift. run. by rewrite Hb. Qed.

Lemma new_packet_run opcode body bs s :
  writes body bs -> zlen bs <= 10000000 ->
  new_packet opcode body s = Ok (packet_of opcode bs) s.
Proof. intros Hw Hlen. apply new_packet_built. by apply Hw. Qed.

Lemma SendToOne_run p who s : SendToOne p who s = Ok tt (say_more (deliver who p) s).
Proof.
  unfold SendToOne, deliver. destruct (FindPlayer who); [done|]. by rewrite say_more_nil.
Qed.

Lemma for_each_emit (l : list Z) (body : Z -> CM unit) (out : Z -> list chan_output) s :
  (forall k s', k ∈ l -> body k s' = Ok tt (say_more (out k) s')) ->
  for_each l body s = Ok tt (say_more (concat (map out l)) s).
Proof.
  revert s. induction l as [|k l IH]; intros s Hb; cbn [for_each map concat].
  - by rewrite say_more_nil.
  - erewrite bind_run by (apply Hb; set_solver). rewrite IH.
    + by rewrite say_more_app.
    + intros j s' Hj. apply Hb. set_solver.
Qed.

Lemma concat_if {A B} (P : A -> bool) (g : A -> B) l :
  concat (map (fun k => if P k then [g k] else []) l) = map g (List.filter P l).
Proof. induction l as [|x l IH]; [done|]. cbn. rewrite IH. by destruct (P x). Qed.

Lemma SendToAll_run p guid s : SendToAll p guid s = Ok tt (say_more (broadcast (chan s) guid p) s).
Proof.
  unfold SendToAll, channel. erewrite bind_run by done. unfold broadcast.
  rewrite <- concat_if. apply for_each_emit. intros k s' _. unfold receives.
  destruct (FindPlayer k) as [q|]; [|by rewrite say_more_nil].
  destruct (_ || _); cbn [when]; [done|by rewrite say_more_nil].
Qed.

Definition broadcast_but (c : Channel) (who : Z) (p : WorldPacket) : list chan_output :=
  map (fun k => SendPacket k p)
    (List.filter (fun k => negb (k =? who) && receives 0 k) (keys (playersStore c))).

Lemma SendToAllButOne_run p who s :
  SendToAllButOne p who s = Ok tt (say_more (broadcast_but (chan s) who p) s).
Proof.
  unfold SendToAllButOne, channel. erewrite bind_run by done. unfold broadcast_but.
  rewrite <- concat_if. apply for_each_emit. intros k s' _. unfold receives.
  destruct (k =? who); cbn [negb andb]; [by rewrite say_more_nil|].
  destruct (FindPlayer k) as [q|]; [done|by rewrite say_more_nil].
Qed.

Lemma tell_run who make op bs s :
  makes (make (chan s)) op bs -> zlen bs <= 10000000 ->
  tell who make s = Ok tt (say_more (deliver who (packet_of op bs)) s).
Proof.
  intros Hm Hlen. unfold tell. erewrite bind_run by by apply build_run. apply SendToOne_run.
Qed.

Lemma tell_all_run make op bs s :
  makes (make (chan s)) op bs -> zlen bs <= 10000000 ->
  tell_all make s = Ok tt (say_more (broadcast (chan s) 0 (packet_of op bs)) s).
Proof.
  intros Hm Hlen. unfold tell_all. erewrite bind_run by by apply build_run. apply SendToAll_run.
Qed.

(** *** The notices *)

Lemma MakeNotifyPacket_makes c t :
  makes (MakeNotifyPacket c t) SMSG_CHANNEL_NOTIFY (notice c t []).
Proof.
  unfold notice. rewrite app_nil_r. change (le_bytes 1 t) with (scalar_fmt TU8 t).
  unfold MakeNotifyPacket. intros Hlen p Hp.
  pose proof (makes_initialize SMSG_CHANNEL_NOTIFY (1 + zlen (_name c))
    (out TU8 t;; out_string (_name c)) _ (writes_bind _ _ _ _ (writes_out TU8 t)
    (writes_out_string (_name c))) Hlen p Hp) as Hm.
  rewrite <- Hm. unfold mbind, M_bind. destruct (Initialize _ _ p) as [? p'| |]; [|done|done].
  unfold lift. destruct (out TU8 t (buffer p')); done.
Qed.

Lemma notice_more c t rest m bs op :
  makes m op (notice c t rest) -> forall w, writes w bs -> makes (m;; lift w) op (notice c t (rest ++ bs)).
Proof.
  intros Hm w Hw. unfold notice. rewrite !app_assoc. rewrite <- (app_assoc _ (string_fmt _)).
  by apply makes_more.
Qed.

Lemma makes_assoc (m1 m2 m3 : PK unit) op bs :
  makes ((m1;; m2);; m3) op bs -> makes (m1;; m2;; m3) op bs.
Proof.
  intros Hm Hlen p Hp. rewrite <- (Hm Hlen p Hp). unfold mbind, M_bind. by destruct (m1 p).
Qed.

Lemma notify0_makes t c : makes (notify0 t c) SMSG_CHANNEL_NOTIFY (notice c t []).
Proof. apply MakeNotifyPacket_makes. Qed.

Lemma notify1_makes t g c : makes (notify1 t g c) SMSG_CHANNEL_NOTIFY (notice c t (le_bytes 8 g)).
Proof. apply (notice_more c t []); [apply MakeNotifyPacket_makes|apply writes_out]. Qed.

Lemma notify2_makes t bad good c :
  makes (notify2 t bad good c) SMSG_CHANNEL_NOTIFY (notice c t (le_bytes 8 bad ++ le_bytes 8 good)).
Proof.
  apply makes_assoc, notice_more; [apply notify1_makes|apply writes_out].
Qed.

Lemma notify_name_makes t name c :
  makes (notify_name t name c) SMSG_CHANNEL_NOTIFY (notice c t (string_fmt name)).
Proof. apply (notice_more c t []); [apply MakeNotifyPacket_makes|apply writes_out_string]. Qed.

Lemma MakeYouJoined_makes c :
  makes (MakeYouJoined c) SMSG_CHANNEL_NOTIFY
    (notice c CHAT_YOU_JOINED_NOTICE ((le_bytes 1 (_flags c) ++ le_bytes 4 (_channelId c)) ++ le_bytes 4 0)).
Proof.
  apply makes_assoc, makes_assoc, notice_more; [|apply (writes_out TU32)].
  apply notice_more; [|apply (writes_out TU32)].
  apply (notice_more c _ []); [apply MakeNotifyPacket_makes|apply (writes_out TU8)].
Qed.

Lemma MakeYouLeft_makes c :
  makes (MakeYouLeft c) SMSG_CHANNEL_NOTIFY
    (notice c CHAT_YOU_LEFT_NOTICE (le_bytes 4 (_channelId c) ++ le_bytes 1 (Z.b2z (IsConstant c)))).
Proof.
  apply makes_assoc, notice_more; [|apply (writes_out TU8)].
  apply (notice_more c _ []); [apply MakeNotifyPacket_makes|apply (writes_out TU32)].
Qed.

Lemma MakeModeChange_makes g old c :
  makes (MakeModeChange g old c) SMSG_CHANNEL_NOTIFY
    (notice c CHAT_MODE_CHANGE_NOTICE ((le_bytes 8 g ++ le_bytes 1 old) ++ le_bytes 1 (GetPlayerFlags g c))).
Proof.
  apply makes_assoc, makes_assoc, notice_more; [|apply (writes_out TU8)].
  apply notice_more; [|apply (writes_out TU8)].
  apply (notice_more c _ []); [apply MakeNotifyPacket_makes|apply (writes_out TU64)].
Qed.

(** The name shown as the owner of a channel. *)
Definition owner_text (c : Channel) : list Z :=
  if IsConstant c || (_ownerGUID c =? 0) then chars "Nobody"
  else match GetPlayerNameByGUID (_ownerGUID c) with
       | Some ((_ :: _) as n) => n
       | _ => chars "PLAYER_NOT_FOUND"
       end.

Lemma MakeChannelOwner_makes c :
  makes (MakeChannelOwner c) SMSG_CHANNEL_NOTIFY
    (notice c CHAT_CHANNEL_OWNER_NOTICE (string_fmt (owner_text c))).
Proof. apply (notice_more c _ []); [apply MakeNotifyPacket_makes|apply writes_out_string]. Qed.

(** A notice that can be made and fits a packet. *)
Definition short (make : Channel -> PK unit) (c : Channel) : Prop :=
  exists bs, makes (make c) SMSG_CHANNEL_NOTIFY bs /\ zlen bs <= 10000000.

Lemma zlen_notice c t rest : zlen (notice c t rest) = 2 + zlen (_name c) + zlen rest.
Proof. unfold notice, string_fmt. rewrite !zlen_app, zlen_le_bytes, zlen_cons, zlen_nil. lia. Qed.

Lemma short_notice make c t rest :
  name_ok (_name c) -> zlen rest <= 8000000 ->
  makes (make c) SMSG_CHANNEL_NOTIFY (notice c t rest) -> short make c.
Proof.
  intros Hn Hr Hm. exists (notice c t rest). split; [done|].
  rewrite zlen_notice. unfold name_ok in Hn. lia.
Qed.
End Sending.

Section Short.
Context `{Host, Server}.
Variable c : Channel.
Hypothesis Hname : name_ok (_name c).
#[local] Set Default Proof Using "All".

Lemma short0 t : short (notify0 t) c.
Proof. eapply short_notice; [done| |apply notify0_makes]. done. Qed.
Lemma short1 t g : short (notify1 t g) c.
Proof. eapply short_notice; [done| |apply notify1_makes]. done. Qed.
Lemma short2 t bad good : short (notify2 t bad good) c.
Proof. eapply short_notice; [done| |apply notify2_makes]. done. Qed.
Lemma short_name t name : name_ok name -> short (notify_name t name) c.
Proof.
  intros Hn. eapply short_notice; [done| |apply notify_name_makes].
  unfold string_fmt, name_ok in *. rewrite zlen_app, zlen_cons, zlen_nil. lia.
Qed.
Lemma short_YouJoined : short MakeYouJoined c.
Proof. eapply short_notice; [done| |apply MakeYouJoined_makes]. done. Qed.
Lemma short_YouLeft : short MakeYouLeft c.
Proof. eapply short_notice; [done| |apply MakeYouLeft_makes]. done. Qed.
Lemma short_ModeChange g old : short (MakeModeChange g old) c.
Proof. eapply short_notice; [done| |apply MakeModeChange_makes]. done. Qed.
Lemma short_ChannelOwner : name_ok (owner_text c) -> short MakeChannelOwner c.
Proof.
  intros Hn. eapply short_notice; [done| |apply MakeChannelOwner_makes].
  unfold string_fmt, name_ok in *. rewrite zlen_app, zlen_cons, zlen_nil. lia.
Qed.
End Short.

Create HintDb short discriminated.
#[export] Hint Resolve short0 short1 short2 short_name short_YouJoined short_YouLeft short_ModeChange
  short_ChannelOwner : short.
#[export] Hint Unfold MakeJoined MakeLeft MakeWrongPassword MakeNotMember MakeNotModerator
  MakePasswordChanged MakeOwnerChanged MakePlayerNotFound MakeNotOwner MakeAnnouncementsOn
  MakeAnnouncementsOff MakeMuted MakePlayerKicked MakeBanned MakePlayerBanned MakePlayerUnbanned
  MakePlayerNotBanned MakePlayerAlreadyMember MakeInvite MakeInviteWrongFaction MakePlayerInvited
  MakePlayerInviteBanned MakeNotInLfg : short.

(** ** Sending, seen from the members

    A sender leaves the channel and the players' lists alone. *)

Section Senders.
Context `{Host, Server}.

Lemma tell_sends who make s : short make (chan s) -> only_sends (tell who make) s.
Proof. intros (bs & Hm & Hlen). eexists. by eapply tell_run. Qed.

Lemma tell_all_sends make s : short make (chan s) -> only_sends (tell_all make) s.
Proof. intros (bs & Hm & Hlen). eexists. by eapply tell_all_run. Qed.

Lemma ret_sends s : only_sends (mret tt) s.
Proof. exists []. by rewrite say_more_nil. Qed.

Lemma emit_sends o s : only_sends (emit o) s.
Proof. by exists [o]. Qed.

Lemma when_sends (b : bool) m s : only_sends m s -> only_sends (when b m) s.
Proof. intros Hm. destruct b; [done|apply ret_sends]. Qed.

Lemma bind_sends m1 m2 s :
  only_sends m1 s -> (forall l, only_sends m2 (say_more l s)) -> only_sends (m1;; m2) s.
Proof.
  intros [l1 H1] H2. destruct (H2 l1) as [l2 Hl2]. exists (l1 ++ l2).
  erewrite bind_run by exact H1. by rewrite Hl2, say_more_app.
Qed.

Lemma UpdateChannelInDB_sends s : only_sends UpdateChannelInDB s.
Proof.
  destruct (when_sends (_IsSaved (chan s)) _ s (emit_sends
    (CHAR_UPD_CHANNEL (_announce (chan s)) (_ownership (chan s)) (_password (chan s))
       (concat (map (fun g => dec g ++ chars " ") (keys (bannedStore (chan s)))))
       (_name (chan s)) (_Team (chan s))) s)) as [l Hl].
  by exists l.
Qed.

Lemma UpdateChannelUseageInDB_sends s : only_sends UpdateChannelUseageInDB s.
Proof. by eexists. Qed.

Lemma JoinNotify_sends g s : name_ok (_name (chan s)) -> only_sends (JoinNotify g) s.
Proof.
  unfold name_ok. intros Hn. unfold only_sends, JoinNotify, channel. erewrite bind_run by done.
  erewrite bind_run.
  2: { apply new_packet_run; [eauto 10 with writes|]. unfold string_fmt, scalar_fmt.
       rewrite !zlen_app, !zlen_le_bytes, zlen_cons, zlen_nil. cbn. lia. }
  destruct (IsConstant (chan s)); eexists; [apply SendToAllButOne_run|apply SendToAll_run].
Qed.

Lemma LeaveNotify_sends g s : name_ok (_name (chan s)) -> only_sends (LeaveNotify g) s.
Proof.
  unfold name_ok. intros Hn. unfold only_sends, LeaveNotify, channel. erewrite bind_run by done.
  erewrite bind_run.
  2: { apply new_packet_run; [eauto 10 with writes|]. unfold string_fmt, scalar_fmt.
       rewrite !zlen_app, !zlen_le_bytes, zlen_cons, zlen_nil. cbn. lia. }
  destruct (IsConstant (chan s)); eexists; [apply SendToAllButOne_run|apply SendToAll_run].
Qed.

(** Reasoning about a sender that is followed by something. *)
Lemma wp_sends {m : CM unit} Q (X : ByteBufferException -> CState -> Prop) s :
  only_sends m s -> (forall l, Q tt (say_more l s)) -> wp m Q X s.
Proof. intros [l Hl] HQ. unfold wp. rewrite Hl. apply HQ. Qed.
End Senders.

#[export] Hint Resolve tell_sends tell_all_sends ret_sends emit_sends when_sends
  UpdateChannelInDB_sends UpdateChannelUseageInDB_sends JoinNotify_sends LeaveNotify_sends : short.
