(* ===== verification/ChannelInv.v ===== *)
(** * The invariant of a channel

    Who is a member, who owns the channel, who is kept out, and that every
    operation of [Channel] keeps this. *)

From Stdlib Require Import Ascii String.
From S2P Require Import Prelude ByteBuffer Wire Packet Maps Guid Text Channel ChannelRuns.

(** ** The invariant *)

(** The GUIDs of players: the high part is 0 ([HIGHGUID_PLAYER]). *)
Definition player_guid (g : Z) : Prop := 0 < g < 2 ^ 32.

Lemma player_nonzero g : player_guid g -> g <> 0.
Proof. unfold player_guid. lia. Qed.

Definition entry_ok (owner : Z) (g : Z) (p : PlayerInfo) : Prop :=
  player_guid g /\ pi_player p = g /\ member_ok p /\
  (IsOwner p = true -> g = owner /\ IsModerator p = true).

Definition members_ok (c : Channel) : Prop :=
  forall g p, playersStore c !! g = Some p -> entry_ok (_ownerGUID c) g p.

(** Banned and not on the channel. *)
Definition barred (v : Z) (c : Channel) : Prop := IsBanned v c = true /\ IsOn v c = false.

(** The players of [out] are barred; the players that have the channel in their
    list are its members, and have it there once. *)
Record chan_inv (out : Z -> Prop) (s : CState) : Prop := {
  inv_name : name_ok (_name (chan s));
  inv_members : members_ok (chan s);
  inv_lists : forall g, g ∈ m_channels s <-> is_Some (playersStore (chan s) !! g);
  inv_barred : forall v, out v -> barred v (chan s);
  inv_once : NoDup (m_channels s)
}.

Lemma chan_inv_say out l s : chan_inv out s -> chan_inv out (say_more l s).
Proof. intros [H1 H2 H3 H4 H5]. by split. Qed.

(** Changes of other fields. *)
Lemma chan_inv_same out s s' :
  chan_inv out s -> m_channels s' = m_channels s ->
  _name (chan s') = _name (chan s) -> playersStore (chan s') = playersStore (chan s) ->
  _ownerGUID (chan s') = _ownerGUID (chan s) ->
  (forall v, out v -> IsBanned v (chan s') = true) -> chan_inv out s'.
Proof.
  intros [H1 H2 H3 H4 H5] Hm Hn Hp Ho Hb. split.
  - by rewrite Hn.
  - intros g p. rewrite Hp, Ho. apply H2.
  - intros g. by rewrite Hm, Hp.
  - intros v Hv. split; [by apply Hb|]. unfold IsOn. rewrite Hp. by apply (H4 v Hv).
  - by rewrite Hm.
Qed.

Lemma IsOn_false g c : IsOn g c = false <-> playersStore c !! g = None.
Proof. unfold IsOn. rewrite bool_decide_eq_false. by rewrite <- eq_None_not_Some. Qed.

(** A member's entry is replaced. *)
Lemma chan_inv_entry out s g p p' :
  chan_inv out s -> playersStore (chan s) !! g = Some p ->
  entry_ok (_ownerGUID (chan s)) g p' ->
  chan_inv out (s <| chan := (chan s) <| playersStore := <[g := p']> (playersStore (chan s)) |> |>).
Proof.
  intros [H1 H2 H3 H4 H5] Hg Hp'. split; cbn; [| | | |done].
  - done.
  - intros j q. cbn. intros [[<- <-]|[_ Hj]]%lookup_insert_Some; [done|by apply H2].
  - intros j. rewrite H3. destruct (decide (j = g)) as [->|].
    + rewrite lookup_insert_eq, Hg. split; eauto.
    + by rewrite lookup_insert_ne.
  - intros v Hv. destruct (H4 v Hv) as [Hb Ho]. split; [done|]. apply IsOn_false. cbn.
    apply IsOn_false in Ho. rewrite lookup_insert_ne; [done|]. intros ->. congruence.
Qed.

(** A player leaves. *)
Definition gone (g : Z) (s : CState) : CState :=
  s <| m_channels ::= filter (fun x => x <> g) |> <| chan := (chan s) <| playersStore ::= delete g |> |>.

Lemma chan_inv_gone out g s : chan_inv out s -> chan_inv out (gone g s).
Proof.
  intros [H1 H2 H3 H4 H5]. split; cbn; [| | | |by apply NoDup_filter].
  - done.
  - intros j q. cbn. intros [_ Hj]%lookup_delete_Some. by apply H2.
  - intros j. rewrite list_elem_of_filter, H3. rewrite lookup_delete_is_Some. naive_solver.
  - intros v Hv. destruct (H4 v Hv) as [Hb Ho]. split; [done|]. apply IsOn_false. cbn.
    apply IsOn_false in Ho. rewrite lookup_delete_None. auto.
Qed.

(** A player joins. *)
Definition come (g : Z) (s : CState) : CState :=
  s <| m_channels ::= fun l => l ++ [g] |>
    <| chan := (chan s) <| playersStore ::= <[g := mkPlayerInfo g MEMBER_FLAG_NONE]> |> |>.

Lemma chan_inv_come out g s :
  chan_inv out s -> player_guid g -> IsOn g (chan s) = false -> IsBanned g (chan s) = false ->
  chan_inv out (come g s).
Proof.
  intros [H1 H2 H3 H4 H5] Hg0 Hon Hban. split; cbn.
  - done.
  - intros j q. cbn. intros [[<- <-]|[_ Hj]]%lookup_insert_Some; [|by apply H2].
    split; [done|]. repeat split; discriminate.
  - intros j. rewrite elem_of_app, H3, list_elem_of_singleton, lookup_insert_is_Some'. naive_solver.
  - intros v Hv. destruct (H4 v Hv) as [Hb Ho]. split; [done|]. apply IsOn_false. cbn.
    apply IsOn_false in Ho. rewrite lookup_insert_ne; [done|]. intros ->. congruence.
  - apply NoDup_app. split; [done|]. split; [|apply NoDup_singleton].
    intros j Hj ->%list_elem_of_singleton. apply H3 in Hj as [p Hp]. apply IsOn_false in Hon. congruence.
Qed.

(** ** The owner *)

Definition unowned (c : Channel) : gmap Z PlayerInfo :=
  if _ownerGUID c =? 0 then playersStore c
  else match playersStore c !! _ownerGUID c with
       | Some p => <[_ownerGUID c := pi_SetOwner false p]> (playersStore c)
       | None => playersStore c
       end.

Definition owned (g : Z) (c : Channel) : Channel :=
  c <| playersStore := <[g := pi_SetOwner true (pi_SetModerator true
                                 (default PlayerInfo_zero (unowned c !! g)))]> (unowned c) |>
    <| _ownerGUID := g |>.

Lemma unowned_lookup g c : is_Some (unowned c !! g) <-> is_Some (playersStore c !! g).
Proof.
  unfold unowned. destruct (_ =? 0); [done|].
  destruct (playersStore c !! _ownerGUID c) eqn:Ho; [|done].
  rewrite lookup_insert_is_Some. split; [|destruct (decide (_ownerGUID c = g)); auto].
  intros [<-|[_ Hs]]; [by rewrite Ho|done].
Qed.

(** After the old owner's flag is cleared nobody is owner. *)
Lemma unowned_ok c g p :
  members_ok c -> unowned c !! g = Some p ->
  player_guid g /\ pi_player p = g /\ member_ok p /\ IsOwner p = false.
Proof.
  intros Hm. unfold unowned. destruct (Z.eqb_spec (_ownerGUID c) 0) as [H0|H0].
  - intros Hg. destruct (Hm g p Hg) as (? & ? & ? & Ho). split_and!; try done.
    destruct (IsOwner p); [|done]. destruct (Ho eq_refl). unfold player_guid in *. lia.
  - destruct (playersStore c !! _ownerGUID c) as [po|] eqn:Hpo.
    + destruct (Hm _ _ Hpo) as (? & Hid & Hok & _).
      intros [[<- <-]|[Hne Hg]]%lookup_insert_Some.
      * split_and!; try done; [by apply member_ok_SetOwner|]. by autorewrite with roles.
      * destruct (Hm g p Hg) as (? & ? & ? & Ho). split_and!; try done.
        destruct (IsOwner p); [|done]. destruct (Ho eq_refl). congruence.
    + intros Hg. destruct (Hm g p Hg) as (? & ? & ? & Ho). split_and!; try done.
      destruct (IsOwner p); [|done]. destruct (Ho eq_refl) as [-> _]. congruence.
Qed.

Lemma chan_inv_owned out g s :
  chan_inv out s -> is_Some (playersStore (chan s) !! g) ->
  chan_inv out (s <| chan := owned g (chan s) |>).
Proof.
  intros [H1 H2 H3 H4 H5] Hg. pose proof Hg as [p Hp]%unowned_lookup. split; cbn; [| | | |done].
  - done.
  - intros j q. cbn. rewrite Hp. cbn.
    intros [[<- <-]|[Hne Hj]]%lookup_insert_Some.
    + destruct (unowned_ok _ _ _ H2 Hp) as (? & ? & ? & ?).
      split; [done|]. split; [done|]. split; [auto|]. intros _. by autorewrite with roles.
    + destruct (unowned_ok _ _ _ H2 Hj) as (? & ? & ? & Hno).
      split; [done|]. split; [done|]. split; [done|]. by rewrite Hno.
  - intros j. rewrite H3, lookup_insert_is_Some, unowned_lookup.
    split; [destruct (decide (g = j)); auto|]. intros [<-|[_ ?]]; done.
  - intros v Hv. destruct (H4 v Hv) as [Hb Ho]. split; [done|]. apply IsOn_false. cbn.
    apply IsOn_false in Ho. destruct (unowned (chan s) !! v) as [q|] eqn:Hq.
    + assert (Hs : is_Some (unowned (chan s) !! v)) by eauto. apply unowned_lookup in Hs as [? ?]. congruence.
    + rewrite lookup_insert_ne; [done|]. intros ->. congruence.
Qed.

(** ** Runs *)

Lemma member_run g p s : playersStore (chan s) !! g = Some p -> member g s = Ok p s.
Proof. intros Hg. unfold member, channel. erewrite bind_run by done. by rewrite Hg. Qed.

Lemma update_member_run g f p s :
  playersStore (chan s) !! g = Some p ->
  update_member g f s
  = Ok tt (s <| chan := (chan s) <| playersStore := <[g := f p]> (playersStore (chan s)) |> |>).
Proof.
  intros Hg. unfold update_member. erewrite bind_run by by apply member_run. done.
Qed.

Section Operations.
Context `{Host, Server}.

Lemma SetOwner_guid_run g exclaim s :
  g <> 0 -> is_Some (playersStore (chan s) !! g) -> name_ok (_name (chan s)) ->
  exists l, SetOwner_guid g exclaim s = Ok tt (say_more l (s <| chan := owned g (chan s) |>)).
Proof.
  intros Hg0 Hg Hn. apply unowned_lookup in Hg as [p Hp].
  unfold SetOwner_guid, channel. erewrite bind_run by done.
  erewrite (bind_run (when _ _) _ _ tt
              (s <| chan := (chan s) <| playersStore := unowned (chan s) |> |>)).
  2: { unfold unowned. destruct (_ownerGUID (chan s) =? 0); cbn [negb when]; [by destruct s as [[]]|].
       destruct (playersStore (chan s) !! _); [done|by destruct s as [[]]]. }
  unfold set_channel. erewrite bind_run by done.
  rewrite (proj2 (Z.eqb_neq g 0)) by done. cbn [negb when].
  erewrite bind_run by done.
  set (old := GetPlayerFlags _ _).
  erewrite bind_run by (apply (update_member_run g _ p); exact Hp).
  erewrite bind_run by (eapply update_member_run; cbn; apply lookup_insert_eq).
  set (s1 := _ <| chan := _ |>).
  assert (Hs1 : s1 = s <| chan := owned g (chan s) |>).
  { unfold s1, owned. cbn. rewrite Hp. cbn. by rewrite insert_insert_eq. }
  rewrite Hs1. clear s1 Hs1. set (s1 := s <| chan := owned g (chan s) |>).
  assert (Hn1 : name_ok (_name (chan s1))) by done.
  destruct (short_ModeChange (chan s1) Hn1 g old) as (bs & Hbs & Hlen).
  erewrite bind_run by by apply build_run. erewrite bind_run by apply SendToAll_run.
  set (l1 := broadcast _ _ _). set (s2 := say_more l1 s1).
  assert (Hex : exists l2, when exclaim
    (data ← build_on (packet_of SMSG_CHANNEL_NOTIFY bs) (MakeOwnerChanged g); SendToAll data 0) s2
    = Ok tt (say_more l2 s2)).
  { destruct exclaim; [|by apply ret_sends]. cbn [when].
    destruct (short1 (chan s2) Hn1 CHAT_OWNER_CHANGED_NOTICE g) as (bs2 & Hbs2 & Hlen2).
    erewrite bind_run by (apply build_on_run; [apply clean_packet_of|exact Hbs2|done]).
    eexists. apply SendToAll_run. }
  destruct Hex as [l2 Hl2]. erewrite bind_run by exact Hl2.
  destruct (UpdateChannelInDB_sends (say_more l2 s2)) as [l3 Hl3]. rewrite Hl3.
  exists ((l1 ++ l2) ++ l3). unfold s2. by rewrite !say_more_app, ?app_assoc.
Qed.

Lemma change_mode_run has f g set p s :
  playersStore (chan s) !! g = Some p -> name_ok (_name (chan s)) ->
  exists l p', change_mode has f g set s
    = Ok tt (say_more l (s <| chan := (chan s) <| playersStore := <[g := p']> (playersStore (chan s)) |> |>)) /\
    p' = if eqb (has p) set then p else f set p.
Proof.
  intros Hg Hn. unfold change_mode. erewrite bind_run by by apply member_run.
  destruct (eqb (has p) set); cbn [negb when].
  - exists [], p. split; [|done]. rewrite insert_id, say_more_nil by done. by destruct s as [[]].
  - unfold channel. erewrite bind_run by done.
    erewrite bind_run by by apply update_member_run.
    set (s1 := s <| chan := _ |>). assert (Hn1 : name_ok (_name (chan s1))) by done.
    destruct (tell_all_sends (MakeModeChange g (GetPlayerFlags g (chan s))) s1
                (short_ModeChange _ Hn1 _ _)) as [l Hl].
    exists l, (f set p). split; [exact Hl|done].
Qed.

(** *** Preservation

    [keeps out m]: run where the invariant holds, [m] returns and it holds. *)

Definition keeps (out : Z -> Prop) (m : CM unit) : Prop :=
  forall s, chan_inv out s -> returns m (fun _ s' => chan_inv out s') s.

Lemma keeps_bind out m1 m2 : keeps out m1 -> keeps out m2 -> keeps out (m1;; m2).
Proof. intros H1 H2 s Hs. eapply returns_bind; [by apply H1|]. intros [] s' Hs'. by apply H2. Qed.

Lemma keeps_when out (b : bool) m : keeps out m -> keeps out (when b m).
Proof. intros Hm s Hs. destruct b; [by apply Hm|done]. Qed.

Lemma keeps_if out (b : bool) m1 m2 :
  (b = true -> keeps out m1) -> (b = false -> keeps out m2) -> keeps out (if b then m1 else m2).
Proof. destruct b; auto. Qed.

Lemma keeps_sends out m :
  (forall s, chan_inv out s -> only_sends m s) -> keeps out m.
Proof.
  intros Hm s Hs. destruct (Hm s Hs) as [l Hl].
  apply returns_Ok. do 2 eexists. split; [exact Hl|]. by apply chan_inv_say.
Qed.

Lemma keeps_tell out who make : (forall c, name_ok (_name c) -> short make c) -> keeps out (tell who make).
Proof. intros Hm. apply keeps_sends. intros s Hs. apply tell_sends, Hm, Hs. Qed.

Lemma keeps_tell_all out make : (forall c, name_ok (_name c) -> short make c) -> keeps out (tell_all make).
Proof. intros Hm. apply keeps_sends. intros s Hs. apply tell_all_sends, Hm, Hs. Qed.

Lemma keeps_update out : keeps out UpdateChannelInDB.
Proof. apply keeps_sends. intros s _. apply UpdateChannelInDB_sends. Qed.

Lemma keeps_usage out : keeps out UpdateChannelUseageInDB.
Proof. apply keeps_sends. intros s _. apply UpdateChannelUseageInDB_sends. Qed.

Lemma keeps_SetOwner_guid out g exclaim s :
  chan_inv out s -> is_Some (playersStore (chan s) !! g) ->
  returns (SetOwner_guid g exclaim)
    (fun _ s' => chan_inv out s' /\ is_Some (playersStore (chan s') !! g)) s.
Proof.
  intros Hs Hg. pose proof Hg as [p Hp]. destruct (inv_members _ _ Hs g p Hp) as (Hg0 & _).
  destruct (SetOwner_guid_run g exclaim s (player_nonzero g Hg0) Hg (inv_name _ _ Hs)) as [l Hl].
  apply returns_Ok. do 2 eexists. split; [exact Hl|].
  split; [by apply chan_inv_say, chan_inv_owned|]. cbn. rewrite lookup_insert_eq. eauto.
Qed.

(** The fields of an entry other than its roles stay. *)
Lemma entry_SetModerator owner g p : entry_ok owner g p -> entry_ok owner g (pi_SetModerator true p).
Proof.
  intros (H1 & H2 & H3 & H4). split; [done|]. split; [done|]. split; [auto|].
  autorewrite with roles. intros Ho. split; [|done]. by apply H4.
Qed.

Lemma keeps_promote out g s :
  chan_inv out s -> is_Some (playersStore (chan s) !! g) ->
  returns (update_member g (pi_SetModerator true))
    (fun _ s' => chan_inv out s' /\ is_Some (playersStore (chan s') !! g)) s.
Proof.
  intros Hs [p Hp]. apply returns_Ok. do 2 eexists. split; [by apply update_member_run|].
  split; [eapply chan_inv_entry; [done|done|]; apply entry_SetModerator; by apply (inv_members _ _ Hs)|].
  cbn. rewrite lookup_insert_eq. eauto.
Qed.

Lemma entry_change owner g p set (mod_ : bool) :
  entry_ok owner g p -> (mod_ = true -> set = false -> g <> owner) ->
  entry_ok owner g (if mod_ then pi_SetModerator set p else pi_SetMuted set p).
Proof.
  intros (H1 & H2 & H3 & H4) Hset. destruct mod_.
  - split; [done|]. split; [done|]. split; [auto|]. autorewrite with roles. intros Ho.
    split; [by apply H4|]. destruct set; [done|]. destruct (Hset eq_refl eq_refl). by apply H4.
  - split; [done|]. split; [done|]. split; [auto|]. by autorewrite with roles.
Qed.

Lemma keeps_change_mode out g (mod_ set : bool) s :
  chan_inv out s -> is_Some (playersStore (chan s) !! g) ->
  (mod_ = true -> set = false -> g <> _ownerGUID (chan s)) ->
  returns (if mod_ then SetModerator g set else SetMute g set) (fun _ s' => chan_inv out s') s.
Proof.
  intros Hs [p Hp] Hset. pose proof (inv_members _ _ Hs _ _ Hp) as Hok.
  pose proof (entry_change _ g p set mod_ Hok Hset) as Hok'.
  destruct mod_.
  - destruct (change_mode_run IsModerator pi_SetModerator g set p s Hp (inv_name _ _ Hs))
      as (l & p' & Hl & Hp').
    apply returns_Ok. do 2 eexists. split; [exact Hl|].
    apply chan_inv_say. eapply chan_inv_entry; [done|done|]. subst p'. by destruct (eqb _ _).
  - destruct (change_mode_run IsMuted pi_SetMuted g set p s Hp (inv_name _ _ Hs))
      as (l & p' & Hl & Hp').
    apply returns_Ok. do 2 eexists. split; [exact Hl|].
    apply chan_inv_say. eapply chan_inv_entry; [done|done|]. subst p'. by destruct (eqb _ _).
Qed.
End Operations.

#[export] Hint Resolve keeps_bind keeps_when keeps_tell keeps_tell_all keeps_update keeps_usage : short.
