(* ===== verification/ChannelOps.v ===== *)
(** * The operations keep the invariant of a channel *)

From Stdlib Require Import Ascii String.
From S2P Require Import Prelude ByteBuffer Wire Packet Maps Guid Text Channel ChannelRuns ChannelInv.

(** What the channels need of the server: bounded texts and GUIDs that are not
    zero. *)
Class ServerOk `{Server} : Prop := {
  server_players : forall p, p ∈ GetPlayers -> GetGUID p <> 0 /\ name_ok (GetName p);
  server_names : forall g n, GetPlayerNameByGUID g = Some n -> name_ok n;
  server_size : zlen GetPlayers <= 100000
}.

Lemma find_in {A} (P : A -> bool) l x : List.find P l = Some x -> x ∈ l /\ P x = true.
Proof. intros Hf. apply List.find_some in Hf as [Hin HP]. by rewrite list_elem_of_In. Qed.

Section Operations.
Context `{Host, Platform, Server, !ServerOk}.
#[local] Set Default Proof Using "All".

Lemma FindPlayerByName_ok n p :
  FindPlayerByName n = Some p -> GetGUID p <> 0 /\ name_ok (GetName p).
Proof. intros [Hin _]%find_in. by apply server_players. Qed.

Lemma FindPlayer_guid g p : FindPlayer g = Some p -> p ∈ GetPlayers /\ GetGUID p = g.
Proof.
  unfold FindPlayer. destruct (List.find _ _) as [q|] eqn:Hq; [|done].
  apply find_in in Hq as [Hin ?%Z.eqb_eq]. destruct (IsInWorld q); [|done]. by intros [= <-].
Qed.

Lemma owner_text_ok c : name_ok (owner_text c).
Proof.
  unfold owner_text. destruct (_ || _); [done|].
  destruct (GetPlayerNameByGUID _) as [[|x n]|] eqn:Hn; [done| |done]. by eapply server_names.
Qed.

Ltac keeps_notice := eauto with short; autounfold with short; eauto with short.

Lemma keeps_member_only out player body :
  (forall s, chan_inv out s -> is_Some (playersStore (chan s) !! GetGUID player) ->
             returns (body (chan s)) (fun _ s' => chan_inv out s') s) ->
  keeps out (member_only player body).
Proof.
  intros Hb s Hs. unfold member_only. apply wp_bind, wp_gets.
  destruct (IsOn (GetGUID player) (chan s)) eqn:Hon; cbn [negb].
  - apply Hb; [done|]. by apply IsOn_true.
  - apply keeps_tell; [|done]. intros c Hc. by apply short0.
Qed.

Lemma keeps_moderator_only out player body :
  (forall s, chan_inv out s -> is_Some (playersStore (chan s) !! GetGUID player) ->
             returns (body (chan s)) (fun _ s' => chan_inv out s') s) ->
  keeps out (moderator_only player body).
Proof.
  intros Hb. apply keeps_member_only. intros s Hs [p Hp]. apply wp_bind. unfold wp at 1.
  rewrite (member_run _ p) by done. apply wp_if; intros _.
  - apply keeps_tell; [|done]. intros c Hc. by apply short0.
  - apply wp_bind, wp_gets. apply Hb; [done|eauto].
Qed.

Lemma keeps_JoinChannel out player pass :
  player_guid (GetGUID player) -> keeps out (JoinChannel player pass).
Proof.
  intros Hg s Hs. unfold JoinChannel. apply wp_bind, wp_gets. cbv zeta.
  set (g := GetGUID player) in *.
  apply wp_if; intros Hon.
  { apply keeps_when; [|done]. apply keeps_tell. intros c Hc. by apply short1. }
  apply wp_if; intros Hban; [apply keeps_tell; [|done]; intros c Hc; by apply short0|].
  apply wp_if; intros _; [apply keeps_tell; [|done]; intros c Hc; by apply short0|].
  apply wp_if; intros _; [apply keeps_tell; [|done]; intros c Hc; by apply short0|].
  apply wp_bind, wp_modify. apply wp_bind.
  apply wp_sends.
  { apply when_sends, tell_all_sends. apply short1, Hs. }
  intros l. apply wp_bind, wp_modify.
  set (s1 := _ <| chan ::= _ |>).
  assert (Hs1 : chan_inv out s1 /\ is_Some (playersStore (chan s1) !! g)).
  { split; [|cbn; rewrite lookup_insert_eq; eauto].
    exact (chan_inv_say out l (come g s) (chan_inv_come out g s Hs Hg Hon Hban)). }
  clearbody s1. destruct Hs1 as [Hs1 Hg1].
  apply wp_bind, wp_sends; [apply tell_sends, short_YouJoined, Hs1|]. intros l1.
  apply wp_bind, wp_sends; [apply JoinNotify_sends; apply Hs1|]. intros l2.
  set (s2 := say_more l2 (say_more l1 s1)).
  assert (Hs2 : chan_inv out s2) by by apply chan_inv_say, chan_inv_say.
  apply wp_when; intros _; [|done]. apply wp_bind, wp_gets.
  apply wp_bind, wp_sends; [apply when_sends, UpdateChannelUseageInDB_sends|]. intros l3.
  apply wp_when; intros _; [|by apply chan_inv_say].
  eapply returns_bind; [apply (keeps_SetOwner_guid out g); [by apply chan_inv_say|exact Hg1]|].
  intros [] s3 [Hs3 Hg3]. eapply returns_mono; [by apply (keeps_promote out g)|]. by intros [] s4 [? _].
Qed.

(** Leaving, once the player's list is updated: [s0] is the state before. *)
Lemma keeps_leave out player exclaim s0 l :
  chan_inv out s0 -> is_Some (playersStore (chan s0) !! GetGUID player) ->
  returns
    (p ← member (GetGUID player);
     let changeowner := IsOwner p in
     set_channel (fun c => c <| playersStore ::= delete (GetGUID player) |>);;
     when (announces (chan s0) player) (tell_all (MakeLeft (GetGUID player)));;
     LeaveNotify (GetGUID player);;
     when (negb (IsConstant (chan s0)))
       (UpdateChannelUseageInDB;;
        c ← channel;
        when (changeowner && _ownership c)
          (match first_entry (playersStore c) with
           | Some (_, p) =>
               let newowner := pi_player p in
               update_member newowner (pi_SetModerator true);;
               SetOwner_guid newowner exclaim
           | None => mret tt
           end)))
    (fun _ s' => chan_inv out s')
    (say_more l (s0 <| m_channels ::= filter (fun x => x <> GetGUID player) |>)).
Proof.
  intros Hs0 [p Hp]. set (g := GetGUID player) in *.
  apply wp_bind. unfold wp at 1. rewrite (member_run _ p) by done. cbv zeta.
  apply wp_bind, wp_modify. set (s1 := _ <| chan ::= _ |>).
  assert (Hs1 : chan_inv out s1)
    by exact (chan_inv_say out l (gone g s0) (chan_inv_gone out g s0 Hs0)).
  clearbody s1.
  apply wp_bind, wp_sends; [apply when_sends, tell_all_sends, short1, Hs1|]. intros l1.
  apply wp_bind, wp_sends; [apply LeaveNotify_sends, Hs1|]. intros l2.
  apply wp_when; intros _; [|by apply chan_inv_say, chan_inv_say].
  apply wp_bind, wp_sends; [apply UpdateChannelUseageInDB_sends|]. intros l3.
  set (s2 := say_more l3 _).
  assert (Hs2 : chan_inv out s2) by by apply chan_inv_say, chan_inv_say, chan_inv_say.
  clearbody s2. apply wp_bind, wp_gets. apply wp_when; intros _; [|done].
  destruct (first_entry (playersStore (chan s2))) as [[k q]|] eqn:Hf; [|by apply wp_ret].
  apply first_entry_Some in Hf as [Hk _].
  destruct (inv_members _ _ Hs2 _ _ Hk) as (_ & Hid & _). rewrite Hid.
  eapply returns_bind; [apply (keeps_promote out k); [done|eauto]|].
  intros [] s3 [Hs3 Hk3]. eapply returns_mono; [by apply (keeps_SetOwner_guid out k)|].
  by intros [] s4 [? _].
Qed.

Lemma keeps_LeaveChannel out player : keeps out (LeaveChannel player true).
Proof.
  intros s Hs. unfold LeaveChannel. apply wp_bind, wp_gets. cbv zeta.
  destruct (IsOn (GetGUID player) (chan s)) eqn:Hon; cbn [negb when].
  - apply IsOn_true in Hon. apply wp_bind.
    apply wp_bind, wp_sends; [apply tell_sends, short_YouLeft, Hs|]. intros l. apply wp_modify.
    by apply (keeps_leave out player true s l).
  - apply keeps_tell; [|done]. intros c Hc. by apply short0.
Qed.

Lemma keeps_CleanupChannel out player : keeps out (CleanupChannel player).
Proof.
  intros s Hs. unfold CleanupChannel. apply wp_bind, wp_modify.
  set (s0 := _ <| m_channels ::= _ |>). unfold LeaveChannel. apply wp_bind, wp_gets. cbv zeta.
  destruct (IsOn (GetGUID player) (chan s0)) eqn:Hon; cbn [negb when].
  - apply IsOn_true in Hon. apply wp_bind, wp_ret.
    pose proof (keeps_leave out player true s [] Hs Hon) as Hk.
    rewrite say_more_nil in Hk. exact Hk.
  - apply wp_ret. apply IsOn_false in Hon. cbn in Hon.
    destruct Hs as [H1' H2' H3' H4' H5']. split; [done|done| |done|by apply NoDup_filter].
    intros g. cbn. rewrite list_elem_of_filter, <- H3'. split; [by intros [_ ?]|].
    intros Hin. split; [|done]. intros ->. apply H3' in Hin as [? ?]. congruence.
Qed.

Lemma keeps_notice0 out who t : keeps out (tell who (notify0 t)).
Proof. apply keeps_tell. intros c Hc. by apply short0. Qed.
Lemma keeps_notice1 out who t g : keeps out (tell who (notify1 t g)).
Proof. apply keeps_tell. intros c Hc. by apply short1. Qed.
Lemma keeps_notice_name out who t n : name_ok n -> keeps out (tell who (notify_name t n)).
Proof. intros Hn. apply keeps_tell. intros c Hc. by apply short_name. Qed.

Definition resolves (name : list Z) (v : Z) : Prop :=
  exists p, FindPlayerByName name = Some p /\ GetGUID p = v.

Lemma keeps_KickOrBan out player badname ban :
  name_ok badname -> ~ resolves badname (GetGUID player) ->
  keeps out (KickOrBan player badname ban).
Proof.
  intros Hn Hself. apply keeps_moderator_only. intros s Hs Hgood. cbv zeta.
  set (good := GetGUID player) in *.
  destruct (FindPlayerByName badname) as [bad|] eqn:Hbad; [|by apply keeps_notice_name].
  apply wp_if; intros Hc; [by apply keeps_notice_name|]. zprop.
  apply wp_if; intros _; [by apply keeps_notice0|].
  set (victim := GetGUID bad) in *.
  assert (Hne : victim <> good) by (intros Heq; apply Hself; by exists bad).
  apply wp_bind. eapply (returns_mono _ (fun _ s' => chan_inv out s' /\ playersStore (chan s') = playersStore (chan s))).
  { apply wp_if; intros _.
    - apply wp_bind, wp_modify. apply wp_bind, wp_sends; [apply UpdateChannelInDB_sends|]. intros l.
      set (s1 := say_more l _).
      assert (Hs1 : chan_inv out s1).
      { apply chan_inv_say. eapply (chan_inv_same out s); [done..|]. intros v Hv. apply IsBanned_true.
        cbn. apply lookup_insert_is_Some'. right. apply IsBanned_true. by apply (inv_barred _ _ Hs). }
      apply wp_sends; [apply when_sends, tell_all_sends, short2, Hs1|]. intros l1.
      split; [by apply chan_inv_say|done].
    - apply wp_sends; [apply when_sends, tell_all_sends, short2, Hs|]. intros l1.
      split; [by apply chan_inv_say|done]. }
  intros [] s1 [Hs1 Hstore]. apply wp_bind, wp_modify. apply wp_bind, wp_modify.
  set (s2 := _ <| m_channels ::= _ |>).
  assert (Hs2 : chan_inv out s2 /\ is_Some (playersStore (chan s2) !! good)).
  { split; [exact (chan_inv_gone out victim s1 Hs1)|]. cbn.
    rewrite lookup_delete_ne by done. by rewrite Hstore. }
  destruct Hs2 as [Hs2 Hg2]. clearbody s2. apply wp_bind, wp_gets.
  apply wp_when; intros _; [|done].
  eapply returns_bind; [by apply (keeps_promote out good)|].
  intros [] s3 [Hs3 Hk3]. eapply returns_mono; [by apply (keeps_SetOwner_guid out good)|].
  by intros [] s4 [? _].
Qed.

Lemma keeps_UnBan out player badname :
  name_ok badname -> (forall v, out v -> ~ resolves badname v) -> keeps out (UnBan player badname).
Proof.
  intros Hn Hout. apply keeps_moderator_only. intros s Hs _. cbv zeta.
  destruct (FindPlayerByName badname) as [bad|] eqn:Hbad; [|by apply keeps_notice_name].
  apply wp_if; intros Hc; [by apply keeps_notice_name|].
  apply wp_bind, wp_modify. set (s1 := _ <| chan ::= _ |>).
  assert (Hs1 : chan_inv out s1).
  { eapply (chan_inv_same out s); [done..|]. intros v Hv. apply IsBanned_true. cbn.
    rewrite lookup_delete_ne; [by apply IsBanned_true, (inv_barred _ _ Hs)|].
    intros Heq. apply (Hout v Hv). exists bad. done. }
  clearbody s1. apply wp_bind, wp_sends; [apply tell_all_sends, short2, Hs1|]. intros l.
  apply wp_sends; [apply UpdateChannelInDB_sends|]. intros l1. by apply chan_inv_say, chan_inv_say.
Qed.

Lemma keeps_Password out player pass : keeps out (Password player pass).
Proof.
  apply keeps_moderator_only. intros s Hs _.
  apply wp_bind, wp_modify. set (s1 := _ <| chan ::= _ |>).
  assert (Hs1 : chan_inv out s1)
    by (eapply (chan_inv_same out s); [done..|]; intros v Hv; by apply (inv_barred _ _ Hs)).
  clearbody s1. apply wp_bind, wp_sends; [apply tell_all_sends, short1, Hs1|]. intros l.
  apply wp_sends; [apply UpdateChannelInDB_sends|]. intros l1. by apply chan_inv_say, chan_inv_say.
Qed.

Lemma keeps_Announce out player : keeps out (Announce player).
Proof.
  apply keeps_moderator_only. intros s Hs _.
  apply wp_bind, wp_modify. set (s1 := _ <| chan ::= _ |>).
  assert (Hs1 : chan_inv out s1)
    by (eapply (chan_inv_same out s); [done..|]; intros v Hv; by apply (inv_barred _ _ Hs)).
  clearbody s1. apply wp_bind, wp_sends.
  { apply tell_all_sends. destruct (_announce _); apply short1, Hs1. }
  intros l. apply wp_sends; [apply UpdateChannelInDB_sends|]. intros l1.
  by apply chan_inv_say, chan_inv_say.
Qed.

Lemma keeps_SetMode out player p2n mod_ set :
  name_ok p2n -> (resolves p2n (GetGUID player) -> p2n = GetName player) ->
  keeps out (SetMode player p2n mod_ set).
Proof.
  intros Hn Hcanon. apply keeps_moderator_only. intros s Hs _. cbv zeta.
  apply wp_if; intros Hown; [done|].
  destruct (FindPlayerByName p2n) as [newp|] eqn:Hnew; [|by apply keeps_notice_name].
  apply wp_if; intros Hc; [by apply keeps_notice_name|]. zprop.
  apply wp_if; intros Hno; [by apply keeps_notice0|].
  apply keeps_change_mode; [done| |].
  - by apply IsOn_true.
  - intros -> -> Heq. rewrite Heq in Hno. rewrite Z.eqb_refl in Hno. cbn in Hno. zprop.
    rewrite <- Heq in Hno. rewrite Hno in Heq.
    assert (Hp : p2n = GetName player).
    { apply Hcanon. exists newp. split; [done|]. by rewrite Hno. }
    rewrite Hp, bool_decide_eq_true_2 in Hown by done. rewrite <- Heq in Hown.
    by rewrite Z.eqb_refl in Hown.
Qed.

Lemma keeps_SetOwner out player newname : name_ok newname -> keeps out (SetOwner player newname).
Proof.
  intros Hn. apply keeps_member_only. intros s Hs _. cbv zeta.
  apply wp_if; intros _; [by apply keeps_notice0|].
  destruct (FindPlayerByName newname) as [newp|] eqn:Hnew; [|by apply keeps_notice_name].
  apply wp_if; intros Hc; [by apply keeps_notice_name|]. zprop.
  match goal with Hi : IsOn _ _ = true |- _ => apply IsOn_true in Hi; rename Hi into Hon end.
  eapply returns_bind; [by apply (keeps_promote out)|].
  intros [] s3 [Hs3 Hk3]. eapply returns_mono; [by apply (keeps_SetOwner_guid out)|].
  by intros [] s4 [? _].
Qed.

Lemma keeps_SendWhoOwner out guid : keeps out (SendWhoOwner guid).
Proof.
  intros s Hs. unfold SendWhoOwner. apply wp_bind, wp_gets.
  apply wp_sends; [|intros l; by apply chan_inv_say]. apply tell_sends.
  destruct (IsOn guid (chan s)).
  - apply short_ChannelOwner; [apply Hs|apply owner_text_ok].
  - apply short0, Hs.
Qed.

Lemma keeps_Invite out player newname : name_ok newname -> keeps out (Invite player newname).
Proof.
  intros Hn. apply keeps_member_only. intros s Hs _. cbv zeta.
  destruct (FindPlayerByName newname) as [newp|] eqn:Hnew; [|by apply keeps_notice_name].
  repeat (apply wp_if; intros _; [by apply keeps_notice_name || by apply keeps_notice0
                                  || by apply keeps_notice1|]).
  eapply returns_bind; [by apply (keeps_when out), Hs; apply keeps_notice1|].
  intros [] s1 Hs1. apply keeps_notice_name; [|done]. by apply (FindPlayerByName_ok newname).
Qed.

Lemma keeps_Say out guid what lang : name_ok what -> keeps out (Say guid what lang).
Proof.
  intros Hw s Hs. unfold Say. apply wp_if; intros _; [done|]. cbv zeta.
  apply wp_bind, wp_gets. destruct (IsOn guid (chan s)) eqn:Hon; cbn [negb]; [|by apply keeps_notice0].
  apply IsOn_true in Hon as [p Hp].
  apply wp_bind. unfold wp at 1. rewrite (member_run _ p) by done.
  apply wp_if; intros _; [by apply keeps_notice0|].
  pose proof (inv_name _ _ Hs) as Hname. unfold name_ok in *.
  apply wp_bind. unfold wp at 1. erewrite new_packet_run; [|eauto 20 with writes|].
  2: { unfold string_fmt, scalar_fmt. rewrite !zlen_app, !zlen_le_bytes, !zlen_cons, !zlen_nil. cbn. lia. }
  apply wp_bind. unfold wp at 1. rewrite (member_run _ p) by done.
  unfold wp. rewrite SendToAll_run. by apply chan_inv_say.
Qed.

(** *** The list of members *)

Definition shown_members (player : Player) (c : Channel) : list Z :=
  List.filter (listed player) (keys (playersStore c)).

Definition shown_fmt (c : Channel) (k : Z) : list Z :=
  scalar_fmt TU64 k ++ scalar_fmt TU8 (GetPlayerFlags k c).

(** The loop writes the members shown, and returns how many they are. *)
Lemma List_loop_eq player c l count b :
  0 <= count -> count + zlen (List.filter (listed player) l) < 2 ^ 32 ->
  List_loop player c l count b =
  (for_each (List.filter (listed player) l) (fun k => out TU64 k;; out TU8 (GetPlayerFlags k c));;
   mret (count + zlen (List.filter (listed player) l))) b.
Proof.
  revert count b. induction l as [|k l IH]; intros count b Hc Hl.
  - cbn. by rewrite zlen_nil, Z.add_0_r.
  - cbn [List_loop List.filter] in *. destruct (listed player k); [|by apply IH].
    rewrite zlen_cons in *. zlen_pos. no_wrap. cbn [for_each]. unfold mbind, M_bind.
    destruct (out TU64 k b) as [? b1| |]; [|done|done].
    destruct (out TU8 _ b1) as [? b2| |]; [|done|done].
    rewrite IH by lia. unfold mbind, M_bind. destruct (for_each _ _ b2); [|done|done].
    unfold mret, M_ret. f_equal. lia.
Qed.

(** No more members are shown than there are players on the server. *)
Lemma shown_size player c : zlen (shown_members player c) <= 100000.
Proof.
  etransitivity; [|exact server_size]. unfold zlen. apply Nat2Z.inj_le.
  rewrite <- (length_fmap GetGUID GetPlayers).
  apply submseteq_length, NoDup_submseteq.
  - unfold shown_members. pose proof (NoDup_keys (playersStore c)) as Hnd.
    apply NoDup_ListNoDup in Hnd. apply NoDup_ListNoDup. by apply List.NoDup_filter.
  - intros k Hk. unfold shown_members in Hk.
    apply list_elem_of_In, List.filter_In in Hk as [_ Hk]. unfold listed in Hk.
    destruct (FindPlayer k) as [p|] eqn:Hp; [|done].
    apply FindPlayer_guid in Hp as [Hin <-]. by apply list_elem_of_fmap_2.
Qed.

Definition list_fmt (player : Player) (c : Channel) : list Z :=
  (le_bytes 1 1 ++ string_fmt (_name c) ++ le_bytes 1 (_flags c)) ++
  le_bytes 4 (zlen (shown_members player c)) ++
  concat (map (shown_fmt c) (shown_members player c)).

Lemma List_run player s :
  name_ok (_name (chan s)) ->
  is_Some (playersStore (chan s) !! GetGUID player) ->
  List_ player s = Ok tt
    (say_more (deliver (GetGUID player) (packet_of SMSG_CHANNEL_LIST (list_fmt player (chan s)))) s).
Proof.
  intros Hname Hon. unfold List_, member_only, channel. erewrite bind_run by done.
  rewrite (proj2 (IsOn_true _ _)) by done. cbn [negb]. unfold name_ok in Hname.
  set (c := chan s) in *.
  assert (Hlen : zlen (concat (map (shown_fmt c) (shown_members player c)))
                 = 9 * zlen (shown_members player c))
    by (apply zlen_concat_const; intros k; unfold shown_fmt, scalar_fmt;
        by rewrite zlen_app, !zlen_le_bytes).
  pose proof (shown_size player c) as Hsize.
  erewrite bind_run; [apply SendToOne_run|]. apply new_packet_built.
  unfold list_fmt. change (buffer (packet_of SMSG_CHANNEL_LIST ?bs)) with (buffer (packet_of 0 bs)).
  rewrite <- (writes_patched (out TU8 1;; out_string (_name c);; out TU8 (_flags c))
    (for_each (shown_members player c) (fun k => out TU64 k;; out TU8 (GetPlayerFlags k c)))
    _ _ 0 (zlen (shown_members player c))).
  - unfold mbind, M_bind. destruct (out TU8 1 _) as [? b1| |]; [|done|done].
    destruct (out_string _ b1) as [? b2| |]; [|done|done].
    destruct (out TU8 _ b2) as [? b3| |]; [|done|done].
    unfold get_wpos, gets. destruct (out TU32 0 b3) as [? b4| |]; [|done|done].
    rewrite List_loop_eq by (done || (fold (shown_members player c); lia)). unfold mbind, M_bind. fold (shown_members player c).
    by destruct (for_each _ _ b4).
  - apply writes_bind; [apply (writes_out TU8)|]. apply writes_bind; [apply writes_out_string|].
    apply (writes_out TU8).
  - apply writes_for_each. intros k _. apply writes_bind; apply writes_out.
  - rewrite Hlen. unfold string_fmt. rewrite !zlen_app, !zlen_le_bytes, zlen_cons, zlen_nil. lia.
Qed.

Lemma keeps_List out player : keeps out (List_ player).
Proof.
  intros s Hs. destruct (IsOn (GetGUID player) (chan s)) eqn:Hon.
  - apply IsOn_true in Hon. apply returns_Ok. do 2 eexists.
    split; [apply List_run; [apply Hs|done]|by apply chan_inv_say].
  - unfold List_, member_only. apply wp_bind, wp_gets. rewrite Hon. cbn [negb].
    by apply keeps_notice0.
Qed.
End Operations.
