(* ===== verification/ChannelLife.v ===== *)
(** * Guarantees of the chat channels

    Sequences of commands from players, each in its own state of the server;
    joining, leaving, kicking and banning; ownership; what is sent to whom; and
    the row of the database. *)

From Stdlib Require Import Ascii String.
From S2P Require Import Prelude ByteBuffer Wire Packet Maps Guid Text TextProps Channel ChannelRuns ChannelInv ChannelOps.

(** ** Commands *)

Inductive command :=
| CJoin (player : Player) (pass : list Z)
| CLeave (player : Player)
| CCleanup (player : Player)
| CKickOrBan (player : Player) (badname : list Z) (ban : bool)
| CUnBan (player : Player) (badname : list Z)
| CPassword (player : Player) (pass : list Z)
| CSetMode (player : Player) (p2n : list Z) (mod_ set : bool)
| CSetOwner (player : Player) (newname : list Z)
| CSendWhoOwner (guid : Z)
| CList (player : Player)
| CAnnounce (player : Player)
| CSay (guid : Z) (what : list Z) (lang : Z)
| CInvite (player : Player) (newname : list Z).

Section Life.
Context `{Host, Platform}.
#[local] Set Default Proof Using "All".

Definition run_command (env : Server) (c : command) : CM unit :=
  match c with
  | CJoin player pass => JoinChannel player pass
  | CLeave player => LeaveChannel player true
  | CCleanup player => CleanupChannel player
  | CKickOrBan player badname ban => KickOrBan player badname ban
  | CUnBan player badname => UnBan player badname
  | CPassword player pass => Password player pass
  | CSetMode player p2n mod_ set => SetMode player p2n mod_ set
  | CSetOwner player newname => SetOwner player newname
  | CSendWhoOwner guid => SendWhoOwner guid
  | CList player => List_ player
  | CAnnounce player => Announce player
  | CSay guid what lang => Say guid what lang
  | CInvite player newname => Invite player newname
  end.

Definition run_commands (l : list (Server * command)) : CM unit :=
  for_each l (fun x => run_command x.1 x.2).

(** What the callers see to: texts fit their packets, names are those of
    characters, in the case the server keeps them in, and nobody kicks himself. *)
Definition legal (env : Server) (c : command) : Prop :=
  match c with
  | CJoin player _ => player_guid (GetGUID player)
  | CKickOrBan player badname _ => name_ok badname /\ ~ resolves badname (GetGUID player)
  | CSetMode player p2n _ _ =>
      name_ok p2n /\ (resolves p2n (GetGUID player) -> p2n = GetName player)
  | CUnBan _ n | CSetOwner _ n | CInvite _ n => name_ok n
  | CSay _ what _ => name_ok what
  | _ => True
  end.

(** The command lifts no ban of a player of [out]. *)
Definition pardons (env : Server) (c : command) (v : Z) : Prop :=
  match c with CUnBan _ n => resolves n v | _ => False end.

Definition legal_run (out : Z -> Prop) (l : list (Server * command)) : Prop :=
  Forall (fun x => @ServerOk x.1 /\ legal x.1 x.2 /\ forall v, out v -> ~ pardons x.1 x.2 v) l.

Lemma command_keeps out (env : Server) c :
  ServerOk -> legal env c -> (forall v, out v -> ~ pardons env c v) -> keeps out (run_command env c).
Proof.
  intros Henv Hl Hp. destruct c; cbn [run_command legal pardons] in *.
  - by apply keeps_JoinChannel.
  - by apply keeps_LeaveChannel.
  - by apply keeps_CleanupChannel.
  - by apply keeps_KickOrBan; apply Hl.
  - by apply keeps_UnBan.
  - by apply keeps_Password.
  - by apply keeps_SetMode; apply Hl.
  - by apply keeps_SetOwner.
  - by apply keeps_SendWhoOwner.
  - by apply keeps_List.
  - by apply keeps_Announce.
  - by apply keeps_Say.
  - by apply keeps_Invite.
Qed.

Lemma commands_keep out l s :
  legal_run out l -> chan_inv out s -> returns (run_commands l) (fun _ s' => chan_inv out s') s.
Proof.
  intros Hl Hs. apply (wp_for_each _ _ (chan_inv out)); [done|].
  intros [env c] s' Hin Hs'. unfold legal_run in Hl. rewrite Forall_forall in Hl.
  destruct (Hl _ Hin) as (He & Hc & Hp). by apply command_keeps.
Qed.

(** ** A new channel *)

Lemma Tokenizer_loop_total {E} sep src cur st :
  sep <> 0 -> exists l, Tokenizer_loop (E := E) sep (src ++ [0]) cur st tt = Ok l tt.
Proof.
  intros Hsep. revert cur st. induction src as [|c src IH]; intros cur st; cbn [app Tokenizer_loop].
  - zbool. by eexists.
  - destruct (c =? sep); [apply IH|]. destruct (c =? 0); [by eexists|apply IH].
Qed.

Lemma Channel_new_total `{Server} name id team :
  exists c l, Channel_new name id team tt = Ok (c, l) tt /\
    playersStore c = ∅ /\ _name c = name /\ _ownerGUID c = 0 /\ _channelId c = id /\ _Team c = team.
Proof.
  unfold Channel_new. destruct (ChatChannelsEntry_flags id); [by do 2 eexists|].
  destruct CONFIG_PRESERVE_CUSTOM_CHANNELS; [|by do 2 eexists].
  destruct (CHAR_SEL_CHANNEL name team) as [[[[a o] pw] [bl|]]|]; [|by do 2 eexists..].
  destruct (Tokenizer_loop_total (E := ByteBufferException) 32 (c_str bl) [] []) as [l Hl]; [done|].
  erewrite bind_run by exact Hl. by do 2 eexists.
Qed.

Lemma new_inv c l out :
  name_ok (_name c) -> playersStore c = ∅ -> (forall v, out v -> IsBanned v c = true) ->
  chan_inv out (mkCState c [] l).
Proof.
  intros Hn He Hb. split; cbn; [done| | | |constructor].
  - intros g p. by rewrite He, lookup_empty.
  - intros g. rewrite He, lookup_empty. split; [by intros ?%elem_of_nil|by intros [? ?]].
  - intros v Hv. split; [by apply Hb|]. apply IsOn_false. by rewrite He, lookup_empty.
Qed.

(** C1.  The life of a channel.  However it was created, and whatever sequence
    of commands follows, each in its own state of the server and none of them a
    kick or a ban that names its own author, no command
    throws or reaches an undefined access, and afterwards: the players who have
    the channel in their list are exactly its members, every member's entry is
    under its own GUID, nobody but the recorded owner has the owner's flag, and
    the owner is a moderator.  The conditions ([legal], [ServerOk]): nobody kicks
    or bans himself - nothing in Channel.cpp:279-345 refuses it, and an owner who
    does breaks all of this, see [owner_self_kick]; a player who gives or takes
    himself a mode names himself as the server writes his name; who joins has
    the GUID of a player; names and messages are at most a million bytes, so
    that they fit their packets; and at most 100000 players, of non-zero GUIDs, are
    online. *)
Theorem channel_session (env : Server) (name : list Z) (channelId team : Z)
    (l : list (Server * command)) :
  name_ok name -> legal_run (fun _ => False) l ->
  exists c created, @Channel_new H0 env name channelId team tt = Ok (c, created) tt /\
    returns (run_commands l)
      (fun _ s => members_ok (chan s) /\
                  forall g, g ∈ m_channels s <-> IsOn g (chan s) = true)
      (mkCState c [] created).
Proof.
  intros Hn Hl. destruct (Channel_new_total name channelId team) as (c & cr & Hc & He & Hnm & _).
  exists c, cr. split; [done|].
  eapply returns_mono; [apply (commands_keep (fun _ => False)); [done|]|].
  - apply new_inv; [by rewrite Hnm|done|done].
  - intros [] s Hs. split; [apply Hs|]. intros g. rewrite IsOn_true. apply Hs.
Qed.

(** C24.  A ban holds: a player who is banned and not on the channel is still
    so after any sequence of legal commands of anybody, as long as none of
    them is an unban of that player. *)
Theorem ban_holds (v : Z) (l : list (Server * command)) (s : CState) :
  chan_inv (fun x => x = v) s -> legal_run (fun x => x = v) l ->
  returns (run_commands l) (fun _ s' => IsBanned v (chan s') = true /\ IsOn v (chan s') = false) s.
Proof.
  intros Hs Hl. eapply returns_mono; [by apply commands_keep|].
  intros [] s' Hs'. by apply (inv_barred _ _ Hs').
Qed.
End Life.

(** ** What one command does *)

Section Effects.
Context `{Host, Platform, Server}.
#[local] Set Default Proof Using "All".

Definition may_join (player : Player) (pass : list Z) (c : Channel) : bool :=
  negb (IsOn (GetGUID player) c) && negb (IsBanned (GetGUID player) c) &&
  (bool_decide (_password c = []) || bool_decide (pass = _password c)) &&
  negb (HasFlag c CHANNEL_FLAG_LFG && CONFIG_RESTRICTED_LFG_CHANNEL &&
        IsPlayerAccount (GetSecurity player) && GetGroup player).

(** A joining player becomes the owner. *)
Definition takes_over (c : Channel) : bool :=
  negb (IsConstant c) && ((_ownerGUID c =? 0) && _ownership c).

Lemma tell_one who make s :
  short make (chan s) ->
  exists l, tell who make s = Ok tt (say_more l s) /\ zlen l <= 1.
Proof.
  intros (bs & Hm & Hlen). eexists. split; [by eapply tell_run|].
  unfold deliver. by destruct (FindPlayer who).
Qed.

Lemma IsOn_insert k g p c (m : gmap Z PlayerInfo) :
  (forall j, j <> g -> is_Some (m !! j) <-> is_Some (playersStore c !! j)) ->
  bool_decide (is_Some (<[g := p]> m !! k)) = (k =? g) || IsOn k c.
Proof.
  intros Hm. unfold IsOn. destruct (Z.eqb_spec k g) as [->|Hne]; cbn [orb].
  - apply bool_decide_eq_true_2. rewrite lookup_insert_eq. eauto.
  - apply bool_decide_ext. rewrite lookup_insert_ne by done. by apply Hm.
Qed.

(** The outcome of joining, on the members and the owner. *)
Definition joined (g : Z) (s s' : CState) : Prop :=
  (forall k, IsOn k (chan s') = (k =? g) || IsOn k (chan s)) /\
  m_channels s' = m_channels s ++ [g] /\
  (if takes_over (chan s) then
     _ownerGUID (chan s') = g /\
     GetPlayerFlags g (chan s') = Z.lor MEMBER_FLAG_OWNER MEMBER_FLAG_MODERATOR
   else _ownerGUID (chan s') = _ownerGUID (chan s) /\
        GetPlayerFlags g (chan s') = MEMBER_FLAG_NONE) /\
  bannedStore (chan s') = bannedStore (chan s) /\ _password (chan s') = _password (chan s).

Lemma joined_come g l s : takes_over (chan s) = false -> joined g s (say_more l (come g s)).
Proof.
  intros Ht. unfold joined. rewrite Ht. split; [|split; [done|split; [split; [done|]|done]]].
  - intros k. unfold IsOn at 1. cbn. by apply IsOn_insert.
  - unfold GetPlayerFlags. cbn. by rewrite lookup_insert_eq.
Qed.


(** The outcome when the new member takes the channel over. *)
Lemma joined_owner g l1 l2 s c1 p :
  takes_over (chan s) = true -> c1 = owned g (chan (come g s)) -> playersStore c1 !! g = Some p ->
  joined g s (say_more l2 (say_more l1 ((come g s) <| chan := c1 |>)
                <| chan ::= fun c => c <| playersStore := <[g := pi_SetModerator true p]> (playersStore c) |> |>)).
Proof.
  intros Ht -> Hp. unfold joined. rewrite Ht.
  pose proof Ht as [_ Ho]%andb_true_iff. apply andb_true_iff in Ho as [Ho _].
  set (c0 := chan (come g s)) in *.
  assert (Hc0 : playersStore c0 = <[g := mkPlayerInfo g MEMBER_FLAG_NONE]> (playersStore (chan s)))
    by done.
  assert (Hun : unowned c0 = playersStore c0) by (unfold unowned; unfold c0; cbn; by rewrite Ho).
  assert (Hst : playersStore (owned g c0) =
    <[g := pi_SetOwner true (pi_SetModerator true (default PlayerInfo_zero (unowned c0 !! g)))]>
      (unowned c0)) by done.
  rewrite Hst in Hp.
  rewrite Hun, Hc0, !lookup_insert_eq in Hp. injection Hp as <-.
  split; [|split; [done|split; [split; [done|]|done]]].
  - intros k. apply (IsOn_insert k g _ (chan s) (playersStore (owned g c0))).
    intros j Hj. by rewrite Hst, Hun, Hc0, !lookup_insert_ne by done.
  - unfold GetPlayerFlags. cbn. by rewrite lookup_insert_eq.
Qed.

(** C29.  The gate of a channel.  A player gets in exactly when he is not on it,
    not banned, has its password if it has one, and is not kept out of a
    looking-for-group channel by his group.  Getting in adds him, without
    roles, to the members and the channel to his list; on a custom channel that
    hands out ownership and has no owner he also becomes owner and moderator.
    Otherwise the channel and the lists stay, and he gets at most one notice. *)
Theorem JoinChannel_gate (player : Player) (pass : list Z) (s : CState) :
  GetGUID player <> 0 -> name_ok (_name (chan s)) ->
  returns (JoinChannel player pass)
    (fun _ s' =>
       if may_join player pass (chan s) then joined (GetGUID player) s s'
       else exists l, s' = say_more l s /\ zlen l <= 1) s.
Proof.
  intros Hg Hn. unfold JoinChannel. apply wp_bind, wp_gets. cbv zeta. unfold may_join.
  set (g := GetGUID player) in *.
  assert (Hno : forall t, returns (tell g (notify0 t)) (fun _ s' => exists l, s' = say_more l s /\ zlen l <= 1) s).
  { intros t. destruct (tell_one g (notify0 t) s (short0 _ Hn t)) as (l & Hl & Hlen).
    apply returns_Ok. eauto 10. }
  destruct (IsOn g (chan s)) eqn:Hon; cbn [negb andb].
  { apply wp_when; intros _; [|exists []; by rewrite say_more_nil].
    destruct (tell_one g _ s (short1 _ Hn CHAT_PLAYER_ALREADY_MEMBER_NOTICE g)) as (l & Hl & Hlen).
    apply returns_Ok. eauto 10. }
  destruct (IsBanned g (chan s)) eqn:Hban; cbn [negb andb]; [apply Hno|].
  rewrite <- negb_orb. destruct (_ || _); cbn [negb andb]; [|apply Hno].
  destruct (HasFlag _ _ && _ && _ && _); cbn [negb]; [apply Hno|].
  apply wp_bind, wp_modify. apply wp_bind, wp_sends; [by apply when_sends, tell_all_sends, short1|].
  intros l. apply wp_bind, wp_modify. set (s1 := _ <| chan ::= _ |>).
  assert (Hs1 : s1 = say_more l (come g s)) by done. rewrite Hs1. clear s1 Hs1.
  apply wp_bind, wp_sends; [by apply tell_sends, short_YouJoined|]. intros l1.
  apply wp_bind, wp_sends; [by apply JoinNotify_sends|]. intros l2.
  assert (Hcon : IsConstant (chan s) = IsConstant (chan (come g s))) by done.
  apply wp_when; intros Hc.
  - apply wp_bind, wp_gets. apply wp_bind, wp_sends; [apply when_sends, UpdateChannelUseageInDB_sends|].
    intros l3. rewrite !say_more_app. set (l4 := _ ++ l3). clearbody l4.
    apply wp_when; intros Ht.
    + assert (Htake : takes_over (chan s) = true) by (unfold takes_over; by rewrite Hc).
      apply wp_bind. unfold wp at 1.
      match goal with |- match SetOwner_guid g ?b ?x with _ => _ end =>
        destruct (SetOwner_guid_run g b x Hg) as [l6 Hl6];
          [cbn; rewrite lookup_insert_eq; eauto|done|rewrite Hl6] end.
      apply returns_Ok. do 2 eexists. split.
      { apply update_member_run. cbn. apply lookup_insert_eq. }
      exact (joined_owner g (l4 ++ l6) [] s _ _ Htake eq_refl (lookup_insert_eq _ _ _)).
    + apply joined_come. unfold takes_over. by rewrite Hc.
  - rewrite !say_more_app. apply joined_come. unfold takes_over. by rewrite Hc.
Qed.

(** The commands that only members may give, and those only moderators may. *)
Definition actor (c : command) : option Z :=
  match c with
  | CKickOrBan p _ _ | CUnBan p _ | CPassword p _ | CSetMode p _ _ _ | CSetOwner p _ | CList p
  | CAnnounce p | CInvite p _ => Some (GetGUID p)
  | CSay guid what _ => if bool_decide (what = []) then None else Some guid
  | _ => None
  end.

Definition moderated (c : command) : option Player :=
  match c with
  | CKickOrBan p _ _ | CUnBan p _ | CPassword p _ | CSetMode p _ _ _ | CAnnounce p => Some p
  | _ => None
  end.

(** Handing the channel over to a member. *)
Lemma handed_over g exclaim p s :
  members_ok (chan s) -> playersStore (chan s) !! g = Some p -> name_ok (_name (chan s)) ->
  exists l c', (update_member g (pi_SetModerator true);; SetOwner_guid g exclaim) s
    = Ok tt (say_more l (s <| chan := c' |>)) /\
    (forall k, IsOn k c' = IsOn k (chan s)) /\ bannedStore c' = bannedStore (chan s) /\
    _ownerGUID c' = g /\
    exists e', playersStore c' !! g = Some e' /\ IsOwner e' = true /\ IsModerator e' = true.
Proof.
  intros Hm Hp Hn. destruct (Hm _ _ Hp) as (Hg0 & Hent).
  erewrite bind_run by by apply update_member_run. set (s1 := s <| chan := _ |>).
  assert (Hm1 : members_ok (chan s1)).
  { intros j q. cbn. intros [[<- <-]|[_ Hj]]%lookup_insert_Some; [|by apply Hm].
    by apply entry_SetModerator. }
  assert (Hg1 : playersStore (chan s1) !! g = Some (pi_SetModerator true p)) by apply lookup_insert_eq.
  destruct (SetOwner_guid_run g exclaim s1 (player_nonzero g Hg0) (ex_intro _ _ Hg1) Hn) as [l Hl].
  exists l, (owned g (chan s1)). split; [exact Hl|].
  assert (Hst : playersStore (owned g (chan s1)) =
    <[g := pi_SetOwner true (pi_SetModerator true (default PlayerInfo_zero (unowned (chan s1) !! g)))]>
      (unowned (chan s1))) by done.
  split; [|split; [done|split; [done|]]].
  - intros k. unfold IsOn. rewrite Hst. apply bool_decide_ext.
    rewrite lookup_insert_is_Some, unowned_lookup. cbn. rewrite lookup_insert_is_Some.
    split; [intros [->|[_ [->|[_ ?]]]]; eauto|]. intros Hk. destruct (decide (g = k)); auto.
  - rewrite Hst, lookup_insert_eq. eexists. split; [done|].
    destruct (proj2 (unowned_lookup g (chan s1)) (ex_intro _ _ Hg1)) as [q Hq]. rewrite Hq. cbn [default].
    destruct (unowned_ok _ _ _ Hm1 Hq) as (_ & _ & Hq1 & _). by autorewrite with roles.
Qed.

Lemma refused_run who t s :
  name_ok (_name (chan s)) ->
  tell who (notify0 t) s
  = Ok tt (say_more (deliver who (packet_of SMSG_CHANNEL_NOTIFY (notice (chan s) t []))) s).
Proof.
  intros Hn. apply tell_run; [apply notify0_makes|]. rewrite zlen_notice, zlen_nil.
  unfold name_ok in Hn. lia.
Qed.

(** Who may command.  A command of somebody who is not on the channel, and
    a moderator's command of a member who is neither moderator nor game master,
    changes nothing: the channel and the lists stay, and the only effect is the
    notice to its author that he is no member, or no moderator. *)
Theorem command_refused (c : command) (s : CState) :
  name_ok (_name (chan s)) ->
  (forall g, actor c = Some g -> IsOn g (chan s) = false ->
     run_command _ c s =
     Ok tt (say_more (deliver g (packet_of SMSG_CHANNEL_NOTIFY (notice (chan s) CHAT_NOT_MEMBER_NOTICE []))) s)) /\
  (forall p e, moderated c = Some p -> playersStore (chan s) !! GetGUID p = Some e ->
     IsModerator e = false -> IsGMAccount (GetSecurity p) = false ->
     run_command _ c s =
     Ok tt (say_more (deliver (GetGUID p)
              (packet_of SMSG_CHANNEL_NOTIFY (notice (chan s) CHAT_NOT_MODERATOR_NOTICE []))) s)).
Proof.
  intros Hn. split.
  - assert (Hm : forall p body, IsOn (GetGUID p) (chan s) = false ->
      member_only p body s = Ok tt (say_more (deliver (GetGUID p)
        (packet_of SMSG_CHANNEL_NOTIFY (notice (chan s) CHAT_NOT_MEMBER_NOTICE []))) s)).
    { intros p body Hoff. unfold member_only, channel. erewrite bind_run by done.
      rewrite Hoff. by apply refused_run. }
    intros g Ha Hoff. destruct c; cbn [actor run_command] in *;
      try (injection Ha as <-; by apply Hm); try done.
    destruct (bool_decide (what = [])) eqn:Hw; [done|]. injection Ha as <-.
    unfold Say. rewrite Hw. cbv zeta. unfold channel. erewrite bind_run by done. rewrite Hoff.
    by apply refused_run.
  - assert (Hm : forall p e body, playersStore (chan s) !! GetGUID p = Some e ->
      IsModerator e = false -> IsGMAccount (GetSecurity p) = false ->
      moderator_only p body s = Ok tt (say_more (deliver (GetGUID p)
        (packet_of SMSG_CHANNEL_NOTIFY (notice (chan s) CHAT_NOT_MODERATOR_NOTICE []))) s)).
    { intros p e body He Hmod Hgm. unfold moderator_only, member_only, channel.
      erewrite bind_run by done. rewrite (proj2 (IsOn_true _ _)) by eauto. cbn [negb].
      erewrite bind_run by by apply member_run. rewrite Hmod, Hgm. by apply refused_run. }
    intros p e Ha He Hmod Hgm. destruct c; cbn [moderated run_command] in *; try done;
      injection Ha as ->; by eapply Hm.
Qed.

(** Kicking and banning.  When a moderator (or game master) names a member
    other than himself, who is not the owner or the author is a game master,
    then afterwards that member and nobody else is off the channel, the channel
    is gone from his list, he is banned if the command bans or he was before,
    and if he was the owner of a channel that hands out ownership the author
    owns and moderates it. *)
Theorem KickOrBan_effect (player bad : Player) (e : PlayerInfo) (badname : list Z) (ban : bool)
    (s : CState) :
  chan_inv (fun _ => False) s ->
  playersStore (chan s) !! GetGUID player = Some e ->
  IsModerator e = true \/ IsGMAccount (GetSecurity player) = true ->
  FindPlayerByName badname = Some bad -> GetGUID bad <> GetGUID player ->
  IsOn (GetGUID bad) (chan s) = true ->
  _ownerGUID (chan s) <> GetGUID bad \/ IsGMAccount (GetSecurity player) = true ->
  returns (KickOrBan player badname ban)
    (fun _ s' =>
       (forall k, IsOn k (chan s') = negb (k =? GetGUID bad) && IsOn k (chan s)) /\
       m_channels s' = filter (fun g => g <> GetGUID bad) (m_channels s) /\
       IsBanned (GetGUID bad) (chan s') = ban || IsBanned (GetGUID bad) (chan s) /\
       (_ownerGUID (chan s) = GetGUID bad -> _ownership (chan s) = true ->
        _ownerGUID (chan s') = GetGUID player /\
        exists e', playersStore (chan s') !! GetGUID player = Some e' /\
                   IsOwner e' = true /\ IsModerator e' = true)) s.
Proof.
  intros Hs He Hmod Hbad Hne Hon Hown. set (good := GetGUID player) in *.
  set (victim := GetGUID bad) in *. pose proof (inv_name _ _ Hs) as Hn.
  assert (Hv0 : victim <> 0).
  { apply IsOn_true in Hon as [q Hq]. apply player_nonzero. by destruct (inv_members _ _ Hs _ _ Hq). }
  unfold KickOrBan, moderator_only, member_only. apply wp_bind, wp_gets.
  fold good. rewrite (proj2 (IsOn_true good _)) by eauto. cbn [negb].
  apply wp_bind. unfold wp at 1. rewrite (member_run good e) by done.
  replace (negb (IsModerator e) && negb (IsGMAccount (GetSecurity player))) with false
    by (destruct Hmod as [-> | ->]; [done|by rewrite andb_false_r]).
  apply wp_bind, wp_gets. cbv zeta. rewrite Hbad. fold victim. zbool. rewrite Hon. cbn [negb orb].
  replace (negb _ && _ && _) with false.
  2: { destruct Hown as [Hown | ->]; [|done]. rewrite (proj2 (Z.eqb_neq _ _)) by done.
       by rewrite andb_false_r. }
  apply wp_bind. eapply (returns_mono _ (fun _ s' =>
    exists l b, s' = say_more l (s <| chan := (chan s) <| bannedStore := b |> |>) /\
                bool_decide (is_Some (b !! victim)) = ban || IsBanned victim (chan s))).
  { apply wp_if; intros Hban.
    - apply wp_bind, wp_modify, wp_bind, wp_sends; [apply UpdateChannelInDB_sends|]. intros l.
      apply wp_sends; [by apply when_sends, tell_all_sends, short2|]. intros l1.
      exists (l ++ l1), (<[victim := tt]> (bannedStore (chan s))).
      split; [by rewrite <- say_more_app|]. apply andb_true_iff in Hban as [-> _].
      apply bool_decide_eq_true_2. rewrite lookup_insert_eq. eauto.
    - apply wp_sends; [by apply when_sends, tell_all_sends, short2|]. intros l1.
      exists l1, (bannedStore (chan s)). split; [by destruct s as [[]]|].
      fold (IsBanned victim (chan s)). by destruct ban, (IsBanned victim (chan s)). }
  intros [] s1 (l & b & -> & Hb). apply wp_bind, wp_modify, wp_bind, wp_modify.
  set (s2 := _ <| m_channels ::= _ |>).
  assert (Hs2 : s2 = say_more l (gone victim (s <| chan := (chan s) <| bannedStore := b |> |>))) by done.
  assert (Hoff : forall k, IsOn k (chan s2) = negb (k =? victim) && IsOn k (chan s)).
  { intros k. rewrite Hs2. unfold IsOn. cbn. destruct (Z.eqb_spec k victim) as [->|]; cbn.
    - by rewrite lookup_delete_eq.
    - by rewrite lookup_delete_ne. }
  assert (Hm2 : members_ok (chan s2)).
  { intros k q. rewrite Hs2. cbn. intros [_ Hk]%lookup_delete_Some. by apply (inv_members _ _ Hs). }
  assert (He2 : playersStore (chan s2) !! good = Some e) by (rewrite Hs2; cbn; by rewrite lookup_delete_ne).
  apply wp_bind, wp_gets. apply wp_when; intros Hc.
  - destruct (handed_over good true e s2 Hm2 He2 Hn) as (l3 & c' & Hrun & Hon' & Hban' & Ho' & He').
    apply returns_Ok. do 2 eexists. split; [exact Hrun|].
    split; [intros k; cbn; by rewrite Hon', Hoff|]. split; [by rewrite Hs2|].
    split; [|by intros _ _]. unfold IsBanned at 1. cbn. rewrite Hban', Hs2. exact Hb.
  - split; [exact Hoff|]. split; [by rewrite Hs2|]. split; [by rewrite Hs2|].
    intros Heq Hos. exfalso. revert Hc. rewrite Hs2. cbn. rewrite Heq, Z.eqb_refl, Hos. cbn.
    rewrite bool_decide_eq_false_2; [done|]. intros Hemp.
    rewrite Hs2 in He2. cbn in He2. by rewrite Hemp, lookup_empty in He2.
Qed.


(** The packet of a chat message. *)
Definition message_fmt (c : Channel) (guid : Z) (what : list Z) (lang : Z) : list Z :=
  le_bytes 1 CHAT_MSG_CHANNEL ++
  le_bytes 4 (if CONFIG_ALLOW_TWO_SIDE_INTERACTION_CHANNEL then LANG_UNIVERSAL else lang) ++
  le_bytes 8 guid ++ le_bytes 4 0 ++ string_fmt (_name c) ++ le_bytes 8 guid ++
  le_bytes 4 (zlen what + 1) ++ string_fmt what ++
  le_bytes 1 (match FindPlayer guid with Some p => GetChatTag p | None => 0 end).

(** A message of a member who is not muted goes out once to every member in
    the world, in the order of their GUIDs, except to those who ignore the
    speaker, unless the speaker is a moderator; it changes nothing. *)
Theorem Say_delivery (guid : Z) (what : list Z) (lang : Z) (e : PlayerInfo) (s : CState) :
  name_ok (_name (chan s)) -> name_ok what -> what <> [] ->
  playersStore (chan s) !! guid = Some e -> IsMuted e = false ->
  exists l, Say guid what lang s = Ok tt (say_more (map (fun k => SendPacket k (packet_of SMSG_MESSAGECHAT
              (message_fmt (chan s) guid what lang))) l) s) /\
    NoDup l /\
    forall k, k ∈ l <->
      IsOn k (chan s) = true /\
      exists p, FindPlayer k = Some p /\
        (guid = 0 \/ IsModerator e = true \/ HasIgnore p (GUID_LOPART guid) = false).
Proof.
  unfold name_ok. intros Hn Hw Hne He Hmute.
  set (to := if negb (IsModerator e) then guid else 0).
  exists (List.filter (receives to) (keys (playersStore (chan s)))). split; [|split].
  - unfold Say. rewrite bool_decide_eq_false_2 by done. cbv zeta. unfold channel.
    erewrite bind_run by done. rewrite (proj2 (IsOn_true guid _)) by eauto. cbn [negb].
    erewrite bind_run by by apply member_run. rewrite Hmute.
    assert (Hlen : zlen (message_fmt (chan s) guid what lang) <= 10000000).
    { unfold message_fmt, string_fmt. rewrite !zlen_app, !zlen_le_bytes, !zlen_cons, !zlen_nil. lia. }
    erewrite bind_run.
    2: { apply (new_packet_run _ _ (message_fmt (chan s) guid what lang)); [|done].
         unfold message_fmt. rewrite (wrap_small 32 (zlen what + 1)) by (zlen_pos; unfold in_width; lia).
         apply writes_bind; [exact (writes_out TU8 _)|].
         apply writes_bind; [exact (writes_out TU32 _)|].
         apply writes_bind; [exact (writes_out TU64 _)|].
         apply writes_bind; [exact (writes_out TU32 _)|].
         apply writes_bind; [exact (writes_out_string _)|].
         apply writes_bind; [exact (writes_out TU64 _)|].
         apply writes_bind; [exact (writes_out TU32 _)|].
         apply writes_bind; [exact (writes_out_string _)|].
         exact (writes_out TU8 _). }
    erewrite bind_run by by apply member_run. fold to. apply SendToAll_run.
  - pose proof (NoDup_keys (playersStore (chan s))) as Hnd. apply NoDup_ListNoDup in Hnd.
    apply NoDup_ListNoDup. by apply List.NoDup_filter.
  - intros k. rewrite list_elem_of_In, List.filter_In, <- list_elem_of_In, elem_of_keys, IsOn_true.
    unfold receives, to. destruct (FindPlayer k) as [p|].
    + rewrite orb_true_iff, negb_true_iff, Z.eqb_eq.
      destruct (IsModerator e); cbn [negb]; naive_solver.
    + naive_solver.
Qed.

(** The list of members sent to a member: the channel's name and flags, and
    then, counted right, GUID and flags of exactly the members that are in the
    world and that the asking player may see, in the order of their GUIDs. *)
Theorem List_packet `{!ServerOk} (player : Player) (s : CState) :
  name_ok (_name (chan s)) -> IsOn (GetGUID player) (chan s) = true ->
  exists l, List_ player s = Ok tt (say_more (deliver (GetGUID player) (packet_of SMSG_CHANNEL_LIST
      ((le_bytes 1 1 ++ string_fmt (_name (chan s)) ++ le_bytes 1 (_flags (chan s))) ++
       le_bytes 4 (zlen l) ++
       concat (map (fun k => le_bytes 8 k ++ le_bytes 1 (GetPlayerFlags k (chan s))) l)))) s) /\
    zlen l < 2 ^ 32 /\ NoDup l /\
    forall k, k ∈ l <-> IsOn k (chan s) = true /\ listed player k = true.
Proof.
  intros Hn Hon. exists (shown_members player (chan s)). split; [|split; [|split]].
  - by apply List_run; [|apply IsOn_true].
  - pose proof (shown_size player (chan s)). lia.
  - pose proof (NoDup_keys (playersStore (chan s))) as Hnd. apply NoDup_ListNoDup in Hnd.
    apply NoDup_ListNoDup. by apply List.NoDup_filter.
  - intros k. unfold shown_members.
    by rewrite list_elem_of_In, List.filter_In, <- list_elem_of_In, elem_of_keys, IsOn_true.
Qed.

(** *** The row of the database *)

Lemma load_banned_spec ts m (g : Z) :
  is_Some (fold_left (fun (m : gmap Z unit) t =>
     let banned_guid := u64 (atol t) in if banned_guid =? 0 then m else <[banned_guid := tt]> m) ts m !! g)
  <-> is_Some (m !! g) \/ (g <> 0 /\ g ∈ map (fun t => u64 (atol t)) ts).
Proof.
  revert m. induction ts as [|t ts IH]; intros m; cbn [fold_left map].
  - split; [auto|]. intros [?|[_ ?%elem_of_nil]]; done.
  - rewrite IH. cbv zeta. rewrite elem_of_cons.
    destruct (Z.eqb_spec (u64 (atol t)) 0) as [Hzero|Hne].
    + split; [naive_solver|]. intros [?|[? [->|?]]]; [auto|done|auto].
    + rewrite lookup_insert_is_Some'. naive_solver.
Qed.

Definition ban_text (c : Channel) : list Z :=
  concat (map (fun g => dec g ++ chars " ") (keys (bannedStore c))).

Lemma dec_nonzero g : 0 <= g -> Forall (fun c => c <> 0) (dec g) /\ token_ok 32 (dec g).
Proof.
  intros Hg. destruct (dec_spec g Hg) as (Hd & Hne & _). split.
  - eapply Forall_impl; [exact Hd|]. intros c. unfold isdigit. cbn. intros Hc.
    apply andb_true_iff in Hc as [Hc _]. zprop. lia.
  - eapply Forall_impl; [exact Hd|]. intros c. unfold isdigit. cbn. intros Hc.
    apply andb_true_iff in Hc as [Hc _]. zprop. lia.
Qed.

Lemma c_str_nonzero s : Forall (fun c => c <> 0) s -> c_str s = s.
Proof.
  induction 1 as [|c s Hc Hs IH]; [done|]. cbn. rewrite (proj2 (Z.eqb_neq c 0)) by done. by rewrite IH.
Qed.

(** The text of the bans is read back as the same set. *)
Lemma ban_text_load c :
  (forall g, IsBanned g c = true -> 0 < g < 2 ^ (long_bits - 1)) -> long_bits <= 64 ->
  exists tokens, Tokenizer (E := ByteBufferException) (c_str (ban_text c)) 32 tt = Ok tokens tt /\
    load_banned tokens = bannedStore c.
Proof.
  intros Hr Hl. pose proof (elem_of_keys (bannedStore c)) as Hk.
  assert (Hpos : forall g, g ∈ keys (bannedStore c) -> 0 < g < 2 ^ (long_bits - 1))
    by (intros g Hg; apply Hr, IsBanned_true; by apply Hk).
  assert (Hp63 : 2 ^ (long_bits - 1) <= 2 ^ 63) by (pose proof long_bits_ok; apply Z.pow_le_mono_r; lia).
  exists (map dec (keys (bannedStore c))).
  assert (Htext : ban_text c = concat (map (fun t => t ++ [32]) (map dec (keys (bannedStore c)))) ++ []).
  { unfold ban_text. by rewrite app_nil_r, map_map. }
  split.
  - rewrite c_str_nonzero.
    + rewrite Htext, Tokenizer_spec; [by rewrite app_nil_r|done| |by apply Forall_nil].
      apply Forall_forall. intros t Ht. apply list_elem_of_fmap in Ht as (g & -> & Hg).
      apply dec_nonzero. specialize (Hpos g Hg). lia.
    + unfold ban_text. apply Forall_concat, Forall_fmap, Forall_forall. intros g Hg. cbn.
      apply Forall_app. split; [apply dec_nonzero; specialize (Hpos g Hg); lia|by repeat constructor].
  - apply map_eq. intros g. destruct (bannedStore c !! g) as [[]|] eqn:Hg.
    + destruct (proj2 (load_banned_spec (map dec (keys (bannedStore c))) ∅ g)) as [[] Hs]; [|exact Hs].
      right. assert (Hin : g ∈ keys (bannedStore c)) by (apply Hk; eauto).
      specialize (Hpos g Hin). split; [lia|]. rewrite map_map. apply list_elem_of_fmap.
      exists g. split; [|done].
      rewrite <- (app_nil_r (dec g)), atol_dec by (done || lia). symmetry. apply wrap_small.
      unfold in_width. lia.
    + apply eq_None_not_Some. intros [[]|[_ Hin]]%load_banned_spec; [by rewrite lookup_empty in *|].
      rewrite map_map in Hin. apply list_elem_of_fmap in Hin as (j & -> & Hj).
      pose proof (Hpos j Hj).
      rewrite <- (app_nil_r (dec j)), atol_dec in Hg by (done || lia).
      rewrite wrap_small in Hg by (unfold in_width; lia). apply Hk in Hj as [? ?]. congruence.
Qed.

(** A custom channel survives in the database.  The row that an update
    writes for a saved channel, given back to the constructor of a channel of
    the same name and team, makes a channel with the same settings, password
    and bans, with nobody on it; this needs the GUIDs of the banned to fit the
    [long] that [atol] returns. *)
Theorem channel_row_roundtrip (s : CState) :
  let c := chan s in
  _IsSaved c = true -> _flags c = CHANNEL_FLAG_CUSTOM -> long_bits <= 64 ->
  (forall g, IsBanned g c = true -> 0 < g < 2 ^ (long_bits - 1)) ->
  ChatChannelsEntry_flags (_channelId c) = None -> CONFIG_PRESERVE_CUSTOM_CHANNELS = true ->
  exists announce ownership password bans,
    UpdateChannelInDB s
    = Ok tt (say_more [CHAR_UPD_CHANNEL announce ownership password bans (_name c) (_Team c)] s) /\
    (CHAR_SEL_CHANNEL (_name c) (_Team c) = Some (announce, ownership, password, Some bans) ->
     Channel_new (_name c) (_channelId c) (_Team c) tt
     = Ok (c <| playersStore := ∅ |> <| _ownerGUID := 0 |>, []) tt).
Proof.
  intros c Hsaved Hfl Hl Hr Hdbc Hpres.
  exists (_announce c), (_ownership c), (_password c), (ban_text c). split.
  - unfold UpdateChannelInDB, channel. erewrite bind_run by done. fold c. by rewrite Hsaved.
  - intros Hsel. unfold Channel_new. rewrite Hdbc, Hpres, Hsel.
    destruct (ban_text_load c Hr Hl) as (tokens & Htok & Hload).
    erewrite bind_run by exact Htok. rewrite Hload. unfold mret, M_ret. do 2 f_equal.
    clearbody c. destruct c. cbn in *. by subst.
Qed.
End Effects.

(** ** A small server

    Three players in the world: two ordinary ones and a game master, all of one
    team; the row of the channel "trade" in the database. *)

#[local] Instance sample_host : Host := {| TRINITY_BIGENDIAN := false |}.
#[local] Instance sample_platform : Platform.
Proof. exists 64. lia. Defined.

Definition sample_player (guid : Z) (name : string) (security : Z) : Player :=
  mkPlayer guid (chars name) security 469 false (fun _ => false) true true 0 true.

Definition alice : Player := sample_player 1 "Alice" 0.
Definition bob : Player := sample_player 2 "Bob" 0.
Definition carol : Player := sample_player 3 "Carol" 4.

#[local] Instance sample_server : Server := {|
  GetPlayers := [alice; bob; carol];
  CONFIG_PRESERVE_CUSTOM_CHANNELS := true;
  CONFIG_PRESERVE_CUSTOM_CHANNEL_DURATION := 14;
  CONFIG_RESTRICTED_LFG_CHANNEL := true;
  CONFIG_SILENTLY_GM_JOIN_TO_CHANNEL := false;
  CONFIG_ALLOW_TWO_SIDE_INTERACTION_CHANNEL := false;
  CONFIG_GM_LEVEL_IN_WHO_LIST := 0;
  ChatChannelsEntry_flags := fun id => if id =? 26 then Some CHANNEL_DBC_FLAG_LFG else None;
  GetPlayerNameByGUID := fun g => if g =? 1 then Some (chars "Alice") else None;
  CHAR_SEL_CHANNEL := fun name team =>
    if bool_decide (name = chars "trade") then Some (true, true, chars "pw", Some (chars "5 1000 "))
    else None
|}.

#[local] Instance sample_server_ok : ServerOk.
Proof.
  split.
  - intros p. cbn. rewrite !elem_of_cons. intros [->|[->|[->|[]%elem_of_nil]]]; by split.
  - intros g n. cbn. destruct (g =? 1); [|done]. by intros [= <-].
  - done.
Qed.

(** A channel on which Alice, the owner, and Bob are. *)
Definition sample_channel : Channel :=
  mkChannel true true true CHANNEL_FLAG_CUSTOM 0 469 1 (chars "trade") []
    (<[1 := mkPlayerInfo 1 3]> (<[2 := mkPlayerInfo 2 0]> ∅)) (<[5 := tt]> (<[1000 := tt]> ∅)).

Definition sample_state : CState := mkCState sample_channel [1; 2] [].

Lemma sample_chan_inv (out : Z -> Prop) : (forall v, out v -> v = 5) -> chan_inv out sample_state.
Proof.
  intros Hout. split.
  - done.
  - intros g p. cbn. rewrite !lookup_insert_Some, lookup_empty.
    intros [[<- <-]|[_ [[<- <-]|[_ [=]]]]]; repeat split; done.
  - intros g. cbn. rewrite !lookup_insert_is_Some', lookup_empty, !elem_of_cons, elem_of_nil, is_Some_alt.
    naive_solver.
  - intros v Hv%Hout. subst v. by split; vm_compute.
  - cbn. apply NoDup_cons. split; [by rewrite list_elem_of_singleton|apply NoDup_singleton].
Qed.

Definition sample_commands : list (Server * command) :=
  [(sample_server, CJoin alice (chars "pw")); (sample_server, CJoin bob (chars "pw"));
   (sample_server, CSetMode alice (chars "Bob") true true); (sample_server, CAnnounce bob);
   (sample_server, CSay 2 (chars "hello") 7); (sample_server, CKickOrBan alice (chars "Bob") true);
   (sample_server, CJoin bob (chars "pw")); (sample_server, CList alice);
   (sample_server, CLeave alice)].

Lemma sample_legal (out : Z -> Prop) : legal_run out sample_commands.
Proof.
  unfold legal_run, sample_commands.
  repeat (apply Forall_cons; split;
    [split; [exact sample_server_ok|split; [|by intros v _ []]]; cbn;
     try (split; [done|]); try (intros (p & [= <-] & Hp); vm_compute in Hp; discriminate);
     try done; try (intros (p & [= <-] & Hp); reflexivity)|]).
  apply Forall_nil. done.
Qed.

Lemma channel_session_witness :
  exists c created, Channel_new (chars "trade") 0 469 tt = Ok (c, created) tt /\
    returns (run_commands sample_commands)
      (fun _ s => members_ok (chan s) /\ forall g, g ∈ m_channels s <-> IsOn g (chan s) = true)
      (mkCState c [] created).
Proof. apply channel_session; [vm_compute; discriminate|apply sample_legal]. Defined.

Lemma ban_holds_witness :
  returns (run_commands sample_commands)
    (fun _ s' => IsBanned 5 (chan s') = true /\ IsOn 5 (chan s') = false) sample_state.
Proof. apply ban_holds; [apply sample_chan_inv; auto|apply sample_legal]. Defined.

Lemma JoinChannel_gate_witness :
  returns (JoinChannel carol []) (fun _ s' => joined 3 sample_state s') sample_state /\
  returns (JoinChannel (sample_player 5 "Eve" 0) [])
    (fun _ s' => exists l, s' = say_more l sample_state /\ zlen l <= 1) sample_state.
Proof.
  split.
  - apply (JoinChannel_gate carol [] sample_state); [discriminate|vm_compute; discriminate].
  - apply (JoinChannel_gate (sample_player 5 "Eve" 0) [] sample_state);
      [discriminate|vm_compute; discriminate].
Defined.

Lemma command_refused_witness :
  run_command _ (CAnnounce carol) sample_state =
    Ok tt (say_more (deliver 3 (packet_of SMSG_CHANNEL_NOTIFY
             (notice sample_channel CHAT_NOT_MEMBER_NOTICE []))) sample_state) /\
  run_command _ (CKickOrBan bob (chars "Alice") false) sample_state =
    Ok tt (say_more (deliver 2 (packet_of SMSG_CHANNEL_NOTIFY
             (notice sample_channel CHAT_NOT_MODERATOR_NOTICE []))) sample_state).
Proof.
  split.
  - apply (command_refused (CAnnounce carol) sample_state); [vm_compute; discriminate|reflexivity..].
  - refine (proj2 (command_refused (CKickOrBan bob (chars "Alice") false) sample_state _)
              bob (mkPlayerInfo 2 0) _ _ _ _); [vm_compute; discriminate|reflexivity..].
Defined.

Lemma KickOrBan_effect_witness :
  returns (KickOrBan alice (chars "bOB") true)
    (fun _ s' => IsOn 2 (chan s') = false /\ IsBanned 2 (chan s') = true /\ m_channels s' = [1])
    sample_state.
Proof.
  eapply returns_mono.
  - apply (KickOrBan_effect alice bob (mkPlayerInfo 1 3) (chars "bOB") true sample_state);
      [by apply sample_chan_inv|reflexivity|by left|reflexivity|discriminate|reflexivity|by left].
  - intros [] s' (Hon & Hm & Hb & _). split; [apply (Hon 2)|]. split; [exact Hb|exact Hm].
Defined.


Lemma Say_delivery_witness :
  exists l, Say 1 (chars "hello") 7 sample_state
    = Ok tt (say_more (map (fun k => SendPacket k (packet_of SMSG_MESSAGECHAT
        (message_fmt sample_channel 1 (chars "hello") 7))) l) sample_state) /\
    NoDup l /\
    forall k, k ∈ l <->
      IsOn k sample_channel = true /\
      exists p, FindPlayer k = Some p /\
        (1 = 0 \/ IsModerator (mkPlayerInfo 1 3) = true \/ HasIgnore p (GUID_LOPART 1) = false).
Proof.
  apply (Say_delivery 1 (chars "hello") 7 (mkPlayerInfo 1 3) sample_state);
    [vm_compute; discriminate..|reflexivity|reflexivity].
Defined.

Lemma List_packet_witness :
  exists l, List_ bob sample_state = Ok tt (say_more (deliver 2 (packet_of SMSG_CHANNEL_LIST
      ((le_bytes 1 1 ++ string_fmt (chars "trade") ++ le_bytes 1 1) ++
       le_bytes 4 (zlen l) ++
       concat (map (fun k => le_bytes 8 k ++ le_bytes 1 (GetPlayerFlags k sample_channel)) l)))) sample_state) /\
    zlen l < 2 ^ 32 /\ NoDup l /\
    forall k, k ∈ l <-> IsOn k sample_channel = true /\ listed bob k = true.
Proof. apply (List_packet bob sample_state); [vm_compute; discriminate|reflexivity]. Defined.

Lemma sample_bans g : IsBanned g (chan sample_state) = true -> 0 < g < 2 ^ (long_bits - 1).
Proof.
  intros [x Hx]%IsBanned_true. cbn in Hx.
  rewrite !lookup_insert_Some, lookup_empty in Hx.
  destruct Hx as [[<- _]|[_ [[<- _]|[_ [=]]]]]; vm_compute; split; reflexivity.
Qed.

Lemma channel_row_roundtrip_witness :
  exists announce ownership password bans,
    UpdateChannelInDB sample_state
    = Ok tt (say_more [CHAR_UPD_CHANNEL announce ownership password bans
                         (_name (chan sample_state)) (_Team (chan sample_state))] sample_state) /\
    (CHAR_SEL_CHANNEL (_name (chan sample_state)) (_Team (chan sample_state))
       = Some (announce, ownership, password, Some bans) ->
     Channel_new (_name (chan sample_state)) (_channelId (chan sample_state))
       (_Team (chan sample_state)) tt
     = Ok ((chan sample_state) <| playersStore := ∅ |> <| _ownerGUID := 0 |>, []) tt).
Proof.
  apply (channel_row_roundtrip sample_state); [reflexivity|reflexivity|done| |reflexivity|reflexivity].
  exact sample_bans.
Defined.

(** ** Two flaws *)

(** A flaw in kicking.  The owner who kicks himself while others are on the channel comes back as a
    ghost: a member, owner and moderator, whose entry is under player 0 and who
    has lost the channel from his list. *)
Theorem owner_self_kick :
  match KickOrBan alice (chars "Alice") false sample_state with
  | Ok _ s => playersStore (chan s) !! 1 = Some (mkPlayerInfo 0 3) /\ m_channels s = [2] /\
              _ownerGUID (chan s) = 1
  | _ => False
  end.
Proof. vm_compute. done. Qed.

(** The owner who kicks himself as the last member stays recorded: the next
    player to join becomes no owner. *)
Definition lonely_state : CState :=
  mkCState (sample_channel <| playersStore := <[1 := mkPlayerInfo 1 3]> ∅ |>) [1] [].

Theorem stale_owner :
  match (KickOrBan alice (chars "Alice") false;; JoinChannel bob []) lonely_state with
  | Ok _ s => playersStore (chan s) = <[2 := mkPlayerInfo 2 0]> ∅ /\ _ownerGUID (chan s) = 1
  | _ => False
  end.
Proof. vm_compute. done. Qed.
