(* ===== verification/ChannelFrame.v ===== *)
(** * What the operations of a channel leave alone

    No operation changes the name or the number of a channel; leaving without
    telling the player does not look at the lists of the players. *)

From S2P Require Import Prelude ByteBuffer Wire Packet Maps Guid Text Channel ChannelRuns ChannelInv ChannelOps ChannelLife.

(** ** The identity of a channel *)

Definition same_id (c c' : Channel) : Prop :=
  _name c' = _name c /\ _channelId c' = _channelId c.

Lemma same_id_refl c : same_id c c.
Proof. done. Qed.

Lemma same_id_trans c1 c2 c3 : same_id c1 c2 -> same_id c2 c3 -> same_id c1 c3.
Proof. intros [H1 H2] [H3 H4]. split; congruence. Qed.

Definition frames {A} (m : CM A) : Prop := forall s,
  match m s with Ok _ s' | Throw _ s' => same_id (chan s) (chan s') | Abort _ => True end.

Lemma frames_ret {A} (a : A) : frames (mret a).
Proof. intros s. apply same_id_refl. Qed.

Lemma frames_bind {A B} (m : CM A) (f : A -> CM B) :
  frames m -> (forall a, frames (f a)) -> frames (m ≫= f).
Proof.
  intros Hm Hf s. specialize (Hm s). unfold mbind, M_bind. destruct (m s) as [a s'|e s'|]; [|done..].
  specialize (Hf a s'). destruct (f a s'); [..|done]; by eapply same_id_trans.
Qed.

Lemma frames_when (b : bool) m : frames m -> frames (when b m).
Proof. destruct b; [done|intros _; apply frames_ret]. Qed.

Lemma frames_gets {A} (f : CState -> A) : frames (gets f).
Proof. intros s. apply same_id_refl. Qed.

Lemma frames_modify f : (forall s, same_id (chan s) (chan (f s))) -> frames (modify f).
Proof. intros Hf s. apply Hf. Qed.

Lemma frames_on_local {T A} (t : T) (m : M T ByteBufferException A) : frames (on_local t m).
Proof. intros s. unfold on_local. destruct (m t); done. Qed.

Lemma frames_for_each {A} (l : list A) body : (forall x, frames (body x)) -> frames (for_each l body).
Proof.
  intros Hb. induction l as [|x l IH]; [apply frames_ret|]. cbn [for_each].
  apply frames_bind; [apply Hb|intros _; exact IH].
Qed.

(** ** What does not look at the lists of the players *)

Definition relist (l : list Z) (s : CState) : CState := s <| m_channels := l |>.

(** [m] gives the same result whatever the lists hold, and leaves them. *)
Definition blind {A} (m : CM A) : Prop := forall s,
  (forall l, m (relist l s) = match m s with
                              | Ok a s' => Ok a (relist l s')
                              | Throw e s' => Throw e (relist l s')
                              | Abort r => Abort r
                              end) /\
  match m s with Ok _ s' | Throw _ s' => m_channels s' = m_channels s | Abort _ => True end.

Lemma blind_ret {A} (a : A) : blind (mret a).
Proof. done. Qed.

Lemma blind_bind {A B} (m : CM A) (f : A -> CM B) :
  blind m -> (forall a, blind (f a)) -> blind (m ≫= f).
Proof.
  intros Hm Hf s. destruct (Hm s) as [H1 H2]. unfold mbind, M_bind. split.
  - intros l. rewrite H1. destruct (m s) as [a s'|e s'|]; [|done..]. apply (Hf a s').
  - destruct (m s) as [a s'|e s'|]; [|done..]. destruct (Hf a s') as [_ H3].
    destruct (f a s'); congruence.
Qed.

Lemma blind_when (b : bool) m : blind m -> blind (when b m).
Proof. destruct b; [done|intros _; apply blind_ret]. Qed.

Lemma blind_gets {A} (f : CState -> A) : (forall s l, f (relist l s) = f s) -> blind (gets f).
Proof. intros Hf s. split; [|done]. intros l. unfold gets. by rewrite Hf. Qed.

Lemma blind_modify f :
  (forall s l, f (relist l s) = relist l (f s) /\ m_channels (f s) = m_channels s) -> blind (modify f).
Proof.
  intros Hf s. split; [|apply (Hf s [])]. intros l. unfold modify. by rewrite (proj1 (Hf s l)).
Qed.

Lemma blind_on_local {T A} (t : T) (m : M T ByteBufferException A) : blind (on_local t m).
Proof. intros s. unfold on_local. destruct (m t); done. Qed.

Lemma blind_for_each {A} (l : list A) body : (forall x, blind (body x)) -> blind (for_each l body).
Proof.
  intros Hb. induction l as [|x l IH]; [apply blind_ret|]. cbn [for_each].
  apply blind_bind; [apply Hb|intros _; exact IH].
Qed.

(** ** The operations *)

Create HintDb frame discriminated.

(** One step along the structure of an operation. *)
Ltac frame_step :=
  lazymatch goal with
  | |- frames (_ ≫= _) => apply frames_bind
  | |- frames (mret _) => apply frames_ret
  | |- frames (when _ _) => apply frames_when
  | |- frames (gets _) => apply frames_gets
  | |- frames (modify _) => apply frames_modify; intros; split; reflexivity
  | |- frames (on_local _ _) => apply frames_on_local
  | |- frames (for_each _ _) => apply frames_for_each
  | |- blind (_ ≫= _) => apply blind_bind
  | |- blind (mret _) => apply blind_ret
  | |- blind (when _ _) => apply blind_when
  | |- blind (gets _) => apply blind_gets; reflexivity
  | |- blind (modify _) => apply blind_modify; intros; split; reflexivity
  | |- blind (on_local _ _) => apply blind_on_local
  | |- blind (for_each _ _) => apply blind_for_each
  end.

Ltac frame :=
  repeat (intros; cbv zeta; first [solve [eauto with frame] | frame_step |
    match goal with
    | |- frames (match ?x with _ => _ end) => destruct x
    | |- blind (match ?x with _ => _ end) => destruct x
    end]).

Section Operations.
Context `{Host, Platform, Server}.

Lemma frames_channel : frames channel. Proof. unfold channel. frame. Qed.
Lemma blind_channel : blind channel. Proof. unfold channel. frame. Qed.
Lemma frames_emit o : frames (emit o). Proof. unfold emit. frame. Qed.
Lemma blind_emit o : blind (emit o). Proof. unfold emit. frame. Qed.

Lemma frames_set_channel f : (forall c, same_id c (f c)) -> frames (set_channel f).
Proof. intros Hf. apply frames_modify. intros s. apply Hf. Qed.
Lemma blind_set_channel f : blind (set_channel f).
Proof. unfold set_channel. frame. Qed.

#[local] Hint Resolve frames_channel blind_channel frames_emit blind_emit blind_set_channel : frame.
#[local] Hint Extern 1 (frames (set_channel _)) =>
  apply frames_set_channel; intros; split; reflexivity : frame.

Lemma frames_member g : frames (member g). Proof. unfold member. frame. Qed.
Lemma blind_member g : blind (member g). Proof. unfold member. frame. Qed.
#[local] Hint Resolve frames_member blind_member : frame.
Lemma frames_update_member g f : frames (update_member g f). Proof. unfold update_member. frame. Qed.
Lemma blind_update_member g f : blind (update_member g f). Proof. unfold update_member. frame. Qed.
Lemma frames_build_on d make : frames (build_on d make). Proof. unfold build_on. frame. Qed.
Lemma blind_build_on d make : blind (build_on d make). Proof. unfold build_on. frame. Qed.
Lemma frames_SendToOne d who : frames (SendToOne d who). Proof. unfold SendToOne. frame. Qed.
Lemma blind_SendToOne d who : blind (SendToOne d who). Proof. unfold SendToOne. frame. Qed.
Lemma frames_SendToAll d g : frames (SendToAll d g). Proof. unfold SendToAll. frame. Qed.
Lemma blind_SendToAll d g : blind (SendToAll d g). Proof. unfold SendToAll. frame. Qed.
Lemma frames_SendToAllButOne d g : frames (SendToAllButOne d g).
Proof. unfold SendToAllButOne. frame. Qed.
Lemma blind_SendToAllButOne d g : blind (SendToAllButOne d g).
Proof. unfold SendToAllButOne. frame. Qed.
#[local] Hint Resolve frames_update_member blind_update_member frames_build_on blind_build_on
  frames_SendToOne blind_SendToOne frames_SendToAll blind_SendToAll frames_SendToAllButOne
  blind_SendToAllButOne : frame.

Lemma frames_tell who make : frames (tell who make). Proof. unfold tell, build. frame. Qed.
Lemma blind_tell who make : blind (tell who make). Proof. unfold tell, build. frame. Qed.
Lemma frames_tell_all make : frames (tell_all make). Proof. unfold tell_all, build. frame. Qed.
Lemma blind_tell_all make : blind (tell_all make). Proof. unfold tell_all, build. frame. Qed.
Lemma frames_update_db : frames UpdateChannelInDB. Proof. unfold UpdateChannelInDB. frame. Qed.
Lemma blind_update_db : blind UpdateChannelInDB. Proof. unfold UpdateChannelInDB. frame. Qed.
Lemma frames_new_packet op body : frames (new_packet op body). Proof. unfold new_packet. frame. Qed.
Lemma blind_new_packet op body : blind (new_packet op body). Proof. unfold new_packet. frame. Qed.
#[local] Hint Resolve frames_tell blind_tell frames_tell_all blind_tell_all frames_update_db
  blind_update_db frames_new_packet blind_new_packet : frame.

Lemma frames_SetOwner_guid g ex : frames (SetOwner_guid g ex).
Proof. unfold SetOwner_guid, build. frame. Qed.
Lemma blind_SetOwner_guid g ex : blind (SetOwner_guid g ex).
Proof. unfold SetOwner_guid, build. frame. Qed.
Lemma frames_change_mode has f g set : frames (change_mode has f g set).
Proof. unfold change_mode. frame. Qed.
#[local] Hint Resolve frames_SetOwner_guid blind_SetOwner_guid frames_change_mode : frame.

Lemma frames_notify g : frames (JoinNotify g) /\ frames (LeaveNotify g).
Proof. split; [unfold JoinNotify|unfold LeaveNotify]; frame. Qed.
Lemma blind_LeaveNotify g : blind (LeaveNotify g).
Proof. unfold LeaveNotify. frame. Qed.
Lemma frames_usage : frames UpdateChannelUseageInDB. Proof. unfold UpdateChannelUseageInDB. frame. Qed.
Lemma blind_usage : blind UpdateChannelUseageInDB. Proof. unfold UpdateChannelUseageInDB. frame. Qed.
#[local] Hint Resolve blind_LeaveNotify frames_usage blind_usage : frame.
#[local] Hint Extern 1 (frames (JoinNotify _)) => apply frames_notify : frame.
#[local] Hint Extern 1 (frames (LeaveNotify _)) => apply frames_notify : frame.

Lemma frames_JoinChannel p pass : frames (JoinChannel p pass).
Proof. unfold JoinChannel, JoinedChannel. frame. Qed.
Lemma frames_LeaveChannel p send : frames (LeaveChannel p send).
Proof. unfold LeaveChannel, LeftChannel. frame. Qed.
Lemma blind_LeaveChannel p : blind (LeaveChannel p false).
Proof. unfold LeaveChannel. cbn [when]. frame. Qed.
Lemma frames_CleanupChannel p : frames (CleanupChannel p).
Proof. unfold CleanupChannel, LeftChannel, LeaveChannel. frame. Qed.
Lemma frames_member_only p body : (forall c, frames (body c)) -> frames (member_only p body).
Proof. intros Hb. unfold member_only. frame. Qed.
Lemma frames_moderator_only p body : (forall c, frames (body c)) -> frames (moderator_only p body).
Proof. intros Hb. apply frames_member_only. frame. Qed.
Lemma frames_SetMode p n m b : frames (SetMode p n m b).
Proof. apply frames_moderator_only. unfold SetModerator, SetMute. frame. Qed.
Lemma frames_Say g w l : frames (Say g w l).
Proof. unfold Say. frame. Qed.
Lemma frames_KickOrBan p n b : frames (KickOrBan p n b).
Proof. apply frames_moderator_only. unfold LeftChannel. frame. Qed.
Lemma frames_UnBan p n : frames (UnBan p n).
Proof. apply frames_moderator_only. frame. Qed.
Lemma frames_Password p pass : frames (Password p pass).
Proof. apply frames_moderator_only. frame. Qed.
Lemma frames_SetOwner p n : frames (SetOwner p n).
Proof. apply frames_member_only. frame. Qed.
Lemma frames_List p : frames (List_ p).
Proof. apply frames_member_only. frame. Qed.
Lemma frames_Announce p : frames (Announce p).
Proof. apply frames_moderator_only. frame. Qed.
Lemma frames_Invite p n : frames (Invite p n).
Proof. apply frames_member_only. frame. Qed.
Lemma frames_SendWhoOwner g : frames (SendWhoOwner g).
Proof. unfold SendWhoOwner. frame. Qed.
End Operations.

#[export] Hint Resolve frames_JoinChannel frames_LeaveChannel frames_CleanupChannel frames_SetMode
  frames_Say frames_KickOrBan frames_UnBan frames_Password frames_SetOwner frames_List frames_Announce
  frames_Invite frames_SendWhoOwner : frame.

(** No command changes the name or the number of its channel. *)
Lemma frames_command `{Host, Platform} env c : frames (run_command env c).
Proof. destruct c; cbn [run_command]; eauto with frame. Qed.
