(* ===== verification/ChannelMgr.v ===== *)
(** * The channel managers and the handlers of channels

    [src/src/server/game/Chat/Channels/ChannelMgr.{h,cpp}],
    [Handlers/ChannelHandler.cpp], the part of [Entities/Player/Player.cpp] that
    keeps the list of a player's channels, and the case of channels in
    [Handlers/ChatHandler.cpp].  Channels are objects on a heap; the managers
    and the lists of the players hold their addresses, and the use of an address
    whose channel was deleted is undefined behaviour.  The operations of one
    channel are those of [Channel], run on the channel at an address. *)

From S2P Require Import Prelude Util Utf8 Names ByteBuffer Wire Packet Maps Guid Text Channel.

(** ** State *)

Definition HORDE : Z := 67.
Definition ALLIANCE : Z := 469.
Definition CHANNEL_DBC_FLAG_ZONE_DEP : Z := 0x00002.
Definition CHANNEL_DBC_FLAG_GLOBAL : Z := 0x00004.
Definition CHANNEL_DBC_FLAG_CITY_ONLY : Z := 0x00010.
Definition CHANNEL_DBC_FLAG_GUILD_REQ : Z := 0x20000.
Definition AREA_FLAG_SLAVE_CAPITAL : Z := 0x00000008.
Definition AREA_FLAG_ARENA_INSTANCE : Z := 0x00010000.
Definition SMSG_CHANNEL_MEMBER_COUNT : Z := 0x6414.

(** [ChannelMgr]: the channels by the lower case of their names. *)
Record ChannelMgr := mkChannelMgr { channels : gmap (list Z) Z; team : Z }.
#[export] Instance ChannelMgr_settable : Settable ChannelMgr := fun m =>
  mkChannelMgr (channels m) (team m).

(** The two singletons. *)
Inductive mgr_id := AllianceChannelMgr | HordeChannelMgr.
#[export] Instance mgr_id_eq_dec : EqDecision mgr_id.
Proof. solve_decision. Defined.

(** [lists] are the [m_channels] of the players, in order. *)
Record ChatState := mkChatState {
  heap : gmap Z Channel; next_address : Z;
  alliance : ChannelMgr; horde : ChannelMgr;
  lists : gmap Z (list Z);
  outputs : list chan_output }.
#[export] Instance ChatState_settable : Settable ChatState := fun s =>
  mkChatState (heap s) (next_address s) (alliance s) (horde s) (lists s) (outputs s).

Abbreviation GM := (M ChatState ByteBufferException).

Definition ChatState_new : ChatState :=
  mkChatState ∅ 1 (mkChannelMgr ∅ 0) (mkChannelMgr ∅ 0) ∅ [].

Definition mgr (id : mgr_id) (s : ChatState) : ChannelMgr :=
  match id with AllianceChannelMgr => alliance s | HordeChannelMgr => horde s end.
Definition on_mgr (id : mgr_id) (f : ChannelMgr -> ChannelMgr) : GM () :=
  modify (fun s => match id with
                   | AllianceChannelMgr => s <| alliance ::= f |>
                   | HordeChannelMgr => s <| horde ::= f |>
                   end).

(** The channels of a player. *)
Definition list_of (g : Z) (s : ChatState) : list Z := default [] (lists s !! g).
Definition set_list (g : Z) (l : list Z) (s : ChatState) : ChatState :=
  s <| lists ::= <[g := l]> |>.

(** What the managers and the lists ask of other parts: the names of the
    standard channels, the areas, the position, guild and session of a player,
    and what a function finds on its stack. *)
Class ChatWorld := {
  GetNumRows : Z;
  ChatChannelsEntry_pattern : Z -> list Z;
  GetAreaEntryByAreaID : Z -> option (Z * list Z);
  GetZoneId : Z -> Z;
  GetGuildId : Z -> Z;
  PlayerLoading : Z -> bool;
  IsBeingTeleportedFar : Z -> bool;
  LANG_CHANNEL_CITY : list Z;
  stack : list Z
}.

(** ** Objects *)

Definition new_channel (c : Channel) : GM Z := fun s =>
  Ok (next_address s) (s <| heap ::= <[next_address s := c]> |> <| next_address ::= Z.succ |>).
Definition channel_at (a : Z) : GM Channel := fun s =>
  match heap s !! a with Some c => Ok c s | None => Abort UndefinedBehaviour end.
Definition delete_channel (a : Z) : GM () := modify (fun s => s <| heap ::= delete a |>).

Definition count (g : Z) (l : list Z) : nat := length (filter (fun x => x = g) l).

(** The players that have the channel at [a] in their list, as often as they
    have it. *)
Definition holders (a : Z) (s : ChatState) : list Z :=
  concat (map (fun x => replicate (count a x.2) x.1) (map_to_list (lists s))).

(** The list of a player whose occurrences of [a] went from [before] to [after]:
    [push_back] adds at the end, [remove] removes all. *)
Definition relisted (a : Z) (before after : nat) (l : list Z) : list Z :=
  if (after =? 0)%nat then filter (fun x => x <> a) l
  else l ++ replicate (after - before) a.

Definition put_back (a : Z) (before : list Z) (t : CState) (s : ChatState) : ChatState :=
  let players := remove_dups (before ++ m_channels t) in
  s <| heap ::= <[a := chan t]> |> <| outputs := sent t |>
    <| lists ::= fun m =>
         fold_right (fun g m =>
           <[g := relisted a (count g before) (count g (m_channels t)) (default [] (m !! g))]> m)
           m players |>.

(** An operation of the channel at [a]. *)
Definition on_channel {A} (a : Z) (m : CM A) : GM A := fun s =>
  match heap s !! a with
  | None => Abort UndefinedBehaviour
  | Some c =>
      let before := holders a s in
      match m (mkCState c before (outputs s)) with
      | Ok x t => Ok x (put_back a before t s)
      | Throw e t => Throw e (put_back a before t s)
      | Abort r => Abort r
      end
  end.

Definition emit_output (o : chan_output) : GM () := modify (fun s => s <| outputs ::= fun l => l ++ [o] |>).

(** ** ChannelMgr.cpp *)

Section Manager.
Context `{Host, Platform, Server}.

Definition forTeam (team : Z) : option mgr_id :=
  if CONFIG_ALLOW_TWO_SIDE_INTERACTION_CHANNEL then Some AllianceChannelMgr
  else if team =? ALLIANCE then Some AllianceChannelMgr
  else if team =? HORDE then Some HordeChannelMgr
  else None.

Definition setTeam (id : mgr_id) (newTeam : Z) : GM () := on_mgr id (fun m => m <| team := newTeam |>).

(** [Utf8toWStr(name, wname); wstrToLower(wname)], whatever the first returns. *)
Definition key_of (name : list Z) : GM (list Z) :=
  '(_, wname) ← on_local [] (Utf8toWStr name);
  mret (wstrToLower wname).

Definition find_channel (id : mgr_id) (wname : list Z) : GM (option Z) :=
  gets (fun s => channels (mgr id s) !! wname).

Definition GetJoinChannel (id : mgr_id) (name : list Z) (channelId : Z) : GM Z :=
  wname ← key_of name;
  i ← find_channel id wname;
  match i with
  | None =>
      t ← gets (fun s => team (mgr id s));
      '(c_created, _) ← on_local () (Channel_new name channelId t);
      for_each c_created.2 emit_output;;
      nchan ← new_channel c_created.1;
      on_mgr id (fun m => m <| channels ::= <[wname := nchan]> |>);;
      mret nchan
  | Some a => mret a
  end.

Definition MakeNotOnPacket (name : list Z) : PK () :=
  Initialize SMSG_CHANNEL_NOTIFY (1 + zlen name);;
  lift (out TU8 5);; lift (out_string name).

Definition GetChannel (id : mgr_id) (name : list Z) (player : Player) (pkt : bool) : GM (option Z) :=
  wname ← key_of name;
  i ← find_channel id wname;
  match i with
  | None =>
      when pkt
        ('(_, data) ← on_local WorldPacket_default (MakeNotOnPacket name);
         emit_output (SendPacket (GetGUID player) data));;
      mret None
  | Some a => mret (Some a)
  end.

(** [ChannelMgr::LeftChannel] *)
Definition mgr_LeftChannel (id : mgr_id) (name : list Z) : GM () :=
  wname ← key_of name;
  i ← find_channel id wname;
  match i with
  | None => mret ()
  | Some a =>
      channel ← channel_at a;
      when ((GetNumPlayers channel =? 0) && negb (IsConstant channel))
        (on_mgr id (fun m => m <| channels ::= delete wname |>);;
         delete_channel a)
  end.
End Manager.

(** ** The list of a player (Player.cpp) *)

Section Player.
Context `{Host, Platform, Server, ChatWorld}.

(** [ChatChannelsEntry::ChannelID] is the number of the row. *)
Definition CanJoinConstantChannelInZone (player : Player) (channelId flags zone_flags : Z) : bool :=
  if (channelId =? 26) && negb CONFIG_RESTRICTED_LFG_CHANNEL then true
  else if has_flag flags CHANNEL_DBC_FLAG_ZONE_DEP && has_flag zone_flags AREA_FLAG_ARENA_INSTANCE
    then false
  else if has_flag flags CHANNEL_DBC_FLAG_CITY_ONLY && negb (has_flag zone_flags AREA_FLAG_SLAVE_CAPITAL)
    then false
  else if has_flag flags CHANNEL_DBC_FLAG_GUILD_REQ && negb (GetGuildId (GetGUID player) =? 0)
    then false
  else true.

(** The loop of [CleanupChannels]; the fuel is the length of the list. *)
Fixpoint cleanup_loop (fuel : nat) (player : Player) : GM () :=
  l ← gets (list_of (GetGUID player));
  match l with
  | [] => mret ()
  | ch :: l' =>
      match fuel with
      | O => abort UndefinedBehaviour
      | S fuel' =>
          modify (set_list (GetGUID player) l');;
          on_channel ch (LeaveChannel player false);;
          match forTeam (GetTeam player) with
          | Some cMgr => c ← channel_at ch; mgr_LeftChannel cMgr (_name c)
          | None => mret ()
          end;;
          cleanup_loop fuel' player
      end
  end.

Definition CleanupChannels (player : Player) : GM () :=
  l ← gets (list_of (GetGUID player));
  cleanup_loop (length l) player.

(** [snprintf(buf, 100, pattern, ext)], for a pattern with at most one [%s]:
    the first 99 characters. *)
Fixpoint format (pattern ext : list Z) : list Z :=
  match pattern with
  | c :: ((d :: pattern') as rest) =>
      if (c =? 37) && (d =? 115) then ext ++ pattern' else c :: format rest ext
  | l => l
  end.
Definition snprintf100 (pattern ext : list Z) : list Z := ztake 99 (format pattern ext).

(** The first channel of the list with the number [i]. *)
Fixpoint used_channel (i : Z) (l : list Z) : GM (option Z) :=
  match l with
  | [] => mret None
  | a :: l' =>
      c ← channel_at a;
      if _channelId c =? i then mret (Some a) else used_channel i l'
  end.

(** What [UpdateLocalChannels] decides for the row [i]: the channel to leave,
    the one to join, and whether the client is told that it leaves. *)
Definition local_channel (cMgr : mgr_id) (player : Player) (i flags zone_flags : Z) (zone_name : list Z)
    (usedChannel : option Z) : GM (option Z * option Z * bool) :=
  if CanJoinConstantChannelInZone player i flags zone_flags then
    if negb (has_flag flags CHANNEL_DBC_FLAG_GLOBAL) then
      if has_flag flags CHANNEL_DBC_FLAG_CITY_ONLY && bool_decide (is_Some usedChannel)
      then mret (None, None, true)
      else
        let currentNameExt := if has_flag flags CHANNEL_DBC_FLAG_CITY_ONLY then LANG_CHANNEL_CITY
                              else zone_name in
        joinChannel ← GetJoinChannel cMgr (snprintf100 (ChatChannelsEntry_pattern i) currentNameExt) i;
        match usedChannel with
        | Some used =>
            if negb (joinChannel =? used) then mret (Some used, Some joinChannel, false)
            else mret (None, None, true)
        | None => mret (None, Some joinChannel, true)
        end
    else
      joinChannel ← GetJoinChannel cMgr (ChatChannelsEntry_pattern i) i;
      mret (None, Some joinChannel, true)
  else mret (usedChannel, None, true).

(** The end of the iteration: joining, then leaving. *)
Definition switch_channel (cMgr : mgr_id) (player : Player) (removeChannel joinChannel : option Z)
    (sendRemove : bool) : GM () :=
  match joinChannel with
  | Some a => on_channel a (JoinChannel player [])
  | None => mret ()
  end;;
  match removeChannel with
  | Some a =>
      on_channel a (LeaveChannel player sendRemove);;
      c ← channel_at a;
      on_channel a (LeftChannel player);;
      mgr_LeftChannel cMgr (_name c)
  | None => mret ()
  end.

Definition local_step (cMgr : mgr_id) (player : Player) (zone_flags : Z) (zone_name : list Z) (i : Z) :
    GM () :=
  match ChatChannelsEntry_flags i with
  | None => mret ()
  | Some flags =>
      l ← gets (list_of (GetGUID player));
      usedChannel ← used_channel i l;
      '(removeChannel, joinChannel, sendRemove) ←
        local_channel cMgr player i flags zone_flags zone_name usedChannel;
      switch_channel cMgr player removeChannel joinChannel sendRemove
  end.

Definition UpdateLocalChannels (player : Player) (newZone : Z) : GM () :=
  if PlayerLoading (GetGUID player) && negb (IsBeingTeleportedFar (GetGUID player)) then mret () else
  match GetAreaEntryByAreaID newZone with
  | None => mret ()
  | Some (zone_flags, zone_name) =>
      match forTeam (GetTeam player) with
      | None => mret ()
      | Some cMgr =>
          for_each (seqZ 0 GetNumRows) (local_step cMgr player zone_flags zone_name)
      end
  end.

(** The loop of [LeaveLFGChannel], up to the first such channel. *)
Fixpoint leave_lfg (player : Player) (l : list Z) : GM () :=
  match l with
  | [] => mret ()
  | a :: l' =>
      c ← channel_at a;
      if IsLFG c then on_channel a (LeaveChannel player true) else leave_lfg player l'
  end.
Definition LeaveLFGChannel (player : Player) : GM () :=
  l ← gets (list_of (GetGUID player));
  leave_lfg player l.
End Player.

(** ** ChannelHandler.cpp *)

Section Handlers.
Context `{Host, Platform, Server, ChatWorld}.

(** The reads of each handler, in the order of the code. *)
Definition read_join : BB (Z * list Z * list Z) :=
  channelId ← inn TU32;
  _ ← ReadBit; _ ← ReadBit;
  channelLength ← ReadBits 8;
  passLength ← ReadBits 8;
  channelName ← ReadString channelLength;
  password ← ReadString passLength;
  mret (channelId, channelName, password).

Definition read_leave : BB (list Z) :=
  _ ← inn TU32;
  length ← ReadBits 8;
  ReadString length.

Definition read_channel : BB (list Z) :=
  length ← ReadBits 8;
  ReadString length.

Definition read_password : BB (list Z * list Z) :=
  nameLength ← ReadBits 8;
  passLength ← ReadBits 7;
  channelName ← ReadString nameLength;
  password ← ReadString passLength;
  mret (channelName, password).

(** The channel and the player named. *)
Definition read_set_owner : BB (list Z * list Z) :=
  channelLength ← ReadBits 8; nameLength ← ReadBits 7;
  targetName ← ReadString nameLength; channelName ← ReadString channelLength;
  mret (channelName, targetName).
Definition read_moderator : BB (list Z * list Z) :=
  channelLength ← ReadBits 8; nameLength ← ReadBits 7;
  targetName ← ReadString nameLength; channelName ← ReadString channelLength;
  mret (channelName, targetName).
Definition read_unmoderator : BB (list Z * list Z) :=
  nameLength ← ReadBits 7; channelLength ← ReadBits 8;
  channelName ← ReadString channelLength; targetName ← ReadString nameLength;
  mret (channelName, targetName).
Definition read_mute : BB (list Z * list Z) :=
  channelLength ← ReadBits 8; nameLength ← ReadBits 7;
  channelName ← ReadString channelLength; targetName ← ReadString nameLength;
  mret (channelName, targetName).
Definition read_unmute : BB (list Z * list Z) :=
  nameLength ← ReadBits 8; channelLength ← ReadBits 7;
  targetName ← ReadString nameLength; channelName ← ReadString channelLength;
  mret (channelName, targetName).
Definition read_invite : BB (list Z * list Z) :=
  nameLength ← ReadBits 7; channelLength ← ReadBits 8;
  targetName ← ReadString nameLength; channelName ← ReadString channelLength;
  mret (channelName, targetName).
Definition read_kick : BB (list Z * list Z) :=
  channelLength ← ReadBits 8; nameLength ← ReadBits 7;
  channelName ← ReadString channelLength; targetName ← ReadString nameLength;
  mret (channelName, targetName).
Definition read_ban : BB (list Z * list Z) :=
  channelLength ← ReadBits 8; nameLength ← ReadBits 7;
  targetName ← ReadString nameLength; channelName ← ReadString channelLength;
  mret (channelName, targetName).
Definition read_unban : BB (list Z * list Z) :=
  channelLength ← ReadBits 7; nameLength ← ReadBits 8;
  targetName ← ReadString nameLength; channelName ← ReadString channelLength;
  mret (channelName, targetName).

(** A request is what was read; each handler reads it all before it acts. *)
Inductive target_command :=
| TSetOwner | TModerator | TUnmoderator | TMute | TUnmute | TInvite | TKick | TBan | TUnban.

Inductive request :=
| RJoin (channelId : Z) (channelName password : list Z)
| RLeave (channelName : list Z)
| RList (channelName : list Z)
| RPassword (channelName password : list Z)
| ROwner (channelName : list Z)
| RTarget (cmd : target_command) (channelName targetName : list Z)
| RAnnouncements (channelName : list Z)
| RMemberCount (channelName : list Z)
| RWatch (channelName : list Z).

Definition HandleJoinChannel (player : Player) (channelId : Z) (channelName password : list Z) : GM () :=
  let allowed :=
    if negb (channelId =? 0) then
      match ChatChannelsEntry_flags channelId with
      | None => false
      | Some flags =>
          match GetAreaEntryByAreaID (GetZoneId (GetGUID player)) with
          | None => false
          | Some (zone_flags, _) => CanJoinConstantChannelInZone player channelId flags zone_flags
          end
      end
    else true in
  if negb allowed then mret () else
  if bool_decide (channelName = []) then mret () else
  match forTeam (GetTeam player) with
  | Some cMgr =>
      setTeam cMgr (GetTeam player);;
      channel ← GetJoinChannel cMgr channelName channelId;
      on_channel channel (JoinChannel player password)
  | None => mret ()
  end.

(** [if (cMgr) if (Channel* channel = cMgr->GetChannel(channelName, player)) ...] *)
Definition with_channel (player : Player) (channelName : list Z) (body : Z -> GM ()) : GM () :=
  match forTeam (GetTeam player) with
  | Some cMgr =>
      channel ← GetChannel cMgr channelName player true;
      match channel with Some a => body a | None => mret () end
  | None => mret ()
  end.

Definition HandleLeaveChannel (player : Player) (channelName : list Z) : GM () :=
  if bool_decide (channelName = []) then mret () else
  match forTeam (GetTeam player) with
  | Some cMgr =>
      channel ← GetChannel cMgr channelName player true;
      match channel with
      | Some a => on_channel a (LeaveChannel player true)
      | None => mret ()
      end;;
      mgr_LeftChannel cMgr channelName
  | None => mret ()
  end.

Definition HandleChannelList (player : Player) (channelName : list Z) : GM () :=
  with_channel player channelName (fun a => on_channel a (List_ player)).
Definition HandleChannelDisplayListQuery : Player -> list Z -> GM () := HandleChannelList.
Definition HandleChannelPassword (player : Player) (channelName password : list Z) : GM () :=
  with_channel player channelName (fun a => on_channel a (Password player password)).
Definition HandleChannelOwner (player : Player) (channelName : list Z) : GM () :=
  with_channel player channelName (fun a => on_channel a (SendWhoOwner (GetGUID player))).
Definition HandleChannelAnnouncements (player : Player) (channelName : list Z) : GM () :=
  with_channel player channelName (fun a => on_channel a (Announce player)).

(** The operation a command runs on a normalised name. *)
Definition target_operation (cmd : target_command) (player : Player) (targetName : list Z) : CM () :=
  match cmd with
  | TSetOwner => SetOwner player targetName
  | TModerator => SetMode player targetName true true
  | TUnmoderator => SetMode player targetName true false
  | TMute => SetMode player targetName false true
  | TUnmute => SetMode player targetName false false
  | TInvite => Invite player targetName
  | TKick => KickOrBan player targetName false
  | TBan => KickOrBan player targetName true
  | TUnban => UnBan player targetName
  end.

(** The handlers of commands on a player differ in what they read and in the
    operation: *)
Definition HandleChannelTarget (cmd : target_command) (player : Player)
    (channelName targetName : list Z) : GM () :=
  '(ok, targetName) ← on_local targetName (normalizePlayerName stack);
  if negb ok then mret () else
  with_channel player channelName (fun a => on_channel a (target_operation cmd player targetName)).

Definition HandleChannelSetOwner : Player -> list Z -> list Z -> GM () := HandleChannelTarget TSetOwner.
Definition HandleChannelModerator : Player -> list Z -> list Z -> GM () := HandleChannelTarget TModerator.
Definition HandleChannelUnmoderator : Player -> list Z -> list Z -> GM () := HandleChannelTarget TUnmoderator.
Definition HandleChannelMute : Player -> list Z -> list Z -> GM () := HandleChannelTarget TMute.
Definition HandleChannelUnmute : Player -> list Z -> list Z -> GM () := HandleChannelTarget TUnmute.
Definition HandleChannelInvite : Player -> list Z -> list Z -> GM () := HandleChannelTarget TInvite.
Definition HandleChannelKick : Player -> list Z -> list Z -> GM () := HandleChannelTarget TKick.
Definition HandleChannelBan : Player -> list Z -> list Z -> GM () := HandleChannelTarget TBan.
Definition HandleChannelUnban : Player -> list Z -> list Z -> GM () := HandleChannelTarget TUnban.

Definition HandleGetChannelMemberCount (player : Player) (channelName : list Z) : GM () :=
  with_channel player channelName (fun a =>
    channel ← channel_at a;
    '(_, data) ← on_local (WorldPacket_new SMSG_CHANNEL_MEMBER_COUNT)
      (lift (out_string (_name channel);;
             out TU8 (u8 (_flags channel));;
             out TU32 (GetNumPlayers channel)));
    emit_output (SendPacket (GetGUID player) data)).

(** The case [CHAT_MSG_CHANNEL] of [HandleMessagechatOpcode], after the check of
    the level and the hook of scripts. *)
Definition ChatMsgChannel (player : Player) (channel msg : list Z) (lang : Z) : GM () :=
  with_channel player channel (fun a => on_channel a (Say (GetGUID player) msg lang)).

Definition serve (player : Player) (r : request) : GM () :=
  match r with
  | RJoin channelId channelName password => HandleJoinChannel player channelId channelName password
  | RLeave channelName => HandleLeaveChannel player channelName
  | RList channelName => HandleChannelList player channelName
  | RPassword channelName password => HandleChannelPassword player channelName password
  | ROwner channelName => HandleChannelOwner player channelName
  | RTarget cmd channelName targetName =>
      match cmd with
      | TSetOwner => HandleChannelSetOwner
      | TModerator => HandleChannelModerator
      | TUnmoderator => HandleChannelUnmoderator
      | TMute => HandleChannelMute
      | TUnmute => HandleChannelUnmute
      | TInvite => HandleChannelInvite
      | TKick => HandleChannelKick
      | TBan => HandleChannelBan
      | TUnban => HandleChannelUnban
      end player channelName targetName
  | RAnnouncements channelName => HandleChannelAnnouncements player channelName
  | RMemberCount channelName => HandleGetChannelMemberCount player channelName
  | RWatch _ => mret ()
  end.

Definition read_target (cmd : target_command) : BB (list Z * list Z) :=
  match cmd with
  | TSetOwner => read_set_owner | TModerator => read_moderator | TUnmoderator => read_unmoderator
  | TMute => read_mute | TUnmute => read_unmute | TInvite => read_invite | TKick => read_kick
  | TBan => read_ban | TUnban => read_unban
  end.

(** The kinds of packets, by their handler. *)
Inductive packet_kind :=
| PJoin | PLeave | PList | PPassword | POwner | PTarget (cmd : target_command) | PAnnouncements
| PMemberCount | PWatch.

Definition read_request (k : packet_kind) : BB request :=
  match k with
  | PJoin => '(i, n, p) ← read_join; mret (RJoin i n p)
  | PLeave => n ← read_leave; mret (RLeave n)
  | PList => n ← read_channel; mret (RList n)
  | PPassword => '(n, p) ← read_password; mret (RPassword n p)
  | POwner => n ← read_channel; mret (ROwner n)
  | PTarget cmd => '(n, t) ← read_target cmd; mret (RTarget cmd n t)
  | PAnnouncements => n ← read_channel; mret (RAnnouncements n)
  | PMemberCount => n ← inn_string; mret (RMemberCount n)
  | PWatch => n ← inn_string; mret (RWatch n)
  end.

(** A packet from the client of [player]. *)
Definition HandleChannelPacket (k : packet_kind) (player : Player) (recvPacket : WorldPacket) : GM () :=
  '(r, _) ← on_local recvPacket (lift (read_request k));
  serve player r.
End Handlers.
