(* ===== verification/ChannelMgrProps.v ===== *)
(** * The channel managers keep their books

    What the managers, the channels on the heap and the lists of the players say
    of each other, and that every operation and handler keeps it. *)

From S2P Require Import Prelude Util Utf8 Utf8Props Names NamesProps ByteBuffer Wire Packet Maps Guid Text Channel ChannelRuns ChannelInv ChannelOps ChannelLife ChannelFrame ChannelMgr.

(** ** Names *)

(** Octets that fit a packet, with no character that overruns the strings of the
    server. *)
Definition plain (name : list Z) : Prop := Forall octet name /\ name_ok name /\ basic name.

Lemma plain_ok name : plain name -> name_ok name.
Proof. by intros (_ & ? & _). Qed.

(** The key of a name in the managers' maps. *)
Definition name_key (name : list Z) : list Z :=
  match Utf8toWStr (E := ByteBufferException) name [] with
  | Ok _ w => wstrToLower w
  | _ => []
  end.

Lemma key_of_run name s : plain name -> key_of name s = Ok (name_key name) s.
Proof.
  intros (Hoct & _ & Hbmp). unfold key_of, name_key, mbind, M_bind, on_local.
  destruct (decide (name = [])) as [->|Hne]; [done|].
  destruct (Utf8toWStr_cases (E := ByteBufferException) name [] Hoct Hne) as [[_ ->]|[(cps & _ & _ & ->)|(cps & -> & Hs & Hex & _)]];
    [done..|].
  specialize (Hbmp cps eq_refl Hs). apply Exists_exists in Hex as (cp & Hin & Hgt).
  rewrite Forall_forall in Hbmp. destruct (Hbmp cp Hin). lia.
Qed.

(** ** Lists of addresses *)

Lemma count_notin a l : a ∉ l -> count a l = 0%nat.
Proof.
  intros Hn. unfold count. induction l as [|x l IH]; [done|].
  rewrite filter_cons. apply not_elem_of_cons in Hn as [Hx Hl].
  rewrite decide_False by done. by apply IH.
Qed.

Lemma count_once a l : NoDup l -> a ∈ l -> count a l = 1%nat.
Proof.
  induction 1 as [|x l Hx Hl IH]; [by intros ?%elem_of_nil|]. unfold count. rewrite filter_cons.
  intros [->|Hin]%elem_of_cons.
  - rewrite decide_True by done. cbn [length]. by rewrite (count_notin x l Hx : length _ = _).
  - rewrite decide_False by (intros ->; done). by apply IH.
Qed.

Lemma count_NoDup a l : NoDup l -> count a l = if bool_decide (a ∈ l) then 1%nat else 0%nat.
Proof. intros Hl. case_bool_decide; [by apply count_once|by apply count_notin]. Qed.

Lemma filter_without a (l : list Z) : a ∉ l -> filter (fun x => x <> a) l = l.
Proof.
  induction l as [|x l IH]; [done|]. intros [Hx Hl]%not_elem_of_cons.
  rewrite filter_cons, decide_True by done. by rewrite IH.
Qed.

Lemma elem_holders g a st : g ∈ holders a st <-> a ∈ list_of g st.
Proof.
  unfold holders, list_of. rewrite list_elem_of_In, in_concat. split.
  - intros (l & Hl & Hg). apply in_map_iff in Hl as ([g' l'] & <- & Hin).
    apply list_elem_of_In, elem_of_replicate in Hg as [-> Hc].
    apply list_elem_of_In, elem_of_map_to_list in Hin. cbn. rewrite Hin. cbn.
    destruct (decide (a ∈ l')) as [|Hn]; [done|]. cbn [snd] in Hc. by rewrite (count_notin a l' Hn) in Hc.
  - destruct (lists st !! g) as [l|] eqn:Hg; cbn; [|by intros ?%elem_of_nil].
    intros Ha. exists (replicate (count a l) g). split.
    + apply in_map_iff. exists (g, l). split; [done|]. by apply list_elem_of_In, elem_of_map_to_list.
    + apply list_elem_of_In, elem_of_replicate. split; [done|]. unfold count. intros Hc.
      apply length_zero_iff_nil in Hc. assert (Hin : a ∈ filter (λ x, x = a) l)
        by by apply list_elem_of_filter. rewrite Hc in Hin. by apply elem_of_nil in Hin.
Qed.

(** The lists name each channel once. *)
Definition lists_once (st : ChatState) : Prop := forall g, NoDup (list_of g st).

Lemma NoDup_holders a st : lists_once st -> NoDup (holders a st).
Proof.
  intros Hl. unfold holders.
  assert (Hall : forall x, x ∈ map_to_list (lists st) -> NoDup x.2).
  { intros [g l] Hin%elem_of_map_to_list. specialize (Hl g). unfold list_of in Hl. by rewrite Hin in Hl. }
  pose proof (NoDup_fst_map_to_list (lists st)) as Hnd. revert Hall Hnd.
  induction (map_to_list (lists st)) as [|[g l] ps IH]; intros Hall Hnd; [constructor|].
  cbn [map concat fst snd]. cbn in Hnd. apply NoDup_cons in Hnd as [Hg Hnd].
  apply NoDup_app. split_and!.
  - rewrite count_NoDup by by apply (Hall (g, l)); set_solver. case_bool_decide; cbn.
    + apply NoDup_singleton.
    + constructor.
  - intros x [-> _]%elem_of_replicate Hin. apply Hg.
    apply list_elem_of_In, in_concat in Hin as (l' & Hl' & Hin).
    apply in_map_iff in Hl' as ([g' l''] & <- & Hin'). apply list_elem_of_In, elem_of_replicate in Hin as [-> _].
    apply list_elem_of_fmap. exists (g', l''). split; [done|]. by apply list_elem_of_In.
  - apply IH; [|done]. intros x Hx. apply Hall. set_solver.
Qed.

(** ** Writing a channel back *)

Lemma default_fold (f : Z -> list Z -> list Z) (ps : list Z) (m : gmap Z (list Z)) g :
  NoDup ps ->
  default [] (fold_right (fun g (m : gmap Z (list Z)) => <[g := f g (default [] (m !! g))]> m) m ps !! g)
  = if bool_decide (g ∈ ps) then f g (default [] (m !! g)) else default [] (m !! g).
Proof.
  induction 1 as [|p ps Hp Hps IH]; [done|]. cbn [fold_right].
  destruct (decide (g = p)) as [->|Hne].
  - rewrite lookup_insert_eq. cbn. rewrite IH.
    rewrite bool_decide_eq_false_2 by done. by rewrite bool_decide_eq_true_2 by set_solver.
  - rewrite lookup_insert_ne by done. rewrite IH.
    rewrite (bool_decide_ext (g ∈ p :: ps) (g ∈ ps)) by set_solver. done.
Qed.

Lemma list_of_put_back g a t st :
  lists_once st -> NoDup (m_channels t) ->
  list_of g (put_back a (holders a st) t st) =
  if bool_decide (g ∈ m_channels t) then
    if bool_decide (a ∈ list_of g st) then list_of g st else list_of g st ++ [a]
  else filter (fun x => x <> a) (list_of g st).
Proof.
  intros Hl Ht. unfold list_of at 1, put_back. cbn.
  rewrite (default_fold (fun g => relisted a (count g (holders a st)) (count g (m_channels t))))
    by apply NoDup_remove_dups.
  fold (list_of g st). rewrite count_NoDup by by apply NoDup_holders. rewrite count_NoDup by done.
  rewrite (bool_decide_ext (g ∈ holders a st) (a ∈ list_of g st)) by apply elem_holders.
  rewrite (bool_decide_ext (g ∈ remove_dups _) (a ∈ list_of g st \/ g ∈ m_channels t))
    by by rewrite elem_of_remove_dups, elem_of_app, elem_holders.
  unfold relisted. repeat case_bool_decide; cbn; try rewrite app_nil_r; try done; try tauto.
  symmetry. apply filter_without. tauto.
Qed.

Lemma elem_put_back x g a t st :
  lists_once st -> NoDup (m_channels t) ->
  x ∈ list_of g (put_back a (holders a st) t st) <->
  (x = a /\ g ∈ m_channels t) \/ (x <> a /\ x ∈ list_of g st).
Proof.
  intros Hl Ht. rewrite list_of_put_back by done. repeat case_bool_decide.
  - destruct (decide (x = a)) as [->|]; naive_solver.
  - rewrite elem_of_app, list_elem_of_singleton. destruct (decide (x = a)) as [->|]; naive_solver.
  - rewrite list_elem_of_filter. naive_solver.
Qed.

Lemma once_put_back a t st :
  lists_once st -> NoDup (m_channels t) -> lists_once (put_back a (holders a st) t st).
Proof.
  intros Hl Ht g. rewrite list_of_put_back by done. specialize (Hl g). repeat case_bool_decide.
  - done.
  - apply NoDup_app. split; [done|]. split; [|apply NoDup_singleton].
    by intros x Hx ->%list_elem_of_singleton.
  - by apply NoDup_filter.
Qed.

(** ** The books

    The channels in a player's list are live channels that count the player among
    their members, and the converse; the managers know every live channel, by the
    key of its name, and no other; an address is used once.  [bad] excepts the
    channels between two updates. *)

Definition nobody : Z -> Prop := fun _ => False.

Record books_but (bad : Z -> Prop) (st : ChatState) : Prop := {
  bk_once : lists_once st;
  bk_live : forall g a, a ∈ list_of g st -> is_Some (heap st !! a);
  bk_name : forall a c, heap st !! a = Some c -> plain (_name c);
  bk_members : forall a c, heap st !! a = Some c -> ~ bad a ->
    members_ok c /\ forall g, a ∈ list_of g st <-> IsOn g c = true;
  bk_key : forall id k a, channels (mgr id st) !! k = Some a ->
    exists c, heap st !! a = Some c /\ k = name_key (_name c);
  bk_found : forall a c, heap st !! a = Some c ->
    exists id, channels (mgr id st) !! name_key (_name c) = Some a;
  bk_one : forall id id' k k' a, channels (mgr id st) !! k = Some a ->
    channels (mgr id' st) !! k' = Some a -> id = id';
  bk_fresh : forall a, is_Some (heap st !! a) -> a < next_address st
}.

Definition books : ChatState -> Prop := books_but (fun _ => False).

Lemma books_but_weaken (bad bad' : Z -> Prop) st :
  (forall a, bad a -> bad' a) -> books_but bad st -> books_but bad' st.
Proof. intros Hb [H1 H2 H3 H4 H5 H6 H7 H8]. split; eauto. Qed.

Lemma books_restore a st :
  books_but (eq a) st ->
  (forall c, heap st !! a = Some c -> members_ok c /\ forall g, a ∈ list_of g st <-> IsOn g c = true) ->
  books st.
Proof.
  intros [H1 H2 H3 H4 H5 H6 H7 H8] Ha. split; try done. intros x c Hx _.
  destruct (decide (a = x)) as [<-|Hne]; [by apply Ha|by apply H4].
Qed.

(** What a channel at an address sees. *)
Lemma books_view bad a c o st :
  books_but bad st -> ~ bad a -> heap st !! a = Some c ->
  chan_inv nobody (mkCState c (holders a st) o).
Proof.
  intros Hst Hbad Hc. destruct (bk_members _ _ Hst a c Hc Hbad) as [Hm Hl]. split; cbn.
  - by eapply plain_ok, bk_name.
  - done.
  - intros g. rewrite elem_holders, Hl. apply IsOn_true.
  - by intros v [].
  - apply NoDup_holders, Hst.
Qed.

(** Channels stay, under the same name and number. *)
Definition persists (st st' : ChatState) : Prop :=
  forall x c, heap st !! x = Some c -> exists c', heap st' !! x = Some c' /\ same_id c c'.

Lemma persists_refl st : persists st st.
Proof. intros x c Hx. eauto using same_id_refl. Qed.

Lemma persists_trans st1 st2 st3 : persists st1 st2 -> persists st2 st3 -> persists st1 st3.
Proof.
  intros H1 H2 x c (c' & Hc' & Hid)%H1. apply H2 in Hc' as (c'' & Hc'' & Hid').
  exists c''. split; [done|]. by eapply same_id_trans.
Qed.

Lemma persists_put_back a c t l st :
  heap st !! a = Some c -> same_id c (chan t) -> persists st (put_back a l t st).
Proof.
  intros Ha Hid x c' Hx. cbn. destruct (decide (x = a)) as [->|Hne].
  - rewrite lookup_insert_eq. exists (chan t). split; [done|]. by simplify_eq.
  - rewrite lookup_insert_ne by done. eauto using same_id_refl.
Qed.

Lemma mgr_put_back id a t l st : mgr id (put_back a l t st) = mgr id st.
Proof. by destruct id. Qed.

Lemma books_but_put_back a c t st :
  books_but (eq a) st -> heap st !! a = Some c -> same_id c (chan t) -> NoDup (m_channels t) ->
  books_but (eq a) (put_back a (holders a st) t st).
Proof.
  intros [H1 H2 H3 H4 H5 H6 H7 H8] Ha Hid Ht.
  assert (Hheap : forall x, is_Some (heap (put_back a (holders a st) t st) !! x) <-> is_Some (heap st !! x)).
  { intros x. cbn. rewrite lookup_insert_is_Some'. split; [intros [<-|?]; eauto|auto]. }
  pose proof (persists_put_back a c t (holders a st) st Ha Hid) as Hper.
  assert (Hback : forall x c', heap (put_back a (holders a st) t st) !! x = Some c' ->
    exists c0, heap st !! x = Some c0 /\ same_id c0 c').
  { intros x c'. cbn. intros [[<- <-]|[_ Hx]]%lookup_insert_Some; eauto using same_id_refl. }
  split.
  - by apply once_put_back.
  - intros g x. rewrite elem_put_back, Hheap by done. intros [[-> _]|[_ Hx]]; eauto.
  - intros x c' (c0 & Hx & [-> _])%Hback. by eapply H3.
  - intros x c' Hx Hne. cbn in Hx. rewrite lookup_insert_ne in Hx by done.
    destruct (H4 x c' Hx Hne) as [Hm Hl]. split; [done|]. intros g. rewrite elem_put_back by done.
    rewrite <- Hl. naive_solver.
  - intros id k x. rewrite mgr_put_back. intros (c0 & Hx & ->)%H5. apply Hper in Hx as (c' & Hc' & [Hn _]).
    exists c'. by rewrite Hn.
  - intros x c' (c0 & Hx & [-> _])%Hback. apply H6 in Hx as [id Hid']. exists id. by rewrite mgr_put_back.
  - intros id id' k k' x. rewrite !mgr_put_back. apply H7.
  - intros x. rewrite Hheap. apply H8.
Qed.

Lemma books_put_back a c t st :
  books_but (eq a) st -> heap st !! a = Some c -> same_id c (chan t) -> chan_inv nobody t ->
  books (put_back a (holders a st) t st).
Proof.
  intros Hst Ha Hid Ht. apply (books_restore a).
  { eapply books_but_put_back; [done..|apply Ht]. }
  cbn. rewrite lookup_insert_eq. intros c' [= <-]. split; [apply Ht|]. intros g.
  rewrite elem_put_back by (apply Hst || apply Ht). rewrite (inv_lists _ _ Ht), IsOn_true. naive_solver.
Qed.

(** *** Operations of one channel *)

(** What an operation on the channel at [a] leaves. *)
Definition kept (st st' : ChatState) : Prop :=
  books st' /\ persists st st' /\ forall id, mgr id st' = mgr id st.

Lemma on_channel_run {A} a c (m : CM A) st x t :
  heap st !! a = Some c -> m (mkCState c (holders a st) (outputs st)) = Ok x t ->
  on_channel a m st = Ok x (put_back a (holders a st) t st).
Proof. intros Ha Hm. unfold on_channel. by rewrite Ha, Hm. Qed.

Lemma frames_run {A} (m : CM A) s x s' : frames m -> m s = Ok x s' -> same_id (chan s) (chan s').
Proof. intros Hf Hm. specialize (Hf s). by rewrite Hm in Hf. Qed.

Lemma on_channel_keeps a m st :
  books st -> is_Some (heap st !! a) -> keeps nobody m -> frames m ->
  returns (on_channel a m) (fun _ => kept st) st.
Proof.
  intros Hst [c Ha] Hm Hf.
  pose proof (Hm _ (books_view _ a c (outputs st) st Hst (fun H => H) Ha)) as Hr.
  apply returns_Ok in Hr as ([] & t & Hrun & Ht).
  pose proof (frames_run _ _ _ _ Hf Hrun) as Hid. cbn in Hid.
  apply returns_Ok. do 2 eexists. split; [by eapply on_channel_run|]. split_and!.
  - eapply books_put_back; [|done..]. by eapply books_but_weaken; [|exact Hst].
  - by apply (persists_put_back a c).
  - intros id. apply mgr_put_back.
Qed.

(** *** Forgetting a channel *)

Lemma no_members c : members_ok c -> GetNumPlayers c = 0 -> playersStore c = ∅.
Proof.
  intros Hm Hn. apply map_size_empty_inv. unfold GetNumPlayers in Hn.
  assert (Hb : (base.size (playersStore c) <= Z.to_nat (2 ^ 32 - 1))%nat).
  { rewrite <- (length_seqZ 1 (2 ^ 32 - 1)), <- length_map_to_list, <- (length_fmap fst).
    apply submseteq_length, NoDup_submseteq; [apply NoDup_fst_map_to_list|].
    intros g Hg. apply list_elem_of_fmap in Hg as ([g' p] & -> & Hp%elem_of_map_to_list).
    destruct (Hm _ _ Hp) as ([Hg0 Hg1] & _). apply elem_of_seqZ. cbn. lia. }
  rewrite wrap_small in Hn; unfold in_width; lia.
Qed.

Definition on_mgr_id (id : mgr_id) (f : ChannelMgr -> ChannelMgr) (st : ChatState) : ChatState :=
  match id with AllianceChannelMgr => st <| alliance ::= f |> | HordeChannelMgr => st <| horde ::= f |> end.

Lemma on_mgr_run id f st : on_mgr id f st = Ok tt (on_mgr_id id f st).
Proof. by destruct id. Qed.

Lemma mgr_on_mgr_id id f id' st :
  mgr id' (on_mgr_id id f st) = if bool_decide (id' = id) then f (mgr id st) else mgr id' st.
Proof. by destruct id, id'. Qed.

Lemma books_forget id k a c st :
  books st -> channels (mgr id st) !! k = Some a -> heap st !! a = Some c -> playersStore c = ∅ ->
  books ((on_mgr_id id (fun m => m <| channels ::= delete k |>) st) <| heap ::= delete a |>).
Proof.
  intros [H1 H2 H3 H4 H5 H6 H7 H8] Hk Ha He. set (st' := _ <| heap ::= _ |>).
  assert (Hheap : heap st' = delete a (heap st)) by by destruct id.
  assert (Hlists : forall g, list_of g st' = list_of g st) by by destruct id.
  assert (Hnext : next_address st' = next_address st) by by destruct id.
  assert (Hkey : k = name_key (_name c)).
  { destruct (H5 _ _ _ Hk) as (c' & Hc' & ->). by simplify_eq. }
  assert (Hmgr : forall id', channels (mgr id' st') =
    if bool_decide (id' = id) then delete k (channels (mgr id st)) else channels (mgr id' st))
    by by intros []; destruct id.
  assert (Hout : forall g x, x ∈ list_of g st -> x <> a).
  { intros g x Hx ->. destruct (H4 a c Ha (fun H => H)) as [_ Hl]. apply Hl, IsOn_true in Hx as [p Hp].
    by rewrite He in Hp. }
  assert (Hother : forall id' k' x, channels (mgr id' st') !! k' = Some x ->
    channels (mgr id' st) !! k' = Some x /\ x <> a).
  { intros id' k' x. rewrite Hmgr. case_bool_decide as Hid.
    - subst. intros [Hne Hx]%lookup_delete_Some. split; [done|]. intros ->.
      destruct (H5 _ _ _ Hx) as (c' & Hc' & ->). by simplify_eq.
    - intros Hx. split; [done|]. intros ->. by apply Hid, (H7 _ _ k' k a). }
  split.
  - intros g. by rewrite Hlists.
  - intros g x. rewrite Hlists, Hheap. intros Hx. rewrite lookup_delete_ne by naive_solver. by apply (H2 g).
  - intros x c'. rewrite Hheap. intros [_ Hx]%lookup_delete_Some. by apply (H3 x).
  - intros x c'. rewrite Hheap. intros [_ Hx]%lookup_delete_Some _. setoid_rewrite Hlists. apply H4; auto.
  - intros id' k' x [Hx Hne]%Hother. rewrite Hheap, lookup_delete_ne by done. by apply (H5 id').
  - intros x c'. rewrite Hheap. intros [Hne Hx]%lookup_delete_Some.
    destruct (H6 x c' Hx) as [id' Hid']. exists id'. rewrite Hmgr. case_bool_decide; [|done]. subst.
    rewrite lookup_delete_ne; [done|]. intros Heq. rewrite <- Heq in Hid'. by simplify_eq.
  - intros i1 i2 k1 k2 x [Hx _]%Hother [Hx' _]%Hother. by apply (H7 _ _ k1 k2 x).
  - intros x. rewrite Hheap, Hnext. intros [c' [_ Hx]%lookup_delete_Some]. apply H8. eauto.
Qed.

(** *** A new channel *)

Definition added (id : mgr_id) (k : list Z) (c : Channel) (outs : list chan_output) (st : ChatState) :
    ChatState :=
  on_mgr_id id (fun m => m <| channels ::= <[k := next_address st]> |>)
    (st <| outputs ::= fun l => l ++ outs |>
        <| heap ::= <[next_address st := c]> |> <| next_address ::= Z.succ |>).

Lemma books_added id c outs st :
  books st -> plain (_name c) -> playersStore c = ∅ ->
  channels (mgr id st) !! name_key (_name c) = None ->
  books (added id (name_key (_name c)) c outs st) /\ persists st (added id (name_key (_name c)) c outs st).
Proof.
  intros [H1 H2 H3 H4 H5 H6 H7 H8] Hn He Hk. set (a := next_address st). set (st' := added _ _ _ _ _).
  assert (Hheap : heap st' = <[a := c]> (heap st)) by by destruct id.
  assert (Hlists : forall g, list_of g st' = list_of g st) by by destruct id.
  assert (Hnext : next_address st' = a + 1) by by destruct id.
  assert (Hmgr : forall id', channels (mgr id' st') =
    if bool_decide (id' = id) then <[name_key (_name c) := a]> (channels (mgr id st))
    else channels (mgr id' st)).
  { intros id'. unfold st', added. rewrite mgr_on_mgr_id. case_bool_decide; [by destruct id|by destruct id']. }
  assert (Hnew : heap st !! a = None).
  { apply eq_None_not_Some. intros Hs%H8. unfold a in Hs. lia. }
  assert (Hold : forall id' k' x, channels (mgr id' st') !! k' = Some x ->
    (id' = id /\ k' = name_key (_name c) /\ x = a) \/ (channels (mgr id' st) !! k' = Some x /\ x <> a)).
  { intros id' k' x Hx. assert (Hne : channels (mgr id' st) !! k' = Some x -> x <> a).
    { intros (c' & Hc' & _)%H5 ->. congruence. }
    revert Hx. rewrite Hmgr. case_bool_decide as Hid; [|by auto]. subst id'.
    intros [[<- <-]|[_ Hx]]%lookup_insert_Some; auto. }
  assert (Hper : persists st st').
  { intros x c' Hx. rewrite Hheap, lookup_insert_ne by congruence. eauto using same_id_refl. }
  split; [split|done].
  - intros g. by rewrite Hlists.
  - intros g x. rewrite Hlists. intros [c' Hx]%H2. destruct (Hper x c' Hx) as (? & ? & _). eauto.
  - intros x c'. rewrite Hheap. intros [[<- <-]|[_ Hx]]%lookup_insert_Some; [done|by apply (H3 x)].
  - intros x c'. rewrite Hheap. setoid_rewrite Hlists.
    intros [[<- <-]|[_ Hx]]%lookup_insert_Some _; [|apply H4; auto]. split.
    + intros g p. by rewrite He.
    + intros g. split; [intros [? ?]%H2; congruence|]. intros [p Hp]%IsOn_true. by rewrite He in Hp.
  - intros id' k' x [(-> & -> & ->)|[(c' & Hx & ->)%H5 _]]%Hold.
    + exists c. by rewrite Hheap, lookup_insert_eq.
    + exists c'. split; [|done]. rewrite Hheap, lookup_insert_ne by congruence. done.
  - intros x c'. rewrite Hheap. intros [[<- <-]|[Hne Hx]]%lookup_insert_Some.
    + exists id. by rewrite Hmgr, bool_decide_eq_true_2, lookup_insert_eq.
    + destruct (H6 x c' Hx) as [id' Hid']. exists id'. rewrite Hmgr. case_bool_decide; [|done]. subst.
      rewrite lookup_insert_ne by (intros Heq; congruence). done.
  - intros i1 i2 k1 k2 x [(-> & -> & ->)|[Hx Hxa]]%Hold [(-> & -> & ?)|[Hx' ?]]%Hold; try done.
    by apply (H7 _ _ k1 k2 x).
  - intros x. rewrite Hheap, Hnext. intros [<-|Hx]%lookup_insert_is_Some'; [lia|]. apply H8 in Hx. unfold a. lia.
Qed.

(** ** The operations of the managers *)

Section Managers.
Context `{Host, Platform}.
#[local] Set Default Proof Using "All".

Lemma for_each_outputs l st :
  for_each l emit_output st = Ok tt (st <| outputs ::= fun o => o ++ l |>).
Proof.
  revert st. induction l as [|o l IH]; intros st; cbn [for_each].
  - destruct st. run. by rewrite app_nil_r.
  - unfold emit_output. erewrite bind_run by done. rewrite IH. destruct st. cbn. by rewrite <- app_assoc.
Qed.

(** What [GetJoinChannel] returns: the channel of that key, whatever its number;
    or a new one. *)
Lemma GetJoinChannel_run `{Server} id name channelId st :
  plain name ->
  GetJoinChannel id name channelId st =
  match channels (mgr id st) !! name_key name with
  | Some a => Ok a st
  | None =>
      match Channel_new name channelId (team (mgr id st)) tt with
      | Ok (c, created) _ => Ok (next_address st) (added id (name_key name) c created st)
      | Throw e _ => Throw e st
      | Abort r => Abort r
      end
  end.
Proof.
  intros Hn. unfold GetJoinChannel. erewrite bind_run by by apply key_of_run.
  unfold find_channel. erewrite bind_run by done.
  destruct (channels (mgr id st) !! name_key name) as [a|]; [done|].
  erewrite bind_run by done. unfold on_local at 1. unfold mbind at 1, M_bind at 1. 
  destruct (Channel_new name channelId (team (mgr id st)) tt) as [[c created] u|e u|r]; [|done..].
  cbn [fst snd]. erewrite bind_run by apply for_each_outputs. erewrite bind_run by done.
  erewrite bind_run by apply on_mgr_run. destruct id; done.
Qed.

(** An operation that only adds channels. *)
Definition grown (st st' : ChatState) : Prop :=
  books st' /\ persists st st' /\ lists st' = lists st.

Lemma GetJoinChannel_keeps `{Server} id name channelId st :
  books st -> plain name ->
  returns (GetJoinChannel id name channelId)
    (fun a st' => grown st st' /\ channels (mgr id st') !! name_key name = Some a /\ is_Some (heap st' !! a)) st.
Proof.
  intros Hst Hn. unfold returns, wp. rewrite GetJoinChannel_run by done.
  destruct (channels (mgr id st) !! name_key name) as [a|] eqn:Hk.
  - destruct (bk_key _ _ Hst _ _ _ Hk) as (c & Hc & _).
    split_and!; [split; [done|split; [apply persists_refl|done]]|done|eauto].
  - destruct (Channel_new_total name channelId (team (mgr id st))) as (c & l & -> & He & Hnm & _).
    destruct (books_added id c l st Hst) as [Hb Hp]; [by rewrite Hnm|done|by rewrite Hnm|].
    rewrite Hnm in *. split_and!.
    + split; [done|]. split; [done|by destruct id].
    + unfold added. rewrite mgr_on_mgr_id, bool_decide_eq_true_2 by done. cbn. apply lookup_insert_eq.
    + exists c. destruct id; apply lookup_insert_eq.
Qed.

Lemma NotOn_sends name who st :
  name_ok name ->
  ('(_, data) ← on_local WorldPacket_default (MakeNotOnPacket name);
   emit_output (SendPacket who data)) st =
  Ok tt (st <| outputs ::= fun l => l ++
    [SendPacket who (packet_of SMSG_CHANNEL_NOTIFY (le_bytes 1 CHAT_NOT_MEMBER_NOTICE ++ string_fmt name))] |>).
Proof.
  intros Hn. set (c := mkChannel false false false 0 0 0 0 name [] ∅ ∅).
  assert (Hm : MakeNotOnPacket name WorldPacket_default =
    Ok tt (packet_of SMSG_CHANNEL_NOTIFY (notice c CHAT_NOT_MEMBER_NOTICE []))).
  { apply (MakeNotifyPacket_makes c CHAT_NOT_MEMBER_NOTICE); [|done].
    rewrite zlen_notice, zlen_nil. unfold name_ok in Hn. cbn. lia. }
  unfold mbind, M_bind, on_local. rewrite Hm. unfold notice. by rewrite app_nil_r.
Qed.

(** [GetChannel] finds a live channel, or tells the player; the books stay. *)
Lemma GetChannel_run id name player pkt st :
  plain name ->
  GetChannel id name player pkt st =
  match channels (mgr id st) !! name_key name with
  | Some a => Ok (Some a) st
  | None => Ok None (if pkt then st <| outputs ::= fun l => l ++
      [SendPacket (GetGUID player) (packet_of SMSG_CHANNEL_NOTIFY
         (le_bytes 1 CHAT_NOT_MEMBER_NOTICE ++ string_fmt name))] |> else st)
  end.
Proof.
  intros Hn. unfold GetChannel. erewrite bind_run by by apply key_of_run.
  unfold find_channel. erewrite bind_run by done.
  destruct (channels (mgr id st) !! name_key name) as [a|]; [done|].
  destruct pkt; cbn [when]; [|done]. erewrite bind_run by by apply NotOn_sends, plain_ok. done.
Qed.

(** What the books do not mention may change. *)
Lemma books_same bad st st' :
  heap st' = heap st -> next_address st' = next_address st -> lists st' = lists st ->
  (forall id, channels (mgr id st') = channels (mgr id st)) ->
  books_but bad st -> books_but bad st'.
Proof.
  intros Hh Hn Hl Hm [H1 H2 H3 H4 H5 H6 H7 H8].
  assert (Hlist : forall g, list_of g st' = list_of g st) by (intros g; unfold list_of; by rewrite Hl).
  split; [intros g; by rewrite Hlist|..]; intros *; rewrite ?Hlist, ?Hh, ?Hn, ?Hm.
  - apply H2.
  - apply H3.
  - intros Hx Hb. setoid_rewrite Hlist. by apply H4.
  - apply H5.
  - intros Hx. destruct (H6 _ _ Hx) as [id Hid]. exists id. by rewrite Hm.
  - apply H7.
  - apply H8.
Qed.

Lemma books_outputs bad f st : books_but bad st -> books_but bad (st <| outputs ::= f |>).
Proof. by apply books_same. Qed.

(** [LeftChannel] deletes the channel of that name when nobody is on it and it is
    a custom one; no list names it then. *)
Lemma mgr_LeftChannel_run id name st :
  plain name ->
  mgr_LeftChannel id name st =
  match channels (mgr id st) !! name_key name with
  | None => Ok tt st
  | Some a =>
      match heap st !! a with
      | None => Abort UndefinedBehaviour
      | Some c =>
          if (GetNumPlayers c =? 0) && negb (IsConstant c)
          then Ok tt ((on_mgr_id id (fun m => m <| channels ::= delete (name_key name) |>) st)
                        <| heap ::= delete a |>)
          else Ok tt st
      end
  end.
Proof.
  intros Hn. unfold mgr_LeftChannel. erewrite bind_run by by apply key_of_run.
  unfold find_channel. erewrite bind_run by done.
  destruct (channels (mgr id st) !! name_key name) as [a|]; [|done].
  unfold channel_at, mbind at 1, M_bind at 1. destruct (heap st !! a) as [c|]; [|done].
  destruct (_ && _); [|done]. cbn [when]. erewrite bind_run by apply on_mgr_run. done.
Qed.

Lemma mgr_LeftChannel_keeps id name st :
  books st -> plain name ->
  returns (mgr_LeftChannel id name) (fun _ st' => books st' /\ lists st' = lists st) st.
Proof.
  intros Hst Hn. unfold returns, wp. rewrite mgr_LeftChannel_run by done.
  destruct (channels (mgr id st) !! name_key name) as [a|] eqn:Hk; [|done].
  destruct (bk_key _ _ Hst _ _ _ Hk) as (c & Hc & _). rewrite Hc.
  destruct (Z.eqb_spec (GetNumPlayers c) 0) as [H0'|]; [|done].
  destruct (negb _); [|done]. cbn [andb]. split; [|by destruct id].
  destruct (bk_members _ _ Hst a c Hc (fun H => H)) as [Hm _].
  pose proof (books_forget id _ a c st Hst Hk Hc (no_members c Hm H0')) as Hb. by destruct id.
Qed.
End Managers.

(** ** Leaving without telling the player *)

Section Leaving.
Context `{Host, Platform, Server, !ServerOk}.
#[local] Set Default Proof Using "All".

Lemma returns_blind {A} (m : CM A) Q s :
  blind m -> returns m Q s -> returns m (fun a s' => Q a s' /\ m_channels s' = m_channels s) s.
Proof. intros Hb Hm. destruct (Hb s) as [_ Hl]. unfold returns, wp in *. by destruct (m s). Qed.

Definition others (g : Z) (l : list Z) : list Z := filter (fun x => x <> g) l.

(** The channel is left, the lists are not: the caller still has to take it out
    of the player's. *)
Lemma quiet_leave player s :
  chan_inv nobody s ->
  exists t, (forall l, LeaveChannel player false (relist l s) = Ok tt (relist l t)) /\
    same_id (chan s) (chan t) /\
    chan_inv nobody (relist (others (GetGUID player) (m_channels s)) t).
Proof.
  intros Hs. pose proof (keeps_CleanupChannel nobody player s Hs) as Hc.
  apply returns_Ok in Hc as ([] & t' & Hrun & Ht').
  unfold CleanupChannel, LeftChannel in Hrun. erewrite bind_run in Hrun by done.
  change (LeaveChannel player false (relist (others (GetGUID player) (m_channels s)) s) = Ok tt t') in Hrun.
  destruct (blind_LeaveChannel player s) as [Hl Hm]. pose proof (frames_LeaveChannel player false s) as Hid.
  rewrite Hl in Hrun. destruct (LeaveChannel player false s) as [[] t| |] eqn:Ht; [|done..].
  exists t. split; [intros l; by rewrite Hl|]. split; [done|]. by simplify_eq.
Qed.

(** Telling the player comes first, and is all there is more to it. *)
Lemma LeaveChannel_told player s :
  chan_inv nobody s -> IsOn (GetGUID player) (chan s) = true ->
  exists l, LeaveChannel player true s = CleanupChannel player (say_more l s).
Proof.
  intros Hs Hon. destruct (tell_sends (GetGUID player) MakeYouLeft s) as [l Hl];
    [by apply short_YouLeft, Hs|].
  exists l. unfold LeaveChannel at 1, CleanupChannel, channel. erewrite bind_run by done. cbv zeta.
  rewrite Hon. cbn [negb when]. unfold LeftChannel.
  rewrite (bind_run (tell (GetGUID player) MakeYouLeft;; _) _ _ tt
    ((say_more l s) <| m_channels ::= filter (fun x => x <> GetGUID player) |>))
    by by erewrite bind_run by exact Hl.
  symmetry. erewrite bind_run by done. unfold LeaveChannel, channel. erewrite bind_run by done. cbv zeta.
  change (chan ((say_more l s) <| m_channels ::= filter (fun g => g <> GetGUID player) |>)) with (chan s).
  rewrite Hon. cbn [negb when]. by erewrite bind_run by done.
Qed.

Lemma LeaveChannel_off player s :
  chan_inv nobody s ->
  returns (LeaveChannel player true)
    (fun _ s' => chan_inv nobody s' /\
                 forall x, x ∈ m_channels s' <-> x <> GetGUID player /\ x ∈ m_channels s) s.
Proof.
  intros Hs. set (g := GetGUID player). destruct (IsOn g (chan s)) eqn:Hon.
  - destruct (LeaveChannel_told player s Hs Hon) as [l Hl]. unfold returns, wp. rewrite Hl.
    pose proof (chan_inv_say nobody l s Hs) as Hs1.
    destruct (quiet_leave player _ Hs1) as (t & Ht & _ & Hinv).
    unfold CleanupChannel, LeftChannel. erewrite bind_run by done.
    change ((say_more l s) <| m_channels ::= filter (fun x => x <> GetGUID player) |>)
      with (relist (others g (m_channels s)) (say_more l s)).
    rewrite Ht. split; [exact Hinv|]. intros x. cbn.
    unfold others. by rewrite list_elem_of_filter.
  - pose proof (keeps_LeaveChannel nobody player s Hs) as Hk. revert Hk.
    unfold LeaveChannel, channel, returns, wp. erewrite !bind_run by done. cbv zeta. fold g. rewrite Hon.
    cbn [negb when]. destruct (tell_sends g MakeNotMember s (short0 _ (inv_name _ _ Hs) _)) as [l Hl].
    rewrite Hl. intros Hk. split; [done|]. intros x. cbn. split; [|by intros [_ ?]].
    intros Hx. split; [|done]. intros ->. apply (inv_lists _ _ Hs) in Hx as [p Hp].
    apply IsOn_false in Hon. unfold g in *. congruence.
Qed.
End Leaving.

(** ** The channels of a player *)

(** What the stores give: names of channels that are plain. *)
Class WorldOk `{ChatWorld} : Prop := {
  world_pattern : forall i, plain (ChatChannelsEntry_pattern i);
  world_city : forall i, plain (snprintf100 (ChatChannelsEntry_pattern i) LANG_CHANNEL_CITY);
  world_zone : forall zone flags name i, GetAreaEntryByAreaID zone = Some (flags, name) ->
    plain (snprintf100 (ChatChannelsEntry_pattern i) name);
  world_stack : zlen stack = MAX_INTERNAL_PLAYER_NAME + 1
}.

Lemma chan_inv_relist out l l' t :
  chan_inv out (relist l t) -> NoDup l' -> (forall x, x ∈ l' <-> x ∈ l) -> chan_inv out (relist l' t).
Proof.
  intros [H1 H2 H3 H4 H5] Hnd Hl. split; try done. intros g. cbn. rewrite Hl. apply H3.
Qed.

Lemma list_of_set g l j st :
  list_of j (set_list g l st) = if bool_decide (j = g) then l else list_of j st.
Proof.
  unfold list_of, set_list. cbn. case_bool_decide; [subst; by rewrite lookup_insert_eq|].
  by rewrite lookup_insert_ne.
Qed.

(** Taking a channel out of one list touches that channel's books only. *)
Lemma books_unlist g a l st :
  books st -> NoDup l -> a ∉ l -> (forall x, x <> a -> x ∈ l <-> x ∈ list_of g st) ->
  books_but (eq a) (set_list g l st).
Proof.
  intros [H1 H2 H3 H4 H5 H6 H7 H8] Hnd Ha Hl. split; try done.
  - intros j. rewrite list_of_set. case_bool_decide; [done|apply H1].
  - intros j x. rewrite list_of_set. case_bool_decide; [|apply H2].
    intros Hx. apply (H2 g), Hl; [|done]. by intros ->.
  - intros x c Hx Hne. destruct (H4 x c Hx (fun H => H)) as [Hm Hi]. split; [done|]. intros j.
    rewrite list_of_set. case_bool_decide; [|apply Hi]. subst j. by rewrite Hl by done.
Qed.

Section Players.
Context `{Host, Platform, Server, !ServerOk}.
#[local] Set Default Proof Using "All".

Lemma cleanup_step player ch l' st :
  books st -> list_of (GetGUID player) st = ch :: l' ->
  returns (on_channel ch (LeaveChannel player false))
    (fun _ st' => books st' /\ persists st st' /\
                  forall j, list_of j st' = list_of j (set_list (GetGUID player) l' st))
    (set_list (GetGUID player) l' st).
Proof.
  set (g := GetGUID player). intros Hst Hl. pose proof (bk_once _ _ Hst g) as Hnd. rewrite Hl in Hnd.
  apply NoDup_cons in Hnd as [Hch Hnd]. set (st1 := set_list g l' st).
  assert (Hb : books_but (eq ch) st1).
  { apply books_unlist; [done..|]. intros x Hx. rewrite Hl, elem_of_cons. naive_solver. }
  destruct (bk_live _ _ Hst g ch) as [c Hc]; [rewrite Hl; set_solver|].
  destruct (quiet_leave player _ (books_view _ ch c (outputs st) st Hst (fun H => H) Hc))
    as (t & Ht & Hid & Hinv).
  apply returns_Ok. do 2 eexists. split; [eapply on_channel_run; [exact Hc|exact (Ht (holders ch st1))]|].
  assert (Hinv1 : chan_inv nobody (relist (holders ch st1) t)).
  { eapply chan_inv_relist; [exact Hinv|apply NoDup_holders, Hb|]. intros x. cbn. fold g. unfold others.
    rewrite list_elem_of_filter, !elem_holders. unfold st1. rewrite list_of_set.
    case_bool_decide; [subst|naive_solver]. split; [done|by intros [? _]]. }
  split_and!.
  - eapply books_put_back; done.
  - eapply persists_trans; [|by apply (persists_put_back ch c)]. intros x c' Hx. by exists c'.
  - intros j. rewrite list_of_put_back by (apply Hb || apply Hinv1).
    change (m_channels (relist (holders ch st1) t)) with (holders ch st1).
    rewrite (bool_decide_ext (j ∈ holders ch st1) (ch ∈ list_of j st1)) by apply elem_holders.
    case_bool_decide; [done|]. by apply filter_without.
Qed.

(** What is left once the player is on no channel: the lists of the others. *)
Definition cleaned (g : Z) (st st' : ChatState) : Prop :=
  books st' /\ list_of g st' = [] /\ forall j, j <> g -> list_of j st' = list_of j st.

Lemma cleanup_loop_keeps fuel player st :
  books st -> (length (list_of (GetGUID player) st) <= fuel)%nat ->
  returns (cleanup_loop fuel player) (fun _ => cleaned (GetGUID player) st) st.
Proof.
  set (g := GetGUID player).
  revert st. induction fuel as [|fuel IH]; intros st Hst Hf; cbn [cleanup_loop]; apply wp_bind, wp_gets;
    fold g; destruct (list_of g st) as [|ch l'] eqn:Hl; try done; [cbn in Hf; lia|].
  apply wp_bind, wp_modify, wp_bind. eapply wp_mono; [by apply cleanup_step| |done].
  intros [] st1 (Hst1 & Hper & Hl1). fold g in Hl1.
  assert (Hnext : forall st2, books st2 -> lists st2 = lists st1 ->
    returns (cleanup_loop fuel player) (fun _ => cleaned g st) st2).
  { intros st2 Hst2 Heq.
    assert (Hlist : forall j, list_of j st2 = if bool_decide (j = g) then l' else list_of j st).
    { intros j. unfold list_of at 1. rewrite Heq. fold (list_of j st1). by rewrite Hl1, list_of_set. }
    eapply returns_mono; [apply IH; [done|]|].
    - rewrite Hlist, bool_decide_eq_true_2 by done. cbn in Hf. lia.
    - intros [] st3 (Hb & Hg & Ho). split; [done|]. split; [done|]. intros j Hj.
      by rewrite Ho, Hlist, bool_decide_eq_false_2. }
  apply wp_bind. destruct (forTeam (GetTeam player)) as [cMgr|]; [|by apply Hnext].
  destruct (bk_live _ _ Hst g ch) as [c Hc]; [rewrite Hl; set_solver|].
  destruct (Hper ch c Hc) as (c1 & Hc1 & _).
  apply wp_bind. unfold wp at 1, channel_at. rewrite Hc1.
  eapply wp_mono; [apply mgr_LeftChannel_keeps; [done|by eapply bk_name]| |done].
  intros [] st2 [Hst2 Heq]. by apply Hnext.
Qed.

Lemma CleanupChannels_keeps player st :
  books st -> returns (CleanupChannels player) (fun _ => cleaned (GetGUID player) st) st.
Proof. intros Hst. apply wp_bind, wp_gets. by apply cleanup_loop_keeps. Qed.

(** The player's list may name a channel that he has left. *)
Definition leaving (g a : Z) (c : Channel) (st : ChatState) : Prop :=
  books_but (eq a) st /\ heap st !! a = Some c /\
  chan_inv nobody (mkCState c (others g (holders a st)) (outputs st)).

Lemma unlist_keeps player a c st :
  leaving (GetGUID player) a c st ->
  returns (on_channel a (LeftChannel player)) (fun _ st' => books st' /\ persists st st') st.
Proof.
  intros (Hb & Hc & Hinv). apply returns_Ok. do 2 eexists.
  split; [eapply on_channel_run; [exact Hc|done]|]. split.
  - eapply books_put_back; [done|exact Hc|apply same_id_refl|exact Hinv].
  - by apply (persists_put_back a c).
Qed.

Lemma chan_inv_sent out c l o o' : chan_inv out (mkCState c l o) -> chan_inv out (mkCState c l o').
Proof. intros [H1' H2' H3' H4' H5']. by split. Qed.

Lemma leave_leaving player a c send st :
  books st -> heap st !! a = Some c ->
  returns (on_channel a (LeaveChannel player send))
    (fun _ st' => exists c', leaving (GetGUID player) a c' st' /\ same_id c c') st.
Proof.
  set (g := GetGUID player). intros Hst Hc.
  pose proof (books_view _ a c (outputs st) st Hst (fun H => H) Hc) as Hv.
  assert (Hbut : books_but (eq a) st) by by eapply books_but_weaken; [|exact Hst].
  destruct send.
  - pose proof (LeaveChannel_off player _ Hv) as Hr. apply returns_Ok in Hr as ([] & t & Hrun & Ht & Hm).
    pose proof (frames_run _ _ _ _ (frames_LeaveChannel player true) Hrun) as Hid.
    apply returns_Ok. do 2 eexists. split; [by eapply on_channel_run|]. exists (chan t). split; [|done].
    assert (Hst' : books (put_back a (holders a st) t st)) by by eapply books_put_back.
    split; [by eapply books_but_weaken; [|exact Hst']|]. split; [by cbn; rewrite lookup_insert_eq|].
    assert (Hview := books_view _ a (chan t) (outputs (put_back a (holders a st) t st)) _ Hst' (fun H => H)
                       (lookup_insert_eq _ _ _)).
    eapply (chan_inv_relist _ (holders a (put_back a (holders a st) t st)) _ (mkCState _ [] _)); [exact Hview| |].
    + apply NoDup_filter, NoDup_holders, Hst'.
    + intros x. unfold others. rewrite list_elem_of_filter. split; [by intros [_ ?]|]. intros Hx.
      split; [|done]. intros ->. apply elem_holders, elem_put_back in Hx; [|apply Hst|apply Ht].
      destruct Hx as [[_ Hx]|[Hx _]]; [|done]. by apply Hm in Hx as [? _].
  - destruct (quiet_leave player _ Hv) as (t & Ht & Hid & Hinv).
    apply returns_Ok. do 2 eexists. split; [eapply on_channel_run; [exact Hc|exact (Ht (holders a st))]|].
    set (t' := relist (holders a st) t). set (st' := put_back a (holders a st) t' st).
    exists (chan t). split; [|done].
    assert (Hnd : NoDup (m_channels t')) by apply NoDup_holders, Hst.
    assert (Hb : books_but (eq a) st') by by apply (books_but_put_back a c).
    split; [done|]. split; [apply lookup_insert_eq|].
    eapply (chan_inv_relist _ (others g (holders a st)) _ (mkCState (chan t) [] (sent t)));
      [eapply chan_inv_sent, Hinv|apply NoDup_filter, NoDup_holders, Hb|].
    intros x. unfold others. rewrite !list_elem_of_filter, !elem_holders. unfold st'.
    rewrite elem_put_back by (done || apply Hst). cbn. rewrite elem_holders. naive_solver.
Qed.

(** What [UpdateLocalChannels] does to leave a channel. *)
Lemma remove_keeps cMgr player a send st :
  books st -> is_Some (heap st !! a) ->
  returns (on_channel a (LeaveChannel player send);;
           c ← channel_at a;
           on_channel a (LeftChannel player);;
           mgr_LeftChannel cMgr (_name c)) (fun _ st' => books st') st.
Proof.
  intros Hst [c Hc]. apply wp_bind. eapply wp_mono; [by eapply leave_leaving| |done].
  intros [] st1 (c1 & Hl & [Hid _]). pose proof Hl as (Hb & Hc1 & _). apply wp_bind.
  unfold wp at 1, channel_at. rewrite Hc1. apply wp_bind.
  eapply wp_mono; [by eapply unlist_keeps| |done]. intros [] st2 [Hst2 _].
  eapply returns_mono; [apply mgr_LeftChannel_keeps; [done|]|by intros [] st3 [? _]].
  rewrite Hid. by apply (bk_name _ _ Hst a).
Qed.

Lemma switch_keeps cMgr player removeChannel joinChannel sendRemove st :
  books st -> player_guid (GetGUID player) ->
  (forall a, removeChannel = Some a -> is_Some (heap st !! a)) ->
  (forall a, joinChannel = Some a -> is_Some (heap st !! a)) ->
  returns (switch_channel cMgr player removeChannel joinChannel sendRemove) (fun _ st' => books st') st.
Proof.
  intros Hst Hg Hr Hj. unfold switch_channel. apply wp_bind.
  assert (Hrm : forall st', books st' -> persists st st' ->
    returns (match removeChannel with
             | Some a => on_channel a (LeaveChannel player sendRemove);;
                         c ← channel_at a;
                         on_channel a (LeftChannel player);;
                         mgr_LeftChannel cMgr (_name c)
             | None => mret ()
             end) (fun _ st' => books st') st').
  { intros st' Hst' Hper. destruct removeChannel as [a|]; [|done]. apply remove_keeps; [done|].
    destruct (Hr a eq_refl) as [c Hc]. destruct (Hper a c Hc) as (c' & ? & _). eauto. }
  destruct joinChannel as [b|]; [|by apply Hrm, persists_refl].
  eapply wp_mono; [apply on_channel_keeps;
    [done|by apply Hj|by apply keeps_JoinChannel|apply frames_JoinChannel]| |done].
  intros [] st1 (Hst1 & Hper & _). by apply Hrm.
Qed.

(** The walk over the list of a player. *)
Lemma used_channel_run i l st :
  (forall a, a ∈ l -> is_Some (heap st !! a)) ->
  exists r, used_channel i l st = Ok r st /\ forall a, r = Some a -> a ∈ l.
Proof.
  induction l as [|a l IH]; intros Hl; cbn [used_channel]; [by exists None|].
  destruct (Hl a) as [c Hc]; [set_solver|].
  erewrite bind_run by (unfold channel_at; by rewrite Hc).
  destruct (_channelId c =? i); [exists (Some a); split; [done|]; intros b [= <-]; set_solver|].
  destruct IH as (r & Hr & Hin); [intros b Hb; apply Hl; set_solver|]. exists r. split; [done|].
  intros b Hb. apply Hin in Hb. set_solver.
Qed.

Lemma leave_lfg_keeps player l st :
  books st -> (forall a, a ∈ l -> is_Some (heap st !! a)) ->
  returns (leave_lfg player l) (fun _ st' => books st') st.
Proof.
  intros Hst. induction l as [|a l IH]; intros Hl; cbn [leave_lfg]; [done|].
  destruct (Hl a) as [c Hc]; [set_solver|]. apply wp_bind. unfold wp at 1, channel_at. rewrite Hc.
  apply wp_if; intros _; [|apply IH; intros b Hb; apply Hl; set_solver].
  eapply returns_mono; [apply on_channel_keeps; [done|eauto|apply keeps_LeaveChannel|apply frames_LeaveChannel]|].
  by intros [] st1 (? & _).
Qed.
End Players.

Section World.
Context `{Host, Platform, Server, !ServerOk, ChatWorld, !WorldOk}.
#[local] Set Default Proof Using "All".

(** The channels [local_channel] returns are live. *)
Definition live_option (r : option Z) (st : ChatState) : Prop := forall a, r = Some a -> is_Some (heap st !! a).

Lemma live_persists r st st' : live_option r st -> persists st st' -> live_option r st'.
Proof. intros Hl Hp a Ha. destruct (Hl a Ha) as [c Hc]. destruct (Hp a c Hc) as (c' & ? & _). eauto. Qed.

Lemma local_channel_keeps cMgr player i flags zone_flags zone_name used st :
  books st -> live_option used st -> plain (snprintf100 (ChatChannelsEntry_pattern i) zone_name) ->
  returns (local_channel cMgr player i flags zone_flags zone_name used)
    (fun r st' => grown st st' /\ live_option r.1.1 st' /\ live_option r.1.2 st') st.
Proof.
  intros Hst Hu Hz. assert (Hid : grown st st) by (split; [done|split; [apply persists_refl|done]]).
  assert (Hnone : live_option None st) by by intros a [=].
  assert (Hsome : forall (a : Z) st', is_Some (heap st' !! a) -> live_option (Some a) st')
    by by intros a st' Ha b [= <-].
  unfold local_channel. apply wp_if; intros _; [|by apply wp_ret].
  apply wp_if; intros _.
  - apply wp_if; intros _; [by apply wp_ret|]. apply wp_bind.
    eapply wp_mono; [apply GetJoinChannel_keeps; [done|]| |done].
    { destruct (has_flag _ _); [apply world_city|done]. }
    intros a st' (Hg & _ & Ha). pose proof Hg as (_ & Hp & _). destruct used as [u|].
    + apply wp_if; intros _; apply wp_ret; cbn; [|by split_and!; try intros b [=]].
      split_and!; [done| |by apply Hsome]. by eapply live_persists.
    + apply wp_ret. cbn. split_and!; [done|by intros b [=]|by apply Hsome].
  - apply wp_bind. eapply wp_mono; [apply GetJoinChannel_keeps; [done|apply world_pattern]| |done].
    intros a st' (Hg & _ & Ha). apply wp_ret. cbn. split_and!; [done|by intros b [=]|by apply Hsome].
Qed.

Lemma local_step_keeps cMgr player zone_flags zone_name i st :
  books st -> player_guid (GetGUID player) -> plain (snprintf100 (ChatChannelsEntry_pattern i) zone_name) ->
  returns (local_step cMgr player zone_flags zone_name i) (fun _ st' => books st') st.
Proof.
  intros Hst Hg Hz. unfold local_step. destruct (ChatChannelsEntry_flags i) as [flags|]; [|done].
  apply wp_bind, wp_gets, wp_bind.
  destruct (used_channel_run i (list_of (GetGUID player) st) st) as (r & Hr & Hin); [apply Hst|].
  unfold wp at 1. rewrite Hr. apply wp_bind.
  eapply wp_mono; [apply local_channel_keeps; [done| |done]| |done].
  { intros a Ha. eapply bk_live; [done|]. by apply Hin. }
  intros [[rm jn] snd] st' (Hgr & Hrm & Hjn). apply switch_keeps; [apply Hgr|done..].
Qed.

Lemma UpdateLocalChannels_keeps player newZone st :
  books st -> player_guid (GetGUID player) ->
  returns (UpdateLocalChannels player newZone) (fun _ st' => books st') st.
Proof.
  intros Hst Hg. unfold UpdateLocalChannels. apply wp_if; intros _; [done|].
  destruct (GetAreaEntryByAreaID newZone) as [[zone_flags zone_name]|] eqn:Hz; [|done].
  destruct (forTeam (GetTeam player)) as [cMgr|]; [|done].
  apply (wp_for_each _ _ (fun st => books st)); [done|]. intros i st' _ Hst'.
  apply local_step_keeps; [done..|]. by eapply world_zone.
Qed.

Lemma LeaveLFGChannel_keeps player st :
  books st -> returns (LeaveLFGChannel player) (fun _ st' => books st') st.
Proof.
  intros Hst. apply wp_bind, wp_gets. apply leave_lfg_keeps; [done|]. apply Hst.
Qed.

(** ** The handlers *)

Lemma with_channel_keeps player name body st :
  books st -> plain name ->
  (forall a st', books st' -> is_Some (heap st' !! a) -> returns (body a) (fun _ => books) st') ->
  returns (with_channel player name body) (fun _ st' => books st') st.
Proof.
  intros Hst Hn Hb. unfold with_channel. destruct (forTeam _) as [cMgr|]; [|done].
  apply wp_bind. unfold wp at 1. rewrite GetChannel_run by done.
  destruct (channels (mgr cMgr st) !! name_key name) as [a|] eqn:Hk.
  - destruct (bk_key _ _ Hst _ _ _ Hk) as (c & Hc & _). apply Hb; [done|eauto].
  - by apply wp_ret, books_outputs.
Qed.

Lemma on_channel_books a m st :
  books st -> is_Some (heap st !! a) -> keeps nobody m -> frames m ->
  returns (on_channel a m) (fun _ => books) st.
Proof. intros. eapply returns_mono; [by apply on_channel_keeps|]. by intros [] st' (? & _). Qed.

Lemma HandleJoinChannel_keeps player channelId name pass st :
  books st -> plain name -> player_guid (GetGUID player) ->
  returns (HandleJoinChannel player channelId name pass) (fun _ => books) st.
Proof.
  intros Hst Hn Hg. unfold HandleJoinChannel. apply wp_if; intros _; [done|]. apply wp_if; intros _; [done|].
  destruct (forTeam _) as [cMgr|]; [|done]. apply wp_bind. unfold setTeam, wp at 1. rewrite on_mgr_run.
  set (st1 := on_mgr_id _ _ _).
  assert (Hst1 : books st1).
  { apply (books_same _ st); [by destruct cMgr..| |done]. intros id. by destruct cMgr, id. }
  apply wp_bind. eapply wp_mono; [by apply GetJoinChannel_keeps| |done].
  intros a st2 ((Hst2 & _) & _ & Ha).
  by apply on_channel_books; [|done|apply keeps_JoinChannel|apply frames_JoinChannel].
Qed.

Lemma HandleLeaveChannel_keeps player name st :
  books st -> plain name -> returns (HandleLeaveChannel player name) (fun _ => books) st.
Proof.
  intros Hst Hn. unfold HandleLeaveChannel. apply wp_if; intros _; [done|].
  destruct (forTeam _) as [cMgr|]; [|done].
  assert (Hleft : forall st', books st' -> returns (mgr_LeftChannel cMgr name) (fun _ => books) st').
  { intros st' Hst'. eapply returns_mono; [by apply mgr_LeftChannel_keeps|]. by intros [] st2 [? _]. }
  apply wp_bind. unfold wp at 1. rewrite GetChannel_run by done.
  destruct (channels (mgr cMgr st) !! name_key name) as [a|] eqn:Hk; apply wp_bind.
  - destruct (bk_key _ _ Hst _ _ _ Hk) as (c & Hc & _).
    eapply wp_mono; [apply on_channel_books; [done|eauto|apply keeps_LeaveChannel|apply frames_LeaveChannel]| |done].
    intros [] st1 Hst1. by apply Hleft.
  - apply wp_ret, Hleft. by apply books_outputs.
Qed.

(** The commands of channels are those of [Channel]. *)
Definition to_command (cmd : target_command) (player : Player) (name : list Z) : command :=
  match cmd with
  | TSetOwner => CSetOwner player name
  | TModerator => CSetMode player name true true
  | TUnmoderator => CSetMode player name true false
  | TMute => CSetMode player name false true
  | TUnmute => CSetMode player name false false
  | TInvite => CInvite player name
  | TKick => CKickOrBan player name false
  | TBan => CKickOrBan player name true
  | TUnban => CUnBan player name
  end.

Lemma target_operation_command env cmd player name :
  target_operation cmd player name = run_command env (to_command cmd player name).
Proof. by destruct cmd. Qed.

Lemma command_books env c a st :
  @ServerOk env -> legal env c -> books st -> is_Some (heap st !! a) ->
  returns (on_channel a (run_command env c)) (fun _ => books) st.
Proof.
  intros He Hc Hst Ha. apply on_channel_books; [done..| |apply frames_command].
  apply command_keeps; [done..|by intros v []].
Qed.

(** What the command may do, on the name it was given once normalised. *)
Definition legal_target (cmd : target_command) (player : Player) (targetName : list Z) : Prop :=
  forall t, normalizePlayerName (E := ByteBufferException) stack targetName = Ok true t ->
    match cmd with
    | TModerator | TUnmoderator | TMute | TUnmute => resolves t (GetGUID player) -> t = GetName player
    | TKick | TBan => ~ resolves t (GetGUID player)
    | _ => True
    end.

Lemma HandleChannelTarget_keeps cmd player name target st :
  books st -> plain name -> plain target -> legal_target cmd player target ->
  returns (HandleChannelTarget cmd player name target) (fun _ => books) st.
Proof.
  intros Hst Hn Ht Hleg. unfold HandleChannelTarget.
  destruct (normalize_total (E := ByteBufferException) target stack) as (ok & t & Hrun & Hok);
    [apply Ht|apply Ht|apply world_stack|].
  apply wp_bind. unfold wp at 1, on_local. rewrite Hrun. apply wp_if; intros Hb; [done|].
  destruct ok; [|done]. assert (Hname : name_ok t) by (unfold name_ok; specialize (Hok eq_refl); lia). clear Hok. specialize (Hleg t Hrun).
  apply with_channel_keeps; [done..|]. intros a st' Hst' Ha.
  rewrite (target_operation_command H1). apply command_books; [done| |done..].
  destruct cmd; cbn; auto.
Qed.

Definition member_count_fmt (c : Channel) : list Z :=
  string_fmt (_name c) ++ le_bytes 1 (u8 (_flags c)) ++ le_bytes 4 (GetNumPlayers c).

Lemma member_count_writes c :
  name_ok (_name c) ->
  lift (out_string (_name c);; out TU8 (u8 (_flags c));; out TU32 (GetNumPlayers c))
    (WorldPacket_new SMSG_CHANNEL_MEMBER_COUNT)
  = Ok tt (packet_of SMSG_CHANNEL_MEMBER_COUNT (member_count_fmt c)).
Proof.
  intros Hn. unfold name_ok in Hn. unfold lift.
  assert (Hw : writes (out_string (_name c);; out TU8 (u8 (_flags c));; out TU32 (GetNumPlayers c))
                 (member_count_fmt c)).
  { apply writes_bind; [apply writes_out_string|]. apply writes_bind; [apply (writes_out TU8)|].
    apply (writes_out TU32). }
  assert (Hlen : size ByteBuffer_new + zlen (member_count_fmt c) <= 10000000).
  { change (size ByteBuffer_new) with 0. unfold member_count_fmt, string_fmt. zsimp. lia. }
  cbn [buffer WorldPacket_new]. by rewrite Hw.
Qed.

Lemma HandleGetChannelMemberCount_keeps player name st :
  books st -> plain name -> returns (HandleGetChannelMemberCount player name) (fun _ => books) st.
Proof.
  intros Hst Hn. apply with_channel_keeps; [done..|]. intros a st' Hst' [c Hc].
  apply wp_bind. unfold wp at 1, channel_at. rewrite Hc.
  pose proof (plain_ok _ (bk_name _ _ Hst' a c Hc)) as Hname.
  apply wp_bind. unfold wp at 1, on_local. rewrite member_count_writes by done.
  unfold emit_output. apply wp_modify. by apply books_outputs.
Qed.

(** What the handlers ask of a request: names that are plain, and the conditions
    of the commands. *)
Definition legal_request (player : Player) (r : request) : Prop :=
  match r with
  | RJoin _ n _ => plain n
  | RLeave n | RList n | RPassword n _ | ROwner n | RAnnouncements n | RMemberCount n => plain n
  | RTarget cmd n t => plain n /\ plain t /\ legal_target cmd player t
  | RWatch _ => True
  end.

Lemma serve_keeps player r st :
  books st -> player_guid (GetGUID player) -> legal_request player r ->
  returns (serve player r) (fun _ => books) st.
Proof.
  intros Hst Hg Hr.
  assert (Hcmd : forall c, legal H1 c -> forall a st', books st' -> is_Some (heap st' !! a) ->
    returns (on_channel a (run_command H1 c)) (fun _ => books) st').
  { intros c Hc a st' Hst' Ha. by apply command_books. }
  destruct r; cbn [serve legal_request] in *.
  - by apply HandleJoinChannel_keeps.
  - by apply HandleLeaveChannel_keeps.
  - apply with_channel_keeps; [done..|]. by apply (Hcmd (CList player)).
  - apply with_channel_keeps; [done..|]. by apply (Hcmd (CPassword player password)).
  - apply with_channel_keeps; [done..|]. by apply (Hcmd (CSendWhoOwner (GetGUID player))).
  - destruct Hr as (Hn & Ht & Hleg).
    pose proof (HandleChannelTarget_keeps cmd player _ _ st Hst Hn Ht Hleg) as Hk. by destruct cmd.
  - apply with_channel_keeps; [done..|]. by apply (Hcmd (CAnnounce player)).
  - by apply HandleGetChannelMemberCount_keeps.
  - done.
Qed.

Lemma ChatMsgChannel_keeps player name msg lang st :
  books st -> plain name -> name_ok msg ->
  returns (ChatMsgChannel player name msg lang) (fun _ => books) st.
Proof.
  intros Hst Hn Hm. apply with_channel_keeps; [done..|]. intros a st' Hst' Ha.
  by apply (command_books H1 (CSay (GetGUID player) msg lang)).
Qed.
End World.
