(* ===== verification/ChannelSession.v ===== *)
(** * Sessions of players on the channels

    What the handlers read of a packet; any sequence of packets, messages,
    changes of zone and logouts of any players; and what single handlers do. *)

From Stdlib Require Import Ascii String.
From S2P Require Import Prelude Util Utf8 Utf8Props Names NamesProps ByteBuffer Wire WireProps ClientPacket Packet Maps Guid Text Channel ChannelRuns ChannelInv ChannelOps ChannelLife ChannelFrame ChannelMgr ChannelMgrProps.

(** ** Reading requests *)

Section Reading.
Context `{Host}.

(** The texts of a request. *)
Definition request_text (r : request) : Prop :=
  match r with
  | RJoin _ n p | RPassword n p => text n /\ text p
  | RLeave n | RList n | ROwner n | RAnnouncements n | RMemberCount n | RWatch n => text n
  | RTarget _ n t => text n /\ text t
  end.

Lemma reads_join : reads (fun p => text p.1.2 /\ text p.2) read_join.
Proof. unfold read_join. reading. Qed.
Lemma reads_leave : reads text read_leave.
Proof. unfold read_leave. reading. Qed.
Lemma reads_channel : reads text read_channel.
Proof. unfold read_channel. reading. Qed.
Lemma reads_password : reads texts read_password.
Proof. unfold read_password. reading. Qed.
Lemma reads_target cmd : reads texts (read_target cmd).
Proof.
  destruct cmd; cbn [read_target]; unfold read_set_owner, read_moderator, read_unmoderator,
    read_mute, read_unmute, read_invite, read_kick, read_ban, read_unban; reading.
Qed.
#[local] Hint Resolve reads_join reads_leave reads_channel reads_password reads_target : reads.

(** Every read a handler starts with gives texts, or throws; it does not leave
    the packet. *)
Lemma read_request_reads k : reads request_text (read_request k).
Proof.
  destruct k; cbn [read_request]; (eapply reads_bind; [solve [eauto with reads]|]);
    try (intros n Hn; by apply reads_ret).
  - intros [[i n] p] Ht. by apply reads_ret.
  - intros [n p] Ht. by apply reads_ret.
  - intros [n p] Ht. by apply reads_ret.
Qed.
End Reading.

(** ** Sessions *)

Inductive event :=
| EPacket (k : packet_kind) (player : Player) (recvPacket : WorldPacket)
| EMessage (player : Player) (channel msg : list Z) (lang : Z)
| EZone (player : Player) (newZone : Z)
| ELeaveLFG (player : Player)
| ELogout (player : Player).

(** The player whose session it is. *)
Definition event_player (e : event) : Player :=
  match e with
  | EPacket _ player _ | EMessage player _ _ _ | EZone player _ | ELeaveLFG player | ELogout player => player
  end.

(** The state of the rest of the server at one event. *)
Record Env := mkEnv { env_server : Server; env_world : ChatWorld }.

Section Session.
Context `{Host, Platform}.
#[local] Set Default Proof Using "All".

(** [WorldSession::Update] catches what a handler throws of the packet. *)
Definition run_event (env : Env) (e : event) : GM () :=
  let server := env_server env in
  let world := env_world env in
  match e with
  | EPacket k player recvPacket =>
      try_catch (HandleChannelPacket k player recvPacket) (fun _ => mret ())
  | EMessage player channel msg lang => ChatMsgChannel player channel msg lang
  | EZone player newZone => UpdateLocalChannels player newZone
  | ELeaveLFG player => LeaveLFGChannel player
  | ELogout player => CleanupChannels player
  end.

Definition run_events (l : list (Env * event)) : GM () := for_each l (fun x => run_event x.1 x.2).

(** What a request may name: no character that overruns, and what [legal_target]
    asks of commands on players. *)
Definition legal_names (env : Env) (player : Player) (r : request) : Prop :=
  let world := env_world env in
  match r with
  | RJoin _ n _ | RLeave n | RList n | RPassword n _ | ROwner n | RAnnouncements n | RMemberCount n
  | RWatch n => basic n
  | RTarget cmd n t => basic n /\ basic t /\ @legal_target (env_server env) world cmd player t
  end.

Definition legal_event (env : Env) (e : event) : Prop :=
  player_guid (GetGUID (event_player e)) /\
  match e with
  | EPacket k player recvPacket =>
      client_buffer (buffer recvPacket) /\
      forall r b, read_request k (buffer recvPacket) = Ok r b -> legal_names env player r
  | EMessage _ channel msg _ => plain channel /\ name_ok msg
  | _ => True
  end.

Definition legal_session (l : list (Env * event)) : Prop :=
  Forall (fun x => @ServerOk (env_server x.1) /\ @WorldOk (env_world x.1) /\ legal_event x.1 x.2) l.

Lemma text_plain s : text s -> basic s -> plain s.
Proof. intros [Ho Hs] Hb. split; [done|]. split; [unfold name_ok; lia|done]. Qed.

Lemma legal_text env player r :
  request_text r -> legal_names env player r ->
  @legal_request (env_server env) (env_world env) player r.
Proof.
  destruct r; cbn; intros Ht Hl; try done; try (by apply text_plain); try (by apply text_plain; [apply Ht|]).
  destruct Ht as [Hn Ht], Hl as (Hbn & Hbt & Hleg). split; [by apply text_plain|].
  split; [by apply text_plain|done].
Qed.

Lemma event_keeps (env : Env) e st :
  @ServerOk (env_server env) -> @WorldOk (env_world env) -> legal_event env e -> books st ->
  returns (run_event env e) (fun _ => books) st.
Proof.
  intros Hs Hw [Hg Hl] Hst. destruct e as [k p pkt|p ch msg lang|p zone|p|p]; cbn [run_event event_player] in *.
  - destruct Hl as [Hb Hl]. pose proof (read_request_reads k _ Hb) as Hr.
    unfold returns, wp, try_catch, HandleChannelPacket, mbind, M_bind, on_local, lift. unfold wp in Hr.
    destruct (read_request k (buffer pkt)) as [r b|x b|] eqn:Hread; [|done..].
    destruct Hr as [_ Ht].
    pose proof (serve_keeps p r st Hst Hg (legal_text _ _ _ Ht (Hl r b eq_refl))) as Hk.
    unfold returns, wp in Hk. by destruct (serve p r st).
  - destruct Hl as [Hn Hm]. by apply (@ChatMsgChannel_keeps _ _ _ _ (env_world env) Hw).
  - by apply UpdateLocalChannels_keeps.
  - by apply (@LeaveLFGChannel_keeps _ _ _ _ (env_world env) Hw).
  - eapply returns_mono; [by apply CleanupChannels_keeps|]. by intros [] st' [? _].
Qed.

Lemma books_new : books ChatState_new.
Proof.
  split.
  - intros g. unfold list_of. cbn. rewrite lookup_empty. constructor.
  - intros g a. unfold list_of. cbn. rewrite lookup_empty. by intros ?%elem_of_nil.
  - intros a c. cbn. by rewrite lookup_empty.
  - intros a c. cbn. by rewrite lookup_empty.
  - intros [] k a; cbn; by rewrite lookup_empty.
  - intros a c. cbn. by rewrite lookup_empty.
  - intros [] [] k k' a; cbn; by rewrite !lookup_empty.
  - intros a. cbn. rewrite lookup_empty. by intros [? ?].
Qed.

Lemma events_keep l st :
  legal_session l -> books st -> returns (run_events l) (fun _ => books) st.
Proof.
  intros Hl Hst. apply (wp_for_each _ _ books); [done|].
  intros [env e] st' Hin Hst'. unfold legal_session in Hl. rewrite Forall_forall in Hl.
  destruct (Hl _ Hin) as (Hs & Hw & He). by apply event_keeps.
Qed.

(** C2.  The life of the channels of a server.  From the start, whatever sequence
    of packets, messages, changes of zone and logouts of any players follows,
    each in its own state of the rest of the server, under the conditions below,
    none is left by an exception or reaches an undefined access - in
    particular no channel is used once it is deleted - and afterwards: a channel is
    in a player's list, once, exactly when it exists and has the player among its
    members; the managers know every channel that exists, under the key of its
    name, and know no other.  The conditions ([legal_event]): packets are at most
    10240 bytes, of any contents, but the names of channels and players that are
    read from them have no character outside the BMP (a client can send one, and
    it overruns the string, Util.cpp:343); nobody kicks or bans himself (a client
    can ask for it, and an owner who does stays behind as a ghost, see
    [ChannelLife.owner_self_kick]); a player who sets a mode of himself names
    himself as the server writes his name; messages are at most a million bytes;
    whoever acts has the GUID of a player, not 0; the players of the world are at
    most 100000, with a GUID and a name each ([ServerOk]), and the names of zones and of the channels of
    the client's files have no character outside the BMP either. *)
Theorem chat_session (l : list (Env * event)) :
  legal_session l ->
  returns (run_events l)
    (fun _ st =>
       (forall g, NoDup (list_of g st)) /\
       (forall g a, a ∈ list_of g st <-> exists c, heap st !! a = Some c /\ IsOn g c = true) /\
       (forall a c, heap st !! a = Some c ->
          exists id, channels (mgr id st) !! name_key (_name c) = Some a) /\
       (forall id k a, channels (mgr id st) !! k = Some a ->
          exists c, heap st !! a = Some c /\ k = name_key (_name c)))
    ChatState_new.
Proof.
  intros Hl. eapply returns_mono; [apply events_keep; [done|apply books_new]|].
  intros [] st [H1 H2 H3 H4 H5 H6 H7 H8]. split_and!; [exact H1| |exact H6|exact H5].
  intros g a. split.
  - intros Ha. destruct (H2 g a Ha) as [c Hc]. exists c. split; [done|].
      by apply (proj2 (H4 a c Hc (fun H => H))).
  - intros (c & Hc & Hon). by apply (proj2 (H4 a c Hc (fun H => H))).
Qed.
End Session.

(** ** What single operations do *)

Section Effects.
Context `{Host, Platform, Server, !ServerOk}.
#[local] Set Default Proof Using "All".


(** C28.  [GetJoinChannel], for a name without characters outside the BMP (one
    overruns the string instead, Util.cpp:343, and a client can send it), returns
    the channel registered under the key of the name,
    whatever number it is asked for and in whatever case or spelling the name is;
    when there is none, a new one at an address that was free, with the name and
    the number asked for and nobody on it.  Asked again, for any number and any
    such name of the same key, it returns the same channel and changes nothing.  The
    names are bytes that fit a packet, and the books of the channels are in order,
    as they are in every session of [chat_session]. *)
Theorem GetJoinChannel_spec (id : mgr_id) (name name' : list Z) (channelId channelId' : Z) (st : ChatState) :
  books st -> plain name -> plain name' -> name_key name' = name_key name ->
  returns (GetJoinChannel id name channelId)
    (fun a st' =>
       ((channels (mgr id st) !! name_key name = Some a /\ st' = st) \/
        (channels (mgr id st) !! name_key name = None /\ heap st !! a = None /\
         exists c, heap st' !! a = Some c /\ _name c = name /\ _channelId c = channelId /\
                   playersStore c = ∅)) /\
       GetJoinChannel id name' channelId' st' = Ok a st') st.
Proof.
  intros Hst Hn Hn' Heq. unfold returns, wp. rewrite (GetJoinChannel_run id name) by done.
  destruct (channels (mgr id st) !! name_key name) as [a|] eqn:Hk.
  - split; [by left|]. by rewrite GetJoinChannel_run, Heq, Hk by done.
  - destruct (Channel_new_total name channelId (team (mgr id st))) as (c & l & -> & He & Hnm & _ & Hid & _).
    split.
    + right. split; [done|]. split.
      * apply eq_None_not_Some. intros Hs%(bk_fresh _ _ Hst). lia.
      * exists c. split; [destruct id; apply lookup_insert_eq|done].
    + rewrite GetJoinChannel_run, Heq by done. unfold added at 1.
      rewrite mgr_on_mgr_id, bool_decide_eq_true_2 by done. cbn. by rewrite lookup_insert_eq.
Qed.

Lemma GetNumPlayers_zero c : members_ok c -> GetNumPlayers c = 0 <-> playersStore c = ∅.
Proof.
  intros Hm. split; [by apply no_members|]. intros He. unfold GetNumPlayers. by rewrite He, map_size_empty.
Qed.

(** The request to leave a channel by its name: the player is off the channel's
    list and the channel off the player's; a custom channel that nobody else is on
    is deleted and its name free, and any other channel is still there under its
    name. *)
Theorem HandleLeaveChannel_spec (id : mgr_id) (player : Player) (name : list Z) (a : Z) (c : Channel)
    (st : ChatState) :
  books st -> plain name -> name <> [] -> forTeam (GetTeam player) = Some id ->
  channels (mgr id st) !! name_key name = Some a -> heap st !! a = Some c ->
  returns (HandleLeaveChannel player name)
    (fun _ st' =>
       (a ∉ list_of (GetGUID player) st') /\
       (if negb (IsConstant c) && bool_decide (others (GetGUID player) (holders a st) = [])
       then heap st' !! a = None /\ channels (mgr id st') !! name_key name = None
       else (exists c', heap st' !! a = Some c' /\ IsOn (GetGUID player) c' = false) /\
            channels (mgr id st') !! name_key name = Some a)) st.
Proof.
  set (g := GetGUID player). intros Hst Hn Hne Hteam Hk Hc.
  pose proof (books_view _ a c (outputs st) st Hst (fun H => H) Hc) as Hv.
  pose proof (LeaveChannel_off player _ Hv) as Hr. apply returns_Ok in Hr as ([] & t & Hrun & Ht & Hm).
  pose proof (frames_run _ _ _ _ (frames_LeaveChannel player true) Hrun) as [_ Hid]. cbn in Hid, Hm.
  fold g in Hm. set (st1 := put_back a (holders a st) t st).
  assert (Hoff : a ∉ list_of g st1).
  { unfold st1. rewrite elem_put_back by (apply Hst || apply Ht). naive_solver. }
  assert (Hheap : heap st1 !! a = Some (chan t)) by apply lookup_insert_eq.
  assert (Hnum : (GetNumPlayers (chan t) =? 0) = bool_decide (others g (holders a st) = [])).
  { apply Bool.eq_true_iff_eq. rewrite Z.eqb_eq, bool_decide_eq_true, (GetNumPlayers_zero _ (inv_members _ _ Ht)).
    assert (Hmem : forall x, x ∈ others g (holders a st) <-> is_Some (playersStore (chan t) !! x)).
    { intros x. unfold others. by rewrite list_elem_of_filter, <- Hm, (inv_lists _ _ Ht). }
    split.
    - intros He. destruct (others g (holders a st)) as [|x l]; [done|].
      destruct (proj1 (Hmem x)) as [p Hp]; [set_solver|]. by rewrite He in Hp.
    - intros He. apply map_eq. intros x. rewrite lookup_empty. apply eq_None_not_Some. rewrite <- Hmem, He.
      by intros ?%elem_of_nil. }
  unfold HandleLeaveChannel. rewrite bool_decide_eq_false_2, Hteam by done.
  apply wp_bind. unfold wp at 1. rewrite GetChannel_run, Hk by done.
  apply wp_bind. unfold wp at 1. rewrite (on_channel_run a c _ st _ t Hc Hrun). fold st1.
  unfold wp. rewrite mgr_LeftChannel_run by done. unfold st1 at 1. rewrite mgr_put_back, Hk, Hheap, Hnum.
  assert (Hconst : IsConstant (chan t) = IsConstant c) by (unfold IsConstant; by rewrite Hid).
  rewrite Hconst, andb_comm. destruct (negb (IsConstant c) && _).
  - split; [by destruct id|]. split; destruct id; apply lookup_delete_eq.
  - split; [done|]. split; [|unfold st1; by rewrite mgr_put_back]. exists (chan t). split; [done|].
    apply IsOn_false, eq_None_not_Some. rewrite <- (inv_lists _ _ Ht), Hm. tauto.
Qed.
End Effects.

(** ** Witnesses

    Alice and Bob, the two standard channels "General" and "Trade", a forest and
    a city. *)

Lemma ascii_plain s :
  forallb (fun c => (0 <=? c) && (c <? 128)) s = true -> zlen s <= 1000000 -> plain s.
Proof. intros Hs Hlen. destruct (ascii_basic s Hs). by split. Qed.

#[local] Instance sample_host : Host := {| TRINITY_BIGENDIAN := false |}.
#[local] Instance sample_platform : Platform.
Proof. exists 64. lia. Defined.

Definition sample_server : Server := {|
  GetPlayers := [alice; bob];
  CONFIG_PRESERVE_CUSTOM_CHANNELS := false;
  CONFIG_PRESERVE_CUSTOM_CHANNEL_DURATION := 14;
  CONFIG_RESTRICTED_LFG_CHANNEL := true;
  CONFIG_SILENTLY_GM_JOIN_TO_CHANNEL := false;
  CONFIG_ALLOW_TWO_SIDE_INTERACTION_CHANNEL := false;
  CONFIG_GM_LEVEL_IN_WHO_LIST := 0;
  ChatChannelsEntry_flags := fun id =>
    if id =? 1 then Some CHANNEL_DBC_FLAG_ZONE_DEP
    else if id =? 2 then Some (Z.lor CHANNEL_DBC_FLAG_ZONE_DEP CHANNEL_DBC_FLAG_CITY_ONLY) else None;
  GetPlayerNameByGUID := fun g => None;
  CHAR_SEL_CHANNEL := fun name team => None
|}.

Definition sample_world : ChatWorld := {|
  GetNumRows := 3;
  ChatChannelsEntry_pattern := fun i => if i =? 1 then chars "General - %s" else chars "Trade - %s";
  GetAreaEntryByAreaID := fun z =>
    if z =? 12 then Some (0, chars "Elwynn Forest")
    else if z =? 1519 then Some (AREA_FLAG_SLAVE_CAPITAL, chars "Stormwind City") else None;
  GetZoneId := fun _ => 12;
  GetGuildId := fun _ => 0;
  PlayerLoading := fun _ => false;
  IsBeingTeleportedFar := fun _ => false;
  LANG_CHANNEL_CITY := chars "City";
  stack := replicate 16 0
|}.

Lemma sample_ok : @ServerOk sample_server /\ @WorldOk sample_world.
Proof.
  split; split; try done.
  - intros p. cbn. rewrite !elem_of_cons. intros [->|[->|[]%elem_of_nil]]; by split.
  - intros i. cbn. destruct (i =? 1); by apply ascii_plain; vm_compute.
  - intros i. cbn. destruct (i =? 1); by apply ascii_plain; vm_compute.
  - intros z flags name i. cbn.
    destruct (z =? 12); [|destruct (z =? 1519); [|done]]; intros [= <- <-]; destruct (i =? 1);
      by apply ascii_plain; vm_compute.
Qed.

(** A packet with the request to join, and one to leave. *)
Definition join_packet (channelId : Z) (name : list Z) : WorldPacket :=
  match (out TU32 channelId;; WriteBit 0;; WriteBit 0;; WriteBits 32 (zlen name) 8;; WriteBits 32 0 8;;
         FlushBits;; WriteString name) ByteBuffer_new with
  | Ok _ b => mkWorldPacket 0 b
  | _ => WorldPacket_default
  end.

Definition leave_packet (name : list Z) : WorldPacket :=
  match (out TU32 0;; WriteBits 32 (zlen name) 8;; FlushBits;; WriteString name) ByteBuffer_new with
  | Ok _ b => mkWorldPacket 0 b
  | _ => WorldPacket_default
  end.

Definition sample_env : Env := mkEnv sample_server sample_world.

(** Alice goes through two zones; both join a channel under two spellings, talk on
    it, and leave, Bob after a packet that is too short. *)
Definition sample_session : list (Env * event) :=
  map (fun e => (sample_env, e))
    [EZone alice 12; EZone alice 1519;
     EPacket PJoin bob (join_packet 0 (chars "Zeros")); EPacket PJoin alice (join_packet 0 (chars "ZEROS"));
     EMessage bob (chars "zeros") (chars "hello") 7;
     EPacket PLeave bob (mkWorldPacket 0 ByteBuffer_new);
     EPacket PLeave bob (leave_packet (chars "zeros")); ELogout alice].

(** A packet is legal when its contents and what is read of it are. *)
Lemma legal_packet k player pkt (r : option request) :
  player_guid (GetGUID player) ->
  forallb (fun c => (0 <=? c) && (c <? 256)) (_storage (buffer pkt)) = true ->
  _rpos (buffer pkt) = 0 -> _bitpos (buffer pkt) = 8 -> size (buffer pkt) <= 10240 ->
  match read_request k (buffer pkt) with Ok r _ => Some r | _ => None end = r ->
  match r with Some r => legal_names sample_env player r | None => True end ->
  legal_event sample_env (EPacket k player pkt).
Proof.
  intros Hg Ho Hr Hbit Hs Hread Hl. split; [done|]. split.
  - pose proof (size_nonneg (buffer pkt)). split; [|split; [by apply octets_text|done]].
    unfold rd_wf. rewrite Hr, Hbit. lia.
  - intros r' b' Hrun. rewrite Hrun in Hread. by subst r.
Qed.

Lemma alice_guid : player_guid (GetGUID alice).
Proof. by vm_compute. Qed.
Lemma bob_guid : player_guid (GetGUID bob).
Proof. by vm_compute. Qed.

Ltac check_packet Hg :=
  eapply legal_packet; [exact Hg|vm_compute; reflexivity|vm_compute; reflexivity|vm_compute; reflexivity|
    vm_compute; discriminate|vm_compute; reflexivity|];
  cbn [legal_names]; first [exact I | apply ascii_basic; vm_compute; reflexivity].

Lemma sample_session_legal : legal_session sample_session.
Proof.
  unfold legal_session, sample_session. apply Forall_map, Forall_forall. intros e He. cbn [fst snd].
  split; [apply sample_ok|]. split; [apply sample_ok|].
  rewrite !elem_of_cons in He.
  destruct He as [->|[->|[->|[->|[->|[->|[->|[->|[]%elem_of_nil]]]]]]]].
  1, 2, 8: exact (conj alice_guid I).
  - check_packet bob_guid.
  - check_packet alice_guid.
  - split; [exact bob_guid|]. split; [by apply ascii_plain|vm_compute; discriminate].
  - check_packet bob_guid.
  - check_packet bob_guid.
Qed.

Lemma chat_session_witness :
  returns (run_events sample_session)
    (fun _ st =>
       (forall g, NoDup (list_of g st)) /\
       (forall g a, a ∈ list_of g st <-> exists c, heap st !! a = Some c /\ IsOn g c = true) /\
       (forall a c, heap st !! a = Some c ->
          exists id, channels (mgr id st) !! name_key (_name c) = Some a) /\
       (forall id k a, channels (mgr id st) !! k = Some a ->
          exists c, heap st !! a = Some c /\ k = name_key (_name c)))
    ChatState_new.
Proof. apply chat_session, sample_session_legal. Defined.

(** The state after some events. *)
Definition after (l : list (Env * event)) : ChatState :=
  match run_events l ChatState_new with Ok _ st => st | _ => ChatState_new end.

Lemma after_books l : legal_session l -> books (after l).
Proof.
  intros Hl. pose proof (events_keep l _ Hl books_new) as Hk. apply returns_Ok in Hk as ([] & st & Hrun & Hst).
  unfold after. by rewrite Hrun.
Qed.

Lemma sample_books n : books (after (take n sample_session)).
Proof. apply after_books. apply Forall_take, sample_session_legal. Qed.

#[local] Existing Instance sample_server.

Lemma sample_server_ok : ServerOk.
Proof. apply sample_ok. Qed.


Lemma GetJoinChannel_spec_witness :
  let st := after (take 3 sample_session) in
  channels (alliance st) !! name_key (chars "Zeros") = Some 4 /\
  returns (GetJoinChannel AllianceChannelMgr (chars "Zeros") 0)
    (fun a st' =>
       ((channels (mgr AllianceChannelMgr st) !! name_key (chars "Zeros") = Some a /\ st' = st) \/
        (channels (mgr AllianceChannelMgr st) !! name_key (chars "Zeros") = None /\ heap st !! a = None /\
         exists c, heap st' !! a = Some c /\ _name c = chars "Zeros" /\ _channelId c = 0 /\
                   playersStore c = ∅)) /\
       GetJoinChannel AllianceChannelMgr (chars "ZEROS") 1 st' = Ok a st') st.
Proof.
  split; [vm_compute; reflexivity|].
  apply (@GetJoinChannel_spec _ _ _ sample_server_ok); [apply sample_books|..|reflexivity];
    apply ascii_plain; vm_compute; try reflexivity; discriminate.
Defined.

(** The channel of Bob, when he is alone on it. *)
Definition sample_zeros : Channel :=
  mkChannel true true false CHANNEL_FLAG_CUSTOM 0 469 2 (chars "Zeros") []
    (<[2 := mkPlayerInfo 2 3]> ∅) ∅.

Lemma HandleLeaveChannel_spec_witness :
  let st := after (take 3 sample_session) in
  returns (HandleLeaveChannel bob (chars "zeros"))
    (fun _ st' => (4 ∉ list_of 2 st') /\
                  (if negb (IsConstant sample_zeros) && bool_decide (others 2 (holders 4 st) = [])
                  then heap st' !! 4 = None /\ channels (mgr AllianceChannelMgr st') !! name_key (chars "zeros") = None
                  else (exists c', heap st' !! 4 = Some c' /\ IsOn 2 c' = false) /\
                       channels (mgr AllianceChannelMgr st') !! name_key (chars "zeros") = Some 4)) st /\
  negb (IsConstant sample_zeros) && bool_decide (others 2 (holders 4 st) = []) = true.
Proof.
  split; [|vm_compute; reflexivity].
  apply (@HandleLeaveChannel_spec _ _ _ sample_server_ok AllianceChannelMgr bob (chars "zeros") 4 sample_zeros).
  - apply sample_books.
  - apply ascii_plain; vm_compute; try reflexivity; discriminate.
  - discriminate.
  - reflexivity.
  - vm_compute. reflexivity.
  - vm_compute. reflexivity.
Defined.

(** ** Consequences

    A zone channel is looked up by its name alone: when a player made a custom
    channel of that name, those who enter the zone join it, and he owns it. *)
Example zone_channel_squatted :
  let st := after [(sample_env, EPacket PJoin bob (join_packet 0 (chars "general - ELWYNN forest")));
                   (sample_env, EZone alice 12)] in
  list_of 1 st = [1] /\
  option_map (fun c => (_channelId c, _ownerGUID c, IsOn 1 c)) (heap st !! 1) = Some (0, 2, true).
Proof. by vm_compute. Qed.

(** A join with the number of a standard channel may give any name; the channel is
    constant and is there when everybody has left. *)
Example constant_by_number :
  let st := after [(sample_env, EPacket PJoin bob (join_packet 1 (chars "anything")));
                   (sample_env, ELogout bob)] in
  list_of 2 st = [] /\
  option_map (fun c => (_name c, GetNumPlayers c)) (heap st !! 1) = Some (chars "anything", 0).
Proof. by vm_compute. Qed.

(** All names that are not UTF-8 are one channel. *)
Example invalid_names_shared :
  let st := after [(sample_env, EPacket PJoin bob (join_packet 0 [0xC3; 0x28]));
                   (sample_env, EPacket PJoin alice (join_packet 0 [0xFF]))] in
  list_of 1 st = [1] /\ list_of 2 st = [1].
Proof. by vm_compute. Qed.

(** A channel made for a join that its password refuses stays, with nobody on
    it. *)
Example refused_join_leaks :
  let server : Server := {|
    GetPlayers := [alice; bob];
    CONFIG_PRESERVE_CUSTOM_CHANNELS := true;
    CONFIG_PRESERVE_CUSTOM_CHANNEL_DURATION := 14;
    CONFIG_RESTRICTED_LFG_CHANNEL := true;
    CONFIG_SILENTLY_GM_JOIN_TO_CHANNEL := false;
    CONFIG_ALLOW_TWO_SIDE_INTERACTION_CHANNEL := false;
    CONFIG_GM_LEVEL_IN_WHO_LIST := 0;
    ChatChannelsEntry_flags := fun _ => None;
    GetPlayerNameByGUID := fun _ => None;
    CHAR_SEL_CHANNEL := fun _ _ => Some (true, true, chars "secret", None)
  |} in
  let st := after [(mkEnv server sample_world, EPacket PJoin bob (join_packet 0 (chars "Zeros")))] in
  list_of 2 st = [] /\ option_map GetNumPlayers (heap st !! 1) = Some 0.
Proof. by vm_compute. Qed.
