(* ===== verification/Social.v ===== *)
(** * Friends and ignored players

    [src/src/server/game/Entities/Player/SocialMgr.{h,cpp}], the handlers of
    contacts in [Handlers/MiscHandler.cpp], and what login and logout do with the
    lists ([Player.cpp], [Server/WorldSession.cpp]).  Lists are in memory for the
    players who are online; every change is also a statement of the database. *)

From S2P Require Import Prelude Util Utf8 Names ByteBuffer Wire Packet Maps Guid Text Channel.

(** ** Data *)

Definition FRIEND_STATUS_OFFLINE : Z := 0x00.
Definition FRIEND_STATUS_ONLINE : Z := 0x01.
Definition FRIEND_STATUS_AFK : Z := 0x02.
Definition FRIEND_STATUS_DND : Z := 0x04.

Definition SOCIAL_FLAG_FRIEND : Z := 0x01.
Definition SOCIAL_FLAG_IGNORED : Z := 0x02.

Definition FRIEND_LIST_FULL : Z := 0x01.
Definition FRIEND_ONLINE : Z := 0x02.
Definition FRIEND_OFFLINE : Z := 0x03.
Definition FRIEND_NOT_FOUND : Z := 0x04.
Definition FRIEND_REMOVED : Z := 0x05.
Definition FRIEND_ADDED_ONLINE : Z := 0x06.
Definition FRIEND_ADDED_OFFLINE : Z := 0x07.
Definition FRIEND_ALREADY : Z := 0x08.
Definition FRIEND_SELF : Z := 0x09.
Definition FRIEND_ENEMY : Z := 0x0A.
Definition FRIEND_IGNORE_FULL : Z := 0x0B.
Definition FRIEND_IGNORE_SELF : Z := 0x0C.
Definition FRIEND_IGNORE_NOT_FOUND : Z := 0x0D.
Definition FRIEND_IGNORE_ALREADY : Z := 0x0E.
Definition FRIEND_IGNORE_ADDED : Z := 0x0F.
Definition FRIEND_IGNORE_REMOVED : Z := 0x10.

Definition SOCIALMGR_FRIEND_LIMIT : Z := 50.
Definition SOCIALMGR_IGNORE_LIMIT : Z := 50.

Definition SMSG_CONTACT_LIST : Z := 0x6017.
Definition SMSG_FRIEND_STATUS : Z := 0x0717.

Definition ALLIANCE : Z := 469.
Definition HORDE : Z := 67.

Record FriendInfo := mkFriendInfo {
  Status : Z; Flags : Z; Area : Z; Level : Z; Class_ : Z; Note : list Z }.
#[export] Instance FriendInfo_settable : Settable FriendInfo := fun f =>
  mkFriendInfo (Status f) (Flags f) (Area f) (Level f) (Class_ f) (Note f).
Definition FriendInfo_new : FriendInfo := mkFriendInfo FRIEND_STATUS_OFFLINE 0 0 0 0 [].
Definition FriendInfo_of (flags : Z) (note : list Z) : FriendInfo :=
  mkFriendInfo FRIEND_STATUS_OFFLINE flags 0 0 0 note.

Record PlayerSocial := mkPlayerSocial { m_playerSocialMap : gmap Z FriendInfo; m_playerGUID : Z }.
#[export] Instance PlayerSocial_settable : Settable PlayerSocial := fun s =>
  mkPlayerSocial (m_playerSocialMap s) (m_playerGUID s).

(** Statements of the database, and packets. *)
Inductive social_output :=
| SendPacket (guid : Z) (data : WorldPacket)
| CHAR_UPD_ADD_CHARACTER_SOCIAL_FLAGS (flags guid friend : Z)
| CHAR_UPD_REM_CHARACTER_SOCIAL_FLAGS (flags guid friend : Z)
| CHAR_INS_CHARACTER_SOCIAL (guid friend flags : Z)
| CHAR_DEL_CHARACTER_SOCIAL (guid friend : Z)
| CHAR_UPD_CHARACTER_SOCIAL_NOTE (note : list Z) (guid friend : Z).

Record SocialState := mkSocialState { m_socialMap : gmap Z PlayerSocial; done : list social_output }.
#[export] Instance SocialState_settable : Settable SocialState := fun s =>
  mkSocialState (m_socialMap s) (done s).

Abbreviation SM := (M SocialState ByteBufferException).

(** What the lists ask of other parts; players are those of [Channel], and what
    else is read of one is a function of its GUID. *)
Class SocialWorld := {
  CONFIG_ALLOW_TWO_SIDE_WHO_LIST : bool;
  CONFIG_ALLOW_GM_FRIEND : bool;
  CONFIG_ALLOW_TWO_SIDE_ADD_FRIEND : bool;
  isAFK : Z -> bool;
  isDND : Z -> bool;
  GetZoneId : Z -> Z;
  getLevel : Z -> Z;
  getClass : Z -> Z;
  AccountMgr_GetSecurity : Z -> Z;
  ChrRaces_TeamID : Z -> option Z;
  stack : list Z
}.

Definition execute (o : social_output) : SM () := modify (fun s => s <| done ::= fun l => l ++ [o] |>).

(** The list of a player, by the low part of its GUID.  [m_social] points into
    the map: when the entry is gone the pointer dangles. *)
Definition GetSocial (guid : Z) : SM PlayerSocial := fun s =>
  match m_socialMap s !! guid with Some p => Ok p s | None => Abort UndefinedBehaviour end.
Definition set_friend (guid friendGuid : Z) (f : FriendInfo) : SM () :=
  modify (fun s => s <| m_socialMap ::= alter (fun p => p <| m_playerSocialMap ::= <[friendGuid := f]> |>) guid |>).
Definition erase_friend (guid friendGuid : Z) : SM () :=
  modify (fun s => s <| m_socialMap ::= alter (fun p => p <| m_playerSocialMap ::= delete friendGuid |>) guid |>).

(** ** PlayerSocial *)

Definition GetNumberOfSocialsWithFlag (flag : Z) (p : PlayerSocial) : Z :=
  u32 (count_if (fun _ f => negb (Z.land (Flags f) flag =? 0)) (m_playerSocialMap p)).

Definition AddToSocialList (guid friendGuid : Z) (ignore : bool) : SM bool :=
  p ← GetSocial guid;
  if (if ignore then SOCIALMGR_IGNORE_LIMIT <=? GetNumberOfSocialsWithFlag SOCIAL_FLAG_IGNORED p
      else SOCIALMGR_FRIEND_LIMIT <=? GetNumberOfSocialsWithFlag SOCIAL_FLAG_FRIEND p)
  then mret false
  else
    let flag := if ignore then SOCIAL_FLAG_IGNORED else SOCIAL_FLAG_FRIEND in
    match m_playerSocialMap p !! friendGuid with
    | Some f =>
        execute (CHAR_UPD_ADD_CHARACTER_SOCIAL_FLAGS flag (m_playerGUID p) friendGuid);;
        set_friend guid friendGuid (f <| Flags := Z.lor (Flags f) flag |>)
    | None =>
        execute (CHAR_INS_CHARACTER_SOCIAL (m_playerGUID p) friendGuid flag);;
        set_friend guid friendGuid (FriendInfo_new <| Flags := Z.lor (Flags FriendInfo_new) flag |>)
    end;;
    mret true.

Definition RemoveFromSocialList (guid friendGuid : Z) (ignore : bool) : SM () :=
  p ← GetSocial guid;
  match m_playerSocialMap p !! friendGuid with
  | None => mret ()
  | Some f =>
      let flag := if ignore then SOCIAL_FLAG_IGNORED else SOCIAL_FLAG_FRIEND in
      let flags := u8 (Z.land (Flags f) (Z.lnot flag)) in
      set_friend guid friendGuid (f <| Flags := flags |>);;
      if flags =? 0
      then execute (CHAR_DEL_CHARACTER_SOCIAL (m_playerGUID p) friendGuid);;
           erase_friend guid friendGuid
      else execute (CHAR_UPD_REM_CHARACTER_SOCIAL_FLAGS flag (m_playerGUID p) friendGuid)
  end.

Definition SetFriendNote (guid friendGuid : Z) (note : list Z) : SM () :=
  p ← GetSocial guid;
  match m_playerSocialMap p !! friendGuid with
  | None => mret ()
  | Some f =>
      '(_, note) ← on_local note (utf8truncate 48);
      execute (CHAR_UPD_CHARACTER_SOCIAL_NOTE note (m_playerGUID p) friendGuid);;
      set_friend guid friendGuid (f <| Note := note |>)
  end.

Definition flagged (flag friendGuid : Z) (p : PlayerSocial) : bool :=
  match m_playerSocialMap p !! friendGuid with
  | Some f => negb (Z.land (Flags f) flag =? 0)
  | None => false
  end.
Definition HasFriend (guid friendGuid : Z) : SM bool :=
  p ← GetSocial guid; mret (flagged SOCIAL_FLAG_FRIEND friendGuid p).
Definition HasIgnore (guid ignore_guid : Z) : SM bool :=
  p ← GetSocial guid; mret (flagged SOCIAL_FLAG_IGNORED ignore_guid p).

(** ** SocialMgr *)

Section Manager.
Context `{Host, Server, SocialWorld}.

Definition GetGUIDLow (player : Player) : Z := GUID_LOPART (GetGUID player).

(** Whether [seer] is shown that [player] is online. *)
Definition sees (seer player : Player) : bool :=
  (negb (IsPlayerAccount (GetSecurity seer)) ||
   (((GetTeam player =? GetTeam seer) || CONFIG_ALLOW_TWO_SIDE_WHO_LIST) &&
    (GetSecurity player <=? CONFIG_GM_LEVEL_IN_WHO_LIST))) &&
  IsVisibleGloballyFor player seer.

Definition GetFriendInfo (player : Player) (friendGUID : Z) (friendInfo : FriendInfo) : SM FriendInfo :=
  let fi := friendInfo <| Status := FRIEND_STATUS_OFFLINE |> <| Area := 0 |> <| Level := 0 |>
                       <| Class_ := 0 |> in
  match FindPlayer friendGUID with
  | None => mret fi
  | Some pFriend =>
      p ← GetSocial (GetGUIDLow player);
      let fi := match m_playerSocialMap p !! friendGUID with
                | Some f => fi <| Note := Note f |>
                | None => fi
                end in
      if sees player pFriend then
        let g := GetGUID pFriend in
        let s0 := FRIEND_STATUS_ONLINE in
        let s1 := if isAFK g then FRIEND_STATUS_AFK else s0 in
        let s2 := if isDND g then FRIEND_STATUS_DND else s1 in
        mret (fi <| Status := s2 |> <| Area := GetZoneId g |> <| Level := getLevel g |>
                 <| Class_ := getClass g |>)
      else mret fi
  end.

(** [SendSocialList]: the entry is brought up to date, then written. *)
Definition write_contact (k : Z) (f : FriendInfo) : BB () :=
  out TU64 k;;
  out TU32 (Flags f);;
  out_string (Note f);;
  when (negb (Z.land (Flags f) SOCIAL_FLAG_FRIEND =? 0))
    (out TU8 (Status f);;
     when (negb (Status f =? 0))
       (out TU32 (Area f);; out TU32 (Level f);; out TU32 (Class_ f))).

Fixpoint contact_loop (guid : Z) (player : Player) (ks : list Z) (data : WorldPacket) : SM WorldPacket :=
  match ks with
  | [] => mret data
  | k :: ks' =>
      p ← GetSocial guid;
      match m_playerSocialMap p !! k with
      | None => abort UndefinedBehaviour
      | Some f =>
          f ← GetFriendInfo player k f;
          set_friend guid k f;;
          '(_, data) ← on_local data (lift (write_contact k f));
          contact_loop guid player ks' data
      end
  end.

Definition SendSocialList (guid : Z) (player : Player) : SM () :=
  p ← GetSocial guid;
  '(_, data) ← on_local (WorldPacket_new SMSG_CONTACT_LIST)
    (lift (out TU32 7;; out TU32 (u32 (Z.of_nat (base.size (m_playerSocialMap p))))));
  data ← contact_loop guid player (keys (m_playerSocialMap p)) data;
  execute (SendPacket (GetGUID player) data).

Definition MakeFriendStatusPacket (result guid : Z) : PK () :=
  Initialize SMSG_FRIEND_STATUS 9;;
  lift (out TU8 result);;
  lift (out TU64 guid).

Definition BroadcastToFriendListers (player : Player) (packet : WorldPacket) : SM () :=
  m ← gets m_socialMap;
  for_each (keys m) (fun k =>
    when (match m !! k with Some p => flagged SOCIAL_FLAG_FRIEND (GetGUIDLow player) p | None => false end)
      (match FindPlayer (MAKE_NEW_GUID k 0 HIGHGUID_PLAYER) with
       | Some pFriend =>
           when (IsInWorld pFriend && sees pFriend player) (execute (SendPacket (GetGUID pFriend) packet))
       | None => mret ()
       end)).

(** The fields of the packet that depend on the result. *)
Definition status_body (result : Z) (fi : FriendInfo) : BB () :=
  when ((result =? FRIEND_ADDED_OFFLINE) || (result =? FRIEND_ADDED_ONLINE)) (out_string (Note fi));;
  when ((result =? FRIEND_ADDED_ONLINE) || (result =? FRIEND_ONLINE))
    (out TU8 (Status fi);; out TU32 (Area fi);; out TU32 (Level fi);; out TU32 (Class_ fi)).

Definition SendFriendStatus (player : Player) (result friendGuid : Z) (broadcast : bool) : SM () :=
  '(_, data) ← on_local WorldPacket_default (MakeFriendStatusPacket result friendGuid);
  fi ← GetFriendInfo player friendGuid FriendInfo_new;
  '(_, data) ← on_local data (lift (status_body result fi));
  if broadcast then BroadcastToFriendListers player data
  else execute (SendPacket (GetGUID player) data).

(** A row is a friend, the flags and the note; no row is no result. *)
Fixpoint load_rows (rows : list (Z * Z * list Z)) (m : gmap Z FriendInfo) : gmap Z FriendInfo :=
  match rows with
  | [] => m
  | (friendGuid, flags, note) :: rows' =>
      let m := <[friendGuid := FriendInfo_of flags note]> m in
      if SOCIALMGR_FRIEND_LIMIT + SOCIALMGR_IGNORE_LIMIT <=? Z.of_nat (base.size m) then m
      else load_rows rows' m
  end.

Definition LoadFromDB (result : list (Z * Z * list Z)) (guid : Z) : SM () :=
  modify (fun s =>
    let social := default (mkPlayerSocial ∅ 0) (m_socialMap s !! guid) in
    s <| m_socialMap ::= <[guid := mkPlayerSocial (load_rows result (m_playerSocialMap social)) guid]> |>).

Definition RemovePlayerSocial (guid : Z) : SM () := modify (fun s => s <| m_socialMap ::= delete guid |>).

(** ** Handlers (MiscHandler.cpp) *)

Definition HandleContactListOpcode (player : Player) (recvData : WorldPacket) : SM () :=
  on_local recvData (lift (read_skip 4));;
  SendSocialList (GetGUIDLow player) player.

Definition read_friend : BB (list Z * list Z) :=
  friendName ← inn_string; friendNote ← inn_string; mret (friendName, friendNote).

(** The name is the parameter of the query, the note waits for its result. *)
Definition HandleAddFriendOpcode (recvData : WorldPacket) : SM (option (list Z * list Z)) :=
  '(r, _) ← on_local recvData (lift read_friend);
  '(ok, friendName) ← on_local r.1 (normalizePlayerName stack);
  if negb ok then mret None else mret (Some (friendName, r.2)).

Definition TeamForRace (race : Z) : Z :=
  match ChrRaces_TeamID race with
  | Some 1 => HORDE
  | _ => ALLIANCE
  end.

(** The result of the query is the GUID, the race and the account.  First what a
    character that was found is to the player, *)
Definition friend_found (player : Player) (friendGuid team : Z) : SM Z :=
  if friendGuid =? GetGUID player then mret FRIEND_SELF
  else if negb (GetTeam player =? team) && negb CONFIG_ALLOW_TWO_SIDE_ADD_FRIEND &&
          IsPlayerAccount (GetSecurity player) then mret FRIEND_ENEMY
  else
    already ← HasFriend (GetGUIDLow player) (GUID_LOPART friendGuid);
    if (already : bool) then mret FRIEND_ALREADY
    else
      let friendResult := match FindPlayer friendGuid with
                          | Some pFriend =>
                              if IsInWorld pFriend && IsVisibleGloballyFor pFriend player
                              then FRIEND_ADDED_ONLINE else FRIEND_ADDED_OFFLINE
                          | None => FRIEND_ADDED_OFFLINE
                          end in
      added ← AddToSocialList (GetGUIDLow player) (GUID_LOPART friendGuid) false;
      mret (if (added : bool) then friendResult else FRIEND_LIST_FULL).

(** then the result and the GUID, *)
Definition friend_result (player : Player) (result : option (Z * Z * Z)) (friendNote : list Z) : SM (Z * Z) :=
  match result with
  | None => mret (FRIEND_NOT_FOUND, 0)
  | Some (guid, race, friendAccountId) =>
      let friendGuid := MAKE_NEW_GUID guid 0 HIGHGUID_PLAYER in
      let team := TeamForRace race in
      if negb (IsPlayerAccount (GetSecurity player)) || CONFIG_ALLOW_GM_FRIEND ||
         IsPlayerAccount (AccountMgr_GetSecurity friendAccountId)
      then
        if friendGuid =? 0 then mret (FRIEND_NOT_FOUND, friendGuid)
        else
          friendResult ← friend_found player friendGuid team;
          SetFriendNote (GetGUIDLow player) (GUID_LOPART friendGuid) friendNote;;
          mret (friendResult, friendGuid)
      else mret (FRIEND_NOT_FOUND, friendGuid)
  end.

(** and the answer. *)
Definition HandleAddFriendOpcodeCallBack (player : Player) (result : option (Z * Z * Z))
    (friendNote : list Z) : SM () :=
  '(friendResult, friendGuid) ← friend_result player result friendNote;
  SendFriendStatus player friendResult (GUID_LOPART friendGuid) false.

Definition read_guid : BB Z := inn TU64.

Definition HandleDelFriendOpcode (player : Player) (recvData : WorldPacket) : SM () :=
  '(FriendGUID, _) ← on_local recvData (lift read_guid);
  RemoveFromSocialList (GetGUIDLow player) (GUID_LOPART FriendGUID) false;;
  SendFriendStatus player FRIEND_REMOVED (GUID_LOPART FriendGUID) false.

Definition HandleAddIgnoreOpcode (recvData : WorldPacket) : SM (option (list Z)) :=
  '(ignoreName, _) ← on_local recvData (lift inn_string);
  '(ok, ignoreName) ← on_local ignoreName (normalizePlayerName stack);
  if negb ok then mret None else mret (Some ignoreName).

Definition HandleAddIgnoreOpcodeCallBack (player : Player) (result : option Z) : SM () :=
  '(ignoreResult, IgnoreGuid) ←
    (match result with
     | None => mret (FRIEND_IGNORE_NOT_FOUND, 0)
     | Some guid =>
         let IgnoreGuid := MAKE_NEW_GUID guid 0 HIGHGUID_PLAYER in
         if IgnoreGuid =? 0 then mret (FRIEND_IGNORE_NOT_FOUND, IgnoreGuid)
         else if IgnoreGuid =? GetGUID player then mret (FRIEND_IGNORE_SELF, IgnoreGuid)
         else
           already ← HasIgnore (GetGUIDLow player) (GUID_LOPART IgnoreGuid);
           if (already : bool) then mret (FRIEND_IGNORE_ALREADY, IgnoreGuid)
           else
             added ← AddToSocialList (GetGUIDLow player) (GUID_LOPART IgnoreGuid) true;
             mret (if (added : bool) then FRIEND_IGNORE_ADDED else FRIEND_IGNORE_FULL, IgnoreGuid)
     end);
  SendFriendStatus player ignoreResult (GUID_LOPART IgnoreGuid) false.

Definition HandleDelIgnoreOpcode (player : Player) (recvData : WorldPacket) : SM () :=
  '(IgnoreGUID, _) ← on_local recvData (lift read_guid);
  RemoveFromSocialList (GetGUIDLow player) (GUID_LOPART IgnoreGUID) true;;
  SendFriendStatus player FRIEND_IGNORE_REMOVED (GUID_LOPART IgnoreGUID) false.

Definition read_note : BB (Z * list Z) := guid ← inn TU64; note ← inn_string; mret (guid, note).

Definition HandleSetContactNotesOpcode (player : Player) (recvData : WorldPacket) : SM () :=
  '(r, _) ← on_local recvData (lift read_note);
  SetFriendNote (GetGUIDLow player) (GUID_LOPART r.1) r.2.

(** ** Login and logout *)

Definition Login (player : Player) (result : list (Z * Z * list Z)) : SM () :=
  LoadFromDB result (GetGUIDLow player);;
  SendFriendStatus player FRIEND_ONLINE (GetGUIDLow player) true.

Definition Logout (player : Player) : SM () :=
  SendFriendStatus player FRIEND_OFFLINE (GetGUIDLow player) true;;
  RemovePlayerSocial (GetGUIDLow player).
End Manager.

(** ** The table

    The rows of a player by friend: flags and note ([character_social]; a new row
    has the empty note).  What the prepared statements do to it
    ([CharacterDatabase.cpp]). *)

Abbreviation social_table := (gmap Z (gmap Z (Z * list Z))).

Definition rows_of (guid : Z) (t : social_table) : gmap Z (Z * list Z) := default ∅ (t !! guid).
Definition on_rows (guid : Z) (f : gmap Z (Z * list Z) -> gmap Z (Z * list Z)) (t : social_table) : social_table :=
  <[guid := f (rows_of guid t)]> t.

Definition apply_stmt (t : social_table) (o : social_output) : social_table :=
  match o with
  | SendPacket _ _ => t
  | CHAR_UPD_ADD_CHARACTER_SOCIAL_FLAGS flags guid friend =>
      on_rows guid (alter (fun r => (Z.lor r.1 flags, r.2)) friend) t
  | CHAR_UPD_REM_CHARACTER_SOCIAL_FLAGS flags guid friend =>
      on_rows guid (alter (fun r => (Z.land r.1 (Z.lnot flags), r.2)) friend) t
  | CHAR_INS_CHARACTER_SOCIAL guid friend flags => on_rows guid (<[friend := (flags, [])]>) t
  | CHAR_DEL_CHARACTER_SOCIAL guid friend => on_rows guid (delete friend) t
  | CHAR_UPD_CHARACTER_SOCIAL_NOTE note guid friend =>
      on_rows guid (alter (fun r => (r.1, note)) friend) t
  end.

(** The table after what was executed. *)
Definition table_after (t : social_table) (s : SocialState) : social_table := fold_left apply_stmt (done s) t.
