(* ===== verification/SocialProps.v ===== *)
(** * Friends and ignored players: theorems

    The lists in memory and the rows of the database say the same after every
    sequence of events; the limits of the client hold; what is told to whom. *)

From S2P Require Import Prelude Util Utf8 Utf8Props Names NamesProps ByteBuffer Wire WireProps ClientPacket Packet Maps Guid Text Channel Social.

(** ** Rows *)

Definition marked (flag : Z) (r : Z * list Z) : bool := negb (Z.land r.1 flag =? 0).
Definition count_marked (flag : Z) (m : gmap Z (Z * list Z)) : Z := count_if (fun _ r => marked flag r) m.

(** Friend, ignored, or both. *)
Definition flags_ok (flags : Z) : Prop := flags = 1 \/ flags = 2 \/ flags = 3.

(** The rows of one player: no row without a flag, notes of at most 48 characters,
    and the limits. *)
Record rows_ok (m : gmap Z (Z * list Z)) : Prop := {
  ro_rows : forall f r, m !! f = Some r -> flags_ok r.1 /\ zlen r.2 <= 144;
  ro_friends : count_marked SOCIAL_FLAG_FRIEND m <= SOCIALMGR_FRIEND_LIMIT;
  ro_ignored : count_marked SOCIAL_FLAG_IGNORED m <= SOCIALMGR_IGNORE_LIMIT
}.

(** What the database keeps of a list in memory. *)
Definition row_of (f : FriendInfo) : Z * list Z := (Flags f, Note f).
Definition view (p : PlayerSocial) : gmap Z (Z * list Z) := row_of <$> m_playerSocialMap p.

(** The query that loads a list joins the table of the characters: it gives the
    rows whose character exists and is not marked as deleted
    ([CHAR_SEL_CHARACTER_SOCIALLIST]).  Which characters these are is a
    parameter, and the same throughout: deletions of characters are not among
    the events. *)
Class Characters := { listed : Z -> bool }.

Definition shown `{Characters} (m : gmap Z (Z * list Z)) : gmap Z (Z * list Z) :=
  filter (fun kv => listed kv.1 = true) m.

(** Memory and database agree: [t] is the table before the statements.  The
    rows that are not shown stay as they were. *)
Definition coherent `{Characters} (t : social_table) (st : SocialState) : Prop := forall g,
  (rows_ok (shown (rows_of g (table_after t st))) /\
   forall f, listed f = false -> rows_of g (table_after t st) !! f = rows_of g t !! f) /\
  forall p, m_socialMap st !! g = Some p ->
    m_playerGUID p = g /\ view p = shown (rows_of g (table_after t st)).

Section Books.
Context `{Characters}.

Lemma shown_lookup m j : shown m !! j = if listed j then m !! j else None.
Proof.
  unfold shown. destruct (listed j) eqn:Hj.
  - destruct (m !! j) as [r|] eqn:Hm; [by apply map_lookup_filter_Some_2|].
    apply map_lookup_filter_None. by left.
  - apply map_lookup_filter_None. right. cbn. congruence.
Qed.

(** A change of rows of listed characters. *)
Record touches (fn : gmap Z (Z * list Z) -> gmap Z (Z * list Z)) : Prop := {
  touches_shown : forall m, shown (fn m) = fn (shown m);
  touches_rest : forall m f, listed f = false -> fn m !! f = m !! f
}.

Lemma touches_one fn f (h : option (Z * list Z) -> option (Z * list Z)) :
  listed f = true -> (forall m j, fn m !! j = if decide (j = f) then h (m !! j) else m !! j) -> touches fn.
Proof.
  intros Hf Hfn. split.
  - intros m. apply map_eq. intros j. rewrite shown_lookup, !Hfn, shown_lookup.
    destruct (decide (j = f)) as [->|]; [by rewrite Hf|done].
  - intros m j Hj. rewrite Hfn, decide_False; [done|]. congruence.
Qed.

Lemma touches_insert f r : listed f = true -> touches (<[f := r]>).
Proof.
  intros Hf. apply (touches_one _ f (fun _ => Some r) Hf). intros m j. destruct (decide (j = f)) as [->|].
  - apply lookup_insert_eq.
  - by apply lookup_insert_ne.
Qed.

Lemma touches_alter f h : listed f = true -> touches (alter h f).
Proof.
  intros Hf. apply (touches_one _ f (fmap h) Hf). intros m j. destruct (decide (j = f)) as [->|].
  - apply lookup_alter_eq.
  - by apply lookup_alter_ne.
Qed.

Lemma touches_delete f : listed f = true -> touches (delete f).
Proof.
  intros Hf. apply (touches_one _ f (fun _ => None) Hf). intros m j. destruct (decide (j = f)) as [->|].
  - apply lookup_delete_eq.
  - by apply lookup_delete_ne.
Qed.

Lemma table_after_snoc t m l o :
  table_after t (mkSocialState m (l ++ [o])) = apply_stmt (table_after t (mkSocialState m l)) o.
Proof. unfold table_after. cbn. by rewrite fold_left_app. Qed.

Lemma rows_of_on g g' f t : rows_of g (on_rows g' f t) = if bool_decide (g = g') then f (rows_of g t) else rows_of g t.
Proof.
  unfold rows_of at 1, on_rows. case_bool_decide.
  - subst. by rewrite lookup_insert_eq.
  - by rewrite lookup_insert_ne.
Qed.

(** A change of one list together with its statement. *)
Lemma write_through t st g p p' o f :
  coherent t st -> m_socialMap st !! g = Some p -> m_playerGUID p' = g ->
  (forall tb, apply_stmt tb o = on_rows g f tb) -> touches f ->
  view p' = f (view p) -> rows_ok (f (view p)) ->
  coherent t (mkSocialState (<[g := p']> (m_socialMap st)) (done st ++ [o])).
Proof.
  intros Hst Hg Hid Ho [Hsh Hre] Hv Hok j. rewrite table_after_snoc, Ho.
  change (table_after t (mkSocialState (<[g := p']> (m_socialMap st)) (done st))) with (table_after t st).
  destruct (Hst j) as [[Hj Hrest] Hp]. rewrite rows_of_on. cbn. case_bool_decide as He.
  - subst j. destruct (Hp p Hg) as [_ Heq]. rewrite Heq in Hv, Hok. rewrite Hsh.
    split; [split; [done|]; intros k Hk; rewrite Hre by done; by apply Hrest|].
    intros q. rewrite lookup_insert_eq. by intros [= <-].
  - split; [done|]. rewrite lookup_insert_ne by done. apply Hp.
Qed.

(** A change that the database need not know of. *)
Lemma coherent_view t st g p p' :
  coherent t st -> m_socialMap st !! g = Some p -> m_playerGUID p' = g -> view p' = view p ->
  coherent t (mkSocialState (<[g := p']> (m_socialMap st)) (done st)).
Proof.
  intros Hst Hg Hid Hv j. destruct (Hst j) as [Hj Hp]. split; [exact Hj|]. cbn. intros q.
  intros [[<- <-]|[_ Hq]]%lookup_insert_Some; [|by apply Hp]. destruct (Hp p Hg) as [_ Heq].
  split; [done|]. by rewrite Hv.
Qed.

Lemma coherent_packet t st guid data :
  coherent t st -> coherent t (mkSocialState (m_socialMap st) (done st ++ [SendPacket guid data])).
Proof. intros Hst j. rewrite table_after_snoc. exact (Hst j). Qed.
End Books.

(** ** Changing one row keeps the rows as they are to be *)

Definition flag_ok (flag : Z) : Prop := flag = SOCIAL_FLAG_FRIEND \/ flag = SOCIAL_FLAG_IGNORED.

(** Adding and removing a flag, by cases on the few values flags have. *)
Lemma add_flag flags flag :
  flags_ok flags -> flag_ok flag ->
  flags_ok (Z.lor flags flag) /\
  (forall n, marked flag (Z.lor flags flag, n) = true) /\
  (forall other n n', flag_ok other -> other <> flag -> marked other (Z.lor flags flag, n) = marked other (flags, n')).
Proof.
  intros [->|[->| ->]] [->| ->]; (split; [by unfold flags_ok; vm_compute; auto|]); (split; [done|]);
    by intros other n n' [->| ->].
Qed.

Lemma remove_flag flags flag :
  flags_ok flags -> flag_ok flag ->
  u8 (Z.land flags (Z.lnot flag)) = Z.land flags (Z.lnot flag) /\
  (Z.land flags (Z.lnot flag) = 0 \/ flags_ok (Z.land flags (Z.lnot flag))) /\
  (forall n, marked flag (Z.land flags (Z.lnot flag), n) = false) /\
  (forall other n n', flag_ok other -> other <> flag ->
     marked other (Z.land flags (Z.lnot flag), n) = marked other (flags, n')).
Proof.
  intros [->|[->| ->]] [->| ->]; (split; [done|]); (split; [by unfold flags_ok; vm_compute; auto|]); (split; [done|]);
    by intros other n n' [->| ->].
Qed.

Lemma count_new flag m f r :
  m !! f = None -> count_marked flag (<[f := r]> m) = count_marked flag m + Z.b2z (marked flag r).
Proof. intros Hf. unfold count_marked. by rewrite count_if_insert_new. Qed.

Lemma count_change flag m f r r' :
  m !! f = Some r ->
  count_marked flag (<[f := r']> m) = count_marked flag m - Z.b2z (marked flag r) + Z.b2z (marked flag r').
Proof. intros Hf. unfold count_marked. by erewrite count_if_insert. Qed.

Lemma count_delete flag m f r :
  m !! f = Some r -> count_marked flag (delete f m) = count_marked flag m - Z.b2z (marked flag r).
Proof.
  intros Hf. rewrite <- (insert_delete_id m f r) at 2 by done. rewrite count_new by apply lookup_delete_eq. lia.
Qed.

Definition limit (flag : Z) : Z :=
  if flag =? SOCIAL_FLAG_IGNORED then SOCIALMGR_IGNORE_LIMIT else SOCIALMGR_FRIEND_LIMIT.

Lemma limit_friend : limit SOCIAL_FLAG_FRIEND = SOCIALMGR_FRIEND_LIMIT. Proof. done. Qed.
Lemma limit_ignored : limit SOCIAL_FLAG_IGNORED = SOCIALMGR_IGNORE_LIMIT. Proof. done. Qed.

(** A new row, or a flag more on a row, when there is room. *)
Definition with_flag (f flag : Z) (m : gmap Z (Z * list Z)) : gmap Z (Z * list Z) :=
  match m !! f with
  | Some r => <[f := (Z.lor r.1 flag, r.2)]> m
  | None => <[f := (flag, [])]> m
  end.

Lemma rows_ok_add m f flag :
  rows_ok m -> flag_ok flag -> count_marked flag m < limit flag -> rows_ok (with_flag f flag m).
Proof.
  intros [H1 H2 H3] Hflag Hroom. unfold with_flag. destruct (m !! f) as [[fl n]|] eqn:Hf.
  - destruct (H1 f _ Hf) as [Hfl Hn]. cbn in *.
    destruct (add_flag fl flag Hfl Hflag) as (Hok & Hm & Hother). split.
    + intros j r [[<- <-]|[_ Hj]]%lookup_insert_Some; [done|by apply (H1 j)].
    + erewrite count_change by done. destruct Hflag as [->| ->]; [rewrite limit_friend in Hroom|rewrite limit_ignored in Hroom].
      * rewrite (Hm n). cbn. destruct (marked _ (fl, n)); cbn; lia.
      * rewrite (Hother SOCIAL_FLAG_FRIEND n n) by (done || by left). lia.
    + erewrite count_change by done. destruct Hflag as [->| ->]; [rewrite limit_friend in Hroom|rewrite limit_ignored in Hroom].
      * rewrite (Hother SOCIAL_FLAG_IGNORED n n) by (done || by right). lia.
      * rewrite (Hm n). cbn. destruct (marked _ (fl, n)); cbn; lia.
  - split.
    + intros j r [[<- <-]|[_ Hj]]%lookup_insert_Some; [|by apply (H1 j)]. cbn. rewrite zlen_nil. split; [|lia].
      destruct Hflag as [->| ->]; unfold flags_ok; vm_compute; auto.
    + rewrite count_new by done. destruct Hflag as [->| ->]; [rewrite limit_friend in Hroom|rewrite limit_ignored in Hroom];
        match goal with |- _ + ?b <= _ => let v := eval vm_compute in b in change b with v end; lia.
    + rewrite count_new by done. destruct Hflag as [->| ->]; [rewrite limit_friend in Hroom|rewrite limit_ignored in Hroom];
        match goal with |- _ + ?b <= _ => let v := eval vm_compute in b in change b with v end; lia.
Qed.

Lemma rows_ok_remove m f r flag :
  rows_ok m -> flag_ok flag -> m !! f = Some r ->
  rows_ok (if Z.land r.1 (Z.lnot flag) =? 0 then delete f m
           else <[f := (Z.land r.1 (Z.lnot flag), r.2)]> m).
Proof.
  intros [H1 H2 H3] Hflag Hf. destruct (H1 f r Hf) as [Hfl Hn].
  destruct (remove_flag r.1 flag Hfl Hflag) as (_ & Hok & Hm & Hother).
  assert (Hless : forall fl, flag_ok fl -> marked fl (Z.land r.1 (Z.lnot flag), r.2) = true -> marked fl r = true).
  { intros fl Hfl' Ht. destruct (decide (fl = flag)) as [->|Hne]; [by rewrite Hm in Ht|].
    rewrite (Hother fl r.2 r.2) in Ht by done. by destruct r. }
  assert (Hle : forall fl, flag_ok fl ->
    count_marked fl (if Z.land r.1 (Z.lnot flag) =? 0 then delete f m
                     else <[f := (Z.land r.1 (Z.lnot flag), r.2)]> m) <= count_marked fl m).
  { intros fl Hfl'. specialize (Hless fl Hfl'). destruct (_ =? 0).
    - erewrite count_delete by done. destruct (marked fl r); cbn; lia.
    - erewrite count_change by done. destruct (marked fl (_, _)); [rewrite Hless by done; lia|].
      destruct (marked fl r); cbn; lia. }
  split; [|etransitivity; [apply Hle; by left|done]|etransitivity; [apply Hle; by right|done]].
  intros j q. destruct (Z.eqb_spec (Z.land r.1 (Z.lnot flag)) 0) as [|Hnz].
  - intros [_ Hj]%lookup_delete_Some. by apply (H1 j).
  - intros [[<- <-]|[_ Hj]]%lookup_insert_Some; [|by apply (H1 j)]. by destruct Hok.
Qed.

Lemma rows_ok_note m f r note :
  rows_ok m -> m !! f = Some r -> zlen note <= 144 -> rows_ok (<[f := (r.1, note)]> m).
Proof.
  intros [H1 H2 H3] Hf Hn. destruct (H1 f r Hf) as [Hfl _].
  assert (Hsame : forall fl, count_marked fl (<[f := (r.1, note)]> m) = count_marked fl m).
  { intros fl. erewrite count_change by done. change (marked fl (r.1, note)) with (marked fl r). lia. }
  split; [|by rewrite Hsame..]. intros j q [[<- <-]|[_ Hj]]%lookup_insert_Some; [done|by apply (H1 j)].
Qed.

(** No more rows than friends and ignored players together. *)
Lemma rows_size m : rows_ok m -> Z.of_nat (base.size m) <= 100.
Proof.
  intros [H1 H2 H3]. enough (Z.of_nat (base.size m) <= count_marked SOCIAL_FLAG_FRIEND m + count_marked SOCIAL_FLAG_IGNORED m)
    by (unfold SOCIALMGR_FRIEND_LIMIT, SOCIALMGR_IGNORE_LIMIT in *; lia).
  clear H2 H3. induction m as [|f r m Hf IH] using map_ind.
  { rewrite map_size_empty. unfold count_marked. by rewrite !count_if_empty. }
  rewrite map_size_insert_None, !count_new by done.
  assert (Hm : 1 <= Z.b2z (marked SOCIAL_FLAG_FRIEND r) + Z.b2z (marked SOCIAL_FLAG_IGNORED r)).
  { destruct (H1 f r) as [Hfl _]; [apply lookup_insert_eq|]. destruct r as [fl n]. cbn in Hfl.
    by destruct Hfl as [->|[->| ->]]. }
  assert (Hle : forall j q, m !! j = Some q -> flags_ok q.1 /\ zlen q.2 <= 144).
  { intros j q Hj. apply (H1 j). rewrite lookup_insert_ne; [done|]. congruence. }
  specialize (IH Hle). lia.
Qed.

(** ** The operations of a list *)

Lemma view_lookup p f : view p !! f = row_of <$> m_playerSocialMap p !! f.
Proof. apply lookup_fmap. Qed.

Lemma count_view flag p :
  rows_ok (view p) -> flag_ok flag -> GetNumberOfSocialsWithFlag flag p = count_marked flag (view p).
Proof.
  intros [_ Hf Hi] Hflag. unfold GetNumberOfSocialsWithFlag, count_marked, view in *. rewrite count_if_fmap in *.
  change (count_if (fun _ f => negb (Z.land (Flags f) flag =? 0)) (m_playerSocialMap p))
    with (count_if (fun _ x => marked flag (row_of x)) (m_playerSocialMap p)).
  pose proof (count_if_nonneg (fun _ x => marked flag (row_of x)) (m_playerSocialMap p)).
  apply wrap_small. unfold in_width.
  destruct Hflag as [->| ->]; unfold SOCIALMGR_FRIEND_LIMIT, SOCIALMGR_IGNORE_LIMIT in *; lia.
Qed.

Lemma flags_u8 p f i :
  rows_ok (view p) -> m_playerSocialMap p !! f = Some i -> flags_ok (Flags i) /\ zlen (Note i) <= 144.
Proof. intros [H1 _ _] Hi. apply (H1 f (row_of i)). by rewrite view_lookup, Hi. Qed.

(** ** Loading *)

(** What [CHAR_SEL_CHARACTER_SOCIALLIST] gives of the rows of a player: those
    of listed characters, in some order, the first 255 of them. *)
Definition row_entry (r : Z * Z * list Z) : Z * (Z * list Z) := (r.1.1, (r.1.2, r.2)).
Definition result_of `{Characters} (m : gmap Z (Z * list Z)) (rows : list (Z * Z * list Z)) : Prop :=
  exists selected, map row_entry selected ≡ₚ map_to_list (shown m) /\ rows = take 255 selected.

Lemma load_rows_view rows (m : gmap Z FriendInfo) :
  NoDup (map row_entry rows).*1 -> (forall f, f ∈ (map row_entry rows).*1 -> m !! f = None) ->
  Z.of_nat (base.size m) + zlen rows <= 100 ->
  row_of <$> load_rows rows m = list_to_map (map row_entry rows) ∪ (row_of <$> m).
Proof.
  revert m. induction rows as [|[[f fl] n] rows IH]; intros m Hnd Hm Hsz; cbn [load_rows map].
  { cbn [list_to_map foldr]. by rewrite (left_id_L ∅ (∪)). }
  cbn [map] in Hnd, Hm. apply NoDup_cons in Hnd as [Hf Hnd]. change (row_entry (f, fl, n)) with (f, (fl, n)) in *.
  cbn [fmap list_fmap fst] in Hf, Hm. rewrite zlen_cons in Hsz. zlen_pos.
  assert (Hmf : m !! f = None) by (apply Hm; set_solver).
  assert (Hnew : (list_to_map (map row_entry rows) : gmap Z (Z * list Z)) !! f = None)
    by by apply not_elem_of_list_to_map_1.
  rewrite list_to_map_cons. cbn [fst snd]. rewrite <- insert_union_l, insert_union_r by done.
  change (fl, n) with (row_of (FriendInfo_of fl n)). rewrite <- fmap_insert.
  assert (Hsize : base.size (<[f := FriendInfo_of fl n]> m) = Datatypes.S (base.size m))
    by by apply map_size_insert_None.
  destruct (Z.leb_spec (SOCIALMGR_FRIEND_LIMIT + SOCIALMGR_IGNORE_LIMIT)
                       (Z.of_nat (base.size (<[f := FriendInfo_of fl n]> m)))) as [Hfull|].
  - rewrite Hsize in Hfull. unfold SOCIALMGR_FRIEND_LIMIT, SOCIALMGR_IGNORE_LIMIT in Hfull.
    assert (rows = []) as ->. { destruct rows; [done|]. rewrite zlen_cons in Hsz. zlen_pos. lia. }
    cbn [map list_to_map foldr]. by rewrite (left_id_L ∅ (∪)).
  - apply IH; [done| |lia]. intros j Hj. rewrite lookup_insert_ne; [apply Hm; set_solver|]. by intros ->.
Qed.

(** Loading gives the shown rows: neither the limit of the query nor the loop
    stops early. *)
Lemma load_rows_result `{Characters} m rows :
  rows_ok (shown m) -> result_of m rows -> row_of <$> load_rows rows ∅ = shown m.
Proof.
  intros Hok (selected & Hr & ->). pose proof (rows_size _ Hok) as Hsz.
  pose proof (Permutation_length Hr) as Hlen. rewrite length_map, length_map_to_list in Hlen.
  rewrite (take_ge selected) by lia. revert Hok Hr. clear Hsz Hlen.
  generalize (shown m). clear m. intros m Hok Hr. rename selected into rows.
  assert (Hnd : NoDup (map row_entry rows).*1) by (rewrite Hr; apply NoDup_fst_map_to_list).
  rewrite load_rows_view; [|done|intros f _; apply lookup_empty|].
  - rewrite fmap_empty, (right_id_L ∅ (∪)), <- (list_to_map_to_list m). by apply list_to_map_proper.
  - rewrite map_size_empty. pose proof (rows_size m Hok) as Hsz. apply Permutation_length in Hr.
    rewrite length_map, length_map_to_list in Hr. unfold zlen. lia.
Qed.

Section Operations.
Context `{Host, Server, SocialWorld, Characters}.
Implicit Types (t : social_table) (st : SocialState) (g f : Z).

(** The player is online, and the books are right. *)
Definition online (t : social_table) (g : Z) (st : SocialState) : Prop :=
  coherent t st /\ is_Some (m_socialMap st !! g).

(** What an operation on the list of [g] keeps: the books, and who is online. *)
Definition keeps_books t st st' : Prop :=
  coherent t st' /\ forall j, is_Some (m_socialMap st' !! j) <-> is_Some (m_socialMap st !! j).

Lemma keeps_online t g st st' : keeps_books t st st' -> online t g st -> online t g st'.
Proof. intros [Hc Hj] [_ Ho]. split; [done|]. by apply Hj. Qed.

Lemma keeps_refl t st : coherent t st -> keeps_books t st st.
Proof. done. Qed.

Lemma keeps_trans t st1 st2 st3 : keeps_books t st1 st2 -> keeps_books t st2 st3 -> keeps_books t st1 st3.
Proof. intros [_ H1'] [H2' H3']. split; [done|]. intros j. by rewrite H3', H1'. Qed.

Lemma keeps_write t st g p p' o fn :
  coherent t st -> m_socialMap st !! g = Some p -> m_playerGUID p' = g ->
  (forall tb, apply_stmt tb o = on_rows g fn tb) -> touches fn ->
  view p' = fn (view p) -> rows_ok (fn (view p)) ->
  keeps_books t st (mkSocialState (<[g := p']> (m_socialMap st)) (done st ++ [o])).
Proof.
  intros Hc Hg Hid Ho Ht Hv Hok. split; [by eapply write_through|]. intros j. cbn.
  rewrite lookup_insert_is_Some'. split; [intros [<-|]; eauto|auto].
Qed.

Lemma keeps_view t st g p p' :
  coherent t st -> m_socialMap st !! g = Some p -> m_playerGUID p' = g -> view p' = view p ->
  keeps_books t st (mkSocialState (<[g := p']> (m_socialMap st)) (done st)).
Proof.
  intros Hc Hg Hid Hv. split; [by eapply coherent_view|]. intros j. cbn.
  rewrite lookup_insert_is_Some'. split; [intros [<-|]; eauto|auto].
Qed.

Lemma packet_keeps t st guid data :
  coherent t st -> keeps_books t st (mkSocialState (m_socialMap st) (done st ++ [SendPacket guid data])).
Proof. intros Hc. split; [by apply coherent_packet|done]. Qed.

Lemma GetSocial_run g p st : m_socialMap st !! g = Some p -> GetSocial g st = Ok p st.
Proof. intros Hp. unfold GetSocial. by rewrite Hp. Qed.

Definition with_friend f (i : FriendInfo) (p : PlayerSocial) : PlayerSocial :=
  p <| m_playerSocialMap ::= <[f := i]> |>.

Lemma set_friend_run g f i p st :
  m_socialMap st !! g = Some p ->
  set_friend g f i st = Ok () (mkSocialState (<[g := with_friend f i p]> (m_socialMap st)) (done st)).
Proof. intros Hp. unfold set_friend, modify. cbn. by rewrite (alter_Some _ g _ p). Qed.

Lemma wp_GetSocial g p (Q : PlayerSocial -> SocialState -> Prop) X st :
  m_socialMap st !! g = Some p -> Q p st -> wp (GetSocial g) Q X st.
Proof. intros Hp HQ. unfold wp. by rewrite (GetSocial_run g p). Qed.

Lemma wp_set_friend g f i p (Q : () -> SocialState -> Prop) X st :
  m_socialMap st !! g = Some p ->
  Q () (mkSocialState (<[g := with_friend f i p]> (m_socialMap st)) (done st)) -> wp (set_friend g f i) Q X st.
Proof. intros Hp HQ. unfold wp. by rewrite (set_friend_run g f i p). Qed.

Lemma wp_execute o (Q : () -> SocialState -> Prop) X st :
  Q () (mkSocialState (m_socialMap st) (done st ++ [o])) -> wp (execute o) Q X st.
Proof. intros HQ. apply wp_modify. by destruct st. Qed.

Lemma view_with f i p : view (with_friend f i p) = <[f := row_of i]> (view p).
Proof. unfold view, with_friend. cbn. by rewrite fmap_insert. Qed.

Lemma online_inv t g st p :
  coherent t st -> m_socialMap st !! g = Some p -> m_playerGUID p = g /\ rows_ok (view p).
Proof. intros Hc Hp. destruct (Hc g) as [[Hok _] Hv]. destruct (Hv p Hp) as [-> ->]. done. Qed.

(** Whoever is on a list in memory is listed. *)
Lemma online_listed t g st p f r :
  coherent t st -> m_socialMap st !! g = Some p -> view p !! f = Some r -> listed f = true.
Proof.
  intros Hc Hp Hf. destruct (Hc g) as [_ Hv]. destruct (Hv p Hp) as [_ Heq].
  rewrite Heq, shown_lookup in Hf. by destruct (listed f).
Qed.

(** The list of [g] is replaced by one with other rows; packets and statements
    may have been added. *)
Definition own g (m : gmap Z (Z * list Z)) st st' : Prop :=
  (exists p, m_socialMap st' = <[g := p]> (m_socialMap st) /\ view p = m) /\ exists l, done st' = done st ++ l.

Lemma own_refl g p st : m_socialMap st !! g = Some p -> own g (view p) st st.
Proof. intros Hp. split; [exists p; by rewrite insert_id|exists []; by rewrite app_nil_r]. Qed.

Lemma own_list g m st st' : own g m st st' -> exists p, m_socialMap st' !! g = Some p /\ view p = m.
Proof. intros [(p & -> & Hv) _]. exists p. by rewrite lookup_insert_eq. Qed.

Lemma own_trans g m m' st1 st2 st3 : own g m st1 st2 -> own g m' st2 st3 -> own g m' st1 st3.
Proof.
  intros [(p & H1' & _) [l Hl]] [(p' & H2' & Hv) [l' Hl']]. split.
  - exists p'. by rewrite H2', H1', insert_insert_eq.
  - exists (l ++ l'). by rewrite Hl', Hl, app_assoc.
Qed.

(** [AddToSocialList] fails exactly when the list is full. *)
Lemma AddToSocialList_keeps t g f ignore st :
  online t g st -> listed f = true ->
  returns (AddToSocialList g f ignore)
    (fun added st' => keeps_books t st st' /\
       exists p, m_socialMap st !! g = Some p /\
         added = (count_marked (if ignore then SOCIAL_FLAG_IGNORED else SOCIAL_FLAG_FRIEND) (view p) <?
                  limit (if ignore then SOCIAL_FLAG_IGNORED else SOCIAL_FLAG_FRIEND)) /\
         own g (if added then with_flag f (if ignore then SOCIAL_FLAG_IGNORED else SOCIAL_FLAG_FRIEND) (view p)
                else view p) st st') st.
Proof.
  intros [Hc [p Hp]] Hlist. destruct (online_inv t g st p Hc Hp) as [Hid Hok].
  set (flag := if ignore then _ else _).
  assert (Hflag : flag_ok flag) by (unfold flag, flag_ok; destruct ignore; auto).
  unfold AddToSocialList. apply wp_bind. unfold wp at 1. rewrite (GetSocial_run g p) by done.
  set (full := if ignore then _ else _).
  assert (Hfull : full = negb (count_marked flag (view p) <? limit flag)).
  { unfold full, flag. destruct ignore; rewrite count_view by done || (by left) || (by right);
      [rewrite limit_ignored|rewrite limit_friend]; by rewrite <- Z.leb_antisym. }
  rewrite Hfull. destruct (Z.ltb_spec (count_marked flag (view p)) (limit flag)) as [Hroom|]; cbn [negb].
  2: { apply wp_ret. split; [by apply keeps_refl|]. exists p. split_and!; [done| |by apply own_refl]. by rewrite Z.ltb_antisym, (proj2 (Z.leb_le _ _)). }
  fold flag. pose proof (rows_ok_add (view p) f flag Hok Hflag Hroom) as Hadd.
  assert (Hfits : forall o fn p', m_playerGUID p' = g -> (forall tb, apply_stmt tb o = on_rows g fn tb) -> touches fn ->
    fn (view p) = with_flag f flag (view p) -> view p' = fn (view p) ->
    let st' := mkSocialState (<[g := p']> (m_socialMap st)) (done st ++ [o]) in
    keeps_books t st st' /\ exists p, m_socialMap st !! g = Some p /\ true = (count_marked flag (view p) <? limit flag) /\
      own g (if true then with_flag f flag (view p) else view p) st st').
  { intros o fn p' Hid' Ho Htouch Hfn Hv. split; [apply (keeps_write t st g p p' o fn); [done..|by rewrite Hfn]|].
    exists p. split_and!; [done|symmetry; by apply Z.ltb_lt|]. split; [exists p'; by rewrite Hv, Hfn|by exists [o]]. }
  apply wp_bind. destruct (m_playerSocialMap p !! f) as [i|] eqn:Hi; apply wp_bind, wp_execute;
    apply (wp_set_friend _ _ _ p); [done| |done|]; apply wp_ret; cbn [m_socialMap done].
  - assert (Hvi : view p !! f = Some (row_of i)) by by rewrite view_lookup, Hi.
    eapply (Hfits _ (alter (fun r => (Z.lor r.1 flag, r.2)) f)); [done|by rewrite Hid|by apply touches_alter|..].
    + unfold with_flag. by rewrite (alter_Some _ f _ (row_of i)), Hvi.
    + rewrite view_with. by rewrite (alter_Some _ f _ (row_of i)).
  - eapply (Hfits _ (<[f := (flag, [])]>)); [done|by rewrite Hid|by apply touches_insert|..].
    + unfold with_flag. by rewrite view_lookup, Hi.
    + rewrite view_with. by destruct Hflag as [->| ->].
Qed.

(** [SetFriendNote] keeps the first 48 characters; what is not UTF-8 is emptied. *)
Definition first48 (note : list Z) : list Z :=
  match utf8truncate (E := ByteBufferException) 48 note with Ok _ n => n | _ => [] end.
Definition set_note (f : Z) (note : list Z) : gmap Z (Z * list Z) -> gmap Z (Z * list Z) :=
  alter (fun r => (r.1, first48 note)) f.

Lemma SetFriendNote_keeps t g f note st :
  online t g st -> Forall octet note -> basic note ->
  returns (SetFriendNote g f note)
    (fun _ st' => keeps_books t st st' /\
       forall p, m_socialMap st !! g = Some p -> own g (set_note f note (view p)) st st') st.
Proof.
  intros [Hc [p Hp]] Hoct Hb. destruct (online_inv t g st p Hc Hp) as [Hid Hok].
  unfold SetFriendNote. apply wp_bind, (wp_GetSocial g p); [done|].
  destruct (m_playerSocialMap p !! f) as [i|] eqn:Hi.
  2: { apply wp_ret. split; [by apply keeps_refl|]. intros q Hq. assert (p = q) as <- by congruence.
       unfold set_note. rewrite alter_id by (intros r Hr; rewrite view_lookup, Hi in Hr; done). by apply own_refl. }
  destruct (utf8truncate_total (E := ByteBufferException) 48 note Hoct Hb ltac:(lia)) as (n & Hn & Hlen).
  apply wp_bind. unfold wp at 1, on_local. rewrite Hn. apply wp_bind, wp_execute, (wp_set_friend _ _ _ p); [done|].
  assert (Hv : view p !! f = Some (row_of i)) by by rewrite view_lookup, Hi.
  assert (Hnew : view (with_friend f (i <| Note := n |>) p) = set_note f note (view p)).
  { unfold set_note, first48. rewrite view_with, Hn. by rewrite (alter_Some _ f _ (row_of i)). }
  split.
  - apply (keeps_write t st g p _ _ (alter (fun r => (r.1, n)) f));
      [done..|by rewrite Hid|by eapply touches_alter, online_listed| |].
    + rewrite view_with. by rewrite (alter_Some _ f _ (row_of i)).
    + rewrite (alter_Some _ f _ (row_of i)) by done. by apply (rows_ok_note _ f (row_of i)).
  - intros q Hq. assert (p = q) as <- by congruence. split; [by eexists|by eexists].
Qed.

Definition without_friend f (p : PlayerSocial) : PlayerSocial := p <| m_playerSocialMap ::= delete f |>.

Lemma wp_erase_friend g f p (Q : () -> SocialState -> Prop) X st :
  m_socialMap st !! g = Some p ->
  Q () (mkSocialState (<[g := without_friend f p]> (m_socialMap st)) (done st)) -> wp (erase_friend g f) Q X st.
Proof. intros Hp HQ. apply wp_modify. cbn. by rewrite (alter_Some _ g _ p). Qed.

Lemma view_without f p : view (without_friend f p) = delete f (view p).
Proof. unfold view, without_friend. cbn. by rewrite fmap_delete. Qed.

Lemma without_with f i p : without_friend f (with_friend f i p) = without_friend f p.
Proof. destruct p as [m k]. unfold without_friend, with_friend. cbn. f_equal. apply delete_insert_eq. Qed.

Lemma RemoveFromSocialList_keeps t g f ignore st :
  online t g st -> returns (RemoveFromSocialList g f ignore) (fun _ st' => keeps_books t st st') st.
Proof.
  intros [Hc [p Hp]]. destruct (online_inv t g st p Hc Hp) as [Hid Hok].
  unfold RemoveFromSocialList. apply wp_bind, (wp_GetSocial g p); [done|].
  destruct (m_playerSocialMap p !! f) as [i|] eqn:Hi; [|by apply wp_ret, keeps_refl].
  set (flag := if ignore then _ else _).
  assert (Hflag : flag_ok flag) by (unfold flag, flag_ok; destruct ignore; auto).
  assert (Hv : view p !! f = Some (row_of i)) by by rewrite view_lookup, Hi.
  pose proof (rows_ok_remove (view p) f (row_of i) flag Hok Hflag Hv) as Hrem. cbn [row_of fst snd] in Hrem.
  destruct (remove_flag (Flags i) flag) as (-> & _); [by apply (flags_u8 p f)|done|].
  apply wp_bind, (wp_set_friend _ _ _ p); [done|]. apply wp_if; intros Hz; rewrite Hz in Hrem.
  - apply wp_bind, wp_execute, (wp_erase_friend _ _ (with_friend f (i <| Flags := Z.land (Flags i) (Z.lnot flag) |>) p));
      [apply lookup_insert_eq|]. cbn [m_socialMap done]. rewrite insert_insert_eq, without_with.
    apply (keeps_write t st g p _ _ (delete f));
      [done..|by rewrite Hid|by eapply touches_delete, online_listed|apply view_without|done].
  - apply wp_execute. cbn [m_socialMap done].
    apply (keeps_write t st g p _ _ (alter (fun r => (Z.land r.1 (Z.lnot flag), r.2)) f));
      [done..|by rewrite Hid|by eapply touches_alter, online_listed| |].
    + rewrite view_with. by rewrite (alter_Some _ f _ (row_of i)).
    + by rewrite (alter_Some _ f _ (row_of i)).
Qed.

(** ** What is shown of a friend *)

(** Offline, or what is seen of the player that is found. *)
Definition refreshed (player : Player) (f : Z) (i : FriendInfo) : FriendInfo :=
  match FindPlayer f with
  | Some q =>
      if sees player q then
        let g := GetGUID q in
        mkFriendInfo (if isDND g then FRIEND_STATUS_DND else if isAFK g then FRIEND_STATUS_AFK
                      else FRIEND_STATUS_ONLINE) (Flags i) (GetZoneId g) (getLevel g) (getClass g) (Note i)
      else FriendInfo_of (Flags i) (Note i)
  | None => FriendInfo_of (Flags i) (Note i)
  end.

(** The note of a contact is only looked up when the contact is found. *)
Definition note_shown (p : PlayerSocial) (f : Z) : list Z :=
  match FindPlayer f, m_playerSocialMap p !! f with Some _, Some i => Note i | _, _ => [] end.

Lemma GetFriendInfo_entry player f i p st :
  m_socialMap st !! GetGUIDLow player = Some p -> m_playerSocialMap p !! f = Some i ->
  GetFriendInfo player f i st = Ok (refreshed player f i) st.
Proof.
  intros Hp Hi. unfold GetFriendInfo, refreshed. destruct (FindPlayer f) as [q|]; [|by destruct i].
  erewrite bind_run by by apply GetSocial_run. rewrite Hi. destruct (sees player q); by destruct i.
Qed.

Lemma GetFriendInfo_new player f p st :
  m_socialMap st !! GetGUIDLow player = Some p ->
  GetFriendInfo player f FriendInfo_new st = Ok (refreshed player f (FriendInfo_of 0 (note_shown p f))) st.
Proof.
  intros Hp. unfold GetFriendInfo, refreshed, note_shown. destruct (FindPlayer f) as [q|]; [|done].
  erewrite bind_run by by apply GetSocial_run.
  destruct (m_playerSocialMap p !! f); by destruct (sees player q).
Qed.

(** ** The list of contacts *)

Definition contact_fmt k (f : FriendInfo) : list Z :=
  scalar_fmt TU64 k ++ scalar_fmt TU32 (Flags f) ++ string_fmt (Note f) ++
  (if negb (Z.land (Flags f) SOCIAL_FLAG_FRIEND =? 0)
   then scalar_fmt TU8 (Status f) ++
        (if negb (Status f =? 0)
         then scalar_fmt TU32 (Area f) ++ scalar_fmt TU32 (Level f) ++ scalar_fmt TU32 (Class_ f) else [])
   else []).

Lemma writes_contact k (f : FriendInfo) : writes (write_contact k f) (contact_fmt k f).
Proof.
  unfold write_contact, contact_fmt, when. do 2 (apply writes_bind; [apply writes_out|]).
  apply writes_bind; [apply writes_out_string|]. apply writes_if; [|apply writes_ret].
  apply writes_bind; [apply writes_out|]. apply writes_if; [|apply writes_ret].
  do 2 (apply writes_bind; [apply writes_out|]). apply writes_out.
Qed.

Lemma contact_length k (f : FriendInfo) : zlen (Note f) <= 144 -> zlen (contact_fmt k f) <= 170.
Proof.
  intros Hn. unfold contact_fmt, string_fmt, scalar_fmt.
  destruct (_ =? _), (_ =? _); cbn [negb]; rewrite ?zlen_app, ?zlen_le_bytes, ?zlen_cons, ?zlen_nil; cbn; lia.
Qed.

Lemma lift_writes m bs op pre :
  writes m bs -> zlen pre + zlen bs <= 10000000 -> lift m (packet_of op pre) = Ok () (packet_of op (pre ++ bs)).
Proof.
  intros Hm Hl. unfold lift. rewrite Hm by done. unfold packet_of, appended. cbn. by rewrite zlen_app.
Qed.

(** The contacts as they are shown, by the rows. *)
Definition contact_of (player : Player) (m : gmap Z (Z * list Z)) (k : Z) : list Z :=
  match m !! k with
  | Some r => contact_fmt k (refreshed player k (FriendInfo_of r.1 r.2))
  | None => []
  end.

Lemma refreshed_row player k i : row_of (refreshed player k i) = row_of i.
Proof. unfold refreshed. destruct (FindPlayer k); [|done]. by destruct (sees _ _). Qed.

(** A list that was brought up to date, and the database need not know. *)
Definition same_books g (p : PlayerSocial) st st' : Prop :=
  done st' = done st /\
  exists p', m_socialMap st' = <[g := p']> (m_socialMap st) /\ view p' = view p /\ m_playerGUID p' = m_playerGUID p.

Lemma contact_loop_run player g p op ks pre st :
  GetGUIDLow player = g -> m_socialMap st !! g = Some p -> rows_ok (view p) ->
  (forall k, k ∈ ks -> is_Some (view p !! k)) -> zlen pre + 170 * Z.of_nat (length ks) <= 10000000 ->
  returns (contact_loop g player ks (packet_of op pre))
    (fun data st' => data = packet_of op (pre ++ concat (map (contact_of player (view p)) ks)) /\
                     same_books g p st st') st.
Proof.
  intros Hg. revert p pre st. induction ks as [|k ks IH]; intros p pre st Hp Hok Hks Hlen; cbn [contact_loop].
  - apply wp_ret. cbn. rewrite app_nil_r. split; [done|]. split; [done|]. exists p. by rewrite insert_id.
  - destruct (Hks k) as [r Hr]; [set_solver|]. pose proof Hr as Hr'. rewrite view_lookup in Hr'.
    destruct (m_playerSocialMap p !! k) as [i|] eqn:Hi; [|done]. injection Hr' as <-.
    destruct (flags_u8 p k i Hok Hi) as [_ Hn].
    assert (Hlen1 : zlen (contact_fmt k (refreshed player k i)) <= 170).
    { apply contact_length. pose proof (refreshed_row player k i) as [= _ ->]. done. }
    apply wp_bind, (wp_GetSocial g p); [done|]. rewrite Hi. apply wp_bind. unfold wp at 1.
    rewrite (GetFriendInfo_entry player k i p) by by rewrite ?Hg.
    apply wp_bind, (wp_set_friend _ _ _ p); [done|]. apply wp_bind. unfold wp at 1, on_local.
    rewrite (lift_writes _ (contact_fmt k (refreshed player k i)))
      by (apply writes_contact || (cbn [length] in Hlen; lia)).
    set (p1 := with_friend k (refreshed player k i) p).
    assert (Hv : view p1 = view p) by (unfold p1; rewrite view_with, refreshed_row; by apply insert_id).
    eapply wp_mono; [apply (IH p1)|..]; [apply lookup_insert_eq|by rewrite Hv| | | |done].
    + intros j Hj. rewrite Hv. apply Hks. set_solver.
    + rewrite zlen_app. cbn [length] in Hlen. lia.
    + cbn beta. intros data st' (-> & Hd & p' & Hm & Hv' & Hid). rewrite Hv in Hv'. split.
      * f_equal. cbn [map concat]. rewrite <- app_assoc, Hv. do 2 f_equal. unfold contact_of at 1.
        by rewrite Hr.
      * split; [exact Hd|]. exists p'. cbn in Hm. rewrite insert_insert_eq in Hm. by rewrite Hv', Hid.
Qed.

(** The list as it is sent: a mask, how many contacts, and each of them. *)
Definition contact_list (player : Player) (m : gmap Z (Z * list Z)) : WorldPacket :=
  packet_of SMSG_CONTACT_LIST
    (scalar_fmt TU32 7 ++ scalar_fmt TU32 (Z.of_nat (base.size m)) ++ concat (map (contact_of player m) (keys m))).

Lemma SendSocialList_run g player p st :
  GetGUIDLow player = g -> m_socialMap st !! g = Some p -> rows_ok (view p) ->
  returns (SendSocialList g player)
    (fun _ st' => exists st1, same_books g p st st1 /\
       st' = mkSocialState (m_socialMap st1) (done st ++ [SendPacket (GetGUID player) (contact_list player (view p))])) st.
Proof.
  intros Hg Hp Hok. unfold SendSocialList. apply wp_bind, (wp_GetSocial g p); [done|].
  apply wp_bind. unfold wp at 1, on_local.
  pose proof (rows_size _ Hok) as Hsz. assert (Hsame : base.size (m_playerSocialMap p) = base.size (view p))
    by (unfold view; by rewrite map_size_fmap).
  rewrite Hsame. rewrite (wrap_small _ (Z.of_nat (base.size (view p)))) by (unfold in_width; lia).
  change (WorldPacket_new SMSG_CONTACT_LIST) with (packet_of SMSG_CONTACT_LIST []).
  rewrite (lift_writes _ (scalar_fmt TU32 7 ++ scalar_fmt TU32 (Z.of_nat (base.size (view p)))))
    by (first [apply writes_bind; apply writes_out | unfold scalar_fmt; by vm_compute]).
  cbn [app]. apply wp_bind. eapply wp_mono; [apply (contact_loop_run player g p); [done..| |]| |done].
  - intros k. by rewrite elem_of_keys, view_lookup, fmap_is_Some.
  - rewrite length_keys, Hsame. unfold scalar_fmt. rewrite zlen_app, !zlen_le_bytes. cbn. lia.
  - cbn beta. intros data st1 [-> Hst1]. apply wp_execute. exists st1. split; [done|].
    destruct Hst1 as [-> _]. do 4 f_equal. unfold contact_list. f_equal. rewrite <- app_assoc. do 2 f_equal.
    unfold view at 3. by rewrite keys_fmap.
Qed.

Lemma SendSocialList_keeps t g player st :
  online t g st -> GetGUIDLow player = g -> returns (SendSocialList g player) (fun _ st' => keeps_books t st st') st.
Proof.
  intros [Hc [p Hp]] Hg. destruct (online_inv t g st p Hc Hp) as [Hid Hok].
  eapply returns_mono; [by apply (SendSocialList_run g player p)|].
  intros [] st' (st1 & (Hd & p' & Hm & Hv & Hid') & ->). rewrite Hm.
  assert (Hk : keeps_books t st (mkSocialState (<[g := p']> (m_socialMap st)) (done st)))
    by (eapply keeps_view; [done..|congruence|done]).
  eapply keeps_trans; [exact Hk|]. exact (packet_keeps t (mkSocialState _ _) _ _ (proj1 Hk)).
Qed.

(** ** What is told of a contact *)

(** The body of a notice; [i] is the contact as it is shown. *)
Definition status_fmt (result f : Z) (i : FriendInfo) : list Z :=
  scalar_fmt TU8 result ++ scalar_fmt TU64 f ++
  (if (result =? FRIEND_ADDED_OFFLINE) || (result =? FRIEND_ADDED_ONLINE) then string_fmt (Note i) else []) ++
  (if (result =? FRIEND_ADDED_ONLINE) || (result =? FRIEND_ONLINE)
   then scalar_fmt TU8 (Status i) ++ scalar_fmt TU32 (Area i) ++ scalar_fmt TU32 (Level i) ++
        scalar_fmt TU32 (Class_ i) else []).

Definition friend_status (player : Player) (p : PlayerSocial) (result f : Z) : WorldPacket :=
  packet_of SMSG_FRIEND_STATUS (status_fmt result f (refreshed player f (FriendInfo_of 0 (note_shown p f)))).

Lemma writes_status result i :
  writes (status_body result i)
    ((if (result =? FRIEND_ADDED_OFFLINE) || (result =? FRIEND_ADDED_ONLINE) then string_fmt (Note i) else []) ++
     (if (result =? FRIEND_ADDED_ONLINE) || (result =? FRIEND_ONLINE)
      then scalar_fmt TU8 (Status i) ++ scalar_fmt TU32 (Area i) ++ scalar_fmt TU32 (Level i) ++
           scalar_fmt TU32 (Class_ i) else [])).
Proof.
  unfold status_body, when. apply writes_bind; (apply writes_if; [|apply writes_ret]); [apply writes_out_string|].
  do 3 (apply writes_bind; [apply writes_out|]). apply writes_out.
Qed.

Lemma note_shown_length p f : rows_ok (view p) -> zlen (note_shown p f) <= 144.
Proof.
  intros Hok. unfold note_shown. destruct (FindPlayer f); [|by rewrite zlen_nil].
  destruct (m_playerSocialMap p !! f) as [i|] eqn:Hi; [|by rewrite zlen_nil]. by apply (flags_u8 p f).
Qed.

Lemma MakeFriendStatusPacket_makes result f :
  makes (MakeFriendStatusPacket result f) SMSG_FRIEND_STATUS (scalar_fmt TU8 result ++ scalar_fmt TU64 f).
Proof.
  intros Hl q Hq. pose proof (makes_initialize SMSG_FRIEND_STATUS 9 (out TU8 result;; out TU64 f) _
    (writes_bind _ _ _ _ (writes_out TU8 result) (writes_out TU64 f)) Hl q Hq) as Hm.
  rewrite <- Hm. unfold MakeFriendStatusPacket. unfold mbind at 1 3, M_bind at 1 3.
  destruct (Initialize _ _ q) as [[] q'| |]; [|done..]. symmetry. apply lift_bind.
Qed.

(** Whom a notice goes to. *)
Definition send_status (player : Player) (broadcast : bool) (data : WorldPacket) : SM () :=
  if broadcast then BroadcastToFriendListers player data else execute (SendPacket (GetGUID player) data).

Lemma SendFriendStatus_run player p result f broadcast st :
  m_socialMap st !! GetGUIDLow player = Some p -> rows_ok (view p) ->
  SendFriendStatus player result f broadcast st = send_status player broadcast (friend_status player p result f) st.
Proof.
  intros Hp Hok. unfold SendFriendStatus.
  set (i := refreshed player f (FriendInfo_of 0 (note_shown p f))).
  assert (Hn : zlen (Note i) <= 144).
  { pose proof (refreshed_row player f (FriendInfo_of 0 (note_shown p f))) as [= _ Heq]. unfold i. rewrite Heq.
    by apply note_shown_length. }
  erewrite bind_run.
  2: { unfold on_local. rewrite (MakeFriendStatusPacket_makes result f); [reflexivity| |done].
       unfold scalar_fmt. rewrite zlen_app, !zlen_le_bytes. cbn. lia. }
  cbn beta iota. erewrite bind_run by by apply GetFriendInfo_new. fold i.
  erewrite bind_run.
  2: { unfold on_local. erewrite lift_writes; [reflexivity|apply writes_status|].
       unfold scalar_fmt, string_fmt. destruct (_ || _); destruct (_ || _);
         rewrite ?zlen_app, ?zlen_le_bytes, ?zlen_cons, ?zlen_nil; cbn; rewrite ?(@zlen_nil Z); lia. }
  cbn beta iota. unfold send_status, friend_status, status_fmt. fold i. by rewrite <- app_assoc.
Qed.

(** The players who have [player] among their friends, are found in the world and
    see that the player is online, by the keys of their lists. *)
Definition lister (player : Player) (m : gmap Z PlayerSocial) (k : Z) : option Player :=
  p ← m !! k;
  if flagged SOCIAL_FLAG_FRIEND (GetGUIDLow player) p then
    q ← FindPlayer (MAKE_NEW_GUID k 0 HIGHGUID_PLAYER);
    if IsInWorld q && sees q player then Some q else None
  else None.

Definition told (player : Player) (broadcast : bool) (m : gmap Z PlayerSocial) : list Z :=
  if broadcast then map GetGUID (omap (lister player m) (keys m)) else [GetGUID player].

Definition sends (guids : list Z) (data : WorldPacket) (st : SocialState) : SocialState :=
  mkSocialState (m_socialMap st) (done st ++ map (fun g => SendPacket g data) guids).

Lemma sends_nil data st : sends [] data st = st.
Proof. unfold sends. cbn. rewrite app_nil_r. by destruct st. Qed.

Lemma sends_app l1 l2 data st : sends (l1 ++ l2) data st = sends l2 data (sends l1 data st).
Proof. unfold sends. cbn. by rewrite map_app, app_assoc. Qed.

(** One turn of the loop over the lists. *)
Definition tell_lister (player : Player) (data : WorldPacket) (m : gmap Z PlayerSocial) (k : Z) : SM () :=
  when (match m !! k with Some p => flagged SOCIAL_FLAG_FRIEND (GetGUIDLow player) p | None => false end)
    (match FindPlayer (MAKE_NEW_GUID k 0 HIGHGUID_PLAYER) with
     | Some pFriend =>
         when (IsInWorld pFriend && sees pFriend player) (execute (SendPacket (GetGUID pFriend) data))
     | None => mret ()
     end).

Lemma tell_lister_run player data m k st :
  tell_lister player data m k st =
  Ok () (sends (match lister player m k with Some q => [GetGUID q] | None => [] end) data st).
Proof.
  unfold tell_lister, lister. destruct (m !! k) as [p|]; cbn [mbind option_bind when]; [|by rewrite sends_nil].
  destruct (flagged _ _ p); cbn [when]; [|by rewrite sends_nil].
  destruct (FindPlayer _) as [q|]; cbn [mbind option_bind]; [|by rewrite sends_nil].
  destruct (IsInWorld q && sees q player); cbn [when]; [|by rewrite sends_nil]. by destruct st.
Qed.

Lemma BroadcastToFriendListers_run player data st :
  BroadcastToFriendListers player data st = Ok () (sends (told player true (m_socialMap st)) data st).
Proof.
  unfold BroadcastToFriendListers. erewrite bind_run by done. cbn [told]. fold (tell_lister player data (m_socialMap st)).
  set (m := m_socialMap st). clearbody m. generalize (keys m). intros l.
  change (for_each l (tell_lister player data m) st = Ok () (sends (map GetGUID (omap (lister player m) l)) data st)).
  revert st. induction l as [|k l IH]; intros st; cbn [for_each].
  { by rewrite sends_nil. }
  erewrite bind_run by apply tell_lister_run. rewrite IH, <- sends_app. f_equal. f_equal. cbn.
  by destruct (lister player m k).
Qed.

(** Packets are no matter of the books. *)
Lemma packets_keep t guids data st : coherent t st -> keeps_books t st (sends guids data st).
Proof.
  revert st. induction guids as [|g guids IH]; intros st Hc; [rewrite sends_nil; by apply keeps_refl|].
  change (g :: guids) with ([g] ++ guids). rewrite sends_app.
  pose proof (packet_keeps t st g data Hc) as Hk. eapply keeps_trans; [exact Hk|]. apply IH, Hk.
Qed.

Lemma SendFriendStatus_sends player p result f broadcast st :
  m_socialMap st !! GetGUIDLow player = Some p -> rows_ok (view p) ->
  SendFriendStatus player result f broadcast st =
  Ok () (sends (told player broadcast (m_socialMap st)) (friend_status player p result f) st).
Proof.
  intros Hp Hok. rewrite (SendFriendStatus_run player p) by done. unfold send_status.
  destruct broadcast; [apply BroadcastToFriendListers_run|]. by destruct st.
Qed.

Lemma SendFriendStatus_keeps t player result f broadcast st :
  online t (GetGUIDLow player) st ->
  returns (SendFriendStatus player result f broadcast) (fun _ st' => keeps_books t st st') st.
Proof.
  intros [Hc [p Hp]]. destruct (online_inv t _ st p Hc Hp) as [Hid Hok].
  unfold returns, wp. rewrite (SendFriendStatus_sends player p) by done. by apply packets_keep.
Qed.

(** ** Handlers *)

(** Loading makes the player one who is online. *)
Lemma LoadFromDB_keeps t g rows st :
  coherent t st -> m_socialMap st !! g = None -> result_of (rows_of g (table_after t st)) rows ->
  returns (LoadFromDB rows g)
    (fun _ st' => coherent t st' /\ forall j, is_Some (m_socialMap st' !! j) <-> j = g \/ is_Some (m_socialMap st !! j)) st.
Proof.
  intros Hc Hg Hr. apply wp_modify. rewrite Hg. cbn [default m_playerSocialMap].
  destruct st as [m l]. cbn in Hg |- *. split.
  - intros j. destruct (Hc j) as [Hok Hv]. split; [exact Hok|]. intros p. cbn.
    intros [[<- <-]|[_ Hp]]%lookup_insert_Some; [|by apply Hv]. split; [done|].
    change (rows_of g (table_after t (mkSocialState (<[g := mkPlayerSocial (load_rows rows ∅) g]> m) l)))
      with (rows_of g (table_after t (mkSocialState m l))).
    by apply load_rows_result; [apply Hok|].
  - intros j. rewrite lookup_insert_is_Some'. naive_solver.
Qed.

Lemma RemovePlayerSocial_keeps t g st :
  coherent t st ->
  returns (RemovePlayerSocial g)
    (fun _ st' => coherent t st' /\ forall j, is_Some (m_socialMap st' !! j) <-> j <> g /\ is_Some (m_socialMap st !! j)) st.
Proof.
  intros Hc. apply wp_modify. destruct st as [m l]. cbn. split.
  - intros j. destruct (Hc j) as [Hok Hv]. split; [exact Hok|]. cbn. intros p [_ Hp]%lookup_delete_Some. by apply Hv.
  - intros j. rewrite lookup_delete_is_Some. naive_solver.
Qed.

(** What an operation of the session of [player] keeps. *)
Definition serves {A} (player : Player) (m : SM A) : Prop := forall t st,
  online t (GetGUIDLow player) st -> returns m (fun _ st' => keeps_books t st st') st.

Lemma serves_ret {A} player (a : A) : serves player (mret a).
Proof. intros t st [Hc _]. by apply wp_ret, keeps_refl. Qed.

Lemma serves_bind {A B} player (m : SM A) (f : A -> SM B) :
  serves player m -> (forall a, serves player (f a)) -> serves player (m ≫= f).
Proof.
  intros Hm Hf t st Hst. eapply returns_bind; [by apply Hm|]. intros a st' Hk. cbn beta in Hk.
  eapply returns_mono; [apply Hf, (keeps_online _ _ _ _ Hk Hst)|]. cbn beta. intros b st'' Hk'.
  by eapply keeps_trans.
Qed.

Lemma serves_if {A} player (b : bool) (m1 m2 : SM A) :
  serves player m1 -> serves player m2 -> serves player (if b then m1 else m2).
Proof. by destruct b. Qed.

Lemma serves_add player f ignore :
  listed f = true -> serves player (AddToSocialList (GetGUIDLow player) f ignore).
Proof. intros Hlist t st Hst. eapply returns_mono; [by apply AddToSocialList_keeps|]. by intros a st' [? _]. Qed.
Lemma serves_remove player f ignore : serves player (RemoveFromSocialList (GetGUIDLow player) f ignore).
Proof. intros t st Hst. by apply RemoveFromSocialList_keeps with (g := GetGUIDLow player). Qed.
Lemma serves_note player f note :
  Forall octet note -> basic note -> serves player (SetFriendNote (GetGUIDLow player) f note).
Proof.
  intros Hoct Hb t st Hst. eapply returns_mono; [by apply SetFriendNote_keeps|]. by intros a st' [? _].
Qed.
Lemma serves_list player : serves player (SendSocialList (GetGUIDLow player) player).
Proof. intros t st Hst. by apply SendSocialList_keeps with (g := GetGUIDLow player). Qed.
Lemma serves_status player result f broadcast : serves player (SendFriendStatus player result f broadcast).
Proof. intros t st Hst. by apply SendFriendStatus_keeps. Qed.
Lemma serves_has player (P : PlayerSocial -> bool) :
  serves player (p ← GetSocial (GetGUIDLow player); mret (P p)).
Proof.
  intros t st [Hc [p Hp]]. apply wp_bind, (wp_GetSocial _ p); [done|]. by apply wp_ret, keeps_refl.
Qed.
Create HintDb serves discriminated.
#[local] Hint Resolve serves_ret serves_add serves_remove serves_note serves_list serves_status serves_has : serves.
#[local] Hint Extern 2 (serves _ (if _ then _ else _)) => apply serves_if : serves.
#[local] Hint Extern 3 (serves _ (_ ≫= _)) => apply serves_bind; [|intros ?] : serves.

(** The character a query by name finds, if any, is listed: one that is marked
    as deleted has the empty name. *)
Definition found_listed (result : option Z) : Prop :=
  match result with
  | Some guid => listed (GUID_LOPART (MAKE_NEW_GUID guid 0 HIGHGUID_PLAYER)) = true
  | None => True
  end.

Lemma serves_friend_result player result note :
  found_listed (fst ∘ fst <$> result) -> Forall octet note -> basic note -> serves player (HandleAddFriendOpcodeCallBack player result note).
Proof.
  intros Hlist Hoct Hb. unfold HandleAddFriendOpcodeCallBack, friend_result, friend_found. apply serves_bind.
  - destruct result as [[[g race] account]|]; [|by auto with serves]. cbn in Hlist.
    apply serves_if; [|by auto with serves]. apply serves_if; [by auto with serves|].
    apply serves_bind; [|by auto with serves].
    repeat (apply serves_if; [by auto with serves|]). apply serves_bind; [apply serves_has|]. intros [];
      auto with serves.
  - intros [r f]. auto with serves.
Qed.

Lemma serves_ignore_result player result :
  found_listed result -> serves player (HandleAddIgnoreOpcodeCallBack player result).
Proof.
  intros Hlist. unfold HandleAddIgnoreOpcodeCallBack. apply serves_bind; [|by intros [r f]; auto with serves].
  destruct result as [g|]; [|by auto with serves]. repeat (apply serves_if; [by auto with serves|]).
  apply serves_bind; [apply serves_has|]. intros []; auto with serves.
Qed.
End Operations.
