(* ===== verification/SocialSession.v ===== *)
(** * Friends and ignored players: what a server does with the lists

    Any sequence of logins, logouts, packets and results of queries of any players;
    what adding a friend answers and does; what is told to whom. *)

From Stdlib Require Import Ascii String.
From S2P Require Import Prelude Util Utf8 Utf8Props Names NamesProps ByteBuffer Wire WireProps ClientPacket Packet Maps Guid Text Channel Social SocialProps.

(** ** Sessions *)

Inductive social_event :=
| SLogin (player : Player) (rows : list (Z * Z * list Z))
| SLogout (player : Player)
| SContactList (player : Player) (recvData : WorldPacket)
| SAddFriend (player : Player) (recvData : WorldPacket)
| SAddFriendResult (player : Player) (result : option (Z * Z * Z)) (note : list Z)
| SDelFriend (player : Player) (recvData : WorldPacket)
| SAddIgnore (player : Player) (recvData : WorldPacket)
| SAddIgnoreResult (player : Player) (result : option Z)
| SDelIgnore (player : Player) (recvData : WorldPacket)
| SSetContactNotes (player : Player) (recvData : WorldPacket).

Definition social_player (e : social_event) : Player :=
  match e with
  | SLogin player _ | SLogout player | SContactList player _ | SAddFriend player _ | SAddFriendResult player _ _
  | SDelFriend player _ | SAddIgnore player _ | SAddIgnoreResult player _ | SDelIgnore player _
  | SSetContactNotes player _ => player
  end.

(** The state of the rest of the server at one event. *)
Record SocialEnv := mkSocialEnv { social_server : Server; social_world : SocialWorld }.

Section Sessions.
Context `{Host, Characters}.

(** [WorldSession::Update] catches what a handler throws of the packet. *)
Definition run_social (env : SocialEnv) (e : social_event) : SM () :=
  let server := social_server env in
  let world := social_world env in
  match e with
  | SLogin player rows => Login player rows
  | SLogout player => Logout player
  | SAddFriendResult player result note => HandleAddFriendOpcodeCallBack player result note
  | SAddIgnoreResult player result => HandleAddIgnoreOpcodeCallBack player result
  | SContactList player recvData => try_catch (HandleContactListOpcode player recvData) (fun _ => mret ())
  | SAddFriend player recvData => try_catch (HandleAddFriendOpcode recvData;; mret ()) (fun _ => mret ())
  | SDelFriend player recvData => try_catch (HandleDelFriendOpcode player recvData) (fun _ => mret ())
  | SAddIgnore player recvData => try_catch (HandleAddIgnoreOpcode recvData;; mret ()) (fun _ => mret ())
  | SDelIgnore player recvData => try_catch (HandleDelIgnoreOpcode player recvData) (fun _ => mret ())
  | SSetContactNotes player recvData => try_catch (HandleSetContactNotesOpcode player recvData) (fun _ => mret ())
  end.

(** What is read has no character that overruns the buffers for names and notes. *)
Definition reads_basic {A} (m : BB A) (text_of : A -> list Z) (b : ByteBuffer) : Prop :=
  client_buffer b /\ forall a b', m b = Ok a b' -> basic (text_of a).

(** Players log in and out in turn, what login loads is the result of the query
    for the rows of the player, characters found by name are listed, and
    packets are from the client. *)
Definition legal_social (t : social_table) (st : SocialState) (env : SocialEnv) (e : social_event) : Prop :=
  let g := GetGUIDLow (social_player e) in
  zlen (@stack (social_world env)) = MAX_INTERNAL_PLAYER_NAME + 1 /\
  match e with
  | SLogin _ rows => m_socialMap st !! g = None /\ result_of (rows_of g (table_after t st)) rows
  | _ => is_Some (m_socialMap st !! g)
  end /\
  match e with
  | SLogin _ _ | SLogout _ => True
  | SAddIgnoreResult _ result => found_listed result
  | SAddFriendResult _ result note => found_listed (fst ∘ fst <$> result) /\ Forall octet note /\ basic note
  | SContactList _ data | SDelFriend _ data | SDelIgnore _ data => client_buffer (buffer data)
  | SAddFriend _ data => reads_basic read_friend fst (buffer data)
  | SAddIgnore _ data => reads_basic inn_string id (buffer data)
  | SSetContactNotes _ data => reads_basic read_note snd (buffer data)
  end.

Lemma returns_catch m (Q : () -> SocialState -> Prop) st :
  wp (E := ByteBufferException) m Q (fun _ => Q ()) st -> returns (E := ByteBufferException) (try_catch m (fun _ => mret ())) Q st.
Proof. unfold returns, wp, try_catch. by destruct (m st). Qed.

Lemma wp_read {A} (P : A -> Prop) (m : BB A) pkt (Q : A * WorldPacket -> SocialState -> Prop) X st :
  reads P m -> client_buffer (buffer pkt) ->
  (forall a b pkt', m (buffer pkt) = Ok a b -> P a -> Q (a, pkt') st) -> (forall e, X e st) ->
  wp (on_local pkt (lift m)) Q X st.
Proof.
  intros Hm Hb HQ HX. specialize (Hm _ Hb). revert Hm. unfold wp, on_local, lift.
  destruct (m (buffer pkt)) as [a b|e b|] eqn:He; [|intros _; apply HX|done]. intros [_ Ha]. by eapply HQ.
Qed.

Lemma reads_u64 : reads (fun _ => True) (inn TU64).
Proof. apply reads_safe, safe_inn. Qed.
Lemma reads_skip4 : reads (fun _ => True) (read_skip 4).
Proof. apply reads_safe, safe_read_skip. by vm_compute. Qed.
#[local] Hint Resolve reads_u64 reads_skip4 : reads.

Lemma reads_friend : reads texts read_friend.
Proof. unfold read_friend. reading. Qed.
Lemma reads_note : reads (fun r => text r.2) read_note.
Proof. unfold read_note. reading. Qed.

(** The normal form of a name is computed, and the state is left. *)
Lemma wp_normalize stk name (Q : bool * list Z -> SocialState -> Prop) X st :
  text name -> basic name -> zlen stk = MAX_INTERNAL_PLAYER_NAME + 1 -> (forall ok n, Q (ok, n) st) ->
  wp (on_local name (normalizePlayerName (E := ByteBufferException) stk)) Q X st.
Proof.
  intros [Hoct _] Hb Hs HQ.
  destruct (normalize_total (E := ByteBufferException) name stk Hoct Hb Hs) as (ok & n & Hn & _).
  unfold wp, on_local. rewrite Hn. apply HQ.
Qed.

Lemma wp_serves {S A} (m : M S ByteBufferException A) Q X st : returns m Q st -> wp m Q X st.
Proof. intros Hm. by eapply wp_mono; [exact Hm| |]. Qed.

(** A handler whose reads are done serves its player. *)
Lemma serve_event t st player (m : SM ()) :
  coherent t st -> serves player m -> is_Some (m_socialMap st !! GetGUIDLow player) ->
  returns m (fun _ => coherent t) st.
Proof. intros Hc Hm Ho. eapply returns_mono; [apply (Hm t); by split|]. by intros a st' [? _]. Qed.

Lemma login_books t st env player rows :
  coherent t st -> m_socialMap st !! GetGUIDLow player = None ->
  result_of (rows_of (GetGUIDLow player) (table_after t st)) rows ->
  returns (run_social env (SLogin player rows)) (fun _ => coherent t) st.
Proof.
  intros Hc Hnone Hrows. cbn [run_social]. unfold Login.
  eapply returns_bind; [by apply (LoadFromDB_keeps t)|]. cbn beta. intros [] st' [Hc' Hon].
  apply (serve_event t st' player); [done|apply serves_status|]. apply Hon. by left.
Qed.

Lemma logout_books t st env player :
  coherent t st -> is_Some (m_socialMap st !! GetGUIDLow player) ->
  returns (run_social env (SLogout player)) (fun _ => coherent t) st.
Proof.
  intros Hc Hon. cbn [run_social]. unfold Logout.
  eapply returns_bind; [apply (serve_event t st player); [done|apply serves_status|done]|]. cbn beta.
  intros [] st' Hc'. eapply returns_mono; [by apply (RemovePlayerSocial_keeps t)|]. by intros [] st'' [? _].
Qed.

Lemma text_basic_note (n : list Z) : text n -> basic n -> Forall octet n /\ basic n.
Proof. by intros [? _]. Qed.

Ltac caught := apply returns_catch; apply wp_bind.

Lemma event_books t st env e :
  coherent t st -> legal_social t st env e -> returns (run_social env e) (fun _ => coherent t) st.
Proof.
  intros Hc (Hstk & Hon & Hleg). destruct e as [p rows|p|p data|p data|p result note|p data|p data|p result|p data|p data];
    cbn [social_player] in *.
  - destruct Hon. by apply login_books.
  - by apply logout_books.
  - caught. eapply wp_read; [apply reads_skip4|done| |done]. intros a b pkt _ _.
    apply wp_serves, (serve_event t st p); [done|apply serves_list|done].
  - destruct Hleg as [Hb Hbasic]. caught. apply wp_bind. eapply wp_read; [apply reads_friend|done| |done].
    intros a b pkt Hrun [Hn _]. apply wp_bind, wp_normalize; [done|by eapply Hbasic|done|]. by intros [] n.
  - destruct Hleg as (? & ? & ?). by apply (serve_event t st p), Hon; [|apply serves_friend_result].
  - caught. eapply wp_read; [apply reads_u64|done| |done]. intros a b pkt _ _.
    apply wp_serves, (serve_event t st p); [done| |done].
    apply serves_bind; [apply serves_remove|intros ?; apply serves_status].
  - destruct Hleg as [Hb Hbasic]. caught. apply wp_bind. eapply wp_read; [apply reads_inn_string|done| |done].
    intros a b pkt Hrun Hn. apply wp_bind, wp_normalize; [done|by eapply Hbasic|done|]. by intros [] n.
  - by apply (serve_event t st p), Hon; [|apply serves_ignore_result].
  - caught. eapply wp_read; [apply reads_u64|done| |done]. intros a b pkt _ _.
    apply wp_serves, (serve_event t st p); [done| |done].
    apply serves_bind; [apply serves_remove|intros ?; apply serves_status].
  - destruct Hleg as [Hb Hbasic]. caught. eapply wp_read; [apply reads_note|done| |done].
    intros a b pkt Hrun [Hoct _]. apply wp_serves, (serve_event t st p); [done| |done].
    apply serves_note; [done|]. by eapply Hbasic.
Qed.

(** The states a server comes to, from the start with the table [t]. *)
Inductive reachable (t : social_table) : SocialState -> Prop :=
| reachable_start : reachable t (mkSocialState ∅ [])
| reachable_event st env e st' :
    reachable t st -> legal_social t st env e -> run_social env e st = Ok () st' -> reachable t st'.

Lemma reachable_coherent t st : (forall g, rows_ok (shown (rows_of g t))) -> reachable t st -> coherent t st.
Proof.
  intros Ht Hr. induction Hr as [|st env e st' _ IH Hleg Hrun].
  - intros g. split; [split; [exact (Ht g)|done]|]. cbn. intros p. by rewrite lookup_empty.
  - pose proof (event_books t st env e IH Hleg) as Hk. unfold returns, wp in Hk. by rewrite Hrun in Hk.
Qed.

(** C3.  Whatever logins, logouts, packets, well-formed or not, and results of
    queries of any players follow each other, starting from an empty memory and
    a table that keeps the limits: the list of every player who is online says
    what the table would say once the statements that were executed are applied,
    flag for flag and note for note, for the characters the query of the login
    shows - those who exist and are not marked as deleted - and the other rows
    are as they were; nobody ever has more than 50 such friends or 50 such
    ignored players, a row of these without a flag, or a note that is too long;
    and whatever comes next is served, without an exception left and without an
    undefined access.  The conditions ([legal_social]): a player logs in when he
    is out and does the rest when he is in; a login gets the result of its query;
    characters found by name are not deleted ones, and no character is deleted
    or restored in the meantime (deletion edits the table by itself,
    Player.cpp:5098-5252); packets are within the 10240 bytes of the client; the
    names and notes read have no character outside the BMP (one overruns the
    string, Util.cpp:343); the stack array of [normalizePlayerName] has its 16
    elements. *)
Theorem social_session (t : social_table) (st : SocialState) :
  (forall g, rows_ok (shown (rows_of g t))) -> reachable t st ->
  (forall g p, m_socialMap st !! g = Some p -> view p = shown (rows_of g (table_after t st))) /\
  (forall g, rows_ok (shown (rows_of g (table_after t st)))) /\
  (forall g f, listed f = false -> rows_of g (table_after t st) !! f = rows_of g t !! f) /\
  (forall env e, legal_social t st env e -> exists st', run_social env e st = Ok () st').
Proof.
  intros Ht Hr. pose proof (reachable_coherent t st Ht Hr) as Hc. split_and!.
  - intros g p Hp. by apply (Hc g).
  - intros g. apply (Hc g).
  - intros g. apply (Hc g).
  - intros env e Hleg. pose proof (event_books t st env e Hc Hleg) as Hk. apply returns_Ok in Hk as ([] & st' & Hrun & _).
    by exists st'.
Qed.
End Sessions.

(** ** What operations do *)

Section Effects.
Context `{Host, Server, SocialWorld, Characters}.

Definition is_added (code : Z) : bool := (code =? FRIEND_ADDED_ONLINE) || (code =? FRIEND_ADDED_OFFLINE).

(** The rows afterwards: the flag when the friend is added, and the note whenever
    a character was found that the player may know of. *)
Definition friend_rows (answer : Z * Z) (note : list Z) (m : gmap Z (Z * list Z)) : gmap Z (Z * list Z) :=
  let m1 := if is_added answer.1 then with_flag (GUID_LOPART answer.2) SOCIAL_FLAG_FRIEND m else m in
  if answer.1 =? FRIEND_NOT_FOUND then m1 else set_note (GUID_LOPART answer.2) note m1.

Definition has_flag (flag f : Z) (m : gmap Z (Z * list Z)) : bool :=
  match m !! f with Some r => marked flag r | None => false end.

Lemma flagged_marked flag f p : flagged flag f p = has_flag flag f (view p).
Proof. unfold flagged, has_flag. rewrite view_lookup. by destruct (m_playerSocialMap p !! f). Qed.

Lemma HasFriend_run g f p st :
  m_socialMap st !! g = Some p ->
  HasFriend g f st =
  Ok (has_flag SOCIAL_FLAG_FRIEND f (view p)) st.
Proof. intros Hp. unfold HasFriend. erewrite bind_run by by apply GetSocial_run. by rewrite flagged_marked. Qed.

(** The rest of the answer once the character is one the player may know of. *)
Definition found_code (player : Player) (m : gmap Z (Z * list Z)) (f team : Z) : Z :=
  if f =? GetGUID player then FRIEND_SELF
  else if IsPlayerAccount (GetSecurity player) && negb CONFIG_ALLOW_TWO_SIDE_ADD_FRIEND && negb (GetTeam player =? team)
  then FRIEND_ENEMY
  else if has_flag SOCIAL_FLAG_FRIEND (GUID_LOPART f) m then FRIEND_ALREADY
  else if SOCIALMGR_FRIEND_LIMIT <=? count_marked SOCIAL_FLAG_FRIEND m then FRIEND_LIST_FULL
  else if match FindPlayer f with Some q => IsInWorld q && IsVisibleGloballyFor q player | None => false end
  then FRIEND_ADDED_ONLINE
  else FRIEND_ADDED_OFFLINE.

(** What adding a friend answers: the result, and the GUID it speaks of. *)
Definition friend_answer (player : Player) (m : gmap Z (Z * list Z)) (result : option (Z * Z * Z)) : Z * Z :=
  match result with
  | None => (FRIEND_NOT_FOUND, 0)
  | Some (guid, race, account) =>
      let f := MAKE_NEW_GUID guid 0 HIGHGUID_PLAYER in
      (if (IsPlayerAccount (GetSecurity player) && negb CONFIG_ALLOW_GM_FRIEND &&
           negb (IsPlayerAccount (AccountMgr_GetSecurity account))) || (f =? 0)
       then FRIEND_NOT_FOUND else found_code player m f (TeamForRace race), f)
  end.

Lemma friend_found_run t player f team st p :
  coherent t st -> m_socialMap st !! GetGUIDLow player = Some p -> listed (GUID_LOPART f) = true ->
  returns (friend_found player f team)
    (fun code st' => code = found_code player (view p) f team /\ keeps_books t st st' /\
       own (GetGUIDLow player)
         (if is_added code then with_flag (GUID_LOPART f) SOCIAL_FLAG_FRIEND (view p) else view p) st st') st.
Proof.
  intros Hc Hp Hlist. unfold friend_found, found_code.
  assert (Hstay : forall code, is_added code = false -> keeps_books t st st /\
    own (GetGUIDLow player) (if is_added code then with_flag (GUID_LOPART f) SOCIAL_FLAG_FRIEND (view p) else view p) st st).
  { intros code ->. split; [by apply keeps_refl|by apply own_refl]. }
  destruct (f =? GetGUID player); [by apply wp_ret; auto|].
  replace (negb (GetTeam player =? team) && negb CONFIG_ALLOW_TWO_SIDE_ADD_FRIEND && IsPlayerAccount (GetSecurity player))
    with (IsPlayerAccount (GetSecurity player) && negb CONFIG_ALLOW_TWO_SIDE_ADD_FRIEND && negb (GetTeam player =? team))
    by (rewrite (andb_comm (negb (GetTeam player =? team))), (andb_comm (_ && _) (IsPlayerAccount _)), andb_assoc; done).
  destruct (IsPlayerAccount (GetSecurity player) && _ && _); [by apply wp_ret; auto|].
  apply wp_bind. unfold wp at 1. rewrite (HasFriend_run _ _ p) by done. destruct (has_flag _ _ _); [by apply wp_ret; auto|].
  eapply returns_bind; [apply (AddToSocialList_keeps t); [by split|done]|]. cbn beta iota.
  intros added st' (Hk & q & Hq & -> & Hown). assert (p = q) as <- by congruence. apply wp_ret.
  change (limit SOCIAL_FLAG_FRIEND) with SOCIALMGR_FRIEND_LIMIT in *. rewrite Z.leb_antisym.
  destruct (_ <? _); cbn [negb]; [|done].
  destruct (FindPlayer f) as [fr|]; [|done]. by destruct (_ && _).
Qed.

Lemma friend_result_run t player result note st p :
  coherent t st -> m_socialMap st !! GetGUIDLow player = Some p ->
  found_listed (fst ∘ fst <$> result) -> Forall octet note -> basic note ->
  let answer := friend_answer player (view p) result in
  returns (friend_result player result note)
    (fun r st' => r = answer /\ keeps_books t st st' /\
                  own (GetGUIDLow player) (friend_rows answer note (view p)) st st') st.
Proof.
  intros Hc Hp Hlist Hoct Hb answer.
  assert (Hstay : forall f, answer = (FRIEND_NOT_FOUND, f) -> returns (mret (FRIEND_NOT_FOUND, f) : SM (Z * Z))
    (fun r st' => r = answer /\ keeps_books t st st' /\
                  own (GetGUIDLow player) (friend_rows answer note (view p)) st st') st).
  { intros f Ha. apply wp_ret. rewrite Ha. split; [done|]. split; [by apply keeps_refl|by apply own_refl]. }
  destruct result as [[[guid race] account]|]; [|by apply Hstay].
  unfold friend_result. cbn [friend_answer] in answer. set (f := MAKE_NEW_GUID guid 0 HIGHGUID_PLAYER) in *.
  rewrite <- (negb_involutive (_ || _ || _)), !negb_orb, negb_involutive. unfold answer in *.
  destruct (IsPlayerAccount (GetSecurity player) && _ && _); cbn [negb orb] in *; [by apply Hstay|].
  destruct (f =? 0); [by apply Hstay|]. clear Hstay.
  eapply returns_bind; [by apply (friend_found_run t)|]. cbn beta. intros code st1 (-> & Hk & Hown).
  destruct (own_list _ _ _ _ Hown) as (p1 & Hp1 & Hv1).
  eapply returns_bind; [apply (SetFriendNote_keeps t); [by split; [apply Hk|eexists]|done..]|]. cbn beta.
  intros [] st2 [Hk2 Hown2]. apply wp_ret. split; [done|]. split; [by eapply keeps_trans|].
  eapply own_trans; [exact Hown|]. specialize (Hown2 p1 Hp1). rewrite Hv1 in Hown2.
  unfold friend_rows. cbn [fst snd]. replace (found_code _ _ _ _ =? FRIEND_NOT_FOUND) with false; [exact Hown2|].
  unfold found_code. repeat case_match; done.
Qed.

(** C26.  The answer to a request to add a friend, once the character has been looked
    up: not found, when there is none or it is one of the staff whom players may
    not add; the player himself; of the other side; a friend already; the list is
    full; or added, and then whether online.  Only the row of that character
    changes: it becomes a friend when it is added, and when it has a row its note
    becomes the first 48 characters of what was sent, whatever the answer but not
    found - the row of one of the staff whom the player may not add is left alone
    (MiscHandler.cpp:603-632).  One packet with the answer is sent, to the player,
    and memory and table still agree.  The player is online, memory and table
    agree, the character found is not a deleted one, and the note, which is of
    bytes, has no character outside the BMP. *)
Theorem add_friend_answers (t : social_table) (player : Player) (result : option (Z * Z * Z)) (note : list Z)
    (st : SocialState) (p : PlayerSocial) :
  coherent t st -> m_socialMap st !! GetGUIDLow player = Some p ->
  found_listed (fst ∘ fst <$> result) -> Forall octet note -> basic note ->
  let answer := friend_answer player (view p) result in
  returns (HandleAddFriendOpcodeCallBack player result note)
    (fun _ st' => coherent t st' /\ exists p' l,
       m_socialMap st' = <[GetGUIDLow player := p']> (m_socialMap st) /\
       view p' = friend_rows answer note (view p) /\
       done st' = done st ++ l ++
         [SendPacket (GetGUID player) (friend_status player p' answer.1 (GUID_LOPART answer.2))]) st.
Proof.
  intros Hc Hp Hlist Hoct Hb answer. unfold HandleAddFriendOpcodeCallBack.
  eapply returns_bind; [by apply (friend_result_run t)|]. cbn beta. intros r st1 (-> & Hk & Hown). fold answer in Hown |- *.
  destruct (own_list _ _ _ _ Hown) as (p' & Hp' & Hv). destruct (online_inv t _ st1 p' (proj1 Hk) Hp') as [_ Hok].
  destruct Hown as [(q & Hm & Hvq) [l Hl]].
  assert (q = p') as -> by (rewrite Hm, lookup_insert_eq in Hp'; congruence).
  destruct answer as [code f]. unfold returns, wp. rewrite (SendFriendStatus_sends player p') by done.
  split; [apply packets_keep, Hk|]. exists p', l. split; [done|]. split; [done|]. cbn. by rewrite Hl, <- app_assoc.
Qed.

(** The list of contacts that is sent: how many there are, and then every row
    of the player by ascending GUID, with its flags and note and, for a friend, the
    status and, unless offline, where and what the friend is - offline when it is
    not found or must not be seen by the player.  Sending changes neither the rows
    nor the table. *)
Theorem contact_list_sent (t : social_table) (player : Player) (st : SocialState) (p : PlayerSocial) :
  coherent t st -> m_socialMap st !! GetGUIDLow player = Some p ->
  returns (SendSocialList (GetGUIDLow player) player)
    (fun _ st' => coherent t st' /\
       done st' = done st ++ [SendPacket (GetGUID player) (contact_list player (shown (rows_of (GetGUIDLow player) (table_after t st))))] /\
       table_after t st' = table_after t st) st.
Proof.
  intros Hc Hp. destruct (online_inv t _ st p Hc Hp) as [Hid Hok].
  destruct (proj2 (Hc _) p Hp) as [_ Hv].
  pose proof (SendSocialList_keeps t _ player st (conj Hc (ex_intro _ p Hp)) eq_refl) as Hk.
  pose proof (SendSocialList_run _ player p st eq_refl Hp Hok) as Hr.
  apply returns_Ok in Hr as ([] & st' & Hrun & st1 & Hst1 & ->). unfold returns, wp in *. rewrite Hrun in *.
  split; [apply Hk|]. split; [by rewrite <- Hv|]. unfold table_after. cbn. by rewrite fold_left_app.
Qed.

Lemma elem_of_told player m g :
  g ∈ told player true m <->
  exists k f q, m !! k = Some f /\ flagged SOCIAL_FLAG_FRIEND (GetGUIDLow player) f = true /\
    FindPlayer (MAKE_NEW_GUID k 0 HIGHGUID_PLAYER) = Some q /\ IsInWorld q = true /\ sees q player = true /\ GetGUID q = g.
Proof.
  cbn [told]. rewrite list_elem_of_fmap. setoid_rewrite list_elem_of_omap. setoid_rewrite elem_of_keys.
  unfold lister. split.
  - intros (q & -> & k & [f Hf] & Hq). rewrite Hf in Hq. cbn in Hq.
    destruct (flagged _ _ f) eqn:Hfl; [|done]. destruct (FindPlayer _) as [q'|] eqn:Hfind; [|done]. cbn in Hq.
    destruct (IsInWorld q') eqn:Hw; [|done]. destruct (sees q' player) eqn:Hs; [|done]. injection Hq as <-. eauto 10.
  - intros (k & f & q & Hf & Hfl & Hq & Hw & Hs & <-). exists q. split; [done|]. exists k.
    split; [by eexists|]. rewrite Hf. cbn. rewrite Hfl, Hq. cbn. by rewrite Hw, Hs.
Qed.

(** C27.  Logging in, when memory and table agree and the player is not in yet: the
    list is the rows the query gives - the rows of the table whose character
    exists and is not marked as deleted - and it is told that the
    player is online to those - and to no others - who are found in the world, have
    the player among their friends and may see that the player is there; nothing
    else is executed. *)
Theorem login_announces (t : social_table) (player : Player) (rows : list (Z * Z * list Z)) (st : SocialState) :
  coherent t st -> m_socialMap st !! GetGUIDLow player = None ->
  result_of (rows_of (GetGUIDLow player) (table_after t st)) rows ->
  returns (Login player rows)
    (fun _ st' => coherent t st' /\ exists p guids,
       m_socialMap st' = <[GetGUIDLow player := p]> (m_socialMap st) /\
       view p = shown (rows_of (GetGUIDLow player) (table_after t st)) /\
       done st' = done st ++ map (fun g => SendPacket g (friend_status player p FRIEND_ONLINE (GetGUIDLow player))) guids /\
       forall g, g ∈ guids <->
         exists k f q, m_socialMap st' !! k = Some f /\ flagged SOCIAL_FLAG_FRIEND (GetGUIDLow player) f = true /\
           FindPlayer (MAKE_NEW_GUID k 0 HIGHGUID_PLAYER) = Some q /\ IsInWorld q = true /\
           sees q player = true /\ GetGUID q = g) st.
Proof.
  intros Hc Hnone Hrows. pose proof (LoadFromDB_keeps t _ rows st Hc Hnone Hrows) as Hl. revert Hl.
  unfold Login, returns, wp, mbind, M_bind.
  assert (Hload : LoadFromDB rows (GetGUIDLow player) st = Ok ()
    (mkSocialState (<[GetGUIDLow player := mkPlayerSocial (load_rows rows ∅) (GetGUIDLow player)]> (m_socialMap st)) (done st))).
  { unfold LoadFromDB, modify. rewrite Hnone. by destruct st. }
  rewrite Hload. intros [Hc' _]. set (p := mkPlayerSocial _ _) in *.
  set (st1 := mkSocialState _ _) in *.
  assert (Hp : m_socialMap st1 !! GetGUIDLow player = Some p) by apply lookup_insert_eq.
  destruct (online_inv t _ st1 p Hc' Hp) as [_ Hok]. rewrite (SendFriendStatus_sends player p) by done.
  split; [by apply packets_keep|]. exists p, (told player true (m_socialMap st1)).
  split; [done|]. split; [|split; [done|apply elem_of_told]].
  by destruct (proj2 (Hc' _) p Hp) as [_ ->].
Qed.
End Effects.

(** ** Witnesses

    Alice and Bob are in the world; Carol is not. *)

#[local] Instance sample_host : Host := {| TRINITY_BIGENDIAN := false |}.

Definition sample_player (guid : Z) (name : string) : Player :=
  mkPlayer guid (chars name) 0 469 false (fun _ => false) true true 0 true.
Definition alice : Player := sample_player 1 "Alice".
Definition bob : Player := sample_player 2 "Bob".

#[local] Instance sample_server : Server := {|
  GetPlayers := [alice; bob];
  CONFIG_PRESERVE_CUSTOM_CHANNELS := false;
  CONFIG_PRESERVE_CUSTOM_CHANNEL_DURATION := 14;
  CONFIG_RESTRICTED_LFG_CHANNEL := true;
  CONFIG_SILENTLY_GM_JOIN_TO_CHANNEL := false;
  CONFIG_ALLOW_TWO_SIDE_INTERACTION_CHANNEL := false;
  CONFIG_GM_LEVEL_IN_WHO_LIST := 0;
  ChatChannelsEntry_flags := fun id => None;
  GetPlayerNameByGUID := fun g => None;
  CHAR_SEL_CHANNEL := fun name team => None
|}.

#[local] Instance sample_world : SocialWorld := {|
  CONFIG_ALLOW_TWO_SIDE_WHO_LIST := false;
  CONFIG_ALLOW_GM_FRIEND := false;
  CONFIG_ALLOW_TWO_SIDE_ADD_FRIEND := false;
  isAFK := fun _ => false;
  isDND := fun g => g =? 2;
  GetZoneId := fun _ => 12;
  getLevel := fun _ => 85;
  getClass := fun _ => 4;
  AccountMgr_GetSecurity := fun _ => 0;
  ChrRaces_TeamID := fun race => if race =? 1 then Some 7 else Some 1;
  stack := replicate 16 0
|}.

(** The character 4 is marked as deleted. *)
#[local] Instance sample_characters : Characters := {| listed := fun guid => negb (guid =? 4) |}.

(** The table: a friend of Bob who was deleted. *)
Definition sample_table : social_table := {[ 2 := {[ 4 := (SOCIAL_FLAG_FRIEND, []) ]} ]}.

Definition sample_env : SocialEnv := mkSocialEnv sample_server sample_world.

(** The state after some events. *)
Definition social_next (st : SocialState) (e : social_event) : SocialState :=
  match run_social sample_env e st with Ok _ st' => st' | _ => st end.
Definition social_after (l : list social_event) : SocialState := fold_left social_next l (mkSocialState ∅ []).

(** A packet to take the note of a friend. *)
Definition note_packet (f : Z) (note : list Z) : WorldPacket :=
  match (out TU64 f;; out_string note) ByteBuffer_new with Ok _ b => mkWorldPacket 0 b | _ => WorldPacket_default end.

(** Alice adds Bob, who is in the world but whose list is not loaded, and ignores
    Carol; *)
Definition sample_early : list social_event :=
  [SLogin alice [];
   SAddFriendResult alice (Some (2, 1, 7)) (chars "met in Elwynn");
   SAddIgnoreResult alice (Some 3)].

(** Bob logs in, and Alice takes another note and asks for her list. *)
Definition sample_late : list social_event :=
  [SLogin bob [];
   SSetContactNotes alice (note_packet 2 (chars "rogue"));
   SContactList alice (packet_of 0 (le_bytes 4 1))].

Definition early_state : SocialState := social_after sample_early.
Definition sample_state : SocialState := fold_left social_next sample_late early_state.

Lemma sample_shown g : shown (rows_of g sample_table) = ∅.
Proof.
  unfold rows_of, sample_table. destruct (decide (g = 2)) as [->|].
  - rewrite lookup_singleton_eq. by vm_compute.
  - rewrite lookup_singleton_ne by done. by vm_compute.
Qed.

Lemma sample_rows_ok g : rows_ok (shown (rows_of g sample_table)).
Proof. rewrite sample_shown. split; [|done..]. intros f r. by rewrite lookup_empty. Qed.

Lemma reachable_next st e : legal_social sample_table st sample_env e -> reachable sample_table st -> reachable sample_table (social_next st e).
Proof.
  intros Hleg Hr. eapply reachable_event; [exact Hr|exact Hleg|]. unfold social_next.
  pose proof (event_books sample_table st sample_env e (reachable_coherent _ _ sample_rows_ok Hr) Hleg) as Hk.
  apply returns_Ok in Hk as ([] & st' & -> & _). reflexivity.
Qed.

Lemma legal_note st f n :
  is_Some (m_socialMap st !! 1) -> client_buffer (buffer (note_packet f n)) ->
  match read_note (buffer (note_packet f n)) with Ok r _ => r.2 | _ => [] end = n ->
  forallb (fun c => (0 <=? c) && (c <? 128)) n = true ->
  legal_social sample_table st sample_env (SSetContactNotes alice (note_packet f n)).
Proof.
  intros Hon Hb Hr Hn. split; [done|]. split; [exact Hon|]. split; [exact Hb|].
  intros r b Hrun. rewrite Hrun in Hr. rewrite Hr. by apply ascii_basic.
Qed.

Lemma octets_client pkt :
  forallb (fun c => (0 <=? c) && (c <? 256)) (_storage (buffer pkt)) = true ->
  _rpos (buffer pkt) = 0 -> _bitpos (buffer pkt) = 8 -> size (buffer pkt) <= 10240 -> client_buffer (buffer pkt).
Proof.
  intros Ho Hr Hbit Hs. pose proof (size_nonneg (buffer pkt)). split; [|split; [|done]].
  - unfold rd_wf. rewrite Hr, Hbit. lia.
  - rewrite Forall_forall. rewrite forallb_forall in Ho. intros c Hc%list_elem_of_In%Ho. zprop. unfold octet. lia.
Qed.

Lemma is_Some_computed {A} (o : option A) : match o with Some _ => true | None => false end = true -> is_Some o.
Proof. destruct o; [by eexists|done]. Qed.
Ltac computed := apply is_Some_computed; vm_compute; reflexivity.

Lemma empty_result m : map_to_list (shown m) = [] -> result_of m [].
Proof. intros Hm. exists []. by rewrite Hm. Qed.

Lemma early_reachable : reachable sample_table early_state.
Proof.
  unfold early_state, social_after, sample_early. cbn [fold_left]. repeat apply reachable_next; [| | |constructor].
  - split; [done|]. split; [computed|]. vm_compute. reflexivity.
  - split; [done|]. split; [computed|]. split; [vm_compute; reflexivity|]. apply ascii_basic. vm_compute. reflexivity.
  - split; [done|]. split; [|exact I]. split; [vm_compute; reflexivity|apply empty_result; vm_compute; reflexivity].
Qed.

Lemma sample_reachable : reachable sample_table sample_state.
Proof.
  unfold sample_state, sample_late. cbn [fold_left].
  apply reachable_next; [|apply reachable_next; [|apply reachable_next; [|apply early_reachable]]].
  - split; [done|]. split; [computed|]. by apply octets_client; vm_compute.
  - apply legal_note; [computed|apply octets_client; by vm_compute|by vm_compute..].
  - split; [done|]. split; [|exact I]. split; [vm_compute; reflexivity|apply empty_result; vm_compute; reflexivity].
Qed.

Lemma early_coherent : coherent sample_table early_state.
Proof. apply reachable_coherent; [apply sample_rows_ok|apply early_reachable]. Qed.
Lemma sample_coherent : coherent sample_table sample_state.
Proof. apply reachable_coherent; [apply sample_rows_ok|apply sample_reachable]. Qed.

(** The list of Alice in a state. *)
Definition list_of_alice (st : SocialState) : PlayerSocial := default (mkPlayerSocial ∅ 0) (m_socialMap st !! 1).

Lemma social_session_witness :
  ((forall g p, m_socialMap sample_state !! g = Some p -> view p = shown (rows_of g (table_after sample_table sample_state))) /\
   (forall g, rows_ok (shown (rows_of g (table_after sample_table sample_state)))) /\
   (forall g f, listed f = false ->
      rows_of g (table_after sample_table sample_state) !! f = rows_of g sample_table !! f) /\
   (forall env e, legal_social sample_table sample_state env e -> exists st', run_social env e sample_state = Ok () st')) /\
  view (list_of_alice sample_state) !! 2 = Some (SOCIAL_FLAG_FRIEND, chars "rogue").
Proof.
  split; [|vm_compute; reflexivity].
  apply (social_session sample_table sample_state); [apply sample_rows_ok|apply sample_reachable].
Defined.

Lemma add_friend_answers_witness :
  let answer := friend_answer alice (view (list_of_alice sample_state)) (Some (3, 1, 9)) in
  answer = (FRIEND_ADDED_OFFLINE, 3) /\
  returns (HandleAddFriendOpcodeCallBack alice (Some (3, 1, 9)) (chars "Carol"))
    (fun _ st' => coherent sample_table st' /\ exists p' l,
       m_socialMap st' = <[1 := p']> (m_socialMap sample_state) /\
       view p' = friend_rows answer (chars "Carol") (view (list_of_alice sample_state)) /\
       done st' = done sample_state ++ l ++
         [SendPacket 1 (friend_status alice p' answer.1 (GUID_LOPART answer.2))]) sample_state.
Proof.
  split; [vm_compute; reflexivity|].
  apply (add_friend_answers sample_table alice (Some (3, 1, 9)) (chars "Carol") sample_state (list_of_alice sample_state));
    [apply sample_coherent|vm_compute; reflexivity|vm_compute; reflexivity|
     apply ascii_basic; vm_compute; reflexivity..].
Defined.

Lemma contact_list_sent_witness :
  returns (SendSocialList 1 alice)
    (fun _ st' => coherent sample_table st' /\
       done st' = done sample_state ++ [SendPacket 1 (contact_list alice (shown (rows_of 1 (table_after sample_table sample_state))))] /\
       table_after sample_table st' = table_after sample_table sample_state) sample_state.
Proof.
  apply (contact_list_sent sample_table alice sample_state (list_of_alice sample_state));
    [apply sample_coherent|vm_compute; reflexivity].
Defined.

Lemma login_announces_witness :
  returns (Login bob [])
    (fun _ st' => coherent sample_table st' /\ exists p guids,
       m_socialMap st' = <[2 := p]> (m_socialMap early_state) /\
       view p = shown (rows_of 2 (table_after sample_table early_state)) /\
       done st' = done early_state ++ map (fun g => SendPacket g (friend_status bob p FRIEND_ONLINE 2)) guids /\
       forall g, g ∈ guids <->
         exists k f q, m_socialMap st' !! k = Some f /\ flagged SOCIAL_FLAG_FRIEND 2 f = true /\
           FindPlayer (MAKE_NEW_GUID k 0 HIGHGUID_PLAYER) = Some q /\ IsInWorld q = true /\
           sees q bob = true /\ GetGUID q = g) early_state /\
  told bob true (m_socialMap (social_next early_state (SLogin bob []))) = [1].
Proof.
  split; [|vm_compute; reflexivity].
  apply (login_announces sample_table bob [] early_state);
    [apply early_coherent|vm_compute; reflexivity|apply empty_result; vm_compute; reflexivity].
Defined.

(** ** Consequences

    The answer that a friend was added who is not online has no note, though the
    note is in the list: it is looked up after the friend was not found. *)
Example added_offline_note_lost :
  let st := social_next sample_state (SAddFriendResult alice (Some (3, 1, 9)) (chars "Carol")) in
  view (list_of_alice st) !! 3 = Some (3, chars "Carol") /\
  last (done st) = Some (SendPacket 1 (packet_of SMSG_FRIEND_STATUS
    (scalar_fmt TU8 FRIEND_ADDED_OFFLINE ++ scalar_fmt TU64 3 ++ string_fmt []))).
Proof. by vm_compute. Qed.

(** Adding a friend again, or one of the other side who is ignored, is refused, and
    the note is replaced all the same. *)
Example refused_note_taken :
  let st := social_next sample_state (SAddFriendResult alice (Some (2, 1, 7)) []) in
  let st' := social_next sample_state (SAddFriendResult alice (Some (3, 2, 9)) (chars "enemy")) in
  friend_answer alice (view (list_of_alice sample_state)) (Some (2, 1, 7)) = (FRIEND_ALREADY, 2) /\
  view (list_of_alice st) !! 2 = Some (SOCIAL_FLAG_FRIEND, []) /\
  friend_answer alice (view (list_of_alice sample_state)) (Some (3, 2, 9)) = (FRIEND_ENEMY, 3) /\
  view (list_of_alice st') !! 3 = Some (SOCIAL_FLAG_IGNORED, chars "enemy").
Proof. by vm_compute. Qed.
