(* ===== verification/Movement.v ===== *)
(** * Movement packets

    [src/src/server/game/Movement/MovementInfo.h], [MovementInfo.cpp] and the
    [PacketSender] of [MovementStructures.cpp]: the movement state of a unit,
    the interpreters that write and read it along the sequence of elements of
    an opcode, the routines written by hand for five opcodes, and the check of
    the flags a client sends.  A [float] is kept as the 32 bits that are
    sent. *)

From Stdlib Require Import SpecFloat.
From S2P Require Import Prelude Float32 ByteBuffer Wire Packet MovementTables.

(** ** [ObjectGuid] and the fuzzy comparison of G3D *)

(** [operator[]]: the bytes from the lowest one, whatever the host. *)
Definition ObjectGuid_at (guid : Z) (index : Z) : Z :=
  Z.land (Z.shiftr guid (8 * index)) 255.

(** [abs(a) + 1] times [fuzzyEpsilon], the [float] 0.00001. *)
Definition fuzzyEpsilon : spec_float := f64_of_f32 (S754_finite false 10995116 (-40)).

Definition eps (a b : spec_float) : spec_float :=
  let aa := f64_add (SFabs a) (f64_of_f32 (f32_of_Z 1)) in
  if SFeqb aa (S754_infinity false) then fuzzyEpsilon else f64_mul fuzzyEpsilon aa.

Definition fuzzyEq (a b : spec_float) : bool :=
  SFeqb a b || SFleb (SFabs (f64_sub a b)) (eps a b).

(** [G3D::fuzzyEq(x, 0.0f)] and the truth value of a [float]. *)
Definition fuzzy_zero (x : Z) : bool :=
  fuzzyEq (f64_of_f32 (f32_of_bits x)) (f64_of_f32 f32_zero).
Definition float_true (x : Z) : bool := negb (f32_eqb (f32_of_bits x) f32_zero).

(** ** [Position] *)

Record Position := mkPosition {
  m_positionX : Z;
  m_positionY : Z;
  m_positionZ : Z;
  m_orientation : Z
}.

#[export] Instance Position_settable : Settable Position :=
  fun p => mkPosition (m_positionX p) (m_positionY p) (m_positionZ p) (m_orientation p).

(** [2.0f * static_cast<float>(M_PI)]. *)
Definition two_pi : f32 := f32_mul (f32_of_Z 2) (f32_of_bits 0x40490FDB).

Definition NormalizeOrientation (o : Z) : Z :=
  let x := f32_of_bits o in
  if f32_ltb x f32_zero
  then f32_bits (f32_add (f32_opp (f32_fmod (f32_mul x (f32_of_Z (-1))) two_pi)) two_pi)
  else f32_bits (f32_fmod x two_pi).

Definition SetOrientation (orientation : Z) (p : Position) : Position :=
  p <| m_orientation := NormalizeOrientation orientation |>.

Definition Relocate (x y z orientation : Z) (p : Position) : Position :=
  SetOrientation orientation (p <| m_positionX := x |> <| m_positionY := y |> <| m_positionZ := z |>).

(** ** [MovementInfo] *)

Record MovementInfo := mkMovementInfo {
  guid : Z;
  flags : Z;
  flags2 : Z;
  pos : Position;
  time : Z;
  t_guid : Z;
  t_pos : Position;
  t_seat : Z;
  t_time : Z;
  t_time2 : Z;
  t_time3 : Z;
  pitch : Z;
  fallTime : Z;
  j_zspeed : Z;
  j_cosAngle : Z;
  j_sinAngle : Z;
  j_xyspeed : Z;
  hasSpline : bool;
  splineElevation : Z;
  ackCount : Z;
  ackSpeed : Z;
  height : Z
}.

#[export] Instance MovementInfo_settable : Settable MovementInfo :=
  fun m => mkMovementInfo (guid m) (flags m) (flags2 m) (pos m) (time m) (t_guid m) (t_pos m)
    (t_seat m) (t_time m) (t_time2 m) (t_time3 m) (pitch m) (fallTime m) (j_zspeed m)
    (j_cosAngle m) (j_sinAngle m) (j_xyspeed m) (hasSpline m) (splineElevation m) (ackCount m)
    (ackSpeed m) (height m).

(** [MovementInfo()]. *)
Definition MovementInfo_new : MovementInfo :=
  let origin := Relocate 0 0 0 0 (mkPosition 0 0 0 0) in
  {| guid := 0; flags := 0; flags2 := 0; pos := origin; time := 0; t_guid := 0; t_pos := origin;
     t_seat := -1; t_time := 0; t_time2 := 0; t_time3 := 0; pitch := 0; fallTime := 0;
     j_zspeed := 0; j_cosAngle := 0; j_sinAngle := 0; j_xyspeed := 0; hasSpline := false;
     splineElevation := 0; ackCount := 0; ackSpeed := 0; height := 0 |}.

Definition HasMovementFlag (flag : Z) (mi : MovementInfo) : bool := has_flag (flags mi) flag.
Definition AddMovementFlag (flag : Z) (mi : MovementInfo) : MovementInfo :=
  mi <| flags ::= fun f => Z.lor f flag |>.
Definition RemoveMovementFlag (flag : Z) (mi : MovementInfo) : MovementInfo :=
  mi <| flags ::= fun f => Z.land f (Z.lnot flag) |>.

(** ** Writing along a sequence *)

(** The local booleans of the writers. *)
Definition w_hasOrientation (mi : MovementInfo) : bool := negb (fuzzy_zero (m_orientation (pos mi))).
Definition w_hasSplineElevation (mi : MovementInfo) : bool := negb (fuzzy_zero (splineElevation mi)).
Definition w_hasFallData (mi : MovementInfo) : bool :=
  negb (fallTime mi =? 0) || float_true (j_zspeed mi).
Definition w_hasFallDirection (mi : MovementInfo) : bool :=
  w_hasFallData mi &&
  (float_true (j_cosAngle mi) || float_true (j_sinAngle mi) || float_true (j_xyspeed mi)).
Definition w_hasPitch (mi : MovementInfo) : bool := negb (fuzzy_zero (pitch mi)).

(** [element >= first && element <= last]. *)
Definition in_range (first element last : MovementStatusElements) : bool :=
  (enum_value first <=? enum_value element) && (enum_value element <=? enum_value last).

(** [WriteBit] for its effect; the argument is converted to [uint32]. *)
Definition put_bit (bit : Z) : BB unit := WriteBit (u32 bit);; mret tt.
Definition put_bool (bit : bool) : BB unit := put_bit (Z.b2z bit).

Section Writing.
Context `{Host}.

(** One iteration of the loop of [Write_OLD]. *)
Definition Write_element (mi : MovementInfo) (element : MovementStatusElements) : BB unit :=
  let id := guid mi in
  let tid := t_guid mi in
  let t := negb (t_guid mi =? 0) in
  if in_range MSEHasGuidByte0 element MSEHasGuidByte7 then
    put_bit (ObjectGuid_at id (enum_value element - enum_value MSEHasGuidByte0))
  else if in_range MSEHasTransportGuidByte0 element MSEHasTransportGuidByte7 then
    when t (put_bit (ObjectGuid_at tid (enum_value element - enum_value MSEHasTransportGuidByte0)))
  else if in_range MSEGuidByte0 element MSEGuidByte7 then
    WriteByteSeq (ObjectGuid_at id (enum_value element - enum_value MSEGuidByte0))
  else if in_range MSETransportGuidByte0 element MSETransportGuidByte7 then
    when t (WriteByteSeq (ObjectGuid_at tid (enum_value element - enum_value MSETransportGuidByte0)))
  else if in_range MSESpeedWalk element MSESpeedPitchRate then
    out TFloat (ackSpeed mi)
  else
  match element with
  | MSEHasMovementFlags => put_bool (flags mi =? 0)
  | MSEHasMovementFlags2 => put_bool (flags2 mi =? 0)
  | MSEHasTimestamp => put_bool (time mi =? 0)
  | MSEHasOrientation => put_bool (negb (w_hasOrientation mi))
  | MSEHasTransportData => put_bit (t_guid mi)
  | MSEHasTransportTime2 => when t (put_bit (t_time2 mi))
  | MSEHasTransportTime3 => when t (put_bit (t_time3 mi))
  | MSEHasPitch => put_bool (negb (w_hasPitch mi))
  | MSEHasFallData => put_bool (w_hasFallData mi)
  | MSEHasFallDirection => when (w_hasFallData mi) (put_bool (w_hasFallDirection mi))
  | MSEHasSplineElevation => put_bool (negb (w_hasSplineElevation mi))
  | MSEHasSpline => put_bool (hasSpline mi)
  | MSEMovementFlags => when (negb (flags mi =? 0)) (WriteBits 32 (flags mi) 30)
  | MSEMovementFlags2 => when (negb (flags2 mi =? 0)) (WriteBits 32 (flags2 mi) 12)
  | MSETimestamp => when (negb (time mi =? 0)) (out TU32 (time mi))
  | MSEPositionX => out TFloat (m_positionX (pos mi))
  | MSEPositionY => out TFloat (m_positionY (pos mi))
  | MSEPositionZ => out TFloat (m_positionZ (pos mi))
  | MSEOrientation => when (w_hasOrientation mi) (out TFloat (m_orientation (pos mi)))
  | MSETransportPositionX => when t (out TFloat (m_positionX (t_pos mi)))
  | MSETransportPositionY => when t (out TFloat (m_positionY (t_pos mi)))
  | MSETransportPositionZ => when t (out TFloat (m_positionZ (t_pos mi)))
  | MSETransportOrientation => when t (out TFloat (m_orientation (t_pos mi)))
  | MSETransportSeat => when t (out TI8 (t_seat mi))
  | MSETransportTime => when t (out TU32 (t_time mi))
  | MSETransportTime2 => when (t && negb (t_time2 mi =? 0)) (out TU32 (t_time2 mi))
  | MSETransportTime3 => when (t && negb (t_time3 mi =? 0)) (out TU32 (t_time3 mi))
  | MSEPitch => when (w_hasPitch mi) (out TFloat (pitch mi))
  | MSEFallTime => when (w_hasFallData mi) (out TU32 (fallTime mi))
  | MSEFallVerticalSpeed => when (w_hasFallData mi) (out TFloat (j_zspeed mi))
  | MSEFallCosAngle => when (w_hasFallData mi && w_hasFallDirection mi) (out TFloat (j_cosAngle mi))
  | MSEFallSinAngle => when (w_hasFallData mi && w_hasFallDirection mi) (out TFloat (j_sinAngle mi))
  | MSEFallHorizontalSpeed =>
      when (w_hasFallData mi && w_hasFallDirection mi) (out TFloat (j_xyspeed mi))
  | MSESplineElevation => when (w_hasSplineElevation mi) (out TFloat (splineElevation mi))
  | MSECounter => out TU32 (ackCount mi)
  | MSEHeight => out TFloat (height mi)
  | MSEZeroBit => put_bit 0
  | MSEOneBit => put_bit 1
  | _ => abort AssertFailed
  end.

(** [for (uint32 i = 0; i < MSE_COUNT; ++i)]: the elements up to the first
    [MSEEnd]; reading past the end of the array is undefined. *)
Fixpoint Write_loop (mi : MovementInfo) (n : nat) (sequence : list MovementStatusElements) : BB unit :=
  match n with
  | O => mret tt
  | S n' =>
      match sequence with
      | [] => abort UndefinedBehaviour
      | element :: sequence' =>
          if decide (element = MSEEnd) then mret tt
          else Write_element mi element;; Write_loop mi n' sequence'
      end
  end.

Definition MSE_iterations : nat := Z.to_nat (enum_value MSE_COUNT).

(** [Write_OLD]; without a sequence only the error is logged. *)
Definition Write_OLD (mi : MovementInfo) : PK unit :=
  opcode ← GetOpcode;
  match GetMovementStatusElementsSequence opcode with
  | None => mret tt
  | Some sequence => lift (Write_loop mi MSE_iterations sequence)
  end.
End Writing.

(** ** Writers of single opcodes *)

Section Writers.
Context `{Host}.
Context (mi : MovementInfo).

Definition Write_SMSG_PLAYER_MOVE : BB unit :=
  put_bool (w_hasFallData mi);;
  put_bit (ObjectGuid_at (guid mi) 3);;
  put_bit (ObjectGuid_at (guid mi) 6);;
  put_bool (flags2 mi =? 0);;
  put_bool (hasSpline mi);;
  put_bool (time mi =? 0);;
  put_bit (ObjectGuid_at (guid mi) 0);;
  put_bit (ObjectGuid_at (guid mi) 1);;
  when (negb (flags2 mi =? 0)) (WriteBits 32 (flags2 mi) 12);;
  put_bit (ObjectGuid_at (guid mi) 7);;
  put_bool (flags mi =? 0);;
  put_bool (negb (w_hasOrientation mi));;
  put_bit (ObjectGuid_at (guid mi) 2);;
  put_bool (negb (w_hasSplineElevation mi));;
  put_bit 0;;
  put_bit (ObjectGuid_at (guid mi) 4);;
  when (w_hasFallData mi) (put_bool (w_hasFallDirection mi));;
  put_bit (ObjectGuid_at (guid mi) 5);;
  put_bit (t_guid mi);;
  when (negb (flags mi =? 0)) (WriteBits 32 (flags mi) 30);;
  when (negb (t_guid mi =? 0))
    (put_bit (ObjectGuid_at (t_guid mi) 3);;
     put_bit (t_time3 mi);;
     put_bit (ObjectGuid_at (t_guid mi) 6);;
     put_bit (ObjectGuid_at (t_guid mi) 1);;
     put_bit (ObjectGuid_at (t_guid mi) 7);;
     put_bit (ObjectGuid_at (t_guid mi) 0);;
     put_bit (ObjectGuid_at (t_guid mi) 4);;
     put_bit (t_time2 mi);;
     put_bit (ObjectGuid_at (t_guid mi) 5);;
     put_bit (ObjectGuid_at (t_guid mi) 2));;
  put_bool (negb (w_hasPitch mi));;
  WriteByteSeq (ObjectGuid_at (guid mi) 5);;
  when (w_hasFallData mi)
    (when (w_hasFallDirection mi)
       (out TFloat (j_xyspeed mi);;
        out TFloat (j_cosAngle mi);;
        out TFloat (j_sinAngle mi));;
     out TFloat (j_zspeed mi);;
     out TU32 (fallTime mi));;
  when (w_hasSplineElevation mi) (out TFloat (splineElevation mi));;
  WriteByteSeq (ObjectGuid_at (guid mi) 7);;
  out TFloat (m_positionY (pos mi));;
  WriteByteSeq (ObjectGuid_at (guid mi) 3);;
  when (negb (t_guid mi =? 0))
    (when (negb (t_time3 mi =? 0)) (out TU32 (t_time3 mi));;
     WriteByteSeq (ObjectGuid_at (t_guid mi) 6);;
     out TI8 (t_seat mi);;
     WriteByteSeq (ObjectGuid_at (t_guid mi) 5);;
     out TFloat (m_positionX (t_pos mi));;
     WriteByteSeq (ObjectGuid_at (t_guid mi) 1);;
     out TFloat (m_orientation (t_pos mi));;
     WriteByteSeq (ObjectGuid_at (t_guid mi) 2);;
     when (negb (t_time2 mi =? 0)) (out TU32 (t_time2 mi));;
     WriteByteSeq (ObjectGuid_at (t_guid mi) 0);;
     out TFloat (m_positionZ (t_pos mi));;
     WriteByteSeq (ObjectGuid_at (t_guid mi) 7);;
     WriteByteSeq (ObjectGuid_at (t_guid mi) 4);;
     WriteByteSeq (ObjectGuid_at (t_guid mi) 3);;
     out TFloat (m_positionY (t_pos mi));;
     out TU32 (t_time mi));;
  WriteByteSeq (ObjectGuid_at (guid mi) 4);;
  out TFloat (m_positionX (pos mi));;
  WriteByteSeq (ObjectGuid_at (guid mi) 6);;
  out TFloat (m_positionZ (pos mi));;
  when (negb (time mi =? 0)) (out TU32 (time mi));;
  WriteByteSeq (ObjectGuid_at (guid mi) 2);;
  when (w_hasPitch mi) (out TFloat (pitch mi));;
  WriteByteSeq (ObjectGuid_at (guid mi) 0);;
  when (w_hasOrientation mi) (out TFloat (m_orientation (pos mi)));;
  WriteByteSeq (ObjectGuid_at (guid mi) 1).

Definition Write_SMSG_MOVE_TELEPORT : BB unit :=
  put_bit (ObjectGuid_at (guid mi) 6);;
  put_bit (ObjectGuid_at (guid mi) 0);;
  put_bit (ObjectGuid_at (guid mi) 3);;
  put_bit (ObjectGuid_at (guid mi) 2);;
  put_bit 0;;
  put_bit (t_guid mi);;
  put_bit (ObjectGuid_at (guid mi) 1);;
  when (negb (t_guid mi =? 0))
    (put_bit (ObjectGuid_at (t_guid mi) 1);;
     put_bit (ObjectGuid_at (t_guid mi) 3);;
     put_bit (ObjectGuid_at (t_guid mi) 2);;
     put_bit (ObjectGuid_at (t_guid mi) 5);;
     put_bit (ObjectGuid_at (t_guid mi) 0);;
     put_bit (ObjectGuid_at (t_guid mi) 7);;
     put_bit (ObjectGuid_at (t_guid mi) 6);;
     put_bit (ObjectGuid_at (t_guid mi) 4));;
  put_bit (ObjectGuid_at (guid mi) 4);;
  put_bit (ObjectGuid_at (guid mi) 7);;
  put_bit (ObjectGuid_at (guid mi) 5);;
  FlushBits;;
  when (negb (t_guid mi =? 0))
    (WriteByteSeq (ObjectGuid_at (t_guid mi) 6);;
     WriteByteSeq (ObjectGuid_at (t_guid mi) 5);;
     WriteByteSeq (ObjectGuid_at (t_guid mi) 1);;
     WriteByteSeq (ObjectGuid_at (t_guid mi) 7);;
     WriteByteSeq (ObjectGuid_at (t_guid mi) 0);;
     WriteByteSeq (ObjectGuid_at (t_guid mi) 2);;
     WriteByteSeq (ObjectGuid_at (t_guid mi) 4);;
     WriteByteSeq (ObjectGuid_at (t_guid mi) 3));;
  out TU32 (ackCount mi);;
  WriteByteSeq (ObjectGuid_at (guid mi) 1);;
  WriteByteSeq (ObjectGuid_at (guid mi) 2);;
  WriteByteSeq (ObjectGuid_at (guid mi) 3);;
  WriteByteSeq (ObjectGuid_at (guid mi) 5);;
  out TFloat (m_positionX (pos mi));;
  WriteByteSeq (ObjectGuid_at (guid mi) 4);;
  out TFloat (m_orientation (pos mi));;
  WriteByteSeq (ObjectGuid_at (guid mi) 7);;
  out TFloat (m_positionZ (pos mi));;
  WriteByteSeq (ObjectGuid_at (guid mi) 0);;
  WriteByteSeq (ObjectGuid_at (guid mi) 6);;
  out TFloat (m_positionY (pos mi)).

Definition Write_SMSG_MOVE_UPDATE_KNOCK_BACK : BB unit :=
  put_bit 0;;
  put_bit (ObjectGuid_at (guid mi) 4);;
  put_bool (flags mi =? 0);;
  put_bool (negb (w_hasPitch mi));;
  put_bool (time mi =? 0);;
  put_bit (ObjectGuid_at (guid mi) 1);;
  put_bit (ObjectGuid_at (guid mi) 0);;
  put_bit (ObjectGuid_at (guid mi) 3);;
  put_bit (ObjectGuid_at (guid mi) 2);;
  put_bit (ObjectGuid_at (guid mi) 7);;
  put_bool (hasSpline mi);;
  put_bit (t_guid mi);;
  when (negb (t_guid mi =? 0))
    (put_bit (ObjectGuid_at (t_guid mi) 7);;
     put_bit (ObjectGuid_at (t_guid mi) 5);;
     put_bit (ObjectGuid_at (t_guid mi) 1);;
     put_bit (ObjectGuid_at (t_guid mi) 6);;
     put_bit (t_time2 mi);;
     put_bit (ObjectGuid_at (t_guid mi) 2);;
     put_bit (ObjectGuid_at (t_guid mi) 4);;
     put_bit (ObjectGuid_at (t_guid mi) 0);;
     put_bit (t_time3 mi);;
     put_bit (ObjectGuid_at (t_guid mi) 3));;
  put_bit (ObjectGuid_at (guid mi) 5);;
  put_bool (negb (w_hasSplineElevation mi));;
  put_bool (flags2 mi =? 0);;
  put_bit (ObjectGuid_at (guid mi) 6);;
  when (negb (flags mi =? 0)) (WriteBits 32 (flags mi) 30);;
  put_bool (w_hasFallData mi);;
  when (w_hasFallData mi) (put_bool (w_hasFallDirection mi));;
  put_bool (negb (w_hasOrientation mi));;
  when (negb (flags2 mi =? 0)) (WriteBits 32 (flags2 mi) 12);;
  when (w_hasOrientation mi) (out TFloat (m_orientation (pos mi)));;
  when (w_hasFallData mi)
    (when (w_hasFallDirection mi)
       (out TFloat (j_cosAngle mi);;
        out TFloat (j_xyspeed mi);;
        out TFloat (j_sinAngle mi));;
     out TU32 (fallTime mi);;
     out TFloat (j_zspeed mi));;
  when (w_hasSplineElevation mi) (out TFloat (splineElevation mi));;
  WriteByteSeq (ObjectGuid_at (guid mi) 3);;
  when (negb (t_guid mi =? 0))
    (WriteByteSeq (ObjectGuid_at (t_guid mi) 5);;
     when (negb (t_time3 mi =? 0)) (out TU32 (t_time3 mi));;
     WriteByteSeq (ObjectGuid_at (t_guid mi) 7);;
     out TI8 (t_seat mi);;
     WriteByteSeq (ObjectGuid_at (t_guid mi) 3);;
     WriteByteSeq (ObjectGuid_at (t_guid mi) 6);;
     out TFloat (m_positionZ (t_pos mi));;
     WriteByteSeq (ObjectGuid_at (t_guid mi) 1);;
     out TFloat (m_positionY (t_pos mi));;
     out TFloat (m_positionX (t_pos mi));;
     WriteByteSeq (ObjectGuid_at (t_guid mi) 2);;
     WriteByteSeq (ObjectGuid_at (t_guid mi) 0);;
     out TFloat (m_orientation (t_pos mi));;
     WriteByteSeq (ObjectGuid_at (t_guid mi) 4);;
     when (negb (t_time2 mi =? 0)) (out TU32 (t_time2 mi)));;
  when (w_hasPitch mi) (out TFloat (pitch mi));;
  out TFloat (m_positionZ (pos mi));;
  when (negb (time mi =? 0)) (out TU32 (time mi));;
  out TFloat (m_positionX (pos mi));;
  WriteByteSeq (ObjectGuid_at (guid mi) 4);;
  WriteByteSeq (ObjectGuid_at (guid mi) 6);;
  WriteByteSeq (ObjectGuid_at (guid mi) 7);;
  WriteByteSeq (ObjectGuid_at (guid mi) 2);;
  WriteByteSeq (ObjectGuid_at (guid mi) 1);;
  out TFloat (m_positionY (pos mi));;
  WriteByteSeq (ObjectGuid_at (guid mi) 0);;
  WriteByteSeq (ObjectGuid_at (guid mi) 5).

(** [WriteToPacket]. *)
Definition WriteToPacket : PK unit :=
  opcode ← GetOpcode;
  if opcode =? SMSG_PLAYER_MOVE then lift Write_SMSG_PLAYER_MOVE
  else if opcode =? SMSG_MOVE_UPDATE_KNOCK_BACK then lift Write_SMSG_MOVE_UPDATE_KNOCK_BACK
  else if opcode =? SMSG_MOVE_TELEPORT then lift Write_SMSG_MOVE_TELEPORT
  else Write_OLD mi.
End Writers.

(** ** Reading

    The readers run on the packet, the object that is filled, and their local
    variables: the presence booleans and the bytes of the two GUIDs.  A boolean
    that the hand-written readers leave uninitialised is only tested where they
    have set it; it starts at [false] here. *)

Record Reader := mkReader {
  r_data : ByteBuffer;
  r_info : MovementInfo;
  r_id : list Z;
  r_tid : list Z;
  hasMovementFlags : bool;
  hasMovementFlags2 : bool;
  hasTimestamp : bool;
  hasOrientation : bool;
  hasTransportData : bool;
  hasTransportTime2 : bool;
  hasTransportTime3 : bool;
  hasPitch : bool;
  hasFallData : bool;
  hasFallDirection : bool;
  hasSplineElevation : bool
}.

#[export] Instance Reader_settable : Settable Reader :=
  fun r => mkReader (r_data r) (r_info r) (r_id r) (r_tid r) (hasMovementFlags r)
    (hasMovementFlags2 r) (hasTimestamp r) (hasOrientation r) (hasTransportData r)
    (hasTransportTime2 r) (hasTransportTime3 r) (hasPitch r) (hasFallData r) (hasFallDirection r)
    (hasSplineElevation r).

Abbreviation RM := (M Reader ByteBufferException).

Definition Reader_new (data : ByteBuffer) (mi : MovementInfo) : Reader :=
  {| r_data := data; r_info := mi; r_id := replicate 8 0; r_tid := replicate 8 0;
     hasMovementFlags := false; hasMovementFlags2 := false; hasTimestamp := false;
     hasOrientation := false; hasTransportData := false; hasTransportTime2 := false;
     hasTransportTime3 := false; hasPitch := false; hasFallData := false;
     hasFallDirection := false; hasSplineElevation := false |}.

(** An operation on the packet. *)
Definition in_data {A} (m : BB A) : RM A := fun r =>
  match m (r_data r) with
  | Ok a b => Ok a (r <| r_data := b |>)
  | Throw e b => Throw e (r <| r_data := b |>)
  | Abort x => Abort x
  end.

(** [if (flag) m]. *)
Definition guarded (flag : Reader -> bool) (m : RM unit) : RM unit :=
  r ← getS; when (flag r) m.

Section Statements.
Context `{Host}.

(** [x = data.ReadBit()] and [x = !data.ReadBit()]. *)
Definition get_bit (set : bool -> Reader -> Reader) : RM unit :=
  b ← in_data ReadBit; modify (set b).

(** [data >> x]. *)
Definition get (t : scalar) (set : Z -> MovementInfo -> MovementInfo) : RM unit :=
  v ← in_data (inn t); modify (fun r => r <| r_info ::= set v |>).

(** [x = data.read<float>()] and [x = data.ReadBits(n)]. *)
Definition get_float (set : Z -> MovementInfo -> MovementInfo) : RM unit :=
  v ← in_data (read_T 4); modify (fun r => r <| r_info ::= set v |>).
Definition get_bits (n : Z) (set : Z -> MovementInfo -> MovementInfo) : RM unit :=
  v ← in_data (ReadBits n); modify (fun r => r <| r_info ::= set v |>).

(** [id[i] = data.ReadBit()] and [data.ReadByteSeq(id[i])], and for [tid]. *)
Definition id_bit (i : Z) : RM unit :=
  get_bit (fun b r => r <| r_id ::= <[Z.to_nat i := Z.b2z b]> |>).
Definition tid_bit (i : Z) : RM unit :=
  get_bit (fun b r => r <| r_tid ::= <[Z.to_nat i := Z.b2z b]> |>).
Definition id_byte (i : Z) : RM unit :=
  r ← getS;
  x ← in_data (ReadByteSeq (nth (Z.to_nat i) (r_id r) 0));
  modify (fun r => r <| r_id ::= <[Z.to_nat i := x]> |>).
Definition tid_byte (i : Z) : RM unit :=
  r ← getS;
  x ← in_data (ReadByteSeq (nth (Z.to_nat i) (r_tid r) 0));
  modify (fun r => r <| r_tid ::= <[Z.to_nat i := x]> |>).

(** [guid = id; t_guid = tid;]. *)
Definition store_guids : RM unit :=
  modify (fun r => r <| r_info ::= fun mi =>
    mi <| guid := le_value (r_id r) |> <| t_guid := le_value (r_tid r) |> |>).

Definition set_x (v : Z) (mi : MovementInfo) : MovementInfo :=
  mi <| pos ::= fun p => p <| m_positionX := v |> |>.
Definition set_y (v : Z) (mi : MovementInfo) : MovementInfo :=
  mi <| pos ::= fun p => p <| m_positionY := v |> |>.
Definition set_z (v : Z) (mi : MovementInfo) : MovementInfo :=
  mi <| pos ::= fun p => p <| m_positionZ := v |> |>.
Definition set_t_x (v : Z) (mi : MovementInfo) : MovementInfo :=
  mi <| t_pos ::= fun p => p <| m_positionX := v |> |>.
Definition set_t_y (v : Z) (mi : MovementInfo) : MovementInfo :=
  mi <| t_pos ::= fun p => p <| m_positionY := v |> |>.
Definition set_t_z (v : Z) (mi : MovementInfo) : MovementInfo :=
  mi <| t_pos ::= fun p => p <| m_positionZ := v |> |>.
Definition set_o (v : Z) (mi : MovementInfo) : MovementInfo :=
  mi <| pos ::= fun p => p <| m_orientation := v |> |>.
Definition set_t_o (v : Z) (mi : MovementInfo) : MovementInfo :=
  mi <| t_pos ::= fun p => p <| m_orientation := v |> |>.

(** One iteration of the loop of [Read_OLD]. *)
Definition Read_element (element : MovementStatusElements) : RM unit :=
  if in_range MSEHasGuidByte0 element MSEHasGuidByte7 then
    id_bit (enum_value element - enum_value MSEHasGuidByte0)
  else if in_range MSEHasTransportGuidByte0 element MSEHasTransportGuidByte7 then
    guarded hasTransportData (tid_bit (enum_value element - enum_value MSEHasTransportGuidByte0))
  else if in_range MSEGuidByte0 element MSEGuidByte7 then
    id_byte (enum_value element - enum_value MSEGuidByte0)
  else if in_range MSETransportGuidByte0 element MSETransportGuidByte7 then
    guarded hasTransportData (tid_byte (enum_value element - enum_value MSETransportGuidByte0))
  else if in_range MSESpeedWalk element MSESpeedPitchRate then
    get TFloat (fun v mi => mi <| ackSpeed := v |>)
  else
  match element with
  | MSEHasMovementFlags => get_bit (fun b r => r <| hasMovementFlags := negb b |>)
  | MSEHasMovementFlags2 => get_bit (fun b r => r <| hasMovementFlags2 := negb b |>)
  | MSEHasTimestamp => get_bit (fun b r => r <| hasTimestamp := negb b |>)
  | MSEHasOrientation => get_bit (fun b r => r <| hasOrientation := negb b |>)
  | MSEHasTransportData => get_bit (fun b r => r <| hasTransportData := b |>)
  | MSEHasTransportTime2 =>
      guarded hasTransportData (get_bit (fun b r => r <| hasTransportTime2 := b |>))
  | MSEHasTransportTime3 =>
      guarded hasTransportData (get_bit (fun b r => r <| hasTransportTime3 := b |>))
  | MSEHasPitch => get_bit (fun b r => r <| hasPitch := negb b |>)
  | MSEHasFallData => get_bit (fun b r => r <| hasFallData := b |>)
  | MSEHasFallDirection => guarded hasFallData (get_bit (fun b r => r <| hasFallDirection := b |>))
  | MSEHasSplineElevation => get_bit (fun b r => r <| hasSplineElevation := negb b |>)
  | MSEHasSpline => get_bit (fun b r => r <| r_info ::= fun mi => mi <| hasSpline := b |> |>)
  | MSEMovementFlags => guarded hasMovementFlags (get_bits 30 (fun v mi => mi <| flags := v |>))
  | MSEMovementFlags2 =>
      guarded hasMovementFlags2 (get_bits 12 (fun v mi => mi <| flags2 := u16 v |>))
  | MSETimestamp => guarded hasTimestamp (get TU32 (fun v mi => mi <| time := v |>))
  | MSEPositionX => get TFloat set_x
  | MSEPositionY => get TFloat set_y
  | MSEPositionZ => get TFloat set_z
  | MSEOrientation =>
      guarded hasOrientation (get_float (fun v mi => mi <| pos ::= SetOrientation v |>))
  | MSETransportPositionX => guarded hasTransportData (get TFloat set_t_x)
  | MSETransportPositionY => guarded hasTransportData (get TFloat set_t_y)
  | MSETransportPositionZ => guarded hasTransportData (get TFloat set_t_z)
  | MSETransportOrientation =>
      guarded hasTransportData (get_float (fun v mi => mi <| t_pos ::= SetOrientation v |>))
  | MSETransportSeat => guarded hasTransportData (get TI8 (fun v mi => mi <| t_seat := v |>))
  | MSETransportTime => guarded hasTransportData (get TU32 (fun v mi => mi <| t_time := v |>))
  | MSETransportTime2 =>
      guarded (fun r => hasTransportData r && hasTransportTime2 r)
        (get TU32 (fun v mi => mi <| t_time2 := v |>))
  | MSETransportTime3 =>
      guarded (fun r => hasTransportData r && hasTransportTime3 r)
        (get TU32 (fun v mi => mi <| t_time3 := v |>))
  | MSEPitch => guarded hasPitch (get TFloat (fun v mi => mi <| pitch := v |>))
  | MSEFallTime => guarded hasFallData (get TU32 (fun v mi => mi <| fallTime := v |>))
  | MSEFallVerticalSpeed => guarded hasFallData (get TFloat (fun v mi => mi <| j_zspeed := v |>))
  | MSEFallCosAngle =>
      guarded (fun r => hasFallData r && hasFallDirection r)
        (get TFloat (fun v mi => mi <| j_cosAngle := v |>))
  | MSEFallSinAngle =>
      guarded (fun r => hasFallData r && hasFallDirection r)
        (get TFloat (fun v mi => mi <| j_sinAngle := v |>))
  | MSEFallHorizontalSpeed =>
      guarded (fun r => hasFallData r && hasFallDirection r)
        (get TFloat (fun v mi => mi <| j_xyspeed := v |>))
  | MSESplineElevation =>
      guarded hasSplineElevation (get TFloat (fun v mi => mi <| splineElevation := v |>))
  | MSECounter => get TU32 (fun v mi => mi <| ackCount := v |>)
  | MSEHeight => get TFloat (fun v mi => mi <| height := v |>)
  | MSEZeroBit | MSEOneBit => get_bit (fun _ r => r)
  | _ => abort AssertFailed
  end.

Fixpoint Read_loop (n : nat) (sequence : list MovementStatusElements) : RM unit :=
  match n with
  | O => mret tt
  | S n' =>
      match sequence with
      | [] => abort UndefinedBehaviour
      | element :: sequence' =>
          if decide (element = MSEEnd) then mret tt
          else Read_element element;; Read_loop n' sequence'
      end
  end.
End Statements.

(** ** Readers of single opcodes

    [hasExtraMovementFlags] is [hasMovementFlags2] here. *)

Section Readers.
Context `{Host}.

Definition Read_CMSG_MOVE_NOT_ACTIVE_MOVER : RM unit :=
  get TFloat set_z;;
  get TFloat set_x;;
  get TFloat set_y;;
  get_bit (fun b r => r <| hasMovementFlags2 := negb b |>);;
  get_bit (fun b r => r <| hasTransportData := b |>);;
  id_bit 6;;
  get_bit (fun b r => r <| hasSplineElevation := negb b |>);;
  id_bit 3;;
  get_bit (fun _ r => r);;
  get_bit (fun b r => r <| hasTimestamp := negb b |>);;
  id_bit 0;;
  get_bit (fun b r => r <| hasOrientation := negb b |>);;
  id_bit 5;;
  get_bit (fun b r => r <| hasPitch := negb b |>);;
  id_bit 1;;
  id_bit 4;;
  id_bit 7;;
  get_bit (fun b r => r <| r_info ::= fun mi => mi <| hasSpline := b |> |>);;
  id_bit 2;;
  get_bit (fun b r => r <| hasFallData := b |>);;
  get_bit (fun b r => r <| hasMovementFlags := negb b |>);;
  guarded hasTransportData
    (tid_bit 4;;
     tid_bit 0;;
     tid_bit 1;;
     tid_bit 6;;
     tid_bit 2;;
     get_bit (fun b r => r <| hasTransportTime3 := b |>);;
     tid_bit 5;;
     tid_bit 7;;
     get_bit (fun b r => r <| hasTransportTime2 := b |>);;
     tid_bit 3);;
  guarded hasFallData (get_bit (fun b r => r <| hasFallDirection := b |>));;
  guarded hasMovementFlags (get_bits 30 (fun v mi => mi <| flags := v |>));;
  guarded hasMovementFlags2 (get_bits 12 (fun v mi => mi <| flags2 := u16 v |>));;
  id_byte 1;;
  id_byte 0;;
  id_byte 4;;
  id_byte 2;;
  id_byte 7;;
  id_byte 5;;
  id_byte 6;;
  id_byte 3;;
  guarded hasFallData
    (get TFloat (fun v mi => mi <| j_zspeed := v |>);;
     guarded hasFallDirection
       (get TFloat (fun v mi => mi <| j_cosAngle := v |>);;
        get TFloat (fun v mi => mi <| j_sinAngle := v |>);;
        get TFloat (fun v mi => mi <| j_xyspeed := v |>));;
     get TU32 (fun v mi => mi <| fallTime := v |>));;
  guarded hasTransportData
    (guarded hasTransportTime3 (get TU32 (fun v mi => mi <| t_time3 := v |>));;
     tid_byte 1;;
     guarded hasTransportTime2 (get TU32 (fun v mi => mi <| t_time2 := v |>));;
     get TFloat set_t_o;;
     tid_byte 0;;
     get TI8 (fun v mi => mi <| t_seat := v |>);;
     tid_byte 4;;
     tid_byte 6;;
     tid_byte 3;;
     tid_byte 5;;
     get TFloat set_t_y;;
     get TFloat set_t_x;;
     tid_byte 2;;
     get TFloat set_t_z;;
     tid_byte 7;;
     get TU32 (fun v mi => mi <| t_time := v |>));;
  guarded hasTimestamp (get TU32 (fun v mi => mi <| time := v |>));;
  guarded hasSplineElevation (get TFloat (fun v mi => mi <| splineElevation := v |>));;
  guarded hasPitch (get TFloat (fun v mi => mi <| pitch := v |>));;
  guarded hasOrientation (get TFloat set_o);;
  store_guids.

Definition Read_CMSG_MOVE_KNOCK_BACK_ACK : RM unit :=
  get TFloat set_y;;
  get TFloat set_z;;
  in_data (read_skip 4);;
  get TFloat set_x;;
  id_bit 6;;
  get_bit (fun b r => r <| hasOrientation := negb b |>);;
  get_bit (fun b r => r <| hasPitch := negb b |>);;
  get_bit (fun b r => r <| hasSplineElevation := negb b |>);;
  id_bit 3;;
  id_bit 4;;
  id_bit 1;;
  id_bit 2;;
  get_bit (fun b r => r <| r_info ::= fun mi => mi <| hasSpline := b |> |>);;
  id_bit 7;;
  get_bit (fun _ r => r);;
  get_bit (fun b r => r <| hasMovementFlags2 := negb b |>);;
  get_bit (fun b r => r <| hasTimestamp := negb b |>);;
  id_bit 0;;
  get_bit (fun b r => r <| hasMovementFlags := negb b |>);;
  get_bit (fun b r => r <| hasTransportData := b |>);;
  id_bit 5;;
  get_bit (fun b r => r <| hasFallData := b |>);;
  guarded hasMovementFlags (get_bits 30 (fun v mi => mi <| flags := v |>));;
  guarded hasTransportData
    (tid_bit 4;;
     tid_bit 1;;
     get_bit (fun b r => r <| hasTransportTime2 := b |>);;
     tid_bit 0;;
     get_bit (fun b r => r <| hasTransportTime3 := b |>);;
     tid_bit 6;;
     tid_bit 2;;
     tid_bit 3;;
     tid_bit 5;;
     tid_bit 7);;
  guarded hasMovementFlags2 (get_bits 12 (fun v mi => mi <| flags2 := u16 v |>));;
  guarded hasFallData (get_bit (fun b r => r <| hasFallDirection := b |>));;
  id_byte 4;;
  id_byte 5;;
  id_byte 1;;
  id_byte 6;;
  id_byte 0;;
  id_byte 3;;
  id_byte 2;;
  id_byte 7;;
  guarded hasFallData
    (guarded hasFallDirection
       (get TFloat (fun v mi => mi <| j_cosAngle := v |>);;
        get TFloat (fun v mi => mi <| j_xyspeed := v |>);;
        get TFloat (fun v mi => mi <| j_sinAngle := v |>));;
     get TU32 (fun v mi => mi <| fallTime := v |>);;
     get TFloat (fun v mi => mi <| j_zspeed := v |>));;
  guarded hasTimestamp (get TU32 (fun v mi => mi <| time := v |>));;
  guarded hasTransportData
    (get TFloat set_t_y;;
     tid_byte 4;;
     guarded hasTransportTime2 (get TU32 (fun v mi => mi <| t_time2 := v |>));;
     tid_byte 7;;
     get TFloat set_t_o;;
     tid_byte 6;;
     get TU32 (fun v mi => mi <| t_time := v |>);;
     tid_byte 3;;
     tid_byte 1;;
     guarded hasTransportTime3 (get TU32 (fun v mi => mi <| t_time3 := v |>));;
     tid_byte 2;;
     get TFloat set_t_z;;
     tid_byte 0;;
     tid_byte 5;;
     get TFloat set_t_x;;
     get TI8 (fun v mi => mi <| t_seat := v |>));;
  guarded hasPitch (get TFloat (fun v mi => mi <| pitch := v |>));;
  guarded hasSplineElevation (get TFloat (fun v mi => mi <| splineElevation := v |>));;
  guarded hasOrientation (get TFloat set_o);;
  store_guids.

(** [Read_OLD] once the sequence is known. *)
Definition Read_sequence (sequence : list MovementStatusElements) : RM unit :=
  Read_loop MSE_iterations sequence;;
  store_guids.

(** A reader on the packet and the object; an exception leaves both as far as
    they were read. *)
Definition run_reader (m : RM unit) : M (WorldPacket * MovementInfo) ByteBufferException unit :=
  fun '(data, mi) =>
  match m (Reader_new (buffer data) mi) with
  | Ok _ r => Ok tt (data <| buffer := r_data r |>, r_info r)
  | Throw e r => Throw e (data <| buffer := r_data r |>, r_info r)
  | Abort x => Abort x
  end.

Definition Read_OLD : M (WorldPacket * MovementInfo) ByteBufferException unit :=
  s ← getS;
  match GetMovementStatusElementsSequence (m_opcode s.1) with
  | None => mret tt
  | Some sequence => run_reader (Read_sequence sequence)
  end.

Definition ReadFromPacket : M (WorldPacket * MovementInfo) ByteBufferException unit :=
  s ← getS;
  if m_opcode s.1 =? CMSG_MOVE_KNOCK_BACK_ACK then run_reader Read_CMSG_MOVE_KNOCK_BACK_ACK
  else if m_opcode s.1 =? CMSG_MOVE_NOT_ACTIVE_MOVER then run_reader Read_CMSG_MOVE_NOT_ACTIVE_MOVER
  else Read_OLD.
End Readers.

(** ** The flags a client may send *)

Definition MOVEMENTFLAG_FORWARD : Z := 0x00000001.
Definition MOVEMENTFLAG_BACKWARD : Z := 0x00000002.
Definition MOVEMENTFLAG_STRAFE_LEFT : Z := 0x00000004.
Definition MOVEMENTFLAG_STRAFE_RIGHT : Z := 0x00000008.
Definition MOVEMENTFLAG_LEFT : Z := 0x00000010.
Definition MOVEMENTFLAG_RIGHT : Z := 0x00000020.
Definition MOVEMENTFLAG_PITCH_UP : Z := 0x00000040.
Definition MOVEMENTFLAG_PITCH_DOWN : Z := 0x00000080.
Definition MOVEMENTFLAG_ROOT : Z := 0x00000400.
Definition MOVEMENTFLAG_ASCENDING : Z := 0x00200000.
Definition MOVEMENTFLAG_DESCENDING : Z := 0x00400000.
Definition MOVEMENTFLAG_CAN_FLY : Z := 0x00800000.
Definition MOVEMENTFLAG_FLYING : Z := 0x01000000.
Definition MOVEMENTFLAG_WATERWALKING : Z := 0x04000000.
Definition MOVEMENTFLAG_FALLING_SLOW : Z := 0x08000000.
Definition MOVEMENTFLAG_HOVER : Z := 0x10000000.

Definition SEC_PLAYER : Z := 0.

Definition SPELL_AURA_WATER_WALK : Z := 104.
Definition SPELL_AURA_FEATHER_FALL : Z := 105.
Definition SPELL_AURA_HOVER : Z := 106.
Definition SPELL_AURA_FLY : Z := 201.
Definition SPELL_AURA_MOD_INCREASE_FLIGHT_SPEED : Z := 208.
Definition SPELL_AURA_MOD_INCREASE_MOUNTED_FLIGHT_SPEED : Z := 207.

(** What the checks and the sender see of a unit: whether it is a player, the
    security of the player's session, its auras, and whether the server
    controls it. *)
Record UnitView := mkUnitView {
  is_player : bool;
  GetSecurity : Z;
  HasAuraType : Z -> bool;
  controlled_by_server : bool
}.

(** [REMOVE_VIOLATING_FLAGS]. *)
Definition remove_violating (check : MovementInfo -> bool) (maskToRemove : Z) (mi : MovementInfo)
    : MovementInfo :=
  if check mi then RemoveMovementFlag maskToRemove mi else mi.

(** Both flags of a pair of opposite directions. *)
Definition both (f g : Z) (mi : MovementInfo) : bool := HasMovementFlag f mi && HasMovementFlag g mi.

(** The violations [Sanitize] looks for, in order, with the flags each clears. *)
Definition violations (target : UnitView) : list ((MovementInfo -> bool) * Z) :=
  [(HasMovementFlag MOVEMENTFLAG_ROOT, MOVEMENTFLAG_ROOT);
   (fun mi => HasMovementFlag MOVEMENTFLAG_HOVER mi && negb (HasAuraType target SPELL_AURA_HOVER),
    MOVEMENTFLAG_HOVER);
   (both MOVEMENTFLAG_ASCENDING MOVEMENTFLAG_DESCENDING,
    Z.lor MOVEMENTFLAG_ASCENDING MOVEMENTFLAG_DESCENDING);
   (both MOVEMENTFLAG_LEFT MOVEMENTFLAG_RIGHT, Z.lor MOVEMENTFLAG_LEFT MOVEMENTFLAG_RIGHT);
   (both MOVEMENTFLAG_STRAFE_LEFT MOVEMENTFLAG_STRAFE_RIGHT,
    Z.lor MOVEMENTFLAG_STRAFE_LEFT MOVEMENTFLAG_STRAFE_RIGHT);
   (both MOVEMENTFLAG_PITCH_UP MOVEMENTFLAG_PITCH_DOWN,
    Z.lor MOVEMENTFLAG_PITCH_UP MOVEMENTFLAG_PITCH_DOWN);
   (both MOVEMENTFLAG_FORWARD MOVEMENTFLAG_BACKWARD,
    Z.lor MOVEMENTFLAG_FORWARD MOVEMENTFLAG_BACKWARD);
   (fun mi => HasMovementFlag MOVEMENTFLAG_WATERWALKING mi &&
              negb (HasAuraType target SPELL_AURA_WATER_WALK), MOVEMENTFLAG_WATERWALKING);
   (fun mi => HasMovementFlag MOVEMENTFLAG_FALLING_SLOW mi &&
              negb (HasAuraType target SPELL_AURA_FEATHER_FALL), MOVEMENTFLAG_FALLING_SLOW);
   (fun mi =>
      let flying := HasMovementFlag (Z.lor MOVEMENTFLAG_FLYING MOVEMENTFLAG_CAN_FLY) mi in
      if is_player target
      then flying && (GetSecurity target =? SEC_PLAYER) && negb (HasAuraType target SPELL_AURA_FLY)
           && negb (HasAuraType target SPELL_AURA_MOD_INCREASE_MOUNTED_FLIGHT_SPEED)
      else flying && negb (HasAuraType target SPELL_AURA_FLY)
           && negb (HasAuraType target SPELL_AURA_MOD_INCREASE_FLIGHT_SPEED),
    Z.lor MOVEMENTFLAG_FLYING MOVEMENTFLAG_CAN_FLY)].

Definition Sanitize (target : UnitView) (mi : MovementInfo) : MovementInfo :=
  foldl (fun m c => remove_violating c.1 c.2 m) mi (violations target).

(** ** Broadcasting *)

(** [GetSMSGOpcodeForCMSG]; the groups of the [switch] that answer with
    [SMSG_PLAYER_MOVE] are the default. *)
Definition GetSMSGOpcodeForCMSG (cmsg : Z) : Z :=
  if cmsg =? CMSG_MOVE_FORCE_WALK_SPEED_CHANGE_ACK then SMSG_MOVE_UPDATE_WALK_SPEED
  else if cmsg =? CMSG_MOVE_FORCE_RUN_SPEED_CHANGE_ACK then SMSG_MOVE_UPDATE_RUN_SPEED
  else if cmsg =? CMSG_MOVE_FORCE_RUN_BACK_SPEED_CHANGE_ACK then SMSG_MOVE_UPDATE_RUN_BACK_SPEED
  else if cmsg =? CMSG_MOVE_FORCE_SWIM_SPEED_CHANGE_ACK then SMSG_MOVE_UPDATE_SWIM_SPEED
  else if cmsg =? CMSG_MOVE_FORCE_SWIM_BACK_SPEED_CHANGE_ACK then SMSG_MOVE_UPDATE_SWIM_BACK_SPEED
  else if cmsg =? CMSG_MOVE_FORCE_FLIGHT_SPEED_CHANGE_ACK then SMSG_MOVE_UPDATE_FLIGHT_SPEED
  else if cmsg =? CMSG_MOVE_SET_COLLISION_HEIGHT_ACK then SMSG_MOVE_UPDATE_COLLISION_HEIGHT
  else SMSG_PLAYER_MOVE.

Record PacketSender := mkPacketSender {
  _unit : UnitView;
  _toSend : Z;
  _BroadCastControlled : bool;
  _BroadCastSelf : bool;
  _isControlledPacket : bool;
  _info : MovementInfo
}.

(** [PacketSender::PacketSender]. *)
Definition PacketSender_new (unit : UnitView) (controlled self : Z) (info : MovementInfo)
    (broadCastSelf broadCastControlled : bool) : PacketSender :=
  if is_player unit then
    if controlled_by_server unit
    then mkPacketSender unit controlled broadCastControlled broadCastSelf true info
    else mkPacketSender unit self broadCastControlled broadCastSelf false info
  else mkPacketSender unit controlled true broadCastSelf true info.

(** Where a packet goes: to the player's own session, or to everyone around,
    the player included or not. *)
Inductive delivery :=
| SendDirectMessage (data : WorldPacket)
| SendMessageToSet (data : WorldPacket) (self : bool).

(** [PacketSender::Send]. *)
Definition Send `{Host} (p : PacketSender) : M (list delivery) ByteBufferException unit :=
  '(_, data) ← on_local (WorldPacket_new (_toSend p)) (WriteToPacket (_info p));
  modify (fun sent => sent ++
    [if ((negb (_BroadCastSelf p) && negb (_isControlledPacket p)) ||
         (negb (_BroadCastControlled p) && _isControlledPacket p)) && is_player (_unit p)
     then SendDirectMessage data
     else SendMessageToSet data (is_player (_unit p))]).
