(* ===== verification/MovementKinds.v ===== *)
(** * The elements of movement packets, described

    Every element of a movement packet is one of a few kinds: a presence bit, a
    bit or a byte of a GUID, a group of bits, a scalar, a constant bit.  [kind]
    says which, under which presence bits it is sent, and which field it
    carries; the two interpreters of [Movement.v] are shown to do what the
    description says, so that the proofs about them consider the kinds rather
    than the elements. *)

From S2P Require Import Prelude Float32 ByteBuffer Wire Packet MovementTables Movement.

(** ** Kinds *)

(** [t] tells the transport's GUID from the unit's. *)
Inductive kind :=
| KIdBit (t : bool) (i : Z)
| KIdByte (t : bool) (i : Z)
| KPresence (neg : bool) (h : MovementStatusElements) (guard : list MovementStatusElements)
| KSpline
| KBits (n : Z) (guard : list MovementStatusElements) (get : MovementInfo -> Z)
    (put : Z -> MovementInfo -> MovementInfo)
| KScalar (t : scalar) (guard : list MovementStatusElements) (get : MovementInfo -> Z)
    (put : Z -> MovementInfo -> MovementInfo)
| KConst (bit : Z)
| KInvalid.

Definition kind_of (e : MovementStatusElements) : kind :=
  let T := [MSEHasTransportData] in
  let F := [MSEHasFallData] in
  let D := [MSEHasFallData; MSEHasFallDirection] in
  match e with
  | MSEHasGuidByte0 => KIdBit false 0
  | MSEHasGuidByte1 => KIdBit false 1
  | MSEHasGuidByte2 => KIdBit false 2
  | MSEHasGuidByte3 => KIdBit false 3
  | MSEHasGuidByte4 => KIdBit false 4
  | MSEHasGuidByte5 => KIdBit false 5
  | MSEHasGuidByte6 => KIdBit false 6
  | MSEHasGuidByte7 => KIdBit false 7
  | MSEHasTransportGuidByte0 => KIdBit true 0
  | MSEHasTransportGuidByte1 => KIdBit true 1
  | MSEHasTransportGuidByte2 => KIdBit true 2
  | MSEHasTransportGuidByte3 => KIdBit true 3
  | MSEHasTransportGuidByte4 => KIdBit true 4
  | MSEHasTransportGuidByte5 => KIdBit true 5
  | MSEHasTransportGuidByte6 => KIdBit true 6
  | MSEHasTransportGuidByte7 => KIdBit true 7
  | MSEGuidByte0 => KIdByte false 0
  | MSEGuidByte1 => KIdByte false 1
  | MSEGuidByte2 => KIdByte false 2
  | MSEGuidByte3 => KIdByte false 3
  | MSEGuidByte4 => KIdByte false 4
  | MSEGuidByte5 => KIdByte false 5
  | MSEGuidByte6 => KIdByte false 6
  | MSEGuidByte7 => KIdByte false 7
  | MSETransportGuidByte0 => KIdByte true 0
  | MSETransportGuidByte1 => KIdByte true 1
  | MSETransportGuidByte2 => KIdByte true 2
  | MSETransportGuidByte3 => KIdByte true 3
  | MSETransportGuidByte4 => KIdByte true 4
  | MSETransportGuidByte5 => KIdByte true 5
  | MSETransportGuidByte6 => KIdByte true 6
  | MSETransportGuidByte7 => KIdByte true 7
  | MSEHasMovementFlags | MSEHasMovementFlags2 | MSEHasTimestamp | MSEHasOrientation
  | MSEHasPitch | MSEHasSplineElevation => KPresence true e []
  | MSEHasTransportData | MSEHasFallData => KPresence false e []
  | MSEHasTransportTime2 | MSEHasTransportTime3 => KPresence false e T
  | MSEHasFallDirection => KPresence false e F
  | MSEHasSpline => KSpline
  | MSEMovementFlags => KBits 30 [MSEHasMovementFlags] flags (fun v mi => mi <| flags := v |>)
  | MSEMovementFlags2 =>
      KBits 12 [MSEHasMovementFlags2] flags2 (fun v mi => mi <| flags2 := u16 v |>)
  | MSETimestamp => KScalar TU32 [MSEHasTimestamp] time (fun v mi => mi <| time := v |>)
  | MSEPositionX => KScalar TFloat [] (fun mi => m_positionX (pos mi)) set_x
  | MSEPositionY => KScalar TFloat [] (fun mi => m_positionY (pos mi)) set_y
  | MSEPositionZ => KScalar TFloat [] (fun mi => m_positionZ (pos mi)) set_z
  | MSEOrientation => KScalar TFloat [MSEHasOrientation] (fun mi => m_orientation (pos mi))
      (fun v mi => mi <| pos ::= SetOrientation v |>)
  | MSETransportPositionX => KScalar TFloat T (fun mi => m_positionX (t_pos mi)) set_t_x
  | MSETransportPositionY => KScalar TFloat T (fun mi => m_positionY (t_pos mi)) set_t_y
  | MSETransportPositionZ => KScalar TFloat T (fun mi => m_positionZ (t_pos mi)) set_t_z
  | MSETransportOrientation => KScalar TFloat T (fun mi => m_orientation (t_pos mi))
      (fun v mi => mi <| t_pos ::= SetOrientation v |>)
  | MSETransportSeat => KScalar TI8 T t_seat (fun v mi => mi <| t_seat := v |>)
  | MSETransportTime => KScalar TU32 T t_time (fun v mi => mi <| t_time := v |>)
  | MSETransportTime2 => KScalar TU32 [MSEHasTransportData; MSEHasTransportTime2] t_time2
      (fun v mi => mi <| t_time2 := v |>)
  | MSETransportTime3 => KScalar TU32 [MSEHasTransportData; MSEHasTransportTime3] t_time3
      (fun v mi => mi <| t_time3 := v |>)
  | MSEPitch => KScalar TFloat [MSEHasPitch] pitch (fun v mi => mi <| pitch := v |>)
  | MSEFallTime => KScalar TU32 F fallTime (fun v mi => mi <| fallTime := v |>)
  | MSEFallVerticalSpeed => KScalar TFloat F j_zspeed (fun v mi => mi <| j_zspeed := v |>)
  | MSEFallCosAngle => KScalar TFloat D j_cosAngle (fun v mi => mi <| j_cosAngle := v |>)
  | MSEFallSinAngle => KScalar TFloat D j_sinAngle (fun v mi => mi <| j_sinAngle := v |>)
  | MSEFallHorizontalSpeed => KScalar TFloat D j_xyspeed (fun v mi => mi <| j_xyspeed := v |>)
  | MSESplineElevation =>
      KScalar TFloat [MSEHasSplineElevation] splineElevation (fun v mi => mi <| splineElevation := v |>)
  | MSECounter => KScalar TU32 [] ackCount (fun v mi => mi <| ackCount := v |>)
  | MSESpeedWalk | MSESpeedRun | MSESpeedRunBack | MSESpeedSwim | MSESpeedSwimBack
  | MSESpeedTurnRate | MSESpeedFlight | MSESpeedFlightBack | MSESpeedPitchRate =>
      KScalar TFloat [] ackSpeed (fun v mi => mi <| ackSpeed := v |>)
  | MSEHeight => KScalar TFloat [] height (fun v mi => mi <| height := v |>)
  | MSEZeroBit => KConst 0
  | MSEOneBit => KConst 1
  | MSEEnd | MSE_COUNT | MSEExtraFloat => KInvalid
  end.

(** ** Presence *)

(** What a presence bit says about an object, and where a reader keeps it. *)
Definition present (mi : MovementInfo) (h : MovementStatusElements) : bool :=
  match h with
  | MSEHasMovementFlags => negb (flags mi =? 0)
  | MSEHasMovementFlags2 => negb (flags2 mi =? 0)
  | MSEHasTimestamp => negb (time mi =? 0)
  | MSEHasOrientation => w_hasOrientation mi
  | MSEHasTransportData => negb (t_guid mi =? 0)
  | MSEHasTransportTime2 => negb (t_guid mi =? 0) && negb (t_time2 mi =? 0)
  | MSEHasTransportTime3 => negb (t_guid mi =? 0) && negb (t_time3 mi =? 0)
  | MSEHasPitch => w_hasPitch mi
  | MSEHasFallData => w_hasFallData mi
  | MSEHasFallDirection => w_hasFallDirection mi
  | MSEHasSplineElevation => w_hasSplineElevation mi
  | _ => false
  end.

Definition flag_of (r : Reader) (h : MovementStatusElements) : bool :=
  match h with
  | MSEHasMovementFlags => hasMovementFlags r
  | MSEHasMovementFlags2 => hasMovementFlags2 r
  | MSEHasTimestamp => hasTimestamp r
  | MSEHasOrientation => hasOrientation r
  | MSEHasTransportData => hasTransportData r
  | MSEHasTransportTime2 => hasTransportTime2 r
  | MSEHasTransportTime3 => hasTransportTime3 r
  | MSEHasPitch => hasPitch r
  | MSEHasFallData => hasFallData r
  | MSEHasFallDirection => hasFallDirection r
  | MSEHasSplineElevation => hasSplineElevation r
  | _ => false
  end.

Definition set_flag (h : MovementStatusElements) (b : bool) (r : Reader) : Reader :=
  match h with
  | MSEHasMovementFlags => r <| hasMovementFlags := b |>
  | MSEHasMovementFlags2 => r <| hasMovementFlags2 := b |>
  | MSEHasTimestamp => r <| hasTimestamp := b |>
  | MSEHasOrientation => r <| hasOrientation := b |>
  | MSEHasTransportData => r <| hasTransportData := b |>
  | MSEHasTransportTime2 => r <| hasTransportTime2 := b |>
  | MSEHasTransportTime3 => r <| hasTransportTime3 := b |>
  | MSEHasPitch => r <| hasPitch := b |>
  | MSEHasFallData => r <| hasFallData := b |>
  | MSEHasFallDirection => r <| hasFallDirection := b |>
  | MSEHasSplineElevation => r <| hasSplineElevation := b |>
  | _ => r
  end.

Definition all_present (mi : MovementInfo) (guard : list MovementStatusElements) : bool :=
  forallb (present mi) guard.
Definition all_flags (guard : list MovementStatusElements) (r : Reader) : bool :=
  forallb (flag_of r) guard.

(** The presence bits a kind depends on. *)
Definition guard_of (k : kind) : list MovementStatusElements :=
  match k with
  | KIdBit t _ | KIdByte t _ => if t then [MSEHasTransportData] else []
  | KPresence _ _ guard | KBits _ guard _ _ | KScalar _ guard _ _ => guard
  | _ => []
  end.

Definition guid_of (t : bool) (mi : MovementInfo) : Z := if t then t_guid mi else guid mi.
Definition id_of (t : bool) (r : Reader) : list Z := if t then r_tid r else r_id r.
Definition set_id (t : bool) (i x : Z) (r : Reader) : Reader :=
  if t then r <| r_tid ::= <[Z.to_nat i := x]> |> else r <| r_id ::= <[Z.to_nat i := x]> |>.

Definition negate (neg b : bool) : bool := if neg then negb b else b.

(** ** The interpreters, kind by kind *)

Section Interpreters.
Context `{Host}.

Definition write_body (mi : MovementInfo) (k : kind) : BB unit :=
  match k with
  | KIdBit t i => put_bit (ObjectGuid_at (guid_of t mi) i)
  | KIdByte t i => WriteByteSeq (ObjectGuid_at (guid_of t mi) i)
  | KPresence neg h _ => put_bool (negate neg (present mi h))
  | KSpline => put_bool (hasSpline mi)
  | KBits n _ get _ => WriteBits 32 (get mi) n
  | KScalar t _ get _ => out t (get mi)
  | KConst bit => put_bit bit
  | KInvalid => abort AssertFailed
  end.

Definition write_kind (mi : MovementInfo) (k : kind) : BB unit :=
  when (all_present mi (guard_of k)) (write_body mi k).

Definition read_body (k : kind) : RM unit :=
  match k with
  | KIdBit t i => get_bit (fun b => set_id t i (Z.b2z b))
  | KIdByte t i =>
      r ← getS;
      x ← in_data (ReadByteSeq (nth (Z.to_nat i) (id_of t r) 0));
      modify (set_id t i x)
  | KPresence neg h _ => get_bit (fun b => set_flag h (negate neg b))
  | KSpline => get_bit (fun b r => r <| r_info ::= fun mi => mi <| hasSpline := b |> |>)
  | KBits n _ _ put => get_bits n put
  | KScalar t _ _ put => get t put
  | KConst _ => get_bit (fun _ r => r)
  | KInvalid => abort AssertFailed
  end.

Definition read_kind (k : kind) : RM unit := guarded (all_flags (guard_of k)) (read_body k).
End Interpreters.

(** ** Objects that fit the packet *)

Record info_ok (mi : MovementInfo) : Prop := {
  ok_guid : in_width 64 (guid mi);
  ok_t_guid : in_width 64 (t_guid mi);
  ok_t_guid_low : u32 (t_guid mi) = 0 -> t_guid mi = 0;
  ok_flags : in_width 30 (flags mi);
  ok_flags2 : in_width 12 (flags2 mi);
  ok_t_seat : in_swidth 8 (t_seat mi);
  ok_words : Forall (in_width 32)
    [time mi; t_time mi; t_time2 mi; t_time3 mi; fallTime mi; ackCount mi; pitch mi; j_zspeed mi;
     j_cosAngle mi; j_sinAngle mi; j_xyspeed mi; splineElevation mi; ackSpeed mi; height mi;
     m_positionX (pos mi); m_positionY (pos mi); m_positionZ (pos mi); m_orientation (pos mi);
     m_positionX (t_pos mi); m_positionY (t_pos mi); m_positionZ (t_pos mi);
     m_orientation (t_pos mi)]
}.

(** ** Lemmas *)

Lemma put_bit_ext x y : (u32 x =? 0) = (u32 y =? 0) -> put_bit x = put_bit y.
Proof. intros Heq. unfold put_bit, WriteBit. by rewrite Heq. Qed.

Lemma put_bit_bool x : in_width 32 x -> put_bit x = put_bool (negb (x =? 0)).
Proof.
  intros Hx. apply put_bit_ext. rewrite (wrap_small 32 x) by done.
  by destruct (x =? 0).
Qed.

(** Evaluate the tests and the indices of a known element. *)
Ltac element_range :=
  repeat match goal with
  | |- context [in_range ?a ?e ?b] =>
      let v := eval vm_compute in (in_range a e b) in change (in_range a e b) with v
  | |- context [enum_value ?a - enum_value ?b] =>
      let v := eval vm_compute in (enum_value a - enum_value b) in
      change (enum_value a - enum_value b) with v
  end; cbn match.

Section Agreement.
Context `{Host}.

(** The writer's element is its kind. *)
Lemma Write_element_kind mi e : info_ok mi -> Write_element mi e = write_kind mi (kind_of e).
Proof.
  intros [_ _ Hlow _ _ _ Hw].
  assert (Ht : put_bit (t_guid mi) = put_bool (negb (t_guid mi =? 0))).
  { apply put_bit_ext. destruct (Z.eqb_spec (t_guid mi) 0) as [->|Hne]; [done|].
    destruct (Z.eqb_spec (u32 (t_guid mi)) 0); [by apply Hlow in e0|done]. }
  assert (H2 : put_bit (t_time2 mi) = put_bool (negb (t_time2 mi =? 0)))
    by (apply put_bit_bool; rewrite !Forall_cons in Hw; tauto).
  assert (H3 : put_bit (t_time3 mi) = put_bool (negb (t_time3 mi =? 0)))
    by (apply put_bit_bool; rewrite !Forall_cons in Hw; tauto).
  destruct e; unfold Write_element; element_range; unfold write_kind, when, all_present;
    cbn [kind_of guard_of write_body forallb present guid_of negate];
    rewrite ?Ht, ?H2, ?H3, ?negb_involutive, ?andb_true_r; try done.
  all: try by destruct (negb (t_guid mi =? 0)).
  all: by unfold w_hasFallDirection; destruct (w_hasFallData mi).
Qed.

Lemma guarded_run flag m (r : Reader) : guarded flag m r = when (flag r) m r.
Proof. done. Qed.

Lemma get_float_get set r : get_float set r = get TFloat set r.
Proof.
  unfold get_float, get, in_data, inn. run. by destruct (read_T 4 (r_data r)).
Qed.

(** The reader's element is its kind. *)
Lemma Read_element_kind e r : Read_element e r = read_kind (kind_of e) r.
Proof.
  destruct e; unfold Read_element; element_range; try reflexivity.
  all: unfold read_kind; rewrite !guarded_run; unfold all_flags;
    cbn [kind_of guard_of read_body forallb flag_of]; rewrite ?andb_true_r; try reflexivity.
  all: unfold when; case_match; [apply get_float_get|done].
Qed.
End Agreement.
