(* ===== verification/MovementWire.v ===== *)
(** * Movement packets on the wire

    What a sequence of elements makes of an object: a block of bytes, a block
    of bits, a block of bytes.  [sequence_wf] is the condition on a sequence
    under which a reader finds its way: the bits are in one block, every field
    comes after the presence bits it depends on, and no element is repeated.
    This file is the writer's side. *)

From S2P Require Import Prelude Float32 ByteBuffer BitStream Wire Packet MovementTables Movement MovementKinds.

(** ** What a kind puts on the wire *)

Definition is_bits (k : kind) : bool :=
  match k with KIdBit _ _ | KPresence _ _ _ | KSpline | KBits _ _ _ _ | KConst _ => true | _ => false end.
Definition is_bytes (k : kind) : bool :=
  match k with KIdByte _ _ | KScalar _ _ _ _ => true | _ => false end.

Definition body_bits (mi : MovementInfo) (k : kind) : list bool :=
  match k with
  | KIdBit t i => [negb (ObjectGuid_at (guid_of t mi) i =? 0)]
  | KPresence neg h _ => [negate neg (present mi h)]
  | KSpline => [hasSpline mi]
  | KBits n _ get _ => bits_msb (Z.to_nat n) (get mi)
  | KConst bit => [negb (bit =? 0)]
  | _ => []
  end.

Definition seq_fmt (x : Z) : list Z := if x =? 0 then [] else [Z.lxor x 1].

Definition body_bytes (mi : MovementInfo) (k : kind) : list Z :=
  match k with
  | KIdByte t i => seq_fmt (ObjectGuid_at (guid_of t mi) i)
  | KScalar t _ get _ => scalar_fmt t (get mi)
  | _ => []
  end.

Definition kind_bits (mi : MovementInfo) (k : kind) : list bool :=
  if all_present mi (guard_of k) then body_bits mi k else [].
Definition kind_bytes (mi : MovementInfo) (k : kind) : list Z :=
  if all_present mi (guard_of k) then body_bytes mi k else [].

Definition bits_on_wire (mi : MovementInfo) (es : list MovementStatusElements) : list bool :=
  concat (map (fun e => kind_bits mi (kind_of e)) es).
Definition bytes_on_wire (mi : MovementInfo) (es : list MovementStatusElements) : list Z :=
  concat (map (fun e => kind_bytes mi (kind_of e)) es).

(** The values of a kind are in the range of its format. *)
Definition kind_ok (mi : MovementInfo) (k : kind) : Prop :=
  match k with
  | KIdBit _ i | KIdByte _ i => 0 <= i < 8
  | KBits n _ get _ => 0 <= n <= 30 /\ in_width n (get mi)
  | KScalar t _ get _ => scalar_ok t (get mi)
  | KConst bit => in_width 32 bit
  | _ => True
  end.

Lemma kind_of_ok mi e : info_ok mi -> kind_ok mi (kind_of e).
Proof.
  intros [_ _ _ Hf Hf2 Hs Hw]. rewrite !Forall_cons in Hw.
  destruct e; cbn; try lia; try tauto; split; done || lia.
Qed.

(** ** Well-formed sequences *)

Fixpoint until_end (sequence : list MovementStatusElements) : list MovementStatusElements :=
  match sequence with
  | [] => []
  | e :: l => if decide (e = MSEEnd) then [] else e :: until_end l
  end.

Fixpoint span {A} (f : A -> bool) (l : list A) : list A * list A :=
  match l with
  | [] => ([], [])
  | x :: l' => if f x then let '(a, b) := span f l' in (x :: a, b) else ([], l)
  end.

(** The three blocks. *)
Definition head_of (body : list MovementStatusElements) := (span (fun e => is_bytes (kind_of e)) body).1.
Definition rest_of (body : list MovementStatusElements) := (span (fun e => is_bytes (kind_of e)) body).2.
Definition bits_block (body : list MovementStatusElements) :=
  (span (fun e => is_bits (kind_of e)) (rest_of body)).1.
Definition tail_of (body : list MovementStatusElements) :=
  (span (fun e => is_bits (kind_of e)) (rest_of body)).2.

Definition is_const (k : kind) : bool := match k with KConst _ => true | _ => false end.

Definition id_bits (t : bool) : list MovementStatusElements :=
  if t then [MSEHasTransportGuidByte0; MSEHasTransportGuidByte1; MSEHasTransportGuidByte2;
             MSEHasTransportGuidByte3; MSEHasTransportGuidByte4; MSEHasTransportGuidByte5;
             MSEHasTransportGuidByte6; MSEHasTransportGuidByte7]
  else [MSEHasGuidByte0; MSEHasGuidByte1; MSEHasGuidByte2; MSEHasGuidByte3;
        MSEHasGuidByte4; MSEHasGuidByte5; MSEHasGuidByte6; MSEHasGuidByte7].
Definition id_bytes (t : bool) : list MovementStatusElements :=
  if t then [MSETransportGuidByte0; MSETransportGuidByte1; MSETransportGuidByte2;
             MSETransportGuidByte3; MSETransportGuidByte4; MSETransportGuidByte5;
             MSETransportGuidByte6; MSETransportGuidByte7]
  else [MSEGuidByte0; MSEGuidByte1; MSEGuidByte2; MSEGuidByte3;
        MSEGuidByte4; MSEGuidByte5; MSEGuidByte6; MSEGuidByte7].
Definition bit_el (t : bool) (i : Z) := nth (Z.to_nat i) (id_bits t) MSEEnd.
Definition byte_el (t : bool) (i : Z) := nth (Z.to_nat i) (id_bytes t) MSEEnd.

(** The elements that must come before an element. *)
Definition deps (e : MovementStatusElements) : list MovementStatusElements :=
  guard_of (kind_of e) ++ match kind_of e with KIdByte t i => [bit_el t i] | _ => [] end.

Fixpoint ordered (done l : list MovementStatusElements) : bool :=
  match l with
  | [] => true
  | e :: l' =>
      forallb (fun d => bool_decide (d ∈ done)) (deps e) &&
      (is_const (kind_of e) || negb (bool_decide (e ∈ done))) &&
      ordered (e :: done) l'
  end.

(** The GUID is sent in full, that of the transport if its presence is. *)
Definition complete (body : list MovementStatusElements) : bool :=
  forallb (fun e => bool_decide (e ∈ tail_of body)) (id_bytes false) &&
  (negb (bool_decide (MSEHasTransportData ∈ body)) ||
   forallb (fun e => bool_decide (e ∈ body)) (id_bytes true)).

Definition sequence_wf (sequence : list MovementStatusElements) : bool :=
  let body := until_end sequence in
  bool_decide (MSEEnd ∈ sequence) &&
  (length body <? MSE_iterations)%nat &&
  forallb (fun e => is_bytes (kind_of e)) (tail_of body) &&
  ordered [] body && complete body.

Lemma until_end_no_end l : MSEEnd ∉ until_end l.
Proof. induction l as [|e l IH]; cbn; [set_solver|]. case_decide; set_solver. Qed.

Lemma until_end_split l : MSEEnd ∈ l -> exists l', l = until_end l ++ MSEEnd :: l'.
Proof.
  induction l as [|e l IH]; intros Hin; [set_solver|]. cbn. case_decide as He.
  - subst. by exists l.
  - destruct IH as [l' Hl]; [set_solver|]. exists l'. cbn. by rewrite <- Hl.
Qed.

Lemma span_app {A} (f : A -> bool) l : (span f l).1 ++ (span f l).2 = l.
Proof.
  induction l as [|x l IH]; [done|]. cbn. destruct (f x); [|done].
  destruct (span f l). cbn in *. by rewrite IH.
Qed.

Lemma span_all {A} (f : A -> bool) l x : x ∈ (span f l).1 -> f x = true.
Proof.
  induction l as [|y l IH]; cbn; [set_solver|]. destruct (f y) eqn:Hy; [|set_solver].
  destruct (span f l). cbn in *. set_solver.
Qed.

Lemma blocks body : body = head_of body ++ bits_block body ++ tail_of body.
Proof. unfold bits_block, tail_of. rewrite span_app. symmetry. apply span_app. Qed.

(** What [sequence_wf] gives. *)
Record wf_blocks (sequence : list MovementStatusElements) (head bits tail : list MovementStatusElements) : Prop := {
  wf_split : exists l', sequence = (head ++ bits ++ tail) ++ MSEEnd :: l';
  wf_no_end : MSEEnd ∉ head ++ bits ++ tail;
  wf_length : (length (head ++ bits ++ tail) < MSE_iterations)%nat;
  wf_head : forall e, e ∈ head -> is_bytes (kind_of e) = true;
  wf_bits : forall e, e ∈ bits -> is_bits (kind_of e) = true;
  wf_tail : forall e, e ∈ tail -> is_bytes (kind_of e) = true;
  wf_ordered : ordered [] (head ++ bits ++ tail) = true;
  wf_guid : forall e, e ∈ id_bytes false -> e ∈ tail;
  wf_t_guid : MSEHasTransportData ∈ head ++ bits ++ tail ->
              forall e, e ∈ id_bytes true -> e ∈ head ++ bits ++ tail
}.

Lemma sequence_wf_blocks sequence :
  sequence_wf sequence = true ->
  let body := until_end sequence in
  wf_blocks sequence (head_of body) (bits_block body) (tail_of body).
Proof.
  intros Hwf body. unfold sequence_wf, complete in Hwf. cbn zeta in Hwf. fold body in Hwf.
  rewrite !andb_true_iff, orb_true_iff, negb_true_iff in Hwf.
  destruct Hwf as [[[[Hend Hlen] Htail] Hord] [Hg Ht]].
  apply bool_decide_eq_true in Hend. apply Nat.ltb_lt in Hlen.
  rewrite forallb_forall in Htail, Hg. setoid_rewrite <- list_elem_of_In in Htail.
  setoid_rewrite <- list_elem_of_In in Hg.
  pose proof (until_end_split sequence Hend) as Hs. fold body in Hs.
  rewrite (blocks body) in Hs, Hlen, Hord.
  pose proof (until_end_no_end sequence) as Hne. fold body in Hne. rewrite (blocks body) in Hne.
  split; try done.
  - intros e He. by apply (span_all (fun e => is_bytes (kind_of e)) body).
  - intros e He. by apply (span_all (fun e => is_bits (kind_of e)) (rest_of body)).
  - intros e He. by apply Hg, bool_decide_eq_true in He.
  - rewrite <- (blocks body). intros Hin e He. destruct Ht as [Ht|Ht].
    + by apply bool_decide_eq_false in Ht.
    + rewrite forallb_forall in Ht. by apply list_elem_of_In, Ht, bool_decide_eq_true in He.
Qed.

(** ** GUIDs as bytes *)

Lemma byte_at g i : in_width 8 (ObjectGuid_at g i).
Proof.
  unfold ObjectGuid_at, in_width. change 255 with (Z.ones 8). rewrite Z.land_ones by lia.
  apply Z.mod_pos_bound. lia.
Qed.

Lemma ObjectGuid_at_div g i : 0 <= i -> ObjectGuid_at g i = (g / 2 ^ (8 * i)) mod 256.
Proof.
  intros Hi. unfold ObjectGuid_at. change 255 with (Z.ones 8).
  by rewrite Z.land_ones, Z.shiftr_div_pow2 by lia.
Qed.

Lemma le_bytes_at n g :
  le_bytes n g = map (fun i => ObjectGuid_at g (Z.of_nat i)) (seq 0 n).
Proof.
  revert g. induction n as [|n IH]; intros g; [done|].
  cbn [le_bytes seq map]. f_equal; [by rewrite ObjectGuid_at_div, Z.mul_0_r, Z.div_1_r by lia|].
  rewrite IH, <- seq_shift, map_map. apply map_ext. intros i.
  rewrite !ObjectGuid_at_div by lia. f_equal.
  rewrite Z.div_div by lia. f_equal.
  replace (8 * Z.of_nat (S i)) with (8 + 8 * Z.of_nat i) by lia. by rewrite Z.pow_add_r by lia.
Qed.

Lemma le_bytes_8 g :
  le_bytes 8 g = [ObjectGuid_at g 0; ObjectGuid_at g 1; ObjectGuid_at g 2; ObjectGuid_at g 3;
                  ObjectGuid_at g 4; ObjectGuid_at g 5; ObjectGuid_at g 6; ObjectGuid_at g 7].
Proof. apply (le_bytes_at 8). Qed.

Lemma guid_of_bytes g : in_width 64 g -> le_value (le_bytes 8 g) = g.
Proof. intros Hg. rewrite le_value_le_bytes. by apply Z.mod_small. Qed.

Lemma guid_bytes_zero g :
  in_width 64 g -> (forall i, 0 <= i < 8 -> ObjectGuid_at g i = 0) -> g = 0.
Proof.
  intros Hg Hz. rewrite <- (guid_of_bytes g), le_bytes_8 by done.
  by rewrite !Hz by lia.
Qed.

Lemma byte_el_in t i : 0 <= i < 8 -> byte_el t i ∈ id_bytes t /\ kind_of (byte_el t i) = KIdByte t i.
Proof.
  intros Hi.
  assert (i = 0 \/ i = 1 \/ i = 2 \/ i = 3 \/ i = 4 \/ i = 5 \/ i = 6 \/ i = 7) as Hc by lia.
  destruct t; repeat destruct Hc as [->|Hc]; subst; (split; [|done]); cbn; set_solver.
Qed.

Lemma zlen_concat_le {A} (f : MovementStatusElements -> list A) es :
  (forall e, zlen (f e) <= 30) -> zlen (concat (map f es)) <= 30 * zlen es.
Proof.
  intros Hf. induction es as [|e es IH]; cbn [map concat]; zsimp; [lia|].
  specialize (Hf e). lia.
Qed.

(** ** Writing one bit or byte *)

Lemma put_bit_ok bit b :
  in_width 32 bit -> wr_wf b -> wr_room b 1 ->
  exists b', put_bit bit b = Ok tt b' /\ wr_wf b' /\
             written b' = written b ++ [negb (bit =? 0)] /\ _rpos b' = _rpos b.
Proof.
  intros Hbit Hwf Hroom. unfold put_bit. rewrite wrap_small by done.
  destruct (WriteBit_ok bit b) as (b' & Hb' & Hrest); [done|by eapply wr_room_size|].
  exists b'. run. by rewrite Hb'.
Qed.

Lemma put_bool_ok (x : bool) b :
  wr_wf b -> wr_room b 1 ->
  exists b', put_bool x b = Ok tt b' /\ wr_wf b' /\ written b' = written b ++ [x] /\
             _rpos b' = _rpos b.
Proof.
  intros Hwf Hroom. destruct (put_bit_ok (Z.b2z x) b) as (b' & Hb' & ? & Hw & ?);
    [by destruct x|done|done|].
  exists b'. split; [done|]. split; [done|]. split; [|done]. rewrite Hw. by destruct x.
Qed.

Lemma FlushBits_bitpos b b' : FlushBits b = Ok tt b' -> _bitpos b' = 8.
Proof.
  unfold FlushBits. run. destruct (Z.eqb_spec (_bitpos b) 8); [by intros [= <-]|].
  destruct (append_bytes [_curbitval b] b); [|done..]. by intros [= <-].
Qed.

(** [m] starts by flushing the pending bits. *)
Definition starts_flush (m : BB unit) : Prop := forall b, m b = (FlushBits;; m) b.

Section Bytes.
Context `{Host}.
#[local] Set Default Proof Using "All".

Lemma append_T_flush n v : starts_flush (append_T n v).
Proof.
  intros b. unfold append_T. run. destruct (FlushBits b) as [[] b'| |] eqn:Hf; [|done..].
  by rewrite (FlushBits_aligned b') by by apply FlushBits_bitpos in Hf.
Qed.

Lemma writes_byte_seq x : in_width 8 x -> writes (WriteByteSeq x) (seq_fmt x).
Proof.
  intros Hx. unfold WriteByteSeq, seq_fmt. destruct (Z.eqb_spec x 0); cbn [negb]; [apply writes_ret|].
  assert (Hl : 0 <= Z.lxor x 1 < 256).
  { assert (Hb : in_width 8 (Z.lxor x 1)).
    { apply in_width_bits; [lia|apply Z.lxor_nonneg; unfold in_width in Hx; lia|].
      intros i Hi. rewrite Z.lxor_spec, (in_width_high 8 x), (in_width_high 8 1); done || lia. }
    exact Hb. }
  replace [Z.lxor x 1] with (scalar_fmt TU8 (Z.lxor x 1)); [apply (writes_out TU8)|].
  unfold scalar_fmt. cbn. by rewrite Z.mod_small by lia.
Qed.

End Bytes.

(** ** Writing a sequence *)

(** The loop, on a sequence that ends in time. *)
Lemma Write_loop_body `{Host} mi body l n :
  MSEEnd ∉ body -> (length body < n)%nat ->
  forall b, Write_loop mi n (body ++ MSEEnd :: l) b = for_each body (Write_element mi) b.
Proof.
  revert n. induction body as [|e body IH]; intros n Hne Hn b; (destruct n as [|n]; [cbn in Hn; lia|]).
  - cbn. by case_decide.
  - cbn [app Write_loop for_each]. rewrite decide_False by set_solver.
    unfold mbind, M_bind. destruct (Write_element mi e b); [|done..].
    apply IH; [set_solver|cbn in Hn; lia].
Qed.

Section Writer.
Context `{Host}.
Context (mi : MovementInfo) (Hmi : info_ok mi).
#[local] Set Default Proof Using "All".

Lemma write_kind_bits k b :
  is_bits k = true -> kind_ok mi k -> wr_wf b -> wr_room b (1 + zlen (kind_bits mi k)) ->
  exists b', write_kind mi k b = Ok tt b' /\ wr_wf b' /\
             written b' = written b ++ kind_bits mi k /\ _rpos b' = _rpos b.
Proof.
  intros Hk Hok Hwf Hroom. unfold write_kind, kind_bits, when in *.
  destruct (all_present mi (guard_of k)).
  2: { exists b. split; [done|]. split; [done|]. by rewrite app_nil_r. }
  assert (Hr1 : wr_room b 1) by (unfold wr_room in *; zlen_pos; lia).
  destruct k; try done; cbn [write_body body_bits] in *.
  - apply put_bit_ok; [|done..]. pose proof (byte_at (guid_of t mi) i) as Hb.
    unfold in_width in *. lia.
  - by apply put_bool_ok.
  - by apply put_bool_ok.
  - destruct Hok as [Hn _]. apply WriteBits_ok; [done| |lia|lia].
    rewrite zlen_bits_msb in Hroom. unfold wr_room in *. lia.
  - by apply put_bit_ok.
Qed.

Lemma write_bits_block es b :
  (forall e, e ∈ es -> is_bits (kind_of e) = true) -> wr_wf b ->
  wr_room b (1 + zlen (bits_on_wire mi es)) ->
  exists b', for_each es (Write_element mi) b = Ok tt b' /\ wr_wf b' /\
             written b' = written b ++ bits_on_wire mi es /\ _rpos b' = _rpos b.
Proof.
  revert b. induction es as [|e es IH]; intros b Hes Hwf Hroom.
  - exists b. split; [done|]. split; [done|]. cbn. by rewrite app_nil_r.
  - unfold bits_on_wire in *. cbn [for_each map concat] in *. rewrite zlen_app in Hroom. zlen_pos.
    rewrite Write_element_kind by done.
    destruct (write_kind_bits (kind_of e) b) as (b1 & Hb1 & Hwf1 & Hw1 & Hr1);
      [apply Hes; set_solver|by apply kind_of_ok|done|unfold wr_room in *; lia|].
    destruct (IH b1) as (b' & Hb' & Hwf' & Hw' & Hr'); [set_solver|done| |].
    { unfold wr_room in *. rewrite Hw1, zlen_app. lia. }
    exists b'. unfold mbind, M_bind. rewrite Hb1. split; [done|]. split; [done|].
    split; [|congruence]. by rewrite Hw', Hw1, app_assoc.
Qed.

Lemma write_kind_bytes k :
  is_bytes k = true -> kind_ok mi k -> writes (write_kind mi k) (kind_bytes mi k).
Proof.
  intros Hk Hok. unfold write_kind, kind_bytes, when.
  destruct (all_present mi (guard_of k)); [|apply writes_ret].
  destruct k; try done; cbn [write_body body_bytes].
  - apply writes_byte_seq, byte_at.
  - apply writes_out.
Qed.

Lemma write_bytes_block es :
  (forall e, e ∈ es -> is_bytes (kind_of e) = true) ->
  writes (for_each es (Write_element mi)) (bytes_on_wire mi es).
Proof.
  intros Hes. apply writes_for_each. intros e He. rewrite Write_element_kind by done.
  apply write_kind_bytes; [by apply Hes|by apply kind_of_ok].
Qed.

(** ** Pending bits *)

(** A kind of bytes writes nothing, or flushes first. *)
Lemma write_kind_flush k :
  is_bytes k = true ->
  (kind_bytes mi k = [] /\ write_kind mi k = mret tt) \/ starts_flush (write_kind mi k).
Proof.
  intros Hk. unfold write_kind, kind_bytes, when.
  destruct (all_present mi (guard_of k)); [|by left].
  destruct k; try done; cbn [write_body body_bytes].
  - unfold WriteByteSeq, seq_fmt. destruct (_ =? 0); cbn [negb]; [by left|].
    right. apply append_T_flush.
  - right. apply append_T_flush.
Qed.

Lemma for_each_flush es :
  (forall e, e ∈ es -> is_bytes (kind_of e) = true) -> bytes_on_wire mi es <> [] ->
  starts_flush (for_each es (Write_element mi)).
Proof.
  induction es as [|e es IH]; intros Hes Hne b; [done|].
  unfold bytes_on_wire in *. cbn [for_each map concat] in *. rewrite Write_element_kind by done.
  destruct (write_kind_flush (kind_of e)) as [[Hnil ->]|Hf]; [apply Hes; set_solver| |].
  - rewrite Hnil in Hne. apply IH; [set_solver|done].
  - unfold mbind, M_bind at 1 3. rewrite (Hf b). run. by destruct (FlushBits b).
Qed.

(** ** Sizes *)

Lemma zlen_kind_bits e : zlen (kind_bits mi (kind_of e)) <= 30.
Proof.
  pose proof (kind_of_ok mi e Hmi) as Hok. unfold kind_bits.
  destruct (all_present _ _); [|by vm_compute].
  destruct (kind_of e); cbn [body_bits kind_ok] in *; rewrite ?zlen_bits_msb; zsimp; lia.
Qed.

Lemma zlen_kind_bytes e : zlen (kind_bytes mi (kind_of e)) <= 30.
Proof.
  unfold kind_bytes, seq_fmt, scalar_fmt. destruct (all_present _ _); [|by vm_compute].
  destruct (kind_of e); cbn [body_bytes]; unfold seq_fmt, scalar_fmt; zsimp; try lia.
  - destruct (_ =? 0); zsimp; lia.
  - destruct t; cbn; lia.
Qed.

(** Some byte of the GUID follows the bits. *)
Lemma tail_not_empty sequence head bits tail :
  wf_blocks sequence head bits tail -> guid mi <> 0 -> bytes_on_wire mi tail <> [].
Proof.
  intros Hwf Hg Hnil. apply Hg, guid_bytes_zero; [apply Hmi|]. intros i Hi.
  destruct (byte_el_in false i Hi) as [Hin Hk].
  apply (wf_guid _ _ _ _ Hwf), list_elem_of_In in Hin.
  assert (Hb : kind_bytes mi (kind_of (byte_el false i)) = []).
  { unfold bytes_on_wire in Hnil. apply (in_map (fun e => kind_bytes mi (kind_of e))) in Hin.
    apply in_split in Hin as (l1 & l2 & Heq). rewrite Heq, concat_app in Hnil.
    apply app_eq_nil in Hnil as [_ Hnil]. by apply app_eq_nil in Hnil as [Hnil _]. }
  rewrite Hk in Hb. unfold kind_bytes, seq_fmt in Hb. cbn [all_present guard_of forallb body_bytes guid_of] in Hb.
  unfold seq_fmt in Hb. by destruct (Z.eqb_spec (ObjectGuid_at (guid mi) i) 0).
Qed.

Lemma keeps_bits_block es :
  (forall e, e ∈ es -> is_bits (kind_of e) = true) ->
  keeps_prefix (for_each es (Write_element mi)).
Proof.
  intros Hes. apply prefix_for_each. intros e He. specialize (Hes e He).
  rewrite Write_element_kind by done. unfold write_kind. apply prefix_when.
  destruct (kind_of e); try done; cbn [write_body]; unfold put_bool, put_bit;
    first [apply prefix_WriteBits | apply prefix_bind; [apply prefix_WriteBit|intros; apply prefix_ret]].
Qed.

(** The whole packet: the bytes of the head, the bits padded to whole bytes,
    the bytes of the tail. *)
Lemma write_sequence_ok sequence head bits tail :
  wf_blocks sequence head bits tail -> guid mi <> 0 ->
  exists K n, (n < 8)%nat /\ bits_of K = bits_on_wire mi bits ++ replicate n false /\
    Write_loop mi MSE_iterations sequence ByteBuffer_new
    = Ok tt (buffer (packet_of 0 (bytes_on_wire mi head ++ K ++ bytes_on_wire mi tail))) /\
    zlen (bytes_on_wire mi head ++ K ++ bytes_on_wire mi tail) < 10000.
Proof.
  intros Hwf Hg. destruct (wf_split _ _ _ _ Hwf) as [l' Hs].
  pose proof (wf_length _ _ _ _ Hwf) as Hlen. rewrite !length_app in Hlen.
  assert (HI : MSE_iterations = 80%nat) by (vm_compute; reflexivity). rewrite HI in Hlen.
  pose proof (zlen_concat_le _ head zlen_kind_bytes) as Hh.
  pose proof (zlen_concat_le _ bits zlen_kind_bits) as Hb.
  pose proof (zlen_concat_le _ tail zlen_kind_bytes) as Ht.
  fold (bytes_on_wire mi head) in Hh. fold (bits_on_wire mi bits) in Hb.
  fold (bytes_on_wire mi tail) in Ht.
  assert (zlen head + zlen bits + zlen tail < 80) by (unfold zlen; lia).
  rewrite Hs. zlen_pos.
  assert (Hrun : forall b, Write_loop mi MSE_iterations ((head ++ bits ++ tail) ++ MSEEnd :: l') b
    = (for_each head (Write_element mi);; for_each bits (Write_element mi);;
       for_each tail (Write_element mi)) b).
  { intros b. rewrite Write_loop_body by apply Hwf. rewrite for_each_app.
    unfold mbind, M_bind. destruct (for_each head _ b); [|done..]. by rewrite for_each_app. }
  rewrite Hrun. clear Hrun. unfold mbind, M_bind.
  rewrite write_bytes_block; [|apply Hwf|done|done|unfold size; cbn; zsimp; lia].
  set (b1 := appended _ ByteBuffer_new).
  assert (Hwf1 : wr_wf b1).
  { split_and!; try done; try (by apply at_end_appended). intros. apply Z.bits_0. }
  assert (Hw1 : written b1 = bits_of (bytes_on_wire mi head)).
  { unfold written, b1. cbn. by rewrite app_nil_r. }
  destruct (write_bits_block bits b1) as (b2 & Hrun2 & Hwf2 & Hw2 & Hr2); [apply Hwf|done| |].
  { unfold wr_room. rewrite Hw1, zlen_bits_of. lia. }
  rewrite Hrun2, (for_each_flush tail) by (apply Hwf || by eapply tail_not_empty).
  unfold mbind, M_bind.
  destruct (FlushBits_full b2) as (b3 & Hrun3 & Hend3 & Hbit3 & Hcur3 & Hr3 & Hst3); [done| |].
  { unfold wr_room. rewrite Hw2, Hw1, zlen_app, zlen_bits_of. lia. }
  rewrite Hrun3, Hw2, Hw1, <- app_assoc in *.
  assert (HK : exists K, _storage b3 = bytes_on_wire mi head ++ K).
  { apply (prefix_FlushBits _ b2 tt b3); [apply Hwf2| |done].
    by apply (keeps_bits_block bits (wf_bits _ _ _ _ Hwf) _ b1 tt b2). }
  destruct HK as [K HK].
  pose proof Hwf2 as (_ & Hp2 & _).
  set (n := Z.to_nat (_bitpos b2 `mod` 8)) in *.
  assert (Hn : (n < 8)%nat) by (unfold n; pose proof (Z.mod_pos_bound (_bitpos b2) 8); lia).
  rewrite HK, bits_of_app in Hst3. apply app_inv_head in Hst3 as HbK.
  assert (HzK : 8 * zlen K = zlen (bits_on_wire mi bits) + Z.of_nat n).
  { rewrite <- zlen_bits_of, HbK, zlen_app. unfold zlen at 2. by rewrite length_replicate. }
  exists K, n. split; [done|]. split; [done|].
  assert (Hs3 : size b3 = zlen (bytes_on_wire mi head) + zlen K)
    by (unfold size; rewrite HK, zlen_app; done).
  rewrite write_bytes_block; [|apply Hwf|done|done|lia].
  split; [|rewrite !zlen_app; lia]. f_equal.
  unfold appended, packet_of, at_end in *. destruct b3 as [rp wp bp cv st]. cbn in *.
  rewrite Hr2 in Hr3. cbn in Hr3. subst. f_equal; [|by rewrite <- app_assoc].
  unfold size in *. cbn in *. rewrite !zlen_app in *. lia.
Qed.
End Writer.
