(* ===== verification/MovementRead.v ===== *)
(** * Reading movement packets back

    The reader's side of [MovementWire.v]: what every element makes of the
    object and of the reader's locals when the packet was written from an
    object [mi], and the invariant that ties the locals to [mi] along a
    well-formed sequence. *)

From S2P Require Import Prelude Float32 ByteBuffer BitStream Wire Packet MovementTables Movement MovementKinds MovementWire.

(** ** What an element carries over *)

(** The object [dst], after an element written from [mi] was read into it. *)
Definition copy_kind (mi : MovementInfo) (k : kind) (dst : MovementInfo) : MovementInfo :=
  if all_present mi (guard_of k) then
    match k with
    | KSpline => dst <| hasSpline := hasSpline mi |>
    | KBits _ _ get put | KScalar _ _ get put => put (get mi) dst
    | _ => dst
    end
  else dst.

Definition copied (mi : MovementInfo) (es : list MovementStatusElements) (dst : MovementInfo) : MovementInfo :=
  foldl (fun d e => copy_kind mi (kind_of e) d) dst es.

(** The object [dst], after a packet of [sequence] written from [mi] was read
    into it: the fields of the elements that are present, and the GUIDs. *)
Definition carried (sequence : list MovementStatusElements) (mi dst : MovementInfo) : MovementInfo :=
  let body := until_end sequence in
  (copied mi body dst)
    <| guid := guid mi |>
    <| t_guid := if decide (MSEHasTransportData ∈ body) then t_guid mi else 0 |>.

(** The same for the whole state of a reader. *)
Definition body_step (mi : MovementInfo) (k : kind) (r : Reader) : Reader :=
  match k with
  | KIdBit t i => set_id t i (Z.b2z (negb (ObjectGuid_at (guid_of t mi) i =? 0))) r
  | KIdByte t i => set_id t i (ObjectGuid_at (guid_of t mi) i) r
  | KPresence _ h _ => set_flag h (present mi h) r
  | KSpline => r <| r_info ::= fun dst => dst <| hasSpline := hasSpline mi |> |>
  | KBits _ _ get put | KScalar _ _ get put => r <| r_info ::= put (get mi) |>
  | _ => r
  end.

Definition kind_step (mi : MovementInfo) (k : kind) (r : Reader) : Reader :=
  if all_present mi (guard_of k) then body_step mi k r else r.

(** ** The invariant *)

Definition id_expected (mi : MovementInfo) (done : list MovementStatusElements) (t : bool) (i : Z) : Z :=
  let x := ObjectGuid_at (guid_of t mi) i in
  if decide (byte_el t i ∈ done) then x
  else if decide (bit_el t i ∈ done) then Z.b2z (negb (x =? 0)) else 0.

Record knows (mi : MovementInfo) (done : list MovementStatusElements) (r : Reader) : Prop := {
  knows_flags : forall h, flag_of r h = bool_decide (h ∈ done) && present mi h;
  knows_length : forall t, length (id_of t r) = 8%nat;
  knows_ids : forall t i, 0 <= i < 8 -> nth (Z.to_nat i) (id_of t r) 0 = id_expected mi done t i;
  knows_closed : forall t i, 0 <= i < 8 -> byte_el t i ∈ done -> bit_el t i ∈ done
}.

Lemma knows_new mi data dst : knows mi [] (Reader_new data dst).
Proof.
  split.
  - by destruct h.
  - by destruct t.
  - intros t i Hi. unfold id_expected. rewrite !decide_False by set_solver.
    assert (Hr : id_of t (Reader_new data dst) = replicate 8 0) by by destruct t.
    rewrite Hr. assert (i = 0 \/ i = 1 \/ i = 2 \/ i = 3 \/ i = 4 \/ i = 5 \/ i = 6 \/ i = 7) as Hc by lia.
    by repeat destruct Hc as [->|Hc]; subst.
  - set_solver.
Qed.

(** ** Lemmas on single elements *)

Lemma knows_guard mi done r guard :
  knows mi done r -> (forall h, h ∈ guard -> h ∈ done) ->
  all_flags guard r = all_present mi guard.
Proof.
  intros Hk Hg. unfold all_flags, all_present. induction guard as [|h guard IH]; [done|]. cbn.
  rewrite (knows_flags _ _ _ Hk), IH by set_solver. rewrite bool_decide_true by set_solver. done.
Qed.

Lemma set_id_data t i x b r : set_id t i x (r <| r_data := b |>) = (set_id t i x r) <| r_data := b |>.
Proof. by destruct t. Qed.

Lemma set_flag_data h x b r : set_flag h x (r <| r_data := b |>) = (set_flag h x r) <| r_data := b |>.
Proof. by destruct h. Qed.

Lemma negate_negate neg x : negate neg (negate neg x) = x.
Proof. by destruct neg, x. Qed.

Lemma body_step_data mi k b r : body_step mi k (r <| r_data := b |>) = (body_step mi k r) <| r_data := b |>.
Proof. destruct k; try done; cbn [body_step]; [apply set_id_data..|apply set_flag_data]. Qed.

Lemma read_seq_ok `{Host} x b :
  in_width 8 x -> reads (seq_fmt x) b ->
  ReadByteSeq (Z.b2z (negb (x =? 0))) b = Ok x (advanced (zlen (seq_fmt x)) b).
Proof.
  intros Hx Hr. unfold ReadByteSeq, seq_fmt in *. destruct (Z.eqb_spec x 0) as [->|Hne];
    cbn [negb Z.b2z].
  - change (zlen (@nil Z)) with 0. by rewrite advanced_0.
  - zbool. cbn [negb]. run. rewrite (read_T_ok 1 _ _ Hr) by done. cbn [le_value]. do 2 f_equal.
    apply Z.bits_inj'. intros i Hi.
    rewrite Z.lxor_spec. replace (Z.lxor x 1 + 256 * 0) with (Z.lxor x 1) by lia.
    rewrite Z.lxor_spec. by destruct (Z.testbit x i), (Z.testbit 1 i).
Qed.

Lemma present_guard mi e neg h guard :
  kind_of e = KPresence neg h guard ->
  h = e /\ (all_present mi guard = false -> present mi h = false).
Proof.
  unfold all_present. intros Hk. destruct e; try done; injection Hk as <- <- <-; (split; [done|]); cbn;
    rewrite ?andb_true_r; try done; unfold w_hasFallDirection; by intros ->.
Qed.

Lemma flag_of_set h b r h' :
  flag_of (set_flag h b r) h' = if decide (h = h') then flag_of (set_flag h b r) h else flag_of r h'.
Proof. destruct (decide (h = h')) as [->|Hne]; [done|]. by destruct h, h'. Qed.

Lemma flag_of_set_id t i x r h : flag_of (set_id t i x r) h = flag_of r h.
Proof. by destruct t, h. Qed.

Lemma id_of_set_flag h b t r : id_of t (set_flag h b r) = id_of t r.
Proof. by destruct h, t. Qed.

Lemma id_of_set_id t i x t' r :
  id_of t' (set_id t i x r) = if bool_decide (t = t') then <[Z.to_nat i := x]> (id_of t' r) else id_of t' r.
Proof. by destruct t, t'. Qed.

Lemma present_set_flag e neg h guard b r :
  kind_of e = KPresence neg h guard -> flag_of (set_flag h b r) h = b.
Proof. intros Hk. destruct e; try done; by injection Hk as <- <- <-. Qed.

Lemma present_not_flag mi e h :
  (forall neg guard, kind_of e <> KPresence neg e guard) -> h = e -> present mi h = false.
Proof. intros Hk ->. destruct e; try done; by destruct (Hk _ _ eq_refl). Qed.

Lemma kind_bit_el t i e : kind_of e = KIdBit t i -> e = bit_el t i /\ 0 <= i < 8.
Proof. destruct e; try done; intros [= <- <-]; done. Qed.

Lemma kind_byte_el t i e : kind_of e = KIdByte t i -> e = byte_el t i /\ 0 <= i < 8.
Proof. destruct e; try done; intros [= <- <-]; done. Qed.

Lemma bit_el_kind t i : 0 <= i < 8 -> kind_of (bit_el t i) = KIdBit t i.
Proof.
  intros Hi.
  assert (i = 0 \/ i = 1 \/ i = 2 \/ i = 3 \/ i = 4 \/ i = 5 \/ i = 6 \/ i = 7) as Hc by lia.
  by destruct t; repeat destruct Hc as [->|Hc]; subst.
Qed.

Lemma byte_el_kind t i : 0 <= i < 8 -> kind_of (byte_el t i) = KIdByte t i.
Proof. intros Hi. by destruct (byte_el_in t i Hi). Qed.

Lemma bit_el_inj t i t' i' :
  0 <= i < 8 -> 0 <= i' < 8 -> bit_el t i = bit_el t' i' -> t = t' /\ i = i'.
Proof.
  intros Hi Hi' Heq. apply (f_equal kind_of) in Heq. rewrite !bit_el_kind in Heq by done.
  by injection Heq.
Qed.

Lemma byte_el_inj t i t' i' :
  0 <= i < 8 -> 0 <= i' < 8 -> byte_el t i = byte_el t' i' -> t = t' /\ i = i'.
Proof.
  intros Hi Hi' Heq. apply (f_equal kind_of) in Heq. rewrite !byte_el_kind in Heq by done.
  by injection Heq.
Qed.

Lemma bit_byte_el t i t' i' : 0 <= i < 8 -> 0 <= i' < 8 -> bit_el t i <> byte_el t' i'.
Proof.
  intros Hi Hi' Heq. apply (f_equal kind_of) in Heq.
  by rewrite bit_el_kind, byte_el_kind in Heq by done.
Qed.

(** An element of byte [i0] of one GUID is not one of another byte. *)
Lemma other_byte t0 i0 t i e :
  0 <= i0 < 8 -> 0 <= i < 8 -> e = bit_el t0 i0 \/ e = byte_el t0 i0 -> ~ (t0 = t /\ i0 = i) ->
  e <> bit_el t i /\ e <> byte_el t i.
Proof.
  intros Hi0 Hi [-> | ->] Hne; split; intros Heq.
  - by apply bit_el_inj in Heq.
  - by apply bit_byte_el in Heq.
  - symmetry in Heq. by apply bit_byte_el in Heq.
  - by apply byte_el_inj in Heq.
Qed.

Lemma length_body_step mi k t r : length (id_of t (body_step mi k r)) = length (id_of t r).
Proof.
  destruct k; cbn [body_step]; rewrite ?id_of_set_id, ?id_of_set_flag, ?id_of_info; try done.
  all: destruct (bool_decide _); [apply length_insert|done].
Qed.

Lemma eight_bytes (l : list Z) (f : Z -> Z) :
  length l = 8%nat -> (forall i, 0 <= i < 8 -> nth (Z.to_nat i) l 0 = f i) ->
  l = [f 0; f 1; f 2; f 3; f 4; f 5; f 6; f 7].
Proof.
  intros Hlen Hx.
  destruct l as [|x0 [|x1 [|x2 [|x3 [|x4 [|x5 [|x6 [|x7 [|]]]]]]]]]; try done.
  rewrite <- (Hx 0), <- (Hx 1), <- (Hx 2), <- (Hx 3), <- (Hx 4), <- (Hx 5), <- (Hx 6), <- (Hx 7) by lia.
  done.
Qed.

Lemma id_expected_zero mi done t i : guid_of t mi = 0 -> id_expected mi done t i = 0.
Proof.
  intros Hz. unfold id_expected, ObjectGuid_at. rewrite Hz, Z.shiftr_0_l.
  by repeat case_decide.
Qed.

Lemma absent_guid mi (t : bool) : all_present mi (if t then [MSEHasTransportData] else []) = false -> guid_of t mi = 0.
Proof.
  destruct t; [|done]. cbn. rewrite andb_true_r. intros Hn. apply negb_false_iff in Hn. by apply Z.eqb_eq.
Qed.

(** An element of another GUID byte, or of none, changes nothing for byte [i]. *)
Lemma id_expected_other mi done t i e :
  e <> bit_el t i -> e <> byte_el t i -> id_expected mi (e :: done) t i = id_expected mi done t i.
Proof.
  intros Hb Hy. unfold id_expected.
  rewrite (decide_ext (byte_el t i ∈ e :: done) (byte_el t i ∈ done)) by set_solver.
  by rewrite (decide_ext (bit_el t i ∈ e :: done) (bit_el t i ∈ done)) by set_solver.
Qed.

Lemma nth_insert (l : list Z) (i j : nat) x :
  (j < length l)%nat -> nth i (<[j := x]> l) 0 = if decide (i = j) then x else nth i l 0.
Proof.
  intros Hj. rewrite !nth_lookup. destruct (decide (i = j)) as [->|Hne].
  - by rewrite list_lookup_insert_eq.
  - by rewrite list_lookup_insert_ne by done.
Qed.

Lemma id_of_info (t : bool) g r : id_of t (r <| r_info ::= g |>) = id_of t r.
Proof. by destruct t. Qed.

(** The loop, on a sequence that ends in time. *)
Lemma Read_loop_body `{Host} body l n :
  MSEEnd ∉ body -> (length body < n)%nat ->
  forall r, Read_loop n (body ++ MSEEnd :: l) r = for_each body Read_element r.
Proof.
  revert n. induction body as [|e body IH]; intros n Hne Hn r; (destruct n as [|n]; [cbn in Hn; lia|]).
  - cbn. by case_decide.
  - cbn [app Read_loop for_each]. rewrite decide_False by set_solver.
    unfold mbind, M_bind. destruct (Read_element e r); [|done..].
    apply IH; [set_solver|cbn in Hn; lia].
Qed.

Section Reader.
Context `{Host}.
Context (mi : MovementInfo) (Hmi : info_ok mi).
#[local] Set Default Proof Using "All".

(** ** One element *)

Lemma get_bit_ok set x rest r :
  bit_rd_wf (r_data r) -> unread (r_data r) = x :: rest ->
  (forall b r', set x (r' <| r_data := b |>) = (set x r') <| r_data := b |>) ->
  exists b', get_bit set r = Ok tt ((set x r) <| r_data := b' |>) /\ bit_rd_wf b' /\
             unread b' = rest /\ _storage b' = _storage (r_data r).
Proof.
  intros Hwf Hun Hset. destruct (ReadBit_ok x rest (r_data r) Hwf Hun) as (b' & Hb' & Hrest).
  exists b'. split; [|done]. unfold get_bit, in_data. run. rewrite Hb'.
  f_equal. exact (Hset b' r).
Qed.

Lemma read_kind_bits k rest r :
  is_bits k = true -> kind_ok mi k ->
  all_flags (guard_of k) r = all_present mi (guard_of k) ->
  bit_rd_wf (r_data r) -> unread (r_data r) = kind_bits mi k ++ rest ->
  exists b', read_kind k r = Ok tt ((kind_step mi k r) <| r_data := b' |>) /\ bit_rd_wf b' /\
             unread b' = rest /\ _storage b' = _storage (r_data r).
Proof.
  intros Hk Hok Hg Hwf Hun. unfold read_kind, kind_bits, kind_step in *.
  rewrite guarded_run, Hg. destruct (all_present mi (guard_of k)); unfold when.
  2: { exists (r_data r). split_and!; try done. by destruct r. }
  destruct k; try done; cbn [read_body body_bits body_step] in *.
  - apply (get_bit_ok (fun b => set_id t i (Z.b2z b))); [done..|]. intros. apply set_id_data.
  - destruct (get_bit_ok (fun b => set_flag h (negate neg b)) (negate neg (present mi h)) rest r)
      as (b' & Hb' & Hrest); [done..|intros; apply set_flag_data|].
    exists b'. by rewrite negate_negate in Hb'.
  - by apply (get_bit_ok (fun b r => r <| r_info ::= fun dst => dst <| hasSpline := b |> |>) (hasSpline mi)).
  - destruct Hok as [Hn Hv].
    destruct (ReadBits_ok n (get mi) rest (r_data r)) as (b' & Hb' & Hrest); [lia|done|done|].
    exists b'. split; [|done]. unfold get_bits, in_data. run. rewrite Hb'.
    unfold in_width in Hv. by rewrite Z.mod_small.
  - by apply (get_bit_ok (fun _ r => r) (negb (bit =? 0))).
Qed.

Lemma read_kind_bytes k r :
  is_bytes k = true -> kind_ok mi k ->
  all_flags (guard_of k) r = all_present mi (guard_of k) ->
  (forall t i, k = KIdByte t i -> all_present mi (guard_of k) = true ->
     nth (Z.to_nat i) (id_of t r) 0 = Z.b2z (negb (ObjectGuid_at (guid_of t mi) i =? 0))) ->
  reads (kind_bytes mi k) (r_data r) ->
  read_kind k r = Ok tt ((kind_step mi k r)
                           <| r_data := advanced (zlen (kind_bytes mi k)) (r_data r) |>).
Proof.
  intros Hk Hok Hg Hid Hr. unfold read_kind, kind_bytes, kind_step in *.
  rewrite guarded_run, Hg. destruct (all_present mi (guard_of k)); unfold when.
  2: { change (zlen (@nil Z)) with 0. rewrite advanced_0. by destruct r. }
  destruct k; try done; cbn [read_body body_bytes body_step] in *.
  - rewrite <- set_id_data. unfold in_data. run. rewrite (Hid t i) by done.
    rewrite read_seq_ok by (done || apply byte_at). done.
  - unfold Movement.get, in_data. run.
    pose proof (lawful_in (c := scalar_codec t) (fmt := scalar_fmt t) (get mi) (r_data r) Hok Hr) as Hl.
    cbn [c_in scalar_codec] in Hl. by rewrite Hl.
Qed.

(** ** The invariant is kept *)

Lemma knows_flags_step done r e h :
  knows mi done r -> flag_of (kind_step mi (kind_of e) r) h = bool_decide (h ∈ e :: done) && present mi h.
Proof.
  intros Hk. pose proof (knows_flags _ _ _ Hk) as Hf. unfold kind_step.
  destruct (decide (h = e)) as [->|Hne].
  - rewrite (bool_decide_true (e ∈ e :: done)) by set_solver. cbn [andb].
    destruct (kind_of e) as [t i|t i|neg h' guard| |n guard get put|t guard get put|bit|] eqn:He;
      try (assert (Hp : present mi e = false)
             by (apply (present_not_flag mi e); [by intros ? ?; rewrite He|done]);
           rewrite Hp; destruct (all_present mi _); cbn [body_step];
           rewrite ?flag_of_set_id; try (by rewrite Hf, Hp, andb_false_r);
           assert (Hs : forall g, flag_of (r <| r_info ::= g |>) e = flag_of r e) by (by destruct e);
           by rewrite Hs, Hf, Hp, andb_false_r).
    destruct (present_guard mi _ _ _ _ He) as [-> Hpg]. cbn [guard_of body_step].
    destruct (all_present mi guard).
    + by apply (present_set_flag e neg e guard).
    + by rewrite Hf, Hpg, andb_false_r.
  - assert (Hd : bool_decide (h ∈ e :: done) = bool_decide (h ∈ done))
      by (apply bool_decide_ext; set_solver).
    rewrite Hd, <- Hf. destruct (all_present mi _); [|done].
    destruct (kind_of e) as [t i|t i|neg h' guard| |n guard get put|t guard get put|bit|] eqn:He;
      cbn [body_step]; rewrite ?flag_of_set_id; try done; try (by destruct h).
    destruct (present_guard mi _ _ _ _ He) as [-> _]. by rewrite flag_of_set, decide_False by done.
Qed.

(** Storing the value byte [i] of one GUID should have. *)
Lemma knows_ids_set done r t0 i0 e x :
  knows mi done r -> 0 <= i0 < 8 -> e = bit_el t0 i0 \/ e = byte_el t0 i0 ->
  x = id_expected mi (e :: done) t0 i0 ->
  forall t i, 0 <= i < 8 ->
    nth (Z.to_nat i) (id_of t (set_id t0 i0 x r)) 0 = id_expected mi (e :: done) t i.
Proof.
  intros Hk Hi0 He -> t i Hi. rewrite id_of_set_id.
  pose proof (knows_length _ _ _ Hk t) as Hlen.
  destruct (decide (t0 = t /\ i0 = i)) as [[-> ->]|Hne].
  - rewrite bool_decide_true by done. rewrite nth_insert by lia. by rewrite decide_True by lia.
  - destruct (other_byte t0 i0 t i e Hi0 Hi He Hne) as [Hb Hy].
    rewrite (id_expected_other mi done t i e), <- (knows_ids _ _ _ Hk t i) by done.
    destruct (decide (t0 = t)) as [->|]; [|by rewrite bool_decide_false].
    rewrite bool_decide_true, nth_insert by (done || lia). rewrite decide_False; [done|].
    intros Heq. apply Hne. split; [done|lia].
Qed.

Lemma knows_step done r e l :
  knows mi done r -> ordered done (e :: l) = true -> knows mi (e :: done) (kind_step mi (kind_of e) r).
Proof.
  intros Hk Hord. cbn [ordered] in Hord. rewrite !andb_true_iff, orb_true_iff in Hord.
  destruct Hord as [[Hdeps Hfresh] _].
  split.
  - intros h. by apply knows_flags_step.
  - intros t. pose proof (knows_length _ _ _ Hk t) as Hl. unfold kind_step.
    destruct (all_present _ _); [by rewrite length_body_step|done].
  - destruct (kind_of e) as [t0 i0|t0 i0|neg h' guard| |n guard get put|ty guard get put|bit|] eqn:He.
    3-8: intros t i Hi; rewrite id_expected_other
           by (intros ->; rewrite ?bit_el_kind, ?byte_el_kind in He by done; done);
         rewrite <- (knows_ids _ _ _ Hk) by done; unfold kind_step; destruct (all_present _ _);
         cbn [body_step]; by rewrite ?id_of_set_flag, ?id_of_info.
    + destruct (kind_bit_el _ _ _ He) as [-> Hi0]. unfold kind_step. cbn [guard_of].
      destruct (all_present mi _) eqn:Hp; cbn [body_step].
      * apply knows_ids_set; [done|done|by left|]. unfold id_expected.
        rewrite decide_False, decide_True; [done|set_solver|].
        destruct Hfresh as [Hc|Hf%negb_true_iff%bool_decide_eq_false]; [done|].
        pose proof (knows_closed _ _ _ Hk t0 i0 Hi0). intros [Heq|Hin]%elem_of_cons; [|tauto].
        symmetry in Heq. by apply bit_byte_el in Heq.
      * intros t i Hi. rewrite (knows_ids _ _ _ Hk) by done.
        destruct (decide (t = t0)) as [->|].
        -- by rewrite !id_expected_zero by by apply absent_guid.
        -- destruct (other_byte t0 i0 t i (bit_el t0 i0)) as [Hb Hy]; [done|done|by left|naive_solver|].
           by rewrite id_expected_other.
    + destruct (kind_byte_el _ _ _ He) as [-> Hi0]. unfold kind_step. cbn [guard_of].
      destruct (all_present mi _) eqn:Hp; cbn [body_step].
      * apply knows_ids_set; [done|done|by right|]. unfold id_expected.
        by rewrite decide_True by set_solver.
      * intros t i Hi. rewrite (knows_ids _ _ _ Hk) by done.
        destruct (decide (t = t0)) as [->|].
        -- by rewrite !id_expected_zero by by apply absent_guid.
        -- destruct (other_byte t0 i0 t i (byte_el t0 i0)) as [Hb Hy]; [done|done|by right|naive_solver|].
           by rewrite id_expected_other.
  - intros t i Hi [Heq|Hin]%elem_of_cons; [|right; by apply (knows_closed _ _ _ Hk)].
    rewrite <- Heq in Hdeps. rewrite forallb_forall in Hdeps.
    assert (Hb : bool_decide (bit_el t i ∈ done) = true).
    { apply Hdeps. unfold deps. rewrite byte_el_kind by done. apply in_app_iff. right. by left. }
    apply bool_decide_eq_true in Hb. set_solver.
Qed.

(** ** Sequences *)

Definition steps (es : list MovementStatusElements) (r : Reader) : Reader :=
  foldl (fun r e => kind_step mi (kind_of e) r) r es.

Lemma kind_step_data k b r : kind_step mi k (r <| r_data := b |>) = (kind_step mi k r) <| r_data := b |>.
Proof. unfold kind_step. destruct (all_present _ _); [apply body_step_data|done]. Qed.

Lemma steps_data es b r : steps es (r <| r_data := b |>) = (steps es r) <| r_data := b |>.
Proof.
  revert r. induction es as [|e es IH]; intros r; [done|].
  unfold steps in *. cbn [foldl]. by rewrite kind_step_data, IH.
Qed.

Lemma steps_app es1 es2 r : steps (es1 ++ es2) r = steps es2 (steps es1 r).
Proof. unfold steps. apply foldl_app. Qed.

Lemma kind_step_info k r : r_info (kind_step mi k r) = copy_kind mi k (r_info r).
Proof.
  unfold kind_step, copy_kind. destruct (all_present _ _); [|done].
  destruct k; try done; cbn [body_step]; [by destruct t|by destruct t|by destruct h].
Qed.

Lemma steps_info es r : r_info (steps es r) = copied mi es (r_info r).
Proof.
  revert r. induction es as [|e es IH]; intros r; [done|].
  unfold steps, copied in *. cbn [foldl]. by rewrite IH, kind_step_info.
Qed.

Lemma knows_data done b r : knows mi done (r <| r_data := b |>) <-> knows mi done r.
Proof.
  split; intros [Hf Hl Hi Hc]; (split; [intros h; rewrite <- Hf; by destruct h
    |intros t; rewrite <- (Hl t); by destruct t|intros t i ?; rewrite <- Hi by done; by destruct t|done]).
Qed.

Lemma ordered_guard done e l r :
  knows mi done r -> ordered done (e :: l) = true ->
  all_flags (guard_of (kind_of e)) r = all_present mi (guard_of (kind_of e)).
Proof.
  intros Hk Hord. apply (knows_guard mi done); [done|]. intros h Hh.
  cbn [ordered] in Hord. rewrite !andb_true_iff in Hord. destruct Hord as [[Hdeps _] _].
  rewrite forallb_forall in Hdeps.
  assert (Hb : bool_decide (h ∈ done) = true)
    by (apply Hdeps; unfold deps; apply in_app_iff; left; by apply list_elem_of_In).
  by apply bool_decide_eq_true in Hb.
Qed.

Lemma ordered_tail done e l : ordered done (e :: l) = true -> ordered (e :: done) l = true.
Proof. cbn [ordered]. rewrite !andb_true_iff. tauto. Qed.

Lemma read_bits_seq es l2 rest done r :
  knows mi done r -> ordered done (es ++ l2) = true ->
  (forall e, e ∈ es -> is_bits (kind_of e) = true) ->
  bit_rd_wf (r_data r) -> unread (r_data r) = bits_on_wire mi es ++ rest ->
  exists b', for_each es Read_element r = Ok tt ((steps es r) <| r_data := b' |>) /\
    bit_rd_wf b' /\ unread b' = rest /\ _storage b' = _storage (r_data r) /\
    knows mi (rev es ++ done) (steps es r) /\ ordered (rev es ++ done) l2 = true.
Proof.
  revert done r. induction es as [|e es IH]; intros done r Hk Hord Hes Hwf Hun.
  - exists (r_data r). split_and!; try done. by destruct r.
  - unfold bits_on_wire in Hun. cbn [map concat for_each app] in *. rewrite <- app_assoc in Hun.
    destruct (read_kind_bits (kind_of e) (bits_on_wire mi es ++ rest) r)
      as (b1 & Hb1 & Hwf1 & Hun1 & Hst1);
      [apply Hes; set_solver|by apply kind_of_ok|by eapply ordered_guard|done|done|].
    pose proof (knows_step done r e _ Hk Hord) as Hk1.
    destruct (IH (e :: done) ((kind_step mi (kind_of e) r) <| r_data := b1 |>))
      as (b' & Hb' & Hwf' & Hun' & Hst' & Hk' & Hord');
      [by apply knows_data|by apply ordered_tail|set_solver|done|done|].
    exists b'. unfold mbind, M_bind. rewrite Read_element_kind, Hb1, Hb', steps_data.
    split; [done|]. split; [done|]. split; [done|]. split; [by rewrite Hst', <- Hst1|].
    cbn [rev]. rewrite <- app_assoc. split; [|done].
    rewrite steps_data in Hk'. by apply knows_data in Hk'.
Qed.

Lemma read_bytes_seq es l2 done r :
  knows mi done r -> ordered done (es ++ l2) = true ->
  (forall e, e ∈ es -> is_bytes (kind_of e) = true) ->
  reads (bytes_on_wire mi es) (r_data r) ->
  for_each es Read_element r
  = Ok tt ((steps es r) <| r_data := advanced (zlen (bytes_on_wire mi es)) (r_data r) |>) /\
  knows mi (rev es ++ done) (steps es r) /\ ordered (rev es ++ done) l2 = true.
Proof.
  revert done r. induction es as [|e es IH]; intros done r Hk Hord Hes Hr.
  - split; [|done]. change (zlen (bytes_on_wire mi [])) with 0. rewrite advanced_0. by destruct r.
  - unfold bytes_on_wire in *. cbn [map concat for_each app] in *. apply reads_app in Hr as [Hr1 Hr2].
    pose proof (ordered_guard done e _ r Hk Hord) as Hg.
    assert (Hrun : read_kind (kind_of e) r = Ok tt ((kind_step mi (kind_of e) r)
              <| r_data := advanced (zlen (kind_bytes mi (kind_of e))) (r_data r) |>)).
    { apply read_kind_bytes; [apply Hes; set_solver|by apply kind_of_ok|done| |done].
      intros t i He Hp. destruct (kind_byte_el _ _ _ He) as [-> Hi].
      rewrite (knows_ids _ _ _ Hk) by done. unfold id_expected.
      cbn [ordered] in Hord. rewrite !andb_true_iff, orb_true_iff, He in Hord.
      destruct Hord as [[Hdeps [Hc|Hf%negb_true_iff%bool_decide_eq_false]] _]; [done|].
      rewrite decide_False, decide_True; [done| |done].
      rewrite forallb_forall in Hdeps.
      assert (Hb : bool_decide (bit_el t i ∈ done) = true).
      { apply Hdeps. unfold deps. rewrite byte_el_kind by done. apply in_app_iff. right. by left. }
      by apply bool_decide_eq_true in Hb. }
    destruct (IH (e :: done) ((kind_step mi (kind_of e) r)
                <| r_data := advanced (zlen (kind_bytes mi (kind_of e))) (r_data r) |>))
      as (Hb' & Hk' & Hord');
      [apply knows_data; by eapply knows_step|by apply ordered_tail|set_solver|done|].
    unfold mbind, M_bind. rewrite Read_element_kind, Hrun, Hb'. rewrite steps_data in *.
    split; [|split; [|cbn [rev]; by rewrite <- app_assoc]].
    + cbn [r_data set_field]. rewrite zlen_app. by rewrite <- advanced_advanced.
    + cbn [rev]. rewrite <- app_assoc. by apply knows_data in Hk'.
Qed.

(** ** The GUIDs at the end *)

Lemma guid_read done r t :
  knows mi done r -> (forall e, e ∈ id_bytes t -> e ∈ done) -> le_value (id_of t r) = guid_of t mi.
Proof.
  intros Hk Hin.
  assert (Hx : forall i, 0 <= i < 8 -> nth (Z.to_nat i) (id_of t r) 0 = ObjectGuid_at (guid_of t mi) i).
  { intros i Hi. rewrite (knows_ids _ _ _ Hk) by done. unfold id_expected.
    rewrite decide_True; [done|]. by apply Hin, byte_el_in. }
  rewrite <- (guid_of_bytes (guid_of t mi)) by (destruct t; apply Hmi).
  rewrite le_bytes_8. f_equal. by apply eight_bytes; [apply (knows_length _ _ _ Hk)|].
Qed.

Lemma ordered_deps done l e d :
  ordered done l = true -> e ∈ l -> d ∈ deps e -> d ∈ done \/ d ∈ l.
Proof.
  revert done. induction l as [|x l IH]; intros done Hord He Hd; [set_solver|].
  pose proof (ordered_tail _ _ _ Hord) as Ht. cbn [ordered] in Hord.
  rewrite !andb_true_iff in Hord. destruct Hord as [[Hdeps _] _].
  apply elem_of_cons in He as [->|He].
  - rewrite forallb_forall in Hdeps. left.
    by apply (bool_decide_eq_true (d ∈ done)), Hdeps, list_elem_of_In.
  - destruct (IH _ Ht He Hd); set_solver.
Qed.

(** Without the transport's presence bit none of its bytes is read. *)
Lemma no_transport l r :
  knows mi (rev l) r -> ordered [] l = true -> MSEHasTransportData ∉ l -> le_value (r_tid r) = 0.
Proof.
  intros Hk Hord Hno.
  assert (Hx : forall i, 0 <= i < 8 -> nth (Z.to_nat i) (r_tid r) 0 = 0).
  { intros i Hi. rewrite (knows_ids _ _ _ Hk true) by done. unfold id_expected.
    assert (Hn : forall e, kind_of e = KIdBit true i \/ kind_of e = KIdByte true i -> e ∉ rev l).
    { intros e He Hin. rewrite list_elem_of_In, <- in_rev, <- list_elem_of_In in Hin.
      destruct (ordered_deps [] l e MSEHasTransportData Hord Hin); [|set_solver|done].
      unfold deps. destruct He as [-> | ->]; cbn; set_solver. }
    rewrite !decide_False; [done|apply Hn; left; by apply bit_el_kind|apply Hn; right; by apply byte_el_kind]. }
  change (r_tid r) with (id_of true r) in *.
  by rewrite (eight_bytes _ (fun _ => 0) (knows_length _ _ _ Hk true) Hx).
Qed.

Lemma until_end_app body l : MSEEnd ∉ body -> until_end (body ++ MSEEnd :: l) = body.
Proof.
  induction body as [|e body IH]; intros Hne; cbn; [done|].
  rewrite decide_False by set_solver. rewrite IH; set_solver.
Qed.

(** Reading the three blocks. *)
Lemma read_sequence_ok sequence head bits tail K n dst :
  wf_blocks sequence head bits tail ->
  bits_of K = bits_on_wire mi bits ++ replicate n false -> (n < 8)%nat ->
  let bytes := bytes_on_wire mi head ++ K ++ bytes_on_wire mi tail in
  zlen bytes < 10000 ->
  exists r, Read_sequence sequence (Reader_new (buffer (packet_of 0 bytes)) dst) = Ok tt r /\
            r_info r = carried sequence mi dst /\ _rpos (r_data r) = zlen bytes /\
            _storage (r_data r) = bytes.
Proof.
  intros Hwf HK Hn bytes Hlen. destruct (wf_split _ _ _ _ Hwf) as [l' Hs].
  set (b0 := buffer (packet_of 0 bytes)).
  pose proof (wf_ordered _ _ _ _ Hwf) as Hord.
  assert (Hr0 : reads (bytes_on_wire mi head) b0).
  { exists [], (K ++ bytes_on_wire mi tail). split_and!; [done|done|]. unfold size, b0. cbn. lia. }
  destruct (read_bytes_seq head (bits ++ tail) [] (Reader_new b0 dst)) as (Hrun1 & Hk1 & Hord1);
    [apply knows_new|done|apply Hwf|done|].
  cbn [r_data Reader_new] in Hrun1.
  set (b1 := advanced _ b0) in Hrun1.
  assert (Hb1 : bit_rd_wf b1).
  { unfold bit_rd_wf, b1, b0, size. cbn. unfold bytes in *. rewrite !zlen_app in *. zlen_pos. lia. }
  assert (Hun1 : unread b1 = bits_on_wire mi bits ++ replicate n false ++ bits_of (bytes_on_wire mi tail)).
  { unfold unread, b1, b0. cbn [_bitpos _curbitval _rpos _storage advanced set_field packet_of buffer].
    rewrite drop_ge by (rewrite length_bits_msb; cbn; lia). cbn [app].
    replace (Z.to_nat _) with (length (bytes_on_wire mi head)) by (unfold zlen; lia).
    unfold bytes. rewrite drop_app_length, bits_of_app, HK. by rewrite <- app_assoc. }
  destruct (read_bits_seq bits tail (replicate n false ++ bits_of (bytes_on_wire mi tail)) (rev head ++ [])
              ((steps head (Reader_new b0 dst)) <| r_data := b1 |>))
    as (b2 & Hrun2 & Hb2 & Hun2 & Hst2 & Hk2 & Hord2);
    [by apply knows_data|done|apply Hwf|done|done|].
  cbn [r_data set_field] in Hst2.
  assert (Hr2 : reads (bytes_on_wire mi tail) b2 /\ _rpos b2 = zlen (bytes_on_wire mi head ++ K)).
  { apply (unread_reads (bytes_on_wire mi head ++ K) _ n); [done..|].
    rewrite Hst2. unfold b1, b0, bytes. cbn. by rewrite app_assoc. }
  destruct Hr2 as [Hr2 Hrp2]. rewrite zlen_app in Hrp2.
  rewrite steps_data, <- steps_app in Hrun2, Hk2.
  destruct (read_bytes_seq tail [] (rev bits ++ rev head ++ [])
              ((steps (head ++ bits) (Reader_new b0 dst)) <| r_data := b2 |>)) as (Hrun3 & Hk3 & _);
    [apply knows_data in Hk2; by apply (knows_data _ b2)|by rewrite (app_nil_r tail)|apply Hwf|done|].
  rewrite steps_data, <- steps_app, <- app_assoc in Hrun3, Hk3.
  cbn [r_data set_field] in Hrun3.
  set (r := steps (head ++ bits ++ tail) (Reader_new b0 dst)) in *.
  assert (Hloop : Read_loop MSE_iterations sequence (Reader_new b0 dst)
    = Ok tt (r <| r_data := advanced (zlen (bytes_on_wire mi tail)) b2 |>)).
  { rewrite Hs, Read_loop_body by apply Hwf. rewrite for_each_app. unfold mbind, M_bind.
    rewrite Hrun1, for_each_app. unfold mbind, M_bind. rewrite Hrun2. exact Hrun3. }
  assert (Hk : knows mi (rev (head ++ bits ++ tail)) r).
  { apply knows_data in Hk3. rewrite !rev_app_distr. by rewrite app_nil_r, <- app_assoc in *. }
  assert (Hinfo : r_info r = copied mi (head ++ bits ++ tail) dst) by apply steps_info.
  assert (Hid : le_value (r_id r) = guid mi).
  { apply (guid_read _ r false Hk). intros e He%(wf_guid _ _ _ _ Hwf).
    rewrite list_elem_of_In, <- in_rev, <- list_elem_of_In.
    rewrite !elem_of_app. tauto. }
  assert (Htid : le_value (r_tid r) =
    if decide (MSEHasTransportData ∈ head ++ bits ++ tail) then t_guid mi else 0).
  { case_decide as Hin; [|by apply (no_transport _ r Hk)].
    apply (guid_read _ r true Hk). intros e He%(wf_t_guid _ _ _ _ Hwf Hin).
    by rewrite list_elem_of_In, <- in_rev, <- list_elem_of_In. }
  unfold Read_sequence, mbind, M_bind. rewrite Hloop. clearbody r.
  eexists. split; [done|]. split; [|split].
  - unfold carried. rewrite Hs, until_end_app by apply Hwf.
    rewrite <- Hinfo, <- Hid, <- Htid. done.
  - cbn. rewrite Hrp2. unfold bytes. rewrite !zlen_app. lia.
  - cbn. by rewrite Hst2.
Qed.
End Reader.
