(* ===== verification/MovementEquiv.v ===== *)
(** * The hand-written movement routines

    [Write_SMSG_PLAYER_MOVE] and [Read_CMSG_MOVE_NOT_ACTIVE_MOVER] repeat, with
    their guards grouped, what the interpreters do with the tables of the two
    opcodes.  Computations are compared by [meq], equality on every state. *)

From Stdlib Require Import Setoid Morphisms.
From S2P Require Import Prelude Float32 ByteBuffer BitStream Wire WireProps Packet MovementTables Movement.
From S2P Require Import MovementKinds MovementWire MovementRead.

(** ** Equality of computations *)

Section Equality.
Context {S E : Type}.

Definition meq {A} (m1 m2 : M S E A) : Prop := forall s, m1 s = m2 s.

#[export] Instance meq_equiv A : Equivalence (@meq A).
Proof. split; [done|by intros ? ? Heq s|intros ? ? ? H1 H2 s; by rewrite H1]. Qed.

#[export] Instance bind_proper A B :
  Proper (@meq A ==> pointwise_relation A (@meq B) ==> @meq B) (fun m f => m ≫= f).
Proof.
  intros m1 m2 Hm f1 f2 Hf s. unfold mbind, M_bind. rewrite Hm.
  destruct (m2 s); [apply Hf|done..].
Qed.

#[export] Instance when_proper b : Proper (@meq unit ==> @meq unit) (when b).
Proof. intros m1 m2 Hm s. destruct b; [apply Hm|done]. Qed.

Lemma seq_meq {A B} (m1 m2 : M S E A) (k1 k2 : M S E B) :
  meq m1 m2 -> meq k1 k2 -> meq (m1;; k1) (m2;; k2).
Proof. intros Hm Hk. apply bind_proper; [done|by intros _]. Qed.

Lemma seq_assoc {A B C} (m1 : M S E A) (m2 : M S E B) (m3 : M S E C) :
  meq ((m1;; m2);; m3) (m1;; m2;; m3).
Proof. intros s. unfold mbind, M_bind. by destruct (m1 s). Qed.

Lemma ret_seq {A B} (a : A) (m : M S E B) : meq (mret a;; m) m.
Proof. done. Qed.

Lemma seq_ret (m : M S E unit) : meq (m;; mret tt) m.
Proof. intros s. unfold mbind, M_bind. by destruct (m s) as [[] s'| |]. Qed.

(** A guarded block is its statements, guarded one by one. *)
Lemma when_seq b (m1 m2 : M S E unit) : meq (when b (m1;; m2)) (when b m1;; when b m2).
Proof. by destruct b. Qed.

(** A loop, with what comes after it. *)
Fixpoint each_then {A} (l : list A) (f : A -> M S E unit) (k : M S E unit) : M S E unit :=
  match l with [] => k | x :: l' => f x;; each_then l' f k end.

Lemma for_each_then {A} (l : list A) (f : A -> M S E unit) k :
  meq (for_each l f;; k) (each_then l f k).
Proof.
  induction l as [|x l IH]; [apply ret_seq|]. cbn [for_each each_then].
  etransitivity; [apply seq_assoc|]. by apply seq_meq.
Qed.

Lemma when_when b c (m : M S E unit) : when b (when c m) = when (b && c) m.
Proof. by destruct b. Qed.
End Equality.

(** Flatten the first statement of the left-hand side. *)
Ltac head_first :=
  repeat lazymatch goal with
  | |- meq ((_ ≫= _) ≫= _) _ => etransitivity; [apply seq_assoc|]
  | |- meq (when _ (_ ≫= _) ≫= _) _ => etransitivity; [apply seq_meq; [apply when_seq|reflexivity]|]
  | |- meq (when _ (when _ _) ≫= _) _ => rewrite when_when
  end.

(** Match the statements of the two sides one by one. *)
Ltac lockstep :=
  repeat (head_first; apply seq_meq; [reflexivity|]);
  try (symmetry; etransitivity; [apply seq_ret|]; reflexivity).

(** ** Writing *)

Section Writers.
Context `{Host}.
Context (mi : MovementInfo).

Lemma player_move_statements :
  meq (Write_SMSG_PLAYER_MOVE mi) (for_each (until_end PlayerMoveSequence) (Write_element mi)).
Proof.
  unfold until_end, PlayerMoveSequence. repeat rewrite decide_False by done.
  rewrite decide_True by done. cbn [for_each]. unfold Write_element. element_range.
  unfold Write_SMSG_PLAYER_MOVE. lockstep.
Qed.
End Writers.

(** The writer made by hand for [SMSG_PLAYER_MOVE] and the interpreter on
    the table of that opcode write the same packet: whatever the movement and
    the state of the packet, [WriteToPacket] does what [Write_OLD] would. *)
Theorem player_move_is_table `{Host} (mi : MovementInfo) (data : WorldPacket) :
  WriteToPacket mi (data <| m_opcode := SMSG_PLAYER_MOVE |>)
  = Write_OLD mi (data <| m_opcode := SMSG_PLAYER_MOVE |>).
Proof.
  unfold WriteToPacket, Write_OLD, GetOpcode, gets, mbind, M_bind. cbn [m_opcode set_field].
  rewrite Z.eqb_refl.
  assert (Hs : GetMovementStatusElementsSequence SMSG_PLAYER_MOVE
               = Some (until_end PlayerMoveSequence ++ [MSEEnd])) by by vm_compute.
  rewrite Hs. unfold lift. cbn [buffer set_field].
  rewrite player_move_statements, Write_loop_body; [done|apply until_end_no_end|].
  by apply (bool_decide_unpack _); vm_compute.
Qed.

(** ** Reading *)

Section Readers.
Context `{Host}.

(** The flag [F] outlives the statement [m]. *)
Definition keeps_flag (F : Reader -> bool) (m : RM unit) : Prop :=
  forall r a r', m r = Ok a r' -> F r' = F r.

Lemma guarded_seq F m1 m2 :
  keeps_flag F m1 -> meq (guarded F (m1;; m2)) (guarded F m1;; guarded F m2).
Proof.
  intros Hk r. unfold guarded, when. run. destruct (F r) eqn:Hf; [|by rewrite Hf].
  destruct (m1 r) as [[] r'| |] eqn:Hm; [|done..]. by rewrite (Hk _ _ _ Hm), Hf.
Qed.

Lemma guarded_guarded F G m :
  meq (guarded F (guarded G m)) (guarded (fun r => F r && G r) m).
Proof. intros r. unfold guarded, when. run. by destruct (F r). Qed.

Lemma keeps_get_bit F set :
  (forall b r, F (set b r) = F r) -> (forall b r, F (r <| r_data := b |>) = F r) ->
  keeps_flag F (get_bit set).
Proof.
  intros Hs Hd r a r'. unfold get_bit, in_data, mbind, M_bind.
  destruct (ReadBit (r_data r)) as [b s| |]; [|done..]. intros [= <- <-].
  exact (eq_trans (Hs b (r <| r_data := s |>)) (Hd s r)).
Qed.

Lemma keeps_get F t set :
  (forall g r, F (r <| r_info ::= g |>) = F r) -> (forall b r, F (r <| r_data := b |>) = F r) ->
  keeps_flag F (get t set).
Proof.
  intros Hs Hd r a r'. unfold get, in_data, mbind, M_bind.
  destruct (inn t (r_data r)) as [v s| |]; [|done..]. intros [= <- <-].
  exact (eq_trans (Hs (set v) (r <| r_data := s |>)) (Hd s r)).
Qed.

Lemma keeps_tid_byte F i :
  (forall g r, F (r <| r_tid ::= g |>) = F r) -> (forall b r, F (r <| r_data := b |>) = F r) ->
  keeps_flag F (tid_byte i).
Proof.
  intros Hs Hd r a r'. unfold tid_byte, in_data, getS, mbind, M_bind.
  destruct (ReadByteSeq _ (r_data r)) as [x s| |]; [|done..]. intros [= <- <-].
  exact (eq_trans (Hs <[Z.to_nat i := x]> (r <| r_data := s |>)) (Hd s r)).
Qed.

Lemma keeps_guarded F G m : keeps_flag F m -> keeps_flag F (guarded G m).
Proof.
  intros Hk r a r'. unfold guarded, when. run. destruct (G r); [apply Hk|by intros [= <- <-]].
Qed.

Lemma keeps_seq F m1 m2 : keeps_flag F m1 -> keeps_flag F m2 -> keeps_flag F (m1;; m2).
Proof.
  intros H1 H2 r a r'. unfold mbind, M_bind. destruct (m1 r) as [x r1| |] eqn:Hm; [|done..].
  intros Hm2. by rewrite (H2 _ _ _ Hm2), (H1 _ _ _ Hm).
Qed.

(** The orientations as [SetOrientation] leaves them. *)
Definition normalized (mi : MovementInfo) : MovementInfo :=
  mi <| pos ::= fun p => SetOrientation (m_orientation p) p |>
     <| t_pos ::= fun p => SetOrientation (m_orientation p) p |>.

Definition norm_reader (r : Reader) : Reader := r <| r_info ::= normalized |>.

Definition map_result {S E A} (f : S -> S) (x : result S E A) : result S E A :=
  match x with Ok a s => Ok a (f s) | Throw e s => Throw e (f s) | Abort r => Abort r end.

(** [m2], from a normalised object, does what [m1] does, normalised. *)
Definition tracks (m1 m2 : RM unit) : Prop :=
  forall r, m2 (norm_reader r) = map_result norm_reader (m1 r).

Lemma tracks_meq m1 m1' m2 : meq m1 m1' -> tracks m1' m2 -> tracks m1 m2.
Proof. intros Heq Ht r. by rewrite Heq. Qed.

Lemma tracks_seq m1 m2 k1 k2 : tracks m1 m2 -> tracks k1 k2 -> tracks (m1;; k1) (m2;; k2).
Proof.
  intros Hm Hk r. unfold mbind, M_bind. rewrite Hm. destruct (m1 r); [|done..]. apply Hk.
Qed.

Lemma tracks_guarded F m1 m2 :
  (forall r, F (norm_reader r) = F r) -> tracks m1 m2 -> tracks (guarded F m1) (guarded F m2).
Proof. intros Hf Ht r. unfold guarded, when. run. rewrite Hf. destruct (F r); [apply Ht|done]. Qed.

Lemma tracks_get_bit set :
  (forall b r, set b (norm_reader r) = norm_reader (set b r)) -> tracks (get_bit set) (get_bit set).
Proof.
  intros Hs r. unfold get_bit, in_data, mbind, M_bind, modify. cbn [r_data norm_reader set_field].
  destruct (ReadBit (r_data r)) as [b b'| |]; [|done..]. cbn [map_result].
  by rewrite <- Hs.
Qed.

Lemma tracks_get t set set' :
  (forall v mi, set' v (normalized mi) = normalized (set v mi)) -> tracks (get t set) (get t set').
Proof.
  intros Hs r. unfold get, in_data, mbind, M_bind, modify. cbn [r_data norm_reader set_field].
  destruct (inn t (r_data r)) as [v b'| |]; [|done..]. cbn. by rewrite Hs.
Qed.

Lemma tracks_get_float set set' :
  (forall v mi, set' v (normalized mi) = normalized (set v mi)) ->
  tracks (get TFloat set) (get_float set').
Proof. intros Hs r. rewrite get_float_get. by apply tracks_get. Qed.

Lemma tracks_get_bits n set :
  (forall v mi, set v (normalized mi) = normalized (set v mi)) -> tracks (get_bits n set) (get_bits n set).
Proof.
  intros Hs r. unfold get_bits, in_data, mbind, M_bind, modify. cbn [r_data norm_reader set_field].
  destruct (ReadBits n (r_data r)) as [v b'| |]; [|done..]. cbn. by rewrite Hs.
Qed.

Lemma tracks_id_byte i : tracks (id_byte i) (id_byte i).
Proof.
  intros r. unfold id_byte, in_data, getS, mbind, M_bind, modify. cbn [r_data r_id norm_reader set_field].
  by destruct (ReadByteSeq _ (r_data r)).
Qed.

Lemma tracks_tid_byte i : tracks (tid_byte i) (tid_byte i).
Proof.
  intros r. unfold tid_byte, in_data, getS, mbind, M_bind, modify. cbn [r_data r_tid norm_reader set_field].
  by destruct (ReadByteSeq _ (r_data r)).
Qed.
End Readers.

Ltac solve_keeps :=
  repeat first
    [ apply keeps_seq | apply keeps_guarded | apply keeps_get; done | apply keeps_tid_byte; done
    | apply keeps_get_bit; done ].

Ltac head_first_read :=
  repeat lazymatch goal with
  | |- tracks ((_ ≫= _) ≫= _) _ => eapply tracks_meq; [apply seq_assoc|]
  | |- tracks (guarded _ (_ ≫= _) ≫= _) _ =>
      eapply tracks_meq; [apply seq_meq; [apply guarded_seq; solve_keeps|reflexivity]|]
  | |- tracks (guarded _ (guarded _ _) ≫= _) _ =>
      eapply tracks_meq; [apply seq_meq; [apply guarded_guarded|reflexivity]|]
  end.

Ltac solve_tracks :=
  try (apply tracks_guarded; [done|]);
  first [ apply tracks_id_byte | apply tracks_tid_byte | apply tracks_get_bit; done
        | apply tracks_get; done | apply tracks_get_float; done | apply tracks_get_bits; done ].

Lemma not_active_mover_statements `{Host} :
  tracks Read_CMSG_MOVE_NOT_ACTIVE_MOVER
    (each_then (until_end MoveNotActiveMover) Read_element store_guids).
Proof.
  unfold until_end, MoveNotActiveMover. repeat rewrite decide_False by done.
  rewrite decide_True by done. cbn [each_then]. unfold Read_element. element_range.
  unfold Read_CMSG_MOVE_NOT_ACTIVE_MOVER.
  repeat (head_first_read; apply tracks_seq; [solve_tracks|]).
  by intros r.
Qed.

(** The reader made by hand for [CMSG_MOVE_NOT_ACTIVE_MOVER] and the
    interpreter on the table of that opcode read the same fields from every
    packet, complete or not: on an object without orientations yet, they end
    alike, with the cursor at the same place, and their objects differ at most
    in that the interpreter normalises the two orientations. *)
Theorem not_active_mover_is_table `{Host} (data : WorldPacket) :
  let data := data <| m_opcode := CMSG_MOVE_NOT_ACTIVE_MOVER |> in
  Read_OLD (data, MovementInfo_new)
  = map_result (fun s => (s.1, normalized s.2)) (ReadFromPacket (data, MovementInfo_new)).
Proof.
  intros data'. unfold Read_OLD, ReadFromPacket, getS, mbind, M_bind. cbn [fst m_opcode data' set_field].
  change (CMSG_MOVE_NOT_ACTIVE_MOVER =? CMSG_MOVE_KNOCK_BACK_ACK) with false. rewrite Z.eqb_refl.
  assert (Hs : GetMovementStatusElementsSequence CMSG_MOVE_NOT_ACTIVE_MOVER
               = Some (until_end MoveNotActiveMover ++ [MSEEnd])) by by vm_compute.
  rewrite Hs. clear Hs. unfold run_reader. cbn [fst snd].
  set (r := Reader_new (buffer data') MovementInfo_new).
  assert (Hnorm : r = norm_reader r) by by vm_compute.
  assert (Hrun : Read_sequence (until_end MoveNotActiveMover ++ [MSEEnd]) r
    = map_result norm_reader (Read_CMSG_MOVE_NOT_ACTIVE_MOVER r)).
  { rewrite <- (not_active_mover_statements r), <- Hnorm, <- (for_each_then _ _ _ r).
    unfold Read_sequence, mbind, M_bind. rewrite Read_loop_body; [done|apply until_end_no_end|].
    by apply (bool_decide_unpack _); vm_compute. }
  rewrite Hrun. by destruct (Read_CMSG_MOVE_NOT_ACTIVE_MOVER r).
Qed.
