(* ===== verification/MovementSafe.v ===== *)
(** * Movement packets from the network

    Whatever a client sends, reading it as a movement ends inside the packet:
    with a value, or with the exception of a packet that is too short.  And
    whatever flags it claims, those that [Sanitize] leaves are consistent with
    each other and with the auras of the unit. *)

From S2P Require Import Prelude Float32 ByteBuffer BitStream Wire WireProps Packet MovementTables Movement.
From S2P Require Import MovementKinds MovementWire MovementRead MovementProps.

(** ** Safety of the readers *)

Definition safe_reader (m : RM unit) : Prop :=
  forall r, rd_wf (r_data r) ->
            wp m (fun _ r' => rd_keeps (r_data r) (r_data r'))
                 (fun _ r' => rd_keeps (r_data r) (r_data r')) r.

Lemma safe_reader_seq m k : safe_reader m -> safe_reader k -> safe_reader (m;; k).
Proof.
  intros Hm Hk r Hr. apply wp_bind. eapply wp_mono; [by apply Hm| |done].
  intros [] r1 H1. cbn in H1. eapply wp_mono; [apply Hk; apply H1| |];
    intros; by apply (rd_keeps_trans _ _ _ H1).
Qed.

Lemma safe_reader_in {A} (m : BB A) (f : A -> Reader -> Reader) :
  safe_read m -> (forall a r, r_data (f a r) = r_data r) ->
  safe_reader (x ← in_data m; modify (f x)).
Proof.
  intros Hm Hf r Hr. specialize (Hm _ Hr). unfold wp, in_data, mbind, M_bind, modify in *.
  destruct (m (r_data r)); [|done..]. by rewrite Hf.
Qed.

Lemma safe_reader_guarded F m : safe_reader m -> safe_reader (guarded F m).
Proof.
  intros Hm r Hr. apply wp_bind, wp_getS. destruct (F r); [by apply Hm|by apply rd_keeps_refl].
Qed.

Lemma safe_reader_modify f : (forall r, r_data (f r) = r_data r) -> safe_reader (modify f).
Proof. intros Hf r Hr. unfold wp, modify. rewrite Hf. by apply rd_keeps_refl. Qed.

Section Safety.
Context `{Host}.
#[local] Set Default Proof Using "All".

Lemma safe_get_bit set :
  (forall b r, r_data (set b r) = r_data r) -> safe_reader (get_bit set).
Proof. intros Hs. apply safe_reader_in; [apply safe_ReadBit|done]. Qed.

Lemma safe_get t set : safe_reader (get t set).
Proof. apply (safe_reader_in (inn t)); [apply safe_inn|done]. Qed.

Lemma safe_get_float set : safe_reader (get_float set).
Proof. apply (safe_reader_in (read_T 4)); [apply safe_read_T; lia|done]. Qed.

Lemma safe_get_bits n set : 0 <= n <= 32 -> safe_reader (get_bits n set).
Proof. intros Hn. apply (safe_reader_in (ReadBits n)); [by apply safe_ReadBits|done]. Qed.

Lemma safe_ReadByteSeq x : safe_read (ReadByteSeq x).
Proof.
  unfold ReadByteSeq. apply safe_if; [|apply safe_ret].
  apply safe_bind; [apply safe_read_T; lia|]. intros. apply safe_ret.
Qed.

Lemma safe_id_byte i : safe_reader (id_byte i).
Proof.
  intros r Hr. apply wp_bind, wp_getS.
  by apply (safe_reader_in (ReadByteSeq (nth (Z.to_nat i) (r_id r) 0))); [apply safe_ReadByteSeq|..].
Qed.

Lemma safe_tid_byte i : safe_reader (tid_byte i).
Proof.
  intros r Hr. apply wp_bind, wp_getS.
  by apply (safe_reader_in (ReadByteSeq (nth (Z.to_nat i) (r_tid r) 0))); [apply safe_ReadByteSeq|..].
Qed.

Lemma safe_skip4 : safe_reader (in_data (read_skip 4)).
Proof.
  intros r Hr. pose proof (safe_read_skip 4 ltac:(unfold in_width; lia) _ Hr) as Hs.
  unfold wp, in_data in *. by destruct (read_skip 4 (r_data r)).
Qed.

Lemma safe_store_guids : safe_reader store_guids.
Proof. by apply safe_reader_modify. Qed.

Lemma safe_element e :
  is_bits (kind_of e) || is_bytes (kind_of e) = true -> safe_reader (Read_element e).
Proof.
  intros He. destruct e; try done; unfold Read_element; element_range;
    try apply safe_reader_guarded;
    first [ apply safe_id_byte | apply safe_tid_byte | apply safe_get | apply safe_get_float
          | apply safe_get_bits; lia | apply safe_get_bit; done ].
Qed.
End Safety.

(** The condition under which the interpreters meet no invalid element. *)
Definition readable (_ : Z) (sequence : list MovementStatusElements) : bool :=
  bool_decide (MSEEnd ∈ sequence) && (length (until_end sequence) <? MSE_iterations)%nat &&
  forallb (fun e => is_bits (kind_of e) || is_bytes (kind_of e)) (until_end sequence).

Lemma sequences_readable : forallb (fun c => readable c.1 c.2) movement_sequences = true.
Proof. by vm_compute. Qed.

Section Packets.
Context `{Host}.
#[local] Set Default Proof Using "All".

Lemma safe_sequence sequence op :
  GetMovementStatusElementsSequence op = Some sequence -> safe_reader (Read_sequence sequence).
Proof.
  intros Hs. pose proof (sequences_forallb readable _ _ sequences_readable Hs) as Hr.
  unfold readable in Hr. rewrite !andb_true_iff in Hr. destruct Hr as [[Hend Hlen] Hall].
  apply bool_decide_eq_true in Hend. apply Nat.ltb_lt in Hlen. rewrite forallb_forall in Hall.
  destruct (until_end_split _ Hend) as [l' Hsplit].
  apply safe_reader_seq; [|apply safe_store_guids].
  assert (Hloop : safe_reader (for_each (until_end sequence) Read_element)).
  { clear Hsplit Hlen. induction (until_end sequence) as [|e es IH]; [by intros r ?; apply rd_keeps_refl|].
    cbn [for_each]. apply safe_reader_seq; [apply safe_element, Hall; by left|].
    apply IH. intros x Hx. apply Hall. by right. }
  intros r Hr. rewrite Hsplit. unfold wp. rewrite Read_loop_body by (done || apply until_end_no_end).
  by apply Hloop.
Qed.

Lemma safe_not_active_mover : safe_reader Read_CMSG_MOVE_NOT_ACTIVE_MOVER.
Proof.
  unfold Read_CMSG_MOVE_NOT_ACTIVE_MOVER.
  repeat first
    [ apply safe_store_guids | apply safe_get | apply safe_id_byte | apply safe_tid_byte
    | apply safe_get_bits; lia | apply safe_get_bit; done | apply safe_skip4
    | apply safe_reader_guarded | apply safe_reader_seq ].
Qed.

Lemma safe_knock_back_ack : safe_reader Read_CMSG_MOVE_KNOCK_BACK_ACK.
Proof.
  unfold Read_CMSG_MOVE_KNOCK_BACK_ACK.
  repeat first
    [ apply safe_store_guids | apply safe_get | apply safe_id_byte | apply safe_tid_byte
    | apply safe_get_bits; lia | apply safe_get_bit; done | apply safe_skip4
    | apply safe_reader_guarded | apply safe_reader_seq ].
Qed.

Lemma ReadFromPacket_safe (data : WorldPacket) (mi : MovementInfo) :
  rd_wf (buffer data) ->
  wp ReadFromPacket
     (fun _ s => rd_keeps (buffer data) (buffer s.1) /\ m_opcode s.1 = m_opcode data)
     (fun _ s => rd_keeps (buffer data) (buffer s.1) /\ m_opcode s.1 = m_opcode data) (data, mi).
Proof.
  intros Hwf. unfold ReadFromPacket. apply wp_bind, wp_getS. cbn [fst].
  assert (Hrun : forall m, safe_reader m -> wp (run_reader m)
     (fun _ s => rd_keeps (buffer data) (buffer s.1) /\ m_opcode s.1 = m_opcode data)
     (fun _ s => rd_keeps (buffer data) (buffer s.1) /\ m_opcode s.1 = m_opcode data) (data, mi)).
  { intros m Hm. specialize (Hm (Reader_new (buffer data) mi) Hwf). unfold wp, run_reader in *.
    by destruct (m _). }
  apply wp_if; intros _; [apply Hrun, safe_knock_back_ack|].
  apply wp_if; intros _; [apply Hrun, safe_not_active_mover|].
  unfold Read_OLD. apply wp_bind, wp_getS. cbn [fst].
  destruct (GetMovementStatusElementsSequence (m_opcode data)) as [s|] eqn:Hs.
  - by apply Hrun, (safe_sequence s (m_opcode data)).
  - apply wp_ret. split; [by apply rd_keeps_refl|done].
Qed.
(** C21.  Reading a movement is safe.  Whatever the opcode and the contents of a
    packet, [ReadFromPacket] either returns or throws a [ByteBufferException]:
    no assertion fails, no table is read past its end and no byte outside the
    packet is touched; the contents are unchanged and the cursor has not gone
    back. *)
Theorem movement_read_safe (data : WorldPacket) (mi : MovementInfo) :
  rd_wf (buffer data) ->
  wp ReadFromPacket
     (fun _ s => rd_keeps (buffer data) (buffer s.1) /\ m_opcode s.1 = m_opcode data)
     (fun _ s => rd_keeps (buffer data) (buffer s.1) /\ m_opcode s.1 = m_opcode data) (data, mi).
Proof. apply ReadFromPacket_safe. Qed.
End Packets.

Lemma movement_read_safe_witness :
  let data := packet_of CMSG_MOVE_KNOCK_BACK_ACK [1; 2; 3; 4; 5] in
  wp (ReadFromPacket (H := little_host))
     (fun _ s => rd_keeps (buffer data) (buffer s.1) /\ m_opcode s.1 = m_opcode data)
     (fun _ s => rd_keeps (buffer data) (buffer s.1) /\ m_opcode s.1 = m_opcode data)
     (data, MovementInfo_new).
Proof.
  intros data. apply (movement_read_safe (H := little_host) data MovementInfo_new).
  unfold rd_wf, size, zlen. cbn. lia.
Defined.

(** A truncated packet: the positions are read, then the buffer throws. *)
Example truncated_movement :
  exists s, ReadFromPacket (H := little_host)
    (packet_of MSG_MOVE_JUMP [0; 0; 128; 63; 0; 0], MovementInfo_new)
  = Throw (ByteBufferPositionException false 4 4 6) s /\ m_positionY (pos s.2) = 0x3F800000.
Proof. eexists. split; [vm_compute; reflexivity|done]. Qed.

(** ** The flags that survive [Sanitize] *)

Definition violation := ((MovementInfo -> bool) * Z)%type.

(** A check only looks at the flags it removes, and is passed without them. *)
Definition check_local (c : violation) : Prop :=
  (forall mi mi', Z.land (flags mi) c.2 = Z.land (flags mi') c.2 -> c.1 mi = c.1 mi') /\
  (forall mi, Z.land (flags mi) c.2 = 0 -> c.1 mi = false).

(** The flags of the violations of a movement. *)
Definition violated (mi : MovementInfo) (l : list violation) : Z :=
  foldr (fun (c : violation) m => Z.lor (if c.1 mi then c.2 else 0) m) 0 l.

Definition disjoint_masks : list violation -> Prop :=
  ForallOrdPairs (fun c d : violation => Z.land c.2 d.2 = 0).

Lemma has_flag_sub m f a b :
  Z.land f m = f -> Z.land a m = Z.land b m -> has_flag a f = has_flag b f.
Proof.
  intros Hf Hab. unfold has_flag. by rewrite <- Hf, (Z.land_comm f), !Z.land_assoc, Hab.
Qed.

Lemma has_flag_none m f a : Z.land f m = f -> Z.land a m = 0 -> has_flag a f = false.
Proof.
  intros Hf Ha. unfold has_flag. by rewrite <- Hf, (Z.land_comm f), Z.land_assoc, Ha, Z.land_0_l.
Qed.

Lemma has_local f m (P : bool -> bool) :
  Z.land f m = f -> P false = false -> check_local (fun mi => P (HasMovementFlag f mi), m).
Proof.
  intros Hf HP. split; intros mi; cbn [fst snd]; unfold HasMovementFlag.
  - intros mi' Hm. by rewrite (has_flag_sub m f _ _ Hf Hm).
  - intros Hm. by rewrite (has_flag_none m f _ Hf Hm).
Qed.

Lemma both_local f g : check_local (both f g, Z.lor f g).
Proof.
  assert (Hs : forall x y, Z.land x (Z.lor x y) = x).
  { intros. apply Z.bits_inj'. intros. rewrite Z.land_spec, Z.lor_spec. by destruct (Z.testbit x _). }
  pose proof (Hs f g) as Hf. pose proof (Hs g f) as Hg. rewrite Z.lor_comm in Hg.
  split; intros mi; cbn [fst snd]; unfold both, HasMovementFlag.
  - intros mi' Hm. by rewrite (has_flag_sub _ f _ _ Hf Hm), (has_flag_sub _ g _ _ Hg Hm).
  - intros Hm. by rewrite (has_flag_none _ f _ Hf Hm).
Qed.

Lemma violations_local target : Forall check_local (violations target).
Proof.
  unfold violations. repeat apply Forall_cons_2; try apply both_local; try apply Forall_nil_2.
  - by apply (has_local _ _ id).
  - by apply (has_local _ _ (fun b => b && negb (HasAuraType target SPELL_AURA_HOVER))).
  - by apply (has_local _ _ (fun b => b && negb (HasAuraType target SPELL_AURA_WATER_WALK))).
  - by apply (has_local _ _ (fun b => b && negb (HasAuraType target SPELL_AURA_FEATHER_FALL))).
  - apply (has_local _ _ (fun flying =>
      if is_player target
      then flying && (GetSecurity target =? SEC_PLAYER) && negb (HasAuraType target SPELL_AURA_FLY)
           && negb (HasAuraType target SPELL_AURA_MOD_INCREASE_MOUNTED_FLIGHT_SPEED)
      else flying && negb (HasAuraType target SPELL_AURA_FLY)
           && negb (HasAuraType target SPELL_AURA_MOD_INCREASE_FLIGHT_SPEED))); [done|].
    by destruct (is_player target).
Qed.

Lemma violations_disjoint target : disjoint_masks (violations target).
Proof. repeat (apply FOP_cons; [repeat apply Forall_cons_2; done|]). apply FOP_nil. Qed.

Lemma violated_disjoint mi l (d : violation) :
  Forall (fun c : violation => Z.land c.2 d.2 = 0) l -> Z.land (violated mi l) d.2 = 0.
Proof.
  induction 1 as [|c l Hc _ IH]; [done|]. cbn [violated foldr]. fold (violated mi l).
  rewrite Z.land_lor_distr_l, IH. by destruct (c.1 mi); rewrite ?Hc.
Qed.

(** Each mask is cleared as a whole or not at all. *)
Lemma violated_mask mi l (c : violation) :
  disjoint_masks l -> c ∈ l -> Z.land (violated mi l) c.2 = if c.1 mi then c.2 else 0.
Proof.
  intros Hl. induction Hl as [|d l Hd Hl IH]; [by intros ?%not_elem_of_nil|].
  intros [->|Hin]%elem_of_cons; cbn [violated foldr]; fold (violated mi l); rewrite Z.land_lor_distr_l.
  - rewrite (violated_disjoint mi l d).
    + by destruct (d.1 mi); rewrite ?Z.land_diag, Z.lor_0_r.
    + eapply Forall_impl; [apply Hd|]. intros x Hx. by rewrite Z.land_comm.
  - rewrite (IH Hin). rewrite List.Forall_forall in Hd.
    pose proof (Hd c ltac:(by apply list_elem_of_In)) as Hdc. by destruct (d.1 mi); rewrite ?Hdc.
Qed.

Lemma remove_violating_flags check m mi :
  remove_violating check m mi = mi <| flags ::= fun f => Z.ldiff f (if check mi then m else 0) |>.
Proof.
  unfold remove_violating, RemoveMovementFlag. destruct (check mi).
  - destruct mi. cbn. by rewrite Z.ldiff_land.
  - destruct mi. cbn. by rewrite Z.ldiff_0_r.
Qed.

Lemma violated_ext mi mi' l :
  Forall (fun c : violation => c.1 mi = c.1 mi') l -> violated mi l = violated mi' l.
Proof. induction 1 as [|c l Hc _ IH]; [done|]. cbn. fold (violated mi l). by rewrite IH, Hc. Qed.

(** Clearing flags, seen through a mask. *)
Lemma land_ldiff f m d : Z.land (Z.ldiff f m) d = Z.ldiff (Z.land f d) (Z.land m d).
Proof.
  apply Z.bits_inj'. intros i _. rewrite Z.land_spec, !Z.ldiff_spec, !Z.land_spec.
  by destruct (Z.testbit f i), (Z.testbit m i), (Z.testbit d i).
Qed.

Lemma ldiff_lor f a b : Z.ldiff f (Z.lor a b) = Z.ldiff (Z.ldiff f a) b.
Proof.
  apply Z.bits_inj'. intros i _. rewrite !Z.ldiff_spec, Z.lor_spec.
  by destruct (Z.testbit f i), (Z.testbit a i), (Z.testbit b i).
Qed.

Lemma ldiff_mask f d : Z.ldiff (Z.land f d) d = 0.
Proof.
  apply Z.bits_inj'. intros i _. rewrite Z.ldiff_spec, Z.land_spec, Z.bits_0.
  by destruct (Z.testbit f i), (Z.testbit d i).
Qed.

(** Checks with masks of their own do not disturb each other. *)
Lemma remove_all l : forall mi, Forall check_local l -> disjoint_masks l ->
  foldl (fun m (c : violation) => remove_violating c.1 c.2 m) mi l
  = mi <| flags ::= fun f => Z.ldiff f (violated mi l) |>.
Proof.
  induction l as [|c l IH]; intros mi Hl Hd.
  - destruct mi. cbn. by rewrite Z.ldiff_0_r.
  - inversion Hl as [|?? Hc Hl']. inversion Hd as [|?? Hdc Hd']. subst. cbn [foldl].
    rewrite IH, remove_violating_flags by done.
    set (mi1 := mi <| flags ::= fun f => Z.ldiff f (if c.1 mi then c.2 else 0) |>).
    assert (Hext : violated mi1 l = violated mi l).
    { apply violated_ext. rewrite List.Forall_forall in *. intros d Hin.
      apply (Hl' d Hin). change (flags mi1) with (Z.ldiff (flags mi) (if c.1 mi then c.2 else 0)).
      rewrite land_ldiff. destruct (c.1 mi); rewrite ?(Hdc d Hin), ?Z.land_0_l; apply Z.ldiff_0_r. }
    rewrite Hext. subst mi1. cbn [violated foldr]. fold (violated mi l).
    generalize (violated mi l), (if c.1 mi then c.2 else 0). intros m0 m1. destruct mi. cbn.
    by rewrite ldiff_lor.
Qed.

Lemma Sanitize_flags target mi :
  Sanitize target mi = mi <| flags ::= fun f => Z.ldiff f (violated mi (violations target)) |>.
Proof. apply remove_all; [apply violations_local|apply violations_disjoint]. Qed.

Lemma Sanitize_clean target mi (c : violation) :
  c ∈ violations target -> c.1 (Sanitize target mi) = false.
Proof.
  intros Hc. rewrite Sanitize_flags.
  pose proof (violated_mask mi _ c (violations_disjoint target) Hc) as Hm.
  pose proof (violations_local target) as Hl. rewrite List.Forall_forall in Hl.
  destruct (Hl c ltac:(by apply list_elem_of_In)) as [Hsame Hnone].
  set (mi' := mi <| flags ::= fun f => Z.ldiff f (violated mi (violations target)) |>).
  assert (Hf : Z.land (flags mi') c.2 = Z.ldiff (Z.land (flags mi) c.2) (if c.1 mi then c.2 else 0))
    by (rewrite <- Hm; apply land_ldiff).
  destruct (c.1 mi) eqn:Hv.
  - apply Hnone. by rewrite Hf, ldiff_mask.
  - rewrite <- Hv. apply Hsame. by rewrite Hf, Z.ldiff_0_r.
Qed.

Lemma Sanitize_clean_id target mi :
  (forall c, c ∈ violations target -> c.1 mi = false) -> Sanitize target mi = mi.
Proof.
  intros Hc. rewrite Sanitize_flags.
  assert (Hv : violated mi (violations target) = 0).
  { induction (violations target) as [|c l IH]; [done|]. cbn [violated foldr]. fold (violated mi l).
    rewrite Hc by (by left). apply IH. intros d Hd. apply Hc. by right. }
  rewrite Hv. destruct mi. cbn. by rewrite Z.ldiff_0_r.
Qed.

(** Whether a unit may claim to fly: its auras, or an account above
    [SEC_PLAYER] for a player. *)
Definition may_fly (target : UnitView) : bool :=
  HasAuraType target SPELL_AURA_FLY ||
  if is_player target
  then negb (GetSecurity target =? SEC_PLAYER) ||
       HasAuraType target SPELL_AURA_MOD_INCREASE_MOUNTED_FLIGHT_SPEED
  else HasAuraType target SPELL_AURA_MOD_INCREASE_FLIGHT_SPEED.

(** The flags of the two directions of a movement. *)
Definition opposite_flags : list (Z * Z) :=
  [(MOVEMENTFLAG_ASCENDING, MOVEMENTFLAG_DESCENDING); (MOVEMENTFLAG_LEFT, MOVEMENTFLAG_RIGHT);
   (MOVEMENTFLAG_STRAFE_LEFT, MOVEMENTFLAG_STRAFE_RIGHT);
   (MOVEMENTFLAG_PITCH_UP, MOVEMENTFLAG_PITCH_DOWN);
   (MOVEMENTFLAG_FORWARD, MOVEMENTFLAG_BACKWARD)].

(** The flags that need an aura. *)
Definition aura_flags : list (Z * Z) :=
  [(MOVEMENTFLAG_HOVER, SPELL_AURA_HOVER); (MOVEMENTFLAG_WATERWALKING, SPELL_AURA_WATER_WALK);
   (MOVEMENTFLAG_FALLING_SLOW, SPELL_AURA_FEATHER_FALL)].

(** What survives the check of a movement's flags.  The checks made one
    after the other clear exactly the masks of those the received movement
    violates, whatever their order, and touch nothing else; doing it twice
    changes nothing more.  In the result the unit is not rooted, never moves in
    two opposite directions, hovers, walks on water or falls slowly only under
    the aura for it, and flies only when its auras or its account allow it. *)
Theorem Sanitize_spec (target : UnitView) (mi : MovementInfo) :
  let mi' := Sanitize target mi in
  mi' = mi <| flags := Z.ldiff (flags mi) (violated mi (violations target)) |> /\
  Sanitize target mi' = mi' /\
  HasMovementFlag MOVEMENTFLAG_ROOT mi' = false /\
  Forall (fun p => HasMovementFlag p.1 mi' && HasMovementFlag p.2 mi' = false) opposite_flags /\
  Forall (fun p => implb (HasMovementFlag p.1 mi') (HasAuraType target p.2) = true) aura_flags /\
  implb (HasMovementFlag (Z.lor MOVEMENTFLAG_FLYING MOVEMENTFLAG_CAN_FLY) mi') (may_fly target) = true.
Proof.
  intros mi'. pose proof (Sanitize_clean target mi) as Hc. fold mi' in Hc.
  assert (Hn : forall n c, nth_error (violations target) n = Some c -> c.1 mi' = false).
  { intros n c Hn. apply Hc, list_elem_of_In. by apply nth_error_In in Hn. }
  split_and!.
  - apply Sanitize_flags.
  - by apply Sanitize_clean_id.
  - by apply (Hn 0%nat _ eq_refl).
  - repeat apply Forall_cons_2; [by apply (Hn 2%nat _ eq_refl)|by apply (Hn 3%nat _ eq_refl)
      |by apply (Hn 4%nat _ eq_refl)|by apply (Hn 5%nat _ eq_refl)|by apply (Hn 6%nat _ eq_refl)|].
    apply Forall_nil_2.
  - pose proof (Hn 1%nat _ eq_refl) as H1. pose proof (Hn 7%nat _ eq_refl) as H7.
    pose proof (Hn 8%nat _ eq_refl) as H8. cbn [fst] in H1, H7, H8.
    repeat apply Forall_cons_2; try apply Forall_nil_2; cbn [fst snd];
      [clear H7 H8|clear H1 H8|clear H1 H7]; by destruct (HasMovementFlag _ _), (HasAuraType _ _).
  - pose proof (Hn 9%nat _ eq_refl) as H9. cbn [fst] in H9. unfold may_fly.
    destruct (HasMovementFlag _ mi'); [|done].
    destruct (HasAuraType target SPELL_AURA_FLY); [done|].
    destruct (is_player target); [|by destruct (HasAuraType _ _)].
    by destruct (GetSecurity target =? SEC_PLAYER), (HasAuraType _ _).
Qed.

(** A spoofed movement of a player without auras: rooted, left and right at
    once, flying; what is left is a walk forward. *)
Example spoofed_flags :
  let target := mkUnitView true SEC_PLAYER (fun _ => false) false in
  flags (Sanitize target (MovementInfo_new <| flags := 0x01000431 |>)) = MOVEMENTFLAG_FORWARD.
Proof. vm_compute. reflexivity. Qed.

(** ** The collision height message *)

(** On a transport, [SMSG_MOVE_UPDATE_COLLISION_HEIGHT] is not read back: the
    bytes of the transport are there without their presence bit, and the GUID
    read is not the mover's. *)
Example collision_height_transport :
  exists data s,
    Write_OLD (H := little_host) sample_mover (WorldPacket_new SMSG_MOVE_UPDATE_COLLISION_HEIGHT)
    = Ok tt data /\
    Read_OLD (H := little_host) (data, MovementInfo_new) = Ok tt s /\
    guid s.2 <> guid sample_mover.
Proof.
  eexists _, _. split; [vm_compute; reflexivity|]. split; [vm_compute; reflexivity|].
  vm_compute. discriminate.
Qed.
