(* ===== verification/MovementTotal.v ===== *)
(** * Movement packets to the network

    Whatever a movement holds, it can be written: no writer, by hand or along a
    table, meets an assertion, an exception or undefined behaviour, and the
    packets are small. *)

From S2P Require Import Prelude Float32 ByteBuffer BitStream Wire Packet MovementTables Movement.
From S2P Require Import MovementKinds MovementWire MovementProps MovementSafe.

(** ** Writers of at most [n] bits *)

Definition bounded (n : Z) (m : BB unit) : Prop :=
  forall b, wr_wf b -> wr_room b n ->
  exists b', m b = Ok tt b' /\ wr_wf b' /\ zlen (written b') <= zlen (written b) + n.

Lemma bounded_weaken n n' m : bounded n m -> n <= n' -> bounded n' m.
Proof.
  intros Hm Hn b Hwf Hr. unfold wr_room in *.
  destruct (Hm b) as (b' & Hb & Hwf' & Hw); [done|unfold wr_room; lia|].
  exists b'. split_and!; [done..|lia].
Qed.

Lemma bounded_ret : bounded 0 (mret tt).
Proof. intros b Hwf _. exists b. split_and!; [done..|lia]. Qed.

Lemma bounded_seq n1 n2 m1 m2 :
  0 <= n2 -> bounded n1 m1 -> bounded n2 m2 -> bounded (n1 + n2) (m1;; m2).
Proof.
  intros Hn H1 H2 b Hwf Hr. unfold wr_room in *.
  destruct (H1 b) as (b1 & Hb1 & Hwf1 & Hw1); [done|unfold wr_room; lia|].
  destruct (H2 b1) as (b2 & Hb2 & Hwf2 & Hw2); [done|unfold wr_room; lia|].
  exists b2. rewrite (bind_run _ _ _ _ _ Hb1). split_and!; [done..|lia].
Qed.

Lemma bounded_when n c m : 0 <= n -> bounded n m -> bounded n (when c m).
Proof.
  intros Hn Hm. destruct c; [done|]. eapply bounded_weaken; [apply bounded_ret|done].
Qed.

Lemma bounded_put_bit x : bounded 1 (put_bit x).
Proof.
  intros b Hwf Hr. destruct (WriteBit_ok (u32 x) b) as (b' & Hb & Hwf' & Hw & _); [done| |].
  { eapply wr_room_size; [done| |done]. lia. }
  exists b'. unfold put_bit. rewrite (bind_run _ _ _ _ _ Hb). split_and!; [done..|].
  rewrite Hw. zsimp. lia.
Qed.

Lemma bounded_put_bool x : bounded 1 (put_bool x).
Proof. apply bounded_put_bit. Qed.

Lemma bounded_WriteBits w v n : 0 <= n <= w -> n <= 32 -> bounded n (WriteBits w v n).
Proof.
  intros Hn Hn32 b Hwf Hr. destruct (WriteBits_ok w v n b) as (b' & Hb & Hwf' & Hw & _); [done..|].
  exists b'. split_and!; [done..|]. rewrite Hw, zlen_app, zlen_bits_msb. lia.
Qed.

(** After a flush, the bits written are the bytes. *)
Lemma flushed b :
  wr_wf b -> wr_room b 8 ->
  exists b', FlushBits b = Ok tt b' /\ wr_wf b' /\ _bitpos b' = 8 /\ _curbitval b' = 0 /\
             8 * size b' <= zlen (written b) + 8.
Proof.
  intros Hwf Hr. unfold wr_room in *.
  destruct (FlushBits_full b) as (b' & Hb & Hend & Hp & Hc & _ & Hs); [done|unfold wr_room; lia|].
  exists b'. split_and!; try done.
  - split_and!; try lia; try done. rewrite Hc. intros. apply Z.bits_0.
  - unfold size. rewrite <- zlen_bits_of, Hs, zlen_app. unfold zlen at 2.
    rewrite length_replicate. pose proof (Z.mod_pos_bound (_bitpos b) 8). lia.
Qed.

Lemma aligned_written b : _bitpos b = 8 -> zlen (written b) = 8 * size b.
Proof. intros Hp. rewrite zlen_written; lia. Qed.

Lemma bounded_FlushBits : bounded 8 FlushBits.
Proof.
  intros b Hwf Hr. destruct (flushed b) as (b' & Hb & Hwf' & Hp & _ & Hs); [done..|].
  exists b'. split_and!; [done..|]. by rewrite aligned_written.
Qed.

Section Typed.
Context `{Host}.

Lemma bounded_append_T n v : n <> O -> (n <= 8)%nat -> bounded (8 + 8 * Z.of_nat n) (append_T n v).
Proof.
  intros Hn Hn8 b Hwf Hr. unfold wr_room in *.
  destruct (flushed b) as (b' & Hb & Hwf' & Hp & Hc & Hs); [done|unfold wr_room; lia|].
  rewrite append_T_flush, (bind_run _ _ _ _ _ Hb), append_T_ok; try done; try lia; [|apply Hwf'].
  eexists. split; [done|]. destruct Hwf' as (Hend & Hp' & Hc' & Hz).
  split; [by repeat split; try apply at_end_appended; try apply Hp'; try apply Hc'|].
  rewrite aligned_written by done. rewrite size_appended, zlen_le_bytes. lia.
Qed.

Lemma bounded_out t v : bounded 72 (out t v).
Proof.
  eapply bounded_weaken; [apply bounded_append_T|]; by destruct t; cbn; lia.
Qed.

Lemma bounded_WriteByteSeq x : bounded 16 (WriteByteSeq x).
Proof.
  unfold WriteByteSeq. destruct (negb _); [|eapply bounded_weaken; [apply bounded_ret|lia]].
  apply (bounded_append_T 1); lia.
Qed.
End Typed.

(** Bounds of the statements; a block is bounded by their sum. *)
Ltac bounded :=
  lazymatch goal with
  | |- bounded _ (_ ≫= _) => eapply bounded_seq; [|bounded|bounded]; [lia]
  | |- bounded _ (when _ _) => eapply bounded_when; [|bounded]; [lia]
  | |- bounded _ (put_bool _) => apply bounded_put_bool
  | |- bounded _ (put_bit _) => apply bounded_put_bit
  | |- bounded _ (out _ _) => apply bounded_out
  | |- bounded _ (WriteByteSeq _) => apply bounded_WriteByteSeq
  | |- bounded _ FlushBits => apply bounded_FlushBits
  | |- bounded _ (WriteBits _ _ _) => apply bounded_WriteBits; lia
  end.

Section Movements.
Context `{Host}.

(** ** The writers of movements *)

Lemma bounded_element mi e :
  is_bits (kind_of e) || is_bytes (kind_of e) = true -> bounded 72 (Write_element mi e).
Proof.
  intros He. destruct e; try done; unfold Write_element; element_range;
    (eapply bounded_weaken; [bounded|lia]).
Qed.

Lemma bounded_each mi es :
  forallb (fun e => is_bits (kind_of e) || is_bytes (kind_of e)) es = true ->
  bounded (72 * zlen es) (for_each es (Write_element mi)).
Proof.
  induction es as [|e es IH]; cbn [forallb for_each]; [intros _; apply bounded_ret|].
  intros [He Hes]%andb_true_iff. eapply bounded_weaken.
  - apply bounded_seq; [|by apply bounded_element|by apply IH]. zlen_pos. lia.
  - zsimp. lia.
Qed.

Lemma bounded_sequence mi op sequence :
  GetMovementStatusElementsSequence op = Some sequence ->
  bounded 5760 (Write_loop mi MSE_iterations sequence).
Proof.
  intros Hs. pose proof (sequences_forallb readable _ _ sequences_readable Hs) as Hr.
  unfold readable in Hr. rewrite !andb_true_iff in Hr. destruct Hr as [[Hend Hlen] Hall].
  apply bool_decide_eq_true in Hend. apply Nat.ltb_lt in Hlen.
  assert (HI : MSE_iterations = 80%nat) by (vm_compute; reflexivity). rewrite HI in Hlen.
  destruct (until_end_split _ Hend) as [l' Hsplit].
  pose proof (bounded_each mi _ Hall) as Hb. clear Hall Hs Hend.
  intros b Hwf Hr. rewrite Hsplit. rewrite Write_loop_body; [|apply until_end_no_end|lia].
  eapply bounded_weaken; [apply Hb| |done|done]. unfold zlen. lia.
Qed.

Lemma bounded_player_move mi : bounded 5760 (Write_SMSG_PLAYER_MOVE mi).
Proof. unfold Write_SMSG_PLAYER_MOVE. eapply bounded_weaken; [bounded|lia]. Qed.

Lemma bounded_teleport mi : bounded 5760 (Write_SMSG_MOVE_TELEPORT mi).
Proof. unfold Write_SMSG_MOVE_TELEPORT. eapply bounded_weaken; [bounded|lia]. Qed.

Lemma bounded_knock_back mi : bounded 5760 (Write_SMSG_MOVE_UPDATE_KNOCK_BACK mi).
Proof. unfold Write_SMSG_MOVE_UPDATE_KNOCK_BACK. eapply bounded_weaken; [bounded|lia]. Qed.
End Movements.

Lemma wr_wf_new : wr_wf ByteBuffer_new.
Proof. repeat split; try done. intros. apply Z.bits_0. Qed.

Section Packets.
Context `{Host}.

Lemma lift_bounded m n p :
  bounded n m -> wr_wf (buffer p) -> wr_room (buffer p) n ->
  exists data, lift m p = Ok tt data /\ m_opcode data = m_opcode p /\ wr_wf (buffer data) /\
               zlen (written (buffer data)) <= zlen (written (buffer p)) + n.
Proof.
  intros Hm Hwf Hr. destruct (Hm _ Hwf Hr) as (b & Hb & Hwf' & Hw).
  eexists. unfold lift. rewrite Hb. by split_and!.
Qed.

Lemma WriteToPacket_bounded mi p :
  wr_wf (buffer p) -> wr_room (buffer p) 5760 ->
  exists data, WriteToPacket mi p = Ok tt data /\ m_opcode data = m_opcode p /\ wr_wf (buffer data) /\
               zlen (written (buffer data)) <= zlen (written (buffer p)) + 5760.
Proof.
  intros Hwf Hr. unfold WriteToPacket, GetOpcode, gets. unfold mbind at 1, M_bind at 1.
  destruct (_ =? SMSG_PLAYER_MOVE); [apply lift_bounded; auto using bounded_player_move|].
  destruct (_ =? SMSG_MOVE_UPDATE_KNOCK_BACK); [apply lift_bounded; auto using bounded_knock_back|].
  destruct (_ =? SMSG_MOVE_TELEPORT); [apply lift_bounded; auto using bounded_teleport|].
  unfold Write_OLD, GetOpcode, gets. unfold mbind at 1, M_bind at 1.
  destruct (GetMovementStatusElementsSequence _) as [s|] eqn:Hs.
  - apply lift_bounded; [by eapply bounded_sequence|done..].
  - eexists. split; [done|]. split_and!; [done..|lia].
Qed.
End Packets.

(** Every movement can be sent.  Whatever the opcode and the contents of a
    movement, on a host of any byte order, [WriteToPacket] on a new packet
    returns: no assertion fails and nothing is thrown.  The packet keeps its
    opcode and has at most 720 bytes. *)
Theorem movement_write_total `{Host} (opcode : Z) (mi : MovementInfo) :
  exists data, WriteToPacket mi (WorldPacket_new opcode) = Ok tt data /\
    m_opcode data = opcode /\ size (buffer data) <= 720.
Proof.
  destruct (WriteToPacket_bounded mi (WorldPacket_new opcode)) as (data & Hd & Ho & (_ & Hp & _) & Hw);
    [apply wr_wf_new|done|].
  exists data. split_and!; [done..|]. rewrite zlen_written in Hw by done.
  change (zlen (written (buffer (WorldPacket_new opcode)))) with 0 in Hw. lia.
Qed.
