(* ===== verification/Mover.v ===== *)
(** * Movement of units: changes, acknowledgements, and moves of the client

    The messages by which [src/src/server/game/Entities/Unit/Unit.cpp] and
    [Player.cpp] tell a client of a change of its movement (speed, root, hover,
    water walking, falling, gravity, flying, height of collision), and
    [src/src/server/game/Handlers/MovementHandler.cpp], which takes the
    acknowledgements of the changes and the moves of the client.

    The units are a store by GUID, so that the session's player and its mover
    may be the same object; what the rest of the server is told is a list of
    events, and what it answers is a class of functions of the events so far. *)

From Stdlib Require Import SpecFloat.
From S2P Require Import Prelude Float32 ByteBuffer Wire Packet MovementTables Movement.

(** ** Kinds of changes *)

Definition ACK_GRAVITY : Z := 0.
Definition ACK_HOVER : Z := 1.
Definition ACK_WATER_WALK : Z := 2.
Definition ACK_CAN_FLY : Z := 3.
Definition ACK_TELEPORT : Z := 4.
Definition ACK_COLLISION_HEIGHT : Z := 5.
Definition ACK_FEATHER_FALL : Z := 6.
Definition ACK_ROOT : Z := 7.
Definition ACK_UNROOT : Z := 8.
Definition ACK_TYPE_MAX : Z := 9.

Definition MOVE_WALK : Z := 0.
Definition MOVE_RUN : Z := 1.
Definition MOVE_RUN_BACK : Z := 2.
Definition MOVE_SWIM : Z := 3.
Definition MOVE_SWIM_BACK : Z := 4.
Definition MOVE_TURN_RATE : Z := 5.
Definition MOVE_FLIGHT : Z := 6.
Definition MOVE_FLIGHT_BACK : Z := 7.
Definition MOVE_PITCH_RATE : Z := 8.
Definition MAX_MOVE_TYPE : Z := 9.

Definition MOVEMENTFLAG_WALKING : Z := 0x00000100.
Definition MOVEMENTFLAG_DISABLE_GRAVITY : Z := 0x00000200.
Definition MOVEMENTFLAG_SWIMMING : Z := 0x00100000.

(** The speeds of walking, running, ..., in the order of [UnitMoveType]; the
    table is the same for players and for other units. *)
Definition baseMoveSpeed : list Z :=
  [0x40200000; 0x40E00000; 0x40900000; 0x40971C71; 0x40200000; 0x40490FE0;
   0x40E00000; 0x40900000; 0x4048F5C3].
Definition playerBaseMoveSpeed : list Z :=
  [0x40200000; 0x40E00000; 0x40900000; 0x40971C71; 0x40200000; 0x40490FE0;
   0x40E00000; 0x40900000; 0x4048F5C3].

(** [moveTypeToOpcode]: the message to others and the one to the player. *)
Definition moveTypeToOpcode : list (Z * Z) :=
  [(SMSG_SPLINE_MOVE_SET_WALK_SPEED, SMSG_MOVE_SET_WALK_SPEED);
   (SMSG_SPLINE_MOVE_SET_RUN_SPEED, SMSG_MOVE_SET_RUN_SPEED);
   (SMSG_SPLINE_MOVE_SET_RUN_BACK_SPEED, SMSG_MOVE_SET_RUN_BACK_SPEED);
   (SMSG_SPLINE_MOVE_SET_SWIM_SPEED, SMSG_MOVE_SET_SWIM_SPEED);
   (SMSG_SPLINE_MOVE_SET_SWIM_BACK_SPEED, SMSG_MOVE_SET_SWIM_BACK_SPEED);
   (SMSG_SPLINE_MOVE_SET_TURN_RATE, SMSG_MOVE_SET_TURN_RATE);
   (SMSG_SPLINE_MOVE_SET_FLIGHT_SPEED, SMSG_MOVE_SET_FLIGHT_SPEED);
   (SMSG_SPLINE_MOVE_SET_FLIGHT_BACK_SPEED, SMSG_MOVE_SET_FLIGHT_BACK_SPEED);
   (SMSG_SPLINE_MOVE_SET_PITCH_RATE, SMSG_MOVE_SET_PITCH_RATE)].

(** ** State *)

(** The part of a [Unit] that movement keeps; [m_movement_ack],
    [m_forced_speed_changes] and the synchronisation of clocks are those of a
    [Player]. *)
Record Unit := mkUnit {
  unit_view : UnitView;
  isInCombat : bool;
  IsControlledByPlayer : bool;
  GetPet : option Z;
  m_transport : option Z;
  m_movementInfo : MovementInfo;
  m_movementCounter : Z;
  m_speed_rate : list Z;
  m_forced_speed_changes : list Z;
  m_movement_ack : list Z;
  m_timeSyncQueue : list Z;
  m_timeSyncTimer : Z;
  m_timeSyncClient : Z;
  m_timeSyncServer : Z
}.

#[export] Instance Unit_settable : Settable Unit :=
  fun u => mkUnit (unit_view u) (isInCombat u) (IsControlledByPlayer u) (GetPet u) (m_transport u)
    (m_movementInfo u) (m_movementCounter u) (m_speed_rate u) (m_forced_speed_changes u)
    (m_movement_ack u) (m_timeSyncQueue u) (m_timeSyncTimer u) (m_timeSyncClient u)
    (m_timeSyncServer u).

(** The counters and speeds of a new unit; the fields of the clocks are those of
    [ResetTimeSync], which a player goes through before he enters a map. *)
Definition Unit_new (view : UnitView) (pet : option Z) : Unit :=
  {| unit_view := view; isInCombat := false; IsControlledByPlayer := is_player view; GetPet := pet;
     m_transport := None; m_movementInfo := MovementInfo_new; m_movementCounter := 0;
     m_speed_rate := replicate (Z.to_nat MAX_MOVE_TYPE) 0x3F800000;
     m_forced_speed_changes := replicate (Z.to_nat MAX_MOVE_TYPE) 0;
     m_movement_ack := replicate (Z.to_nat ACK_TYPE_MAX) 0;
     m_timeSyncQueue := []; m_timeSyncTimer := 0; m_timeSyncClient := 0; m_timeSyncServer := 0 |}.

(** What the rest of the server is told; units and transports by their GUIDs. *)
Inductive event :=
| Delivered (unit : Z) (d : delivery)
| SentToSetBut (skipped : Z) (data : WorldPacket)
| PropagatedSpeedChange (unit : Z)
| EmoteStopped (player : Z)
| AddedPassenger (transport player : Z)
| RemovedPassenger (transport player : Z)
| TransportMoved (transport : Z) (mi : MovementInfo)
| FallHandled (player : Z) (mi : MovementInfo)
| SetInWater (player : Z) (apply : bool)
| HackDetection (player : Z) (mi : MovementInfo) (opcode : Z)
| OrientationSet (unit : Z) (orientation : Z)
| PetUnsummoned (player : Z)
| PositionUpdated (unit : Z) (p : Position)
| FallInformation (player : Z) (mi : MovementInfo) (opcode : Z)
| UnderMapHandled (player : Z)
| FellToVoid (player : Z) (damage : Z)
| PlayerKilled (player : Z)
| Repopped (player : Z)
| PacketSent (player : Z) (data : WorldPacket)
| ForgotPlayersInBG (player : Z)
| ForgotPlayersInList (player : Z).

Record Server := mkServer { units : gmap Z Unit; events : list event }.
#[export] Instance Server_settable : Settable Server := fun s => mkServer (units s) (events s).

Abbreviation SM := (M Server ByteBufferException).

(** What the rest of the server answers, after what it has been told. *)
Class World := {
  IsBeingTeleported : list event -> Z -> bool;
  isInFlight : list event -> Z -> bool;
  IsInWater : list event -> Z -> bool;
  IsUnderWater : list event -> Z -> Position -> bool;
  GetVehicle : list event -> Z -> bool;
  emote_state : list event -> Z -> Z;
  m_Transports : list event -> list Z;
  is_transport_object : list event -> Z -> Z -> bool;
  GetMapId : list event -> Z -> Z;
  area_MaxDepth : list event -> Z -> option Z;
  isAlive : list event -> Z -> bool;
  GetBattleground : list event -> Z -> bool;
  HandlePlayerUnderMap : list event -> Z -> bool;
  GetMaxHealth : list event -> Z -> Z;
  getMSTime : list event -> Z;
  ShouldForgetBGPlayers : list event -> Z -> bool;
  ShouldForgetInListPlayers : list event -> Z -> bool
}.

(** The unit of a GUID, updates of it, and events. *)
Definition unit_at (g : Z) : SM Unit :=
  s ← getS;
  match units s !! g with Some u => mret u | None => abort UndefinedBehaviour end.
Definition update_unit (g : Z) (f : Unit -> Unit) : SM unit :=
  modify (fun s => s <| units ::= alter f g |>).
Definition tell_server (e : event) : SM unit := modify (fun s => s <| events ::= fun l => l ++ [e] |>).
Definition ask {A} (q : list event -> A) : SM A := gets (fun s => q (events s)).

Definition HasUnitMovementFlag (f : Z) (u : Unit) : bool := Z.land (flags (m_movementInfo u)) f =? f.
Definition IsFlying (u : Unit) : bool :=
  HasMovementFlag (Z.lor MOVEMENTFLAG_FLYING MOVEMENTFLAG_DISABLE_GRAVITY) (m_movementInfo u).

(** ** Messages to the client *)

Section Senders.
Context `{Host}.

(** [m_movement_ack[ack] = m_movementCounter], for a player. *)
Definition expect_ack (unit ack : Z) : SM () :=
  u ← unit_at unit;
  when (is_player (unit_view u))
    (update_unit unit (fun u => u <| m_movement_ack ::= <[Z.to_nat ack := m_movementCounter u]> |>)).

(** The copy of [m_movementInfo] that is sent, numbered. *)
Definition next_info (unit : Z) : SM MovementInfo :=
  u ← unit_at unit;
  update_unit unit (fun u => u <| m_movementCounter ::= fun c => u32 (c + 1) |>);;
  mret ((m_movementInfo u) <| ackCount := m_movementCounter u |> <| guid := unit |>).

(** [Movement::PacketSender(this, controlled, self, &info, ...).Send()]. *)
Definition send_movement (unit controlled self : Z) (info : MovementInfo)
    (broadCastSelf broadCastControlled : bool) : SM () :=
  u ← unit_at unit;
  '(_, sent) ← on_local []
     (Send (PacketSender_new (unit_view u) controlled self info broadCastSelf broadCastControlled));
  for_each sent (fun d => tell_server (Delivered unit d)).

Definition SendMoveRoot (unit : Z) : SM () :=
  expect_ack unit ACK_ROOT;;
  info ← next_info unit;
  send_movement unit SMSG_SPLINE_MOVE_ROOT SMSG_MOVE_ROOT info false true.

Definition SendMoveUnroot (unit : Z) : SM () :=
  expect_ack unit ACK_UNROOT;;
  info ← next_info unit;
  send_movement unit SMSG_SPLINE_MOVE_UNROOT SMSG_MOVE_UNROOT info false true.

Definition SendTeleportPacket (unit : Z) (p : Position) : SM () :=
  expect_ack unit ACK_TELEPORT;;
  info ← next_info unit;
  let info := info <| pos ::=
    Relocate (m_positionX p) (m_positionY p) (m_positionZ p) (m_orientation p) |> in
  send_movement unit SMSG_MOVE_UPDATE_TELEPORT SMSG_MOVE_TELEPORT info false true.

Definition SendMovementHover (unit : Z) : SM () :=
  expect_ack unit ACK_HOVER;;
  info ← next_info unit;
  u ← unit_at unit;
  if HasUnitMovementFlag MOVEMENTFLAG_HOVER u
  then send_movement unit SMSG_SPLINE_MOVE_SET_HOVER SMSG_MOVE_SET_HOVER info false true
  else send_movement unit SMSG_SPLINE_MOVE_UNSET_HOVER SMSG_MOVE_UNSET_HOVER info false true.

Definition SendMovementWaterWalking (unit : Z) : SM () :=
  expect_ack unit ACK_WATER_WALK;;
  info ← next_info unit;
  u ← unit_at unit;
  if HasUnitMovementFlag MOVEMENTFLAG_WATERWALKING u
  then send_movement unit SMSG_SPLINE_MOVE_SET_WATER_WALK SMSG_MOVE_WATER_WALK info false true
  else send_movement unit SMSG_SPLINE_MOVE_SET_LAND_WALK SMSG_MOVE_LAND_WALK info false true.

Definition SendMovementFeatherFall (unit : Z) : SM () :=
  expect_ack unit ACK_FEATHER_FALL;;
  info ← next_info unit;
  u ← unit_at unit;
  if HasUnitMovementFlag MOVEMENTFLAG_FALLING_SLOW u
  then send_movement unit SMSG_SPLINE_MOVE_SET_FEATHER_FALL SMSG_MOVE_FEATHER_FALL info false true
  else send_movement unit SMSG_SPLINE_MOVE_SET_NORMAL_FALL SMSG_MOVE_NORMAL_FALL info false true.

Definition SendMovementDisableGravity (unit : Z) : SM () :=
  expect_ack unit ACK_GRAVITY;;
  info ← next_info unit;
  u ← unit_at unit;
  if HasUnitMovementFlag MOVEMENTFLAG_DISABLE_GRAVITY u
  then send_movement unit SMSG_SPLINE_MOVE_GRAVITY_DISABLE SMSG_MOVE_GRAVITY_DISABLE info false true
  else send_movement unit SMSG_SPLINE_MOVE_GRAVITY_ENABLE SMSG_MOVE_GRAVITY_ENABLE info false true.

(** Swimming and walking are not numbered. *)
Definition SendMovementSwimming (unit : Z) : SM () :=
  u ← unit_at unit;
  let info := (m_movementInfo u) <| guid := unit |> in
  if HasUnitMovementFlag MOVEMENTFLAG_SWIMMING u
  then send_movement unit SMSG_SPLINE_MOVE_START_SWIM SMSG_MOVE_START_SWIM info true true
  else send_movement unit SMSG_SPLINE_MOVE_STOP_SWIM SMSG_MOVE_STOP_SWIM info true true.

Definition SendMovementWalkMode (unit : Z) : SM () :=
  u ← unit_at unit;
  let info := (m_movementInfo u) <| guid := unit |> in
  if HasUnitMovementFlag MOVEMENTFLAG_WALKING u
  then send_movement unit SMSG_SPLINE_MOVE_SET_WALK_MODE SMSG_MOVE_SET_WALK_MODE info true true
  else send_movement unit SMSG_SPLINE_MOVE_SET_RUN_MODE SMSG_MOVE_SET_RUN_MODE info true true.

Definition SendMovementCanFlyChange (unit : Z) : SM () :=
  expect_ack unit ACK_CAN_FLY;;
  info ← next_info unit;
  u ← unit_at unit;
  if is_player (unit_view u) then
    let opcode := if HasUnitMovementFlag MOVEMENTFLAG_CAN_FLY u
                  then SMSG_MOVE_SET_CAN_FLY else SMSG_MOVE_UNSET_CAN_FLY in
    '(_, data) ← on_local (WorldPacket_new opcode) (WriteToPacket info);
    tell_server (Delivered unit (SendDirectMessage data))
  else
    let opcode := if HasUnitMovementFlag MOVEMENTFLAG_CAN_FLY u
                  then SMSG_SPLINE_MOVE_SET_FLYING else SMSG_SPLINE_MOVE_UNSET_FLYING in
    '(_, data) ← on_local (WorldPacket_new opcode) (WriteToPacket info);
    tell_server (Delivered unit (SendMessageToSet data false)).

(** Of [Player], which has the array in any case. *)
Definition SendMovementSetCollisionHeight (player height : Z) : SM () :=
  update_unit player (fun u =>
    u <| m_movement_ack ::= <[Z.to_nat ACK_COLLISION_HEIGHT := m_movementCounter u]> |>);;
  info ← next_info player;
  send_movement player SMSG_MOVE_SET_COLLISION_HEIGHT SMSG_MOVE_SET_COLLISION_HEIGHT
    (info <| Movement.height := height |>) false false.

Definition GetSpeedRate (u : Unit) (mtype : Z) : Z := nth (Z.to_nat mtype) (m_speed_rate u) 0.
Definition GetSpeed (u : Unit) (mtype : Z) : Z :=
  f32_bits (f32_mul (f32_of_bits (GetSpeedRate u mtype))
    (f32_of_bits (nth (Z.to_nat mtype)
       (if IsControlledByPlayer u then playerBaseMoveSpeed else baseMoveSpeed) 0))).

(** [SetSpeed]; the call on the player's pet is one level down ([depth] bounds
    the levels, and the pet is not a player). *)
Definition SetSpeed_with (SetSpeed_pet : Z -> Z -> Z -> bool -> SM ())
    (unit mtype rate : Z) (forced : bool) : SM () :=
  let rate := if f32_ltb (f32_of_bits rate) f32_zero then 0 else rate in
  u ← unit_at unit;
  if f32_eqb (f32_of_bits (GetSpeedRate u mtype)) (f32_of_bits rate) then mret tt
  else
    update_unit unit (fun u => u <| m_speed_rate ::= <[Z.to_nat mtype := rate]> |>);;
    tell_server (PropagatedSpeedChange unit);;
    u ← unit_at unit;
    when (is_player (unit_view u))
      (update_unit unit (fun u =>
         u <| m_forced_speed_changes ::= <[Z.to_nat mtype := m_movementCounter u]> |>);;
       when (negb (isInCombat u))
         match GetPet u with
         | Some pet => SetSpeed_pet pet mtype (GetSpeedRate u mtype) forced
         | None => mret tt
         end);;
    info ← next_info unit;
    u ← unit_at unit;
    let opcodes := nth (Z.to_nat mtype) moveTypeToOpcode (0, 0) in
    send_movement unit opcodes.1 opcodes.2 (info <| ackSpeed := GetSpeed u mtype |>) false true.

Fixpoint SetSpeed (depth : nat) : Z -> Z -> Z -> bool -> SM () :=
  match depth with
  | O => fun _ _ _ _ => abort UndefinedBehaviour
  | S depth' => SetSpeed_with (SetSpeed depth')
  end.
End Senders.

(** ** Synchronisation of clocks *)

Definition SMSG_TIME_SYNC_REQ : Z := 0x3CA4.
Definition CMSG_TIME_SYNC_RESP : Z := 0x3B0C.

Section TimeSync.
Context `{Host} `{World}.

Definition ResetTimeSync (player : Z) : SM () :=
  time ← ask getMSTime;
  update_unit player (fun u =>
    u <| m_timeSyncTimer := 0 |> <| m_timeSyncClient := 0 |> <| m_timeSyncServer := time |>).

(** The numbers are those of the messages about movement. *)
Definition SendTimeSync (player : Z) : SM () :=
  update_unit player (fun u =>
    u <| m_timeSyncQueue ::= fun q => q ++ [m_movementCounter u] |>
      <| m_movementCounter ::= fun c => u32 (c + 1) |>);;
  u ← unit_at player;
  '(_, data) ← on_local (WorldPacket_new SMSG_TIME_SYNC_REQ)
                 (lift (out TU32 (List.last (m_timeSyncQueue u) 0)));
  tell_server (PacketSent player data);;
  time ← ask getMSTime;
  update_unit player (fun u => u <| m_timeSyncTimer := 10000 |> <| m_timeSyncServer := time |>).

(** The timer, in [Player::Update]. *)
Definition UpdateTimeSync (player p_time : Z) : SM () :=
  u ← unit_at player;
  when (0 <? m_timeSyncTimer u)
    (if m_timeSyncTimer u <=? p_time then SendTimeSync player
     else update_unit player (fun u => u <| m_timeSyncTimer ::= fun t => t - p_time |>)).

(** The front of an empty queue is undefined. *)
Definition HandleTimeSyncResp (_player : Z) (recvData : WorldPacket) : SM WorldPacket :=
  bg ← ask (fun l => GetBattleground l _player);
  (if (bg : bool) then
     forget ← ask (fun l => ShouldForgetBGPlayers l _player);
     when forget (tell_server (ForgotPlayersInBG _player))
   else
     forget ← ask (fun l => ShouldForgetInListPlayers l _player);
     when forget (tell_server (ForgotPlayersInList _player)));;
  '(clientTicks, recvData) ← on_local recvData (lift (inn TU32;; inn TU32));
  u ← unit_at _player;
  match m_timeSyncQueue u with
  | [] => abort UndefinedBehaviour
  | _ :: queue =>
      update_unit _player (fun u =>
        u <| m_timeSyncClient := clientTicks |> <| m_timeSyncQueue := queue |>);;
      mret recvData
  end.
End TimeSync.

(** ** Moves of the client *)

(** [Trinity::IsValidMapCoord]. *)
Definition SIZE_OF_GRIDS : f32 := f32_of_bits 0x44055555.
Definition MAX_NUMBER_OF_GRIDS : Z := 64.
Definition MAP_SIZE : f32 := f32_mul SIZE_OF_GRIDS (f32_of_Z MAX_NUMBER_OF_GRIDS).
Definition MAP_HALFSIZE : f32 := f32_div MAP_SIZE (f32_of_Z 2).

Definition finite (c : f32) : bool :=
  match c with S754_zero _ | S754_finite _ _ _ => true | _ => false end.
Definition IsValidMapCoord_c (c : f32) : bool :=
  finite c && SFleb (SFabs c) (f32_sub MAP_HALFSIZE f32_half).
Definition IsValidMapCoord (x y z o : f32) : bool :=
  IsValidMapCoord_c x && IsValidMapCoord_c y && finite z && finite o.

Definition IsPositionValid (p : Position) : bool :=
  IsValidMapCoord (f32_of_bits (m_positionX p)) (f32_of_bits (m_positionY p))
    (f32_of_bits (m_positionZ p)) (f32_of_bits (m_orientation p)).

Definition MAX_HEIGHT : Z := 0x47C35000.

(** The heights between which a player may be. *)
Definition map_limits (mapid : Z) (depth : option Z) : Z * Z :=
  if mapid =? 617 then (0x40400000, 0x41F00000)
  else if mapid =? 562 then (0xBF800000, 0x41B00000)
  else if mapid =? 559 then (0xBF800000, 0x41A80000)
  else if mapid =? 572 then (0xBF800000, 0x42340000)
  else if mapid =? 618 then (0x41E00000, 0x42700000)
  else if mapid =? 566 then (0x447A0000, MAX_HEIGHT)
  else (match depth with Some d => d | None => 0xC3FA0000 end, MAX_HEIGHT).

Definition CanMovementBeProcessed (opcode : Z) : bool :=
  (opcode =? CMSG_MOVE_NOT_ACTIVE_MOVER) || (opcode =? CMSG_FORCE_MOVE_ROOT_ACK) ||
  (opcode =? MSG_MOVE_STOP).

(** [a + b] and the comparisons of [float]s by their representations. *)
Definition f_add (a b : Z) : f32 := f32_add (f32_of_bits a) (f32_of_bits b).
Definition f_gt (a b : Z) : bool := f32_ltb (f32_of_bits b) (f32_of_bits a).
Definition f_eq (a b : Z) : bool := f32_eqb (f32_of_bits a) (f32_of_bits b).

Section Handlers.
Context `{Host} `{World}.

(** The session's player and the unit it moves. *)
Context (_player m_mover : Z).

(** What is left of a transport that was not found: no position on it. *)
Definition off_transport (mi : MovementInfo) : MovementInfo :=
  mi <| t_pos ::= Relocate 0 0 0 0 |> <| t_time := 0 |> <| t_seat := -1 |>.

(** The player gets on the transport of that GUID, if there is one. *)
Definition board (plrMover t : Z) : SM bool :=
  transports ← ask m_Transports;
  if bool_decide (t ∈ transports) then
    update_unit plrMover (fun u => u <| m_transport := Some t |>);;
    tell_server (AddedPassenger t plrMover);;
    mret true
  else mret false.

(** The part of [HandleMovementInfo] about a transport; [None] is [return false]. *)
Definition handle_transport (mover : Z) (movementInfo : MovementInfo) : SM (option MovementInfo) :=
  u ← unit_at mover;
  if negb (t_guid movementInfo =? 0) then
    let t := t_pos movementInfo in
    let p := pos movementInfo in
    if f_gt (m_positionX t) 0x42480000 || f_gt (m_positionY t) 0x42480000 ||
       f_gt (m_positionZ t) 0x42480000
    then mret None
    else if negb (IsValidMapCoord (f_add (m_positionX p) (m_positionX t))
                    (f_add (m_positionY p) (m_positionY t)) (f_add (m_positionZ p) (m_positionZ t))
                    (f_add (m_orientation p) (m_orientation t)))
    then mret None
    else
      movementInfo ←
        (if is_player (unit_view u) then
           match m_transport u with
           | None => board mover (t_guid movementInfo);; mret movementInfo
           | Some old =>
               if negb (old =? t_guid movementInfo) then
                 tell_server (RemovedPassenger old mover);;
                 foundNewTransport ← board mover (t_guid movementInfo);
                 if (foundNewTransport : bool) then mret movementInfo
                 else update_unit mover (fun u => u <| m_transport := None |>);;
                      mret (off_transport movementInfo)
               else
                 when (negb (f_eq (m_positionX p) (m_positionX t)))
                   (tell_server (TransportMoved old movementInfo));;
                 mret movementInfo
           end
         else mret movementInfo);
      u ← unit_at mover;
      vehicle ← ask (fun l => GetVehicle l mover);
      if bool_decide (m_transport u = None) && negb vehicle then
        go ← ask (fun l => is_transport_object l mover (t_guid movementInfo));
        mret (Some (if (go : bool) then movementInfo else movementInfo <| t_guid := 0 |>))
      else mret (Some movementInfo)
  else
    match (if is_player (unit_view u) then m_transport u else None) with
    | Some old =>
        tell_server (RemovedPassenger old mover);;
        update_unit mover (fun u => u <| m_transport := None |>);;
        mret (Some (off_transport movementInfo))
    | None => mret (Some movementInfo)
    end.

(** What a player who is out of the bounds of the map suffers. *)
Definition check_under_map (mover : Z) (movementInfo : MovementInfo) : SM () :=
  mapid ← ask (fun l => GetMapId l mover);
  depth ← ask (fun l => area_MaxDepth l mover);
  let '(underMapValueZ, upperLimitValueZ) := map_limits mapid depth in
  let z := m_positionZ (pos movementInfo) in
  alive ← ask (fun l => isAlive l mover);
  when ((f_gt underMapValueZ z || f_gt z upperLimitValueZ) && alive)
    (battleground ← ask (fun l => GetBattleground l mover);
     handled ← (if (battleground : bool) then
                  answer ← ask (fun l => HandlePlayerUnderMap l mover);
                  tell_server (UnderMapHandled _player);; mret answer
                else mret false);
     when (negb handled)
       (health ← ask (fun l => GetMaxHealth l _player);
        tell_server (FellToVoid mover health);;
        alive ← ask (fun l => isAlive l mover);
        when (negb alive) (tell_server (PlayerKilled mover));;
        tell_server (Repopped mover))).

Definition HandleMovementInfo (movementInfo : MovementInfo) (opcode mover : Z) : SM bool :=
  u ← unit_at mover;
  let plrMover := is_player (unit_view u) in
  if negb (guid movementInfo =? mover) || negb (IsPositionValid (pos movementInfo)) then mret false
  else
  teleported ← ask (fun l => IsBeingTeleported l mover);
  if plrMover && teleported then mret false
  else if plrMover && controlled_by_server (unit_view u) && negb (CanMovementBeProcessed opcode)
  then mret false
  else
  transported ← handle_transport mover (Sanitize (unit_view u) movementInfo);
  match transported with
  | None => mret false
  | Some movementInfo =>
      in_flight ← ask (fun l => isInFlight l mover);
      when ((opcode =? MSG_MOVE_FALL_LAND) && plrMover && negb in_flight)
        (tell_server (FallHandled mover movementInfo));;
      in_water ← ask (fun l => IsInWater l mover);
      when (plrMover && negb (Bool.eqb (HasMovementFlag MOVEMENTFLAG_SWIMMING movementInfo) in_water))
        (under_water ← ask (fun l => IsUnderWater l mover (pos movementInfo));
         tell_server (SetInWater mover (negb in_water || under_water)));;
      when plrMover (tell_server (HackDetection mover movementInfo opcode));;
      time ← ask getMSTime;
      let movementInfo := movementInfo <| Movement.time := time |> <| guid := mover |> in
      '(_, data) ← on_local (WorldPacket_new (GetSMSGOpcodeForCMSG opcode))
                     (WriteToPacket movementInfo);
      tell_server (SentToSetBut _player data);;
      update_unit mover (fun u => u <| m_movementInfo := movementInfo |>);;
      vehicle ← ask (fun l => GetVehicle l mover);
      if (vehicle : bool) then
        tell_server (OrientationSet mover (m_orientation (pos movementInfo)));; mret true
      else
        u ← unit_at mover;
        when (plrMover && IsFlying u) (tell_server (PetUnsummoned mover));;
        tell_server (PositionUpdated mover (pos movementInfo));;
        when plrMover
          (tell_server (FallInformation mover movementInfo opcode);;
           check_under_map mover movementInfo);;
        mret true
  end.
(** [info.ReadFromPacket(recvPacket)], with the packet as it is left. *)
Definition read_info (recvPacket : WorldPacket) : SM (WorldPacket * MovementInfo) :=
  '(_, s) ← on_local (recvPacket, MovementInfo_new) ReadFromPacket;
  mret s.

(** [recvPacket.rfinish(); return]. *)
Definition finished (recvPacket : WorldPacket) : WorldPacket :=
  recvPacket <| buffer ::= fun b => b <| _rpos := _wpos b |> |>.

Definition HandleMovementOpcodes (recvPacket : WorldPacket) : SM WorldPacket :=
  '(recvPacket, info) ← read_info recvPacket;
  emote ← ask (fun l => emote_state l _player);
  when (negb (emote =? 0)) (tell_server (EmoteStopped _player));;
  HandleMovementInfo info (m_opcode recvPacket) m_mover;;
  mret recvPacket.

(** The handlers of the acknowledgements differ in the kind only. *)
Definition HandleMovementAck (ack : Z) (recvPacket : WorldPacket) : SM WorldPacket :=
  '(recvPacket, info) ← read_info recvPacket;
  player ← unit_at _player;
  if negb (nth (Z.to_nat ack) (m_movement_ack player) 0 =? ackCount info)
  then mret (finished recvPacket)
  else HandleMovementInfo info (m_opcode recvPacket) m_mover;; mret recvPacket.

Definition HandleMovementGravityAck := HandleMovementAck ACK_GRAVITY.
Definition HandleMovementHoverAck := HandleMovementAck ACK_HOVER.
Definition HandleMovementWaterWalkAck := HandleMovementAck ACK_WATER_WALK.
Definition HandleMovementCanFlyAck := HandleMovementAck ACK_CAN_FLY.
Definition HandleMovementCollisionHeightAck := HandleMovementAck ACK_COLLISION_HEIGHT.
Definition HandleMovementFeatherFallAck := HandleMovementAck ACK_FEATHER_FALL.
Definition HandleMovementRootAck := HandleMovementAck ACK_ROOT.
Definition HandleMovementUnrootAck := HandleMovementAck ACK_UNROOT.

(** The kind of speed an opcode acknowledges. *)
Definition speed_ack (opcode : Z) : option Z :=
  if opcode =? CMSG_MOVE_FORCE_WALK_SPEED_CHANGE_ACK then Some MOVE_WALK
  else if opcode =? CMSG_MOVE_FORCE_RUN_SPEED_CHANGE_ACK then Some MOVE_RUN
  else if opcode =? CMSG_MOVE_FORCE_RUN_BACK_SPEED_CHANGE_ACK then Some MOVE_RUN_BACK
  else if opcode =? CMSG_MOVE_FORCE_SWIM_SPEED_CHANGE_ACK then Some MOVE_SWIM
  else if opcode =? CMSG_MOVE_FORCE_SWIM_BACK_SPEED_CHANGE_ACK then Some MOVE_SWIM_BACK
  else if opcode =? CMSG_MOVE_FORCE_TURN_RATE_CHANGE_ACK then Some MOVE_TURN_RATE
  else if opcode =? CMSG_MOVE_FORCE_FLIGHT_SPEED_CHANGE_ACK then Some MOVE_FLIGHT
  else if opcode =? CMSG_MOVE_FORCE_FLIGHT_BACK_SPEED_CHANGE_ACK then Some MOVE_FLIGHT_BACK
  else if opcode =? CMSG_MOVE_FORCE_PITCH_RATE_CHANGE_ACK then Some MOVE_PITCH_RATE
  else None.

(** The opcode of the broadcast of the kinds whose update packet is not known. *)
Definition unknown_update (moveType : Z) : option Z :=
  if moveType =? MOVE_TURN_RATE then Some SMSG_MOVE_SET_TURN_RATE
  else if moveType =? MOVE_FLIGHT_BACK then Some SMSG_MOVE_SET_FLIGHT_BACK_SPEED
  else if moveType =? MOVE_PITCH_RATE then Some SMSG_MOVE_SET_PITCH_RATE
  else None.

(** [fabs(a - b) > 0.01f]. *)
Definition speed_differs (a b : Z) : bool :=
  f32_ltb (f32_of_bits 0x3C23D70A) (SFabs (f32_sub (f32_of_bits a) (f32_of_bits b))).

Definition HandleMovementSpeedChangeAck (recvPacket : WorldPacket) : SM WorldPacket :=
  match speed_ack (m_opcode recvPacket) with
  | None => mret recvPacket
  | Some moveType =>
      '(recvPacket, info) ← read_info recvPacket;
      player ← unit_at _player;
      if negb (nth (Z.to_nat moveType) (m_forced_speed_changes player) 0 =? ackCount info)
      then mret (finished recvPacket)
      else if bool_decide (m_transport player = None) &&
              speed_differs (GetSpeed player moveType) (ackSpeed info)
      then
        when (f_gt (GetSpeed player moveType) (ackSpeed info))
          (SetSpeed 2 _player moveType (GetSpeedRate player moveType) true);;
        mret (finished recvPacket)
      else
        match unknown_update moveType with
        | Some opcode =>
            '(_, data) ← on_local WorldPacket_default (Initialize opcode 17;; WriteToPacket info);
            tell_server (SentToSetBut _player data)
        | None => mret tt
        end;;
        HandleMovementInfo info (m_opcode recvPacket) m_mover;;
        mret recvPacket
  end.
(** The opcodes of [HandleMovementOpcodes]. *)
Definition movement_opcodes : list Z :=
  [MSG_MOVE_STOP_TURN; SMSG_MOVE_STOP_SWIM; MSG_MOVE_STOP_STRAFE; MSG_MOVE_STOP_PITCH;
   MSG_MOVE_STOP_ASCEND; MSG_MOVE_STOP; MSG_MOVE_START_TURN_RIGHT; MSG_MOVE_START_TURN_LEFT;
   SMSG_MOVE_START_SWIM; MSG_MOVE_START_STRAFE_RIGHT; MSG_MOVE_START_STRAFE_LEFT;
   MSG_MOVE_START_PITCH_UP; MSG_MOVE_START_PITCH_DOWN; MSG_MOVE_START_FORWARD;
   MSG_MOVE_START_DESCEND; MSG_MOVE_START_BACKWARD; MSG_MOVE_START_ASCEND; MSG_MOVE_SET_PITCH;
   MSG_MOVE_SET_FACING; MSG_MOVE_JUMP; MSG_MOVE_HEARTBEAT; MSG_MOVE_FALL_LAND;
   CMSG_MOVE_KNOCK_BACK_ACK; CMSG_MOVE_CHNG_TRANSPORT; CMSG_MOVE_NOT_ACTIVE_MOVER].

(** The handler that is registered for a packet; other packets are not about
    movement. *)
Definition HandlePacket (recvPacket : WorldPacket) : SM WorldPacket :=
  let opcode := m_opcode recvPacket in
  if bool_decide (opcode ∈ movement_opcodes) then HandleMovementOpcodes recvPacket
  else if opcode =? CMSG_MOVE_WATER_WALK_ACK then HandleMovementWaterWalkAck recvPacket
  else if opcode =? CMSG_MOVE_SET_COLLISION_HEIGHT_ACK then HandleMovementCollisionHeightAck recvPacket
  else if opcode =? CMSG_MOVE_SET_CAN_FLY_ACK then HandleMovementCanFlyAck recvPacket
  else if opcode =? CMSG_MOVE_HOVER_ACK then HandleMovementHoverAck recvPacket
  else if (opcode =? CMSG_MOVE_GRAVITY_ENABLE_ACK) || (opcode =? CMSG_MOVE_GRAVITY_DISABLE_ACK)
  then HandleMovementGravityAck recvPacket
  else if opcode =? CMSG_MOVE_FEATHER_FALL_ACK then HandleMovementFeatherFallAck recvPacket
  else if opcode =? CMSG_FORCE_MOVE_UNROOT_ACK then HandleMovementUnrootAck recvPacket
  else if opcode =? CMSG_FORCE_MOVE_ROOT_ACK then HandleMovementRootAck recvPacket
  else if bool_decide (is_Some (speed_ack opcode)) then HandleMovementSpeedChangeAck recvPacket
  else if opcode =? CMSG_TIME_SYNC_RESP then HandleTimeSyncResp _player recvPacket
  else mret recvPacket.

(** The session goes on after a packet that was too short. *)
Definition ReceivePacket (recvPacket : WorldPacket) : SM () := fun s =>
  match HandlePacket recvPacket s with
  | Ok _ s' | Throw _ s' => Ok tt s'
  | Abort x => Abort x
  end.
End Handlers.
