(* ===== verification/MoverProps.v ===== *)
(** * The numbered messages of a player and their acknowledgements

    Abstractly a player's client is sent a numbered sequence of changes; the
    server accepts the acknowledgement of a change when it carries the number
    of the last change of that kind.  [Mover.v] implements this with one
    counter and an array of the last numbers. *)

From Stdlib Require Import SpecFloat.
From S2P Require Import Prelude Float32 ByteBuffer BitStream Wire WireProps Packet MovementTables Movement.
From S2P Require Import MovementWire MovementProps MovementSafe MovementTotal Mover.

(** ** The abstract protocol *)

Inductive change :=
| CAck (ack : Z)
| CSpeed (mtype : Z)
| CTimeSync.

#[export] Instance change_eq_dec : EqDecision change.
Proof. solve_decision. Defined.

(** The changes sent, the last one first; the speeds; the requests for the
    client's clock that are not answered, the oldest first. *)
Record Spec := mkSpec {
  sp_log : list change;
  sp_rates : list Z;
  sp_pending : list Z
}.
#[export] Instance Spec_settable : Settable Spec :=
  fun sp => mkSpec (sp_log sp) (sp_rates sp) (sp_pending sp).

(** The first change has number 0; the counter has 32 bits. *)
Definition number (log : list change) : Z := u32 (zlen log).

(** The number of the last change of a kind, 0 if there is none. *)
Fixpoint last_number (k : change) (log : list change) : Z :=
  match log with
  | [] => 0
  | c :: log' => if decide (c = k) then number log' else last_number k log'
  end.

Definition spec_send (k : change) (sp : Spec) : Spec := sp <| sp_log ::= cons k |>.

(** The rate a unit gets: negative ones become 0. *)
Definition new_rate (rate : Z) : Z := if f32_ltb (f32_of_bits rate) f32_zero then 0 else rate.

(** A speed is only sent when it changes. *)
Definition spec_speed (mtype rate : Z) (sp : Spec) : Spec :=
  if f_eq (nth (Z.to_nat mtype) (sp_rates sp) 0) (new_rate rate) then sp
  else spec_send (CSpeed mtype) sp <| sp_rates ::= <[Z.to_nat mtype := new_rate rate]> |>.

Definition spec_sync (sp : Spec) : Spec :=
  spec_send CTimeSync sp <| sp_pending ::= fun q => q ++ [number (sp_log sp)] |>.

(** ** Refinement *)

Record tracks (sp : Spec) (u : Unit) : Prop := {
  tr_counter : m_movementCounter u = number (sp_log sp);
  tr_acks : forall a, 0 <= a < ACK_TYPE_MAX ->
    nth (Z.to_nat a) (m_movement_ack u) 0 = last_number (CAck a) (sp_log sp);
  tr_speeds : forall t, 0 <= t < MAX_MOVE_TYPE ->
    nth (Z.to_nat t) (m_forced_speed_changes u) 0 = last_number (CSpeed t) (sp_log sp);
  tr_rates : m_speed_rate u = sp_rates sp;
  tr_pending : m_timeSyncQueue u = sp_pending sp;
  tr_nacks : length (m_movement_ack u) = Z.to_nat ACK_TYPE_MAX;
  tr_nspeeds : length (m_forced_speed_changes u) = Z.to_nat MAX_MOVE_TYPE
}.

(** No rate is negative. *)
Definition rates_ok (sp : Spec) : Prop :=
  length (sp_rates sp) = Z.to_nat MAX_MOVE_TYPE /\
  Forall (fun r => f32_ltb (f32_of_bits r) f32_zero = false) (sp_rates sp).

(** The session of the player [g], who moves the unit [m]: [g] is a player
    whose counters are as the protocol says, and whose pet is a creature. *)
Record session (g m : Z) (sp : Spec) (s : Server) : Prop := {
  ses_player : exists u, units s !! g = Some u /\ is_player (unit_view u) = true /\ tracks sp u /\
    forall p, GetPet u = Some p -> exists up, units s !! p = Some up /\ is_player (unit_view up) = false;
  ses_mover : is_Some (units s !! m);
  ses_rates : rates_ok sp
}.

Definition same_static (u u' : Unit) : Prop :=
  unit_view u' = unit_view u /\ GetPet u' = GetPet u.

(** The units that were there are still there. *)
Definition static_le (s s' : Server) : Prop :=
  forall y v, units s !! y = Some v -> exists v', units s' !! y = Some v' /\ same_static v v'.

Lemma static_trans s1 s2 s3 : static_le s1 s2 -> static_le s2 s3 -> static_le s1 s3.
Proof.
  intros H12 H23 y v Hv. destruct (H12 y v Hv) as (v' & Hv' & [H1 H2]).
  destruct (H23 y v' Hv') as (v'' & Hv'' & [H3 H4]). exists v''.
  split; [done|]. split; congruence.
Qed.

Lemma session_static g m sp sp' s s' u' :
  session g m sp s -> static_le s s' -> units s' !! g = Some u' -> tracks sp' u' -> rates_ok sp' ->
  session g m sp' s'.
Proof.
  intros [(u & Hu & Hp & _ & Hpet) [um Hm] _] Hst Hu' Ht Hr. split; [|by destruct (Hst m um Hm) as (?&->&_)|done].
  destruct (Hst g u Hu) as (v & Hv & [Hview Hgp]). rewrite Hu' in Hv. injection Hv as <-.
  exists u'. split_and!; [done|by rewrite Hview|done|]. intros p. rewrite Hgp. intros Hup.
  destruct (Hpet p Hup) as (up & Hlp & Hnp). destruct (Hst p up Hlp) as (up' & Hlp' & [Hv' _]).
  exists up'. by rewrite Hv'.
Qed.

Lemma session_update g m sp sp' x f s :
  session g m sp s -> (forall u, same_static u (f u)) ->
  (if decide (x = g) then forall u, tracks sp u -> tracks sp' (f u) else sp' = sp) ->
  rates_ok sp' -> session g m sp' (s <| units ::= alter f x |>).
Proof.
  intros [(u & Hu & Hp & Ht & Hpet) Hm Hr] Hf Hx Hr'. split; cbn [units set_field].
  - assert (Hpet' : forall p, GetPet u = Some p ->
      exists up, alter f x (units s) !! p = Some up /\ is_player (unit_view up) = false).
    { intros p Hup. destruct (Hpet p Hup) as (up & Hlu & Hnp).
      destruct (decide (x = p)) as [->|]; [|exists up; by rewrite lookup_alter_ne].
      exists (f up). rewrite lookup_alter_eq, Hlu. split; [done|]. by rewrite (proj1 (Hf up)). }
    case_decide as Hxg.
    + subst x. exists (f u). rewrite lookup_alter_eq, Hu. split_and!; [done| |by apply Hx|].
      * by rewrite (proj1 (Hf u)).
      * by rewrite (proj2 (Hf u)).
    + subst sp'. exists u. rewrite lookup_alter_ne by done. by split_and!.
  - destruct (decide (x = m)) as [->|].
    + rewrite lookup_alter_eq. by apply fmap_is_Some.
    + by rewrite lookup_alter_ne.
  - done.
Qed.

Lemma session_event g m sp s e : session g m sp s -> session g m sp (s <| events ::= e |>).
Proof. intros [H1 H2 H3]. by split. Qed.

(** ** What does not touch the counters *)

Definition quiet (f : Unit -> Unit) : Prop :=
  forall u, same_static u (f u) /\ forall sp, tracks sp u -> tracks sp (f u).

Lemma quiet_transport t : quiet (fun u => u <| m_transport := t |>).
Proof. intros u. split; [done|]. intros sp []. by split. Qed.

Lemma quiet_info mi : quiet (fun u => u <| m_movementInfo := mi |>).
Proof. intros u. split; [done|]. intros sp []. by split. Qed.

(** [b]: whether an exception is allowed. *)
Section Keeps.
Context (b : bool) (g m : Z) (sp : Spec).

Definition keeps_session {A} (c : SM A) : Prop :=
  forall s, session g m sp s ->
  wp c (fun _ => session g m sp) (fun _ s' => b = true /\ session g m sp s') s.

Lemma ses_ret {A} (a : A) : keeps_session (mret a).
Proof. by intros s Hs. Qed.

Lemma ses_bind {A B} (c : SM A) (f : A -> SM B) :
  keeps_session c -> (forall a, keeps_session (f a)) -> keeps_session (c ≫= f).
Proof. intros Hc Hf s Hs. apply wp_bind. eapply wp_mono; [by apply Hc| |done]. intros. by apply Hf. Qed.

Lemma ses_when x c : keeps_session c -> keeps_session (when x c).
Proof. destruct x; [done|]. intros _. apply ses_ret. Qed.

Lemma ses_tell e : keeps_session (tell_server e).
Proof. intros s Hs. apply wp_modify. by apply session_event. Qed.

Lemma ses_ask {A} (q : list event -> A) : keeps_session (ask q).
Proof. by intros s Hs. Qed.

Lemma ses_unit_at x : x = g \/ x = m -> keeps_session (unit_at x).
Proof.
  intros Hx s Hs. assert (Hu : is_Some (units s !! x)).
  { destruct Hs as [(u & Hu & _) Hm _]. destruct Hx as [->| ->]; [by rewrite Hu|done]. }
  destruct Hu as [u Hu]. unfold wp, unit_at. run. by rewrite Hu.
Qed.

Lemma ses_update x f : quiet f -> keeps_session (update_unit x f).
Proof.
  intros Hf s Hs. apply wp_modify. eapply session_update; [done|intros; apply Hf| |apply Hs].
  case_decide; [|done]. intros u. apply Hf.
Qed.

Lemma ses_local {T A} (s0 : T) (c : M T ByteBufferException A) :
  wp c (fun _ _ => True) (fun _ _ => b = true) s0 -> keeps_session (on_local s0 c).
Proof. intros Hc s Hs. unfold wp, on_local in *. by destruct (c s0). Qed.

Lemma ses_for_each {A} (l : list A) (c : A -> SM ()) :
  (forall x, keeps_session (c x)) -> keeps_session (for_each l c).
Proof.
  intros Hc. induction l as [|x l IH]; [apply ses_ret|]. cbn [for_each]. by apply ses_bind.
Qed.
End Keeps.

Create HintDb session discriminated.
#[export] Hint Resolve ses_ret ses_tell ses_ask quiet_transport quiet_info : session.
#[export] Hint Resolve ses_update : session.

(** One step of a computation that keeps the session. *)
Ltac ses_step :=
  cbv zeta;
  lazymatch goal with
  | |- keeps_session _ _ _ _ (_ ≫= _) => apply ses_bind; [|intros ?]
  | |- keeps_session _ _ _ _ (when _ _) => apply ses_when
  | |- keeps_session _ _ _ _ (unit_at _) => apply ses_unit_at; auto
  | |- keeps_session _ _ _ _ (if ?b then _ else _) => destruct b
  | |- keeps_session _ _ _ _ (match ?o with _ => _ end) => destruct o
  | |- keeps_session _ _ _ _ _ => solve [auto with session]
  end.

Section Handlers.
Context `{Host} `{World}.
Context (b : bool) (g m : Z) (sp : Spec).

Lemma write_total op mi X :
  wp (WriteToPacket mi) (fun _ _ => True) X (WorldPacket_new op).
Proof.
  destruct (WriteToPacket_bounded mi (WorldPacket_new op)) as (data & Hd & _);
    [apply wr_wf_new|done|]. unfold wp. by rewrite Hd.
Qed.

Lemma ses_write op mi :
  keeps_session b g m sp (on_local (WorldPacket_new op) (WriteToPacket mi)).
Proof. apply ses_local, write_total. Qed.
#[local] Hint Resolve ses_write : session.

Lemma ses_board x t : keeps_session b g m sp (board x t).
Proof. unfold board. repeat ses_step. Qed.
#[local] Hint Resolve ses_board : session.

Lemma ses_handle_transport mi : keeps_session b g m sp (handle_transport m mi).
Proof. unfold handle_transport. repeat ses_step. Qed.
#[local] Hint Resolve ses_handle_transport : session.

Lemma ses_check_under_map mi : keeps_session b g m sp (check_under_map g m mi).
Proof. unfold check_under_map. repeat ses_step. Qed.
#[local] Hint Resolve ses_check_under_map : session.

Lemma ses_HandleMovementInfo mi op : keeps_session b g m sp (HandleMovementInfo g mi op m).
Proof. unfold HandleMovementInfo. repeat ses_step. Qed.
End Handlers.

(** ** Messages about movement *)

Section Senders.
Context `{Host} `{World}.

Lemma Send_run p l :
  exists d, Send p l = Ok tt (l ++ [d]).
Proof.
  unfold Send. unfold mbind, M_bind, on_local, modify.
  destruct (WriteToPacket_bounded (_info p) (WorldPacket_new (_toSend p))) as (data & Hd & _);
    [apply wr_wf_new|done|]. rewrite Hd. by eexists.
Qed.

Lemma unit_at_run x u s : units s !! x = Some u -> unit_at x s = Ok u s.
Proof. intros Hu. unfold unit_at. run. by rewrite Hu. Qed.

Lemma send_movement_run x controlled self info bs bc s u :
  units s !! x = Some u ->
  exists d, send_movement x controlled self info bs bc s
    = Ok tt (s <| events ::= fun l => l ++ [Delivered x d] |>).
Proof.
  intros Hu. unfold send_movement. rewrite (bind_run _ _ _ _ _ (unit_at_run _ _ _ Hu)).
  destruct (Send_run (PacketSender_new (unit_view u) controlled self info bs bc) []) as [d Hd].
  exists d. unfold mbind, M_bind, on_local. rewrite Hd. cbn [app for_each].
  unfold mbind, M_bind, tell_server, modify. done.
Qed.
End Senders.

(** ** One more message *)

Lemma number_cons k log : number (k :: log) = u32 (number log + 1).
Proof.
  unfold number. rewrite zlen_cons. unfold wrap. rewrite Z.add_mod_idemp_l by lia. f_equal. lia.
Qed.

Definition counted (u : Unit) : Unit := u <| m_movementCounter ::= fun c => u32 (c + 1) |>.
Definition acked (a : Z) (u : Unit) : Unit :=
  u <| m_movement_ack ::= <[Z.to_nat a := m_movementCounter u]> |>.
Definition forced (t : Z) (u : Unit) : Unit :=
  u <| m_forced_speed_changes ::= <[Z.to_nat t := m_movementCounter u]> |>.
Definition rated (t rate : Z) (u : Unit) : Unit :=
  u <| m_speed_rate ::= <[Z.to_nat t := rate]> |>.

Lemma nth_set (l : list Z) a b x :
  0 <= a < zlen l -> 0 <= b ->
  nth (Z.to_nat b) (<[Z.to_nat a := x]> l) 0 = if decide (b = a) then x else nth (Z.to_nat b) l 0.
Proof.
  intros Ha Hb. rewrite !nth_lookup. unfold zlen in Ha. case_decide as Hba.
  - subst. by rewrite list_lookup_insert_eq by lia.
  - by rewrite list_lookup_insert_ne by lia.
Qed.

Lemma tracks_ack sp a u :
  0 <= a < ACK_TYPE_MAX -> tracks sp u -> tracks (spec_send (CAck a) sp) (counted (acked a u)).
Proof.
  intros Ha [H1 H2 H3 H4 H5 H6 H7]. split; cbn [spec_send sp_log sp_rates sp_pending set_field].
  - change (m_movementCounter (counted (acked a u))) with (u32 (m_movementCounter u + 1)).
    by rewrite number_cons, H1.
  - intros b Hb. cbn [last_number].
    change (m_movement_ack (counted (acked a u)))
      with (<[Z.to_nat a := m_movementCounter u]> (m_movement_ack u)).
    rewrite nth_set by (unfold zlen; rewrite ?H6; unfold ACK_TYPE_MAX in *; lia).
    rewrite H1. repeat case_decide; try congruence. by apply H2.
  - intros t Ht. cbn [last_number]. rewrite decide_False by done. by apply H3.
  - done.
  - done.
  - cbn. by rewrite length_insert.
  - done.
Qed.

Lemma tracks_speed sp t rate u :
  0 <= t < MAX_MOVE_TYPE -> tracks sp u ->
  tracks (spec_send (CSpeed t) sp <| sp_rates ::= <[Z.to_nat t := rate]> |>)
         (counted (forced t (rated t rate u))).
Proof.
  intros Ht [H1 H2 H3 H4 H5 H6 H7]. split; cbn [spec_send sp_log sp_rates sp_pending set_field].
  - change (m_movementCounter (counted (forced t (rated t rate u)))) with (u32 (m_movementCounter u + 1)).
    by rewrite number_cons, H1.
  - intros b Hb. cbn [last_number]. rewrite decide_False by done. by apply H2.
  - intros b Hb. cbn [last_number].
    change (m_forced_speed_changes (counted (forced t (rated t rate u))))
      with (<[Z.to_nat t := m_movementCounter u]> (m_forced_speed_changes u)).
    rewrite nth_set by (unfold zlen; rewrite ?H7; unfold MAX_MOVE_TYPE in *; lia).
    rewrite H1. repeat case_decide; try congruence. by apply H3.
  - cbn. by rewrite H4.
  - done.
  - done.
  - cbn. by rewrite length_insert.
Qed.

Section Player.
Context `{Host} `{World}.
Context (b : bool) (g m : Z).

(** Taking a number: the slot of the kind and the counter are set. *)
Lemma expect_next_run ack (k : MovementInfo -> SM ()) s u :
  units s !! g = Some u -> is_player (unit_view u) = true ->
  (expect_ack g ack;; info ← next_info g; k info) s
  = k ((m_movementInfo u) <| ackCount := m_movementCounter u |> <| guid := g |>)
      (s <| units ::= alter (fun u => counted (acked ack u)) g |>).
Proof.
  intros Hu Hp. unfold expect_ack. unfold mbind at 1, M_bind at 1.
  rewrite (bind_run _ _ _ _ _ (unit_at_run _ _ _ Hu)), Hp. cbn [when].
  unfold update_unit, modify, next_info. unfold mbind at 1, M_bind at 1.
  erewrite bind_run; [|apply unit_at_run; cbn; by rewrite lookup_alter_eq, Hu].
  unfold update_unit, modify, mbind, M_bind, mret, M_ret.
  change (fun u => u <| m_movementCounter ::= _ |>) with counted.
  change (fun u => u <| m_movement_ack ::= _ |>) with (acked ack).
  cbn [set_field units]. by rewrite (alter_alter_eq counted (acked ack)).
Qed.

(** The rest of a sender runs in the next session. *)
Lemma numbered_ok sp ack (k : MovementInfo -> SM ()) Q X s :
  session g m sp s -> 0 <= ack < ACK_TYPE_MAX ->
  (forall info s', session g m (spec_send (CAck ack) sp) s' -> wp (k info) Q X s') ->
  wp (expect_ack g ack;; info ← next_info g; k info) Q X s.
Proof.
  intros Hs Ha Hk. pose proof Hs as [(u & Hu & Hp & _) _ Hr].
  unfold wp. rewrite (expect_next_run ack k s u Hu Hp). apply Hk.
  eapply session_update; [done|done| |done].
  rewrite decide_True by done. intros v. by apply tracks_ack.
Qed.

Lemma numbered_keeps sp ack (k : MovementInfo -> SM ()) s :
  session g m sp s -> 0 <= ack < ACK_TYPE_MAX ->
  (forall info, keeps_session b g m (spec_send (CAck ack) sp) (k info)) ->
  wp (expect_ack g ack;; info ← next_info g; k info)
     (fun _ => session g m (spec_send (CAck ack) sp))
     (fun _ s' => b = true /\ session g m (spec_send (CAck ack) sp) s') s.
Proof. intros Hs Ha Hk. apply (numbered_ok sp); [done..|]. intros. by apply Hk. Qed.

(** A [Player] has the array in any case. *)
Lemma expect_ack_player sp ack s :
  session g m sp s -> expect_ack g ack s = update_unit g (acked ack) s.
Proof.
  intros [(u & Hu & Hp & _) _ _]. unfold expect_ack.
  by rewrite (bind_run _ _ _ _ _ (unit_at_run _ _ _ Hu)), Hp.
Qed.

Lemma ses_send_movement sp controlled self info bs bc :
  keeps_session b g m sp (send_movement g controlled self info bs bc).
Proof.
  intros s Hs. pose proof Hs as [(u & Hu & _) _ _].
  destruct (send_movement_run g controlled self info bs bc s u Hu) as [d Hd].
  unfold wp. rewrite Hd. by apply session_event.
Qed.
End Player.

#[export] Hint Resolve ses_send_movement ses_write : session.

(** The senders of the numbered changes. *)
Inductive ack_sender `{Host} : Z -> (Z -> SM ()) -> Prop :=
| ack_root : ack_sender ACK_ROOT SendMoveRoot
| ack_unroot : ack_sender ACK_UNROOT SendMoveUnroot
| ack_teleport p : ack_sender ACK_TELEPORT (fun g => SendTeleportPacket g p)
| ack_hover : ack_sender ACK_HOVER SendMovementHover
| ack_water_walk : ack_sender ACK_WATER_WALK SendMovementWaterWalking
| ack_feather_fall : ack_sender ACK_FEATHER_FALL SendMovementFeatherFall
| ack_gravity : ack_sender ACK_GRAVITY SendMovementDisableGravity
| ack_can_fly : ack_sender ACK_CAN_FLY SendMovementCanFlyChange
| ack_height height : in_width 32 height -> ack_sender ACK_COLLISION_HEIGHT (fun g => SendMovementSetCollisionHeight g height).

Lemma ack_sender_ok `{Host} `{World} b g m sp ack sender s :
  ack_sender ack sender -> session g m sp s ->
  wp (sender g) (fun _ => session g m (spec_send (CAck ack) sp))
                (fun _ s' => b = true /\ session g m (spec_send (CAck ack) sp) s') s.
Proof.
  intros Ha Hs. destruct Ha.
  1-8: apply (numbered_keeps b g m sp _ _ s Hs); [done|intros info]; repeat ses_step.
  unfold SendMovementSetCollisionHeight.
  change (update_unit g _) with (update_unit g (acked ACK_COLLISION_HEIGHT)).
  unfold wp. rewrite (bind_eq _ _ _ _ (eq_sym (expect_ack_player g m sp ACK_COLLISION_HEIGHT s Hs))).
  apply (numbered_keeps b g m sp _ _ s Hs); [done|intros info]; repeat ses_step.
Qed.

(** ** Speeds *)

Lemma next_info_run x u s :
  units s !! x = Some u ->
  next_info x s = Ok ((m_movementInfo u) <| ackCount := m_movementCounter u |> <| guid := x |>)
                     (s <| units ::= alter counted x |>).
Proof. intros Hu. unfold next_info. by rewrite (bind_run _ _ _ _ _ (unit_at_run _ _ _ Hu)). Qed.

(** Changes of the unit [x] alone. *)
Definition only_unit (x : Z) (f : Unit -> Unit) (s s' : Server) : Prop :=
  exists l, s' = s <| units ::= alter f x |> <| events := l |>.

Lemma only_unit_trans x f1 f2 s1 s2 s3 :
  only_unit x f1 s1 s2 -> only_unit x f2 s2 s3 -> only_unit x (f2 ∘ f1) s1 s3.
Proof. intros [l1 ->] [l2 ->]. exists l2. cbn. by rewrite alter_alter_eq. Qed.

Lemma only_update x f s : only_unit x f s (s <| units ::= alter f x |>).
Proof. exists (events s). by destruct s. Qed.

Lemma only_event x e s : only_unit x id s (s <| events ::= e |>).
Proof.
  exists (e (events s)). destruct s as [us l]. cbn. f_equal. apply map_eq. intros i.
  destruct (decide (i = x)) as [->|]; [|by rewrite lookup_alter_ne].
  rewrite lookup_alter_eq. by destruct (us !! x).
Qed.

Lemma only_lookup x f s s' u :
  only_unit x f s s' -> units s !! x = Some u -> units s' !! x = Some (f u).
Proof. intros [l ->] Hu. cbn. by rewrite lookup_alter_eq, Hu. Qed.

Lemma only_other x f s s' y : only_unit x f s s' -> y <> x -> units s' !! y = units s !! y.
Proof. intros [l ->] Hne. cbn. by rewrite lookup_alter_ne. Qed.

Lemma only_static x f s s' : only_unit x f s s' -> (forall u, same_static u (f u)) -> static_le s s'.
Proof.
  intros [l ->] Hf y v Hv. cbn. destruct (decide (y = x)) as [->|].
  - exists (f v). by rewrite lookup_alter_eq, Hv.
  - exists v. by rewrite lookup_alter_ne.
Qed.

(** The end of [SetSpeed]: the message is numbered and sent. *)
Lemma numbered_run `{Host} x (k : MovementInfo -> SM ()) s u :
  units s !! x = Some u ->
  (forall info s', units s' !! x = Some (counted u) ->
     exists s'', k info s' = Ok tt s'' /\ only_unit x id s' s'') ->
  exists s'', (info ← next_info x; k info) s = Ok tt s'' /\ only_unit x counted s s''.
Proof.
  intros Hu Hk. rewrite (bind_run _ _ _ _ _ (next_info_run _ _ _ Hu)).
  pose proof (only_update x counted s) as H1.
  edestruct Hk as (s'' & Hrun & H2); [by apply (only_lookup _ _ _ _ _ H1)|].
  exists s''. split; [apply Hrun|]. by apply (only_unit_trans _ _ _ _ _ _ H1 H2).
Qed.

Lemma update_unit_run x f s : update_unit x f s = Ok tt (s <| units ::= alter f x |>).
Proof. done. Qed.

Lemma tell_server_run e s : tell_server e s = Ok tt (s <| events ::= fun l => l ++ [e] |>).
Proof. done. Qed.

(** The message of [SetSpeed]. *)
Definition speed_message `{Host} (x t : Z) (info : MovementInfo) : SM () :=
  u ← unit_at x;
  let opcodes := nth (Z.to_nat t) moveTypeToOpcode (0, 0) in
  send_movement x opcodes.1 opcodes.2 (info <| ackSpeed := GetSpeed u t |>) false true.

Lemma speed_message_run `{Host} x t s u :
  units s !! x = Some u ->
  exists s', (info ← next_info x; speed_message x t info) s = Ok tt s' /\ only_unit x counted s s'.
Proof.
  intros Hu. eapply numbered_run; [done|]. intros info s' Hu'. unfold speed_message.
  rewrite (bind_run _ _ _ _ _ (unit_at_run _ _ _ Hu')). cbv zeta.
  match goal with |- context [send_movement x ?c ?se ?i ?bs ?bc s'] =>
    destruct (send_movement_run x c se i bs bc s' _ Hu') as [d Hd] end.
  rewrite Hd. eexists. split; [done|]. apply only_event.
Qed.

(** [SetSpeed] as far as the call on the pet. *)
Lemma speed_changed `{Host} x t rate s u :
  units s !! x = Some u ->
  exists s', (update_unit x (rated t rate);; tell_server (PropagatedSpeedChange x)) s = Ok tt s' /\
             only_unit x (rated t rate) s s'.
Proof.
  intros Hu. eexists. split; [reflexivity|].
  change (rated t rate) with (id ∘ rated t rate).
  eapply only_unit_trans; [apply only_update|apply only_event].
Qed.

Lemma creature_speed `{Host} p t rate b s u :
  units s !! p = Some u -> is_player (unit_view u) = false ->
  exists f s', SetSpeed 1 p t rate b s = Ok tt s' /\ only_unit p f s s' /\ forall u, same_static u (f u).
Proof.
  intros Hu Hp. unfold SetSpeed, SetSpeed_with. fold (new_rate rate). cbv zeta.
  rewrite (bind_run _ _ _ _ _ (unit_at_run _ _ _ Hu)).
  destruct (f32_eqb _ _).
  - exists id, s. split_and!; [done| |done]. destruct (only_event p id s) as [l Hl].
    exists l. by destruct s.
  - destruct (speed_changed p t (new_rate rate) s u Hu) as (s1 & Hrun1 & H1).
    pose proof (only_lookup _ _ _ _ _ H1 Hu) as Hu1.
    destruct (speed_message_run p t s1 _ Hu1) as (s2 & Hrun2 & H2).
    exists (counted ∘ rated t (new_rate rate)), s2.
    split_and!; [|by apply (only_unit_trans _ _ _ _ _ _ H1 H2)|done].
    erewrite seq_run; [|apply Hrun1]. rewrite (bind_run _ _ _ _ _ (unit_at_run _ _ _ Hu1)).
    cbn [unit_view rated set_field]. rewrite Hp. apply Hrun2.
Qed.

Lemma GetSpeedRate_spec sp u t : tracks sp u -> GetSpeedRate u t = nth (Z.to_nat t) (sp_rates sp) 0.
Proof. intros Ht. unfold GetSpeedRate. by rewrite (tr_rates _ _ Ht). Qed.

Lemma new_rate_ok rate : f32_ltb (f32_of_bits (new_rate rate)) f32_zero = false.
Proof. unfold new_rate. by destruct (f32_ltb (f32_of_bits rate) f32_zero) eqn:Hr. Qed.

Lemma rates_ok_speed sp t rate : rates_ok sp -> rates_ok (spec_speed t rate sp).
Proof.
  intros [Hl Hr]. unfold spec_speed. destruct (f_eq _ _); [done|]. split; cbn.
  - by rewrite length_insert.
  - apply Forall_insert; [done|apply new_rate_ok].
Qed.

(** The part of [SetSpeed] for players. *)
Lemma speed_of_pet `{Host} g m sp t b s1 s u u1 :
  session g m sp s -> static_le s s1 -> units s !! g = Some u -> units s1 !! g = Some u1 ->
  GetPet u1 = GetPet u ->
  exists s2, (update_unit g (forced t);;
    when (negb (isInCombat u1))
      match GetPet u1 with
      | Some pet => SetSpeed 1 pet t (GetSpeedRate u1 t) b
      | None => mret tt
      end) s1 = Ok tt s2 /\ units s2 !! g = Some (forced t u1) /\ static_le s1 s2.
Proof.
  intros [(u' & Hu' & Hp & _ & Hpet) _ _] Hst Hu Hu1 Hgp. rewrite Hu in Hu'. injection Hu' as <-.
  rewrite (bind_run _ _ _ _ _ (update_unit_run _ _ _)).
  set (s2 := s1 <| units ::= alter (forced t) g |>).
  assert (H2 : only_unit g (forced t) s1 s2) by apply only_update.
  pose proof (only_lookup _ _ _ _ _ H2 Hu1) as Hu2.
  pose proof (only_static _ _ _ _ H2 ltac:(done)) as Hst2.
  destruct (negb (isInCombat u1)); [|by exists s2].
  rewrite Hgp. destruct (GetPet u) as [pet|] eqn:Hpe; [|by exists s2]. cbn [when].
  destruct (Hpet pet eq_refl) as (up & Hup & Hnp).
  destruct (static_trans _ _ _ Hst Hst2 pet up Hup) as (up2 & Hup2 & [Hv _]).
  destruct (creature_speed pet t (GetSpeedRate u1 t) b s2 up2 Hup2) as (f & s3 & Hrun & H3 & Hf);
    [by rewrite Hv|].
  exists s3. split; [done|]. assert (g <> pet) by congruence. split.
  - by rewrite (only_other _ _ _ _ _ H3).
  - eapply static_trans; [apply Hst2|by apply (only_static _ _ _ _ H3)].
Qed.

Lemma player_speed `{Host} g m sp t rate b s :
  session g m sp s -> 0 <= t < MAX_MOVE_TYPE ->
  exists s', SetSpeed 2 g t rate b s = Ok tt s' /\ session g m (spec_speed t rate sp) s'.
Proof.
  intros Hs Ht. pose proof Hs as [(u & Hu & Hp & Htr & Hpet) Hm Hr].
  pose proof (rates_ok_speed sp t rate Hr) as Hr'. unfold spec_speed, f_eq in *.
  change (SetSpeed 2) with (SetSpeed_with (SetSpeed 1)). unfold SetSpeed_with.
  fold (new_rate rate). cbv zeta.
  rewrite (bind_run _ _ _ _ _ (unit_at_run _ _ _ Hu)), (GetSpeedRate_spec sp) by done.
  destruct (f32_eqb _ _); [by exists s|].
  destruct (speed_changed g t (new_rate rate) s u Hu) as (s1 & Hrun1 & H1).
  pose proof (only_lookup _ _ _ _ _ H1 Hu) as Hu1.
  pose proof (only_static _ _ _ _ H1 ltac:(done)) as Hst1.
  erewrite seq_run; [|apply Hrun1]. rewrite (bind_run _ _ _ _ _ (unit_at_run _ _ _ Hu1)).
  replace (is_player (unit_view (rated t (new_rate rate) u))) with true by done.
  destruct (speed_of_pet g m sp t b s1 s u _ Hs Hst1 Hu Hu1 eq_refl) as (s2 & Hrun2 & Hu2 & Hst2).
  cbn [when]. rewrite (bind_run _ _ _ _ _ Hrun2).
  destruct (speed_message_run g t s2 _ Hu2) as (s3 & Hrun3 & H3).
  exists s3. split; [apply Hrun3|].
  apply (session_static g m sp _ s s3 (counted (forced t (rated t (new_rate rate) u))) Hs); [|by apply (only_lookup _ _ _ _ _ H3 Hu2)| |done].
  - eapply static_trans; [apply Hst1|]. eapply static_trans; [apply Hst2|].
    by apply (only_static _ _ _ _ H3).
  - by apply tracks_speed.
Qed.

(** *** The answer to a slow client *)

Lemma f_eq_refl x : f_eq x x = false -> f32_of_bits x = S754_nan.
Proof.
  unfold f_eq, f32_eqb. destruct (f32_of_bits x) as [s|[]| |s p e]; try done.
  unfold SFeqb. cbn [SFcompare]. destruct s; rewrite Z.compare_refl, Pos.compare_cont_refl; done.
Qed.

Lemma nan_speed u t x : f32_of_bits (GetSpeedRate u t) = S754_nan -> speed_differs (GetSpeed u t) x = false.
Proof. intros Hn. unfold speed_differs, GetSpeed. rewrite Hn. done. Qed.

(** A speed a player has is not negative. *)
Lemma stored_rate sp t :
  rates_ok sp -> 0 <= t < MAX_MOVE_TYPE ->
  new_rate (nth (Z.to_nat t) (sp_rates sp) 0) = nth (Z.to_nat t) (sp_rates sp) 0.
Proof.
  intros [Hl Hr] Ht. unfold new_rate. rewrite List.Forall_forall in Hr.
  rewrite Hr; [done|]. apply nth_In. rewrite Hl. unfold MAX_MOVE_TYPE in *. lia.
Qed.

(** Setting the speed a player already has sends nothing. *)
Lemma same_speed sp t :
  rates_ok sp -> 0 <= t < MAX_MOVE_TYPE ->
  f_eq (nth (Z.to_nat t) (sp_rates sp) 0) (nth (Z.to_nat t) (sp_rates sp) 0) = true ->
  spec_speed t (nth (Z.to_nat t) (sp_rates sp) 0) sp = sp.
Proof. intros Hr Ht Heq. unfold spec_speed. by rewrite stored_rate, Heq. Qed.

(** ** The packets of the client *)

Section Client.
Context `{Host} `{World}.
Context (g m : Z).

Lemma read_info_total p :
  rd_wf (buffer p) -> wp ReadFromPacket (fun _ _ => True) (fun _ _ => true = true) (p, MovementInfo_new).
Proof. intros Hwf. by eapply wp_mono; [apply (ReadFromPacket_safe p MovementInfo_new Hwf)|..]. Qed.

Lemma ses_read_info sp p : rd_wf (buffer p) -> keeps_session true g m sp (read_info p).
Proof.
  intros Hwf. unfold read_info. apply ses_bind.
  - by apply ses_local, read_info_total.
  - intros [? ?]. apply ses_ret.
Qed.
#[local] Hint Resolve ses_read_info ses_HandleMovementInfo : session.

Lemma ses_HandleMovementOpcodes sp p :
  rd_wf (buffer p) -> keeps_session true g m sp (HandleMovementOpcodes g m p).
Proof. intros Hwf. unfold HandleMovementOpcodes. repeat ses_step. Qed.

Lemma ses_HandleMovementAck sp ack p :
  rd_wf (buffer p) -> keeps_session true g m sp (HandleMovementAck g m ack p).
Proof. intros Hwf. unfold HandleMovementAck. repeat ses_step. Qed.

(** The unit read is the player's. *)
Lemma ses_bind_player {A} sp (f : Unit -> SM A) :
  (forall u, tracks sp u -> keeps_session true g m sp (f u)) -> keeps_session true g m sp (u ← unit_at g; f u).
Proof.
  intros Hf s Hs. pose proof Hs as [(u & Hu & _ & Htr & _) _ _]. unfold wp.
  rewrite (bind_run _ _ _ _ _ (unit_at_run _ _ _ Hu)). by apply (Hf u Htr).
Qed.

Lemma ses_resend sp t u x :
  tracks sp u -> speed_differs (GetSpeed u t) x = true -> 0 <= t < MAX_MOVE_TYPE ->
  keeps_session true g m sp (SetSpeed 2 g t (GetSpeedRate u t) true).
Proof.
  intros Htr Hd Ht s Hs. pose proof (ses_rates _ _ _ _ Hs) as Hr.
  destruct (player_speed g m sp t (GetSpeedRate u t) true s Hs Ht) as (s' & Hrun & Hs').
  unfold wp. rewrite Hrun. rewrite (GetSpeedRate_spec sp u t Htr), same_speed in Hs'; try done.
  rewrite <- (GetSpeedRate_spec sp u t Htr).
  destruct (f_eq _ _) eqn:He; [done|]. apply f_eq_refl, (nan_speed _ _ x) in He. congruence.
Qed.

Lemma speed_ack_range op t : speed_ack op = Some t -> 0 <= t < MAX_MOVE_TYPE.
Proof.
  unfold speed_ack. repeat (destruct (_ =? _); [by intros [= <-]|]). done.
Qed.

Lemma ses_HandleMovementSpeedChangeAck sp p :
  rd_wf (buffer p) -> keeps_session true g m sp (HandleMovementSpeedChangeAck g m p).
Proof.
  intros Hwf. unfold HandleMovementSpeedChangeAck.
  destruct (speed_ack _) as [t|] eqn:Ht; [|apply ses_ret]. apply speed_ack_range in Ht.
  apply ses_bind; [auto with session|]. intros [p' info]. apply ses_bind_player. intros u Htr.
  destruct (negb _); [apply ses_ret|].
  destruct (bool_decide _ && _) eqn:Hd; [apply andb_true_iff in Hd as [_ Hd]|].
  - apply ses_bind; [|intros []; apply ses_ret]. apply ses_when. by eapply ses_resend.
  - apply ses_bind; [|intros []; repeat ses_step].
    destruct (unknown_update t) as [op|]; [|apply ses_ret].
    apply ses_bind; [|intros [[] data]; apply ses_tell]. apply ses_local.
    destruct (WriteToPacket_bounded info (WorldPacket_new op)) as (data & Hd' & _);
      [apply wr_wf_new|done|]. assert (Hi : Initialize op 17 WorldPacket_default = Ok tt (WorldPacket_new op)) by done.
    unfold wp. by rewrite (bind_run _ _ _ _ _ Hi), Hd'.
Qed.

(** *** Clocks *)

Lemma quiet_sync c t x : quiet (fun u => u <| m_timeSyncTimer := t |> <| m_timeSyncClient := c |> <| m_timeSyncServer := x |>).
Proof. intros u. split; [done|]. intros sp []. by split. Qed.

Lemma quiet_timer f : quiet (fun u => u <| m_timeSyncTimer ::= f |>).
Proof. intros u. split; [done|]. intros sp []. by split. Qed.

Lemma quiet_scheduled t x : quiet (fun u => u <| m_timeSyncTimer := t |> <| m_timeSyncServer := x |>).
Proof. intros u. split; [done|]. intros sp []. by split. Qed.
#[local] Hint Resolve quiet_sync quiet_timer quiet_scheduled : session.

Definition queued (u : Unit) : Unit :=
  u <| m_timeSyncQueue ::= fun q => q ++ [m_movementCounter u] |>
    <| m_movementCounter ::= fun c => u32 (c + 1) |>.

Lemma tracks_sync sp u : tracks sp u -> tracks (spec_sync sp) (queued u).
Proof.
  intros [H1 H2 H3 H4 H5 H6 H7]. split; cbn [spec_sync spec_send sp_log sp_rates sp_pending set_field].
  - change (m_movementCounter (queued u)) with (u32 (m_movementCounter u + 1)).
    by rewrite number_cons, H1.
  - intros a Ha. cbn [last_number]. rewrite decide_False by done. by apply H2.
  - intros t Ht. cbn [last_number]. rewrite decide_False by done. by apply H3.
  - done.
  - change (m_timeSyncQueue (queued u)) with (m_timeSyncQueue u ++ [m_movementCounter u]).
    by rewrite H5, H1.
  - done.
  - done.
Qed.

(** From the counted session on, nothing is thrown. *)
Lemma wp_update_then b sp sp' f (k : SM ()) s :
  session g m sp s -> (forall u, same_static u (f u)) -> (forall u, tracks sp u -> tracks sp' (f u)) ->
  rates_ok sp' -> keeps_session b g m sp' k ->
  wp (update_unit g f;; k) (fun _ => session g m sp') (fun _ s' => b = true /\ session g m sp' s') s.
Proof.
  intros Hs Hf Ht Hr Hk. apply wp_bind, wp_modify, Hk.
  eapply session_update; [done|done| |done]. by rewrite decide_True.
Qed.

Lemma SendTimeSync_ok b sp s :
  session g m sp s ->
  wp (SendTimeSync g) (fun _ => session g m (spec_sync sp))
     (fun _ s' => b = true /\ session g m (spec_sync sp) s') s.
Proof.
  intros Hs. unfold SendTimeSync.
  apply (wp_update_then b sp (spec_sync sp) queued); [done|done|apply tracks_sync|apply Hs|].
  repeat ses_step. apply ses_local.
  destruct (lift_bounded (out TU32 (List.last (m_timeSyncQueue a) 0)) 72 (WorldPacket_new SMSG_TIME_SYNC_REQ))
    as (data & Hd & _); [apply bounded_out|apply wr_wf_new|done|].
  unfold wp. by rewrite Hd.
Qed.

Lemma ses_then {A B} b sp (c : SM A) (f : A -> SM B) Q X s :
  session g m sp s -> keeps_session b g m sp c ->
  (forall a s', session g m sp s' -> wp (f a) Q X s') ->
  (forall e s', session g m sp s' -> X e s') -> wp (c ≫= f) Q X s.
Proof.
  intros Hs Hc Hf HX. apply wp_bind. eapply wp_mono; [by apply Hc| |].
  - intros a s' Hs'. by apply Hf.
  - intros e s' [_ Hs']. by apply HX.
Qed.

Lemma HandleTimeSyncResp_ok sp p s :
  session g m sp s -> rd_wf (buffer p) -> sp_pending sp <> [] ->
  wp (HandleTimeSyncResp g p) (fun _ => session g m (sp <| sp_pending ::= tail |>))
     (fun _ => session g m sp) s.
Proof.
  intros Hs Hwf Hp. unfold HandleTimeSyncResp.
  apply (ses_then true sp _ _ _ _ s Hs); [apply ses_ask| |done]. clear s Hs. intros bg s Hs.
  apply (ses_then true sp _ _ _ _ s Hs); [repeat ses_step| |done]. clear s Hs. intros [] s Hs.
  apply (ses_then true sp _ _ _ _ s Hs); [|clear s Hs|done].
  - apply ses_local. assert (Hr : safe_read (inn TU32;; inn TU32)).
    { apply safe_bind; [apply safe_inn|]. intros. apply safe_inn. }
    specialize (Hr _ Hwf). unfold wp, lift in *. by destruct ((inn TU32;; inn TU32) (buffer p)).
  - intros [ticks p'] s Hs. pose proof Hs as [(u & Hu & _ & Htr & _) _ _]. unfold wp.
    rewrite (bind_run _ _ _ _ _ (unit_at_run _ _ _ Hu)).
    pose proof (tr_pending _ _ Htr) as Hq. destruct (m_timeSyncQueue u) as [|x q]; [congruence|].
    rewrite (bind_run _ _ _ _ _ (update_unit_run _ _ _)). cbn [mret M_ret].
    eapply (session_static g m sp _ s); [done| | | |apply Hs].
    + eapply only_static; [apply only_update|done].
    + cbn. by rewrite lookup_alter_eq, Hu.
    + destruct Htr as [H1 H2 H3 H4 H5 H6 H7]. split; try done. cbn. by rewrite <- Hq.
Qed.
End Client.

(** ** Sessions *)

Inductive call :=
| Tell (sender : Z -> SM ())
| ChangeSpeed (mtype rate : Z) (forced : bool)
| Swimming
| WalkMode
| ResetSync
| Sync
| SyncTimer (p_time : Z)
| Receive (recvPacket : WorldPacket).

Definition run_call `{Host} `{World} (g m : Z) (c : call) : SM () :=
  match c with
  | Tell sender => sender g
  | ChangeSpeed mtype rate forced => SetSpeed 2 g mtype rate forced
  | Swimming => SendMovementSwimming g
  | WalkMode => SendMovementWalkMode g
  | ResetSync => ResetTimeSync g
  | Sync => SendTimeSync g
  | SyncTimer p_time => UpdateTimeSync g p_time
  | Receive recvPacket => ReceivePacket g m recvPacket
  end.

Definition run_calls `{Host} `{World} (g m : Z) (calls : list call) : SM () :=
  for_each calls (run_call g m).

(** What the protocol makes of a call.  The timer may be due or not, and the
    answer of a client may be cut short. *)
Inductive spec_step `{Host} : Spec -> call -> Spec -> Prop :=
| spec_tell sp ack sender : ack_sender ack sender -> spec_step sp (Tell sender) (spec_send (CAck ack) sp)
| spec_change_speed sp t rate forced : spec_step sp (ChangeSpeed t rate forced) (spec_speed t rate sp)
| spec_swimming sp : spec_step sp Swimming sp
| spec_walk_mode sp : spec_step sp WalkMode sp
| spec_reset sp : spec_step sp ResetSync sp
| spec_request sp : spec_step sp Sync (spec_sync sp)
| spec_early sp p_time : spec_step sp (SyncTimer p_time) sp
| spec_due sp p_time : spec_step sp (SyncTimer p_time) (spec_sync sp)
| spec_receive sp p : spec_step sp (Receive p) sp
| spec_answer sp p :
    m_opcode p = CMSG_TIME_SYNC_RESP -> spec_step sp (Receive p) (sp <| sp_pending ::= tail |>).

(** The calls the server makes, and packets as the network delivers them; a
    client answers no more often than it is asked. *)
Definition legal `{Host} (sp : Spec) (c : call) : Prop :=
  match c with
  | Tell sender => exists ack, ack_sender ack sender
  | ChangeSpeed mtype _ _ => 0 <= mtype < MAX_MOVE_TYPE
  | Receive p => rd_wf (buffer p) /\ (m_opcode p = CMSG_TIME_SYNC_RESP -> sp_pending sp <> [])
  | _ => True
  end.

Fixpoint legal_run `{Host} (sp : Spec) (calls : list call) : Prop :=
  match calls with
  | [] => True
  | c :: calls' => legal sp c /\ forall sp', spec_step sp c sp' -> legal_run sp' calls'
  end.

Inductive spec_run `{Host} : Spec -> list call -> Spec -> Prop :=
| spec_done sp : spec_run sp [] sp
| spec_more sp c sp1 calls sp2 : spec_step sp c sp1 -> spec_run sp1 calls sp2 -> spec_run sp (c :: calls) sp2.

Section Session.
Context `{Host} `{World}.
Context (g m : Z).

Lemma ses_Swimming b sp : keeps_session b g m sp (SendMovementSwimming g).
Proof. unfold SendMovementSwimming. repeat ses_step. Qed.

Lemma ses_WalkMode b sp : keeps_session b g m sp (SendMovementWalkMode g).
Proof. unfold SendMovementWalkMode. repeat ses_step. Qed.

Lemma ses_reset b sp : keeps_session b g m sp (ResetTimeSync g).
Proof. unfold ResetTimeSync. repeat ses_step. apply ses_update, quiet_sync. Qed.

Lemma ReceivePacket_ok sp p s :
  session g m sp s -> legal sp (Receive p) ->
  exists s' sp', ReceivePacket g m p s = Ok tt s' /\ spec_step sp (Receive p) sp' /\ session g m sp' s'.
Proof.
  intros Hs [Hwf Hp]. unfold ReceivePacket.
  assert (Hw : wp (HandlePacket g m p)
    (fun _ s' => exists sp', spec_step sp (Receive p) sp' /\ session g m sp' s')
    (fun _ s' => exists sp', spec_step sp (Receive p) sp' /\ session g m sp' s') s).
  2: { unfold wp in Hw. destruct (HandlePacket g m p s); [..|done];
       destruct Hw as (sp' & Hst & Hs'); by exists s0, sp'. }
  assert (Hk : forall c : SM WorldPacket, keeps_session true g m sp c -> wp c
    (fun _ s' => exists sp', spec_step sp (Receive p) sp' /\ session g m sp' s')
    (fun _ s' => exists sp', spec_step sp (Receive p) sp' /\ session g m sp' s') s).
  { intros c Hc. eapply wp_mono; [by apply Hc|intros ? s' Hs'|intros ? s' [_ Hs']];
      exists sp; (split; [constructor|done]). }
  unfold HandlePacket.
  repeat (apply wp_if; intros ?;
    [first [apply Hk, ses_HandleMovementOpcodes; done | apply Hk, ses_HandleMovementAck; done
           |apply Hk, ses_HandleMovementSpeedChangeAck; done|idtac]|]).
  - zprop. eapply wp_mono; [apply (HandleTimeSyncResp_ok g m sp); auto| |].
    + intros ? s' Hs'. eexists. split; [by apply spec_answer|done].
    + intros ? s' Hs'. eexists. split; [by apply spec_receive|done].
  - apply Hk, ses_ret.
Qed.

Lemma run_call_ok sp c s :
  session g m sp s -> legal sp c ->
  exists s' sp', run_call g m c s = Ok tt s' /\ spec_step sp c sp' /\ session g m sp' s'.
Proof.
  intros Hs Hl.
  assert (Hw : forall c0 (run : SM ()) sp', spec_step sp c0 sp' ->
    wp run (fun _ => session g m sp') (fun _ s' => false = true /\ session g m sp' s') s ->
    exists s' sp', run s = Ok tt s' /\ spec_step sp c0 sp' /\ session g m sp' s').
  { intros c0 run sp' Hst Hr. unfold wp in Hr. destruct (run s) as [[] s'|? ? |]; [by exists s', sp'| |done].
    by destruct Hr. }
  destruct c as [sender|t rate b| | | | |dt|p]; cbn [run_call].
  - destruct Hl as [ack Ha]. eapply Hw; [by apply spec_tell|]. by apply ack_sender_ok.
  - destruct (player_speed g m sp t rate b s Hs Hl) as (s' & Hrun & Hs'). exists s', (spec_speed t rate sp).
    split_and!; [done|constructor|done].
  - eapply Hw; [constructor|]. by apply ses_Swimming.
  - eapply Hw; [constructor|]. by apply ses_WalkMode.
  - eapply Hw; [constructor|]. by apply ses_reset.
  - eapply Hw; [constructor|]. by apply SendTimeSync_ok.
  - pose proof Hs as [(u & Hu & _) _ _]. unfold UpdateTimeSync.
    rewrite (bind_run _ _ _ _ _ (unit_at_run _ _ _ Hu)).
    destruct (0 <? _); cbn [when]; [|exists s, sp; by split_and!; [|constructor|]].
    destruct (_ <=? dt).
    + eapply Hw; [apply spec_due|]. by apply SendTimeSync_ok.
    + eapply Hw; [apply spec_early|]. apply ses_update; [apply quiet_timer|done].
  - by apply ReceivePacket_ok.
Qed.

(** C5.  The numbered messages refine their protocol.  From a session of a
    player, whatever the server tells and whatever packets the client sends -
    of any opcode and contents, well-formed or not, but answers to time
    synchronisation only while a request is pending: one more reads the front of
    an empty queue, which is undefined (MiscHandler.cpp:1552, see
    [unasked_answer]) - nothing fails; the
    counters, the arrays of the last numbers, the speeds and the pending
    requests are at every time those of the abstract log of changes: a change
    takes the next number, a speed only if it differs, and no packet of the
    client, however malformed, changes a number. *)
Theorem movement_session (sp : Spec) (calls : list call) (s : Server) :
  session g m sp s -> legal_run sp calls ->
  exists s' sp', run_calls g m calls s = Ok tt s' /\ spec_run sp calls sp' /\ session g m sp' s'.
Proof.
  revert sp s. induction calls as [|c calls IH]; intros sp s Hs Hl.
  - exists s, sp. split_and!; [done|constructor|done].
  - destruct Hl as [Hc Hl]. destruct (run_call_ok sp c s Hs Hc) as (s1 & sp1 & Hrun & Hst & Hs1).
    destruct (IH sp1 s1 Hs1 (Hl _ Hst)) as (s2 & sp2 & Hrun2 & Hst2 & Hs2).
    exists s2, sp2. unfold run_calls in *. cbn [for_each]. rewrite (bind_run _ _ _ _ _ Hrun).
    split_and!; [done|by econstructor|done].
Qed.
End Session.

(** ** A player *)

(** A world in which nothing stands in the way. *)
Definition quiet_world : World := {|
  IsBeingTeleported _ _ := false; isInFlight _ _ := false; IsInWater _ _ := false;
  IsUnderWater _ _ _ := false; GetVehicle _ _ := false; emote_state _ _ := 0; m_Transports _ := [];
  is_transport_object _ _ _ := false; GetMapId _ _ := 0; area_MaxDepth _ _ := None;
  isAlive _ _ := true; GetBattleground _ _ := false; HandlePlayerUnderMap _ _ := false;
  GetMaxHealth _ _ := 100; getMSTime _ := 1000; ShouldForgetBGPlayers _ _ := false;
  ShouldForgetInListPlayers _ _ := false |}.

Definition spec_new : Spec := mkSpec [] (replicate (Z.to_nat MAX_MOVE_TYPE) 0x3F800000) [].

(** A player alone in the world, moving himself. *)
Definition fresh_server (g : Z) (view : UnitView) (mi : MovementInfo) : Server :=
  mkServer {[ g := (Unit_new view None) <| m_movementInfo := mi |> ]} [].

Lemma nth_replicate_0 n i : nth i (replicate n 0) 0 = 0.
Proof. revert i. induction n as [|n IH]; intros [|i]; cbn; auto. Qed.

Lemma fresh_session g view mi : is_player view = true -> session g g spec_new (fresh_server g view mi).
Proof.
  intros Hv. split.
  - eexists. split; [by apply lookup_singleton_eq|]. split_and!; [done| |done].
    split; try done; intros; cbn [m_movement_ack m_forced_speed_changes set_field Unit_new];
      by rewrite nth_replicate_0.
  - cbn. rewrite lookup_singleton_eq. by eexists.
  - split; [done|]. apply Forall_replicate. by vm_compute.
Qed.

Definition sample_view : UnitView := mkUnitView true SEC_PLAYER (fun _ => false) false.
Definition sample_server : Server := fresh_server (guid sample_mover) sample_view sample_mover.

(** The player is rooted and slowed down, and asked for his clock; he answers
    with rubbish and with his clock. *)
Definition sample_calls `{Host} : list call :=
  [Tell SendMoveRoot; ChangeSpeed MOVE_RUN 0x3F000000 true; Sync;
   Receive (packet_of CMSG_FORCE_MOVE_ROOT_ACK [1; 2; 3]);
   Receive (packet_of CMSG_TIME_SYNC_RESP [2; 0; 0; 0; 7; 0; 0; 0])].

(** A request that is pending stays so until it is answered. *)
Lemma sync_pending sp : sp_pending (spec_sync sp) <> [].
Proof. cbn. by destruct (sp_pending sp). Qed.

Lemma packet_rd_wf op bytes : zlen bytes < 2 ^ 31 -> rd_wf (buffer (packet_of op bytes)).
Proof. intros Hl. unfold rd_wf, size, packet_of, zlen in *. cbn in *. lia. Qed.

Lemma sample_calls_legal : legal_run (H := little_host) spec_new (sample_calls (H := little_host)).
Proof.
  split; [by exists ACK_ROOT; constructor|]. intros sp1 _. split; [done|]. intros sp2 _.
  split; [done|]. intros sp3 Hs. inversion Hs; subst; clear Hs.
  split; [split; [by apply packet_rd_wf|done]|]. intros sp4 Hs.
  inversion Hs as [| | | | | | | |? ? Hp|? ? Hop]; subst; clear Hs; [|done].
  split; [|done]. split; [by apply packet_rd_wf|]. intros _. apply sync_pending.
Qed.

Lemma movement_session_witness :
  session (guid sample_mover) (guid sample_mover) spec_new sample_server /\
  legal_run (H := little_host) spec_new (sample_calls (H := little_host)) /\
  exists s' sp',
    run_calls (H := little_host) (H0 := quiet_world) (guid sample_mover) (guid sample_mover)
      (sample_calls (H := little_host)) sample_server = Ok tt s' /\
    spec_run (H := little_host) spec_new (sample_calls (H := little_host)) sp' /\
    session (guid sample_mover) (guid sample_mover) sp' s'.
Proof.
  split; [by apply fresh_session|]. split; [apply sample_calls_legal|].
  apply (movement_session (H := little_host) (H0 := quiet_world)); [by apply fresh_session|].
  apply sample_calls_legal.
Defined.

(** An answer to a time synchronisation nobody asked for. *)
Example unasked_answer :
  run_call (H := little_host) (H0 := quiet_world) (guid sample_mover) (guid sample_mover)
    (Receive (packet_of CMSG_TIME_SYNC_RESP (le_bytes 4 0 ++ le_bytes 4 1000))) sample_server
  = Abort UndefinedBehaviour.
Proof. by vm_compute. Qed.
