(* ===== verification/MoverExchange.v ===== *)
(** * Moves and acknowledgements across the network

    What a player's client is told, what it can read, which answers the server
    accepts, and what the server does with a move it accepts. *)

From Stdlib Require Import SpecFloat.
From S2P Require Import Prelude Float32 ByteBuffer BitStream Wire WireProps Packet MovementTables Movement.
From S2P Require Import MovementKinds MovementWire MovementRead MovementProps MovementSafe MovementTotal.
From S2P Require Import Mover MoverProps.

(** ** The number of a message *)

Lemma copied_ackCount mi es dst :
  ackCount (copied mi es dst) = if bool_decide (MSECounter ∈ es) then ackCount mi else ackCount dst.
Proof.
  unfold copied. revert dst. induction es as [|e es IH]; intros dst; [done|]. cbn [foldl]. rewrite IH.
  destruct (decide (e = MSECounter)) as [->|He].
  - rewrite (bool_decide_eq_true_2 (MSECounter ∈ MSECounter :: es)) by (by left).
    by destruct (bool_decide _).
  - assert (Hc : ackCount (copy_kind mi (kind_of e) dst) = ackCount dst).
    { unfold copy_kind. destruct (all_present _ _); [|done]. by destruct e. }
    rewrite Hc. erewrite bool_decide_ext; [done|]. rewrite elem_of_cons. naive_solver.
Qed.

(** The tables with a number: they are well formed, and none is of an opcode
    that is read or written by hand. *)
Definition numbered_table (opcode : Z) (sequence : list MovementStatusElements) : bool :=
  implb (bool_decide (MSECounter ∈ until_end sequence))
    (negb (bool_decide (opcode ∈ [SMSG_PLAYER_MOVE; SMSG_MOVE_UPDATE_KNOCK_BACK; SMSG_MOVE_TELEPORT;
       CMSG_MOVE_KNOCK_BACK_ACK; CMSG_MOVE_NOT_ACTIVE_MOVER; SMSG_MOVE_UPDATE_COLLISION_HEIGHT]))).

Lemma tables_numbered : forallb (fun c => numbered_table c.1 c.2) movement_sequences = true.
Proof. by vm_compute. Qed.

(** An opcode whose messages are numbered. *)
Definition numbered_opcode (opcode : Z) : bool :=
  match GetMovementStatusElementsSequence opcode with
  | Some sequence => bool_decide (MSECounter ∈ until_end sequence)
  | None => false
  end.

Lemma numbered_facts op :
  numbered_opcode op = true -> exists sequence,
    GetMovementStatusElementsSequence op = Some sequence /\ MSECounter ∈ until_end sequence /\
    op <> SMSG_MOVE_UPDATE_COLLISION_HEIGHT /\
    (forall (H : Host) mi p, m_opcode p = op -> WriteToPacket mi p = Write_OLD mi p) /\
    (forall (H : Host) s, m_opcode s.1 = op -> ReadFromPacket s = Read_OLD s).
Proof.
  unfold numbered_opcode. destruct (GetMovementStatusElementsSequence op) as [s|] eqn:Hs; [|done].
  intros Hc. pose proof (sequences_forallb numbered_table _ _ tables_numbered Hs) as Ht.
  unfold numbered_table in Ht. rewrite Hc in Ht. apply negb_true_iff, bool_decide_eq_false in Ht.
  rewrite !not_elem_of_cons in Ht. destruct Ht as (H1 & H2 & H3 & H4 & H5 & H6 & _).
  exists s. split_and!; [done|by apply bool_decide_eq_true in Hc|done| |].
  - intros H mi p <-. unfold WriteToPacket, GetOpcode. run.
    by rewrite (proj2 (Z.eqb_neq _ _) H1), (proj2 (Z.eqb_neq _ _) H2), (proj2 (Z.eqb_neq _ _) H3).
  - intros H x <-. unfold ReadFromPacket. run.
    by rewrite (proj2 (Z.eqb_neq _ _) H4), (proj2 (Z.eqb_neq _ _) H5).
Qed.

Lemma Read_OLD_opcode `{Host} s a s' : Read_OLD s = Ok a s' -> m_opcode s'.1 = m_opcode s.1.
Proof.
  unfold Read_OLD. run. destruct (GetMovementStatusElementsSequence _); [|by intros [= <- <-]].
  destruct s as [p mi]. unfold run_reader. destruct (Read_sequence l _); [|done..]. by intros [= <- <-].
Qed.

(** Writing along a numbered table and reading it back, by whatever routine. *)
Lemma numbered_roundtrip (writer reader : Host) op sequence mi :
  GetMovementStatusElementsSequence op = Some sequence -> numbered_opcode op = true ->
  info_ok mi -> guid mi <> 0 ->
  exists data, WriteToPacket (H := writer) mi (WorldPacket_new op) = Ok tt data /\
    forall dst, exists data',
      Read_OLD (H := reader) (data, dst) = Ok tt (data', carried sequence mi dst) /\
      ReadFromPacket (H := reader) (data, dst) = Ok tt (data', carried sequence mi dst) /\
      m_opcode data' = op /\ ackCount (carried sequence mi dst) = ackCount mi.
Proof.
  intros Hs Hop Hmi Hg. destruct (numbered_facts op Hop) as (s & Hs' & Hc & Hne & Hw & Hr).
  rewrite Hs in Hs'. injection Hs' as <-.
  destruct (roundtrip writer reader op sequence mi Hs Hne Hmi Hg) as (bytes & Hwrite & Hread).
  exists (packet_of op bytes). rewrite Hw by done. split; [done|]. intros dst.
  destruct (Hread dst) as (data' & Hrun & _).
  exists data'. rewrite Hr by done. split_and!; try done.
  { by apply Read_OLD_opcode in Hrun. }
  unfold carried. cbn [ackCount set_field guid].
  change (ackCount (copied mi (until_end sequence) dst) = ackCount mi).
  by rewrite copied_ackCount, bool_decide_eq_true_2.
Qed.

(** ** Messages *)

Definition delivered (d : delivery) : WorldPacket :=
  match d with SendDirectMessage data | SendMessageToSet data _ => data end.

(** What a client can read in a message: the GUID and the number. *)
Definition readable_as (client : Host) (d : delivery) (g n : Z) : Prop :=
  exists data info, Read_OLD (H := client) (delivered d, MovementInfo_new) = Ok tt (data, info) /\
    guid info = g /\ ackCount info = n.

(** [k], run from [s], tells the server one more thing: a message the clients
    can read. *)
Definition tells (client : Host) (g n : Z) (k : SM ()) (s : Server) : Prop :=
  exists d, k s = Ok tt (s <| events ::= fun l => l ++ [Delivered g d] |>) /\ readable_as client d g n.

Section Messages.
Context (client : Host).
Context `{Host}.

Lemma packet_readable op mi :
  numbered_opcode op = true -> info_ok mi -> guid mi <> 0 ->
  exists data, WriteToPacket mi (WorldPacket_new op) = Ok tt data /\
    forall d, delivered d = data -> readable_as client d (guid mi) (ackCount mi).
Proof.
  intros Hop Hmi Hg. destruct (numbered_facts op Hop) as (s & Hs & _).
  destruct (numbered_roundtrip _ client op s mi Hs Hop Hmi Hg) as (data & Hd & Hr).
  exists data. split; [done|]. intros d Hdata.
  destruct (Hr MovementInfo_new) as (data' & Hrun & _ & _ & Hn).
  exists data', (carried s mi MovementInfo_new). by rewrite Hdata.
Qed.

(** The numbered message of a player that moves by itself. *)
Lemma send_tells g controlled self info bs bc s u :
  units s !! g = Some u -> is_player (unit_view u) = true -> controlled_by_server (unit_view u) = false ->
  numbered_opcode self = true -> info_ok info -> guid info = g -> g <> 0 ->
  tells client g (ackCount info) (send_movement g controlled self info bs bc) s.
Proof.
  intros Hu Hp Hc Hop Hinfo Hg Hg0. unfold tells, send_movement.
  rewrite (bind_run _ _ _ _ _ (unit_at_run _ _ _ Hu)). unfold PacketSender_new. rewrite Hp, Hc.
  destruct (packet_readable self info Hop Hinfo) as (data & Hd & Hr); [congruence|].
  rewrite Hg in Hr. unfold Send, mbind, M_bind, on_local, modify. cbn [_toSend _info].
  rewrite Hd. cbn [app for_each]. unfold mbind, M_bind, tell_server, modify, mret, M_ret.
  eexists. split; [done|]. apply Hr. by destruct (_ && _).
Qed.

Lemma direct_tells g op info s :
  numbered_opcode op = true -> info_ok info -> guid info = g -> g <> 0 ->
  tells client g (ackCount info)
    ('(_, data) ← on_local (WorldPacket_new op) (WriteToPacket info);
     tell_server (Delivered g (SendDirectMessage data))) s.
Proof.
  intros Hop Hinfo Hg Hg0. destruct (packet_readable op info Hop Hinfo) as (data & Hd & Hr); [congruence|].
  rewrite Hg in Hr. unfold tells, mbind, M_bind, on_local. rewrite Hd.
  eexists. split; [done|]. by apply Hr.
Qed.
End Messages.

(** The copy of a movement that is sent. *)
Definition numbered (g n : Z) (mi : MovementInfo) : MovementInfo := mi <| ackCount := n |> <| guid := g |>.

Lemma numbered_info_ok g n mi : info_ok mi -> in_width 64 g -> in_width 32 n -> info_ok (numbered g n mi).
Proof.
  intros [H1 H2 H3 H4 H5 H6 H7] Hg Hn. split; try done. cbn.
  rewrite !Forall_cons in *. naive_solver.
Qed.

(** The opcodes of the messages that name the change of a kind. *)
Definition message_opcodes : list Z :=
  [SMSG_MOVE_ROOT; SMSG_MOVE_UNROOT; SMSG_MOVE_SET_HOVER; SMSG_MOVE_UNSET_HOVER; SMSG_MOVE_WATER_WALK;
   SMSG_MOVE_LAND_WALK; SMSG_MOVE_FEATHER_FALL; SMSG_MOVE_NORMAL_FALL; SMSG_MOVE_GRAVITY_DISABLE;
   SMSG_MOVE_GRAVITY_ENABLE; SMSG_MOVE_SET_CAN_FLY; SMSG_MOVE_UNSET_CAN_FLY;
   SMSG_MOVE_SET_COLLISION_HEIGHT].

Lemma messages_numbered op : op ∈ message_opcodes -> numbered_opcode op = true.
Proof.
  intros Hop. assert (Hall : forallb numbered_opcode message_opcodes = true) by by vm_compute.
  rewrite forallb_forall in Hall. by apply Hall, list_elem_of_In.
Qed.

Ltac message := apply messages_numbered; (apply (bool_decide_unpack _); vm_compute; reflexivity).

Lemma height_info_ok h mi : info_ok mi -> in_width 32 h -> info_ok (mi <| height := h |>).
Proof.
  intros [H1 H2 H3 H4 H5 H6 H7] Hh. split; try done. cbn. rewrite !Forall_cons in *. naive_solver.
Qed.

Section Exchange.
Context (client : Host).
Context `{Host} `{World}.
Context (g m : Z).

(** What a sender does to the state of a player who moves by himself. *)
Lemma sender_tells sp ack sender s u :
  ack_sender ack sender -> ack <> ACK_TELEPORT -> session g m sp s ->
  units s !! g = Some u -> controlled_by_server (unit_view u) = false ->
  info_ok (m_movementInfo u) -> in_width 64 g -> g <> 0 ->
  exists s0, s0 = s <| units ::= alter (fun u => counted (acked ack u)) g |> /\
    tells client g (number (sp_log sp)) (fun _ => sender g s) s0.
Proof.
  intros Ha Hne Hs Hu Hc Hinfo Hgw Hg0. eexists. split; [reflexivity|].
  pose proof Hs as [(v & Hv & Hp & Htr & _) _ _]. rewrite Hu in Hv. injection Hv as <-.
  pose proof (tr_counter _ _ Htr) as Hn.
  set (s0 := s <| units ::= alter (fun u => counted (acked ack u)) g |>).
  assert (Hu0 : units s0 !! g = Some (counted (acked ack u))) by (cbn; by rewrite lookup_alter_eq, Hu).
  set (info := numbered g (number (sp_log sp)) (m_movementInfo u)).
  assert (Hi : info_ok info) by (apply numbered_info_ok; [done|done|by apply wrap_range]).
  assert (Hmove : forall controlled self bs bc, self ∈ message_opcodes ->
    tells client g (number (sp_log sp)) (send_movement g controlled self info bs bc) s0).
  { intros controlled self bs bc Hop. eapply (send_tells client (H := H) g _ _ info); try done.
    by apply messages_numbered. }
  assert (Hrun : forall k : MovementInfo -> SM (), (expect_ack g ack;; info ← next_info g; k info) s = k info s0).
  { intros k. rewrite (expect_next_run g ack k s u Hu Hp), Hn. done. }
  assert (Hread : forall k : Unit -> SM (), (u ← unit_at g; k u) s0 = k (counted (acked ack u)) s0).
  { intros k. by rewrite (bind_run _ _ _ _ _ (unit_at_run _ _ _ Hu0)). }
  unfold tells. destruct Ha; try done.
  - unfold SendMoveRoot. rewrite Hrun. apply Hmove. set_solver.
  - unfold SendMoveUnroot. rewrite Hrun. apply Hmove. set_solver.
  - unfold SendMovementHover. rewrite Hrun, Hread. destruct (HasUnitMovementFlag _ _); apply Hmove; set_solver.
  - unfold SendMovementWaterWalking. rewrite Hrun, Hread. destruct (HasUnitMovementFlag _ _); apply Hmove; set_solver.
  - unfold SendMovementFeatherFall. rewrite Hrun, Hread. destruct (HasUnitMovementFlag _ _); apply Hmove; set_solver.
  - unfold SendMovementDisableGravity. rewrite Hrun, Hread. destruct (HasUnitMovementFlag _ _); apply Hmove; set_solver.
  - unfold SendMovementCanFlyChange. rewrite Hrun, Hread.
    replace (is_player (unit_view (counted (acked ACK_CAN_FLY u)))) with true by done.
    apply (direct_tells client (H := H) g _ info s0); [|done..]. apply messages_numbered.
    destruct (HasUnitMovementFlag _ _); set_solver.
  - unfold SendMovementSetCollisionHeight.
    change (update_unit g _) with (update_unit g (acked ACK_COLLISION_HEIGHT)).
    rewrite (bind_eq _ _ _ _ (eq_sym (expect_ack_player g m sp ACK_COLLISION_HEIGHT s Hs))), Hrun.
    pose proof (height_info_ok height info Hi H1) as Hh.
    by refine (send_tells client (H := H) g _ _ _ _ _ s0 _ Hu0 _ _ _ Hh _ _).
Qed.

(** The decision on an acknowledgement that can be read. *)
Lemma ack_decision sp ack p p' info s :
  session g m sp s -> 0 <= ack < ACK_TYPE_MAX ->
  ReadFromPacket (p, MovementInfo_new) = Ok tt (p', info) ->
  HandleMovementAck g m ack p s
  = if ackCount info =? last_number (CAck ack) (sp_log sp)
    then (HandleMovementInfo g info (m_opcode p') m;; mret p') s
    else Ok (finished p') s.
Proof.
  intros [(u & Hu & _ & Htr & _) _ _] Ha Hr.
  assert (Hread : read_info p s = Ok (p', info) s).
  { unfold read_info, mbind, M_bind, on_local. by rewrite Hr. }
  unfold HandleMovementAck. rewrite (bind_run _ _ _ _ _ Hread).
  rewrite (bind_run _ _ _ _ _ (unit_at_run _ _ _ Hu)), (tr_acks _ _ Htr _ Ha), Z.eqb_sym.
  by destruct (ackCount info =? _).
Qed.

Lemma ack_sender_range ack sender : ack_sender ack sender -> 0 <= ack < ACK_TYPE_MAX.
Proof. by destruct 1. Qed.

(** C6.  A change, its message and its acknowledgement.  Told to a player who
    moves by himself, a change of movement takes the next number; the client,
    of any byte order, reads in the message the player's GUID and that number.
    Whatever movement the client then answers along a table with a number, the
    server reads it as it was sent, and acts on it as a movement if and only if
    it carries this number; otherwise the answer is dropped and nothing
    changes. *)
Theorem ack_exchange (sp : Spec) (ack : Z) (sender : Z -> SM ()) (s : Server) (u : Unit) :
  ack_sender ack sender -> ack <> ACK_TELEPORT -> session g m sp s ->
  units s !! g = Some u -> controlled_by_server (unit_view u) = false ->
  info_ok (m_movementInfo u) -> in_width 64 g -> g <> 0 ->
  exists d s1, sender g s = Ok tt s1 /\ events s1 = events s ++ [Delivered g d] /\
    readable_as client d g (number (sp_log sp)) /\ session g m (spec_send (CAck ack) sp) s1 /\
    forall opcode sequence reply,
      GetMovementStatusElementsSequence opcode = Some sequence -> numbered_opcode opcode = true ->
      info_ok reply -> guid reply <> 0 ->
      exists answer p, WriteToPacket (H := client) reply (WorldPacket_new opcode) = Ok tt answer /\
        HandleMovementAck g m ack answer s1
        = if ackCount reply =? number (sp_log sp)
          then (HandleMovementInfo g (carried sequence reply MovementInfo_new) opcode m;; mret p) s1
          else Ok (finished p) s1.
Proof.
  intros Ha Hne Hs Hu Hc Hinfo Hgw Hg0.
  destruct (sender_tells sp ack sender s u Ha Hne Hs Hu Hc Hinfo Hgw Hg0) as (s0 & -> & d & Hrun & Hread).
  pose proof (ack_sender_ok false g m sp ack sender s Ha Hs) as Hw. unfold wp in Hw. rewrite Hrun in Hw.
  eexists d, _. split_and!; [apply Hrun|done|done|done|].
  intros op sequence reply Hop Hnum Hreply Hg.
  destruct (numbered_roundtrip client _ op sequence reply Hop Hnum Hreply Hg) as (answer & Hans & Hr).
  destruct (Hr MovementInfo_new) as (p & _ & Hfrom & Ho & Hn).
  exists answer, p. split; [done|].
  rewrite (ack_decision _ ack answer p _ _ Hw (ack_sender_range _ _ Ha) Hfrom), Hn, Ho.
  cbn [spec_send sp_log set_field last_number]. by rewrite decide_True.
Qed.
End Exchange.

(** ** Moves *)

(** The movements broadcast: the player that is left out, and the packet. *)
Definition broadcasts (l : list event) : list (Z * WorldPacket) :=
  omap (fun e => match e with SentToSetBut p data => Some (p, data) | _ => None end) l.

(** Steps that broadcast nothing and leave the movement of every unit. *)
Definition still (s s' : Server) : Prop :=
  broadcasts (events s') = broadcasts (events s) /\
  forall x u, units s !! x = Some u -> exists u', units s' !! x = Some u' /\
    unit_view u' = unit_view u /\ m_movementInfo u' = m_movementInfo u.

Lemma still_refl s : still s s.
Proof. split; [done|]. intros x u Hu. by exists u. Qed.

Lemma still_trans s1 s2 s3 : still s1 s2 -> still s2 s3 -> still s1 s3.
Proof.
  intros [H1 H1'] [H2 H2']. split; [congruence|]. intros x u Hu.
  destruct (H1' x u Hu) as (u' & Hu' & ? & ?). destruct (H2' x u' Hu') as (u'' & Hu'' & ? & ?).
  exists u''. split_and!; congruence.
Qed.

Section Silent.
Context (m : Z).

Definition silent {A} (c : SM A) : Prop :=
  forall s, is_Some (units s !! m) -> wp c (fun _ s' => still s s') (fun _ _ => False) s.

Lemma still_Some s s' : still s s' -> is_Some (units s !! m) -> is_Some (units s' !! m).
Proof. intros [_ Hs] [u Hu]. destruct (Hs m u Hu) as (u' & Hu' & _). by exists u'. Qed.

Lemma silent_ret {A} (a : A) : silent (mret a).
Proof. intros s _. apply still_refl. Qed.

Lemma silent_bind {A B} (c : SM A) (f : A -> SM B) :
  silent c -> (forall a, silent (f a)) -> silent (c ≫= f).
Proof.
  intros Hc Hf s Hm. apply wp_bind. eapply wp_mono; [by apply Hc| |done]. intros a s' Hs. cbn in Hs.
  eapply wp_mono; [apply Hf; by apply (still_Some _ _ Hs)| |done].
  intros b s'' Hs'. by apply (still_trans _ _ _ Hs).
Qed.

Lemma silent_when b c : silent c -> silent (when b c).
Proof. destruct b; [done|]. intros _. apply silent_ret. Qed.

Lemma silent_tell e : (forall p data, e <> SentToSetBut p data) -> silent (tell_server e).
Proof.
  intros He s _. split; [|intros x u Hu; by exists u]. cbn. unfold broadcasts. rewrite omap_app.
  destruct e; cbn; rewrite ?app_nil_r; try done. by destruct (He skipped data).
Qed.

Lemma silent_ask {A} (q : list event -> A) : silent (ask q).
Proof. intros s _. apply still_refl. Qed.

Lemma silent_unit_at : silent (unit_at m).
Proof. intros s [u Hu]. unfold wp, unit_at. run. rewrite Hu. apply still_refl. Qed.






Lemma silent_update x t : silent (update_unit x (fun u => u <| m_transport := t |>)).
Proof.
  intros s _. split; [done|]. intros y u Hu. cbn. destruct (decide (y = x)) as [->|].
  - rewrite lookup_alter_eq, Hu. by eexists.
  - rewrite lookup_alter_ne by done. by exists u.
Qed.
End Silent.

Ltac silent :=
  repeat (cbv zeta; lazymatch goal with
  | |- silent _ (_ ≫= _) => apply silent_bind; [|intros ?]
  | |- silent _ (when _ _) => apply silent_when
  | |- silent _ (unit_at _) => apply silent_unit_at
  | |- silent _ (ask _) => apply silent_ask
  | |- silent _ (mret _) => apply silent_ret
  | |- silent _ (tell_server _) => by apply silent_tell
  | |- silent _ (update_unit _ _) => apply silent_update
  | |- silent _ (if ?b then _ else _) => destruct b
  | |- silent _ (match ?o with _ => _ end) => destruct o
  end).

Section Moves.
Context `{Host} `{World}.
Context (g m : Z).










End Moves.

(** ** Acknowledged speeds *)

Section Speeds.
Context `{Host} `{World}.
Context (g m : Z).

(** Setting anew a speed that is a number. *)
Lemma resend_nothing sp s u t x :
  session g m sp s -> units s !! g = Some u -> 0 <= t < MAX_MOVE_TYPE ->
  speed_differs (GetSpeed u t) x = true -> SetSpeed 2 g t (GetSpeedRate u t) true s = Ok tt s.
Proof.
  intros [(v & Hv & _ & Htr & _) _ Hrates] Hu Ht Hd. rewrite Hu in Hv. injection Hv as <-.
  assert (Hrate : f_eq (GetSpeedRate u t) (GetSpeedRate u t) = true).
  { destruct (f_eq _ _) eqn:He; [done|]. apply f_eq_refl, (nan_speed _ _ x) in He. congruence. }
  change (SetSpeed 2) with (SetSpeed_with (SetSpeed 1)). unfold SetSpeed_with.
  fold (new_rate (GetSpeedRate u t)). cbv zeta. rewrite (bind_run _ _ _ _ _ (unit_at_run _ _ _ Hu)).
  rewrite (GetSpeedRate_spec sp u t Htr), stored_rate by done.
  rewrite (GetSpeedRate_spec sp u t Htr) in Hrate. unfold f_eq in Hrate. by rewrite Hrate.
Qed.

(** C31.  The acknowledgement of a speed.  An answer with another number than
    that of the last change of this speed is dropped.  So is one that reports a
    speed that differs by more than a hundredth while not on a transport: even
    when the client is slower and the code sets the speed anew, nothing is
    sent, since the speed is the one it has already.  Any other answer is
    handled as a movement; of the three kinds without an update packet it is
    broadcast before that, as it came. *)
Theorem speed_ack_decision (sp : Spec) (t : Z) (p p' : WorldPacket) (info : MovementInfo) (s : Server)
    (u : Unit) :
  session g m sp s -> units s !! g = Some u -> speed_ack (m_opcode p) = Some t ->
  ReadFromPacket (p, MovementInfo_new) = Ok tt (p', info) ->
  HandleMovementSpeedChangeAck g m p s
  = if negb (ackCount info =? last_number (CSpeed t) (sp_log sp)) then Ok (finished p') s
    else if bool_decide (m_transport u = None) && speed_differs (GetSpeed u t) (ackSpeed info)
    then Ok (finished p') s
    else (match unknown_update t with
          | Some op => '(_, data) ← on_local (WorldPacket_new op) (WriteToPacket info);
                       tell_server (SentToSetBut g data)
          | None => mret tt
          end;;
          HandleMovementInfo g info (m_opcode p') m;; mret p') s.
Proof.
  intros Hs Hu Ht Hr. pose proof (speed_ack_range _ _ Ht) as Hrange.
  pose proof Hs as [(v & Hv & _ & Htr & _) _ Hrates]. rewrite Hu in Hv. injection Hv as <-.
  assert (Hread : read_info p s = Ok (p', info) s).
  { unfold read_info, mbind, M_bind, on_local. by rewrite Hr. }
  unfold HandleMovementSpeedChangeAck. rewrite Ht, (bind_run _ _ _ _ _ Hread).
  rewrite (bind_run _ _ _ _ _ (unit_at_run _ _ _ Hu)), (tr_speeds _ _ Htr _ Hrange), Z.eqb_sym.
  destruct (negb _); [done|]. destruct (bool_decide _ && _) eqn:Hd.
  - apply andb_true_iff in Hd as [_ Hd]. pose proof (resend_nothing sp s u t _ Hs Hu Hrange Hd) as Hset.
    destruct (f_gt _ _); cbn [when]; [by rewrite (bind_run _ _ _ _ _ Hset)|done].
  - destruct (unknown_update t) as [op|]; [|done].
    apply bind_eq. by apply bind_eq.
Qed.
End Speeds.

(** ** At work *)

(** The player of [sample_server]. *)
Definition sample_unit : Unit := (Unit_new sample_view None) <| m_movementInfo := sample_mover |>.

Lemma sample_server_unit : units sample_server !! guid sample_mover = Some sample_unit.
Proof. apply lookup_singleton_eq. Qed.

(** The player is rooted; his client, of the other byte order, reads it. *)
Lemma ack_exchange_witness :
  session (guid sample_mover) (guid sample_mover) spec_new sample_server /\
  exists d s1, SendMoveRoot (H := little_host) (guid sample_mover) sample_server = Ok tt s1 /\
    events s1 = events sample_server ++ [Delivered (guid sample_mover) d] /\
    readable_as big_host d (guid sample_mover) 0 /\
    session (guid sample_mover) (guid sample_mover) (spec_send (CAck ACK_ROOT) spec_new) s1.
Proof.
  split; [by apply fresh_session|].
  destruct (ack_exchange big_host (H := little_host) (H0 := quiet_world) (guid sample_mover) (guid sample_mover)
    spec_new ACK_ROOT (SendMoveRoot (H := little_host)) sample_server sample_unit) as (d & s1 & Hs & He & Hr & Hs1 & _).
  - constructor.
  - done.
  - by apply fresh_session.
  - apply sample_server_unit.
  - done.
  - apply sample_mover_ok.
  - by vm_compute.
  - done.
  - exists d, s1. exact (conj Hs (conj He (conj Hr Hs1))).
Defined.

(** A move of his own, off the transport, is taken. *)
Definition sample_step : MovementInfo := sample_mover <| t_guid := 0 |>.


(** An acknowledgement of the rate of turning with another unit's GUID. *)
Definition spoofed_turn : MovementInfo :=
  sample_step <| guid := 77 |> <| ackCount := 0 |> <| ackSpeed := 0x40490FE0 |>.
Definition spoofed_ack : WorldPacket :=
  match WriteToPacket (H := big_host) spoofed_turn (WorldPacket_new CMSG_MOVE_FORCE_TURN_RATE_CHANGE_ACK) with
  | Ok _ p => p
  | _ => WorldPacket_default
  end.
Definition spoofed_read : WorldPacket * MovementInfo :=
  match ReadFromPacket (H := little_host) (spoofed_ack, MovementInfo_new) with
  | Ok _ r => r
  | _ => (WorldPacket_default, MovementInfo_new)
  end.

(** What came of it: the broadcasts, and the GUID in the player's movement. *)
Definition outcome (g : Z) (r : result Server ByteBufferException WorldPacket) :
    option (list (Z * Z) * option Z) :=
  match r with
  | Ok p s' => Some (map (fun b => (b.1, m_opcode b.2)) (broadcasts (events s')),
                     (fun u => guid (m_movementInfo u)) <$> units s' !! g)
  | _ => None
  end.

(** It is broadcast before the movement is refused. *)
Lemma speed_ack_decision_witness :
  session (guid sample_mover) (guid sample_mover) spec_new sample_server /\
  guid spoofed_read.2 = 77 /\
  outcome (guid sample_mover)
    (HandleMovementSpeedChangeAck (H := little_host) (H0 := quiet_world) (guid sample_mover) (guid sample_mover)
       spoofed_ack sample_server)
  = Some ([(guid sample_mover, SMSG_MOVE_SET_TURN_RATE)], Some (guid sample_mover)).
Proof.
  split; [by apply fresh_session|]. split; [by vm_compute|].
  rewrite (speed_ack_decision (H := little_host) (H0 := quiet_world) (guid sample_mover) (guid sample_mover)
    spec_new MOVE_TURN_RATE spoofed_ack spoofed_read.1 spoofed_read.2 sample_server sample_unit).
  - vm_compute. reflexivity.
  - by apply fresh_session.
  - apply sample_server_unit.
  - vm_compute. reflexivity.
  - vm_compute. reflexivity.
Defined.
