(* ===== verification/Threat.v ===== *)
(** * Threat and hate

    [src/src/server/game/Combat/ThreatManager.{h,cpp}], [HostileRefManager.cpp],
    the links of [shared/Dynamic/LinkedReference] as these use them, and the packets
    of [Entities/Unit/Unit.cpp] about threat.  A creature hates units: its
    [ThreatManager] keeps a reference for each in one of two lists, by whether the
    unit can be fought now; the same reference is in the list of the references to
    the hated unit, its [HostileRefManager].  References are objects on a heap. *)

From Stdlib Require Import SpecFloat.
From S2P Require Import Prelude Float32 ByteBuffer Wire Packet Maps.

(** ** Data *)

Definition UEV_THREAT_REF_ONLINE_STATUS : Z := 1.
Definition UEV_THREAT_REF_THREAT_CHANGE : Z := 2.
Definition UEV_THREAT_REF_REMOVE_FROM_LIST : Z := 4.
Definition UEV_THREAT_REF_ASSECCIBLE_STATUS : Z := 8.

Definition THREAT_UPDATE_INTERVAL : Z := 1000.

Definition TYPEID_UNIT : Z := 3.
Definition TYPEID_PLAYER : Z := 4.

Definition SPELL_EFFECT_ENERGIZE : Z := 30.
Definition SPELL_AURA_PERIODIC_ENERGIZE : Z := 24.
Definition SPELL_ATTR1_NO_THREAT : Z := 0x00000400.
Definition SPELL_SCHOOL_MASK_NORMAL : Z := 1.

Definition SMSG_HIGHEST_THREAT_UPDATE : Z := 0x4104.
Definition SMSG_THREAT_CLEAR : Z := 0x6437.
Definition SMSG_THREAT_REMOVE : Z := 0x2E05.
Definition SMSG_THREAT_UPDATE : Z := 0x4735.

(** The constants of the code, in single precision: 1.1f, 1.3f, 1.0f, 100.0f. *)
Definition f32_1_1 : f32 := f32_of_bits 0x3F8CCCCD.
Definition f32_1_3 : f32 := f32_of_bits 0x3FA66666.
Definition f32_one : f32 := f32_of_Z 1.

(** Units are their GUIDs; references and lists hold them. *)
Record HostileReference := mkHostileReference {
  iRefTo : option Z; iRefFrom : option Z;
  iThreat : f32; iTempThreatModifier : f32; iUnitGuid : Z; iOnline : bool; iAccessible : bool }.
#[export] Instance HostileReference_settable : Settable HostileReference := fun r =>
  mkHostileReference (iRefTo r) (iRefFrom r) (iThreat r) (iTempThreatModifier r) (iUnitGuid r) (iOnline r)
    (iAccessible r).

Record ThreatContainer := mkThreatContainer { iThreatList : list Z; iDirty : bool }.
#[export] Instance ThreatContainer_settable : Settable ThreatContainer := fun c =>
  mkThreatContainer (iThreatList c) (iDirty c).

Record ThreatManager := mkThreatManager {
  iCurrentVictim : option Z; iUpdateTimer : Z;
  iThreatContainer : ThreatContainer; iThreatOfflineContainer : ThreatContainer }.
#[export] Instance ThreatManager_settable : Settable ThreatManager := fun m =>
  mkThreatManager (iCurrentVictim m) (iUpdateTimer m) (iThreatContainer m) (iThreatOfflineContainer m).
Definition ThreatManager_new : ThreatManager :=
  mkThreatManager None THREAT_UPDATE_INTERVAL (mkThreatContainer [] false) (mkThreatContainer [] false).

(** The references by address, the managers of the units, the references to each
    unit, and the packets with the unit around which they are sent. *)
Record ThreatState := mkThreatState {
  references : gmap Z HostileReference; managers : gmap Z ThreatManager; hated_by : gmap Z (list Z);
  next_reference : Z; sent : list (Z * WorldPacket) }.
#[export] Instance ThreatState_settable : Settable ThreatState := fun s =>
  mkThreatState (references s) (managers s) (hated_by s) (next_reference s) (sent s).

Abbreviation TM := (M ThreatState ByteBufferException).

Record SpellInfo := mkSpellInfo { Id : Z; AttributesEx : Z; Effects : list (Z * Z) }.

(** What is asked of units, spells and maps.  [units] are all units there are. *)
Class ThreatWorld := {
  units : list Z;
  GetTypeId : Z -> Z;
  isGameMaster : Z -> bool;
  isAlive : Z -> bool;
  IsInMap : Z -> Z -> bool;
  InSamePhase : Z -> Z -> bool;
  IN_FLIGHT : Z -> bool;
  GetUnit : Z -> Z -> bool;
  isInAccessiblePlaceFor : Z -> Z -> bool;
  IsWithinCombatRange : Z -> Z -> bool;
  GetCharmerOrOwner : Z -> option Z;
  GetRedirectThreatPercent : Z -> Z;
  GetRedirectThreatTarget : Z -> option Z;
  IsImmunedToDamage : Z -> Z -> bool;
  HasNegativeAuraTakeDamage : Z -> bool;
  canCreatureAttack : Z -> Z -> bool;
  IsWithinMeleeRange : Z -> Z -> bool;
  canSeeOrDetect : Z -> Z -> bool;
  faction : Z -> Z;
  SpellThreatEntry_pctMod : Z -> option f32;
  GetSpellModOwner : Z -> option Z;
  ApplySpellMod_THREAT : Z -> Z -> f32 -> f32;
  HasAuraType_MOD_THREAT : Z -> bool;
  m_threatModifier : Z -> Z -> f32
}.

(** ** The heap and the links *)

(** An access to an object that was deleted is undefined. *)
Definition get_ref (a : Z) : TM HostileReference := fun s =>
  match references s !! a with Some r => Ok r s | None => Abort UndefinedBehaviour end.
Definition upd_ref (a : Z) (f : HostileReference -> HostileReference) : TM () :=
  modify (fun s => s <| references ::= alter f a |>).
Definition mgr (o : Z) (s : ThreatState) : ThreatManager := default ThreatManager_new (managers s !! o).
Definition get_mgr (o : Z) : TM ThreatManager := gets (mgr o).
Definition upd_mgr (o : Z) (f : ThreatManager -> ThreatManager) : TM () :=
  modify (fun s => s <| managers ::= <[o := f (mgr o s)]> |>).
Definition haters (u : Z) (s : ThreatState) : list Z := default [] (hated_by s !! u).

Definition getSource (r : HostileReference) : option Z := iRefFrom r.
Definition getTarget (r : HostileReference) : option Z := iRefTo r.
Definition isValid (r : HostileReference) : bool := bool_decide (is_Some (iRefTo r)).

(** [getSource()->getOwner()], [getTarget()->...]: a null pointer is undefined. *)
Definition getSourceUnit (a : Z) : TM Z :=
  r ← get_ref a; match getSource r with Some o => mret o | None => abort UndefinedBehaviour end.
Definition deref_target (a : Z) : TM Z :=
  r ← get_ref a; match getTarget r with Some t => mret t | None => abort UndefinedBehaviour end.

(** [LinkedListElement::delink], [LinkedListHead::insertFirst], [next]. *)
Definition without (a : Z) (l : list Z) : list Z := List.filter (fun x => negb (x =? a)) l.
Definition delink (a : Z) : TM () := modify (fun s => s <| hated_by ::= fmap (without a) |>).
Definition addHatedBy (u a : Z) : TM () := modify (fun s => s <| hated_by ::= <[u := a :: haters u s]> |>).
Definition removeHatedBy (u a : Z) : TM () := mret ().
Fixpoint next_in (a : Z) (l : list Z) : option Z :=
  match l with
  | [] => None
  | x :: l' => if x =? a then head l' else next_in a l'
  end.

Definition targetObjectBuildLink (a : Z) : TM () := t ← deref_target a; addHatedBy t a.
Definition targetObjectDestroyLink (a : Z) : TM () := t ← deref_target a; removeHatedBy t a.

Definition unlink (a : Z) : TM () :=
  targetObjectDestroyLink a;;
  delink a;;
  upd_ref a (fun r => r <| iRefTo := None |> <| iRefFrom := None |>).

Definition link (a : Z) (toObj : option Z) (fromObj : Z) : TM () :=
  r ← get_ref a;
  when (isValid r) (unlink a);;
  match toObj with
  | Some t =>
      upd_ref a (fun r => r <| iRefTo := Some t |> <| iRefFrom := Some fromObj |>);;
      targetObjectBuildLink a
  | None => mret ()
  end.

(** [delete ref]: the destructor of the element takes it out of its list. *)
Definition delete_ref (a : Z) : TM () :=
  get_ref a;;
  delink a;;
  modify (fun s => s <| references ::= delete a |>).

(** ** Packets *)

Definition send_set (o opcode : Z) (body : BB ()) : TM () :=
  '(_, data) ← on_local (WorldPacket_new opcode) (lift body);
  modify (fun s => s <| sent ::= fun l => l ++ [(o, data)] |>).

Fixpoint get_refs (l : list Z) : TM (list HostileReference) :=
  match l with
  | [] => mret []
  | a :: l => r ← get_ref a; rs ← get_refs l; mret (r :: rs)
  end.

Section Threat.
Context `{Host, ThreatWorld}.

Definition isThreatListEmpty (m : ThreatManager) : bool := bool_decide (iThreatList (iThreatContainer m) = []).

(** [SendMessageToSet] is around the unit; [GetPackGUID()] is its packed GUID. *)
Definition SendThreatListUpdate (o : Z) : TM () :=
  m ← get_mgr o;
  when (negb (isThreatListEmpty m))
    (tlist ← get_refs (iThreatList (iThreatContainer m));
     send_set o SMSG_THREAT_UPDATE
       (appendPackGUID o;;
        out TU32 (u32 (Z.of_nat (length tlist)));;
        for_each tlist (fun r =>
          appendPackGUID (iUnitGuid r);; out TU32 (uint32_of_f32 (f32_mul (iThreat r) f32_hundred))))).

Definition SendChangeCurrentVictimOpcode (o pHostileReference : Z) : TM () :=
  m ← get_mgr o;
  when (negb (isThreatListEmpty m))
    (v ← get_ref pHostileReference;
     tlist ← get_refs (iThreatList (iThreatContainer m));
     send_set o SMSG_HIGHEST_THREAT_UPDATE
       (appendPackGUID o;;
        appendPackGUID (iUnitGuid v);;
        out TU32 (u32 (Z.of_nat (length tlist)));;
        for_each tlist (fun r => appendPackGUID (iUnitGuid r);; out TU32 (uint32_of_f32 (iThreat r))))).

Definition SendClearThreatListOpcode (o : Z) : TM () := send_set o SMSG_THREAT_CLEAR (appendPackGUID o).

Definition SendRemoveFromThreatListOpcode (o pHostileReference : Z) : TM () :=
  r ← get_ref pHostileReference;
  send_set o SMSG_THREAT_REMOVE (appendPackGUID o;; appendPackGUID (iUnitGuid r)).

(** ** ThreatCalcHelper *)

Definition MAX_SPELL_SCHOOL : Z := 7.
Definition SPELL_SCHOOL_NORMAL : Z := 0.

Definition GetFirstSchoolInMask (mask : Z) : Z :=
  match List.find (fun i => negb (Z.land mask (Z.shiftl 1 i) =? 0)) (seqZ 0 MAX_SPELL_SCHOOL) with
  | Some i => i
  | None => SPELL_SCHOOL_NORMAL
  end.

Definition ApplyTotalThreatModifier (u : Z) (fThreat : f32) (schoolMask : Z) : f32 :=
  if negb (HasAuraType_MOD_THREAT u) || f32_ltb fThreat f32_zero then fThreat
  else f32_mul fThreat (m_threatModifier u (GetFirstSchoolInMask schoolMask)).

Definition energizes (s : SpellInfo) : bool :=
  existsb (fun e => (e.1 =? SPELL_EFFECT_ENERGIZE) || (e.2 =? SPELL_AURA_PERIODIC_ENERGIZE)) (Effects s).

Definition calcThreat (hatedUnit : Z) (threat : f32) (schoolMask : Z) (threatSpell : option SpellInfo) : f32 :=
  match threatSpell with
  | Some s =>
      let threat := match SpellThreatEntry_pctMod (Id s) with
                    | Some pctMod => if negb (f32_eqb pctMod f32_one) then f32_mul threat pctMod else threat
                    | None => threat
                    end in
      if energizes s then threat
      else
        let threat := match GetSpellModOwner hatedUnit with
                      | Some modOwner => ApplySpellMod_THREAT modOwner (Id s) threat
                      | None => threat
                      end in
        ApplyTotalThreatModifier hatedUnit threat schoolMask
  | None => ApplyTotalThreatModifier hatedUnit threat schoolMask
  end.

Definition isValidProcess (hatedUnit hatingUnit : option Z) (threatSpell : option SpellInfo) : TM bool :=
  match hatedUnit, hatingUnit with
  | Some hated, Some hating =>
      if hated =? hating then mret false
      else if (GetTypeId hated =? TYPEID_PLAYER) && isGameMaster hated then mret false
      else if negb (isAlive hated) || negb (isAlive hating) then mret false
      else if negb (IsInMap hated hating) || negb (InSamePhase hated hating) then mret false
      else if match threatSpell with
              | Some s => negb (Z.land (AttributesEx s) SPELL_ATTR1_NO_THREAT =? 0)
              | None => false
              end then mret false
      else assert_ (GetTypeId hating =? TYPEID_UNIT);; mret true
  | _, _ => mret false
  end.

(** ** ThreatManager: events *)

Definition upd_online (o : Z) (f : ThreatContainer -> ThreatContainer) : TM () :=
  upd_mgr o (fun m => m <| iThreatContainer ::= f |>).
Definition upd_offline (o : Z) (f : ThreatContainer -> ThreatContainer) : TM () :=
  upd_mgr o (fun m => m <| iThreatOfflineContainer ::= f |>).
Definition remove (a : Z) (c : ThreatContainer) : ThreatContainer := c <| iThreatList ::= without a |>.
Definition addReference (a : Z) (c : ThreatContainer) : ThreatContainer := c <| iThreatList ::= fun l => l ++ [a] |>.
Definition setDirty (o : Z) (isDirty : bool) : TM () := upd_online o (fun c => c <| iDirty := isDirty |>).

Definition setCurrentVictim (o : Z) (pHostileReference : option Z) : TM () :=
  m ← get_mgr o;
  match pHostileReference with
  | Some a => when (negb (bool_decide (iCurrentVictim m = Some a))) (SendChangeCurrentVictimOpcode o a)
  | None => mret ()
  end;;
  upd_mgr o (fun m => m <| iCurrentVictim := pHostileReference |>).

Definition processThreatEvent (o type hostilRef : Z) (fValue : f32) : TM () :=
  m ← get_mgr o;
  let isCurrent := bool_decide (iCurrentVictim m = Some hostilRef) in
  if type =? UEV_THREAT_REF_THREAT_CHANGE then
    when ((isCurrent && f32_ltb fValue f32_zero) || (negb isCurrent && f32_ltb f32_zero fValue)) (setDirty o true)
  else if type =? UEV_THREAT_REF_ONLINE_STATUS then
    r ← get_ref hostilRef;
    if negb (iOnline r) then
      when isCurrent (setCurrentVictim o None;; setDirty o true);;
      SendRemoveFromThreatListOpcode o hostilRef;;
      upd_online o (remove hostilRef);;
      upd_offline o (addReference hostilRef)
    else
      match iCurrentVictim m with
      | Some c => v ← get_ref c; when (f32_ltb (f32_mul f32_1_1 (iThreat v)) (iThreat r)) (setDirty o true)
      | None => mret ()
      end;;
      upd_online o (addReference hostilRef);;
      upd_offline o (remove hostilRef)
  else if type =? UEV_THREAT_REF_REMOVE_FROM_LIST then
    when isCurrent (setCurrentVictim o None;; setDirty o true);;
    SendRemoveFromThreatListOpcode o hostilRef;;
    r ← get_ref hostilRef;
    if iOnline r then upd_online o (remove hostilRef) else upd_offline o (remove hostilRef)
  else mret ().

(** ** HostileReference *)

Definition fireStatusChanged (a type : Z) (fValue : f32) : TM () :=
  r ← get_ref a;
  match getSource r with
  | Some o => processThreatEvent o type a fValue
  | None => mret ()
  end.

Definition setAccessibleState (a : Z) (isAccessible : bool) : TM () :=
  r ← get_ref a;
  when (negb (Bool.eqb (iAccessible r) isAccessible))
    (upd_ref a (fun r => r <| iAccessible := isAccessible |>);;
     fireStatusChanged a UEV_THREAT_REF_ASSECCIBLE_STATUS f32_zero).

Definition setOnlineOfflineState (a : Z) (isOnline : bool) : TM () :=
  r ← get_ref a;
  when (negb (Bool.eqb (iOnline r) isOnline))
    (upd_ref a (fun r => r <| iOnline := isOnline |>);;
     when (negb isOnline) (setAccessibleState a false);;
     fireStatusChanged a UEV_THREAT_REF_ONLINE_STATUS f32_zero).

Definition sourceObjectDestroyLink (a : Z) : TM () := setOnlineOfflineState a false.

(** [Reference::invalidate] *)
Definition invalidate (a : Z) : TM () :=
  sourceObjectDestroyLink a;;
  delink a;;
  upd_ref a (fun r => r <| iRefTo := None |>).

Definition removeReference (a : Z) : TM () :=
  invalidate a;;
  fireStatusChanged a UEV_THREAT_REF_REMOVE_FROM_LIST f32_zero.

(** The source is a creature, which is asked whether it can reach the target. *)
Definition reachable_state (a target : Z) : TM (bool * bool) :=
  if (negb (GetTypeId target =? TYPEID_PLAYER) || negb (isGameMaster target)) && negb (IN_FLIGHT target) then
    o ← getSourceUnit a;
    if IsInMap target o && InSamePhase target o then
      if negb (GetTypeId o =? TYPEID_UNIT) then abort UndefinedBehaviour
      else if isInAccessiblePlaceFor target o then mret (true, true)
      else mret (IsWithinCombatRange o target, false)
    else mret (false, false)
  else mret (false, false).

Definition updateOnlineStatus (a : Z) : TM () :=
  r ← get_ref a;
  when (negb (isValid r))
    (o ← getSourceUnit a;
     when (GetUnit o (iUnitGuid r)) (link a (Some (iUnitGuid r)) o));;
  r ← get_ref a;
  '(online, accessible) ←
    match getTarget r with
    | Some target => reachable_state a target
    | None => mret (false, false)
    end;
  setAccessibleState a accessible;;
  setOnlineOfflineState a online.

(** [HostileReference(refUnit, threatManager, threat)] *)
Definition HostileReference_new (refUnit threatManager : Z) (threat : f32) : TM Z :=
  a ← gets next_reference;
  modify (fun s => s <| next_reference ::= Z.succ |>
                     <| references ::= <[a := mkHostileReference None None threat f32_zero 0 false false]> |>);;
  link a (Some refUnit) threatManager;;
  upd_ref a (fun r => r <| iUnitGuid := refUnit |> <| iOnline := true |> <| iAccessible := true |>);;
  mret a.

(** ** ThreatContainer *)

Fixpoint find_ref (guid : Z) (l : list Z) : TM (option Z) :=
  match l with
  | [] => mret None
  | a :: l => r ← get_ref a; if iUnitGuid r =? guid then mret (Some a) else find_ref guid l
  end.

Definition getReferenceByTarget (l : list Z) (victim : option Z) : TM (option Z) :=
  match victim with None => mret None | Some v => find_ref v l end.

Definition online_list (o : Z) : TM (list Z) := gets (fun s => iThreatList (iThreatContainer (mgr o s))).
Definition offline_list (o : Z) : TM (list Z) := gets (fun s => iThreatList (iThreatOfflineContainer (mgr o s))).

(** ** Adding threat

    Threat to a pet is also hate, without threat, of who owns it: [addThreat] of
    the manager comes back through [rec]. *)

Section Adding.
Variable rec : Z -> Z -> f32 -> TM ().

Definition ref_addThreat (a : Z) (modThreat : f32) : TM () :=
  upd_ref a (fun r => r <| iThreat ::= fun t => f32_add t modThreat |>);;
  r ← get_ref a;
  when (negb (iOnline r)) (updateOnlineStatus a);;
  when (negb (f32_eqb modThreat f32_zero)) (fireStatusChanged a UEV_THREAT_REF_THREAT_CHANGE modThreat);;
  r ← get_ref a;
  match getTarget r with
  | Some target =>
      when (f32_leb f32_zero modThreat)
        (match GetCharmerOrOwner target with
         | Some victimOwner =>
             when (isAlive victimOwner)
               (match getSource r with Some o => rec o victimOwner f32_zero | None => abort UndefinedBehaviour end)
         | None => mret ()
         end)
  | None => mret ()
  end.

Definition container_addThreat (l : list Z) (victim : Z) (threat : f32) : TM (option Z) :=
  ref ← getReferenceByTarget l (Some victim);
  match ref with
  | Some a => ref_addThreat a threat;; mret (Some a)
  | None => mret None
  end.

Definition _addThreat (o victim : Z) (threat : f32) : TM () :=
  l ← online_list o;
  ref ← container_addThreat l victim threat;
  ref ← match ref with
        | Some a => mret (Some a)
        | None => l ← offline_list o; container_addThreat l victim threat
        end;
  match ref with
  | Some _ => mret ()
  | None =>
      hostileRef ← HostileReference_new victim o f32_zero;
      upd_online o (addReference hostileRef);;
      ref_addThreat hostileRef threat;;
      when ((GetTypeId victim =? TYPEID_PLAYER) && isGameMaster victim) (setOnlineOfflineState hostileRef false)
  end.

(** [CalculatePct<float, uint32>] *)
Definition CalculatePct (base : f32) (pct : Z) : f32 := f32_div (f32_mul base (f32_of_Z pct)) f32_hundred.

Definition doAddThreat (o victim : Z) (threat : f32) : TM () :=
  let redirectThreadPct := GetRedirectThreatPercent victim in
  threat ←
    (if f32_ltb f32_zero threat && negb (redirectThreadPct =? 0) then
       match GetRedirectThreatTarget victim with
       | Some redirectTarget =>
           let redirectThreat := CalculatePct threat redirectThreadPct in
           _addThreat o redirectTarget redirectThreat;;
           mret (f32_sub threat redirectThreat)
       | None => mret threat
       end
     else mret threat);
  _addThreat o victim threat.

Definition mgr_addThreat (o : Z) (victim : option Z) (threat : f32) (schoolMask : Z)
    (threatSpell : option SpellInfo) : TM () :=
  valid ← isValidProcess victim (Some o) threatSpell;
  match victim with
  | Some v => when valid (doAddThreat o v (calcThreat v threat schoolMask threatSpell))
  | None => mret ()
  end.
End Adding.

(** Owners have owners: the fuel is the number of units; a circle of owners would
    overflow the stack. *)
Fixpoint addThreat_rec (fuel : nat) (o victim : Z) (threat : f32) : TM () :=
  match fuel with
  | O => abort UndefinedBehaviour
  | S fuel => mgr_addThreat (addThreat_rec fuel) o (Some victim) threat SPELL_SCHOOL_MASK_NORMAL None
  end.
Definition owner_addThreat : Z -> Z -> f32 -> TM () := addThreat_rec (length units).

Definition addThreat (o : Z) (victim : option Z) (threat : f32) (schoolMask : Z)
    (threatSpell : option SpellInfo) : TM () := mgr_addThreat owner_addThreat o victim threat schoolMask threatSpell.

(** [HostileReference::addThreat], [setThreat], [addThreatPercent] and the
    temporary threat of taunts. *)
Definition HostileReference_addThreat (a : Z) (modThreat : f32) : TM () := ref_addThreat owner_addThreat a modThreat.
Definition setThreat (a : Z) (threat : f32) : TM () :=
  r ← get_ref a; HostileReference_addThreat a (f32_sub threat (iThreat r)).
Definition addThreatPercent (a percent : Z) : TM () :=
  r ← get_ref a;
  let tmpThreat := f32_add (iThreat r) (CalculatePct (iThreat r) percent) in
  HostileReference_addThreat a (f32_sub tmpThreat (iThreat r)).
Definition addTempThreat (a : Z) (threat : f32) : TM () :=
  upd_ref a (fun r => r <| iTempThreatModifier := threat |>);;
  when (negb (f32_eqb threat f32_zero)) (HostileReference_addThreat a threat).
Definition setTempThreat (a : Z) (threat : f32) : TM () :=
  r ← get_ref a; addTempThreat a (f32_sub threat (iThreat r)).
Definition resetTempThreat (a : Z) : TM () :=
  r ← get_ref a;
  when (negb (f32_eqb (iTempThreatModifier r) f32_zero))
    (HostileReference_addThreat a (f32_opp (iTempThreatModifier r));;
     upd_ref a (fun r => r <| iTempThreatModifier := f32_zero |>)).

(** ** ThreatManager *)

(** [ThreatContainer::modifyThreatPercent] *)
Definition modifyThreatPercent (o : Z) (victim : option Z) (percent : Z) : TM () :=
  l ← online_list o;
  ref ← getReferenceByTarget l victim;
  match ref with Some a => addThreatPercent a percent | None => mret () end.

Definition getThreat (o : Z) (victim : option Z) (alsoSearchOfflineList : bool) : TM f32 :=
  l ← online_list o;
  ref ← getReferenceByTarget l victim;
  ref ← match ref with
        | Some a => mret (Some a)
        | None => if alsoSearchOfflineList then l ← offline_list o; getReferenceByTarget l victim else mret None
        end;
  match ref with Some a => r ← get_ref a; mret (iThreat r) | None => mret f32_zero end.

(** [std::list::sort] with [ThreatOrderPred]: by threat, greatest first; equals
    stay in order.  The order is one on numbers; with a NaN in the list [sort] has no
    meaning, and the theorems about the order are for lists of numbers. *)
Fixpoint insert_ref (x : Z * f32) (l : list (Z * f32)) : list (Z * f32) :=
  match l with
  | [] => [x]
  | y :: l' => if f32_ltb (snd x) (snd y) then y :: insert_ref x l' else x :: l
  end.
Definition sort_refs (l : list (Z * f32)) : list (Z * f32) := foldr insert_ref [] l.

(** [ThreatContainer::update] *)
Definition update (o : Z) : TM () :=
  m ← get_mgr o;
  let l := iThreatList (iThreatContainer m) in
  when (iDirty (iThreatContainer m) && (1 <? Z.of_nat (length l)))
    (rs ← get_refs l;
     upd_online o (fun c => c <| iThreatList := map fst (sort_refs (zip l (map iThreat rs))) |>));;
  setDirty o false.

(** [ThreatContainer::selectNextVictim].  The loop is begun again, once, from
    [restart], when its last reference is a second choice too. *)
Fixpoint select_loop (attacker : Z) (restart : option Z -> TM (option Z)) (noPriorityTargetFound : bool)
    (currentVictim : option Z) (l : list Z) : TM (option Z) :=
  match l with
  | [] => mret None
  | currentRef :: l' =>
      r ← get_ref currentRef;
      match getTarget r with
      | None => abort AssertFailed
      | Some target =>
          if negb noPriorityTargetFound && (IsImmunedToDamage target attacker || HasNegativeAuraTakeDamage target)
          then
            match l' with
            | _ :: _ =>
                select_loop attacker restart noPriorityTargetFound
                  (if bool_decide (currentVictim = Some currentRef) then None else currentVictim) l'
            | [] => restart currentVictim
            end
          else if canCreatureAttack attacker target then
            match currentVictim with
            | None => mret (Some currentRef)
            | Some c =>
                v ← get_ref c;
                if (c =? currentRef) || f32_leb (iThreat r) (f32_mul f32_1_1 (iThreat v)) then
                  if negb (c =? currentRef) then
                    t ← deref_target c;
                    mret (Some (if canCreatureAttack attacker t then c else currentRef))
                  else mret (Some currentRef)
                else if f32_ltb (f32_mul f32_1_3 (iThreat v)) (iThreat r) ||
                        (f32_ltb (f32_mul f32_1_1 (iThreat v)) (iThreat r) && IsWithinMeleeRange attacker target)
                then mret (Some currentRef)
                else select_loop attacker restart noPriorityTargetFound currentVictim l'
            end
          else select_loop attacker restart noPriorityTargetFound currentVictim l'
      end
  end.

Definition selectNextVictim (attacker : Z) (l : list Z) (currentVictim : option Z) : TM (option Z) :=
  if bool_decide (l = []) then abort UndefinedBehaviour
  else
    select_loop attacker (fun c => select_loop attacker (fun _ => abort UndefinedBehaviour) true c l)
      false currentVictim l.

Definition getHostilTarget (o : Z) : TM (option Z) :=
  update o;;
  m ← get_mgr o;
  if negb (GetTypeId o =? TYPEID_UNIT) then abort UndefinedBehaviour
  else
    nextVictim ← selectNextVictim o (iThreatList (iThreatContainer m)) (iCurrentVictim m);
    setCurrentVictim o nextVictim;;
    match nextVictim with
    | Some a => r ← get_ref a; mret (getTarget r)
    | None => mret None
    end.

Definition tauntApply (o : Z) (taunter : option Z) : TM () :=
  m ← get_mgr o;
  ref ← getReferenceByTarget (iThreatList (iThreatContainer m)) taunter;
  match iCurrentVictim m, ref with
  | Some c, Some a =>
      v ← get_ref c;
      r ← get_ref a;
      when (f32_ltb (iThreat r) (iThreat v) && f32_eqb (iTempThreatModifier r) f32_zero)
        (setTempThreat a (iThreat v))
  | _, _ => mret ()
  end.

Definition tauntFadeOut (o : Z) (taunter : option Z) : TM () :=
  l ← online_list o;
  ref ← getReferenceByTarget l taunter;
  match ref with Some a => resetTempThreat a | None => mret () end.

Definition isNeedUpdateToClient (o time : Z) : TM bool :=
  m ← get_mgr o;
  if isThreatListEmpty m then mret false
  else if iUpdateTimer m <=? time then
    upd_mgr o (fun m => m <| iUpdateTimer := THREAT_UPDATE_INTERVAL |>);; mret true
  else upd_mgr o (fun m => m <| iUpdateTimer := u32 (iUpdateTimer m - time) |>);; mret false.

(** The loops over the list while what they do may add to it: the next reference
    is looked up after each turn, and there are no more turns than units. *)
Fixpoint each_online (fuel : nat) (o : Z) (itr : option Z) (body : Z -> TM ()) : TM () :=
  match itr with
  | None => mret ()
  | Some a =>
      match fuel with
      | O => abort UndefinedBehaviour
      | S fuel => body a;; l ← online_list o; each_online fuel o (next_in a l) body
      end
  end.

Definition resetAllAggro (o : Z) : TM () :=
  l ← online_list o;
  when (negb (bool_decide (l = [])))
    (each_online (length units) o (head l) (fun a => setThreat a f32_zero);;
     setDirty o true).

Definition resetAggro (predicate : Z -> bool) (o : Z) : TM () :=
  l ← online_list o;
  each_online (length units) o (head l) (fun a =>
    t ← deref_target a;
    when (predicate t) (setThreat a f32_zero;; setDirty o true)).

(** [ThreatContainer::clearReferences], [ThreatManager::clearReferences] *)
Definition clear_refs (l : list Z) : TM () := for_each l (fun a => unlink a;; delete_ref a).

Definition clearReferences (o : Z) : TM () :=
  l ← online_list o;
  clear_refs l;;
  upd_online o (fun c => c <| iThreatList := [] |>);;
  l ← offline_list o;
  clear_refs l;;
  upd_offline o (fun c => c <| iThreatList := [] |>);;
  upd_mgr o (fun m => m <| iCurrentVictim := None |> <| iUpdateTimer := THREAT_UPDATE_INTERVAL |>).

(** ** HostileRefManager *)

(** [while (ref)]: the next is the one after it in the list once the body is done. *)
Fixpoint each_hater (fuel : nat) (u : Z) (ref : option Z) (body : Z -> TM ()) : TM () :=
  match ref with
  | None => mret ()
  | Some a =>
      match fuel with
      | O => abort UndefinedBehaviour
      | S fuel => body a;; get_ref a;; l ← gets (haters u); each_hater fuel u (next_in a l) body
      end
  end.
Definition for_haters (u : Z) (body : Z -> TM ()) : TM () :=
  l ← gets (haters u); each_hater (length l) u (head l) body.

Definition threatAssist (u : Z) (victim : Z) (baseThreat : f32) (threatSpell : option (SpellInfo * Z)) : TM () :=
  l ← gets (haters u);
  let spell := option_map fst threatSpell in
  let threat := calcThreat victim baseThreat
                  (match threatSpell with Some s => s.2 | None => SPELL_SCHOOL_MASK_NORMAL end) spell in
  let threat := f32_div threat (f32_of_Z (u32 (Z.of_nat (length l)))) in
  for_haters u (fun ref =>
    o ← getSourceUnit ref;
    valid ← isValidProcess (Some victim) (Some o) spell;
    when valid (doAddThreat owner_addThreat o victim threat)).

Definition haters_addTempThreat (u : Z) (threat : f32) (apply : bool) : TM () :=
  for_haters u (fun ref =>
    if apply then
      r ← get_ref ref;
      when (f32_eqb (iTempThreatModifier r) f32_zero) (addTempThreat ref threat)
    else resetTempThreat ref).

Definition haters_addThreatPercent (u percent : Z) : TM () := for_haters u (fun ref => addThreatPercent ref percent).
Definition haters_setOnlineOfflineState (u : Z) (isOnline : bool) : TM () :=
  for_haters u (fun ref => setOnlineOfflineState ref isOnline).
Definition updateThreatTables (u : Z) : TM () := for_haters u updateOnlineStatus.

(** The loops that delete take the next reference first. *)
Fixpoint each_deleting (fuel : nat) (u : Z) (ref : option Z) (doomed : Z -> TM bool) (once : bool) : TM () :=
  match ref with
  | None => mret ()
  | Some a =>
      match fuel with
      | O => abort UndefinedBehaviour
      | S fuel =>
          get_ref a;;
          l ← gets (haters u);
          let nextRef := next_in a l in
          d ← doomed a;
          when d (removeReference a;; delete_ref a);;
          if d && once then mret () else each_deleting fuel u nextRef doomed once
      end
  end.
Definition delete_haters (u : Z) (doomed : Z -> TM bool) (once : bool) : TM () :=
  l ← gets (haters u); each_deleting (length l) u (head l) doomed once.

Definition deleteReferences (u : Z) : TM () := delete_haters u (fun _ => mret true) false.
Definition deleteReferencesForFaction (u f : Z) : TM () :=
  delete_haters u (fun ref => o ← getSourceUnit ref; mret (faction o =? f)) false.
Definition deleteReference (u creature : Z) : TM () :=
  delete_haters u (fun ref => o ← getSourceUnit ref; mret (o =? creature)) true.
Definition UpdateVisibility (u : Z) : TM () :=
  delete_haters u (fun ref => o ← getSourceUnit ref; mret (negb (canSeeOrDetect o u))) false.

Fixpoint set_state_of (fuel : nat) (u : Z) (ref : option Z) (creature : Z) (isOnline : bool) : TM () :=
  match ref with
  | None => mret ()
  | Some a =>
      match fuel with
      | O => abort UndefinedBehaviour
      | S fuel =>
          l ← gets (haters u);
          o ← getSourceUnit a;
          if o =? creature then setOnlineOfflineState a isOnline
          else set_state_of fuel u (next_in a l) creature isOnline
      end
  end.
Definition setOnlineOfflineState_of (u creature : Z) (isOnline : bool) : TM () :=
  l ← gets (haters u); set_state_of (length l) u (head l) creature isOnline.

(** [Unit::DeleteThreatList]; [CanHaveThreatList] is asked of the unit. *)
Definition DeleteThreatList (o : Z) (CanHaveThreatList : bool) : TM () :=
  m ← get_mgr o;
  when (CanHaveThreatList && negb (isThreatListEmpty m)) (SendClearThreatListOpcode o);;
  clearReferences o.
End Threat.
