(* ===== verification/ThreatInv.v ===== *)
(** * Threat: the invariant

    What holds of references, lists and current victims between operations, and
    that every operation keeps it. *)

From Stdlib Require Import SpecFloat.
From S2P Require Import Prelude Float32 ByteBuffer Wire WireProps Packet Maps Threat.

Definition online (o : Z) (st : ThreatState) : list Z := iThreatList (iThreatContainer (mgr o st)).
Definition offline (o : Z) (st : ThreatState) : list Z := iThreatList (iThreatOfflineContainer (mgr o st)).

(** Between operations: no reference is dangling or without its unit; a reference
    is in the one list of its manager that its state says, once, and in the list of
    the unit it refers to; a manager has one reference to a unit; the current victim
    can be fought. *)
Record hate_ok (st : ThreatState) : Prop := {
  ht_fresh a : is_Some (references st !! a) -> a < next_reference st;
  ht_link a r : references st !! a = Some r -> iRefTo r = Some (iUnitGuid r) /\ is_Some (iRefFrom r);
  ht_online o a : a ∈ online o st <->
    exists r, references st !! a = Some r /\ iRefFrom r = Some o /\ iOnline r = true;
  ht_offline o a : a ∈ offline o st <->
    exists r, references st !! a = Some r /\ iRefFrom r = Some o /\ iOnline r = false;
  ht_nodup o : NoDup (online o st) /\ NoDup (offline o st);
  ht_unique a b r s : references st !! a = Some r -> references st !! b = Some s ->
    iRefFrom r = iRefFrom s -> iUnitGuid r = iUnitGuid s -> a = b;
  ht_victim o c : iCurrentVictim (mgr o st) = Some c -> c ∈ online o st;
  ht_hated u a : a ∈ haters u st <-> exists r, references st !! a = Some r /\ iRefTo r = Some u;
  ht_nodup_hated u : NoDup (haters u st)
}.

(** What documented behaviour of units, spells and the game's rules gives: GUIDs
    have 64 bits; who owns or is redirected to is a unit; nobody is, over any
    number of charmers and owners, his own. *)
Class ThreatWorldOk `{ThreatWorld} := {
  owner_rank : Z -> nat;
  wo_guids : Forall (in_width 64) units;
  wo_count : zlen units <= 100000;
  wo_owner u v : u ∈ units -> GetCharmerOrOwner u = Some v -> v ∈ units /\ (owner_rank v < owner_rank u)%nat;
  wo_rank u : u ∈ units -> (owner_rank u < length units)%nat;
  wo_redirect u v : u ∈ units -> GetRedirectThreatTarget u = Some v -> v ∈ units
}.

(** The references are between units there are, from creatures. *)
Definition fits `{ThreatWorld} (st : ThreatState) : Prop := forall a r, references st !! a = Some r ->
  iUnitGuid r ∈ units /\ exists o, iRefFrom r = Some o /\ o ∈ units /\ GetTypeId o = TYPEID_UNIT.

(** ** States *)

Definition put_ref (a : Z) (r : HostileReference) (st : ThreatState) : ThreatState :=
  st <| references ::= <[a := r]> |>.
Definition put_mgr (o : Z) (m : ThreatManager) (st : ThreatState) : ThreatState :=
  st <| managers ::= <[o := m]> |>.

Lemma mgr_put o o' m st : mgr o (put_mgr o' m st) = if bool_decide (o = o') then m else mgr o st.
Proof.
  unfold mgr, put_mgr. cbn. case_bool_decide; [subst; by rewrite lookup_insert_eq|by rewrite lookup_insert_ne].
Qed.

Lemma mgr_put_eq o m st : mgr o (put_mgr o m st) = m.
Proof. rewrite mgr_put. by rewrite bool_decide_eq_true_2. Qed.

Lemma wp_get_ref a r (Q : HostileReference -> ThreatState -> Prop) X st :
  references st !! a = Some r -> Q r st -> wp (get_ref a) Q X st.
Proof. intros Hr HQ. unfold wp, get_ref. by rewrite Hr. Qed.

Lemma wp_upd_ref a f r (Q : () -> ThreatState -> Prop) X st :
  references st !! a = Some r -> Q () (put_ref a (f r) st) -> wp (upd_ref a f) Q X st.
Proof. intros Hr HQ. apply wp_modify. unfold put_ref in HQ. cbn. by rewrite (alter_Some _ a _ r). Qed.

Lemma wp_upd_mgr o f (Q : () -> ThreatState -> Prop) X st :
  Q () (put_mgr o (f (mgr o st)) st) -> wp (upd_mgr o f) Q X st.
Proof. intros HQ. by apply wp_modify. Qed.

(** Packets are nothing to the invariant. *)
Definition say (p : Z * WorldPacket) (st : ThreatState) : ThreatState := st <| sent ::= fun l => l ++ [p] |>.

Lemma mgr_say o p st : mgr o (say p st) = mgr o st.
Proof. done. Qed.

Lemma hate_ok_same st st' :
  references st' = references st -> managers st' = managers st -> hated_by st' = hated_by st ->
  next_reference st' = next_reference st -> hate_ok st -> hate_ok st'.
Proof.
  destruct st as [refs ms hs n l], st' as [refs' ms' hs' n' l']. cbn. intros -> -> -> -> [H1 H2 H3 H4 H5 H6 H7 H8 H9].
  by split.
Qed.

Lemma hate_ok_say p st : hate_ok st -> hate_ok (say p st).
Proof. by apply hate_ok_same. Qed.

(** A reference whose threat or access changes; a manager whose flags do. *)
Lemma hate_ok_put_ref a r r' st :
  hate_ok st -> references st !! a = Some r ->
  iRefTo r' = iRefTo r -> iRefFrom r' = iRefFrom r -> iUnitGuid r' = iUnitGuid r -> iOnline r' = iOnline r ->
  hate_ok (put_ref a r' st).
Proof.
  intros [H1 H2 H3 H4 H5 H6 H7 H8 H9] Hr E1 E2 E3 E4.
  assert (Hback : forall b s', references (put_ref a r' st) !! b = Some s' -> exists s, references st !! b = Some s /\
    iRefTo s' = iRefTo s /\ iRefFrom s' = iRefFrom s /\ iUnitGuid s' = iUnitGuid s /\ iOnline s' = iOnline s).
  { cbn. intros b s' [[<- <-]|[_ Hs]]%lookup_insert_Some; eauto 10. }
  assert (Hforth : forall b s, references st !! b = Some s -> exists s', references (put_ref a r' st) !! b = Some s' /\
    iRefTo s' = iRefTo s /\ iRefFrom s' = iRefFrom s /\ iUnitGuid s' = iUnitGuid s /\ iOnline s' = iOnline s).
  { intros b s Hs. cbn. destruct (decide (b = a)) as [->|]; [|rewrite lookup_insert_ne by done; eauto 10].
    rewrite lookup_insert_eq. assert (s = r) as -> by congruence. eauto 10. }
  split.
  - intros b [s' Hs']. apply Hback in Hs' as (s & Hs & _). apply H1. by eexists.
  - intros b s' Hs'. apply Hback in Hs' as (s & Hs & -> & -> & -> & _). by apply (H2 b).
  - intros o b. rewrite (H3 o b). split.
    + intros (s & Hs & ? & ?). destruct (Hforth b s Hs) as (s' & Hs' & ? & ? & ? & ?). exists s'. split_and!; congruence.
    + intros (s' & Hs' & ? & ?). destruct (Hback b s' Hs') as (s & Hs & ? & ? & ? & ?). exists s. split_and!; congruence.
  - intros o b. rewrite (H4 o b). split.
    + intros (s & Hs & ? & ?). destruct (Hforth b s Hs) as (s' & Hs' & ? & ? & ? & ?). exists s'. split_and!; congruence.
    + intros (s' & Hs' & ? & ?). destruct (Hback b s' Hs') as (s & Hs & ? & ? & ? & ?). exists s. split_and!; congruence.
  - exact H5.
  - intros b c s1 s2 Hb Hc Hf Hu. apply Hback in Hb as (t1 & Ht1 & ? & ? & ? & ?). apply Hback in Hc as (t2 & Ht2 & ? & ? & ? & ?).
    apply (H6 b c t1 t2); congruence.
  - exact H7.
  - intros u b. rewrite (H8 u b). split.
    + intros (s & Hs & ?). destruct (Hforth b s Hs) as (s' & Hs' & ? & ? & ? & ?). exists s'. split; congruence.
    + intros (s' & Hs' & ?). destruct (Hback b s' Hs') as (s & Hs & ? & ? & ? & ?). exists s. split; congruence.
  - exact H9.
Qed.

Lemma hate_ok_put_mgr o m st :
  hate_ok st -> iThreatList (iThreatContainer m) ≡ₚ online o st ->
  iThreatList (iThreatOfflineContainer m) ≡ₚ offline o st ->
  (forall c, iCurrentVictim m = Some c -> c ∈ online o st) -> hate_ok (put_mgr o m st).
Proof.
  intros [H1 H2 H3 H4 H5 H6 H7 H8 H9] Hon Hoff Hc.
  assert (Eon : forall o', online o' (put_mgr o m st) ≡ₚ online o' st).
  { intros o'. unfold online at 1. rewrite mgr_put. case_bool_decide; [by subst|done]. }
  assert (Eoff : forall o', offline o' (put_mgr o m st) ≡ₚ offline o' st).
  { intros o'. unfold offline at 1. rewrite mgr_put. case_bool_decide; [by subst|done]. }
  split; try done.
  - intros o' a. rewrite Eon. apply H3.
  - intros o' a. rewrite Eoff. apply H4.
  - intros o'. rewrite Eon, Eoff. apply H5.
  - intros o' c. rewrite Eon, mgr_put. case_bool_decide; [subst; apply Hc|apply H7].
Qed.

Lemma elem_of_without a b l : b ∈ without a l <-> b <> a /\ b ∈ l.
Proof.
  unfold without. rewrite list_elem_of_In, filter_In, <- list_elem_of_In. destruct (Z.eqb_spec b a); cbn; naive_solver.
Qed.
Lemma NoDup_without a l : NoDup l -> NoDup (without a l).
Proof.
  unfold without. induction 1 as [|x l Hx Hl IH]; cbn; [constructor|]. destruct (negb (x =? a)); [|done].
  constructor; [|done]. intros Hin. apply Hx. apply list_elem_of_In in Hin. apply filter_In in Hin as [Hin _].
  by apply list_elem_of_In.
Qed.
Lemma without_absent a l : a ∉ l -> without a l = l.
Proof.
  unfold without. induction l as [|x l IH]; intros Ha; [done|]. cbn. destruct (Z.eqb_spec x a); [set_solver|]. cbn.
  f_equal. apply IH. set_solver.
Qed.
Lemma without_app a l1 l2 : without a (l1 ++ l2) = without a l1 ++ without a l2.
Proof. apply List.filter_app. Qed.
Lemma without_cons_eq a l : without a (a :: l) = without a l.
Proof. unfold without. cbn. by rewrite Z.eqb_refl. Qed.

Lemma snoc_NoDup (a : Z) l : NoDup l -> a ∉ l -> NoDup (l ++ [a]).
Proof. intros Hl Ha. apply NoDup_app. split; [done|]. split; [set_solver|]. apply NoDup_singleton. Qed.

(** A reference that moves between the lists of its manager. *)
Definition moved (a : Z) (there : bool) (l l' : list Z) : Prop :=
  NoDup l' /\ forall c, c ∈ l' <-> (c <> a /\ c ∈ l) \/ (c = a /\ there = true).

Lemma moved_out a l : NoDup l -> moved a false l (without a l).
Proof. intros Hl. split; [by apply NoDup_without|]. intros c. rewrite elem_of_without. naive_solver. Qed.
Lemma moved_in a l : NoDup l -> a ∉ l -> moved a true l (l ++ [a]).
Proof.
  intros Hl Ha. split; [by apply snoc_NoDup|]. intros c. rewrite elem_of_app, list_elem_of_singleton.
  destruct (decide (c = a)); naive_solver.
Qed.

Lemma hate_ok_move o a r r' m st :
  hate_ok st -> references st !! a = Some r -> iRefFrom r = Some o ->
  iRefTo r' = iRefTo r -> iRefFrom r' = iRefFrom r -> iUnitGuid r' = iUnitGuid r ->
  moved a (iOnline r') (online o st) (iThreatList (iThreatContainer m)) ->
  moved a (negb (iOnline r')) (offline o st) (iThreatList (iThreatOfflineContainer m)) ->
  (forall c, iCurrentVictim m = Some c -> c ∈ iThreatList (iThreatContainer m)) ->
  hate_ok (put_mgr o m (put_ref a r' st)).
Proof.
  intros [H1 H2 H3 H4 H5 H6 H7 H8 H9] Hr Ho E1 E2 E3 [Nn Mn] [Nf Mf] Hc. set (st' := put_mgr o m (put_ref a r' st)).
  assert (Eon : forall o', online o' st' = if bool_decide (o' = o) then iThreatList (iThreatContainer m) else online o' st).
  { intros o'. unfold online at 1, st'. rewrite mgr_put. by case_bool_decide. }
  assert (Eoff : forall o', offline o' st' =
    if bool_decide (o' = o) then iThreatList (iThreatOfflineContainer m) else offline o' st).
  { intros o'. unfold offline at 1, st'. rewrite mgr_put. by case_bool_decide. }
  assert (Hne : forall b, b <> a -> references st' !! b = references st !! b) by (intros b Hb; by apply lookup_insert_ne).
  assert (Hnew : references st' !! a = Some r') by apply lookup_insert_eq.
  assert (Hid : forall b s, references st' !! b = Some s -> exists t, references st !! b = Some t /\
    iRefTo s = iRefTo t /\ iRefFrom s = iRefFrom t /\ iUnitGuid s = iUnitGuid t).
  { intros b s Hs. destruct (decide (b = a)) as [->|Hb]; [|exists s; by rewrite <- Hne].
    assert (s = r') as -> by congruence. by exists r. }
  assert (Hother : forall o' b, o' <> o -> b = a -> ~ (b ∈ online o' st \/ b ∈ offline o' st)).
  { intros o' b Hoo -> [Hb|Hb]; [apply H3 in Hb as (s & Hs & Hf & _)|apply H4 in Hb as (s & Hs & Hf & _)]; congruence. }
  split.
  - intros b [s Hs]. apply Hid in Hs as (t & Ht & _). apply H1. by eexists.
  - intros b s Hs. apply Hid in Hs as (t & Ht & -> & -> & ->). by apply (H2 b).
  - intros o' b. rewrite Eon. destruct (decide (b = a)) as [->|Hb]; [rewrite Hnew|rewrite (Hne b Hb)]; case_bool_decide as Hd.
    + subst. rewrite Mn. split; [intros [[]|[_ Ht]]; [done|]; exists r'; split_and!; congruence|].
      intros (s & [= <-] & _ & Ht). by right.
    + split; [intros Ha; exfalso; apply (Hother o' a); auto|]. intros (s & [= <-] & Hf & _). congruence.
    + subst. rewrite Mn, (H3 o b). naive_solver.
    + apply H3.
  - intros o' b. rewrite Eoff. destruct (decide (b = a)) as [->|Hb]; [rewrite Hnew|rewrite (Hne b Hb)]; case_bool_decide as Hd.
    + subst. rewrite Mf. split; [intros [[]|[_ Ht%negb_true_iff]]; [done|]; exists r'; split_and!; congruence|].
      intros (s & [= <-] & _ & Ht). right. by rewrite Ht.
    + split; [intros Ha; exfalso; apply (Hother o' a); auto|]. intros (s & [= <-] & Hf & _). congruence.
    + subst. rewrite Mf, (H4 o b). naive_solver.
    + apply H4.
  - intros o'. rewrite Eon, Eoff. case_bool_decide; [done|apply H5].
  - intros b c s1 s2 Hb Hcc Hf Hu. destruct (Hid b s1 Hb) as (t1 & Ht1 & _ & ? & ?).
    destruct (Hid c s2 Hcc) as (t2 & Ht2 & _ & ? & ?). apply (H6 b c t1 t2); congruence.
  - intros o' c. rewrite Eon. unfold st'. rewrite mgr_put. case_bool_decide; [apply Hc|apply H7].
  - intros u b. change (haters u st') with (haters u st). rewrite (H8 u b). destruct (decide (b = a)) as [->|Hb].
    + rewrite Hnew. split; intros (s & Hs & Hu); [exists r'|exists r]; split; congruence.
    + by rewrite (Hne b Hb).
  - exact H9.
Qed.

(** A new reference, online, of [o] to [v]. *)
Definition with_new (o v : Z) (r : HostileReference) (st : ThreatState) : ThreatState :=
  let a := next_reference st in
  mkThreatState (<[a := r]> (references st))
    (<[o := (mgr o st) <| iThreatContainer ::= addReference a |>]> (managers st))
    (<[v := a :: haters v st]> (hated_by st)) (Z.succ a) (sent st).

Lemma hate_ok_new o v r st :
  hate_ok st -> (forall a s, references st !! a = Some s -> iRefFrom s = Some o -> iUnitGuid s <> v) ->
  iRefTo r = Some v -> iRefFrom r = Some o -> iUnitGuid r = v -> iOnline r = true ->
  hate_ok (with_new o v r st).
Proof.
  intros [H1 H2 H3 H4 H5 H6 H7 H8 H9] Hnone E1 E2 E3 E4. set (a := next_reference st). set (st' := with_new o v r st).
  assert (Hfree : references st !! a = None).
  { apply eq_None_not_Some. intros Hs%H1. unfold a in Hs. lia. }
  assert (Eon : forall o', online o' st' = if bool_decide (o' = o) then online o st ++ [a] else online o' st).
  { intros o'. unfold online, mgr, st', with_new. cbn. case_bool_decide; [subst; by rewrite lookup_insert_eq|by rewrite lookup_insert_ne]. }
  assert (Eoff : forall o', offline o' st' = offline o' st).
  { intros o'. unfold offline, mgr, st', with_new. cbn. destruct (decide (o' = o)) as [->|];
      [by rewrite lookup_insert_eq|by rewrite lookup_insert_ne]. }
  assert (Ecur : forall o', iCurrentVictim (mgr o' st') = iCurrentVictim (mgr o' st)).
  { intros o'. unfold mgr, st', with_new. cbn. destruct (decide (o' = o)) as [->|];
      [by rewrite lookup_insert_eq|by rewrite lookup_insert_ne]. }
  assert (Eh : forall u, haters u st' = if bool_decide (u = v) then a :: haters v st else haters u st).
  { intros u. unfold haters at 1, st', with_new. cbn. case_bool_decide; [subst; by rewrite lookup_insert_eq|by rewrite lookup_insert_ne]. }
  assert (Hne : forall b, b <> a -> references st' !! b = references st !! b) by (intros b Hb; by apply lookup_insert_ne).
  assert (Hnew : references st' !! a = Some r) by apply lookup_insert_eq.
  assert (Hold : forall b s, references st !! b = Some s -> b <> a) by (intros b s Hs ->; congruence).
  assert (Hmem : forall (P : HostileReference -> Prop) b, P r -> (exists s, references st' !! b = Some s /\ P s) <->
    b = a \/ exists s, references st !! b = Some s /\ P s).
  { intros P b HP. split.
    - intros (s & Hs & Hp). destruct (decide (b = a)) as [->|Hb]; [by left|]. right. exists s. by rewrite <- Hne.
    - intros [->|(s & Hs & Hp)]; [by exists r|]. exists s. rewrite Hne; [done|]. by eapply Hold. }
  assert (Hmem' : forall (P : HostileReference -> Prop) b, ~ P r -> (exists s, references st' !! b = Some s /\ P s) <->
    exists s, references st !! b = Some s /\ P s).
  { intros P b HP. split.
    - intros (s & Hs & Hp). destruct (decide (b = a)) as [->|Hb]; [congruence|]. exists s. by rewrite <- Hne.
    - intros (s & Hs & Hp). exists s. rewrite Hne; [done|]. by eapply Hold. }
  split.
  - intros b [s Hs]. change (next_reference st') with (Z.succ a). destruct (decide (b = a)) as [->|Hb]; [lia|].
    rewrite Hne in Hs by done. assert (b < a) by (apply H1; by eexists). lia.
  - intros b s Hs. destruct (decide (b = a)) as [->|Hb]; [|rewrite Hne in Hs by done; by apply (H2 b)].
    assert (s = r) as -> by congruence. rewrite E1, E2, E3. by split.
  - intros o' b. rewrite Eon. case_bool_decide as Hd.
    + subst o'. rewrite (Hmem (fun s => iRefFrom s = Some o /\ iOnline s = true)) by done.
      rewrite elem_of_app, list_elem_of_singleton, (H3 o b). naive_solver.
    + rewrite (Hmem' (fun s => iRefFrom s = Some o' /\ iOnline s = true)) by naive_solver. apply H3.
  - intros o' b. rewrite Eoff, (Hmem' (fun s => iRefFrom s = Some o' /\ iOnline s = false)) by (intros [_ ?]; congruence).
    apply H4.
  - intros o'. rewrite Eon, Eoff. destruct (H5 o') as [Hn1 Hn2]. split; [|done]. case_bool_decide; [|done]. subst.
    apply snoc_NoDup; [done|]. rewrite H3. intros (s & Hs & _). congruence.
  - intros b c s1 s2 Hb Hc Hf Hu. destruct (decide (b = a)) as [->|Hba], (decide (c = a)) as [->|Hca]; [done|..].
    + rewrite Hne in Hc by done. assert (s1 = r) as -> by congruence. exfalso. apply (Hnone c s2 Hc); congruence.
    + rewrite Hne in Hb by done. assert (s2 = r) as -> by congruence. exfalso. apply (Hnone b s1 Hb); congruence.
    + rewrite Hne in Hb, Hc by done. by apply (H6 b c s1 s2).
  - intros o' c. rewrite Ecur, Eon. intros Hc%H7. case_bool_decide; [subst; set_solver|done].
  - intros u b. rewrite Eh. case_bool_decide as Hd.
    + subst u. rewrite (Hmem (fun s => iRefTo s = Some v)) by done. rewrite elem_of_cons, (H8 v b). naive_solver.
    + rewrite (Hmem' (fun s => iRefTo s = Some u)) by congruence. apply H8.
  - intros u. rewrite Eh. case_bool_decide; [|done]. subst. constructor; [|done]. rewrite H8. intros (s & Hs & _). congruence.
Qed.

(** A reference that is deleted, with its manager's lists and victim. *)
Definition with_deleted (o a : Z) (m : ThreatManager) (st : ThreatState) : ThreatState :=
  mkThreatState (delete a (references st)) (<[o := m]> (managers st)) (without a <$> hated_by st)
    (next_reference st) (sent st).

Lemma haters_deleted u o a m st : haters u (with_deleted o a m st) = without a (haters u st).
Proof. unfold haters, with_deleted. cbn. rewrite lookup_fmap. by destruct (hated_by st !! u). Qed.

Lemma hate_ok_delete o a r m st :
  hate_ok st -> references st !! a = Some r -> iRefFrom r = Some o ->
  iThreatList (iThreatContainer m) = without a (online o st) ->
  iThreatList (iThreatOfflineContainer m) = without a (offline o st) ->
  (forall c, iCurrentVictim m = Some c -> c ∈ without a (online o st)) ->
  hate_ok (with_deleted o a m st).
Proof.
  intros [H1 H2 H3 H4 H5 H6 H7 H8 H9] Hr Ho Lon Loff Hc. set (st' := with_deleted o a m st).
  assert (Em : forall o', mgr o' st' = if bool_decide (o' = o) then m else mgr o' st).
  { intros o'. unfold mgr, st', with_deleted. cbn. case_bool_decide; [subst; by rewrite lookup_insert_eq|by rewrite lookup_insert_ne]. }
  assert (Hout : forall o', o' <> o -> a ∉ online o' st /\ a ∉ offline o' st).
  { intros o' Hoo. rewrite H3, H4. split; intros (s & Hs & Hf & _); congruence. }
  assert (Eon : forall o', online o' st' = without a (online o' st)).
  { intros o'. unfold online at 1. rewrite Em. case_bool_decide; [by subst|].
    symmetry. apply without_absent. by apply Hout. }
  assert (Eoff : forall o', offline o' st' = without a (offline o' st)).
  { intros o'. unfold offline at 1. rewrite Em. case_bool_decide; [by subst|].
    symmetry. apply without_absent. by apply Hout. }
  assert (Hlook : forall b s, references st' !! b = Some s <-> b <> a /\ references st !! b = Some s).
  { intros b s. unfold st', with_deleted. cbn. rewrite lookup_delete_Some. naive_solver. }
  assert (Eh : forall u, haters u st' = without a (haters u st)) by (intros u; apply haters_deleted).
  split.
  - intros b [s [_ Hs]%Hlook]. apply H1. by eexists.
  - intros b s [_ Hs]%Hlook. by apply (H2 b).
  - intros o' b. rewrite Eon, elem_of_without, (H3 o' b). setoid_rewrite Hlook. naive_solver.
  - intros o' b. rewrite Eoff, elem_of_without, (H4 o' b). setoid_rewrite Hlook. naive_solver.
  - intros o'. rewrite Eon, Eoff. destruct (H5 o'). split; by apply NoDup_without.
  - intros b c s1 s2 [_ Hb]%Hlook [_ Hcc]%Hlook. by apply H6.
  - intros o' c. rewrite Eon, Em. case_bool_decide as Hd; [subst; apply Hc|]. intros Hcc%H7. apply elem_of_without.
    split; [|done]. intros ->. by destruct (Hout o' Hd).
  - intros u b. rewrite Eh, elem_of_without, (H8 u b). setoid_rewrite Hlook. naive_solver.
  - intros u. rewrite Eh. by apply NoDup_without.
Qed.

Lemma fits_sub `{ThreatWorld} st st' :
  fits st -> (forall a r, references st' !! a = Some r -> exists s, references st !! a = Some s /\
    iUnitGuid r = iUnitGuid s /\ iRefFrom r = iRefFrom s) -> fits st'.
Proof. intros Hf Hs a r Hr. destruct (Hs a r Hr) as (s & Hs' & -> & ->). by apply (Hf a). Qed.

(** ** Packets *)

Section Ops.
Context `{Host, ThreatWorld, !ThreatWorldOk}.
#[local] Set Default Proof Using "All".
Implicit Types (st : ThreatState).

Definition good st : Prop := hate_ok st /\ fits st.

(** A manager has no more references than there are units. *)
Lemma list_bound st l :
  good st -> NoDup l ->
  (exists o, forall a, a ∈ l -> exists r, references st !! a = Some r /\ iRefFrom r = Some o) ->
  (length l <= length units)%nat.
Proof.
  intros [Hok Hfit] Hnd [o Hl].
  set (guid a := match references st !! a with Some r => iUnitGuid r | None => 0 end).
  rewrite <- (length_map guid l). apply submseteq_length, NoDup_submseteq.
  - change (map guid l) with (guid <$> l). apply NoDup_fmap_2_strong; [|done]. intros a b Ha Hb Hg.
    destruct (Hl a Ha) as (r & Hr & Hf), (Hl b Hb) as (s & Hs & Hf'). unfold guid in Hg. rewrite Hr, Hs in Hg.
    apply (ht_unique _ Hok a b r s); congruence.
  - intros g (a & -> & Ha)%list_elem_of_fmap. destruct (Hl a Ha) as (r & Hr & _). unfold guid. rewrite Hr.
    by apply (Hfit a).
Qed.

Lemma online_bound st o : good st -> (length (online o st) <= length units)%nat.
Proof.
  intros Hg. apply (list_bound st); [done|apply Hg|]. exists o. intros a Ha.
  apply (ht_online _ (proj1 Hg)) in Ha as (r & Hr & Hf & _). eauto.
Qed.

Lemma wp_say (p : Z * WorldPacket) (Q : () -> ThreatState -> Prop) (X : ByteBufferException -> ThreatState -> Prop) st :
  Q () (say p st) -> wp (modify (fun s => s <| sent ::= fun l => l ++ [p] |>)) Q X st.
Proof. by intros HQ. Qed.

Lemma wp_send o op body bs (Q : () -> ThreatState -> Prop) X st :
  writes body bs -> zlen bs <= 10000000 -> (forall p, Q () (say p st)) -> wp (send_set o op body) Q X st.
Proof.
  intros Hw Hl HQ. unfold send_set. apply wp_bind. unfold wp at 1, on_local, lift.
  rewrite (Hw (buffer (WorldPacket_new op))) by (done || (unfold size; cbn; lia)). apply wp_say, HQ.
Qed.

Lemma writes_guid g : in_width 64 g -> writes (appendPackGUID g) (guid_fmt g).
Proof. intros Hg b. by apply (lawful_out (c := guid_codec) (fmt := guid_fmt)). Qed.

Lemma guid_length g : zlen (guid_fmt g) <= 9.
Proof.
  unfold guid_fmt, guid_bytes. rewrite zlen_cons. unfold zlen.
  pose proof (length_filter (fun x => x <> 0) (le_bytes 8 g)) as Hf. rewrite length_le_bytes in Hf. lia.
Qed.

Lemma scalar32_length v : zlen (scalar_fmt TU32 v) = 4.
Proof. unfold scalar_fmt. by rewrite zlen_le_bytes. Qed.

Lemma wp_get_refs l (Q : list HostileReference -> ThreatState -> Prop) X st :
  (forall a, a ∈ l -> is_Some (references st !! a)) ->
  (forall rs, length rs = length l -> Forall2 (fun a r => references st !! a = Some r) l rs -> Q rs st) ->
  wp (get_refs l) Q X st.
Proof.
  revert Q. induction l as [|a l IH]; intros Q Hl HQ; cbn [get_refs].
  - apply wp_ret. by apply (HQ []).
  - destruct (Hl a) as [r Hr]; [set_solver|]. apply wp_bind, (wp_get_ref a r); [done|]. apply wp_bind, IH.
    + intros b Hb. apply Hl. set_solver.
    + intros rs Hlen Hrs. apply wp_ret. apply HQ; [cbn; lia|by constructor].
Qed.

(** A list of units with a number each. *)
Lemma writes_entries (rs : list HostileReference) (f : HostileReference -> Z) :
  Forall (fun r => in_width 64 (iUnitGuid r)) rs ->
  writes (for_each rs (fun r => appendPackGUID (iUnitGuid r);; out TU32 (f r)))
         (concat (map (fun r => guid_fmt (iUnitGuid r) ++ scalar_fmt TU32 (f r)) rs)).
Proof.
  intros Hrs. apply writes_for_each. intros r Hr. rewrite Forall_forall in Hrs.
  apply writes_bind; [by apply writes_guid, Hrs|apply writes_out].
Qed.

Lemma entries_length (rs : list HostileReference) f :
  zlen (concat (map (fun r => guid_fmt (iUnitGuid r) ++ scalar_fmt TU32 (f r)) rs)) <= 13 * Z.of_nat (length rs).
Proof.
  induction rs as [|r rs IH]; [done|]. cbn [map concat length]. rewrite !zlen_app.
  rewrite scalar32_length. pose proof (guid_length (iUnitGuid r)). lia.
Qed.

Lemma unit_width u : u ∈ units -> in_width 64 u.
Proof. intros Hu. pose proof wo_guids as Hw. rewrite Forall_forall in Hw. by apply Hw. Qed.

Lemma wp_SendRemove o a r (Q : () -> ThreatState -> Prop) X st :
  o ∈ units -> references st !! a = Some r -> iUnitGuid r ∈ units -> (forall p, Q () (say p st)) ->
  wp (SendRemoveFromThreatListOpcode o a) Q X st.
Proof.
  intros Ho Hr Hu HQ. apply wp_bind, (wp_get_ref a r); [done|]. eapply wp_send; [|..|done].
  - apply writes_bind; by apply writes_guid, unit_width.
  - rewrite zlen_app. pose proof (guid_length o). pose proof (guid_length (iUnitGuid r)). lia.
Qed.

Lemma wp_tlist o (Q : list HostileReference -> ThreatState -> Prop) X st :
  good st ->
  (forall rs, Z.of_nat (length rs) <= 100000 -> Forall (fun r => in_width 64 (iUnitGuid r)) rs -> Q rs st) ->
  wp (get_refs (online o st)) Q X st.
Proof.
  intros Hg HQ. pose proof (online_bound st o Hg) as Hb. pose proof wo_count as Hc. unfold zlen in Hc.
  apply wp_get_refs.
  - intros a Ha. apply (ht_online _ (proj1 Hg)) in Ha as (r & Hr & _). by eexists.
  - intros rs Hlen Hrs. apply HQ; [lia|]. clear Hlen Hb HQ. induction Hrs as [|a r l rs Hr Hrs IH]; [constructor|].
    constructor; [|done]. by apply unit_width, (proj2 Hg a).
Qed.

Lemma wp_SendChange o a r (Q : () -> ThreatState -> Prop) X st :
  good st -> o ∈ units -> references st !! a = Some r -> Q () st -> (forall p, Q () (say p st)) ->
  wp (SendChangeCurrentVictimOpcode o a) Q X st.
Proof.
  intros Hg Ho Hr HQ0 HQ. unfold SendChangeCurrentVictimOpcode. apply wp_bind, wp_gets, wp_when; intros _; [|done].
  apply wp_bind, (wp_get_ref a r); [done|]. apply wp_bind, wp_tlist; [done|]. intros rs Hlen Hrs.
  eapply wp_send; [|..|done].
  - apply writes_bind; [by apply writes_guid, unit_width|]. apply writes_bind; [by apply writes_guid, unit_width, (proj2 Hg a)|].
    apply writes_bind; [apply writes_out|by apply (writes_entries rs (fun r => uint32_of_f32 (iThreat r)))].
  - rewrite !zlen_app. pose proof (guid_length o). pose proof (guid_length (iUnitGuid r)).
    pose proof (entries_length rs (fun r => uint32_of_f32 (iThreat r))). rewrite scalar32_length. lia.
Qed.

(** ** Online and offline *)

(** What changes of one reference leave alone. *)
Record touches (a : Z) st st' : Prop := {
  tc_at : is_Some (references st !! a);
  tc_other b : b <> a -> references st' !! b = references st !! b;
  tc_this r : references st !! a = Some r -> exists r', references st' !! a = Some r' /\
    iUnitGuid r' = iUnitGuid r /\ iRefFrom r' = iRefFrom r /\ iThreat r' = iThreat r /\
    iTempThreatModifier r' = iTempThreatModifier r;
  tc_hated : hated_by st' = hated_by st;
  tc_next : next_reference st' = next_reference st
}.

Lemma touches_refl a st : is_Some (references st !! a) -> touches a st st.
Proof. intros Ha. split; eauto 10. Qed.
Lemma touches_trans a st1 st2 st3 : touches a st1 st2 -> touches a st2 st3 -> touches a st1 st3.
Proof.
  intros [A0 A1 A2 A3 A4] [B0 B1 B2 B3 B4]. split; [done|..|congruence|congruence].
  - intros b Hb. by rewrite B1, A1.
  - intros r Hr. destruct (A2 r Hr) as (r1 & Hr1 & ? & ? & ? & ?). destruct (B2 r1 Hr1) as (r2 & Hr2 & ? & ? & ? & ?).
    exists r2. split_and!; congruence.
Qed.

Lemma put_ref_id a r st : references st !! a = Some r -> put_ref a r st = st.
Proof. intros Hr. unfold put_ref. destruct st as [refs ms hs n l]. cbn in *. by rewrite insert_id. Qed.

Lemma wp_accessible a x r (Q : () -> ThreatState -> Prop) X st :
  references st !! a = Some r -> Q () (put_ref a (r <| iAccessible := x |>) st) -> wp (setAccessibleState a x) Q X st.
Proof.
  intros Hr HQ. apply wp_bind, (wp_get_ref a r); [done|]. apply wp_when; intros Hx.
  - apply wp_bind, (wp_upd_ref a _ r); [done|]. apply wp_bind, (wp_get_ref a (r <| iAccessible := x |>)); [apply lookup_insert_eq|].
    destruct (getSource _); [|done]. by apply wp_bind, wp_gets.
  - assert (Heq : r <| iAccessible := x |> = r).
    { destruct r as [? ? ? ? ? ? acc]. cbn in *. f_equal. by destruct acc, x. }
    rewrite Heq, put_ref_id in HQ by done. exact HQ.
Qed.

Definition appended_to (a b : list Z) : Prop := exists l, b = a ++ l.

Lemma appended_refl l : appended_to l l.
Proof. exists []. by rewrite app_nil_r. Qed.
Lemma appended_trans l1 l2 l3 : appended_to l1 l2 -> appended_to l2 l3 -> appended_to l1 l3.
Proof. intros [a ->] [b ->]. exists (a ++ b). by rewrite app_assoc. Qed.

Lemma fits_touches a st st' : fits st -> touches a st st' -> fits st'.
Proof.
  intros Hf [[r Hr] T1 T2 _ _]. apply (fits_sub st); [done|]. intros b s Hs. destruct (decide (b = a)) as [->|Hb].
  - destruct (T2 r Hr) as (r' & Hr' & ? & ? & _). exists r. split_and!; congruence.
  - exists s. rewrite <- T1 by done. done.
Qed.

Lemma wp_goes_offline a r (Q : () -> ThreatState -> Prop) X st :
  good st -> references st !! a = Some r -> iOnline r = true ->
  (forall st', good st' -> touches a st st' -> (forall o, online o st' = without a (online o st)) ->
     references st' !! a = Some (r <| iOnline := false |> <| iAccessible := false |>) -> Q () st') ->
  wp (setOnlineOfflineState a false) Q X st.
Proof.
  intros [Hok Hfit] Hr Hon HQ. destruct (Hfit a r Hr) as (Hu & o & Ho & Hou & _).
  apply wp_bind, (wp_get_ref a r); [done|]. rewrite Hon. cbn [Bool.eqb negb when].
  apply wp_bind, (wp_upd_ref a _ r); [done|].
  set (r1 := r <| iOnline := false |>). apply wp_bind, (wp_accessible a false r1); [apply lookup_insert_eq|].
  set (r2 := r1 <| iAccessible := false |>).
  assert (Eput : put_ref a r2 (put_ref a r1 st) = put_ref a r2 st).
  { unfold put_ref. cbn. by rewrite insert_insert_eq. }
  rewrite Eput. set (st1 := put_ref a r2 st). assert (Hr2 : references st1 !! a = Some r2) by apply lookup_insert_eq.
  apply wp_bind, (wp_get_ref a r2); [done|]. assert (Hs2 : getSource r2 = Some o) by exact Ho. rewrite Hs2. unfold processThreatEvent.
  apply wp_bind, wp_gets. cbn [Z.eqb]. change (UEV_THREAT_REF_ONLINE_STATUS =? UEV_THREAT_REF_THREAT_CHANGE) with false.
  change (UEV_THREAT_REF_ONLINE_STATUS =? UEV_THREAT_REF_ONLINE_STATUS) with true. cbn iota.
  apply wp_bind, (wp_get_ref a r2); [done|]. change (iOnline r2) with false. cbn [negb].
  change (mgr o st1) with (mgr o st). set (cur := bool_decide (iCurrentVictim (mgr o st) = Some a)).
  (* every way ends in the same lists *)
  assert (Hend : forall st2, references st2 = references st1 -> hated_by st2 = hated_by st ->
    next_reference st2 = next_reference st -> (forall m, <[o := m]> (managers st2) = <[o := m]> (managers st)) ->
    iThreatList (iThreatContainer (mgr o st2)) = online o st ->
    iThreatList (iThreatOfflineContainer (mgr o st2)) = offline o st ->
    (forall c, iCurrentVictim (mgr o st2) = Some c -> c <> a /\ iCurrentVictim (mgr o st) = Some c) ->
    wp (upd_online o (remove a);; upd_offline o (addReference a)) Q X st2).
  { intros st2 Er Eh En Em Lon Loff Hc. apply wp_bind, wp_upd_mgr, wp_upd_mgr. rewrite mgr_put_eq.
    set (m1 := _ <| iThreatContainer ::= remove a |>). set (m2 := m1 <| iThreatOfflineContainer ::= addReference a |>).
    assert (Hg : good (put_mgr o m2 (put_ref a r2 st))).
    { destruct (ht_nodup _ Hok o) as [N1 N2]. split.
      - apply (hate_ok_move o a r); try done.
        + cbn. unfold online in *. rewrite Lon. by apply moved_out.
        + cbn. rewrite Loff. apply moved_in; [done|]. rewrite (ht_offline _ Hok).
          intros (s & Hs & _ & Hf). congruence.
        + cbn. intros c Hcc. destruct (Hc c Hcc) as [Hne Hcc']. rewrite Lon. apply elem_of_without.
          split; [done|]. by apply (ht_victim _ Hok).
      - apply (fits_sub st); [done|]. intros b s. cbn. intros [[<- <-]|[_ Hs]]%lookup_insert_Some; eauto 10. }
    apply HQ.
    - split.
      + eapply hate_ok_same; [..|apply Hg]; cbn; [done| |done..]. rewrite insert_insert_eq. apply Em.
      + eapply fits_sub; [apply Hg|]. cbn. rewrite Er. eauto 10.
    - split; [by eexists|..]; cbn; rewrite ?Er; [| |done..].
      + intros b Hb. cbn. by rewrite lookup_insert_ne.
      + intros s Hs. assert (s = r) as -> by congruence. exists r2. by rewrite Hr2.
    - intros o'. unfold online at 1. rewrite !mgr_put. case_bool_decide as Hd.
      + subst o'. cbn. by rewrite Lon.
      + assert (Eo : managers st2 !! o' = managers st !! o').
        { specialize (Em m1). apply (f_equal (fun m => m !! o')) in Em. by rewrite !lookup_insert_ne in Em. }
        unfold mgr. rewrite Eo. fold (mgr o' st). change (online o' st = without a (online o' st)).
        symmetry. apply without_absent. rewrite (ht_online _ Hok). intros (s & Hs & Hf & _). congruence.
    - cbn. by rewrite Er. }
  apply wp_bind, wp_when; intros Hcur.
  - apply wp_bind. apply wp_bind, wp_gets, wp_bind, wp_ret, wp_upd_mgr, wp_upd_mgr. apply wp_bind.
    eapply (wp_SendRemove o a r2); [done..|]. intros p.
    apply Hend; rewrite ?mgr_say, ?mgr_put_eq; try done. intros m. cbn. by rewrite !insert_insert_eq.
  - apply wp_bind. eapply (wp_SendRemove o a r2); [done..|]. intros p. apply Hend; try done.
    intros c Hcc. split; [|done]. intros ->. unfold cur in Hcur. by rewrite bool_decide_eq_false in Hcur.
Qed.

Lemma wp_goes_online a r (Q : () -> ThreatState -> Prop) X st :
  good st -> references st !! a = Some r -> iOnline r = false ->
  (forall st', good st' -> touches a st st' -> (forall o, appended_to (online o st) (online o st')) ->
     references st' !! a = Some (r <| iOnline := true |>) -> Q () st') ->
  wp (setOnlineOfflineState a true) Q X st.
Proof.
  intros [Hok Hfit] Hr Hoff HQ. destruct (Hfit a r Hr) as (Hu & o & Ho & Hou & _).
  apply wp_bind, (wp_get_ref a r); [done|]. rewrite Hoff. cbn [Bool.eqb negb when].
  apply wp_bind, (wp_upd_ref a _ r); [done|]. apply wp_bind, wp_ret.
  set (r1 := r <| iOnline := true |>). set (st1 := put_ref a r1 st).
  assert (Hr1 : references st1 !! a = Some r1) by apply lookup_insert_eq.
  apply wp_bind, (wp_get_ref a r1); [done|]. assert (Hs1 : getSource r1 = Some o) by exact Ho. rewrite Hs1.
  apply wp_bind, wp_gets. change (UEV_THREAT_REF_ONLINE_STATUS =? UEV_THREAT_REF_THREAT_CHANGE) with false.
  change (UEV_THREAT_REF_ONLINE_STATUS =? UEV_THREAT_REF_ONLINE_STATUS) with true. cbn iota.
  apply wp_bind, (wp_get_ref a r1); [done|]. change (iOnline r1) with true. cbn [negb].
  change (mgr o st1) with (mgr o st).
  assert (Hend : forall m0, iThreatList (iThreatContainer m0) = online o st ->
    iThreatList (iThreatOfflineContainer m0) = offline o st -> iCurrentVictim m0 = iCurrentVictim (mgr o st) ->
    forall st2, st2 = st1 /\ m0 = mgr o st \/ st2 = put_mgr o m0 st1 ->
    wp (upd_online o (addReference a);; upd_offline o (remove a)) Q X st2).
  { intros m0 Lon Loff Hcur st2 Hst2. apply wp_bind, wp_upd_mgr, wp_upd_mgr. rewrite mgr_put_eq.
    assert (Em : mgr o st2 = m0) by (destruct Hst2 as [[-> ->]| ->]; [done|apply mgr_put_eq]). rewrite Em.
    set (m1 := m0 <| iThreatContainer ::= addReference a |>). set (m2 := m1 <| iThreatOfflineContainer ::= remove a |>).
    assert (Est : put_mgr o m2 (put_mgr o m1 st2) = put_mgr o m2 (put_ref a r1 st)).
    { destruct Hst2 as [[-> _]| ->]; unfold put_mgr, st1; cbn; by rewrite !insert_insert_eq. }
    rewrite Est. clear st2 Hst2 Em Est. destruct (ht_nodup _ Hok o) as [N1 N2].
    assert (Hfresh : a ∉ online o st) by (rewrite (ht_online _ Hok); intros (s & Hs & _ & Hf); congruence).
    assert (Eon : forall o', online o' (put_mgr o m2 (put_ref a r1 st)) =
      if bool_decide (o' = o) then online o st ++ [a] else online o' st).
    { intros o'. unfold online at 1. rewrite mgr_put. case_bool_decide; [|done]. cbn. by rewrite Lon. }
    apply HQ.
    - split.
      + apply (hate_ok_move o a r); try done.
        * cbn. rewrite Lon. by apply moved_in.
        * cbn. rewrite Loff. by apply moved_out.
        * cbn. intros c Hc. rewrite Hcur in Hc. apply (ht_victim _ Hok) in Hc. rewrite Lon. set_solver.
      + apply (fits_sub st); [done|]. intros b s. cbn. intros [[<- <-]|[_ Hs]]%lookup_insert_Some; eauto 10.
    - split; [by eexists|..]; [| |done..].
      + intros b Hb. cbn. by rewrite lookup_insert_ne.
      + intros s Hs. assert (s = r) as -> by congruence. exists r1. cbn. by rewrite lookup_insert_eq.
    - intros o'. rewrite Eon. case_bool_decide; [subst; by exists [a]|apply appended_refl].
    - exact Hr1. }
  apply wp_bind. destruct (iCurrentVictim (mgr o st)) as [c|] eqn:Hcur.
  - assert (Hcin : is_Some (references st1 !! c)).
    { apply (ht_victim _ Hok), (ht_online _ Hok) in Hcur as (s & Hs & _). cbn.
      destruct (decide (c = a)) as [->|]; [by rewrite lookup_insert_eq|by rewrite lookup_insert_ne]. }
    destruct Hcin as [v Hv]. apply wp_bind, (wp_get_ref c v); [done|]. apply wp_when; intros _.
    + apply wp_upd_mgr. eapply Hend; [..|right; reflexivity]; cbn; [done..|]. exact Hcur.
    + apply (Hend (mgr o st)); try done. by left.
  - apply wp_ret. apply (Hend (mgr o st)); try done. by left.
Qed.

(** Setting the state, whatever it was. *)
Lemma set_state_keeps a b st :
  good st -> is_Some (references st !! a) ->
  returns (setOnlineOfflineState a b)
    (fun _ st' => good st' /\ touches a st st' /\ (exists r, references st' !! a = Some r /\ iOnline r = b) /\
       (b = true -> forall o, appended_to (online o st) (online o st')) /\
       ((exists r, references st !! a = Some r /\ iOnline r = b) -> st' = st)) st.
Proof.
  intros Hg [r Hr]. destruct (decide (iOnline r = b)) as [Hb|Hb].
  - assert (Hrun : setOnlineOfflineState a b st = Ok () st).
    { unfold setOnlineOfflineState, get_ref, mbind, M_bind. rewrite Hr, Hb. by destruct b. }
    unfold returns, wp. rewrite Hrun. split_and!; [done|by apply touches_refl; eexists|by exists r|intros _ o; apply appended_refl|done].
  - destruct b.
    + apply (wp_goes_online a r); [done..|by destruct (iOnline r)|]. intros st' Hg' Ht Ha Hr'.
      split_and!; [done|done|by eexists|done|]. intros (s & Hs & Hon). congruence.
    + apply (wp_goes_offline a r); [done..|by destruct (iOnline r)|]. intros st' Hg' Ht _ Hr'.
      split_and!; [done|done|by eexists|done|]. intros (s & Hs & Hon). congruence.
Qed.

Lemma good_accessible a x r st :
  good st -> references st !! a = Some r ->
  good (put_ref a (r <| iAccessible := x |>) st) /\ touches a st (put_ref a (r <| iAccessible := x |>) st).
Proof.
  intros [Hok Hfit] Hr.
  assert (Ht : touches a st (put_ref a (r <| iAccessible := x |>) st)).
  { split; [by eexists|..]; [| |done..].
    - intros b Hb. cbn. by rewrite lookup_insert_ne.
    - intros s Hs. assert (s = r) as -> by congruence. eexists. cbn. rewrite lookup_insert_eq. by split_and!. }
  split; [|done]. split; [by apply (hate_ok_put_ref a r)|by eapply fits_touches].
Qed.

Lemma updateOnlineStatus_keeps a st :
  good st -> is_Some (references st !! a) ->
  returns (updateOnlineStatus a)
    (fun _ st' => good st' /\ touches a st st' /\
       ((exists r, references st !! a = Some r /\ iOnline r = false) ->
        forall o, appended_to (online o st) (online o st'))) st.
Proof.
  intros Hg [r Hr]. destruct (ht_link _ (proj1 Hg) a r Hr) as [Hto _]. destruct (proj2 Hg a r Hr) as (_ & o & Ho & _ & Hty).
  apply wp_bind, (wp_get_ref a r); [done|].
  assert (Hval : isValid r = true) by (unfold isValid; rewrite bool_decide_eq_true, Hto; by eexists).
  rewrite Hval. cbn [negb when]. apply wp_bind, wp_ret, wp_bind, (wp_get_ref a r); [done|].
  unfold getTarget. rewrite Hto. apply wp_bind.
  assert (Hreach : exists b x, reachable_state a (iUnitGuid r) st = Ok (b, x) st).
  { unfold reachable_state. destruct (_ && negb _); [|by eexists _, _].
    erewrite bind_run by (unfold getSourceUnit, get_ref, mbind, M_bind, getSource; rewrite Hr, Ho; reflexivity).
    destruct (_ && _); [|by eexists _, _]. rewrite Hty. cbn [Z.eqb]. change (TYPEID_UNIT =? TYPEID_UNIT) with true. cbn [negb].
    destruct (isInAccessiblePlaceFor _ _); by eexists _, _. }
  destruct Hreach as (b & x & Hrun). unfold wp at 1. rewrite Hrun.
  apply wp_bind, (wp_accessible a x r); [done|]. destruct (good_accessible a x r st Hg Hr) as [Hg1 Ht1].
  set (r1 := r <| iAccessible := x |>) in *. set (st1 := put_ref a r1 st) in *.
  assert (Hr1 : references st1 !! a = Some r1) by apply lookup_insert_eq.
  eapply returns_mono; [apply (set_state_keeps a b st1 Hg1); by eexists|]. cbn beta.
  intros [] st' (Hg' & Ht' & (s & Hs & Hsb) & Happ & Hsame). split; [done|]. split; [by eapply touches_trans|].
  intros (q & Hq & Hoff). assert (q = r) as -> by congruence. destruct b; [by apply Happ|].
  rewrite Hsame by (exists r1; split; [done|]; exact Hoff). intros o'. apply appended_refl.
Qed.

(** ** Adding threat *)

(** References stay and are only added, in front of the lists of the units, and at
    the end of those of the managers. *)
Record keeps_refs st st' : Prop := {
  kr_refs a r : references st !! a = Some r -> exists r', references st' !! a = Some r' /\
    iUnitGuid r' = iUnitGuid r /\ iRefFrom r' = iRefFrom r;
  kr_haters u : exists l, haters u st' = l ++ haters u st
}.
Definition grows st st' : Prop := keeps_refs st st' /\ forall o, appended_to (online o st) (online o st').

Lemma keeps_refs_refl st : keeps_refs st st.
Proof. split; [eauto|]. intros u. by exists []. Qed.
Lemma keeps_refs_trans st1 st2 st3 : keeps_refs st1 st2 -> keeps_refs st2 st3 -> keeps_refs st1 st3.
Proof.
  intros [A1 A2] [B1 B2]. split.
  - intros a r Hr. destruct (A1 a r Hr) as (r1 & Hr1 & ? & ?). destruct (B1 a r1 Hr1) as (r2 & Hr2 & ? & ?).
    exists r2. split_and!; congruence.
  - intros u. destruct (A2 u) as [l1 H1'], (B2 u) as [l2 H2']. exists (l2 ++ l1). by rewrite H2', H1', app_assoc.
Qed.
Lemma grows_refl st : grows st st.
Proof. split; [apply keeps_refs_refl|]. intros o. apply appended_refl. Qed.
Lemma grows_trans st1 st2 st3 : grows st1 st2 -> grows st2 st3 -> grows st1 st3.
Proof.
  intros [A1 A2] [B1 B2]. split; [by eapply keeps_refs_trans|]. intros o. eapply appended_trans; [apply A2|apply B2].
Qed.

Lemma keeps_refs_touches a st st' : touches a st st' -> keeps_refs st st'.
Proof.
  intros [_ T1 T2 T3 _]. split.
  - intros b r Hr. destruct (decide (b = a)) as [->|Hb].
    + destruct (T2 r Hr) as (r' & Hr' & ? & ? & _). eauto.
    + exists r. by rewrite T1.
  - intros u. exists []. unfold haters. by rewrite T3.
Qed.

(** The flag that the list is to be sorted. *)
Lemma good_dirty o b st : good st -> good (put_mgr o ((mgr o st) <| iThreatContainer ::= fun c => c <| iDirty := b |> |>) st) /\
  grows st (put_mgr o ((mgr o st) <| iThreatContainer ::= fun c => c <| iDirty := b |> |>) st).
Proof.
  intros [Hok Hfit]. split.
  - split; [|done]. apply hate_ok_put_mgr; [done..|]. intros c. apply (ht_victim _ Hok).
  - split; [split; [eauto|intros u; by exists []]|]. intros o'. exists []. rewrite app_nil_r.
    unfold online. rewrite mgr_put. case_bool_decide; [by subst|done].
Qed.

Lemma wp_setDirty o b (Q : () -> ThreatState -> Prop) X st :
  good st -> (forall st', good st' -> grows st st' -> references st' = references st -> Q () st') -> wp (setDirty o b) Q X st.
Proof. intros Hg HQ. apply wp_upd_mgr. destruct (good_dirty o b st Hg). by apply HQ. Qed.

Lemma wp_fire_change a dt r (Q : () -> ThreatState -> Prop) X st :
  good st -> references st !! a = Some r ->
  (forall st', good st' -> grows st st' -> references st' = references st -> Q () st') ->
  wp (fireStatusChanged a UEV_THREAT_REF_THREAT_CHANGE dt) Q X st.
Proof.
  intros Hg Hr HQ. apply wp_bind, (wp_get_ref a r); [done|].
  destruct (getSource r) as [o|]; [|by apply wp_ret, HQ; [|apply grows_refl|]].
  apply wp_bind, wp_gets. change (UEV_THREAT_REF_THREAT_CHANGE =? UEV_THREAT_REF_THREAT_CHANGE) with true. cbn iota.
  apply wp_when; intros _; [by apply wp_setDirty|]. by apply HQ; [|apply grows_refl|].
Qed.

Lemma good_put_ref a r r' st :
  good st -> references st !! a = Some r ->
  iRefTo r' = iRefTo r -> iRefFrom r' = iRefFrom r -> iUnitGuid r' = iUnitGuid r -> iOnline r' = iOnline r ->
  good (put_ref a r' st) /\ grows st (put_ref a r' st).
Proof.
  intros [Hok Hfit] Hr E1 E2 E3 E4. split.
  - split; [by apply (hate_ok_put_ref a r)|]. apply (fits_sub st); [done|]. intros b s. cbn.
    intros [[<- <-]|[_ Hs]]%lookup_insert_Some; eauto 10.
  - split; [split|].
    + intros b s Hs. cbn. destruct (decide (b = a)) as [->|]; [|rewrite lookup_insert_ne by done; eauto].
      rewrite lookup_insert_eq. assert (s = r) as -> by congruence. eauto.
    + intros u. by exists [].
    + intros o. apply appended_refl.
Qed.

Lemma find_ref_run g l st :
  (forall a, a ∈ l -> is_Some (references st !! a)) ->
  exists found, find_ref g l st = Ok found st /\
    match found with
    | Some a => a ∈ l /\ exists r, references st !! a = Some r /\ iUnitGuid r = g
    | None => forall a r, a ∈ l -> references st !! a = Some r -> iUnitGuid r <> g
    end.
Proof.
  induction l as [|a l IH]; intros Hl; cbn [find_ref].
  - exists None. split; [done|]. set_solver.
  - destruct (Hl a) as [r Hr]; [set_solver|]. destruct IH as (found & Hrun & Hf); [intros b Hb; apply Hl; set_solver|].
    assert (Hget : get_ref a st = Ok r st) by (unfold get_ref; by rewrite Hr).
    erewrite bind_run by exact Hget. destruct (Z.eqb_spec (iUnitGuid r) g) as [He|He].
    + exists (Some a). split; [done|]. split; [set_solver|eauto].
    + exists found. split; [done|]. destruct found as [b|]; [destruct Hf; split; [set_solver|done]|].
      intros b s [->|Hb]%elem_of_cons Hs; [congruence|by apply (Hf b s)].
Qed.

(** Whom a creature may hate. *)
Definition valid_process (hated hating : Z) (spell : option SpellInfo) : bool :=
  negb (hated =? hating) && negb ((GetTypeId hated =? TYPEID_PLAYER) && isGameMaster hated) &&
  (isAlive hated && isAlive hating) && (IsInMap hated hating && InSamePhase hated hating) &&
  negb (match spell with Some s => negb (Z.land (AttributesEx s) SPELL_ATTR1_NO_THREAT =? 0) | None => false end).

Lemma isValidProcess_run hated hating spell st :
  GetTypeId hating = TYPEID_UNIT -> isValidProcess (Some hated) (Some hating) spell st = Ok (valid_process hated hating spell) st.
Proof.
  intros Hty. unfold isValidProcess, valid_process. destruct (hated =? hating); [done|].
  destruct ((_ =? _) && isGameMaster hated); [done|]. rewrite <- negb_andb. destruct (isAlive _ && _); [|done].
  rewrite <- negb_andb. destruct (IsInMap _ _ && _); [|done].
  destruct (match spell with Some _ => _ | None => _ end); [done|]. by rewrite Hty.
Qed.

(** [o] has a reference to [v]. *)
Definition hates (o v : Z) st : Prop := exists a r, references st !! a = Some r /\ iRefFrom r = Some o /\ iUnitGuid r = v.

Lemma hates_kept o v st st' : keeps_refs st st' -> hates o v st -> hates o v st'.
Proof.
  intros Hk (a & r & Hr & Ho & Hv). destruct (kr_refs _ _ Hk a r Hr) as (r' & Hr' & ? & ?). exists a, r'. split_and!; congruence.
Qed.

(** Who adds to the threat of a pet adds its owner. *)
Definition owners_too (o v : Z) (dt : f32) st : Prop := forall w,
  f32_leb f32_zero dt = true -> GetCharmerOrOwner v = Some w -> isAlive w = true -> valid_process w o None = true -> hates o w st.

(** The part of threat to [v] that goes to another unit. *)
Definition redirected (v : Z) (dt : f32) : option (Z * f32) :=
  if f32_ltb f32_zero dt && negb (GetRedirectThreatPercent v =? 0) then
    match GetRedirectThreatTarget v with
    | Some u => Some (u, CalculatePct dt (GetRedirectThreatPercent v))
    | None => None
    end
  else None.

(** [v], its owner, and whom its threat is redirected to. *)
Definition all_hated (o v : Z) (dt : f32) st : Prop :=
  hates o v st /\
  match redirected v dt with
  | Some (u, share) => hates o u st /\ owners_too o v (f32_sub dt share) st
  | None => owners_too o v dt st
  end.

(** A new reference, in the lists of both of its units. *)
Lemma wp_new o v (k : Z -> TM ()) (Q : () -> ThreatState -> Prop) X st :
  good st -> o ∈ units -> GetTypeId o = TYPEID_UNIT -> v ∈ units ->
  (forall a r, references st !! a = Some r -> iRefFrom r = Some o -> iUnitGuid r <> v) ->
  let a := next_reference st in
  (forall r st', good st' -> grows st st' -> references st' !! a = Some r -> iUnitGuid r = v -> iRefFrom r = Some o ->
     (forall o', a ∉ online o' st) -> online o st' = online o st ++ [a] -> wp (k a) Q X st') ->
  wp (a ← HostileReference_new v o f32_zero; upd_online o (addReference a);; k a) Q X st.
Proof.
  intros [Hok Hfit] Ho Hty Hv Hnone a Hk.
  assert (Hfree : references st !! a = None).
  { apply eq_None_not_Some. intros Hs. apply (ht_fresh _ Hok) in Hs. unfold a in Hs. lia. }
  set (r := mkHostileReference (Some v) (Some o) f32_zero f32_zero v true true).
  set (r0 := mkHostileReference None None f32_zero f32_zero 0 false false). set (r1 := r0 <| iRefTo := Some v |> <| iRefFrom := Some o |>).
  apply wp_bind, wp_bind, wp_gets. apply wp_bind, wp_modify. fold a r0.
  apply wp_bind, wp_bind, (wp_get_ref a r0); [apply lookup_insert_eq|]. apply wp_bind, wp_ret.
  apply wp_bind, (wp_upd_ref a _ r0); [apply lookup_insert_eq|]. fold r1.
  apply wp_bind, wp_bind, (wp_get_ref a r1); [apply lookup_insert_eq|]. apply wp_ret, wp_modify.
  apply wp_bind, (wp_upd_ref a _ r1); [apply lookup_insert_eq|]. apply wp_ret, wp_bind, wp_upd_mgr.
  match goal with |- wp _ _ _ ?s => replace s with (with_new o v r st) by
    (unfold with_new, put_mgr, put_ref; cbn; by rewrite !insert_insert_eq) end.
  assert (Hnew : references (with_new o v r st) !! a = Some r) by apply lookup_insert_eq.
  assert (Hold : forall b, b <> a -> references (with_new o v r st) !! b = references st !! b).
  { intros b Hb. by apply lookup_insert_ne. }
  assert (Em : forall o', online o' (with_new o v r st) = if bool_decide (o' = o) then online o st ++ [a] else online o' st).
  { intros o'. unfold online, mgr, with_new. cbn. case_bool_decide; [subst; by rewrite lookup_insert_eq|by rewrite lookup_insert_ne]. }
  apply (Hk r); try done.
  - split; [by apply hate_ok_new|]. intros b s Hs. destruct (decide (b = a)) as [->|Hb].
    + assert (s = r) as -> by congruence. split; [done|]. by exists o.
    + rewrite Hold in Hs by done. by apply (Hfit b).
  - split; [split|].
    + intros b s Hs. exists s. rewrite Hold; [done|]. congruence.
    + intros u. unfold haters, with_new. cbn. fold a. destruct (decide (u = v)) as [->|Hu].
      * rewrite lookup_insert_eq. by exists [a].
      * rewrite lookup_insert_ne by done. by exists [].
    + intros o'. rewrite Em. case_bool_decide; [subst; by exists [a]|apply appended_refl].
  - intros o' Ha. apply (ht_online _ Hok) in Ha as (s & Hs & _). congruence.
  - rewrite Em. by rewrite bool_decide_eq_true_2.
Qed.

Section Adding.
Variable rec : Z -> Z -> f32 -> TM ().
Variable n : nat.
Hypothesis Hrec : forall o v st, good st -> o ∈ units -> GetTypeId o = TYPEID_UNIT -> v ∈ units ->
  (owner_rank v < n)%nat -> returns (rec o v f32_zero)
    (fun _ st' => good st' /\ grows st st' /\ (valid_process v o None = true -> hates o v st')) st.

Lemma ref_addThreat_keeps a dt r st :
  good st -> references st !! a = Some r -> (owner_rank (iUnitGuid r) <= n)%nat ->
  returns (ref_addThreat rec a dt) (fun _ st' => good st' /\ grows st st' /\
    forall o, iRefFrom r = Some o -> owners_too o (iUnitGuid r) dt st') st.
Proof.
  intros Hg Hr Hrank. apply wp_bind, (wp_upd_ref a _ r); [done|].
  set (r1 := r <| iThreat ::= fun t => f32_add t dt |>).
  destruct (good_put_ref a r r1 st Hg Hr) as [Hg1 Hw1]; [done..|]. set (st1 := put_ref a r1 st) in *.
  assert (Hr1 : references st1 !! a = Some r1) by apply lookup_insert_eq.
  apply wp_bind, (wp_get_ref a r1); [done|].
  eapply returns_bind with (P := fun _ st' => good st' /\ grows st st').
  { apply wp_when; intros Hon; [|done]. apply negb_true_iff in Hon.
    eapply returns_mono; [apply (updateOnlineStatus_keeps a st1 Hg1); by eexists|]. cbn beta.
    intros [] st2 (Hg2 & Ht2 & Happ). split; [done|]. eapply grows_trans; [exact Hw1|].
    split; [by eapply keeps_refs_touches|]. apply Happ. by exists r1. }
  cbn beta. intros [] st2 [Hg2 Hw2]. destruct (kr_refs _ _ (proj1 Hw2) a r Hr) as (r2 & Hr2 & Hu2 & Hf2).
  eapply returns_bind with (P := fun _ st' => good st' /\ grows st st').
  { apply wp_when; intros _; [|done]. apply (wp_fire_change a dt r2); [done..|].
    intros st3 Hg3 Hw3 _. split; [done|]. by eapply grows_trans. }
  cbn beta. intros [] st3 [Hg3 Hw3]. destruct (kr_refs _ _ (proj1 Hw3) a r Hr) as (r3 & Hr3 & Hu3 & Hf3).
  apply wp_bind, (wp_get_ref a r3); [done|]. destruct (ht_link _ (proj1 Hg3) a r3 Hr3) as [Hto _].
  destruct (proj2 Hg3 a r3 Hr3) as (Hu & o & Ho & Hou & Hty). unfold getTarget, getSource. rewrite Hto, Ho.
  assert (Hoo : iRefFrom r = Some o) by congruence. rewrite Hu3.
  apply wp_when; intros Hdt; [|split_and!; [done..|]; intros q Hq w Hdt'; congruence].
  destruct (GetCharmerOrOwner (iUnitGuid r)) as [v|] eqn:Hv;
    [|apply wp_ret; split_and!; [done..|]; intros q Hq w _ Hw; congruence].
  apply wp_when; intros Halive; [|split_and!; [done..|]; intros q Hq w _ Hw Hal; congruence].
  rewrite <- Hu3 in Hv. destruct (wo_owner _ v Hu Hv) as [Hvu Hlt]. rewrite Hu3 in Hlt, Hv.
  eapply returns_mono; [apply Hrec; [done..|lia]|]. cbn beta. intros [] st4 (Hg4 & Hw4 & Hh4).
  split; [done|]. split; [by eapply grows_trans|]. intros q Hq w _ Hw _. assert (q = o /\ w = v) as [-> ->] by (split; congruence).
  exact Hh4.
Qed.

Lemma container_addThreat_keeps o l v dt st :
  good st -> (forall a, a ∈ l -> exists r, references st !! a = Some r /\ iRefFrom r = Some o) -> (owner_rank v <= n)%nat ->
  returns (container_addThreat rec l v dt)
    (fun found st' => good st' /\ grows st st' /\
       match found with
       | Some _ => hates o v st' /\ owners_too o v dt st'
       | None => st' = st /\ forall a r, a ∈ l -> references st !! a = Some r -> iUnitGuid r <> v
       end) st.
Proof.
  intros Hg Hl Hrank. unfold container_addThreat, getReferenceByTarget. apply wp_bind.
  destruct (find_ref_run v l st) as (found & Hrun & Hf); [intros a Ha; destruct (Hl a Ha) as (r & Hr & _); by eexists|]. unfold wp at 1. rewrite Hrun. destruct found as [a|].
  - destruct Hf as (Ha & r & Hr & Hu). eapply returns_bind; [apply (ref_addThreat_keeps a dt r); [done..|by rewrite Hu]|].
    cbn beta. intros _ st' (Hg' & Hw & Hown). apply wp_ret. destruct (Hl a Ha) as (s & Hs & Ho). assert (s = r) as -> by congruence.
    split_and!; [done..| |by rewrite <- Hu; apply Hown]. apply (hates_kept o v st); [apply Hw|by exists a, r].
  - apply wp_ret. split; [done|]. split; [apply grows_refl|done].
Qed.

Lemma addThreat_to_keeps o v dt st :
  good st -> o ∈ units -> GetTypeId o = TYPEID_UNIT -> v ∈ units -> (owner_rank v <= n)%nat ->
  returns (_addThreat rec o v dt) (fun _ st' => good st' /\ grows st st' /\ hates o v st' /\ owners_too o v dt st') st.
Proof.
  intros Hg Ho Hty Hv Hrank. apply wp_bind, wp_gets.
  eapply returns_bind; [apply (container_addThreat_keeps o (online o st) v dt); [done| |done]|].
  { intros a Ha. apply (ht_online _ (proj1 Hg)) in Ha as (r & Hr & Hf & _). by exists r. }
  cbn beta. intros on st1 (Hg1 & Hw1 & Hon1).
  apply returns_bind with (P := fun ref st' => good st' /\ grows st st' /\
    match ref with
    | Some _ => hates o v st' /\ owners_too o v dt st'
    | None => forall a r, references st' !! a = Some r -> iRefFrom r = Some o -> iUnitGuid r <> v
    end).
  { destruct on as [a|]; [by apply wp_ret|]. destruct Hon1 as [-> Hnone]. apply wp_bind, wp_gets.
    eapply returns_mono; [apply (container_addThreat_keeps o (offline o st) v dt); [done| |done]|].
    { intros a Ha. apply (ht_offline _ (proj1 Hg)) in Ha as (r & Hr & Hf & _). by exists r. }
    cbn beta. intros off st' (Hg' & Hw' & Hoff). split; [done|]. split; [done|]. destruct off as [b|]; [done|].
    destruct Hoff as [-> Hoff]. intros a r Hr Hf. destruct (iOnline r) eqn:Hon.
    - apply (Hnone a r); [|done]. apply (ht_online _ (proj1 Hg)). eauto.
    - apply (Hoff a r); [|done]. apply (ht_offline _ (proj1 Hg)). eauto. }
  clear st1 Hg1 Hw1 Hon1. intros [a|] st1 (Hg1 & Hw1 & Hnone); [by apply wp_ret|].
  apply (wp_new o v); [done..|]. set (a := next_reference st1). intros r2 st2 Hg2 Hw2 Hr2 Hu2 Hf2 Hfresh Hon.
  eapply returns_bind; [apply (ref_addThreat_keeps a dt r2); [done..|by rewrite Hu2]|].
  cbn beta. intros _ st3 (Hg3 & Hw3 & Hown3). specialize (Hown3 o Hf2). rewrite Hu2 in Hown3.
  assert (Hh3 : hates o v st3) by (apply (hates_kept o v st2); [apply Hw3|by exists a, r2]). apply wp_when; intros _.
  - destruct (proj2 Hw3 o) as [l Hl].
    assert (Hin : a ∈ online o st3) by (rewrite Hl, Hon; set_solver).
    apply (ht_online _ (proj1 Hg3)) in Hin as (r3 & Hr3 & _ & Hon3).
    apply (wp_goes_offline a r3); [done..|]. intros st4 Hg4 Ht4 Hwo _. apply keeps_refs_touches in Ht4.
    split; [done|]. split; [|split; [by apply (hates_kept o v st3)|]; intros w Hdt Hw Hal Hval; eapply hates_kept; [exact Ht4|by apply Hown3]].
    split.
    + eapply keeps_refs_trans; [exact (proj1 Hw1)|]. eapply keeps_refs_trans; [exact (proj1 Hw2)|].
      by eapply keeps_refs_trans; [exact (proj1 Hw3)|].
    + intros o'. rewrite Hwo. destruct (proj2 Hw3 o') as [l3 ->], (proj2 Hw2 o') as [l2 ->], (proj2 Hw1 o') as [l1 Hl1].
      rewrite !without_app, without_absent by apply Hfresh. rewrite Hl1, <- !app_assoc. by eexists.
  - split; [done|]. split; [|done]. eapply grows_trans; [exact Hw1|]. by eapply grows_trans.
Qed.

(** Threat is redirected when there is some; to units of any rank. *)
Lemma doAddThreat_keeps o v dt st :
  good st -> o ∈ units -> GetTypeId o = TYPEID_UNIT -> v ∈ units -> (owner_rank v <= n)%nat ->
  f32_ltb f32_zero dt = false \/ (length units <= n)%nat ->
  returns (doAddThreat rec o v dt) (fun _ st' => good st' /\ grows st st' /\ all_hated o v dt st') st.
Proof.
  intros Hg Ho Hty Hv Hrank Hred. unfold doAddThreat, all_hated.
  apply returns_bind with (P := fun dt' st' => good st' /\ grows st st' /\
    match redirected v dt with Some (u, share) => hates o u st' /\ dt' = f32_sub dt share | None => dt' = dt end).
  - unfold redirected. destruct (f32_ltb f32_zero dt && negb (GetRedirectThreatPercent v =? 0)) eqn:Hc;
      [|apply wp_ret; split; [done|split; [apply grows_refl|done]]].
    destruct (GetRedirectThreatTarget v) as [u|] eqn:Hu; [|apply wp_ret; split; [done|split; [apply grows_refl|done]]].
    destruct Hred as [Hred|Hred]; [by rewrite Hred in Hc|]. pose proof (wo_redirect v u Hv Hu) as Hin.
    pose proof (wo_rank u Hin). eapply returns_bind; [apply addThreat_to_keeps; [done..|lia]|].
    cbn beta. intros _ st' (Hk & Hw & Hh & _). by apply wp_ret.
  - intros dt' st1 (Hg1 & Hw1 & Hshare). eapply returns_mono; [by apply addThreat_to_keeps|]. cbn beta.
    intros _ st2 (Hg2 & Hw2 & Hh2 & Hown2). split; [done|]. split; [by eapply grows_trans|]. split; [done|].
    destruct (redirected v dt) as [[u share]|]; [|by subst]. destruct Hshare as [Hu ->]. split; [|done].
    eapply hates_kept; [apply Hw2|done].
Qed.
End Adding.

(** No threat stays no threat, whatever the modifiers. *)
Lemma no_threat_calculated v m : f32_ltb f32_zero (calcThreat v f32_zero m None) = false.
Proof.
  unfold calcThreat, ApplyTotalThreatModifier. destruct (_ || _); [reflexivity|].
  by destruct (m_threatModifier v (GetFirstSchoolInMask m)) as [[]|[]| |[] ? ?].
Qed.

Lemma addThreat_rec_keeps n o v st :
  good st -> o ∈ units -> GetTypeId o = TYPEID_UNIT -> v ∈ units -> (owner_rank v < n)%nat ->
  returns (addThreat_rec n o v f32_zero)
    (fun _ st' => good st' /\ grows st st' /\ (valid_process v o None = true -> hates o v st')) st.
Proof.
  revert o v st. induction n as [|n IH]; intros o v st Hg Ho Hty Hv Hrank; [lia|].
  cbn [addThreat_rec]. unfold mgr_addThreat. apply wp_bind.
  unfold wp at 1. rewrite (isValidProcess_run v o None st Hty).
  apply wp_when; intros Hb; [|split; [done|split; [apply grows_refl|congruence]]].
  eapply returns_mono; [apply (doAddThreat_keeps (addThreat_rec n) n); [|done..|lia|left; apply no_threat_calculated]|].
  - intros o' v' st' Hg' Ho' Hty' Hv' Hlt. by apply IH.
  - cbn beta. intros _ st' (Hg' & Hw & Hh & _). done.
Qed.

Lemma owner_addThreat_keeps o v st :
  good st -> o ∈ units -> GetTypeId o = TYPEID_UNIT -> v ∈ units ->
  (owner_rank v < length units)%nat ->
  returns (owner_addThreat o v f32_zero)
    (fun _ st' => good st' /\ grows st st' /\ (valid_process v o None = true -> hates o v st')) st.
Proof. apply addThreat_rec_keeps. Qed.

(** [HostileReference::addThreat] and what is made of it. *)
Lemma HostileReference_addThreat_keeps a dt st :
  good st -> is_Some (references st !! a) ->
  returns (HostileReference_addThreat a dt) (fun _ st' => good st' /\ grows st st') st.
Proof.
  intros Hg [r Hr]. eapply returns_mono; [apply (ref_addThreat_keeps _ (length units) owner_addThreat_keeps a dt r); [done..|]|].
  - destruct (proj2 Hg a r Hr) as [Hu _]. pose proof (wo_rank _ Hu). lia.
  - cbn beta. intros _ st' (Hg' & Hw & _). done.
Qed.

Lemma doAddThreat_owner_keeps o v dt st :
  good st -> o ∈ units -> GetTypeId o = TYPEID_UNIT -> v ∈ units ->
  returns (doAddThreat owner_addThreat o v dt) (fun _ st' => good st' /\ grows st st' /\ all_hated o v dt st') st.
Proof.
  intros Hg Ho Hty Hv. pose proof (wo_rank _ Hv).
  apply (doAddThreat_keeps _ (length units) owner_addThreat_keeps); [done..|lia|by right].
Qed.

Lemma addThreat_keeps o v dt school spell st :
  good st -> o ∈ units -> GetTypeId o = TYPEID_UNIT -> v ∈ units ->
  returns (addThreat o (Some v) dt school spell) (fun _ st' => good st' /\ grows st st' /\
    (if valid_process v o spell then all_hated o v (calcThreat v dt school spell) st' else st' = st)) st.
Proof.
  intros Hg Ho Hty Hv. unfold addThreat, mgr_addThreat. apply wp_bind. unfold wp at 1.
  rewrite (isValidProcess_run v o spell st Hty). destruct (valid_process v o spell); cbn [when].
  - by apply doAddThreat_owner_keeps.
  - apply wp_ret. split; [done|]. split; [apply grows_refl|done].
Qed.
End Ops.
