(* ===== verification/ThreatOps.v ===== *)
(** * Threat: every operation keeps the invariant

    Operations on one reference, on the list of a creature and on the list of the
    references to a unit: that they end, without an error, in a state where the
    invariant of [ThreatInv] holds, and what the ones that delete leave. *)

From Stdlib Require Import SpecFloat.
From S2P Require Import Prelude Float32 ByteBuffer Wire WireProps Packet Maps Threat ThreatInv.

(** ** Places in a list *)

Lemma next_in_split a pre post : a ∉ pre -> next_in a (pre ++ a :: post) = head post.
Proof.
  induction pre as [|x pre IH]; intros Ha; cbn [app next_in]; [by rewrite Z.eqb_refl|].
  destruct (Z.eqb_spec x a); [set_solver|]. apply IH. set_solver.
Qed.

Lemma NoDup_split_absent (a : Z) pre post : NoDup (pre ++ a :: post) -> a ∉ pre /\ a ∉ post.
Proof.
  intros (Hpre & Hd & Hpost)%NoDup_app. apply NoDup_cons in Hpost as [Hn _]. split; [|done].
  intros Ha. by apply (Hd a Ha), list_elem_of_here.
Qed.

(** ** Sorting and deleting *)

Lemma insert_ref_perm x l : insert_ref x l ≡ₚ x :: l.
Proof.
  induction l as [|y l IH]; [done|]. cbn [insert_ref]. destruct (f32_ltb _ _); [|done]. rewrite IH. apply Permutation_swap.
Qed.
Lemma sort_refs_perm l : sort_refs l ≡ₚ l.
Proof. induction l as [|x l IH]; [done|]. cbn [sort_refs foldr]. fold (sort_refs l). by rewrite insert_ref_perm, IH. Qed.

(** The threat of a reference. *)
Definition threat_at (st : ThreatState) (a : Z) : f32 :=
  match references st !! a with Some r => iThreat r | None => f32_zero end.

(** Whom a reference refers to. *)
Definition unit_at (st : ThreatState) (a : Z) : Z :=
  match references st !! a with Some r => iUnitGuid r | None => 0 end.

Definition by_threat (st : ThreatState) (l : list Z) : list Z :=
  map fst (sort_refs (map (fun a => (a, threat_at st a)) l)).

Lemma by_threat_perm st l : by_threat st l ≡ₚ l.
Proof. unfold by_threat. rewrite sort_refs_perm, map_map. cbn. by rewrite map_id. Qed.

(** The list of [o] once it is brought up to date. *)
Definition up_to_date (o : Z) (st : ThreatState) : list Z :=
  if iDirty (iThreatContainer (mgr o st)) then by_threat st (online o st) else online o st.

Lemma up_to_date_perm o st : up_to_date o st ≡ₚ online o st.
Proof. unfold up_to_date. destruct (iDirty _); [apply by_threat_perm|done]. Qed.

Lemma zip_threats st l rs : Forall2 (fun a r => references st !! a = Some r) l rs ->
  zip l (map iThreat rs) = map (fun a => (a, threat_at st a)) l.
Proof.
  intros Hrs. induction Hrs as [|a r l rs Hr Hrs IH]; [done|]. cbn. f_equal; [|done]. unfold threat_at. by rewrite Hr.
Qed.

Lemma foldl_delete_lookup (l : list Z) (m : gmap Z HostileReference) b :
  foldl (fun m a => delete a m) m l !! b = if bool_decide (b ∈ l) then None else m !! b.
Proof.
  revert m. induction l as [|a l IH]; intros m; cbn [foldl]; [done|]. rewrite IH.
  destruct (decide (b ∈ l)) as [Hb|Hb]; [rewrite !bool_decide_eq_true_2; set_solver|].
  rewrite (bool_decide_eq_false_2 (b ∈ l)) by done. destruct (decide (b = a)) as [->|Hba].
  - rewrite lookup_delete_eq, bool_decide_eq_true_2; [done|set_solver].
  - rewrite lookup_delete_ne, bool_decide_eq_false_2; [done|set_solver|done].
Qed.

Lemma without_twice a (h : gmap Z (list Z)) : without a <$> (without a <$> h) = without a <$> h.
Proof.
  rewrite <- map_fmap_compose. apply map_fmap_ext. intros u l _. cbn. apply without_absent.
  rewrite elem_of_without. tauto.
Qed.

Section Ops.
Context `{Host, ThreatWorld, !ThreatWorldOk}.
#[local] Set Default Proof Using "All".
Implicit Types (st : ThreatState).

(** A computation that keeps the invariant and every reference. *)
Definition safe (m : TM ()) st : Prop := returns m (fun _ st' => good st' /\ grows st st') st.
Definition keeps (m : TM ()) st : Prop := returns m (fun _ st' => good st' /\ keeps_refs st st') st.

Lemma safe_keeps m st : safe m st -> keeps m st.
Proof. intros Hs. eapply returns_mono; [exact Hs|]. cbn beta. intros _ st' [Hg [Hk _]]. done. Qed.

Lemma ret_safe st : good st -> safe (mret ()) st.
Proof. intros Hg. apply wp_ret. split; [done|apply grows_refl]. Qed.

Lemma then_safe (m k : TM ()) st : safe m st -> (forall st', good st' -> grows st st' -> safe k st') -> safe (m;; k) st.
Proof.
  intros Hm Hk. eapply returns_bind; [exact Hm|]. cbn beta. intros [] st1 [Hg1 Hw1].
  eapply returns_mono; [by apply Hk|]. cbn beta. intros _ st2 [Hg2 Hw2]. split; [done|]. by eapply grows_trans.
Qed.

Lemma safe_when b m st : good st -> (b = true -> safe m st) -> safe (when b m) st.
Proof. intros Hg Hm. apply wp_when; intros Hb; [by apply Hm|]. split; [done|apply grows_refl]. Qed.

Lemma online_ref o a st : good st -> a ∈ online o st -> exists r, references st !! a = Some r /\
  iRefTo r = Some (iUnitGuid r) /\ iRefFrom r = Some o /\ iOnline r = true /\ iUnitGuid r ∈ units.
Proof.
  intros Hg Ha. apply (ht_online _ (proj1 Hg)) in Ha as (r & Hr & Hf & Ho). exists r.
  destruct (ht_link _ (proj1 Hg) a r Hr) as [Ht _]. destruct (proj2 Hg a r Hr). done.
Qed.

Lemma hater_ref u a st : good st -> a ∈ haters u st -> exists r o, references st !! a = Some r /\
  iRefTo r = Some u /\ iUnitGuid r = u /\ iRefFrom r = Some o /\ o ∈ units /\ GetTypeId o = TYPEID_UNIT.
Proof.
  intros Hg Ha. apply (ht_hated _ (proj1 Hg)) in Ha as (r & Hr & Hu). destruct (proj2 Hg a r Hr) as (_ & o & Ho & Hou & Hty).
  exists r, o. destruct (ht_link _ (proj1 Hg) a r Hr) as [Ht _]. split_and!; congruence.
Qed.

Lemma online_known o a st : good st -> a ∈ online o st -> is_Some (references st !! a).
Proof. intros Hg Ha. destruct (online_ref o a st Hg Ha) as (r & Hr & _). by eexists. Qed.

Lemma getSourceUnit_run a r o st : references st !! a = Some r -> iRefFrom r = Some o -> getSourceUnit a st = Ok o st.
Proof. intros Hr Ho. unfold getSourceUnit, get_ref, mbind, M_bind, getSource. by rewrite Hr, Ho. Qed.

(** ** One reference *)

Lemma safe_put a r r' m st :
  good st -> references st !! a = Some r ->
  iRefTo r' = iRefTo r -> iRefFrom r' = iRefFrom r -> iUnitGuid r' = iUnitGuid r -> iOnline r' = iOnline r ->
  (forall st', good st' -> references st' !! a = Some r' -> safe m st') ->
  returns m (fun _ st' => good st' /\ grows st st') (put_ref a r' st).
Proof.
  intros Hg Hr E1 E2 E3 E4 Hm. destruct (good_put_ref a r r' st Hg Hr) as [Hg1 Hw1]; [done..|].
  eapply returns_mono; [apply Hm; [done|apply lookup_insert_eq]|]. cbn beta.
  intros _ st2 [Hg2 Hw2]. split; [done|]. by eapply grows_trans.
Qed.

Lemma setThreat_safe a t st : good st -> is_Some (references st !! a) -> safe (setThreat a t) st.
Proof.
  intros Hg [r Hr]. apply wp_bind, (wp_get_ref a r); [done|]. apply HostileReference_addThreat_keeps; [done|by eexists].
Qed.

Lemma addThreatPercent_safe a p st : good st -> is_Some (references st !! a) -> safe (addThreatPercent a p) st.
Proof.
  intros Hg [r Hr]. apply wp_bind, (wp_get_ref a r); [done|]. apply HostileReference_addThreat_keeps; [done|by eexists].
Qed.

Lemma addTempThreat_safe a t st : good st -> is_Some (references st !! a) -> safe (addTempThreat a t) st.
Proof.
  intros Hg [r Hr]. apply wp_bind, (wp_upd_ref a _ r); [done|]. apply (safe_put a r); [done..|].
  intros st1 Hg1 Hr1. apply safe_when; [done|]. intros _. apply HostileReference_addThreat_keeps; [done|by eexists].
Qed.

Lemma setTempThreat_safe a t st : good st -> is_Some (references st !! a) -> safe (setTempThreat a t) st.
Proof. intros Hg [r Hr]. apply wp_bind, (wp_get_ref a r); [done|]. apply addTempThreat_safe; [done|by eexists]. Qed.

Lemma resetTempThreat_safe a st : good st -> is_Some (references st !! a) -> safe (resetTempThreat a) st.
Proof.
  intros Hg [r Hr]. apply wp_bind, (wp_get_ref a r); [done|]. apply safe_when; [done|]. intros _.
  apply then_safe; [apply HostileReference_addThreat_keeps; [done|by eexists]|]. intros st1 Hg1 Hw1.
  destruct (kr_refs _ _ (proj1 Hw1) a r Hr) as (r1 & Hr1 & _). apply (wp_upd_ref a _ r1); [done|].
  by destruct (good_put_ref a r1 (r1 <| iTempThreatModifier := f32_zero |>) st1 Hg1 Hr1).
Qed.

(** ** The list of a creature *)

Lemma find_online o v st : good st -> exists found, getReferenceByTarget (online o st) v st = Ok found st /\
  forall a, found = Some a -> a ∈ online o st /\ is_Some (references st !! a).
Proof.
  intros Hg. destruct v as [v|]; [|by exists None].
  destruct (find_ref_run v (online o st) st) as (found & Hrun & Hf); [intros a; by apply online_known|].
  exists found. split; [exact Hrun|]. intros a ->. destruct Hf as (Ha & r & Hr & _). split; [done|]. by eexists.
Qed.

(** What is done with the reference to a unit, if it is in the list. *)
Lemma with_found_safe o v (f : Z -> TM ()) st :
  good st -> (forall a, a ∈ online o st -> is_Some (references st !! a) -> safe (f a) st) ->
  safe (l ← online_list o; ref ← getReferenceByTarget l v; match ref with Some a => f a | None => mret () end) st.
Proof.
  intros Hg Hf. apply wp_bind, wp_gets, wp_bind. destruct (find_online o v st Hg) as (found & Hrun & Hin).
  unfold online in Hrun. unfold wp at 1. rewrite Hrun. destruct found as [a|]; [|by apply ret_safe].
  destruct (Hin a) as [Ha Hs]; [done|]. by apply Hf.
Qed.

Lemma modifyThreatPercent_safe o v p st : good st -> safe (modifyThreatPercent o v p) st.
Proof. intros Hg. apply with_found_safe; [done|]. intros a _ Ha. by apply addThreatPercent_safe. Qed.

Lemma tauntFadeOut_safe o v st : good st -> safe (tauntFadeOut o v) st.
Proof. intros Hg. apply with_found_safe; [done|]. intros a _ Ha. by apply resetTempThreat_safe. Qed.

Lemma tauntApply_safe o v st : good st -> safe (tauntApply o v) st.
Proof.
  intros Hg. apply wp_bind, wp_gets, wp_bind. destruct (find_online o v st Hg) as (found & Hrun & Hin).
  unfold online in Hrun. unfold wp at 1. rewrite Hrun.
  destruct (iCurrentVictim (mgr o st)) as [c|] eqn:Hc; [|by apply ret_safe].
  destruct found as [a|]; [|by apply ret_safe]. destruct (Hin a) as [_ [r Hr]]; [done|].
  apply (ht_victim _ (proj1 Hg)), online_known in Hc as [v' Hv]; [|done].
  apply wp_bind, (wp_get_ref c v'); [done|]. apply wp_bind, (wp_get_ref a r); [done|].
  apply safe_when; [done|]. intros _. apply setTempThreat_safe; [done|by eexists].
Qed.

Lemma getThreat_run o v also st : good st -> exists t, getThreat o v also st = Ok t st.
Proof.
  intros Hg. unfold getThreat. erewrite bind_run by reflexivity.
  destruct (find_online o v st Hg) as (found & Hrun & Hin). unfold online in Hrun. erewrite bind_run by exact Hrun.
  destruct found as [a|].
  - destruct (Hin a) as [_ [r Hr]]; [done|]. erewrite bind_run by reflexivity.
    cbn iota. erewrite bind_run by (unfold get_ref; by rewrite Hr). by eexists.
  - destruct also; [|by eexists]. destruct v as [v|]; [|by eexists].
    destruct (find_ref_run v (offline o st) st) as (off & Hrun' & Hf).
    { intros a Ha. apply (ht_offline _ (proj1 Hg)) in Ha as (r & Hr & _). by eexists. }
    assert (Hoff : (l ← offline_list o; getReferenceByTarget l (Some v)) st = Ok off st).
    { erewrite bind_run by reflexivity. exact Hrun'. }
    erewrite bind_run by exact Hoff. destruct off as [a|]; [|by eexists].
    destruct Hf as (_ & r & Hr & _). cbn iota. erewrite bind_run by (unfold get_ref; by rewrite Hr). by eexists.
Qed.

(** A manager whose lists and victim stay. *)
Lemma good_same_lists o m st :
  good st -> iThreatContainer m = iThreatContainer (mgr o st) ->
  iThreatOfflineContainer m = iThreatOfflineContainer (mgr o st) -> iCurrentVictim m = iCurrentVictim (mgr o st) ->
  good (put_mgr o m st) /\ grows st (put_mgr o m st).
Proof.
  intros [Hok Hfit] E1 E2 E3. split.
  - split; [|done]. apply hate_ok_put_mgr; [done|by rewrite E1|by rewrite E2|]. intros c. rewrite E3. apply (ht_victim _ Hok).
  - split; [split; [eauto|intros u; by exists []]|]. intros o'. exists []. rewrite app_nil_r.
    unfold online. rewrite mgr_put. case_bool_decide; [by subst; rewrite E1|done].
Qed.

Lemma isNeedUpdateToClient_safe o time st :
  good st -> returns (isNeedUpdateToClient o time) (fun _ st' => good st' /\ grows st st') st.
Proof.
  intros Hg. apply wp_bind, wp_gets. destruct (isThreatListEmpty _); [apply wp_ret; split; [done|apply grows_refl]|].
  destruct (_ <=? _); apply wp_bind, wp_upd_mgr, wp_ret; by apply good_same_lists.
Qed.

Lemma SendThreatListUpdate_safe o st : good st -> o ∈ units -> safe (SendThreatListUpdate o) st.
Proof.
  intros Hg Ho. apply wp_bind, wp_gets. apply safe_when; [done|]. intros _.
  apply wp_bind, wp_tlist; [done|]. intros rs Hlen Hrs.
  eapply wp_send; [apply writes_bind; [by apply writes_guid, unit_width|]; apply writes_bind;
    [apply writes_out|by apply (writes_entries rs (fun r => uint32_of_f32 (f32_mul (iThreat r) f32_hundred)))]|..].
  - rewrite !zlen_app. pose proof (guid_length o).
    pose proof (entries_length rs (fun r => uint32_of_f32 (f32_mul (iThreat r) f32_hundred))). rewrite scalar32_length. lia.
  - intros p. split.
    + split; [by apply hate_ok_say, Hg|apply Hg].
    + split; [split; [eauto|intros u; by exists []]|]. intros o'. apply appended_refl.
Qed.

(** The loops over the list, when each turn only adds to the end of it. *)
Lemma each_online_safe o body :
  (forall a st, good st -> a ∈ online o st -> safe (body a) st) ->
  forall fuel st pre l, good st -> online o st = pre ++ l -> (length units <= fuel + length pre)%nat ->
    safe (each_online fuel o (head l) body) st.
Proof.
  intros Hbody fuel. induction fuel as [|fuel IH]; intros st pre l Hg Hl Hfuel.
  - pose proof (online_bound st o Hg) as Hb. rewrite Hl, length_app in Hb. destruct l; cbn in Hb; [by apply ret_safe|lia].
  - destruct l as [|a post]; [by apply ret_safe|]. cbn [head each_online].
    apply then_safe; [apply Hbody; [done|]; rewrite Hl; set_solver|]. intros st1 Hg1 [_ Hw1]. destruct (Hw1 o) as [l1 Hl1].
    apply wp_bind, wp_gets. fold (online o st1). rewrite Hl in Hl1. rewrite <- app_assoc in Hl1. cbn in Hl1.
    assert (Hn : a ∉ pre) by (destruct (ht_nodup _ (proj1 Hg1) o) as [Hnd _]; rewrite Hl1 in Hnd; by destruct (NoDup_split_absent _ _ _ Hnd)).
    rewrite Hl1, next_in_split by done. apply (IH st1 (pre ++ [a])); [done| |rewrite length_app; cbn; lia].
    rewrite Hl1, <- app_assoc. done.
Qed.

Lemma resetAllAggro_safe o st : good st -> safe (resetAllAggro o) st.
Proof.
  intros Hg. apply wp_bind, wp_gets. apply safe_when; [done|]. intros _. apply then_safe.
  - apply (each_online_safe o _ (fun a st' Hg' Ha => setThreat_safe a f32_zero st' Hg' (online_known o a st' Hg' Ha)) _ st []);
      [done|done|cbn; lia].
  - intros st1 Hg1 _. by apply wp_setDirty.
Qed.

Lemma resetAggro_safe p o st : good st -> safe (resetAggro p o) st.
Proof.
  intros Hg. apply wp_bind, wp_gets. refine (each_online_safe o _ _ _ st [] _ Hg _ _); [|done|cbn; lia].
  intros a st1 Hg1 Ha. destruct (online_ref o a st1 Hg1 Ha) as (r & Hr & Ht & _).
  apply wp_bind. unfold deref_target. apply wp_bind, (wp_get_ref a r); [done|]. unfold getTarget. rewrite Ht.
  apply wp_ret. apply safe_when; [done|]. intros _. apply then_safe; [apply setThreat_safe; [done|by eexists]|].
  intros st2 Hg2 _. by apply wp_setDirty.
Qed.

(** ** The next victim *)


(** A dirty list is sorted; nothing else changes but the mark. *)
Lemma update_keeps o st :
  good st -> returns (update o) (fun _ st' => good st' /\
    online o st' = up_to_date o st /\
    references st' = references st /\
    mgr o st' = (mgr o st) <| iThreatContainer := mkThreatContainer (online o st') false |>) st.
Proof.
  intros Hg. unfold update. apply wp_bind, wp_gets. fold (online o st).
  set (sorted := up_to_date o st). assert (Hperm : sorted ≡ₚ online o st) by apply up_to_date_perm.
  assert (Hend : forall st1, mgr o st1 = (mgr o st) <| iThreatContainer := mkThreatContainer sorted (iDirty (iThreatContainer (mgr o st))) |> ->
    (st1 = st \/ exists m, st1 = put_mgr o m st) ->
    returns (setDirty o false) (fun _ st' => good st' /\ online o st' = sorted /\ references st' = references st /\
      mgr o st' = (mgr o st) <| iThreatContainer := mkThreatContainer (online o st') false |>) st1).
  { intros st1 Hm Hst1. apply wp_upd_mgr. rewrite Hm.
    match goal with |- context [put_mgr o ?x st1] => set (m := x) end.
    replace (put_mgr o m st1) with (put_mgr o m st)
      by (destruct Hst1 as [->|[m' ->]]; [done|]; unfold put_mgr; cbn; by rewrite insert_insert_eq).
    assert (Eon : online o (put_mgr o m st) = sorted) by (unfold online; by rewrite mgr_put_eq).
    rewrite Eon, mgr_put_eq. split_and!; [|done..]. split; [|apply Hg]. apply hate_ok_put_mgr; [apply Hg|done..|].
    intros c. apply (ht_victim _ (proj1 Hg)). }
  apply wp_bind. apply wp_when; intros Hc.
  - apply andb_true_iff in Hc as [Hd _]. apply wp_bind, wp_get_refs; [intros a; by apply online_known|].
    intros rs Hlen Hrs. apply wp_upd_mgr, Hend; [|right; by eexists]. rewrite mgr_put_eq, (zip_threats st _ _ Hrs). fold (by_threat st (online o st)).
    unfold sorted, up_to_date. rewrite Hd. cbn. by rewrite Hd.
  - apply Hend; [|by left]. assert (Hsame : sorted = online o st).
    { unfold sorted, up_to_date. destruct (iDirty _); [|done]. apply Z.ltb_ge in Hc. destruct (online o st) as [|a [|b l]]; [done..|].
      cbn in Hc. lia. }
    rewrite Hsame. unfold online. by destruct (mgr o st) as [? ? [? ?] ?].
Qed.

(** A victim that is selected is in the list. *)
Lemma select_loop_run o st restart np cur l :
  good st -> (forall c, cur = Some c -> c ∈ online o st) -> (forall a, a ∈ l -> a ∈ online o st) ->
  (np = false -> forall cur', (forall c, cur' = Some c -> c ∈ online o st) ->
     exists res, restart cur' st = Ok res st /\ forall c, res = Some c -> c ∈ online o st) ->
  exists res, select_loop o restart np cur l st = Ok res st /\ forall c, res = Some c -> c ∈ online o st.
Proof.
  intros Hg Hcur Hl Hrestart. revert cur Hcur. induction l as [|a l IH]; intros cur Hcur; [by exists None|].
  cbn [select_loop]. destruct (online_ref o a st) as (r & Hr & Ht & _); [done|apply Hl; set_solver|].
  erewrite bind_run by (unfold get_ref; by rewrite Hr). unfold getTarget at 1. rewrite Ht.
  assert (IH' : forall cur', (forall c, cur' = Some c -> c ∈ online o st) -> exists res,
    select_loop o restart np cur' l st = Ok res st /\ forall c, res = Some c -> c ∈ online o st).
  { apply IH. intros b Hb. apply Hl. set_solver. }
  assert (Ha : forall c, Some a = Some c -> c ∈ online o st) by (intros c [= <-]; apply Hl; set_solver).
  destruct (negb np && _) eqn:Hsecond.
  - apply andb_true_iff in Hsecond as [Hnp%negb_true_iff _]. destruct l as [|b l]; [by apply Hrestart|].
    apply IH'. case_bool_decide; [done|]. exact Hcur.
  - destruct (canCreatureAttack o _); [|by apply IH']. destruct cur as [c|]; [|by exists (Some a)].
    destruct (online_ref o c st) as (v & Hv & Htv & _); [done|by apply Hcur|].
    erewrite bind_run by (unfold get_ref; by rewrite Hv). destruct ((c =? a) || _).
    + destruct (negb (c =? a)); [|by exists (Some a)].
      assert (Hd : deref_target c st = Ok (iUnitGuid v) st).
      { unfold deref_target. erewrite bind_run by (unfold get_ref; by rewrite Hv). unfold getTarget. by rewrite Htv. }
      erewrite bind_run by exact Hd. destruct (canCreatureAttack _ _); [exists (Some c)|exists (Some a)]; done.
    + destruct (f32_ltb _ _ || _); [by exists (Some a)|by apply IH'].
Qed.

Lemma selectNextVictim_run o st cur :
  good st -> online o st <> [] -> (forall c, cur = Some c -> c ∈ online o st) ->
  exists res, selectNextVictim o (online o st) cur st = Ok res st /\ forall c, res = Some c -> c ∈ online o st.
Proof.
  intros Hg Hne Hcur. unfold selectNextVictim. rewrite bool_decide_eq_false_2 by done.
  apply select_loop_run; [done..|]. intros _ cur' Hcur'. by apply select_loop_run.
Qed.

(** What [getHostilTarget] leaves: the list brought up to date, the reference that
    was selected from it as the victim; its answer is that reference's unit. *)
Record aims o st (t : option Z) st' : Prop := {
  am_good : good st';
  am_references : references st' = references st;
  am_online : online o st' = up_to_date o st;
  am_selected : exists st1, good st1 /\ references st1 = references st /\
    selectNextVictim o (up_to_date o st) (iCurrentVictim (mgr o st)) st1 = Ok (iCurrentVictim (mgr o st')) st1;
  am_victim c : iCurrentVictim (mgr o st') = Some c -> c ∈ online o st;
  am_answer : t = option_map (unit_at st) (iCurrentVictim (mgr o st'))
}.

Lemma getHostilTarget_aims o st :
  good st -> o ∈ units -> GetTypeId o = TYPEID_UNIT -> online o st <> [] ->
  returns (getHostilTarget o) (aims o st) st.
Proof.
  intros Hg Ho Hty Hne. unfold getHostilTarget. eapply returns_bind; [by apply update_keeps|]. cbn beta.
  intros [] st1 (Hg1 & Hl & Hr & Hm1). pose proof (up_to_date_perm o st) as Hp.
  assert (Hcur : iCurrentVictim (mgr o st1) = iCurrentVictim (mgr o st)) by (by rewrite Hm1).
  apply wp_bind, wp_gets. rewrite Hty. change (TYPEID_UNIT =? TYPEID_UNIT) with true. cbn [negb]. fold (online o st1).
  destruct (selectNextVictim_run o st1 (iCurrentVictim (mgr o st1))) as (res & Hrun & Hres);
    [done|intros Heq; rewrite Hl in Heq; rewrite Heq in Hp; by apply Permutation_nil_l in Hp|apply (ht_victim _ (proj1 Hg1))|].
  apply wp_bind. unfold wp at 1. rewrite Hrun. rewrite Hl, Hcur in Hrun.
  assert (Hend : forall st2, good st2 -> references st2 = references st -> mgr o st2 = mgr o st1 ->
    wp (upd_mgr o (fun m => m <| iCurrentVictim := res |>);;
        match res with Some a => r ← get_ref a; mret (getTarget r) | None => mret None end)
      (aims o st) (fun _ _ => False) st2).
  { intros st2 Hg2 Hr2 Hm2. apply wp_bind, wp_upd_mgr. match goal with |- context [put_mgr o ?x st2] => set (m := x) end.
    assert (Hg3 : good (put_mgr o m st2)).
    { split; [|apply Hg2]. apply hate_ok_put_mgr; [apply Hg2|done..|]. intros c Hc. unfold online. rewrite Hm2. by apply Hres. }
    assert (Haims : aims o st (option_map (unit_at st) res) (put_mgr o m st2)).
    { split; [done|exact Hr2|unfold online; rewrite mgr_put_eq; unfold m; cbn; by rewrite Hm2| | |by rewrite mgr_put_eq].
      - exists st1. by rewrite mgr_put_eq.
      - rewrite mgr_put_eq. intros c Hc. rewrite <- Hp, <- Hl. by apply Hres. }
    destruct res as [a|]; [|by apply wp_ret]. assert (Ha : a ∈ online o st1) by (by apply Hres).
    destruct (online_ref o a st1 Hg1 Ha) as (r & Hra & Ht & _). rewrite Hr in Hra.
    apply wp_bind, (wp_get_ref a r); [by cbn; rewrite Hr2|]. apply wp_ret. unfold getTarget. rewrite Ht.
    cbn in Haims. unfold unit_at in Haims at 1. by rewrite Hra in Haims. }
  apply wp_bind. unfold setCurrentVictim. apply wp_bind, wp_gets, wp_bind. destruct res as [a|] eqn:Hres'.
  - destruct (online_ref o a st1 Hg1) as (r & Hra & _); [by apply Hres|]. apply wp_when; intros _.
    + apply (wp_SendChange o a r); [done..| |intros p]; apply wp_bind_inv, Hend; try done.
      split; [by apply hate_ok_say, Hg1|apply Hg1].
    + apply wp_bind_inv, Hend; congruence.
  - apply wp_ret, wp_bind_inv, Hend; congruence.
Qed.

(** ** Clearing the lists of a creature *)

(** The references of [l] deleted, the managers left as they are. *)
Definition erase (l : list Z) st : ThreatState :=
  mkThreatState (foldl (fun m a => delete a m) (references st) l) (managers st)
    (foldl (fun h a => without a <$> h) (hated_by st) l) (next_reference st) (sent st).



Lemma clear_refs_run l st :
  NoDup l -> (forall a, a ∈ l -> exists r, references st !! a = Some r /\ is_Some (iRefTo r)) ->
  clear_refs l st = Ok () (erase l st).
Proof.
  unfold clear_refs. revert st. induction l as [|a l IH]; intros st Hnd Hl; [by destruct st|].
  apply NoDup_cons in Hnd as [Ha Hnd]. destruct (Hl a) as (r & Hr & u & Hu); [set_solver|]. cbn [for_each].
  assert (Hone : (unlink a;; delete_ref a) st = Ok () (erase [a] st)).
  { assert (Hd : targetObjectDestroyLink a st = Ok () st).
    { unfold targetObjectDestroyLink, deref_target. erewrite bind_run; [reflexivity|].
      erewrite bind_run by (unfold get_ref; by rewrite Hr). unfold getTarget. by rewrite Hu. }
    unfold unlink. erewrite bind_run; [|erewrite bind_run by exact Hd; erewrite bind_run by reflexivity; reflexivity].
    unfold delete_ref. erewrite bind_run; [|unfold get_ref; cbn; rewrite (alter_Some _ _ _ _ Hr), lookup_insert_eq; reflexivity].
    erewrite bind_run by reflexivity. unfold modify, erase. cbn. rewrite without_twice, delete_insert_eq. done. }
  erewrite bind_run by exact Hone. rewrite IH; [done|done|]. intros b Hb. destruct (Hl b) as (s & Hs & Hv); [set_solver|].
  exists s. split; [|done]. cbn. rewrite lookup_delete_ne; [done|]. intros ->. done.
Qed.

(** With the manager put right, it is as if they were deleted one by one. *)
Lemma erase_good o l st :
  good st -> NoDup l -> (forall a, a ∈ l -> exists r, references st !! a = Some r /\ iRefFrom r = Some o) ->
  exists m, good (put_mgr o m (erase l st)) /\ (l <> [] -> iCurrentVictim m = None).
Proof.
  revert st. induction l as [|a l IH]; intros st Hg Hnd Hl.
  - exists (mgr o st). split; [|done]. change (erase [] st) with (mkThreatState (references st) (managers st) (hated_by st) (next_reference st) (sent st)).
    apply (good_same_lists o (mgr o st) st Hg); done.
  - apply NoDup_cons in Hnd as [Ha Hnd]. destruct (Hl a) as (r & Hr & Ho); [set_solver|].
    set (m1 := (mgr o st) <| iThreatContainer ::= remove a |> <| iThreatOfflineContainer ::= remove a |> <| iCurrentVictim := None |>).
    assert (Hg1 : good (with_deleted o a m1 st)).
    { split; [apply (hate_ok_delete o a r); [apply Hg|done..]|]. apply (fits_sub st); [apply Hg|]. intros b s Hs. exists s.
      unfold with_deleted in Hs. cbn in Hs. apply lookup_delete_Some in Hs as [_ Hs]. done. }
    destruct (IH _ Hg1 Hnd) as (m & Hm & Hcur).
    { intros b Hb. destruct (Hl b) as (s & Hs & Hf); [set_solver|]. exists s. split; [|done]. unfold with_deleted. cbn.
      rewrite lookup_delete_ne; [done|]. intros ->. done. }
    assert (E : put_mgr o m (erase l (with_deleted o a m1 st)) = put_mgr o m (erase (a :: l) st)).
    { unfold put_mgr, erase, with_deleted. cbn. by rewrite insert_insert_eq. }
    exists (m <| iCurrentVictim := None |>). split; [|done]. rewrite E in Hm.
    replace (put_mgr o (m <| iCurrentVictim := None |>) (erase (a :: l) st))
      with (put_mgr o (m <| iCurrentVictim := None |>) (put_mgr o m (erase (a :: l) st)))
      by (unfold put_mgr; cbn; by rewrite insert_insert_eq).
    split; [|apply Hm]. apply hate_ok_put_mgr; [apply Hm|..|done]; unfold online, offline; by rewrite mgr_put_eq.
Qed.

Lemma all_references o st a r : good st -> references st !! a = Some r -> iRefFrom r = Some o ->
  a ∈ online o st ++ offline o st.
Proof.
  intros Hg Hr Ho. apply elem_of_app. destruct (iOnline r) eqn:Hon.
  - left. apply (ht_online _ (proj1 Hg)). eauto.
  - right. apply (ht_offline _ (proj1 Hg)). eauto.
Qed.

(** Afterwards nothing refers from the unit; all other references are as before. *)
Lemma clearReferences_keeps o st :
  good st -> returns (clearReferences o) (fun _ st' => good st' /\ mgr o st' = ThreatManager_new
       <| iThreatContainer ::= fun c => c <| iDirty := iDirty (iThreatContainer (mgr o st)) |> |>
       <| iThreatOfflineContainer ::= fun c => c <| iDirty := iDirty (iThreatOfflineContainer (mgr o st)) |> |> /\
     (forall b, references st' !! b = (r ← references st !! b; if bool_decide (iRefFrom r = Some o) then None else Some r)) /\
     sent st' = sent st) st.
Proof.
  intros Hg. destruct (ht_nodup _ (proj1 Hg) o) as [N1 N2]. set (l := online o st ++ offline o st).
  assert (Hl : forall a, a ∈ l -> exists r, references st !! a = Some r /\ iRefFrom r = Some o /\ is_Some (iRefTo r)).
  { intros a [Ha|Ha]%elem_of_app; [apply (ht_online _ (proj1 Hg)) in Ha|apply (ht_offline _ (proj1 Hg)) in Ha];
      destruct Ha as (r & Hr & Ho & _); exists r; destruct (ht_link _ (proj1 Hg) a r Hr) as [-> _]; by split_and!. }
  assert (Hdisj : forall a, a ∈ online o st -> a ∉ offline o st).
  { intros a Ha Hb. apply (ht_online _ (proj1 Hg)) in Ha as (r & Hr & _ & Hon). apply (ht_offline _ (proj1 Hg)) in Hb as (s & Hs & _ & Hoff).
    congruence. }
  assert (Hnd : NoDup l) by (apply NoDup_app; split_and!; done).
  destruct (erase_good o l st Hg Hnd) as (m & Hm & _); [intros a Ha; destruct (Hl a Ha) as (r & ? & ? & _); eauto|].
  assert (Hlook : forall b, references (erase l st) !! b =
    (r ← references st !! b; if bool_decide (iRefFrom r = Some o) then None else Some r)).
  { intros b. unfold erase. cbn. rewrite foldl_delete_lookup. destruct (references st !! b) as [r|] eqn:Hr; cbn; [|by case_bool_decide].
    case_bool_decide as Hb.
    - destruct (Hl b Hb) as (s & Hs & Hf & _). rewrite bool_decide_eq_true_2; [done|congruence].
    - rewrite bool_decide_eq_false_2; [done|]. intros Ho. by apply Hb, (all_references o st b r). }
  assert (Hempty : online o (put_mgr o m (erase l st)) = [] /\ offline o (put_mgr o m (erase l st)) = []).
  { assert (Hno : forall b r, references (put_mgr o m (erase l st)) !! b = Some r -> iRefFrom r <> Some o).
    { intros b r. change (references (put_mgr o m (erase l st))) with (references (erase l st)). rewrite Hlook.
      destruct (references st !! b) as [s|]; cbn; [|done]. case_bool_decide; [done|]. congruence. }
    split; apply elem_of_nil_inv; intros b Hb;
      [apply (ht_online _ (proj1 Hm)) in Hb|apply (ht_offline _ (proj1 Hm)) in Hb];
      destruct Hb as (r & Hr & Hf & _); by apply (Hno b r). }
  unfold clearReferences. apply wp_bind, wp_gets, wp_bind. fold (online o st).
  assert (Hrun1 : clear_refs (online o st) st = Ok () (erase (online o st) st)).
  { apply clear_refs_run; [done|]. intros a Ha. destruct (Hl a) as (r & ? & _ & ?); [unfold l; set_solver|eauto]. }
  unfold wp at 1. rewrite Hrun1. apply wp_bind, wp_upd_mgr, wp_bind, wp_gets. rewrite mgr_put_eq.
  match goal with |- context [put_mgr o ?x (erase (online o st) st)] => set (m1 := x) end.
  change (iThreatList (iThreatOfflineContainer m1)) with (offline o st).
  assert (Hrun2 : clear_refs (offline o st) (put_mgr o m1 (erase (online o st) st)) = Ok () (put_mgr o m1 (erase l st))).
  { rewrite clear_refs_run; [|done|].
    - unfold erase, put_mgr, l. cbn. by rewrite !foldl_app.
    - intros a Ha. destruct (Hl a) as (r & Hr & _ & Ht); [unfold l; set_solver|]. exists r. split; [|done]. cbn.
      rewrite foldl_delete_lookup, bool_decide_eq_false_2; [done|]. intros Hb. by apply (Hdisj a). }
  apply wp_bind. unfold wp at 1. rewrite Hrun2. apply wp_bind, wp_upd_mgr. rewrite mgr_put_eq. apply wp_upd_mgr. rewrite mgr_put_eq.
  match goal with |- context [put_mgr o ?x (put_mgr o _ (put_mgr o m1 _))] => set (m2 := x) end.
  replace (put_mgr o m2 _) with (put_mgr o m2 (put_mgr o m (erase l st))) by (unfold put_mgr; cbn; by rewrite !insert_insert_eq).
  destruct Hempty as [E1 E2]. split; [split; [|apply Hm]|].
  - apply hate_ok_put_mgr; [apply Hm|by rewrite E1|by rewrite E2|done].
  - rewrite mgr_put_eq. split; [done|]. split; [exact Hlook|done].
Qed.

(** The packet, then the lists. *)
Lemma DeleteThreatList_keeps o b st :
  good st -> o ∈ units -> returns (DeleteThreatList o b) (fun _ st' => good st' /\
    online o st' = [] /\ offline o st' = [] /\ iCurrentVictim (mgr o st') = None /\
    forall a, references st' !! a = (r ← references st !! a; if bool_decide (iRefFrom r = Some o) then None else Some r)) st.
Proof.
  intros Hg Ho. unfold DeleteThreatList. apply wp_bind, wp_gets.
  apply returns_bind with (P := fun _ st' => good st' /\ references st' = references st).
  - apply wp_when; intros _; [|done]. eapply wp_send; [by apply writes_guid, unit_width|pose proof (guid_length o); lia|].
    intros p. split; [|done]. split; [by apply hate_ok_say, Hg|apply Hg].
  - intros [] st1 [Hg1 Hr1]. eapply returns_mono; [by apply clearReferences_keeps|]. cbn beta.
    intros _ st2 (Hg2 & Hm & Hr2 & _). split; [done|]. unfold online, offline. rewrite Hm. by rewrite Hr1 in Hr2.
Qed.

(** ** The references to a unit *)

(** The loops over them, when each turn keeps every reference. *)
Lemma each_hater_keeps u body :
  (forall a st, good st -> a ∈ haters u st -> keeps (body a) st) ->
  forall fuel st pre l, good st -> haters u st = pre ++ l -> (length l <= fuel)%nat ->
    keeps (each_hater fuel u (head l) body) st.
Proof.
  intros Hbody fuel. induction fuel as [|fuel IH]; intros st pre l Hg Hl Hfuel.
  - destruct l; cbn in Hfuel; [|lia]. apply wp_ret. split; [done|apply keeps_refs_refl].
  - destruct l as [|a post]; [apply wp_ret; split; [done|apply keeps_refs_refl]|]. cbn [head each_hater].
    assert (Ha : a ∈ haters u st) by (rewrite Hl; set_solver).
    eapply returns_bind; [by apply Hbody|]. cbn beta. intros [] st1 [Hg1 Hw1].
    destruct (hater_ref u a st Hg Ha) as (r & o & Hr & _). destruct (kr_refs _ _ Hw1 a r Hr) as (r1 & Hr1 & _).
    apply wp_bind, (wp_get_ref a r1); [done|]. apply wp_bind, wp_gets.
    destruct (kr_haters _ _ Hw1 u) as [l1 Hl1]. rewrite Hl, app_assoc in Hl1.
    assert (Hn : a ∉ l1 ++ pre).
    { pose proof (ht_nodup_hated _ (proj1 Hg1) u) as Hnd. rewrite Hl1 in Hnd. by destruct (NoDup_split_absent _ _ _ Hnd). }
    rewrite Hl1, next_in_split by done. eapply returns_mono.
    + apply (IH st1 ((l1 ++ pre) ++ [a])); [done|by rewrite Hl1, <- !app_assoc|cbn in Hfuel; lia].
    + cbn beta. intros _ st2 [Hg2 Hw2]. split; [done|]. by eapply keeps_refs_trans.
Qed.

Lemma for_haters_keeps u body st :
  good st -> (forall a st', good st' -> a ∈ haters u st' -> keeps (body a) st') -> keeps (for_haters u body) st.
Proof.
  intros Hg Hbody. apply wp_bind, wp_gets.
  refine (each_hater_keeps u body Hbody _ st [] (haters u st) Hg _ _); [done|lia].
Qed.

Lemma hater_known u a st : good st -> a ∈ haters u st -> is_Some (references st !! a).
Proof. intros Hg Ha. destruct (hater_ref u a st Hg Ha) as (r & o & Hr & _). by eexists. Qed.

Lemma threatAssist_keeps u v t spell st : good st -> v ∈ units -> keeps (threatAssist u v t spell) st.
Proof.
  intros Hg Hv. apply wp_bind, wp_gets. apply for_haters_keeps; [done|]. intros a st1 Hg1 Ha.
  destruct (hater_ref u a st1 Hg1 Ha) as (r & o & Hr & _ & _ & Ho & Hou & Hty). apply wp_bind.
  unfold wp at 1. rewrite (getSourceUnit_run a r o st1 Hr Ho).
  apply wp_bind. unfold wp at 1. rewrite (isValidProcess_run v o (option_map fst spell) st1 Hty).
  apply safe_keeps, safe_when; [done|]. intros _. eapply returns_mono; [by apply doAddThreat_owner_keeps|].
  cbn beta. intros _ st2 (Hg2 & Hw2 & _). done.
Qed.

Lemma haters_addTempThreat_keeps u t apply_ st : good st -> keeps (haters_addTempThreat u t apply_) st.
Proof.
  intros Hg. apply for_haters_keeps; [done|]. intros a st1 Hg1 Ha. apply safe_keeps.
  pose proof (hater_known u a st1 Hg1 Ha) as Hs. destruct apply_; [|by apply resetTempThreat_safe].
  destruct Hs as [r Hr]. apply wp_bind, (wp_get_ref a r); [done|]. apply safe_when; [done|]. intros _.
  apply addTempThreat_safe; [done|by eexists].
Qed.

Lemma haters_addThreatPercent_keeps u p st : good st -> keeps (haters_addThreatPercent u p) st.
Proof.
  intros Hg. apply for_haters_keeps; [done|]. intros a st1 Hg1 Ha. apply safe_keeps, addThreatPercent_safe; [done|].
  by apply (hater_known u).
Qed.

Lemma set_state_keeps_refs a b st : good st -> is_Some (references st !! a) -> keeps (setOnlineOfflineState a b) st.
Proof.
  intros Hg Ha. eapply returns_mono; [by apply set_state_keeps|]. cbn beta. intros _ st1 (Hg1 & Ht & _).
  split; [done|]. by eapply keeps_refs_touches.
Qed.

Lemma haters_setOnlineOfflineState_keeps u b st : good st -> keeps (haters_setOnlineOfflineState u b) st.
Proof.
  intros Hg. apply for_haters_keeps; [done|]. intros a st1 Hg1 Ha. apply set_state_keeps_refs; [done|]. by apply (hater_known u).
Qed.

Lemma updateThreatTables_keeps u st : good st -> keeps (updateThreatTables u) st.
Proof.
  intros Hg. apply for_haters_keeps; [done|]. intros a st1 Hg1 Ha.
  eapply returns_mono; [apply updateOnlineStatus_keeps; [done|by apply (hater_known u)]|]. cbn beta.
  intros _ st2 (Hg2 & Ht & _). split; [done|]. by eapply keeps_refs_touches.
Qed.

Lemma setOnlineOfflineState_of_keeps u o b st : good st -> keeps (setOnlineOfflineState_of u o b) st.
Proof.
  intros Hg. apply wp_bind, wp_gets.
  assert (Hloop : forall fuel pre l, haters u st = pre ++ l -> (length l <= fuel)%nat -> keeps (set_state_of fuel u (head l) o b) st).
  { induction fuel as [|fuel IH]; intros pre l Hl Hfuel.
    - destruct l; cbn in Hfuel; [|lia]. apply wp_ret. split; [done|apply keeps_refs_refl].
    - destruct l as [|a post]; [apply wp_ret; split; [done|apply keeps_refs_refl]|]. cbn [head set_state_of].
      assert (Ha : a ∈ haters u st) by (rewrite Hl; set_solver).
      destruct (hater_ref u a st Hg Ha) as (r & q & Hr & _ & _ & Ho & _).
      apply wp_bind, wp_gets, wp_bind. unfold wp at 1. rewrite (getSourceUnit_run a r q st Hr Ho).
      destruct (q =? o); [by apply set_state_keeps_refs; [|eexists]|].
      assert (Hn : a ∉ pre).
      { pose proof (ht_nodup_hated _ (proj1 Hg) u) as Hnd. rewrite Hl in Hnd. by destruct (NoDup_split_absent _ _ _ Hnd). }
      rewrite Hl, next_in_split by done. apply (IH (pre ++ [a])); [by rewrite Hl, <- app_assoc|cbn in Hfuel; lia]. }
  by apply (Hloop _ []).
Qed.

(** ** Deleting references to a unit *)

(** The reference is gone; the others are as before. *)
Lemma removal_keeps a st (Q : () -> ThreatState -> Prop) X :
  good st -> is_Some (references st !! a) ->
  (forall st', good st' -> references st' = delete a (references st) -> (forall u, haters u st' = without a (haters u st)) ->
     Q () st') ->
  wp (removeReference a;; delete_ref a) Q X st.
Proof.
  intros Hg Ha HQ. apply wp_bind. unfold removeReference. apply wp_bind. unfold invalidate.
  apply wp_bind. pose proof (set_state_keeps a false st Hg Ha) as Hs. unfold returns in Hs.
  eapply wp_mono; [exact Hs| |intros _ _ []]. cbn beta. intros [] st1 (Hg1 & Ht1 & (r1 & Hr1 & Hoff) & _ & _).
  destruct (proj2 Hg1 a r1 Hr1) as (Hu & o & Ho & Hou & _).
  apply wp_bind, wp_modify, (wp_upd_ref a _ r1); [exact Hr1|].
  set (r2 := r1 <| iRefTo := None |>). apply wp_bind, (wp_get_ref a r2); [apply lookup_insert_eq|].
  assert (Hs2 : getSource r2 = Some o) by exact Ho. rewrite Hs2. apply wp_bind, wp_gets.
  change (UEV_THREAT_REF_REMOVE_FROM_LIST =? UEV_THREAT_REF_THREAT_CHANGE) with false.
  change (UEV_THREAT_REF_REMOVE_FROM_LIST =? UEV_THREAT_REF_ONLINE_STATUS) with false.
  change (UEV_THREAT_REF_REMOVE_FROM_LIST =? UEV_THREAT_REF_REMOVE_FROM_LIST) with true. cbn iota.
  match goal with |- context [mgr o ?s] => change (mgr o s) with (mgr o st1) end.
  assert (Hout : a ∉ online o st1) by (rewrite (ht_online _ (proj1 Hg1)); intros (s & Hs' & _ & Hon); congruence).
  rewrite bool_decide_eq_false_2 by (intros Hc; by apply Hout, (ht_victim _ (proj1 Hg1))).
  apply wp_bind, wp_ret, wp_bind. eapply (wp_SendRemove o a r2); [done|apply lookup_insert_eq|done|]. intros p.
  apply wp_bind, (wp_get_ref a r2); [apply lookup_insert_eq|]. change (iOnline r2) with (iOnline r1). rewrite Hoff.
  apply wp_upd_mgr. apply wp_bind, (wp_get_ref a r2); [apply lookup_insert_eq|]. apply wp_bind, wp_modify, wp_modify.
  match goal with |- context [put_mgr o ?x] => set (m := x) end.
  assert (Hgd : good (with_deleted o a m (say p st1))).
  { split.
    - apply (hate_ok_delete o a r1); [by apply hate_ok_say, Hg1|done..| | |].
      + cbn. by rewrite without_absent.
      + done.
      + cbn. intros c Hc. apply (ht_victim _ (proj1 Hg1)) in Hc. rewrite elem_of_without. split; [by intros ->|done].
    - apply (fits_sub st1); [apply Hg1|]. intros b s Hs'. exists s. unfold with_deleted in Hs'. cbn in Hs'.
      apply lookup_delete_Some in Hs' as [_ Hs']. done. }
  match goal with |- Q () ?s => replace s with (with_deleted o a m (say p st1)) end.
  - apply HQ; [done| |].
    + unfold with_deleted. cbn. apply map_eq. intros b. destruct (decide (b = a)) as [->|Hb]; [by rewrite !lookup_delete_eq|].
      rewrite !lookup_delete_ne by done. by rewrite (tc_other _ _ _ Ht1).
    + intros u. rewrite haters_deleted. change (haters u (say p st1)) with (haters u st1). unfold haters.
      by rewrite (tc_hated _ _ _ Ht1).
  - unfold with_deleted, say, put_mgr, put_ref, m. cbn. by rewrite without_twice, delete_insert_eq.
Qed.

(** Which of the references to [u] go, when [d] says it of their owners. *)
Definition doomed_of (u : Z) (d : Z -> bool) (r : HostileReference) : bool :=
  bool_decide (iRefTo r = Some u) && match iRefFrom r with Some o => d o | None => false end.

Definition spared (u : Z) (d : Z -> bool) (refs : gmap Z HostileReference) : gmap Z HostileReference :=
  filter (fun ar => doomed_of u d ar.2 = false) refs.

(** Nothing goes when nothing is left to look at. *)
Lemma spared_all u (d : Z -> bool) pre st :
  good st -> haters u st = pre -> (forall a r, a ∈ pre -> references st !! a = Some r -> doomed_of u d r = false) ->
  spared u d (references st) = references st.
Proof.
  intros Hg Hl Hpre. apply map_filter_id. intros b r Hr. cbn. destruct (doomed_of u d r) eqn:Hb; [|done].
  rewrite (Hpre b r) in Hb; [done| |done]. rewrite <- Hl. apply (ht_hated _ (proj1 Hg)). exists r. split; [done|].
  unfold doomed_of in Hb. apply andb_true_iff in Hb as [Hb _]. by apply bool_decide_eq_true in Hb.
Qed.

Lemma each_deleting_keeps u (d : Z -> bool) doomed :
  (forall a r o st, references st !! a = Some r -> iRefFrom r = Some o -> doomed a st = Ok (d o) st) ->
  forall fuel st pre l, good st -> haters u st = pre ++ l -> (length l <= fuel)%nat ->
    (forall a r, a ∈ pre -> references st !! a = Some r -> doomed_of u d r = false) ->
    returns (each_deleting fuel u (head l) doomed false)
      (fun _ st' => good st' /\ references st' = spared u d (references st)) st.
Proof.
  intros Hd fuel. induction fuel as [|fuel IH]; intros st pre l Hg Hl Hfuel Hpre.
  all: destruct l as [|a post]; [|cbn in Hfuel; try lia].
  1,2: apply wp_ret; split; [done|]; symmetry; apply (spared_all u d pre); [done|by rewrite app_nil_r in Hl|done].
  assert (Ha : a ∈ haters u st) by (rewrite Hl; set_solver).
  destruct (hater_ref u a st Hg Ha) as (r & o & Hr & Hto & _ & Ho & _).
  pose proof (ht_nodup_hated _ (proj1 Hg) u) as Hnd. rewrite Hl in Hnd. destruct (NoDup_split_absent _ _ _ Hnd) as [Hn Hn'].
  cbn [head each_deleting]. apply wp_bind, (wp_get_ref a r); [done|]. apply wp_bind, wp_gets. rewrite Hl, next_in_split by done.
  apply wp_bind. unfold wp at 1. rewrite (Hd a r o st Hr Ho). rewrite andb_false_r. apply wp_bind. destruct (d o) eqn:Hdo.
  - cbn [when]. apply removal_keeps; [done|by eexists|]. intros st1 Hg1 Hr1 Hh1.
    eapply returns_mono; [apply (IH st1 pre post Hg1); [|lia|]|].
    + by rewrite Hh1, Hl, without_app, without_cons_eq, !without_absent.
    + intros b s Hb. rewrite Hr1. intros [_ Hs]%lookup_delete_Some. by apply (Hpre b).
    + cbn beta. intros _ st2 [Hg2 Hr2]. split; [done|]. rewrite Hr2, Hr1. unfold spared. rewrite map_filter_delete.
      apply delete_id. apply map_lookup_filter_None. right. intros s Hs. assert (s = r) as -> by congruence. cbn.
      unfold doomed_of. by rewrite Hto, Ho, Hdo, bool_decide_eq_true_2.
  - cbn [when]. apply wp_ret. apply (IH st (pre ++ [a]) post Hg); [by rewrite Hl, <- app_assoc|lia|].
    intros b s [Hb| ->%list_elem_of_singleton]%elem_of_app Hs; [by apply (Hpre b)|].
    assert (s = r) as -> by congruence. unfold doomed_of. by rewrite Ho, Hdo, andb_false_r.
Qed.

Lemma delete_haters_keeps u (d : Z -> bool) doomed st :
  (forall a r o st, references st !! a = Some r -> iRefFrom r = Some o -> doomed a st = Ok (d o) st) ->
  good st -> returns (delete_haters u doomed false) (fun _ st' => good st' /\ references st' = spared u d (references st)) st.
Proof.
  intros Hd Hg. apply wp_bind, wp_gets. apply (each_deleting_keeps u d doomed Hd _ st []); [done..|set_solver].
Qed.

Lemma source_says (d : Z -> bool) a r o st : references st !! a = Some r -> iRefFrom r = Some o ->
  (o ← getSourceUnit a; mret (d o)) st = Ok (d o) st.
Proof. intros Hr Ho. erewrite bind_run by (by apply (getSourceUnit_run a r o)). done. Qed.

(** One creature has at most one reference to the unit, so to stop at it is no loss. *)
Lemma each_deleting_once u o : forall fuel st pre l,
  good st -> haters u st = pre ++ l -> (length l <= fuel)%nat ->
  (forall a r, a ∈ pre -> references st !! a = Some r -> doomed_of u (fun q => q =? o) r = false) ->
  returns (each_deleting fuel u (head l) (fun ref => q ← getSourceUnit ref; mret (q =? o)) true)
    (fun _ st' => good st' /\ references st' = spared u (fun q => q =? o) (references st)) st.
Proof.
  induction fuel as [|fuel IH]; intros st pre l Hg Hl Hfuel Hpre.
  all: destruct l as [|a post]; [|cbn in Hfuel; try lia].
  1,2: apply wp_ret; split; [done|]; symmetry; apply (spared_all u _ pre); [done|by rewrite app_nil_r in Hl|done].
  assert (Ha : a ∈ haters u st) by (rewrite Hl; set_solver).
  destruct (hater_ref u a st Hg Ha) as (r & q & Hr & Hto & Hu & Ho & _).
  pose proof (ht_nodup_hated _ (proj1 Hg) u) as Hnd. rewrite Hl in Hnd. destruct (NoDup_split_absent _ _ _ Hnd) as [Hn Hn'].
  cbn [head each_deleting]. apply wp_bind, (wp_get_ref a r); [done|]. apply wp_bind, wp_gets. rewrite Hl, next_in_split by done.
  apply wp_bind. unfold wp at 1. rewrite (source_says (fun q => q =? o) a r q st Hr Ho), andb_true_r. apply wp_bind.
  destruct (Z.eqb_spec q o) as [->|Hq]; cbn [when].
  - apply removal_keeps; [done|by eexists|]. intros st1 Hg1 Hr1 _. apply wp_ret. split; [done|]. rewrite Hr1.
    apply map_eq. intros b. unfold spared. destruct (decide (b = a)) as [->|Hb].
    + rewrite lookup_delete_eq. symmetry. apply map_lookup_filter_None. right. intros s Hs. assert (s = r) as -> by congruence.
      cbn. unfold doomed_of. by rewrite Hto, Ho, Z.eqb_refl, bool_decide_eq_true_2.
    + rewrite lookup_delete_ne by done. destruct (references st !! b) as [s|] eqn:Hs.
      * symmetry. apply map_lookup_filter_Some. split; [done|]. cbn. unfold doomed_of. apply andb_false_iff.
        destruct (decide (iRefTo s = Some u)) as [Ht|Ht]; [right|left; by rewrite bool_decide_eq_false_2].
        destruct (iRefFrom s) as [q|] eqn:Hf; [|done]. apply Z.eqb_neq. intros ->. apply Hb.
        destruct (ht_link _ (proj1 Hg) b s Hs) as [Ht' _]. apply (ht_unique _ (proj1 Hg) b a s r); congruence.
      * symmetry. apply map_lookup_filter_None. by left.
  - apply wp_ret. cbn iota. apply (IH st (pre ++ [a]) post Hg); [by rewrite Hl, <- app_assoc|lia|].
    intros b s [Hb| ->%list_elem_of_singleton]%elem_of_app Hs; [by apply (Hpre b)|].
    assert (s = r) as -> by congruence. unfold doomed_of. rewrite Ho. apply andb_false_iff. right. by apply Z.eqb_neq.
Qed.

(** What each of them leaves. *)
Lemma deleteReferences_keeps u st : good st ->
  returns (deleteReferences u) (fun _ st' => good st' /\ references st' = spared u (fun _ => true) (references st)) st.
Proof. intros Hg. by apply delete_haters_keeps. Qed.

Lemma deleteReferencesForFaction_keeps u f st : good st ->
  returns (deleteReferencesForFaction u f)
    (fun _ st' => good st' /\ references st' = spared u (fun o => faction o =? f) (references st)) st.
Proof. intros Hg. apply delete_haters_keeps; [|done]. apply (source_says (fun o => faction o =? f)). Qed.

Lemma UpdateVisibility_keeps u st : good st ->
  returns (UpdateVisibility u)
    (fun _ st' => good st' /\ references st' = spared u (fun o => negb (canSeeOrDetect o u)) (references st)) st.
Proof. intros Hg. apply delete_haters_keeps; [|done]. apply (source_says (fun o => negb (canSeeOrDetect o u))). Qed.

Lemma deleteReference_keeps u o st : good st ->
  returns (deleteReference u o)
    (fun _ st' => good st' /\ references st' = spared u (fun q => q =? o) (references st)) st.
Proof. intros Hg. apply wp_bind, wp_gets. apply (each_deleting_once u o _ st []); [done..|set_solver]. Qed.

End Ops.
