(* ===== verification/ThreatVictim.v ===== *)
(** * Threat: whom a creature attacks

    The order of its list after it was brought up to date, and the rule by which the
    next victim is chosen from it: who is attacked now is kept until someone else's
    threat is above 110% of his within reach of melee, or above 130%. *)

From Stdlib Require Import SpecFloat Sorted.
From S2P Require Import Prelude Float32 ByteBuffer Wire WireProps Packet Maps Threat ThreatInv ThreatOps.

(** ** The order *)

(** [x] is not after [y]: its threat is not less. *)
Definition not_less (x y : f32) : Prop := f32_ltb x y = false.

Lemma not_less_trans x y z : number x = true -> number y = true -> number z = true ->
  not_less x y -> not_less y z -> not_less x z.
Proof.
  unfold not_less. rewrite <- !not_true_iff_false, !ltb_key. unfold key_lt. intros Hx Hy Hz H1 H2 (_ & _ & H3).
  apply H1. split_and!; [done..|]. destruct (Z.eq_dec (order_key x).1.1 (order_key y).1.1);
    destruct (Z.eq_dec (order_key x).1.2 (order_key y).1.2); apply Decidable.not_not; try (unfold Decidable.decidable; lia);
    intros H4; apply H2; split_and!; try done; lia.
Qed.

Definition sorted_threats (l : list (Z * f32)) : Prop := StronglySorted (fun x y => not_less x.2 y.2) l.

Lemma insert_ref_sorted x l :
  number x.2 = true -> Forall (fun y => number y.2 = true) l -> sorted_threats l -> sorted_threats (insert_ref x l).
Proof.
  intros Hx Hl Hs. induction Hs as [|y l Hs IH Hy]; [repeat constructor|]. apply Forall_cons in Hl as [Hny Hl].
  cbn [insert_ref]. destruct (f32_ltb x.2 y.2) eqn:Hlt.
  - constructor; [by apply IH|]. rewrite insert_ref_perm. constructor; [|done]. unfold not_less.
    apply ltb_key in Hlt. apply not_true_iff_false. rewrite ltb_key. unfold key_lt in *. lia.
  - constructor; [by constructor|]. constructor; [done|]. rewrite Forall_forall in Hy, Hl |- *. intros z Hz.
    apply (not_less_trans x.2 y.2 z.2); [done|done|by apply Hl|done|by apply Hy].
Qed.

Lemma sort_refs_sorted l : Forall (fun y => number y.2 = true) l -> sorted_threats (sort_refs l).
Proof.
  induction 1 as [|x l Hx Hl IH]; [constructor|]. cbn [sort_refs foldr]. apply insert_ref_sorted; [done| |done].
  change (foldr insert_ref [] l) with (sort_refs l). by rewrite sort_refs_perm.
Qed.

Section Victim.
Context `{Host, ThreatWorld, !ThreatWorldOk}.
#[local] Set Default Proof Using "All".
Implicit Types (st : ThreatState).

Definition in_order st (l : list Z) : Prop :=
  Forall (fun a => number (threat_at st a) = true) l /\
  StronglySorted (fun a b => not_less (threat_at st a) (threat_at st b)) l.

Lemma by_threat_sorted st l :
  Forall (fun a => number (threat_at st a) = true) l -> in_order st (by_threat st l).
Proof.
  intros Hl. split; [by rewrite by_threat_perm|]. unfold by_threat.
  set (ps := map (fun a => (a, threat_at st a)) l).
  assert (Hps : Forall (fun p => p.2 = threat_at st p.1) (sort_refs ps)).
  { rewrite sort_refs_perm. unfold ps. rewrite Forall_fmap. apply Forall_true. done. }
  assert (Hsorted : sorted_threats (sort_refs ps)).
  { apply sort_refs_sorted. unfold ps. by rewrite Forall_fmap. }
  clearbody ps. induction Hsorted as [|p ps' Hs IH Hp]; [constructor|]. apply Forall_cons in Hps as [E Hps].
  cbn [map]. constructor; [by apply IH|]. rewrite Forall_fmap. rewrite Forall_forall in Hp, Hps |- *. intros q Hq.
  cbn. rewrite <- E, <- (Hps q Hq). by apply Hp.
Qed.

(** ** The rule *)

(** Who cannot be hurt now, or whose control would break. *)
Definition second_choice (o t : Z) : bool := IsImmunedToDamage t o || HasNegativeAuraTakeDamage t.

(** The unit of [a] is attacked in place of that of [c]. *)
Definition takes_over st (o c a : Z) : bool :=
  canCreatureAttack o (unit_at st a) && negb (second_choice o (unit_at st a)) &&
  f32_ltb (f32_mul f32_1_1 (threat_at st c)) (threat_at st a) &&
  (IsWithinMeleeRange o (unit_at st a) || f32_ltb (f32_mul f32_1_3 (threat_at st c)) (threat_at st a)).

(** The comparison with the unit of [a] ends the search: it can be attacked, is
    no second choice, and has no more than 110% of the threat of that of [c]. *)
Definition ends_search st (o c a : Z) : bool :=
  canCreatureAttack o (unit_at st a) && negb (second_choice o (unit_at st a)) &&
  negb (f32_ltb (f32_mul f32_1_1 (threat_at st c)) (threat_at st a)).

(** The entries that are compared with [c]: up to the first that ends the search. *)
Fixpoint compared st (o c : Z) (l : list Z) : list Z :=
  match l with
  | [] => []
  | a :: l => if ends_search st o c a then [] else a :: compared st o c l
  end.

Lemma find_none {A} (f : A -> bool) l : (forall a, a ∈ l -> f a = false) -> List.find f l = None.
Proof.
  induction l as [|a l IH]; intros Hl; [done|]. cbn. rewrite Hl by set_solver. apply IH. intros b Hb. apply Hl. set_solver.
Qed.

Lemma select_loop_rule o restart st pre c post :
  (forall a, a ∈ c :: pre -> exists r, references st !! a = Some r /\ iRefTo r = Some (iUnitGuid r)) -> c ∉ pre ->
  Forall (fun a => number (threat_at st a) = true) pre -> number (threat_at st c) = true ->
  canCreatureAttack o (unit_at st c) = true -> second_choice o (unit_at st c) = false ->
  select_loop o restart false (Some c) (pre ++ c :: post) st =
    Ok (Some (default c (List.find (takes_over st o c) (compared st o c pre)))) st.
Proof.
  intros Hrefs Hc Hnum Hnc Hatt Hfirst.
  destruct (Hrefs c) as (v & Hv & Htv); [set_solver|].
  assert (Hgetv : get_ref c st = Ok v st) by (unfold get_ref; by rewrite Hv).
  assert (Huc : unit_at st c = iUnitGuid v /\ threat_at st c = iThreat v) by (unfold unit_at, threat_at; by rewrite Hv).
  destruct Huc as [Huc Htc]. rewrite Huc in Hatt, Hfirst.
  induction pre as [|a pre IH]; cbn [app select_loop compared].
  - erewrite bind_run by exact Hgetv. unfold getTarget. rewrite Htv. cbn [negb andb]. fold (second_choice o (iUnitGuid v)).
    rewrite Hfirst, Hatt. erewrite bind_run by exact Hgetv. by rewrite Z.eqb_refl.
  - apply Forall_cons in Hnum as [Hna Hnum].
    assert (IH' : select_loop o restart false (Some c) (pre ++ c :: post) st =
      Ok (Some (default c (List.find (takes_over st o c) (compared st o c pre)))) st).
    { apply IH; [|set_solver|done..]. intros b Hb. apply Hrefs. set_solver. }
    destruct (Hrefs a) as (r & Hr & Ht); [set_solver|]. assert (Hac : a <> c) by set_solver.
    erewrite bind_run by (unfold get_ref; by rewrite Hr). unfold getTarget at 1. rewrite Ht. cbn [negb andb].
    fold (second_choice o (iUnitGuid r)). unfold ends_search at 1.
    assert (Hua : unit_at st a = iUnitGuid r) by (unfold unit_at; by rewrite Hr). rewrite Hua.
    destruct (second_choice o (iUnitGuid r)) eqn:Hsec; cbn [negb].
    { rewrite andb_false_r. cbn [andb List.find]. unfold takes_over at 1. rewrite Hua, Hsec, andb_false_r. cbn [andb].
      rewrite bool_decide_eq_false_2 by congruence. destruct pre; exact IH'. }
    destruct (canCreatureAttack o (iUnitGuid r)) eqn:Hcan; cbn [negb andb];
      [|cbn [List.find]; unfold takes_over at 1; rewrite Hua, Hcan; exact IH'].
    erewrite bind_run by exact Hgetv. destruct (Z.eqb_spec c a) as [|_]; [congruence|]. cbn [orb negb].
    rewrite Htc in *. assert (Hn11 : number (f32_mul f32_1_1 (iThreat v)) = true) by (by apply (mul_number false 9227469 (-23))).
    assert (Hra : threat_at st a = iThreat r) by (unfold threat_at; by rewrite Hr). rewrite Hra in *.
    rewrite (leb_negb_ltb _ _ Hna Hn11). destruct (f32_ltb _ (iThreat r)) eqn:Hlt; cbn [negb andb].
    + cbn [List.find]. unfold takes_over at 1. rewrite Hua, Hsec, Hcan, Hra, Htc, Hlt. cbn [negb andb].
      rewrite orb_comm. destruct (IsWithinMeleeRange _ _ || _); [done|exact IH'].
    + assert (Hd : deref_target c st = Ok (iUnitGuid v) st).
      { unfold deref_target. erewrite bind_run by exact Hgetv. unfold getTarget. by rewrite Htv. }
      erewrite bind_run by exact Hd. by rewrite Hatt.
Qed.

Lemma compared_ext st st' o c l :
  references st' = references st -> compared st' o c l = compared st o c l.
Proof.
  intros Hr. induction l as [|a l IH]; [done|]. cbn. rewrite IH. unfold ends_search, unit_at, threat_at.
  by rewrite Hr.
Qed.

(** In a list in order nobody after the end of the search takes over. *)
Lemma compared_in_order st o c l :
  in_order st l -> number (threat_at st c) = true ->
  List.find (takes_over st o c) (compared st o c l) = List.find (takes_over st o c) l.
Proof.
  intros [Hnum Hsort] Hnc. induction l as [|a l IH]; [done|]. cbn [compared].
  apply Forall_cons in Hnum as [Hna Hnum]. apply StronglySorted_inv in Hsort as [Hsort Ha].
  assert (Hn11 : number (f32_mul f32_1_1 (threat_at st c)) = true) by (by apply (mul_number false 9227469 (-23))).
  destruct (ends_search st o c a) eqn:He; [|cbn [List.find]; by rewrite IH].
  unfold ends_search in He. apply andb_true_iff in He as [_ Hlt]. apply negb_true_iff in Hlt.
  symmetry. apply find_none. intros b Hb.
  assert (Hnb : number (threat_at st b) = true).
  { apply elem_of_cons in Hb as [->|Hb]; [done|]. rewrite Forall_forall in Hnum. by apply Hnum. }
  assert (Hle : f32_leb (threat_at st b) (f32_mul f32_1_1 (threat_at st c)) = true).
  { apply elem_of_cons in Hb as [->|Hb]; [by rewrite leb_negb_ltb, Hlt|].
    rewrite Forall_forall in Hnum, Ha. apply (not_ltb_leb_trans _ (threat_at st a)); [done|by apply Ha|].
    by rewrite leb_negb_ltb, Hlt. }
  rewrite leb_negb_ltb in Hle by done. unfold takes_over.
  apply negb_true_iff in Hle. by rewrite Hle, andb_false_r.
Qed.

(** The part of a list before [c]. *)
Fixpoint before (c : Z) (l : list Z) : list Z :=
  match l with
  | [] => []
  | a :: l => if a =? c then [] else a :: before c l
  end.

Lemma before_split c l : c ∈ l -> exists post, l = before c l ++ c :: post /\ c ∉ before c l.
Proof.
  induction l as [|a l IH]; intros Hc; [by apply not_elem_of_nil in Hc|]. cbn [before]. destruct (Z.eqb_spec a c) as [->|Ha].
  - exists l. split; [done|]. apply not_elem_of_nil.
  - destruct IH as (post & Hl & Hn); [set_solver|]. exists post. cbn. split; [by f_equal|set_solver].
Qed.

Lemma in_order_app st l1 l2 : in_order st (l1 ++ l2) -> in_order st l1.
Proof.
  intros [Hn Hs]. apply Forall_app in Hn as [Hn _]. split; [done|]. clear Hn. induction l1 as [|a l1 IH]; [constructor|].
  apply StronglySorted_inv in Hs as [Hs Ha]. apply Forall_app in Ha as [Ha _]. constructor; [by apply IH|done].
Qed.

Lemma threats_same st st' : references st' = references st ->
  (forall a, threat_at st' a = threat_at st a) /\ (forall a, unit_at st' a = unit_at st a).
Proof. unfold threat_at, unit_at. intros ->. done. Qed.

Lemma in_order_same st st' l : references st' = references st -> in_order st l -> in_order st' l.
Proof.
  intros Hr [Hn Hs]. destruct (threats_same st st' Hr) as [Et _]. split.
  - apply (Forall_impl _ _ _ Hn). intros a. by rewrite Et.
  - clear Hn. induction Hs as [|a l Hl IH Ha]; constructor; [done|].
    apply (Forall_impl _ _ _ Ha). intros b. by rewrite !Et.
Qed.

Lemma find_ext_in {A} (f g : A -> bool) l : (forall a, f a = g a) -> List.find f l = List.find g l.
Proof. intros Hfg. induction l as [|a l IH]; [done|]. cbn. by rewrite Hfg, IH. Qed.

End Victim.
