(* ===== verification/ThreatSession.v ===== *)
(** * Threat: sessions

    Every operation of the threat and hate lists, in any order its callers allow:
    the invariant holds and no operation fails.  Whom added threat makes hated, what
    deleting references leaves, and the rule of the next victim. *)

From Stdlib Require Import SpecFloat Sorted.
From S2P Require Import Prelude Float32 ByteBuffer Wire WireProps Packet Maps Threat ThreatInv ThreatOps ThreatVictim.

(** The operations, as the creature, the spell, the unit that is hated or dies, and
    the update of the world call them. *)
Inductive ThreatOp :=
| TAdd (o : Z) (victim : option Z) (threat : f32) (school : Z) (spell : option SpellInfo)
| TModifyPercent (o : Z) (victim : option Z) (percent : Z)
| TGetThreat (o : Z) (victim : option Z) (also : bool)
| TNextVictim (o : Z)
| TTaunt (o : Z) (taunter : option Z)
| TTauntFade (o : Z) (taunter : option Z)
| TNeedUpdate (o time : Z)
| TSendUpdate (o : Z)
| TResetAll (o : Z)
| TReset (predicate : Z -> bool) (o : Z)
| TDeleteList (o : Z) (canHave : bool)
| TAssist (u victim : Z) (baseThreat : f32) (spell : option (SpellInfo * Z))
| TTemp (u : Z) (threat : f32) (apply : bool)
| TPercent (u percent : Z)
| TOnline (u : Z) (isOnline : bool)
| TOnlineOf (u creature : Z) (isOnline : bool)
| TUpdateTables (u : Z)
| TDeleteAll (u : Z)
| TDeleteFaction (u f : Z)
| TDeleteOne (u creature : Z)
| TVisibility (u : Z).

Definition no_threat_yet : ThreatState := mkThreatState ∅ ∅ ∅ 0 [].

Section Session.
Context `{Host, ThreatWorld}.
Implicit Types (st : ThreatState).

Definition run_threat (op : ThreatOp) : TM () :=
  match op with
  | TAdd o victim threat school spell => addThreat o victim threat school spell
  | TModifyPercent o victim percent => modifyThreatPercent o victim percent
  | TGetThreat o victim also => getThreat o victim also;; mret ()
  | TNextVictim o => getHostilTarget o;; mret ()
  | TTaunt o taunter => tauntApply o taunter
  | TTauntFade o taunter => tauntFadeOut o taunter
  | TNeedUpdate o time => isNeedUpdateToClient o time;; mret ()
  | TSendUpdate o => SendThreatListUpdate o
  | TResetAll o => resetAllAggro o
  | TReset predicate o => resetAggro predicate o
  | TDeleteList o canHave => DeleteThreatList o canHave
  | TAssist u victim baseThreat spell => threatAssist u victim baseThreat spell
  | TTemp u threat apply => haters_addTempThreat u threat apply
  | TPercent u percent => haters_addThreatPercent u percent
  | TOnline u isOnline => haters_setOnlineOfflineState u isOnline
  | TOnlineOf u creature isOnline => setOnlineOfflineState_of u creature isOnline
  | TUpdateTables u => updateThreatTables u
  | TDeleteAll u => deleteReferences u
  | TDeleteFaction u f => deleteReferencesForFaction u f
  | TDeleteOne u creature => deleteReference u creature
  | TVisibility u => UpdateVisibility u
  end.

(** What the callers see to: only creatures have threat added and select victims
    ([Unit::CanHaveThreatList]), the latter from a list that is not empty. *)
Definition legal_threat st (op : ThreatOp) : Prop :=
  match op with
  | TAdd o victim _ _ _ => o ∈ units /\ GetTypeId o = TYPEID_UNIT /\ (forall v, victim = Some v -> v ∈ units)
  | TNextVictim o => o ∈ units /\ GetTypeId o = TYPEID_UNIT /\ online o st <> []
  | TSendUpdate o | TDeleteList o _ => o ∈ units
  | TAssist _ victim _ _ => victim ∈ units
  | _ => True
  end.

Inductive threat_reachable : ThreatState -> Prop :=
| tr_start : threat_reachable no_threat_yet
| tr_step st st' op : threat_reachable st -> legal_threat st op -> run_threat op st = Ok () st' -> threat_reachable st'.

Lemma no_threat_good : good no_threat_yet.
Proof.
  split; [|by intros a r].
  split; unfold online, offline, mgr, haters; cbn; try done.
  - by intros a [].
  - intros o a. split; [intros []%not_elem_of_nil|by intros (r & Hr & _)].
  - intros o a. split; [intros []%not_elem_of_nil|by intros (r & Hr & _)].
  - intros o. split; constructor.
  - intros u a. split; [intros []%not_elem_of_nil|by intros (r & Hr & _)].
  - intros u. constructor.
Qed.

Context `{!ThreatWorldOk}.
#[local] Set Default Proof Using "All".

Lemma then_good {A} (m : TM A) (P : A -> ThreatState -> Prop) st :
  returns m P st -> (forall x st', P x st' -> good st') -> returns (m;; mret ()) (fun _ st' => good st') st.
Proof. intros Hm HP. eapply returns_bind; [exact Hm|]. cbn beta. intros x st' Hx. apply wp_ret. by apply (HP x). Qed.

Lemma just_good {A} (m : TM A) (P : A -> ThreatState -> Prop) st :
  returns m P st -> (forall x st', P x st' -> good st') -> returns m (fun _ st' => good st') st.
Proof. intros Hm HP. eapply returns_mono; [exact Hm|]. cbn beta. intros x st'. apply HP. Qed.

Lemma safe_good m st : safe m st -> returns m (fun _ st' => good st') st.
Proof. intros Hs. eapply just_good; [exact Hs|]. by intros x st' []. Qed.
Lemma keeps_good m st : keeps m st -> returns m (fun _ st' => good st') st.
Proof. intros Hs. eapply just_good; [exact Hs|]. by intros x st' []. Qed.

Create HintDb threat.
#[local] Hint Resolve addThreat_keeps modifyThreatPercent_safe tauntApply_safe tauntFadeOut_safe isNeedUpdateToClient_safe
  SendThreatListUpdate_safe resetAllAggro_safe resetAggro_safe threatAssist_keeps haters_addTempThreat_keeps
  haters_addThreatPercent_keeps haters_setOnlineOfflineState_keeps setOnlineOfflineState_of_keeps
  updateThreatTables_keeps deleteReferences_keeps deleteReferencesForFaction_keeps deleteReference_keeps
  UpdateVisibility_keeps DeleteThreatList_keeps : threat.

Lemma run_threat_good op st : good st -> legal_threat st op -> returns (run_threat op) (fun _ st' => good st') st.
Proof.
  intros Hg Hl. destruct op as [o [v|] dt school spell|o v p|o v also|o|o v|o v|o time|o|o|p o|o b|u v t spell|u t b|u p|u b
    |u o b|u|u|u f|u o|u]; cbn [legal_threat run_threat] in Hl |- *.
  1: destruct Hl as (Ho & Hty & Hv).
  2: by apply wp_ret.
  3: destruct (getThreat_run o v also st Hg) as [t Hrun]; apply wp_bind; unfold wp at 1; rewrite Hrun; by apply wp_ret.
  3: destruct Hl as (Ho & Hty & Hne); eapply then_good; [by apply getHostilTarget_aims|intros x st'; apply am_good].
  5: eapply then_good; [by apply isNeedUpdateToClient_safe|by intros x st' []].
  all: first [solve [apply safe_good; auto with threat] | solve [apply keeps_good; auto with threat] |
    eapply just_good; [solve [eauto with threat]|by intros x st' []]].
Qed.

Lemma reachable_good st : threat_reachable st -> good st.
Proof.
  induction 1 as [|st st' op _ IH Hl Hrun]; [apply no_threat_good|].
  pose proof (run_threat_good op st IH Hl) as Hr. unfold returns, wp in Hr. by rewrite Hrun in Hr.
Qed.

(** ** The properties *)

(** C7.  Whatever operations the creatures, spells and units call, in whatever order
    their callers allow: every reference is between units there are and is in exactly
    the one list of its creature that its state says and in the list of the unit it
    refers to, a creature has one reference to a unit, and its victim is one it can
    fight; every operation that is allowed then ends without an error. *)
Theorem threat_session (st : ThreatState) :
  threat_reachable st ->
  hate_ok st /\ fits st /\
  forall op, legal_threat st op -> exists st', run_threat op st = Ok () st' /\ threat_reachable st'.
Proof.
  intros Hr. pose proof (reachable_good st Hr) as Hg. split; [apply Hg|]. split; [apply Hg|]. intros op Hl.
  pose proof (run_threat_good op st Hg Hl) as Hrun. apply returns_Ok in Hrun as ([] & st' & Hrun & _).
  exists st'. split; [done|]. by apply (tr_step st st' op).
Qed.

(** C16.  A creature that attacks someone it can attack, who is not a second choice,
    asks for its next victim: the list is brought in order if it was marked, and its
    entries before the current victim are compared with him one after the other, up
    to the first that can be attacked, is no second choice and has no more than 110%
    of his threat.  The first of them who can be attacked, is no second choice, and
    has more than 110% of his threat within melee reach or more than 130% of it, is
    the new victim; if there is none the current victim stays.  The reference is set
    and its unit returned; no threat changes.  When the list was marked, or in order
    though it was not marked, it is in order afterwards, and whoever of all those
    before the current victim takes over first is the new victim; the loss of threat
    that does not mark the list (ThreatManager.cpp:527) can leave it otherwise, and
    then somebody who would take over is passed over.  The creature is one of the units,
    the books are in order (as in every reachable state, see [threat_session]) and
    the threats of its list are numbers. *)
Theorem next_victim (o c : Z) (st : ThreatState) :
  good st -> o ∈ units -> GetTypeId o = TYPEID_UNIT ->
  iCurrentVictim (mgr o st) = Some c ->
  Forall (fun a => number (threat_at st a) = true) (online o st) ->
  canCreatureAttack o (unit_at st c) = true -> second_choice o (unit_at st c) = false ->
  let rivals := before c (up_to_date o st) in
  let v := default c (List.find (takes_over st o c) (compared st o c rivals)) in
  returns (getHostilTarget o)
    (fun t st' => good st' /\ references st' = references st /\ online o st' = up_to_date o st /\
       iCurrentVictim (mgr o st') = Some v /\ t = Some (unit_at st v) /\
       (iDirty (iThreatContainer (mgr o st)) = true \/ in_order st (online o st) ->
        in_order st (online o st') /\ v = default c (List.find (takes_over st o c) rivals))) st.
Proof.
  intros Hg Ho Hty Hcur Hnum Hatt Hfirst rivals v.
  assert (Hc : c ∈ online o st) by (by apply (ht_victim _ (proj1 Hg))).
  assert (Hcu : c ∈ up_to_date o st) by (by rewrite up_to_date_perm).
  destruct (before_split c _ Hcu) as (post & Hsplit & Hn). fold rivals in Hsplit, Hn.
  assert (Hin : forall a, a ∈ c :: rivals -> a ∈ online o st).
  { intros a Ha. rewrite <- (up_to_date_perm o st), Hsplit. set_solver. }
  rewrite Forall_forall in Hnum.
  assert (Hnr : Forall (fun a => number (threat_at st a) = true) rivals).
  { rewrite Forall_forall. intros a Ha. apply Hnum, Hin. set_solver. }
  eapply returns_mono; [apply getHostilTarget_aims; [done..|intros Heq; rewrite Heq in Hc; by apply not_elem_of_nil in Hc]|].
  cbn beta. intros t st' [Hg' Hr' Hl' (st1 & Hg1 & Hr1 & Hsel) _ ->].
  assert (Hv : iCurrentVictim (mgr o st') = Some v).
  { destruct (threats_same st st1 Hr1) as [Et Eu]. rewrite Hcur in Hsel. unfold selectNextVictim in Hsel.
    rewrite bool_decide_eq_false_2 in Hsel by (intros Heq; rewrite Heq in Hcu; by apply not_elem_of_nil in Hcu).
    rewrite Hsplit, select_loop_rule in Hsel; [|..|by rewrite Et; apply Hnum|by rewrite Eu|by rewrite Eu].
    - injection Hsel as <-. unfold v. do 2 f_equal.
      rewrite (compared_ext st st1 o c rivals) by done.
      apply find_ext_in. intros a. unfold takes_over. by rewrite Et, Eu, Et.
    - intros a Ha%Hin. destruct (online_ref o a st Hg Ha) as (r & Hr & Ht & _). exists r. by rewrite Hr1.
    - done.
    - eapply Forall_impl; [exact Hnr|]. intros a. by rewrite Et. }
  rewrite Hl', Hv. split_and!; [done..|]. intros Hord.
  assert (Hsorted : in_order st (up_to_date o st)).
  { unfold up_to_date. destruct (iDirty _) eqn:Hd; [apply by_threat_sorted; by rewrite Forall_forall|]. by destruct Hord. }
  split; [done|]. unfold v. rewrite compared_in_order; [done| |by apply Hnum].
  rewrite Hsplit in Hsorted. by apply in_order_app in Hsorted.
Qed.

(** C17.  Threat added to a unit that may be hated makes the creature hate it: it has a
    reference to it afterwards, and to the unit part of the threat is redirected to,
    and, when what stays is not negative, to the living charmer or owner of the unit
    if he may be hated; nobody is forgotten, and nothing happens when the unit may not
    be hated. *)
Theorem hate_added (o v : Z) (dt : f32) (school : Z) (spell : option SpellInfo) (st : ThreatState) :
  good st -> o ∈ units -> GetTypeId o = TYPEID_UNIT -> v ∈ units ->
  returns (addThreat o (Some v) dt school spell)
    (fun _ st' => good st' /\ (forall q w, hates q w st -> hates q w st') /\
       if valid_process v o spell then all_hated o v (calcThreat v dt school spell) st' else st' = st) st.
Proof.
  intros Hg Ho Hty Hv. eapply returns_mono; [by apply addThreat_keeps|]. cbn beta. intros _ st' (Hg' & Hw & Hall).
  split; [done|]. split; [|done]. intros q w. apply hates_kept, Hw.
Qed.

(** C18.  A unit that dies, leaves or is deleted is no longer hated by anyone: its list
    is empty, in no list of a creature is a reference to it and none has it as its
    victim; every reference to another unit is as before. *)
Theorem references_deleted (u : Z) (st : ThreatState) :
  good st ->
  returns (deleteReferences u)
    (fun _ st' => good st' /\ haters u st' = [] /\
       (forall a, references st' !! a = (r ← references st !! a; if bool_decide (iUnitGuid r = u) then None else Some r)) /\
       (forall o a, a ∈ online o st' <-> a ∈ online o st /\ unit_at st a <> u) /\
       (forall o, ~ hates o u st')) st.
Proof.
  intros Hg. eapply returns_mono; [by apply deleteReferences_keeps|]. cbn beta. intros _ st' [Hg' Hr].
  assert (Hlook : forall a, references st' !! a = (r ← references st !! a; if bool_decide (iUnitGuid r = u) then None else Some r)).
  { intros a. rewrite Hr. unfold spared. rewrite map_lookup_filter. destruct (references st !! a) as [r|] eqn:Ha; cbn; [|done].
    destruct (ht_link _ (proj1 Hg) a r Ha) as [Ht [o Ho]]. unfold doomed_of. rewrite Ht, Ho, andb_true_r.
    do 2 case_bool_decide; simplify_eq; try done. all: case_guard; naive_solver. }
  assert (Hnone : forall a r, references st' !! a = Some r -> iUnitGuid r <> u /\ references st !! a = Some r).
  { intros a r. rewrite Hlook. destruct (references st !! a) as [s|]; cbn; [|done]. case_bool_decide; [done|]. by intros [= ->]. }
  split; [done|]. split; [|split; [done|split]].
  - apply elem_of_nil_inv. intros a Ha. destruct (hater_ref u a st' Hg' Ha) as (r & o & Hs & _ & Hu & _).
    by apply Hnone in Hs as [].
  - intros o a. rewrite (ht_online _ (proj1 Hg')), (ht_online _ (proj1 Hg)). unfold unit_at. split.
    + intros (r & Hs & Ho & Hon). apply Hnone in Hs as [Hu Hs]. rewrite Hs. split; [by exists r|done].
    + intros [(r & Hs & Ho & Hon) Hu]. rewrite Hs in Hu. exists r. split; [|done]. rewrite Hlook, Hs. cbn.
      by rewrite bool_decide_eq_false_2.
  - intros o (a & r & Hs & _ & Hu). by apply Hnone in Hs as [].
Qed.

(** C0.  When the list of a creature is deleted nothing of it is left: both lists are
    empty, there is no victim, it hates nobody, and its references are in no one's
    list; every reference from another creature is as before. *)
Theorem threat_list_cleared (o : Z) (canHave : bool) (st : ThreatState) :
  good st -> o ∈ units ->
  returns (DeleteThreatList o canHave)
    (fun _ st' => good st' /\ online o st' = [] /\ offline o st' = [] /\ iCurrentVictim (mgr o st') = None /\
       (forall v, ~ hates o v st') /\
       (forall q v, q <> o -> hates q v st' <-> hates q v st) /\
       (forall u a, a ∈ haters u st' <-> a ∈ haters u st /\ a ∉ online o st ++ offline o st)) st.
Proof.
  intros Hg Ho. eapply returns_mono; [by apply DeleteThreatList_keeps|]. cbn beta. intros _ st' (Hg' & Hon & Hoff & Hc & Hr).
  assert (Hlook : forall a r, references st' !! a = Some r <-> references st !! a = Some r /\ iRefFrom r <> Some o).
  { intros a r. rewrite Hr. destruct (references st !! a) as [s|]; cbn; [|naive_solver]. case_bool_decide; naive_solver. }
  split_and!; [done..| | |].
  - intros v (a & r & Hs & Hf & _). apply Hlook in Hs as [_ Hs]. done.
  - intros q v Hq. unfold hates. setoid_rewrite Hlook. split; [naive_solver|]. intros (a & r & Hs & Hf & Hv).
    exists a, r. split_and!; [done|congruence..].
  - intros u a. rewrite (ht_hated _ (proj1 Hg')), (ht_hated _ (proj1 Hg)). setoid_rewrite Hlook. split.
    + intros (r & [Hs Hf] & Hu). split; [by exists r|]. intros [Ha|Ha]%elem_of_app;
        [apply (ht_online _ (proj1 Hg)) in Ha|apply (ht_offline _ (proj1 Hg)) in Ha]; destruct Ha as (s & Hs' & Hf' & _); congruence.
    + intros [(r & Hs & Hu) Hn]. exists r. split_and!; [done| |done]. intros Hf. by apply Hn, (all_references o st a r).
Qed.
End Session.

(** ** A sample *)

#[local] Instance sample_threat_host : Host := {| TRINITY_BIGENDIAN := false |}.

(** A creature, 100; players 1 and 2; the pet 3 of player 1.  [immune] are who cannot be
    hurt now. *)
Definition sample_world (immune : Z -> bool) : ThreatWorld := {|
  units := [100; 1; 2; 3];
  GetTypeId u := if (u =? 100) || (u =? 3) then TYPEID_UNIT else TYPEID_PLAYER;
  isGameMaster _ := false;
  isAlive _ := true;
  IsInMap _ _ := true;
  InSamePhase _ _ := true;
  IN_FLIGHT _ := false;
  GetUnit _ _ := true;
  isInAccessiblePlaceFor _ _ := true;
  IsWithinCombatRange _ _ := true;
  GetCharmerOrOwner u := if u =? 3 then Some 1 else None;
  GetRedirectThreatPercent _ := 0;
  GetRedirectThreatTarget _ := None;
  IsImmunedToDamage u _ := immune u;
  HasNegativeAuraTakeDamage _ := false;
  canCreatureAttack _ _ := true;
  IsWithinMeleeRange _ u := negb (u =? 2);
  canSeeOrDetect _ _ := true;
  faction _ := 14;
  SpellThreatEntry_pctMod _ := None;
  GetSpellModOwner _ := None;
  ApplySpellMod_THREAT _ _ t := t;
  HasAuraType_MOD_THREAT _ := false;
  m_threatModifier _ _ := f32_one
|}.

Section Sample.
#[local] Instance nobody_immune : ThreatWorld := sample_world (fun _ => false).
#[local] Instance nobody_immune_ok : ThreatWorldOk.
Proof.
  refine {| owner_rank := fun u => if u =? 3 then 1%nat else 0%nat |}.
  - cbn. repeat apply Forall_cons_2; try apply Forall_nil_2; by vm_compute.
  - by vm_compute.
  - intros u v _. cbn. destruct (u =? 3) eqn:E; [|done]. intros [= <-]. split; [set_solver|]. change (1 =? 3) with false. cbn. lia.
  - intros u _. cbn. destruct (u =? 3); lia.
  - done.
Qed.

Definition threat_next (st : ThreatState) (op : ThreatOp) : ThreatState :=
  match run_threat op st with Ok _ st' => st' | _ => st end.

Lemma next_reachable st op : threat_reachable st -> legal_threat st op -> threat_reachable (threat_next st op).
Proof.
  intros Hr Hl. pose proof (run_threat_good op st (reachable_good st Hr) Hl) as Hrun.
  apply returns_Ok in Hrun as ([] & st' & Hrun & _). unfold threat_next. rewrite Hrun. by apply (tr_step st st' op).
Qed.

(** The pet of 1 attacks and is attacked; 2 comes near to its threat, and passes it. *)
Definition attacked : ThreatState := threat_next no_threat_yet (TAdd 100 (Some 3) (f32_of_Z 100) 1 None).
Definition fighting : ThreatState := threat_next attacked (TNextVictim 100).
Definition near : ThreatState := threat_next fighting (TAdd 100 (Some 2) (f32_of_Z 105) 1 None).
Definition overtaken : ThreatState := threat_next near (TAdd 100 (Some 2) (f32_of_Z 30) 1 None).

Lemma add_reachable st v dt : v ∈ [1; 2; 3] -> threat_reachable st -> threat_reachable (threat_next st (TAdd 100 (Some v) dt 1 None)).
Proof.
  intros Hv Hr. apply next_reachable; [done|]. split; [set_solver|]. split; [done|]. intros w [= <-]. cbn. set_solver.
Qed.
Lemma fighting_reachable : threat_reachable fighting.
Proof.
  apply next_reachable; [apply add_reachable, tr_start; set_solver|].
  split; [set_solver|]. split; [done|]. vm_compute. discriminate.
Qed.
Lemma overtaken_reachable : threat_reachable overtaken.
Proof. apply add_reachable, add_reachable, fighting_reachable; set_solver. Qed.
Lemma overtaken_good : good overtaken.
Proof. apply reachable_good, overtaken_reachable. Qed.

(** Who is attacked after each, and what the client is shown of the list. *)
Definition victim_of (st : ThreatState) : option Z := option_map (unit_at st) (iCurrentVictim (mgr 100 st)).
Definition shown (st : ThreatState) : list (Z * Z) :=
  map (fun a => (unit_at st a, uint32_of_f32 (threat_at st a))) (online 100 st).

Example pet_attacked : victim_of fighting = Some 3 /\ shown fighting = [(3, 100); (1, 0)].
Proof. by vm_compute. Qed.
Example near_waits : let st := threat_next near (TNextVictim 100) in
  victim_of st = Some 3 /\ shown st = [(2, 105); (3, 100); (1, 0)].
Proof. by vm_compute. Qed.
Example overtaken_taken : let st := threat_next overtaken (TNextVictim 100) in
  victim_of st = Some 2 /\ shown st = [(2, 135); (3, 100); (1, 0)].
Proof. by vm_compute. Qed.

(** The list is not put in order when someone who is not the victim loses threat. *)
Example loss_not_sorted :
  let st := threat_next (threat_next (threat_next near (TNextVictim 100)) (TModifyPercent 100 (Some 2) (-90))) (TNextVictim 100) in
  shown st = [(2, 10); (3, 100); (1, 0)].
Proof. by vm_compute. Qed.

(** The deletion of a reference that is online sends its removal twice. *)
Example removal_sent_twice :
  map (fun p => m_opcode p.2) (skipn (length (sent near)) (sent (threat_next near (TDeleteOne 2 100)))) =
    [SMSG_THREAT_REMOVE; SMSG_THREAT_REMOVE].
Proof. by vm_compute. Qed.

Lemma threat_session_witness :
  threat_reachable overtaken /\ (hate_ok overtaken /\ fits overtaken /\
    forall op, legal_threat overtaken op -> exists st', run_threat op overtaken = Ok () st' /\ threat_reachable st').
Proof. split; [apply overtaken_reachable|]. apply (threat_session overtaken), overtaken_reachable. Defined.

Lemma hate_added_witness :
  valid_process 3 100 None = true /\
  returns (addThreat 100 (Some 3) (f32_of_Z 5) 1 None)
    (fun _ st' => good st' /\ (forall q w, hates q w overtaken -> hates q w st') /\
       if valid_process 3 100 None then all_hated 100 3 (calcThreat 3 (f32_of_Z 5) 1 None) st' else st' = overtaken) overtaken.
Proof.
  split; [done|]. apply (hate_added 100 3 (f32_of_Z 5) 1 None overtaken overtaken_good); [set_solver|done|set_solver].
Defined.

Lemma references_deleted_witness :
  length (haters 3 overtaken) = 1%nat /\
  returns (deleteReferences 3)
    (fun _ st' => good st' /\ haters 3 st' = [] /\
       (forall a, references st' !! a = (r ← references overtaken !! a; if bool_decide (iUnitGuid r = 3) then None else Some r)) /\
       (forall o a, a ∈ online o st' <-> a ∈ online o overtaken /\ unit_at overtaken a <> 3) /\
       (forall o, ~ hates o 3 st')) overtaken.
Proof. split; [by vm_compute|]. apply (references_deleted 3 overtaken overtaken_good). Defined.

Lemma threat_list_cleared_witness :
  length (online 100 overtaken) = 3%nat /\
  returns (DeleteThreatList 100 true)
    (fun _ st' => good st' /\ online 100 st' = [] /\ offline 100 st' = [] /\ iCurrentVictim (mgr 100 st') = None /\
       (forall v, ~ hates 100 v st') /\
       (forall q v, q <> 100 -> hates q v st' <-> hates q v overtaken) /\
       (forall u a, a ∈ haters u st' <-> a ∈ haters u overtaken /\ a ∉ online 100 overtaken ++ offline 100 overtaken)) overtaken.
Proof. split; [by vm_compute|]. apply (threat_list_cleared 100 true overtaken overtaken_good). set_solver. Defined.

Lemma next_victim_witness :
  let rivals := before 0 (up_to_date 100 overtaken) in
  let v := default 0 (List.find (takes_over overtaken 100 0) (compared overtaken 100 0 rivals)) in
  v = 2 /\
  returns (getHostilTarget 100)
    (fun t st' => good st' /\ references st' = references overtaken /\
       online 100 st' = up_to_date 100 overtaken /\
       iCurrentVictim (mgr 100 st') = Some v /\ t = Some (unit_at overtaken v) /\
       (iDirty (iThreatContainer (mgr 100 overtaken)) = true \/ in_order overtaken (online 100 overtaken) ->
        in_order overtaken (online 100 st') /\ v = default 0 (List.find (takes_over overtaken 100 0) rivals)))
    overtaken.
Proof.
  assert (Ho : 100 ∈ units) by set_solver.
  intros rivals v. split; [by vm_compute|].
  apply (next_victim 100 0 overtaken overtaken_good Ho eq_refl); [by vm_compute| |by vm_compute..].
  vm_compute. repeat constructor.
Defined.
End Sample.

(** ** Second choices

    With the pet immune, 2 would be preferred to it; but 2 is above it in the list by
    less than a tenth, so the pet is compared with before it is found to be a second
    choice, and stays the victim. *)
Section SecondChoice.
#[local] Instance pet_immune : ThreatWorld := sample_world (fun u => u =? 3).

Example immune_victim_kept :
  match getHostilTarget 100 near with Ok t _ => t | _ => None end = Some 3.
Proof. by vm_compute. Qed.
End SecondChoice.
