(* ===== verification/LFG.v ===== *)
(** * The dungeon finder: roles and the queue

    [src/src/server/game/DungeonFinding/LFG.h], [LFGQueue.h] and [LFGQueue.cpp],
    and [LFGMgr::CheckGroupRoles]: players and groups who wait for a dungeon,
    the cache of which of them fit together, and the search for five players
    who can fill the roles of a group.

    What the queue asks of the manager while it searches (who ignores whom, the
    states of players and groups) does not change meanwhile, and is the class
    [QueueView]; the proposals it makes are appended to a list. *)

From stdpp Require Import sorting.
From S2P Require Import Prelude Maps Guid Text.

(** ** Roles *)

Definition LFG_TANKS_NEEDED : Z := 1.
Definition LFG_HEALERS_NEEDED : Z := 1.
Definition LFG_DPS_NEEDED : Z := 3.
Definition MAXGROUPSIZE : Z := 5.

Definition PLAYER_ROLE_NONE : Z := 0x00.
Definition PLAYER_ROLE_LEADER : Z := 0x01.
Definition PLAYER_ROLE_TANK : Z := 0x02.
Definition PLAYER_ROLE_HEALER : Z := 0x04.
Definition PLAYER_ROLE_DAMAGE : Z := 0x08.

Abbreviation LfgRolesMap := (gmap Z Z).
Abbreviation LfgGuidList := (list Z).
Abbreviation LfgDungeonSet := (gset Z).

(** A [std::set] in the order of its iteration. *)
Definition in_order (s : gset Z) : list Z := merge_sort Z.le (elements s).

(** What trying a player without one of his roles comes to: the answer, with the
    roles as they are left, or a number of players with that role alone. *)
Definition tried : Type := (bool * LfgRolesMap) + (LfgRolesMap * Z).

(** [if (it->second & role) ...], for the player [k]; [recurse] is the call of
    the function itself. *)
Definition try_role (recurse : LfgRolesMap -> option (bool * LfgRolesMap)) (k role needed : Z)
    (groles : LfgRolesMap) (count : Z) : option tried :=
  let r := default 0 (groles !! k) in
  if has_flag r role then
    if negb (r =? role) then
      match recurse (<[k := u8 (r - role)]> groles) with
      | None => None
      | Some (true, groles') => Some (inl (true, groles'))
      | Some (false, groles') =>
          Some (inr (<[k := u8 (default 0 (groles' !! k) + role)]> groles', count))
      end
    else if count =? needed then Some (inl (false, groles))
    else Some (inr (groles, u8 (count + 1)))
  else Some (inr (groles, count)).

Fixpoint CheckGroupRoles_loop (recurse : LfgRolesMap -> option (bool * LfgRolesMap)) (ks : list Z)
    (groles : LfgRolesMap) (damage healer tank : Z) : option (bool * LfgRolesMap) :=
  match ks with
  | [] => Some (tank + healer + damage =? u8 (Z.of_nat (base.size groles)), groles)
  | k :: ks' =>
      if default 0 (groles !! k) =? PLAYER_ROLE_NONE then Some (false, groles)
      else
        match try_role recurse k PLAYER_ROLE_DAMAGE LFG_DPS_NEEDED groles damage with
        | None => None
        | Some (inl answer) => Some answer
        | Some (inr (groles, damage)) =>
            match try_role recurse k PLAYER_ROLE_HEALER LFG_HEALERS_NEEDED groles healer with
            | None => None
            | Some (inl answer) => Some answer
            | Some (inr (groles, healer)) =>
                match try_role recurse k PLAYER_ROLE_TANK LFG_TANKS_NEEDED groles tank with
                | None => None
                | Some (inl answer) => Some answer
                | Some (inr (groles, tank)) => CheckGroupRoles_loop recurse ks' groles damage healer tank
                end
            end
        end
  end.

Definition remove_leader (groles : LfgRolesMap) : LfgRolesMap :=
  (fun r => Z.land r (u8 (Z.lnot PLAYER_ROLE_LEADER))) <$> groles.

(** [fuel] bounds the depth of the calls: each removes a role of a player. *)
Fixpoint CheckGroupRoles_fuel (fuel : nat) (groles : LfgRolesMap) (removeLeaderFlag : bool)
    : option (bool * LfgRolesMap) :=
  match fuel with
  | O => None
  | S fuel' =>
      if bool_decide (groles = ∅) then Some (false, groles)
      else
        let groles := if removeLeaderFlag then remove_leader groles else groles in
        CheckGroupRoles_loop (fun groles => CheckGroupRoles_fuel fuel' groles false) (keys groles)
          groles 0 0 0
  end.

(** The number of the roles the players chose, which is enough fuel. *)
Definition role_bits (r : Z) : nat :=
  Z.to_nat (Z.b2z (has_flag r PLAYER_ROLE_TANK) + Z.b2z (has_flag r PLAYER_ROLE_HEALER) +
            Z.b2z (has_flag r PLAYER_ROLE_DAMAGE)).
Definition roles_chosen (groles : LfgRolesMap) : nat :=
  map_fold (fun _ r n => (role_bits r + n)%nat) O groles.

Definition CheckGroupRoles (groles : LfgRolesMap) : option (bool * LfgRolesMap) :=
  CheckGroupRoles_fuel (S (roles_chosen groles)) groles true.

Example five_players :
  CheckGroupRoles (list_to_map [(1, 0x0F); (2, 0x0C); (3, 0x0A); (4, 8); (5, 8)])
  = Some (true, list_to_map [(1, 2); (2, 4); (3, 8); (4, 8); (5, 8)]).
Proof. vm_compute. reflexivity. Qed.

Example two_tanks : CheckGroupRoles (list_to_map [(1, 2); (2, 3)]) = Some (false, list_to_map [(1, 2); (2, 2)]).
Proof. vm_compute. reflexivity. Qed.

(** ** States *)

Inductive LfgState :=
| LFG_STATE_NONE
| LFG_STATE_ROLECHECK
| LFG_STATE_QUEUED
| LFG_STATE_PROPOSAL
| LFG_STATE_BOOT
| LFG_STATE_DUNGEON
| LFG_STATE_FINISHED_DUNGEON
| LFG_STATE_RAIDBROWSER.
#[export] Instance LfgState_eq_dec : EqDecision LfgState.
Proof. solve_decision. Defined.

Inductive LfgAnswer := LFG_ANSWER_PENDING | LFG_ANSWER_DENY | LFG_ANSWER_AGREE.
#[export] Instance LfgAnswer_eq_dec : EqDecision LfgAnswer.
Proof. solve_decision. Defined.
(** [LfgAnswer(accept)]. *)
Definition LfgAnswer_of (accept : bool) : LfgAnswer := if accept then LFG_ANSWER_AGREE else LFG_ANSWER_DENY.

Inductive LfgProposalState := LFG_PROPOSAL_INITIATING | LFG_PROPOSAL_FAILED | LFG_PROPOSAL_SUCCESS.
#[export] Instance LfgProposalState_eq_dec : EqDecision LfgProposalState.
Proof. solve_decision. Defined.

Record LfgProposalPlayer := mkLfgProposalPlayer { role : Z; accept : LfgAnswer; group : Z }.
#[export] Instance LfgProposalPlayer_settable : Settable LfgProposalPlayer :=
  fun p => mkLfgProposalPlayer (role p) (accept p) (group p).

Record LfgProposal := mkLfgProposal {
  proposal_id : Z;
  dungeonId : Z;
  state : LfgProposalState;
  proposal_group : Z;
  leader : Z;
  cancelTime : Z;
  encounters : Z;
  isNew : bool;
  queues : LfgGuidList;
  showorder : LfgGuidList;
  players : gmap Z LfgProposalPlayer
}.
#[export] Instance LfgProposal_settable : Settable LfgProposal :=
  fun p => mkLfgProposal (proposal_id p) (dungeonId p) (state p) (proposal_group p) (leader p) (cancelTime p)
    (encounters p) (isNew p) (queues p) (showorder p) (players p).
Definition LfgProposal_new : LfgProposal :=
  mkLfgProposal 0 0 LFG_PROPOSAL_INITIATING 0 0 0 0 true [] [] ∅.

(** ** The queue *)

Inductive LfgCompatibility :=
| LFG_COMPATIBILITY_PENDING
| LFG_INCOMPATIBLES_WRONG_GROUP_SIZE
| LFG_INCOMPATIBLES_TOO_MUCH_PLAYERS
| LFG_INCOMPATIBLES_MULTIPLE_LFG_GROUPS
| LFG_INCOMPATIBLES_HAS_IGNORES
| LFG_INCOMPATIBLES_NO_ROLES
| LFG_INCOMPATIBLES_NO_DUNGEONS
| LFG_COMPATIBLES_WITH_LESS_PLAYERS
| LFG_COMPATIBLES_BAD_STATES
| LFG_COMPATIBLES_MATCH.
#[export] Instance LfgCompatibility_eq_dec : EqDecision LfgCompatibility.
Proof. solve_decision. Defined.

(** [c < LFG_COMPATIBLES_WITH_LESS_PLAYERS]. *)
Definition not_compatible (c : LfgCompatibility) : bool :=
  match c with
  | LFG_COMPATIBLES_WITH_LESS_PLAYERS | LFG_COMPATIBLES_BAD_STATES | LFG_COMPATIBLES_MATCH => false
  | _ => true
  end.

Record LfgCompatibilityData := mkLfgCompatibilityData { compatibility : LfgCompatibility; cd_roles : LfgRolesMap }.
#[export] Instance LfgCompatibilityData_settable : Settable LfgCompatibilityData :=
  fun d => mkLfgCompatibilityData (compatibility d) (cd_roles d).
Definition LfgCompatibilityData_new : LfgCompatibilityData :=
  mkLfgCompatibilityData LFG_COMPATIBILITY_PENDING ∅.

Record LfgQueueData := mkLfgQueueData {
  joinTime : Z;
  tanks : Z;
  healers : Z;
  dps : Z;
  dungeons : LfgDungeonSet;
  roles : LfgRolesMap;
  bestCompatible : list Z
}.
#[export] Instance LfgQueueData_settable : Settable LfgQueueData :=
  fun d => mkLfgQueueData (joinTime d) (tanks d) (healers d) (dps d) (dungeons d) (roles d) (bestCompatible d).
Definition LfgQueueData_new (joinTime : Z) (dungeons : LfgDungeonSet) (roles : LfgRolesMap) : LfgQueueData :=
  mkLfgQueueData joinTime LFG_TANKS_NEEDED LFG_HEALERS_NEEDED LFG_DPS_NEEDED dungeons roles [].

Record LfgWaitTime := mkLfgWaitTime { wt_time : Z; number : Z }.
Definition LfgWaitTime_new : LfgWaitTime := mkLfgWaitTime (-1) 0.

Record LFGQueue := mkLFGQueue {
  QueueDataStore : gmap Z LfgQueueData;
  CompatibleMapStore : gmap (list Z) LfgCompatibilityData;
  waitTimesAvgStore : gmap Z LfgWaitTime;
  waitTimesTankStore : gmap Z LfgWaitTime;
  waitTimesHealerStore : gmap Z LfgWaitTime;
  waitTimesDpsStore : gmap Z LfgWaitTime;
  currentQueueStore : LfgGuidList;
  newToQueueStore : LfgGuidList
}.
#[export] Instance LFGQueue_settable : Settable LFGQueue :=
  fun q => mkLFGQueue (QueueDataStore q) (CompatibleMapStore q) (waitTimesAvgStore q) (waitTimesTankStore q)
    (waitTimesHealerStore q) (waitTimesDpsStore q) (currentQueueStore q) (newToQueueStore q).
Definition LFGQueue_new : LFGQueue := mkLFGQueue ∅ ∅ ∅ ∅ ∅ ∅ [] [].

(** ** Keys of the cache *)

(** [std::ostringstream], of numbers between bars. *)
Definition bar : Z := 124.
Definition joined (l : list Z) : list Z :=
  match l with
  | [] => []
  | x :: l' => dec x ++ concat (map (fun y => bar :: dec y) l')
  end.
Definition ConcatenateGuids (check : LfgGuidList) : list Z := joined (in_order (list_to_set check)).

(** The order of [std::string]. *)
Fixpoint string_leb (a b : list Z) : bool :=
  match a, b with
  | [], _ => true
  | _ :: _, [] => false
  | x :: a', y :: b' => (x <? y) || ((x =? y) && string_leb a' b')
  end.
Definition string_le (a b : list Z) : Prop := string_leb a b = true.
#[export] Instance string_le_dec : RelDecision string_le := fun a b => decide (string_leb a b = true).
Definition string_keys {A} (m : gmap (list Z) A) : list (list Z) :=
  merge_sort string_le (map fst (map_to_list m)).

(** ** Operations without a search *)

Definition AddToNewQueue (guid : Z) (q : LFGQueue) : LFGQueue :=
  q <| newToQueueStore ::= fun l => l ++ [guid] |>.
Definition RemoveFromNewQueue (guid : Z) (q : LFGQueue) : LFGQueue :=
  q <| newToQueueStore ::= filter (fun g => g <> guid) |>.
Definition AddToCurrentQueue (guid : Z) (q : LFGQueue) : LFGQueue :=
  q <| currentQueueStore ::= fun l => l ++ [guid] |>.
Definition RemoveFromCurrentQueue (guid : Z) (q : LFGQueue) : LFGQueue :=
  q <| currentQueueStore ::= filter (fun g => g <> guid) |>.

Definition AddToQueue (guid : Z) (q : LFGQueue) : LFGQueue :=
  match QueueDataStore q !! guid with
  | Some _ => AddToNewQueue guid q
  | None => q
  end.
Definition AddQueueData (guid joinTime : Z) (dungeons : LfgDungeonSet) (rolesMap : LfgRolesMap) (q : LFGQueue)
    : LFGQueue :=
  AddToQueue guid (q <| QueueDataStore ::= <[guid := LfgQueueData_new joinTime dungeons rolesMap]> |>).
Definition RemoveQueueData (guid : Z) (q : LFGQueue) : LFGQueue := q <| QueueDataStore ::= delete guid |>.

Definition RemoveFromCompatibles (guid : Z) (q : LFGQueue) : LFGQueue :=
  q <| CompatibleMapStore ::= filter (fun kd => contains (dec guid) kd.1 = false) |>.

Definition SetCompatibles (key : list Z) (compatibles : LfgCompatibility) (q : LFGQueue) : LFGQueue :=
  let data := default LfgCompatibilityData_new (CompatibleMapStore q !! key) in
  q <| CompatibleMapStore ::= <[key := data <| compatibility := compatibles |>]> |>.
Definition SetCompatibilityData (key : list Z) (data : LfgCompatibilityData) (q : LFGQueue) : LFGQueue :=
  q <| CompatibleMapStore ::= <[key := data]> |>.
Definition GetCompatibles (key : list Z) (q : LFGQueue) : LfgCompatibility :=
  match CompatibleMapStore q !! key with
  | Some data => compatibility data
  | None => LFG_COMPATIBILITY_PENDING
  end.

(** One player of the best group so far: a place less to fill. *)
Definition fill_place (d : LfgQueueData) (role : Z) : LfgQueueData :=
  if has_flag role PLAYER_ROLE_TANK then d <| tanks ::= fun n => u8 (n - 1) |>
  else if has_flag role PLAYER_ROLE_HEALER then d <| healers ::= fun n => u8 (n - 1) |>
  else d <| dps ::= fun n => u8 (n - 1) |>.

Definition UpdateBestCompatibleInQueue (key : list Z) (groupRoles : LfgRolesMap) (queueData : LfgQueueData)
    : LfgQueueData :=
  let storedSize := match bestCompatible queueData with
                    | [] => 0
                    | best => u8 (count_char bar best + 1)
                    end in
  let size := u8 (count_char bar key + 1) in
  if size <=? storedSize then queueData
  else
    fold_left (fun d k => fill_place d (default 0 (groupRoles !! k))) (keys groupRoles)
      (queueData <| bestCompatible := key |> <| tanks := LFG_TANKS_NEEDED |>
         <| healers := LFG_HEALERS_NEEDED |> <| dps := LFG_DPS_NEEDED |>).

Definition FindBestCompatibleInQueue (store : gmap (list Z) LfgCompatibilityData) (guid : Z)
    (queueData : LfgQueueData) : LfgQueueData :=
  fold_left (fun d key =>
      match store !! key with
      | Some data =>
          if bool_decide (compatibility data = LFG_COMPATIBLES_WITH_LESS_PLAYERS) && contains (dec guid) key
          then UpdateBestCompatibleInQueue key (cd_roles data) d
          else d
      | None => d
      end) (string_keys store) queueData.

(** The loop over [QueueDataStore] changes each entry on its own. *)
Definition RemoveFromQueue (guid : Z) (q : LFGQueue) : LFGQueue :=
  let q := RemoveFromCompatibles guid (RemoveFromCurrentQueue guid (RemoveFromNewQueue guid q)) in
  let store := map_imap (fun k d =>
      Some (if negb (k =? guid) && contains (dec guid) (bestCompatible d)
            then FindBestCompatibleInQueue (CompatibleMapStore q) k (d <| bestCompatible := [] |>)
            else d)) (QueueDataStore q) in
  q <| QueueDataStore := delete guid store |>.

Definition GetJoinTime (guid : Z) (q : LFGQueue) : Z :=
  match QueueDataStore q !! guid with Some d => joinTime d | None => 0 end.

(** The four averages are kept alike; [None] is the division by zero of a
    counter that has wrapped. *)
Definition UpdateWaitTime (waitTime dungeonId : Z) (store : gmap Z LfgWaitTime) : option (gmap Z LfgWaitTime) :=
  let wt := default LfgWaitTime_new (store !! dungeonId) in
  let old_number := number wt in
  let new_number := u32 (old_number + 1) in
  if new_number =? 0 then None
  else
    let sum := u32 (u32 (u32 (wt_time wt) * old_number) + u32 waitTime) in
    Some (<[dungeonId := mkLfgWaitTime (s32 (sum / new_number)) new_number]> store).

(** ** The search *)

Definition LFG_TIME_PROPOSAL : Z := 45.

(** What the queue reads elsewhere: who is online, the ignore list of a player
    (of low GUIDs), the data of players and groups in the manager, the clock and
    the random numbers, which are numbered as they are drawn. *)
Class QueueView := {
  FindPlayer : Z -> bool;
  social_HasIgnore : Z -> Z -> bool;
  GetState : Z -> LfgState;
  GetOldState : Z -> LfgState;
  data_IsLfgGroup : Z -> bool;
  time_now : Z;
  urand : nat -> Z -> Z -> Z
}.

(** [SMSG_LFG_QUEUE_STATUS], and the queue with what a search leaves besides:
    the proposals for [LFGMgr::AddProposal], in order. *)
Record LfgQueueStatusData := mkLfgQueueStatusData {
  qs_queueId : Z; qs_dungeonId : Z; qs_joinTime : Z; qs_waitTime : Z; qs_waitTimeAvg : Z;
  qs_waitTimeTank : Z; qs_waitTimeHealer : Z; qs_waitTimeDps : Z; qs_queuedTime : Z;
  qs_tanks : Z; qs_healers : Z; qs_dps : Z
}.

Record QState := mkQState {
  queue : LFGQueue;
  proposals : list LfgProposal;
  statuses : list (Z * LfgQueueStatusData);
  draws : nat
}.
#[export] Instance QState_settable : Settable QState :=
  fun s => mkQState (queue s) (proposals s) (statuses s) (draws s).

Abbreviation QM := (M QState Empty_set).

Definition on_queue (f : LFGQueue -> LFGQueue) : QM () := modify (fun s => s <| queue ::= f |>).

Section Search.
Context `{QueueView}.

Definition HasIgnore (guid1 guid2 : Z) : bool :=
  FindPlayer guid1 && FindPlayer guid2 &&
  (social_HasIgnore guid1 (GUID_LOPART guid2) || social_HasIgnore guid2 (GUID_LOPART guid1)).
Definition IsLfgGroup (guid : Z) : bool := negb (guid =? 0) && IS_GROUP_GUID guid && data_IsLfgGroup guid.

Definition draw (lo hi : Z) : QM Z :=
  n ← gets draws;
  modify (fun s => s <| draws ::= Datatypes.S |>);;
  mret (urand n lo hi).

(** [QueueDataStore[guid]]. *)
Definition queue_data (guid : Z) : QM LfgQueueData :=
  q ← gets queue;
  match QueueDataStore q !! guid with
  | Some d => mret d
  | None =>
      let d := LfgQueueData_new time_now ∅ ∅ in
      on_queue (fun q => q <| QueueDataStore ::= <[guid := d]> |>);; mret d
  end.

(** [UpdateBestCompatibleInQueue(QueueDataStore.find(guid), ...)]. *)
Definition update_best (guid : Z) (key : list Z) (groupRoles : LfgRolesMap) : QM () :=
  q ← gets queue;
  match QueueDataStore q !! guid with
  | Some _ => on_queue (fun q =>
      q <| QueueDataStore ::= alter (UpdateBestCompatibleInQueue key groupRoles) guid |>)
  | None => abort UndefinedBehaviour
  end.

Definition AllQueued (check : LfgGuidList) : bool :=
  negb (bool_decide (check = [])) && forallb (fun g => bool_decide (GetState g = LFG_STATE_QUEUED)) check.

(** [CheckCompatibility] returns early with [c], which it stores first. *)
Definition answer (key : list Z) (c : LfgCompatibility) : QM LfgCompatibility :=
  on_queue (SetCompatibles key c);; mret c.

(** The loop that counts: the number of players and of LFG groups, the first
    such group, and the group each player queued with.  [None]: a guid of the
    list has no data. *)
Definition count_guid (guid : Z) (d : LfgQueueData) (acc : Z * Z * Z * gmap Z Z) : Z * Z * Z * gmap Z Z :=
  let '(numPlayers, numLfgGroups, proposalGroup, proposalGroups) := acc in
  let groups := fold_left (fun m k => <[k := if IS_GROUP_GUID guid then guid else 0]> m)
                  (keys (roles d)) proposalGroups in
  let n := u8 (numPlayers + Z.of_nat (base.size (roles d))) in
  if IsLfgGroup guid then
    (n, u8 (numLfgGroups + 1), if numLfgGroups =? 0 then guid else proposalGroup, groups)
  else (n, numLfgGroups, proposalGroup, groups).

Fixpoint count_players (check : LfgGuidList) (acc : Z * Z * Z * gmap Z Z) : QM (option (Z * Z * Z * gmap Z Z)) :=
  match check with
  | [] => mret (Some acc)
  | guid :: check' =>
      let '(numPlayers, numLfgGroups, _, _) := acc in
      if (numLfgGroups <? 2) && (numPlayers <=? MAXGROUPSIZE) then
        q ← gets queue;
        match QueueDataStore q !! guid with
        | None => on_queue (RemoveFromQueue guid);; mret None
        | Some d => count_players check' (count_guid guid d acc)
        end
      else mret (Some acc)
  end.

(** A player joins the proposal unless he ignores, or is ignored by, another. *)
Definition add_role (proposalRoles : LfgRolesMap) (k r : Z) : LfgRolesMap :=
  if existsb (fun j => negb (k =? j) && HasIgnore k j) (keys proposalRoles) then proposalRoles
  else <[k := r]> proposalRoles.

Definition add_roles (proposalRoles more : LfgRolesMap) : LfgRolesMap :=
  fold_left (fun m k => add_role m k (default 0 (more !! k))) (keys more) proposalRoles.

Fixpoint gather_roles (check : LfgGuidList) (proposalRoles : LfgRolesMap) : QM LfgRolesMap :=
  match check with
  | [] => mret proposalRoles
  | guid :: check' => d ← queue_data guid; gather_roles check' (add_roles proposalRoles (roles d))
  end.

Fixpoint common_dungeons (check : LfgGuidList) (proposalDungeons : LfgDungeonSet) : QM LfgDungeonSet :=
  match check with
  | [] => mret proposalDungeons
  | guid :: check' => d ← queue_data guid; common_dungeons check' (proposalDungeons ∩ dungeons d)
  end.

(** [CheckGroupRoles] always answers. *)
Definition check_roles (groles : LfgRolesMap) : QM (bool * LfgRolesMap) :=
  match CheckGroupRoles groles with
  | Some answer => mret answer
  | None => abort UndefinedBehaviour
  end.

(** [SelectRandomContainerElement]: an empty container is undefined behaviour. *)
Definition select_dungeon (proposalDungeons : LfgDungeonSet) : QM Z :=
  let l := in_order proposalDungeons in
  i ← draw 0 (u32 (zlen l - 1));
  match l !! Z.to_nat i with
  | Some d => mret d
  | None => abort UndefinedBehaviour
  end.

(** A player of the proposal: perhaps its leader, with his role and his group. *)
Definition propose_player (proposalGroups : gmap Z Z) (k r : Z) (st : LfgProposal * bool) : QM (LfgProposal * bool) :=
  let '(proposal, has_leader) := st in
  let flip (c : bool) : QM bool :=
    if c then mret true else (n ← draw 0 1; mret (negb (n =? 0))) in
  '(proposal, has_leader) ←
    (if has_flag r PLAYER_ROLE_LEADER then
       lead ← flip (negb has_leader || (leader proposal =? 0));
       mret (if (lead : bool) then proposal <| leader := k |> else proposal, true)
     else if negb has_leader then
       lead ← flip (leader proposal =? 0);
       mret (if (lead : bool) then proposal <| leader := k |> else proposal, has_leader)
     else mret (proposal, has_leader));
  match proposalGroups !! k with
  | None => abort UndefinedBehaviour
  | Some g =>
      let agreed := negb (isNew proposal) && negb (g =? 0) && (g =? proposal_group proposal) in
      let data := mkLfgProposalPlayer r (if agreed then LFG_ANSWER_AGREE else LFG_ANSWER_PENDING) g in
      mret (proposal <| players ::= <[k := data]> |>, has_leader)
  end.

Fixpoint propose_players (ks : list Z) (proposalRoles : LfgRolesMap) (proposalGroups : gmap Z Z)
    (st : LfgProposal * bool) : QM (LfgProposal * bool) :=
  match ks with
  | [] => mret st
  | k :: ks' =>
      st ← propose_player proposalGroups k (default 0 (proposalRoles !! k)) st;
      propose_players ks' proposalRoles proposalGroups st
  end.

(** The end of [CheckCompatibility]: a group of five is proposed. *)
Definition make_proposal (check : LfgGuidList) (key : list Z) (numLfgGroups proposalGroup : Z)
    (proposalGroups : gmap Z Z) (proposalDungeons : LfgDungeonSet) (proposalRoles : LfgRolesMap)
    : QM LfgCompatibility :=
  let gguid := List.hd 0 check in
  let new := negb (numLfgGroups =? 1) || negb (bool_decide (GetOldState gguid = LFG_STATE_DUNGEON)) in
  if negb (AllQueued check) then answer key LFG_COMPATIBLES_BAD_STATES
  else
    dungeon ← select_dungeon proposalDungeons;
    '(proposal, _) ← propose_players (keys proposalRoles) proposalRoles proposalGroups
       (LfgProposal_new <| queues := check |> <| isNew := new |> <| proposal_group := proposalGroup |>
          <| cancelTime := time_now + LFG_TIME_PROPOSAL |> <| state := LFG_PROPOSAL_INITIATING |>
          <| leader := 0 |> <| dungeonId := dungeon |>, false);
    for_each (queues proposal) (fun guid =>
      on_queue (fun q => RemoveFromCurrentQueue guid (RemoveFromNewQueue guid q)));;
    modify (fun s => s <| proposals ::= fun l => l ++ [proposal] |>);;
    answer key LFG_COMPATIBLES_MATCH.

(** Roles and dungeons in common; [inl] is an early answer. *)
Definition match_guids (check : LfgGuidList) (key : list Z) (numPlayers : Z)
    : QM (LfgCompatibility + (LfgDungeonSet * LfgRolesMap)) :=
  match check with
  | [] => abort UndefinedBehaviour
  | [gguid] =>
      d ← queue_data gguid;
      '(_, proposalRoles) ← check_roles (roles d);
      mret (inr (dungeons d, proposalRoles))
  | first :: others =>
      proposalRoles ← gather_roles check ∅;
      if negb (u8 (numPlayers - Z.of_nat (base.size proposalRoles)) =? 0)
      then c ← answer key LFG_INCOMPATIBLES_HAS_IGNORES; mret (inl c)
      else
        '(ok, proposalRoles) ← check_roles proposalRoles;
        if negb ok then c ← answer key LFG_INCOMPATIBLES_NO_ROLES; mret (inl c)
        else
          d ← queue_data first;
          proposalDungeons ← common_dungeons others (dungeons d);
          if bool_decide (proposalDungeons = ∅)
          then c ← answer key LFG_INCOMPATIBLES_NO_DUNGEONS; mret (inl c)
          else mret (inr (proposalDungeons, proposalRoles))
  end.

(** The body of [CheckCompatibility], after the check of all but the first. *)
Definition check_these (check : LfgGuidList) : QM LfgCompatibility :=
  let key := ConcatenateGuids check in
  counted ← count_players check (0, 0, 0, ∅);
  match counted with
  | None => mret LFG_COMPATIBILITY_PENDING
  | Some (numPlayers, numLfgGroups, proposalGroup, proposalGroups) =>
      if (zlen check =? 1) && negb (numPlayers =? MAXGROUPSIZE) then
        let guid := List.hd 0 check in
        q ← gets queue;
        match QueueDataStore q !! guid with
        | None => abort UndefinedBehaviour
        | Some d =>
            '(_, groles) ← check_roles (roles d);
            update_best guid key groles;;
            on_queue (SetCompatibilityData key
              (mkLfgCompatibilityData LFG_COMPATIBLES_WITH_LESS_PLAYERS groles));;
            mret LFG_COMPATIBLES_WITH_LESS_PLAYERS
        end
      else if 1 <? numLfgGroups then answer key LFG_INCOMPATIBLES_MULTIPLE_LFG_GROUPS
      else if MAXGROUPSIZE <? numPlayers then answer key LFG_INCOMPATIBLES_TOO_MUCH_PLAYERS
      else
        matched ← match_guids check key numPlayers;
        match matched with
        | inl c => mret c
        | inr (proposalDungeons, proposalRoles) =>
            if negb (numPlayers =? MAXGROUPSIZE) then
              for_each check (fun guid => update_best guid key proposalRoles);;
              on_queue (SetCompatibilityData key
                (mkLfgCompatibilityData LFG_COMPATIBLES_WITH_LESS_PLAYERS proposalRoles));;
              mret LFG_COMPATIBLES_WITH_LESS_PLAYERS
            else
              make_proposal check key numLfgGroups proposalGroup proposalGroups proposalDungeons proposalRoles
        end
  end.

Fixpoint CheckCompatibility (check : LfgGuidList) : QM LfgCompatibility :=
  match check with
  | [] => mret LFG_INCOMPATIBLES_WRONG_GROUP_SIZE
  | _ :: others =>
      if MAXGROUPSIZE <? zlen check then mret LFG_INCOMPATIBLES_WRONG_GROUP_SIZE
      else if 2 <? zlen check then
        child_compatibles ← CheckCompatibility others;
        if not_compatible child_compatibles then answer (ConcatenateGuids check) child_compatibles
        else check_these check
      else check_these check
  end.

(** [FindNewGroups] up to its loop. *)
Definition enter (check : LfgGuidList) : QM LfgCompatibility :=
  let strGuids := ConcatenateGuids check in
  q ← gets queue;
  compatibles ← (let c := GetCompatibles strGuids q in
                 if bool_decide (c = LFG_COMPATIBILITY_PENDING) then CheckCompatibility check else mret c);
  if bool_decide (compatibles = LFG_COMPATIBLES_BAD_STATES) && AllQueued check
  then answer strGuids LFG_COMPATIBLES_MATCH
  else mret compatibles.

(** The loop, which consumes [all]: the guids that a call does not look at are
    left to its caller.  [fuel] bounds the length of [all]. *)
Fixpoint try_all (fuel : nat) (check : LfgGuidList) (compatibles : LfgCompatibility) (all : LfgGuidList)
    : QM (LfgCompatibility * LfgGuidList) :=
  match fuel with
  | O => abort UndefinedBehaviour
  | S fuel' =>
      match all with
      | [] => mret (compatibles, [])
      | guid :: all =>
          sub ← enter (check ++ [guid]);
          '(sub, all) ← (if bool_decide (sub = LFG_COMPATIBLES_WITH_LESS_PLAYERS)
                         then try_all fuel' (check ++ [guid]) sub all
                         else mret (sub, all));
          if bool_decide (sub = LFG_COMPATIBLES_MATCH) then mret (LFG_COMPATIBLES_MATCH, all)
          else try_all fuel' check compatibles all
      end
  end.

Definition FindNewGroups (check all : LfgGuidList) : QM (LfgCompatibility * LfgGuidList) :=
  compatibles ← enter check;
  if bool_decide (compatibles = LFG_COMPATIBLES_WITH_LESS_PLAYERS)
  then try_all (S (length all)) check compatibles all
  else mret (compatibles, all).

Fixpoint FindGroups_loop (fuel : nat) (found : Z) : QM Z :=
  match fuel with
  | O => abort UndefinedBehaviour
  | S fuel' =>
      q ← gets queue;
      match newToQueueStore q with
      | [] => mret found
      | frontguid :: _ =>
          on_queue (RemoveFromNewQueue frontguid);;
          q ← gets queue;
          '(compatibles, _) ← FindNewGroups [frontguid] (currentQueueStore q);
          if bool_decide (compatibles = LFG_COMPATIBLES_MATCH) then FindGroups_loop fuel' (u8 (found + 1))
          else on_queue (AddToCurrentQueue frontguid);; FindGroups_loop fuel' found
      end
  end.

Definition FindGroups : QM Z :=
  q ← gets queue;
  FindGroups_loop (S (length (newToQueueStore q))) 0.

(** The status sent to the players of an entry. *)
Definition wait_time (store : gmap Z LfgWaitTime) (dungeonId : Z) : Z :=
  wt_time (default LfgWaitTime_new (store !! dungeonId)).

Definition queue_status (q : LFGQueue) (queueId currTime dungeonId : Z) (d : LfgQueueData) : LfgQueueStatusData :=
  let role := Z.land (fold_left Z.lor (map (fun k => default 0 (roles d !! k)) (keys (roles d))) 0)
                (u8 (Z.lnot PLAYER_ROLE_LEADER)) in
  let wtTank := wait_time (waitTimesTankStore q) dungeonId in
  let wtHealer := wait_time (waitTimesHealerStore q) dungeonId in
  let wtDps := wait_time (waitTimesDpsStore q) dungeonId in
  let wtAvg := wait_time (waitTimesAvgStore q) dungeonId in
  let waitTime :=
    if role =? PLAYER_ROLE_NONE then -1
    else if role =? PLAYER_ROLE_TANK then wtTank
    else if role =? PLAYER_ROLE_HEALER then wtHealer
    else if role =? PLAYER_ROLE_DAMAGE then wtDps
    else wtAvg in
  mkLfgQueueStatusData queueId dungeonId (joinTime d) waitTime wtAvg wtTank wtHealer wtDps
    (u32 (currTime - joinTime d)) (tanks d) (healers d) (dps d).

(** [waitTimes...Store[dungeonId]] makes the entries it does not find. *)
Definition touch (dungeonId : Z) (store : gmap Z LfgWaitTime) : gmap Z LfgWaitTime :=
  match store !! dungeonId with
  | Some _ => store
  | None => <[dungeonId := LfgWaitTime_new]> store
  end.

Definition UpdateQueueTimers (queueId currTime : Z) : QM () :=
  q ← gets queue;
  for_each (keys (QueueDataStore q)) (fun guid =>
    d ← queue_data guid;
    match in_order (dungeons d) with
    | [] => abort UndefinedBehaviour
    | dungeonId :: _ =>
        on_queue (fun q => q <| waitTimesTankStore ::= touch dungeonId |>
          <| waitTimesHealerStore ::= touch dungeonId |> <| waitTimesDpsStore ::= touch dungeonId |>
          <| waitTimesAvgStore ::= touch dungeonId |>);;
        when (bool_decide (bestCompatible d = []))
          (on_queue (fun q => q <| QueueDataStore ::=
             alter (FindBestCompatibleInQueue (CompatibleMapStore q) guid) guid |>));;
        d ← queue_data guid;
        q ← gets queue;
        for_each (keys (roles d)) (fun pguid =>
          modify (fun s => s <| statuses ::= fun l =>
            l ++ [(pguid, queue_status q queueId currTime dungeonId d)] |>))
    end).
End Search.
