(* ===== verification/LFGRoles.v ===== *)
(** * Roles of a group

    [CheckGroupRoles] searches, in place and by backtracking, for a choice of
    one role for each player.  It finds one whenever there is one. *)

From stdpp Require Import sorting.
From S2P Require Import Prelude Maps Guid Text LFG.

(** ** The specification *)

Definition is_role (x : Z) : bool :=
  (x =? PLAYER_ROLE_TANK) || (x =? PLAYER_ROLE_HEALER) || (x =? PLAYER_ROLE_DAMAGE).

(** A player who chose the roles [r], and nothing else, can play [x]. *)
Definition plays (r x : Z) : bool := is_role x && has_flag r x && (Z.land r 0xF1 =? 0).

(** One role for each player. *)
Definition assigns (m f : LfgRolesMap) : Prop :=
  forall k, match m !! k, f !! k with
            | Some r, Some x => plays r x = true
            | None, None => True
            | _, _ => False
            end.

(** The players with a role. *)
Definition with_role (m : LfgRolesMap) (x : Z) : list Z -> list Z := filter (fun k => m !! k = Some x).
Definition role_count (m : LfgRolesMap) (x : Z) : Z := zlen (with_role m x (keys m)).

(** No more of a role than a group needs. *)
Definition party (f : LfgRolesMap) : Prop :=
  role_count f PLAYER_ROLE_DAMAGE <= LFG_DPS_NEEDED /\
  role_count f PLAYER_ROLE_HEALER <= LFG_HEALERS_NEEDED /\
  role_count f PLAYER_ROLE_TANK <= LFG_TANKS_NEEDED.

Definition feasible (m : LfgRolesMap) : Prop := exists f, assigns m f /\ party f.

Definition bytes_ok (m : LfgRolesMap) : Prop := map_Forall (fun _ r => in_width 8 r) m.

(** What an answer of the search means. *)
Definition answers (m : LfgRolesMap) (b : bool) (m' : LfgRolesMap) : Prop :=
  if b then assigns m m' /\ party m' else m' = m /\ ~ feasible m.

(** ** Bytes *)

(** What holds of all bytes is computed. *)
Lemma byte_forall (P : Z -> bool) : forallb P (seqZ 0 256) = true -> forall r, in_width 8 r -> P r = true.
Proof.
  intros Hall r Hr. rewrite forallb_forall in Hall. apply Hall. rewrite <- list_elem_of_In.
  apply elem_of_seqZ. unfold in_width in Hr. lia.
Qed.

Definition three_roles : list Z := [PLAYER_ROLE_TANK; PLAYER_ROLE_HEALER; PLAYER_ROLE_DAMAGE].

Lemma is_role_in x : is_role x = true <-> x ∈ three_roles.
Proof. unfold is_role, three_roles. rewrite !orb_true_iff, !Z.eqb_eq, !elem_of_cons, elem_of_nil. tauto. Qed.

Lemma role_forall (P : Z -> Z -> bool) :
  forallb (fun r => forallb (P r) three_roles) (seqZ 0 256) = true ->
  forall r x, in_width 8 r -> is_role x = true -> P r x = true.
Proof.
  intros Hall r x Hr Hx. pose proof (byte_forall _ Hall r Hr) as Hf. cbn beta in Hf.
  rewrite forallb_forall in Hf. apply Hf. by rewrite <- list_elem_of_In, <- is_role_in.
Qed.

(** Removing a role: a byte again, with one role less and the others kept. *)
Lemma remove_role r x :
  in_width 8 r -> is_role x = true -> has_flag r x = true ->
  in_width 8 (r - x) /\ u8 (r - x) = r - x /\ u8 (r - x + x) = r /\
  (role_bits (r - x) < role_bits r)%nat /\
  (forall y, plays (r - x) y = true -> plays r y = true) /\
  (forall y, is_role y = true -> y <> x -> plays r y = true -> plays (r - x) y = true).
Proof.
  intros Hr Hx Hf.
  assert (Hall := role_forall (fun r x => implb (has_flag r x)
    ((0 <=? r - x) && (r - x <? 256) && Nat.ltb (role_bits (r - x)) (role_bits r) &&
     forallb (fun y => implb (plays (r - x) y) (plays r y) &&
                       implb (negb (y =? x)) (implb (plays r y) (plays (r - x) y))) three_roles))
    ltac:(vm_compute; reflexivity) r x Hr Hx). cbn beta in Hall. rewrite Hf in Hall. cbn [implb] in Hall.
  rewrite !andb_true_iff in Hall. destruct Hall as [[[Hlo Hhi] Hbits] Hplays].
  assert (Hw : in_width 8 (r - x)) by (unfold in_width; lia).
  rewrite forallb_forall in Hplays.
  assert (Hy : forall y, is_role y = true -> y ∈ three_roles) by (intros y; apply is_role_in).
  split; [done|]. split; [by apply wrap_small|]. split; [rewrite wrap_small; [lia|]; by replace (r - x + x) with r by lia|].
  split; [by apply Nat.ltb_lt|].
  assert (Hrole : forall a y, plays a y = true -> is_role y = true).
  { intros a y. unfold plays. destruct (is_role y); [done|by intros]. }
  split.
  - intros y Hp. pose proof (Hplays y) as H. rewrite <- list_elem_of_In in H.
    specialize (H (Hy _ (Hrole _ _ Hp))). rewrite Hp in H. by destruct (plays r y).
  - intros y Hry Hne Hp. pose proof (Hplays y) as H. rewrite <- list_elem_of_In in H.
    specialize (H (Hy _ Hry)). rewrite (proj2 (Z.eqb_neq _ _) Hne), Hp in H. cbn in H.
    apply andb_true_iff in H as [_ H]. done.
Qed.

(** A player with one role alone. *)
Lemma plays_role x y : is_role x = true -> plays x y = true -> y = x.
Proof.
  rewrite is_role_in. unfold plays. intros Hx Hp. apply andb_true_iff in Hp as [Hp _].
  apply andb_true_iff in Hp as [Hy Hf]. apply is_role_in in Hy. unfold three_roles in *.
  rewrite !elem_of_cons, elem_of_nil in *. naive_solver.
Qed.

Lemma plays_self x : is_role x = true -> plays x x = true.
Proof. rewrite is_role_in. unfold three_roles. rewrite !elem_of_cons, elem_of_nil. naive_solver. Qed.

Lemma plays_other r x :
  in_width 8 r -> plays r x = true -> r <> x ->
  exists y, is_role y = true /\ y <> x /\ has_flag r y = true.
Proof.
  intros Hr Hp Hne. assert (Hx : is_role x = true) by (unfold plays in Hp; by destruct (is_role x)).
  assert (Hall := role_forall (fun r x => implb (plays r x) ((r =? x) ||
    existsb (fun y => negb (y =? x) && has_flag r y) three_roles)) ltac:(vm_compute; reflexivity) r x Hr Hx).
  cbn beta in Hall. rewrite Hp, (proj2 (Z.eqb_neq _ _) Hne) in Hall. cbn [implb orb] in Hall.
  apply existsb_exists in Hall as (y & Hy & H). rewrite <- list_elem_of_In, <- is_role_in in Hy.
  apply andb_true_iff in H as [H1 H2]. exists y. split_and!; [done| |done].
  by apply negb_true_iff, Z.eqb_neq in H1.
Qed.

(** ** Maps of roles *)

Lemma roles_chosen_insert m k r r' :
  m !! k = Some r -> (role_bits r' < role_bits r)%nat ->
  (roles_chosen (<[k := r']> m) < roles_chosen m)%nat.
Proof.
  intros Hk Hlt. unfold roles_chosen.
  assert (Hc : forall r0 (m0 : LfgRolesMap), m0 !! k = None ->
    map_fold (fun _ r n => (role_bits r + n)%nat) O (<[k := r0]> m0)
    = (role_bits r0 + map_fold (fun _ r n => (role_bits r + n)%nat) O m0)%nat).
  { intros r0 m0 Hm0. apply (map_fold_insert_L (fun _ r n => (role_bits r + n)%nat) O k r0 m0); [|done]. intros. lia. }
  rewrite <- (insert_delete_id m k r) at 2 by done. rewrite <- (insert_delete_eq m k r').
  rewrite !Hc by apply lookup_delete_eq. lia.
Qed.

Lemma assigns_lookup m f k r : assigns m f -> m !! k = Some r -> exists x, f !! k = Some x /\ plays r x = true.
Proof. intros Ha Hk. specialize (Ha k). rewrite Hk in Ha. destruct (f !! k) as [x|]; [eauto|done]. Qed.

Lemma assigns_keys m f : assigns m f -> keys f = keys m.
Proof.
  intros Ha. apply keys_unique; [apply keys_sorted|apply NoDup_keys|]. intros k. rewrite elem_of_keys.
  specialize (Ha k). destruct (m !! k), (f !! k); try done; split; intros [? ?]; eauto; done.
Qed.

Lemma with_role_app m x l1 l2 : with_role m x (l1 ++ l2) = with_role m x l1 ++ with_role m x l2.
Proof. apply filter_app. Qed.

(** The players who have a role alone keep it. *)
Lemma with_role_assigns m f x l :
  assigns m f -> is_role x = true -> zlen (with_role m x l) <= zlen (with_role f x l).
Proof.
  intros Ha Hx. induction l as [|k l IH]; [done|]. unfold with_role in *. rewrite !filter_cons.
  destruct (decide (m !! k = Some x)) as [Hk|].
  - destruct (assigns_lookup m f k x Ha Hk) as (y & Hy & Hp). apply plays_role in Hp as ->; [|done].
    rewrite decide_True by done. unfold zlen in *. cbn [length]. lia.
  - destruct (decide _); unfold zlen in *; cbn [length]; lia.
Qed.

Lemma assigns_remove m f k r x :
  m !! k = Some r -> in_width 8 r -> is_role x = true -> has_flag r x = true ->
  assigns (<[k := r - x]> m) f -> assigns m f.
Proof.
  intros Hk Hr Hx Hf Ha j. specialize (Ha j). destruct (decide (j = k)) as [->|].
  - rewrite lookup_insert_eq in Ha. rewrite Hk. destruct (f !! k); [|done].
    by apply (remove_role r x Hr Hx Hf).
  - by rewrite lookup_insert_ne in Ha.
Qed.

(** If no choice is left without any of the several roles of a player, there is
    none. *)
Lemma infeasible m k r :
  m !! k = Some r -> in_width 8 r -> is_role r = false ->
  (forall x, is_role x = true -> has_flag r x = true -> ~ feasible (<[k := r - x]> m)) -> ~ feasible m.
Proof.
  intros Hk Hr Hnot Hno (f & Ha & Hparty). destruct (assigns_lookup m f k r Ha Hk) as (x & Hx & Hp).
  assert (Hne : r <> x). { intros ->. unfold plays in Hp. by rewrite Hnot in Hp. }
  destruct (plays_other r x Hr Hp Hne) as (y & Hy & Hyx & Hfy).
  apply (Hno y Hy Hfy). exists f. split; [|done]. intros j. specialize (Ha j).
  destruct (decide (j = k)) as [->|]; [|by rewrite lookup_insert_ne].
  rewrite lookup_insert_eq, Hx. apply (remove_role r y Hr Hy Hfy); [|done|done].
  unfold plays in Hp. by destruct (is_role x).
Qed.

(** Too many players with a role alone, whatever the others choose. *)
Lemma too_many m x l n :
  is_role x = true -> (forall f, party f -> role_count f x <= n) ->
  (forall f, assigns m f -> exists l', keys f = l ++ l') -> n < zlen (with_role m x l) -> ~ feasible m.
Proof.
  intros Hx Hn Hl Hlt (f & Ha & Hp). specialize (Hn f Hp). destruct (Hl f Ha) as [l' Hk].
  unfold role_count in Hn. rewrite Hk, with_role_app, zlen_app in Hn.
  pose proof (with_role_assigns m f x l Ha Hx). pose proof (zlen_nonneg (with_role f x l')). lia.
Qed.

(** What a group needs of each role. *)
Lemma party_tanks f : party f -> role_count f PLAYER_ROLE_TANK <= LFG_TANKS_NEEDED.
Proof. by intros (_ & _ & H). Qed.
Lemma party_healers f : party f -> role_count f PLAYER_ROLE_HEALER <= LFG_HEALERS_NEEDED.
Proof. by intros (_ & H & _). Qed.
Lemma party_damage f : party f -> role_count f PLAYER_ROLE_DAMAGE <= LFG_DPS_NEEDED.
Proof. by intros (H & _ & _). Qed.

(** Equality tests of constants, evaluated. *)
Ltac eval_eqb :=
  repeat match goal with
  | _ : context [?a =? ?b] |- _ =>
      let v := eval vm_compute in (a =? b) in
      match v with true => idtac | false => idtac end; change (a =? b) with v in *
  | |- context [?a =? ?b] =>
      let v := eval vm_compute in (a =? b) in
      match v with true => idtac | false => idtac end; change (a =? b) with v
  end; cbn [Z.b2z] in *.

(** ** The search *)

(** What the loop knows of the players [ps] it has passed: either they have a
    role alone each, and the counts are theirs, or there is no choice. *)
Record passed (m : LfgRolesMap) (ps : list Z) (d h t : Z) : Prop := {
  ps_bounds : 0 <= d <= LFG_DPS_NEEDED /\ 0 <= h <= LFG_HEALERS_NEEDED /\ 0 <= t <= LFG_TANKS_NEEDED;
  ps_le : d + h + t <= zlen ps;
  ps_good : d + h + t = zlen ps ->
    (forall k, k ∈ ps -> exists x, m !! k = Some x /\ is_role x = true) /\
    d = zlen (with_role m PLAYER_ROLE_DAMAGE ps) /\ h = zlen (with_role m PLAYER_ROLE_HEALER ps) /\
    t = zlen (with_role m PLAYER_ROLE_TANK ps);
  ps_bad : d + h + t < zlen ps -> ~ feasible m
}.

(** The recursive calls answer right on maps with fewer roles. *)
Definition recurses (m : LfgRolesMap) (recurse : LfgRolesMap -> option (bool * LfgRolesMap)) : Prop :=
  forall m', (roles_chosen m' < roles_chosen m)%nat -> keys m' = keys m -> bytes_ok m' ->
    exists b m'', recurse m' = Some (b, m'') /\ answers m' b m''.

Lemma try_role_spec recurse m k r role needed count :
  recurses m recurse -> bytes_ok m -> m !! k = Some r -> is_role role = true ->
  try_role recurse k role needed m count =
    (if has_flag r role then
       if r =? role then
         if count =? needed then Some (inl (false, m)) else Some (inr (m, u8 (count + 1)))
       else try_role recurse k role needed m count
     else Some (inr (m, count))) /\
  (has_flag r role = true -> r <> role ->
   (exists m', try_role recurse k role needed m count = Some (inl (true, m')) /\ assigns m m' /\ party m') \/
   (try_role recurse k role needed m count = Some (inr (m, count)) /\ ~ feasible (<[k := r - role]> m))).
Proof.
  intros Hrec Hok Hk Hrole. assert (Hr : in_width 8 r) by by apply (Hok k).
  unfold try_role. rewrite Hk. change (default 0 (Some r)) with r. split.
  { destruct (has_flag r role); [|done]. by destruct (r =? role). }
  intros Hf Hne. destruct (remove_role r role Hr Hrole Hf) as (Hw & Hu & Hback & Hlt & Hkeep & _).
  rewrite Hf, (proj2 (Z.eqb_neq _ _) Hne), Hu. cbn [negb].
  destruct (Hrec (<[k := r - role]> m)) as (b & m' & -> & Hans).
  - by eapply roles_chosen_insert.
  - apply keys_insert. by eexists.
  - intros j x. destruct (decide (j = k)) as [->|].
    + rewrite lookup_insert_eq. by intros [= <-].
    + rewrite lookup_insert_ne by done. apply Hok.
  - destruct b.
    + left. exists m'. destruct Hans as [Ha Hp]. split_and!; [done| |done]. by eapply assigns_remove.
    + right. destruct Hans as [-> Hno]. split; [|done].
      rewrite lookup_insert_eq. change (default 0 (Some (r - role))) with (r - role). rewrite Hback, insert_insert_eq.
      by rewrite insert_id by done.
Qed.

Lemma with_role_snoc m k x y ps :
  m !! k = Some x -> zlen (with_role m y (ps ++ [k])) = zlen (with_role m y ps) + Z.b2z (x =? y).
Proof.
  intros Hk. rewrite with_role_app, zlen_app. f_equal. unfold with_role.
  rewrite filter_cons, filter_nil, Hk. destruct (Z.eqb_spec x y) as [->|Hne].
  - by rewrite decide_True.
  - rewrite decide_False by congruence. done.
Qed.

(** A role is one of the three. *)
Lemma role_indicator x :
  is_role x = true ->
  Z.b2z (x =? PLAYER_ROLE_DAMAGE) + Z.b2z (x =? PLAYER_ROLE_HEALER) + Z.b2z (x =? PLAYER_ROLE_TANK) = 1.
Proof.
  rewrite is_role_in. unfold three_roles. rewrite !elem_of_cons, elem_of_nil.
  by intros [->|[->|[->|[]]]].
Qed.

(** One more player with a role alone. *)
Lemma passed_alone m ps k x d h t :
  passed m ps d h t -> m !! k = Some x -> is_role x = true ->
  let d' := d + Z.b2z (x =? PLAYER_ROLE_DAMAGE) in
  let h' := h + Z.b2z (x =? PLAYER_ROLE_HEALER) in
  let t' := t + Z.b2z (x =? PLAYER_ROLE_TANK) in
  d' <= LFG_DPS_NEEDED -> h' <= LFG_HEALERS_NEEDED -> t' <= LFG_TANKS_NEEDED ->
  passed m (ps ++ [k]) d' h' t'.
Proof.
  intros [Hb Hle Hgood Hbad] Hk Hx d' h' t' Hd Hh Ht.
  assert (Hsum : d' + h' + t' = d + h + t + 1).
  { pose proof (role_indicator x Hx). unfold d', h', t'. lia. }
  assert (Hlen : zlen (ps ++ [k]) = zlen ps + 1) by (by rewrite zlen_app).
  split.
  - assert (Hb2z : forall b, 0 <= Z.b2z b) by (by intros []). unfold d', h', t' in *.
    pose proof (Hb2z (x =? PLAYER_ROLE_DAMAGE)). pose proof (Hb2z (x =? PLAYER_ROLE_HEALER)).
    pose proof (Hb2z (x =? PLAYER_ROLE_TANK)). lia.
  - lia.
  - intros Heq. destruct Hgood as (Hall & -> & -> & ->); [lia|]. split.
    + intros j. rewrite elem_of_app, list_elem_of_singleton. intros [Hj| ->]; [by apply Hall|eauto].
    + unfold d', h', t'. by rewrite !(with_role_snoc m k x).
  - intros Hlt. apply Hbad. lia.
Qed.

(** A player with several roles, none of which he can do without. *)
Lemma passed_stuck m ps k d h t :
  passed m ps d h t -> ~ feasible m -> passed m (ps ++ [k]) d h t.
Proof.
  intros [Hb Hle Hgood Hbad] Hno.
  assert (Hlen : zlen (ps ++ [k]) = zlen ps + 1) by (by rewrite zlen_app).
  split; [done|lia|lia|done].
Qed.

(** One player too many with a role alone. *)
Lemma passed_full m ps ks k x d h t n c :
  passed m ps d h t -> keys m = ps ++ k :: ks -> m !! k = Some x -> is_role x = true ->
  (forall f, party f -> role_count f x <= n) -> c = n ->
  (d + h + t = zlen ps -> c = zlen (with_role m x ps)) -> ~ feasible m.
Proof.
  intros [Hb Hle Hgood Hbad] Hkeys Hk Hx Hn -> Hc.
  destruct (decide (d + h + t = zlen ps)) as [Heq|]; [|apply Hbad; lia].
  apply (too_many m x (ps ++ [k]) n Hx Hn).
  - intros f Ha. exists ks. rewrite (assigns_keys m f Ha), Hkeys. by rewrite <- app_assoc.
  - rewrite (with_role_snoc m k x x) by done. rewrite Z.eqb_refl, <- Hc by done. cbn. lia.
Qed.

(** At the end, either everybody has a role or there is no choice. *)
Lemma passed_all m d h t :
  passed m (keys m) d h t -> Z.of_nat (base.size m) < 256 ->
  answers m (t + h + d =? u8 (Z.of_nat (base.size m))) m.
Proof.
  intros [Hb Hle Hgood Hbad] Hsize.
  assert (Hlen : zlen (keys m) = Z.of_nat (base.size m)) by (unfold zlen; by rewrite length_keys).
  rewrite wrap_small by (unfold in_width; lia). rewrite <- Hlen. unfold answers.
  destruct (Z.eqb_spec (t + h + d) (zlen (keys m))) as [Heq|Hne].
  - destruct Hgood as (Hall & Hd & Hh & Ht); [lia|]. split.
    + intros k. destruct (m !! k) as [r|] eqn:Hk; [|done].
      destruct (Hall k) as (x & Hx & Hrole); [apply elem_of_keys; eauto|].
      rewrite Hk in Hx. injection Hx as ->. by apply plays_self.
    + unfold party, role_count. rewrite <- Hd, <- Hh, <- Ht. lia.
  - split; [done|]. apply Hbad. lia.
Qed.

(** A player with one role alone: the try of that role counts him, or gives up
    when the group has enough. *)
Lemma try_alone recurse m k x role needed count :
  m !! k = Some x -> is_role x = true -> is_role role = true ->
  try_role recurse k role needed m count =
    if x =? role then if count =? needed then Some (inl (false, m)) else Some (inr (m, u8 (count + 1)))
    else Some (inr (m, count)).
Proof.
  rewrite !is_role_in. unfold three_roles. rewrite !elem_of_cons, !elem_of_nil.
  unfold try_role. intros ->. change (default 0 (Some x)) with x.
  by intros [->|[->|[->|[]]]] [->|[->|[->|[]]]].
Qed.

(** A player with several roles: one of the tries succeeds, or nothing is left. *)
Lemma try_several recurse m k r role needed count :
  recurses m recurse -> bytes_ok m -> m !! k = Some r -> is_role r = false -> is_role role = true ->
  (exists m', try_role recurse k role needed m count = Some (inl (true, m')) /\ assigns m m' /\ party m') \/
  (try_role recurse k role needed m count = Some (inr (m, count)) /\
   (has_flag r role = true -> ~ feasible (<[k := r - role]> m))).
Proof.
  intros Hrec Hok Hk Hr Hrole.
  destruct (try_role_spec recurse m k r role needed count Hrec Hok Hk Hrole) as [Heq Hmore].
  destruct (has_flag r role) eqn:Hf; [|right; by rewrite Heq].
  destruct Hmore as [Hyes|[Hno1 Hno2]]; [done|by intros ->; rewrite Hr in Hrole|by left|by right].
Qed.

Ltac eval_tries := repeat (erewrite try_alone by done; eval_eqb; cbv iota).

Lemma loop_spec recurse m ks ps d h t :
  recurses m recurse -> bytes_ok m -> Z.of_nat (base.size m) < 256 -> keys m = ps ++ ks ->
  passed m ps d h t ->
  exists b m', CheckGroupRoles_loop recurse ks m d h t = Some (b, m') /\ answers m b m'.
Proof.
  intros Hrec Hok Hsize. revert ps d h t.
  induction ks as [|k ks IH]; intros ps d h t Hkeys Hps; cbn [CheckGroupRoles_loop].
  { rewrite app_nil_r in Hkeys. subst ps. do 2 eexists. split; [done|]. by apply passed_all. }
  assert (Hk : is_Some (m !! k)) by (apply elem_of_keys; rewrite Hkeys; set_solver).
  destruct Hk as [r Hk]. rewrite Hk. change (default 0 (Some r)) with r.
  assert (Hnext : keys m = (ps ++ [k]) ++ ks) by by rewrite <- app_assoc.
  destruct (Z.eqb_spec r PLAYER_ROLE_NONE) as [->|Hr0].
  { do 2 eexists. split; [done|]. split; [done|]. intros (f & Ha & _).
    destruct (assigns_lookup m f k _ Ha Hk) as (x & _ & Hp). unfold plays in Hp.
    by rewrite andb_false_r in Hp. }
  destruct (is_role r) eqn:Hr.
  - pose proof (ps_bounds _ _ _ _ _ Hps) as (Hd & Hh & Ht).
    assert (Hgive : forall c n, (forall f, party f -> role_count f r <= n) -> c = n ->
      (d + h + t = zlen ps -> c = zlen (with_role m r ps)) ->
      exists b m', Some (false, m) = Some (b, m') /\ answers m b m').
    { intros c n Hn Hc Hcount. exists false, m. split; [done|]. split; [done|].
      by apply (passed_full m ps ks k r d h t n c). }
    pose proof (passed_alone m ps k r d h t Hps Hk Hr) as Hmore. cbv zeta in Hmore.
    pose proof (proj1 (is_role_in r) Hr) as Hin. unfold three_roles in Hin.
    rewrite !elem_of_cons, elem_of_nil in Hin.
    destruct Hin as [->|[->|[->|[]]]];
      eval_tries.
    + destruct (Z.eqb_spec t LFG_TANKS_NEEDED) as [Heq|Hne].
      { apply (Hgive t LFG_TANKS_NEEDED); [apply party_tanks|done|]. intros He. by apply Hps. }
      rewrite wrap_small by (unfold in_width, LFG_TANKS_NEEDED in *; lia). eval_tries.
      apply (IH (ps ++ [k])); [done|]. rewrite !Z.add_0_r in Hmore. apply Hmore; lia.
    + destruct (Z.eqb_spec h LFG_HEALERS_NEEDED) as [Heq|Hne].
      { apply (Hgive h LFG_HEALERS_NEEDED); [apply party_healers|done|]. intros He. by apply Hps. }
      rewrite wrap_small by (unfold in_width, LFG_HEALERS_NEEDED in *; lia). eval_tries.
      apply (IH (ps ++ [k])); [done|]. rewrite !Z.add_0_r in Hmore. apply Hmore; lia.
    + destruct (Z.eqb_spec d LFG_DPS_NEEDED) as [Heq|Hne].
      { apply (Hgive d LFG_DPS_NEEDED); [apply party_damage|done|]. intros He. by apply Hps. }
      rewrite wrap_small by (unfold in_width, LFG_DPS_NEEDED in *; lia). eval_tries.
      apply (IH (ps ++ [k])); [done|]. rewrite !Z.add_0_r in Hmore. apply Hmore; lia.
  - assert (Hyes : forall m', assigns m m' -> party m' ->
      exists b m'', Some (true, m') = Some (b, m'') /\ answers m b m'') by (intros m' Ha Hp; by exists true, m').
    destruct (try_several recurse m k r PLAYER_ROLE_DAMAGE LFG_DPS_NEEDED d) as [(m' & -> & Ha & Hp)|[-> HD]];
      [done..|by apply Hyes|].
    destruct (try_several recurse m k r PLAYER_ROLE_HEALER LFG_HEALERS_NEEDED h) as [(m' & -> & Ha & Hp)|[-> HH]];
      [done..|by apply Hyes|].
    destruct (try_several recurse m k r PLAYER_ROLE_TANK LFG_TANKS_NEEDED t) as [(m' & -> & Ha & Hp)|[-> HT]];
      [done..|by apply Hyes|].
    apply (IH (ps ++ [k])); [done|]. apply passed_stuck; [done|].
    apply (infeasible m k r Hk (Hok k r Hk) Hr). intros x Hx%is_role_in. unfold three_roles in Hx.
    rewrite !elem_of_cons, elem_of_nil in Hx. by destruct Hx as [->|[->|[->|[]]]].
Qed.

(** Enough fuel for the roles that are left to remove. *)
Lemma search_spec fuel m :
  (roles_chosen m < fuel)%nat -> m <> ∅ -> bytes_ok m -> Z.of_nat (base.size m) < 256 ->
  exists b m', CheckGroupRoles_fuel fuel m false = Some (b, m') /\ answers m b m'.
Proof.
  revert m. induction fuel as [|fuel IH]; intros m Hf Hne Hok Hsize; [lia|]. cbn [CheckGroupRoles_fuel].
  rewrite bool_decide_eq_false_2 by done.
  apply (loop_spec _ m (keys m) []); [|done..|].
  - intros m' Hlt Hkeys Hok'. apply IH; [lia| |done|].
    + intros ->. apply Hne. apply map_empty. intros k. destruct (m !! k) eqn:Hk; [|done].
      assert (Hin : k ∈ keys m) by (apply elem_of_keys; eauto). rewrite <- Hkeys in Hin.
      apply elem_of_keys in Hin as [? Hin]. by rewrite lookup_empty in Hin.
    + rewrite <- (length_keys m'), Hkeys, length_keys. done.
  - split; [split_and!; done|done| |done]. intros _. split; [|done]. intros k Hk. by apply not_elem_of_nil in Hk.
Qed.

(** ** The check of the roles of a group *)

Lemma remove_leader_ok m : bytes_ok m -> bytes_ok (remove_leader m).
Proof.
  intros Hok k x. unfold remove_leader. rewrite lookup_fmap. destruct (m !! k) as [r|] eqn:Hk; [|done].
  intros [= <-]. apply in_width_land; [lia|by apply (Hok k)|]. by vm_compute.
Qed.

Lemma roles_chosen_remove_leader m : bytes_ok m -> roles_chosen (remove_leader m) = roles_chosen m.
Proof.
  unfold remove_leader, roles_chosen. induction m as [|k r m Hk _ IH] using map_first_key_ind; intros Hok.
  - by rewrite fmap_empty.
  - assert (Hm : bytes_ok m) by (by apply map_Forall_insert_1_2 in Hok).
    assert (Hr : in_width 8 r) by (apply (Hok k); by rewrite lookup_insert_eq).
    rewrite fmap_insert. rewrite !(map_fold_insert_L (fun _ r n => (role_bits r + n)%nat)); try done.
    + rewrite IH by done. f_equal.
      pose proof (byte_forall (fun r => Nat.eqb (role_bits (Z.land r (u8 (Z.lnot PLAYER_ROLE_LEADER)))) (role_bits r))
        ltac:(vm_compute; reflexivity) r Hr) as He. by apply Nat.eqb_eq in He.
    + intros. lia.
    + intros. lia.
    + by rewrite lookup_fmap, Hk.
Qed.

Lemma CheckGroupRoles_spec groles :
  groles <> ∅ -> bytes_ok groles -> Z.of_nat (base.size groles) < 256 ->
  exists b groles', CheckGroupRoles groles = Some (b, groles') /\ answers (remove_leader groles) b groles'.
Proof.
  intros Hne Hok Hsize. unfold CheckGroupRoles. cbn [CheckGroupRoles_fuel].
  rewrite bool_decide_eq_false_2 by done.
  pose proof (remove_leader_ok _ Hok) as Hok'.
  assert (Hsize' : base.size (remove_leader groles) = base.size groles) by apply map_size_fmap.
  assert (Hkeys : keys groles = keys (remove_leader groles)) by (symmetry; apply keys_fmap).
  apply (loop_spec _ _ (keys (remove_leader groles)) []); [|done|by rewrite Hsize'|done|].
  - intros m' Hlt Hk Hm'. rewrite roles_chosen_remove_leader in Hlt by done.
    apply search_spec; [done| |done|].
    + intros ->. apply Hne. apply map_size_empty_inv. rewrite <- length_keys, Hkeys, <- Hk. done.
    + rewrite <- length_keys, Hk, length_keys. by rewrite Hsize'.
  - split; [split_and!; done|done| |done]. intros _. split; [|done]. intros k Hk. by apply not_elem_of_nil in Hk.
Qed.

(** C19.  The roles of a group.  For players with any choices of roles, the search
    ends and answers whether each can be given one of his roles with no more
    than one tank, one healer and three damage dealers among them; if so, it
    leaves such an assignment in the map, and otherwise the choices as they
    were, without the flag of the leader. *)
Theorem group_roles (groles : LfgRolesMap) :
  groles <> ∅ -> map_Forall (fun _ r => in_width 8 r) groles -> Z.of_nat (base.size groles) < 256 ->
  exists b groles', CheckGroupRoles groles = Some (b, groles') /\
    (b = true <-> exists f, assigns (remove_leader groles) f /\ party f) /\
    (if b then assigns (remove_leader groles) groles' /\ party groles' else groles' = remove_leader groles).
Proof.
  intros Hne Hok Hsize. destruct (CheckGroupRoles_spec groles Hne Hok Hsize) as (b & g' & -> & Ha).
  exists b, g'. split; [done|]. destruct b; cbn in Ha.
  - split; [|done]. split; [intros _; by exists g'|done].
  - destruct Ha as [-> Hno]. split; [|done]. split; [done|]. intros Hyes. by destruct Hno.
Qed.

(** Five players with several roles each. *)
Definition sample_roles : LfgRolesMap := list_to_map [(1, 0x0F); (2, 0x0C); (3, 0x0A); (4, 8); (5, 8)].

Lemma group_roles_witness :
  Z.of_nat (base.size sample_roles) < 256 /\
  exists b groles', CheckGroupRoles sample_roles = Some (b, groles') /\
    (b = true <-> exists f, assigns (remove_leader sample_roles) f /\ party f) /\
    (if b then assigns (remove_leader sample_roles) groles' /\ party groles'
     else groles' = remove_leader sample_roles).
Proof.
  split; [by vm_compute|]. apply group_roles.
  - by vm_compute.
  - apply (bool_decide_unpack _). by vm_compute.
  - by vm_compute.
Defined.
