(* ===== verification/LFGKeys.v ===== *)
(** * Keys of the cache of the dungeon finder

    A set of waiting players and groups is known in the cache by their GUIDs in
    decimal, in increasing order, between bars.  The key determines the set, and
    a GUID of the set is found in the key as a substring; but a substring may be
    found that is no GUID of the set. *)

From stdpp Require Import sorting.
From S2P Require Import Prelude Maps Guid Text TextProps LFG.

(** ** Sets in order *)

Lemma elem_of_in_order s x : x ∈ in_order s <-> x ∈ s.
Proof. unfold in_order. by rewrite merge_sort_Permutation, elem_of_elements. Qed.

Lemma in_order_inj s1 s2 : in_order s1 = in_order s2 -> s1 = s2.
Proof. intros He. apply set_eq. intros x. by rewrite <- !elem_of_in_order, He. Qed.

Lemma in_order_nil s : in_order s = [] <-> s = ∅.
Proof.
  split; [|intros ->; done]. intros He. apply set_eq. intros x. rewrite <- elem_of_in_order, He.
  rewrite elem_of_nil. set_solver.
Qed.

(** ** Numbers between bars *)

Lemma dec_no_bar n : 0 <= n -> bar ∉ dec n.
Proof. intros Hn Hb%dec_digits; [unfold bar in Hb; lia|done]. Qed.

Lemma dec_inj a b : 0 <= a -> 0 <= b -> dec a = dec b -> a = b.
Proof.
  intros Ha Hb He. destruct (dec_spec a Ha) as (_ & _ & Ha'), (dec_spec b Hb) as (_ & _ & Hb').
  by rewrite <- Ha', <- Hb', He.
Qed.

(** Text up to the first bar. *)
Lemma split_bar (a b r1 r2 : list Z) :
  bar ∉ a -> bar ∉ b -> (r1 = [] \/ List.hd 0 r1 = bar) -> (r2 = [] \/ List.hd 0 r2 = bar) ->
  a ++ r1 = b ++ r2 -> a = b /\ r1 = r2.
Proof.
  revert b. induction a as [|x a IH]; intros [|y b] Ha Hb H1 H2 He; cbn in He.
  - done.
  - subst r1. destruct H1 as [|H1]; [done|]. cbn in H1. subst y. set_solver.
  - subst r2. destruct H2 as [|H2]; [done|]. cbn in H2. subst x. set_solver.
  - injection He as -> He. destruct (IH b) as [-> ->]; [set_solver..|done|done].
Qed.

(** The numbers after the first one. *)
Definition barred_tail (l : list Z) : list Z := concat (map (fun y => bar :: dec y) l).

Lemma barred_tail_hd l : barred_tail l = [] \/ List.hd 0 (barred_tail l) = bar.
Proof. destruct l; [by left|by right]. Qed.

Lemma barred_tail_inj l1 l2 :
  Forall (fun x => 0 <= x) l1 -> Forall (fun x => 0 <= x) l2 -> barred_tail l1 = barred_tail l2 -> l1 = l2.
Proof.
  intros H1. revert l2. induction H1 as [|x l1 Hx H1 IH]; intros l2 H2 He; destruct H2 as [|y l2 Hy H2]; try done.
  unfold barred_tail in He. cbn in He. injection He as He.
  apply split_bar in He as [He1 He2]; [|by apply dec_no_bar|by apply dec_no_bar|apply barred_tail_hd|apply barred_tail_hd].
  f_equal; [by apply dec_inj|]. by apply IH.
Qed.

Lemma joined_inj l1 l2 :
  Forall (fun x => 0 <= x) l1 -> Forall (fun x => 0 <= x) l2 -> joined l1 = joined l2 -> l1 = l2.
Proof.
  intros H1 H2 He. destruct H1 as [|x l1 Hx H1], H2 as [|y l2 Hy H2]; cbn [joined] in He; [done|..].
  - destruct (dec_spec y Hy) as (_ & Hne & _). by destruct (dec y).
  - destruct (dec_spec x Hx) as (_ & Hne & _). by destruct (dec x).
  - apply split_bar in He as [He1 He2]; [|by apply dec_no_bar|by apply dec_no_bar|apply barred_tail_hd|apply barred_tail_hd].
    f_equal; [by apply dec_inj|by apply barred_tail_inj].
Qed.

(** ** Keys *)

Lemma key_guids_nonneg (l : list Z) :
  Forall (fun x => 0 <= x) l -> Forall (fun x => 0 <= x) (in_order (list_to_set l)).
Proof.
  rewrite !Forall_forall. intros Hl x. rewrite elem_of_in_order, elem_of_list_to_set. apply Hl.
Qed.

Lemma ConcatenateGuids_inj l1 l2 :
  Forall (fun x => 0 <= x) l1 -> Forall (fun x => 0 <= x) l2 ->
  ConcatenateGuids l1 = ConcatenateGuids l2 -> forall x, x ∈ l1 <-> x ∈ l2.
Proof.
  intros H1 H2 He x. apply joined_inj, in_order_inj in He; try by apply key_guids_nonneg.
  by rewrite <- !(elem_of_list_to_set (C := gset Z)), He.
Qed.

(** *** Substrings *)

Lemma is_prefix_app pat s : is_prefix pat (pat ++ s) = true.
Proof. induction pat as [|x pat IH]; [done|]. cbn. by rewrite Z.eqb_refl, IH. Qed.

Lemma contains_middle pat l r : contains pat (l ++ pat ++ r) = true.
Proof.
  induction l as [|x l IH]; cbn [app].
  - destruct (pat ++ r) eqn:He; cbn [contains]; rewrite <- ?He, is_prefix_app; [|done].
    destruct pat; [done|discriminate].
  - cbn [contains]. by rewrite IH, orb_true_r.
Qed.

Lemma joined_contains g l : g ∈ l -> contains (dec g) (joined l) = true.
Proof.
  intros Hg. destruct l as [|x l]; [by apply not_elem_of_nil in Hg|]. cbn [joined].
  apply elem_of_cons in Hg as [->|Hg]; [apply (contains_middle _ [])|].
  apply list_elem_of_split in Hg as (l1 & l2 & ->). rewrite map_app, concat_app. cbn [map concat].
  change ((bar :: dec g) ++ ?r) with ([bar] ++ dec g ++ r).
  rewrite !app_assoc. rewrite <- (app_assoc _ (dec g)). apply contains_middle.
Qed.

Lemma ConcatenateGuids_contains g l : g ∈ l -> contains (dec g) (ConcatenateGuids l) = true.
Proof.
  intros Hg. apply joined_contains. by rewrite elem_of_in_order, elem_of_list_to_set.
Qed.

(** The cache of the dungeon finder knows sets: two lists of GUIDs have the
    same key if and only if they have the same elements, whatever their order
    and repetitions. *)
Theorem key_is_set (l1 l2 : LfgGuidList) :
  Forall (in_width 64) l1 -> Forall (in_width 64) l2 ->
  ConcatenateGuids l1 = ConcatenateGuids l2 <-> (list_to_set l1 : gset Z) = list_to_set l2.
Proof.
  intros H1 H2. assert (Hpos : forall l, Forall (in_width 64) l -> Forall (fun x => 0 <= x) l).
  { intros l Hl. eapply Forall_impl; [exact Hl|]. unfold in_width. lia. }
  split.
  - intros He. apply set_eq. intros x. rewrite !elem_of_list_to_set. by apply ConcatenateGuids_inj; auto.
  - unfold ConcatenateGuids. by intros ->.
Qed.

Lemma key_is_set_witness :
  Forall (in_width 64) [30; 4] /\
  (ConcatenateGuids [30; 4] = ConcatenateGuids [4; 30; 4] <->
   (list_to_set [30; 4] : gset Z) = list_to_set [4; 30; 4]).
Proof.
  assert (H : Forall (in_width 64) [30; 4] /\ Forall (in_width 64) [4; 30; 4]).
  { split; repeat constructor; by vm_compute. }
  split; [exact (proj1 H)|]. exact (key_is_set [30; 4] [4; 30; 4] (proj1 H) (proj2 H)).
Defined.

(** A GUID that is no element of a set, but whose digits are in its key. *)
Example foreign_substring : contains (dec 1) (ConcatenateGuids [12; 70]) = true.
Proof. reflexivity. Qed.

(** The queue forgets about 12 and 70 when 1 leaves it. *)
Example leaving_forgets_others :
  CompatibleMapStore (RemoveFromQueue 1
    (SetCompatibles (ConcatenateGuids [12; 70]) LFG_INCOMPATIBLES_NO_ROLES LFGQueue_new)) = ∅.
Proof. reflexivity. Qed.
