(* ===== verification/LFGOffers.v ===== *)
(** * What the dungeon finder may propose

    A waiting entry offers players, each with the roles he chose, and the
    dungeons they would do.  This file says when a proposal is a good one for
    the offers, and what the loops of [LFGQueue::CheckCompatibility] over
    players, ignore lists and dungeons compute. *)

From S2P Require Import Prelude Maps Guid LFG LFGRoles.

(** ** Offers *)

Abbreviation offer := (LfgRolesMap * LfgDungeonSet)%type.
Definition offers (q : LFGQueue) : gmap Z offer := (fun d => (roles d, dungeons d)) <$> QueueDataStore q.

(** The entries of a map in the order of its iteration. *)
Definition pairs (m : LfgRolesMap) : list (Z * Z) := map (fun k => (k, default 0 (m !! k))) (keys m).

Section Offers.
Context `{QueueView}.
Variable O : gmap Z offer.

Definition roles_of (g : Z) : LfgRolesMap := match O !! g with Some o => fst o | None => ∅ end.
Definition dungeons_of (g : Z) : LfgDungeonSet := match O !! g with Some o => snd o | None => ∅ end.

(** The players of some entries, with the roles they chose. *)
Definition players_of (check : LfgGuidList) : list (Z * Z) := concat (map (fun g => pairs (roles_of g)) check).

(** An entry has some dungeon, and at most five players; five can fill a group. *)
Record offer_ok (o : offer) : Prop := {
  ok_bytes : bytes_ok (fst o);
  ok_size : Z.of_nat (base.size (fst o)) <= MAXGROUPSIZE;
  ok_dungeons : snd o <> ∅;
  ok_roles : Z.of_nat (base.size (fst o)) = MAXGROUPSIZE -> feasible (remove_leader (fst o))
}.
Definition offers_ok : Prop := map_Forall (fun _ o => offer_ok o) O.

(** A proposal is good: five players, who are those of its entries; each has a
    role he chose, and there is one tank, one healer and three damage dealers;
    every entry wants the dungeon; everybody still waits; nobody ignores another,
    unless they came together; the leader is one of them; each is recorded with
    the group he came with, and at most one such group is already in a dungeon. *)
Record proposal_ok (p : LfgProposal) : Prop := {
  po_five : base.size (players p) = 5%nat;
  po_players : keys (players p) ≡ₚ (players_of (queues p)).*1;
  po_roles : assigns (remove_leader (list_to_map (players_of (queues p)))) (role <$> players p);
  po_party : party (role <$> players p);
  po_dungeon : forall g, g ∈ queues p -> dungeonId p ∈ dungeons_of g;
  po_states : forall g, g ∈ queues p -> GetState g = LFG_STATE_QUEUED;
  po_ignores : length (queues p) <> 1%nat ->
    forall i j, is_Some (players p !! i) -> is_Some (players p !! j) -> i <> j -> HasIgnore i j = false;
  po_leader : is_Some (players p !! leader p);
  po_group : forall k d, players p !! k = Some d ->
    exists g, g ∈ queues p /\ is_Some (roles_of g !! k) /\ group d = (if IS_GROUP_GUID g then g else 0);
  po_lfg_groups : zlen (filter (fun g => IsLfgGroup g = true) (queues p)) <= 1;
  po_time : state p = LFG_PROPOSAL_INITIATING /\ cancelTime p = time_now + LFG_TIME_PROPOSAL
}.

(** ** Players *)

Lemma HasIgnore_sym i j : HasIgnore i j = HasIgnore j i.
Proof. unfold HasIgnore. rewrite (andb_comm (FindPlayer i)). by rewrite orb_comm. Qed.

Lemma pairs_fst m : (pairs m).*1 = keys m.
Proof. unfold pairs. rewrite <- list_fmap_compose. apply list_fmap_id. Qed.

Lemma length_pairs m : length (pairs m) = base.size m.
Proof. unfold pairs. by rewrite length_map, length_keys. Qed.

Lemma elem_of_pairs m k r : (k, r) ∈ pairs m <-> m !! k = Some r.
Proof.
  unfold pairs. rewrite list_elem_of_fmap. split.
  - intros (k' & [= -> ->] & [x Hx]%elem_of_keys). by rewrite Hx.
  - intros Hk. exists k. rewrite Hk. split; [done|]. apply elem_of_keys. by eexists.
Qed.

Lemma pairs_to_map m : list_to_map (pairs m) = m.
Proof.
  apply map_eq. intros k. apply option_eq. intros r.
  rewrite <- elem_of_list_to_map, elem_of_pairs; [done|]. rewrite pairs_fst. apply NoDup_keys.
Qed.

Lemma players_of_cons g check : players_of (g :: check) = pairs (roles_of g) ++ players_of check.
Proof. done. Qed.

Lemma elem_of_players_of k r check :
  (k, r) ∈ players_of check <-> exists g, g ∈ check /\ roles_of g !! k = Some r.
Proof.
  induction check as [|g check IH].
  - split; [by intros ?%elem_of_nil|]. intros (g & ?%elem_of_nil & _). done.
  - rewrite players_of_cons, elem_of_app, IH, elem_of_pairs. setoid_rewrite elem_of_cons. naive_solver.
Qed.

(** *** Adding players who may ignore each other *)

Definition add_pair (m : LfgRolesMap) (kr : Z * Z) : LfgRolesMap := add_role m kr.1 kr.2.

Lemma add_roles_pairs m more : add_roles m more = fold_left add_pair (pairs more) m.
Proof.
  unfold add_roles, pairs. generalize (keys more). intros ks. revert m.
  induction ks as [|k ks IH]; intros m; [done|]. apply IH.
Qed.

Definition peaceful (m : LfgRolesMap) : Prop :=
  forall i j, is_Some (m !! i) -> is_Some (m !! j) -> i <> j -> HasIgnore i j = false.

Lemma add_pair_cases m k r :
  add_pair m (k, r) = m \/
  (add_pair m (k, r) = <[k := r]> m /\ (peaceful m -> peaceful (<[k := r]> m))).
Proof.
  unfold add_pair, add_role. cbn [fst snd]. destruct (existsb _ _) eqn:He; [by left|right].
  split; [done|]. intros Hp.
  assert (Hk : forall j, is_Some (m !! j) -> k <> j -> HasIgnore k j = false).
  { intros j Hj Hne. apply elem_of_keys in Hj. rewrite list_elem_of_In in Hj.
    destruct (HasIgnore k j) eqn:Hi; [|done]. rewrite <- He. symmetry. apply existsb_exists.
    exists j. split; [done|]. rewrite (proj2 (Z.eqb_neq k j)) by done. by rewrite Hi. }
  intros i j Hi Hj Hne. destruct (decide (i = k)) as [->|Hik].
  - rewrite lookup_insert_ne in Hj by done. by apply Hk.
  - rewrite lookup_insert_ne in Hi by done. destruct (decide (j = k)) as [->|Hjk].
    + rewrite HasIgnore_sym. apply Hk; [done|]. by apply not_eq_sym.
    + rewrite lookup_insert_ne in Hj by done. by apply Hp.
Qed.

Lemma size_add_pair m kr : (base.size (add_pair m kr) <= S (base.size m))%nat.
Proof.
  destruct kr as [k r]. destruct (add_pair_cases m k r) as [->|[-> _]]; [lia|].
  rewrite map_size_insert. destruct (m !! k); unfold id; lia.
Qed.

Lemma size_add_pairs l m : (base.size (fold_left add_pair l m) <= base.size m + length l)%nat.
Proof.
  revert m. induction l as [|kr l IH]; intros m; cbn [fold_left length]; [lia|].
  pose proof (IH (add_pair m kr)). pose proof (size_add_pair m kr). lia.
Qed.

(** When nobody is left out, the players are distinct and at peace. *)
Lemma add_pairs_all l m :
  base.size (fold_left add_pair l m) = (base.size m + length l)%nat -> peaceful m ->
  NoDup l.*1 /\ (forall k, k ∈ l.*1 -> m !! k = None) /\
  fold_left add_pair l m = list_to_map l ∪ m /\ peaceful (fold_left add_pair l m).
Proof.
  revert m. induction l as [|[k r] l IH]; intros m Hs Hp; cbn [fold_left length] in *.
  - change (list_to_map []) with (∅ : LfgRolesMap). rewrite (left_id_L ∅ (∪)). split_and!; [constructor|by intros ? ?%elem_of_nil|done|done].
  - pose proof (size_add_pair m (k, r)) as H1. pose proof (size_add_pairs l (add_pair m (k, r))) as H2.
    assert (Hsz : base.size (add_pair m (k, r)) = S (base.size m)) by lia.
    destruct (add_pair_cases m k r) as [He|[He Hp']]; rewrite He in *; [lia|].
    assert (Hk : m !! k = None).
    { rewrite map_size_insert in Hsz. destruct (m !! k); [unfold id in Hsz; lia|done]. }
    destruct (IH (<[k := r]> m)) as (Hn & Hd & Hu & Hpp); [lia|by apply Hp'|]. split_and!.
    + rewrite fmap_cons. constructor; [|done]. intros Hin%Hd. by rewrite lookup_insert_eq in Hin.
    + intros j. rewrite fmap_cons. intros [->|Hj]%elem_of_cons; [done|]. specialize (Hd j Hj).
      destruct (decide (j = k)) as [->|Hne]; [done|]. by rewrite lookup_insert_ne in Hd.
    + rewrite Hu. apply map_eq. intros j. rewrite !lookup_union. cbn [list_to_map fst snd foldr].
      destruct (decide (j = k)) as [->|Hne].
      * rewrite !lookup_insert_eq. rewrite (not_elem_of_list_to_map_1 l k), Hk; [done|].
        intros Hin%Hd. by rewrite lookup_insert_eq in Hin.
      * by rewrite !lookup_insert_ne by done.
    + done.
Qed.

Definition gathered (check : LfgGuidList) : LfgRolesMap :=
  fold_left (fun m g => add_roles m (roles_of g)) check ∅.

Lemma gathered_pairs check m :
  fold_left (fun m g => add_roles m (roles_of g)) check m = fold_left add_pair (players_of check) m.
Proof.
  revert m. induction check as [|g check IH]; intros m; [done|].
  rewrite players_of_cons, fold_left_app. cbn [fold_left]. by rewrite IH, add_roles_pairs.
Qed.

Lemma size_gathered check : (base.size (gathered check) <= length (players_of check))%nat.
Proof.
  unfold gathered. rewrite gathered_pairs. pose proof (size_add_pairs (players_of check) ∅).
  rewrite map_size_empty in *. lia.
Qed.

Lemma gathered_all check :
  base.size (gathered check) = length (players_of check) ->
  NoDup (players_of check).*1 /\ gathered check = list_to_map (players_of check) /\ peaceful (gathered check).
Proof.
  unfold gathered. rewrite gathered_pairs. intros Hs.
  destruct (add_pairs_all (players_of check) ∅) as (Hn & _ & Hu & Hp).
  - by rewrite map_size_empty.
  - intros i j [? Hi]. by rewrite lookup_empty in Hi.
  - split_and!; [done|by rewrite Hu, (right_id_L ∅ (∪))|done].
Qed.

Lemma gathered_bytes check : offers_ok -> bytes_ok (gathered check).
Proof.
  intros HO. unfold gathered. rewrite gathered_pairs.
  assert (Hb : forall kr, kr ∈ players_of check -> in_width 8 kr.2).
  { intros [k r] (g & _ & Hg)%elem_of_players_of. unfold roles_of in Hg.
    destruct (O !! g) as [o|] eqn:Hog; cbn in Hg; [|by rewrite lookup_empty in Hg].
    destruct (HO g o Hog) as [Hbytes _ _ _]. by apply (Hbytes k). }
  assert (Hm : bytes_ok ∅) by apply map_Forall_empty. revert Hb Hm. generalize (∅ : LfgRolesMap).
  induction (players_of check) as [|[k r] l IH]; intros m Hb Hm; [done|]. cbn [fold_left].
  apply IH; [intros kr Hkr; apply Hb; by right|].
  destruct (add_pair_cases m k r) as [->|[-> _]]; [done|]. apply map_Forall_insert_2; [|done].
  apply (Hb (k, r)). by left.
Qed.

(** ** Dungeons in common *)

Definition in_common (check : LfgGuidList) (ds : LfgDungeonSet) : LfgDungeonSet :=
  fold_left (fun ds g => ds ∩ dungeons_of g) check ds.

Lemma elem_of_in_common check ds d :
  d ∈ in_common check ds <-> d ∈ ds /\ forall g, g ∈ check -> d ∈ dungeons_of g.
Proof.
  unfold in_common. revert ds. induction check as [|g check IH]; intros ds; cbn [fold_left].
  - split; [|tauto]. intros Hd. split; [done|]. by intros g ?%elem_of_nil.
  - rewrite IH, elem_of_intersection. setoid_rewrite elem_of_cons. naive_solver.
Qed.

(** ** Counting *)

Definition lfg_groups (check : LfgGuidList) : Z := zlen (filter (fun g => IsLfgGroup g = true) check).

(** The group of each player is that of an entry he is in. *)
Definition groups_right (check : LfgGuidList) (gs : gmap Z Z) : Prop :=
  (forall k r, (k, r) ∈ players_of check -> is_Some (gs !! k)) /\
  (forall k x, gs !! k = Some x ->
     exists g, g ∈ check /\ is_Some (roles_of g !! k) /\ x = (if IS_GROUP_GUID g then g else 0)).

Lemma fold_groups_lookup (x : Z) ks (m : gmap Z Z) k :
  fold_left (fun m k => <[k := x]> m) ks m !! k = if decide (k ∈ ks) then Some x else m !! k.
Proof.
  revert m. induction ks as [|j ks IH]; intros m; cbn [fold_left].
  - by rewrite decide_False by apply not_elem_of_nil.
  - rewrite IH. destruct (decide (k ∈ ks)); [by rewrite decide_True by (by right)|].
    destruct (decide (k = j)) as [->|Hne]; [by rewrite lookup_insert_eq, decide_True by (by left)|].
    rewrite lookup_insert_ne by done. rewrite decide_False; [done|]. by rewrite elem_of_cons; intros [?|?].
Qed.

Lemma groups_right_snoc check gs g :
  groups_right check gs ->
  groups_right (check ++ [g])
    (fold_left (fun m k => <[k := if IS_GROUP_GUID g then g else 0]> m) (keys (roles_of g)) gs).
Proof.
  intros [H1 H2]. split.
  - intros k r. rewrite elem_of_players_of. intros (g' & Hg' & Hr). rewrite fold_groups_lookup.
    destruct (decide (k ∈ keys (roles_of g))) as [|Hn]; [by eexists|].
    apply (H1 k r). rewrite elem_of_players_of. exists g'. split; [|done].
    apply elem_of_app in Hg' as [|[->|?%elem_of_nil]%elem_of_cons]; [done| |done].
    destruct Hn. apply elem_of_keys. by eexists.
  - intros k x. rewrite fold_groups_lookup. destruct (decide (k ∈ keys (roles_of g))) as [Hk|_].
    + intros Hx%(inj Some). exists g. split_and!; [|by apply elem_of_keys|by symmetry].
      apply elem_of_app. right. by left.
    + intros (g' & Hg' & Hr & ->)%H2. exists g'. split_and!; [|done|done]. apply elem_of_app. by left.
Qed.

Lemma groups_right_nil : groups_right [] ∅.
Proof.
  split; [intros k r (g & ?%elem_of_nil & _)%elem_of_players_of; done|].
  intros k x Hk. by rewrite lookup_empty in Hk.
Qed.
End Offers.
