(* ===== verification/LFGSearch.v ===== *)
(** * The search of the dungeon finder

    What every function of the search in [LFGQueue.cpp] does to the queue: it
    keeps the offers of the entries, appends good proposals, and takes from the
    lists of waiting entries only those it proposes.  [calm] is the situation
    in which the cache is trustworthy as well: every listed entry is in the
    state of waiting, and the cache has no match of an earlier search. *)

From S2P Require Import Prelude Maps Guid Text LFG LFGRoles LFGKeys LFGOffers.

(** ** Updates of the best group keep the offer *)

Lemma offers_lookup q g o :
  offers q !! g = Some o -> exists d, QueueDataStore q !! g = Some d /\ o = (roles d, dungeons d).
Proof. unfold offers. rewrite lookup_fmap. destruct (QueueDataStore q !! g); naive_solver. Qed.

Lemma fill_places_offer ks (groupRoles : LfgRolesMap) d :
  let d' := fold_left (fun d k => fill_place d (default 0 (groupRoles !! k))) ks d in
  roles d' = roles d /\ dungeons d' = dungeons d.
Proof.
  revert d. induction ks as [|k ks IH]; intros d; [done|]. cbn [fold_left].
  destruct (IH (fill_place d (default 0 (groupRoles !! k)))) as [-> ->].
  unfold fill_place. by destruct (has_flag _ _); [|destruct (has_flag _ _)].
Qed.

Lemma UpdateBest_offer key groupRoles d :
  roles (UpdateBestCompatibleInQueue key groupRoles d) = roles d /\
  dungeons (UpdateBestCompatibleInQueue key groupRoles d) = dungeons d.
Proof.
  unfold UpdateBestCompatibleInQueue. destruct (_ <=? _); [done|].
  match goal with |- context [fold_left _ ?ks ?d0] => destruct (fill_places_offer ks groupRoles d0) as [-> ->] end.
  done.
Qed.

Lemma FindBest_offer store g d :
  roles (FindBestCompatibleInQueue store g d) = roles d /\
  dungeons (FindBestCompatibleInQueue store g d) = dungeons d.
Proof.
  unfold FindBestCompatibleInQueue. revert d. induction (string_keys store) as [|key l IH]; intros d; [done|].
  cbn [fold_left]. destruct (store !! key) as [data|]; [|apply IH]. destruct (_ && _); [|apply IH].
  destruct (IH (UpdateBestCompatibleInQueue key (cd_roles data) d)) as [-> ->]. apply UpdateBest_offer.
Qed.

Lemma RemoveFromQueue_offers g q : offers (RemoveFromQueue g q) = delete g (offers q).
Proof.
  unfold offers. cbn. apply map_eq. intros j. rewrite lookup_fmap.
  destruct (decide (j = g)) as [->|Hne]; [by rewrite !lookup_delete_eq|].
  rewrite !lookup_delete_ne, map_lookup_imap, lookup_fmap by done. destruct (QueueDataStore q !! j) as [d|]; [|done].
  cbn. destruct (_ && _); [|done].
  match goal with |- context [FindBestCompatibleInQueue ?st ?k ?d0] =>
    by destruct (FindBest_offer st k d0) as [-> ->] end.
Qed.

Lemma offers_lookup_Some q g d : QueueDataStore q !! g = Some d -> offers q !! g = Some (roles d, dungeons d).
Proof. intros Hd. unfold offers. by rewrite lookup_fmap, Hd. Qed.

(** ** The invariant *)

Ltac steps := unfold returns; repeat wp_step.

Section Search.
Context `{QueueView}.
Variable O : gmap Z offer.
(** The proposals made before. *)
Variable P0 : list LfgProposal.
Variable calm : Prop.

Definition fresh (s : QState) : list LfgProposal := drop (length P0) (proposals s).
Definition proposed (s : QState) : LfgGuidList := concat (map queues (fresh s)).
Definition listed (q : LFGQueue) : LfgGuidList := newToQueueStore q ++ currentQueueStore q.
Definition waits (g : Z) : Prop := GetState g = LFG_STATE_QUEUED /\ 0 <= g.

(** The matches in the cache are proposals of this search. *)
Definition cache_ok (s : QState) : Prop :=
  forall key d, CompatibleMapStore (queue s) !! key = Some d ->
    compatibility d <> LFG_COMPATIBLES_BAD_STATES /\
    (compatibility d = LFG_COMPATIBLES_MATCH ->
     exists p, p ∈ fresh s /\ Forall waits (queues p) /\ key = ConcatenateGuids (queues p)).

Record sinv (s : QState) : Prop := {
  si_offers : offers (queue s) = O;
  si_old : proposals s = P0 ++ fresh s;
  si_good : Forall (proposal_ok O) (fresh s);
  si_cache : calm -> cache_ok s;
  si_apart : calm -> forall g, g ∈ listed (queue s) -> g ∉ proposed s
}.

Record shrinks (s s' : QState) : Prop := {
  sh_new : newToQueueStore (queue s') `sublist_of` newToQueueStore (queue s);
  sh_current : currentQueueStore (queue s') `sublist_of` currentQueueStore (queue s);
  sh_kept_new : forall g, g ∈ newToQueueStore (queue s) -> is_Some (O !! g) ->
    g ∈ newToQueueStore (queue s') \/ g ∈ proposed s';
  sh_kept_current : forall g, g ∈ currentQueueStore (queue s) -> is_Some (O !! g) ->
    g ∈ currentQueueStore (queue s') \/ g ∈ proposed s';
  sh_proposed : forall g, g ∈ proposed s -> g ∈ proposed s'
}.

Definition moves (s s' : QState) : Prop := sinv s' /\ shrinks s s'.

Lemma shrinks_trans s1 s2 s3 : shrinks s1 s2 -> shrinks s2 s3 -> shrinks s1 s3.
Proof.
  intros [H1 H2 H3 H4 H5] [H1' H2' H3' H4' H5']. split.
  - by etrans.
  - by etrans.
  - intros g Hg Hs. destruct (H3 g Hg Hs); auto.
  - intros g Hg Hs. destruct (H4 g Hg Hs); auto.
  - auto.
Qed.

Lemma moves_trans s1 s2 s3 : moves s1 s2 -> moves s2 s3 -> moves s1 s3.
Proof. intros [_ Hs] [Hi Hs']. split; [done|by eapply shrinks_trans]. Qed.

(** A step that touches neither the offers, nor the lists, nor the proposals. *)
Lemma moves_quiet s s' :
  sinv s -> offers (queue s') = offers (queue s) ->
  newToQueueStore (queue s') = newToQueueStore (queue s) ->
  currentQueueStore (queue s') = currentQueueStore (queue s) -> proposals s' = proposals s ->
  (calm -> cache_ok s') -> moves s s'.
Proof.
  intros [H1 H2 H3 H4 H5] Ho Hn Hc Hp Hk.
  assert (Hf : fresh s' = fresh s) by (unfold fresh; by rewrite Hp).
  assert (Hf' : proposed s' = proposed s) by (unfold proposed; by rewrite Hf).
  split; split; rewrite ?Ho, ?Hn, ?Hc, ?Hp, ?Hf, ?Hf'; auto.
  intros Hcalm g. unfold listed. rewrite Hn, Hc. by apply H5.
Qed.

(** A step without a proposal. *)
Definition quiet (s s' : QState) : Prop := moves s s' /\ proposals s' = proposals s.

Lemma quiet_refl s : sinv s -> quiet s s.
Proof. intros Hs. split; [|done]. apply moves_quiet; try done. apply Hs. Qed.

Lemma quiet_trans s1 s2 s3 : quiet s1 s2 -> quiet s2 s3 -> quiet s1 s3.
Proof. intros [Hm Hp] [Hm' Hp']. split; [by eapply moves_trans|congruence]. Qed.

Lemma quiet_inv s s' : quiet s s' -> sinv s'.
Proof. by intros [[Hs _] _]. Qed.

(** *** The cache *)

Lemma cache_ok_insert s s' key d :
  cache_ok s -> fresh s' = fresh s ->
  CompatibleMapStore (queue s') = <[key := d]> (CompatibleMapStore (queue s)) ->
  compatibility d <> LFG_COMPATIBLES_BAD_STATES ->
  (compatibility d = LFG_COMPATIBLES_MATCH ->
   exists p, p ∈ fresh s /\ Forall waits (queues p) /\ key = ConcatenateGuids (queues p)) ->
  cache_ok s'.
Proof.
  intros Hc Hf Hm Hb Hd key' d'. rewrite Hm, Hf. intros Hl.
  apply lookup_insert_Some in Hl as [[-> ->]|[_ Hl]]; [done|]. by apply Hc.
Qed.

Definition harmless (c : LfgCompatibility) : Prop :=
  c <> LFG_COMPATIBLES_BAD_STATES /\ c <> LFG_COMPATIBLES_MATCH.

Lemma answer_spec key c s :
  sinv s -> harmless c -> returns (answer key c) (fun a s' => a = c /\ quiet s s') s.
Proof.
  intros Hs [Hb Hm]. unfold answer, on_queue. steps. split; [done|].
  split; [|done]. apply moves_quiet; try done. intros Hc.
  by eapply (cache_ok_insert s); [by apply Hs| | |..].
Qed.

Lemma set_data_spec key groles s :
  sinv s ->
  returns (on_queue (SetCompatibilityData key (mkLfgCompatibilityData LFG_COMPATIBLES_WITH_LESS_PLAYERS groles)))
    (fun _ s' => quiet s s') s.
Proof.
  intros Hs. unfold on_queue. steps. split; [|done]. apply moves_quiet; try done. intros Hc.
  by eapply (cache_ok_insert s); [by apply Hs| | |..].
Qed.

(** *** Data of entries *)

Lemma entry_data s g :
  sinv s -> is_Some (O !! g) ->
  exists d, QueueDataStore (queue s) !! g = Some d /\ roles d = roles_of O g /\ dungeons d = dungeons_of O g.
Proof.
  intros Hs [o Ho]. unfold roles_of, dungeons_of. rewrite Ho. rewrite <- (si_offers s Hs) in Ho.
  apply offers_lookup in Ho as (d & Hd & ->). by exists d.
Qed.

Lemma no_entry s g : sinv s -> QueueDataStore (queue s) !! g = None <-> O !! g = None.
Proof.
  intros Hs. rewrite <- (si_offers s Hs). unfold offers. rewrite lookup_fmap.
  destruct (QueueDataStore (queue s) !! g); naive_solver.
Qed.

Lemma queue_data_spec s g :
  sinv s -> is_Some (O !! g) ->
  exists d, queue_data g s = Ok d s /\ roles d = roles_of O g /\ dungeons d = dungeons_of O g.
Proof.
  intros Hs (d & Hd & Hr)%(entry_data s); [|done]. exists d. split; [|done].
  unfold queue_data. run. by rewrite Hd.
Qed.

Lemma update_best_spec g key groupRoles s :
  sinv s -> is_Some (O !! g) -> returns (update_best g key groupRoles) (fun _ s' => quiet s s') s.
Proof.
  intros Hs Hg. destruct (entry_data s g Hs Hg) as (d & Hd & _). unfold update_best, on_queue.
  steps. rewrite Hd. steps. split; [|done]. apply moves_quiet; try done; [|apply Hs].
  unfold offers. cbn. apply map_eq. intros j. rewrite !lookup_fmap.
  destruct (decide (j = g)) as [->|Hne]; [|by rewrite lookup_alter_ne].
  rewrite lookup_alter_eq, Hd. cbn. by destruct (UpdateBest_offer key groupRoles d) as [-> ->].
Qed.

(** An entry without data leaves the lists. *)
Lemma RemoveFromQueue_spec g s :
  sinv s -> O !! g = None -> returns (on_queue (RemoveFromQueue g)) (fun _ s' => quiet s s') s.
Proof.
  intros Hs Hg. unfold on_queue. steps.
  assert (Hkept : forall (l : list Z) x, x ∈ l -> is_Some (O !! x) -> x ∈ filter (fun y => y <> g) l).
  { intros l x Hx [o Ho]. apply list_elem_of_filter. split; [|done]. intros ->. by rewrite Hg in Ho. }
  split; [|done]. split; split; cbn.
  - change (offers (RemoveFromQueue g (queue s)) = O). rewrite RemoveFromQueue_offers, (si_offers s Hs).
    by apply delete_id.
  - apply Hs.
  - apply Hs.
  - intros Hc key d. cbn. rewrite map_lookup_filter_Some. intros [Hk _]. by apply (si_cache s Hs).
  - intros Hc j Hj. apply (si_apart s Hs Hc). unfold listed in *. cbn in Hj.
    apply elem_of_app in Hj as [[_ Hj]%list_elem_of_filter|[_ Hj]%list_elem_of_filter];
      apply elem_of_app; auto.
  - apply sublist_filter.
  - apply sublist_filter.
  - auto.
  - auto.
  - done.
Qed.

(** *** The first loop: counting players and groups *)

Definition counted (check : LfgGuidList) (acc : Z * Z * Z * gmap Z Z) : Prop :=
  let '(n, l, _, gs) := acc in
  Forall (fun g => is_Some (O !! g)) check /\ n = zlen (players_of O check) /\ l = lfg_groups check /\
  groups_right O check gs.

Lemma counted_nil : counted [] (0, 0, 0, ∅).
Proof. split_and!; [constructor|done|done|apply groups_right_nil]. Qed.

Lemma players_of_snoc check g : players_of O (check ++ [g]) = players_of O check ++ pairs (roles_of O g).
Proof. unfold players_of. rewrite map_app, concat_app. cbn. by rewrite app_nil_r. Qed.

Lemma lfg_groups_snoc check g : lfg_groups (check ++ [g]) = lfg_groups check + Z.b2z (IsLfgGroup g).
Proof.
  unfold lfg_groups, zlen. rewrite filter_app, length_app, filter_cons, filter_nil.
  destruct (IsLfgGroup g); [rewrite decide_True by done|rewrite decide_False by done]; cbn [length Z.b2z]; lia.
Qed.

Context (HO : offers_ok O).

Lemma count_guid_spec check g d acc :
  counted check acc -> is_Some (O !! g) -> roles d = roles_of O g ->
  acc.1.1.1 <= MAXGROUPSIZE -> acc.1.1.2 < 2 -> counted (check ++ [g]) (count_guid g d acc).
Proof using HO.
  destruct acc as [[[n l] pg] gs]. intros (Hall & -> & -> & Hgs) [o Ho] Hr Hn Hl. cbn [fst snd] in *.
  unfold count_guid. rewrite Hr.
  assert (Hsize : Z.of_nat (base.size (roles_of O g)) <= MAXGROUPSIZE).
  { unfold roles_of. rewrite Ho. apply (HO g o Ho). }
  unfold MAXGROUPSIZE, zlen in *.
  assert (Hn' : u8 (Z.of_nat (length (players_of O check)) + Z.of_nat (base.size (roles_of O g))) =
                Z.of_nat (length (players_of O (check ++ [g])))).
  { rewrite players_of_snoc, length_app, length_pairs. rewrite wrap_small; [lia|]. unfold in_width. lia. }
  rewrite Hn'. apply (groups_right_snoc O check gs g) in Hgs.
  assert (Hall' : Forall (fun g => is_Some (O !! g)) (check ++ [g])).
  { apply Forall_app. split; [done|]. constructor; [by eexists|constructor]. }
  pose proof (lfg_groups_snoc check g) as Hls.
  assert (0 <= lfg_groups check) by (unfold lfg_groups, zlen; lia).
  destruct (IsLfgGroup g); cbn [Z.b2z] in Hls; split_and!; try done.
  - rewrite wrap_small; [lia|]. unfold in_width. lia.
  - lia.
Qed.

Lemma count_players_spec check before acc s :
  sinv s -> counted before acc ->
  returns (count_players check acc)
    (fun o s' => match o with
                 | None => quiet s s'
                 | Some acc' =>
                     s' = s /\ exists l1 l2, check = l1 ++ l2 /\ counted (before ++ l1) acc' /\
                       (l2 = [] \/ 1 < acc'.1.1.2 \/ MAXGROUPSIZE < acc'.1.1.1)
                 end) s.
Proof using HO.
  intros Hs. revert before acc. induction check as [|g check IH]; intros before acc Hacc; cbn [count_players].
  { steps. split; [done|]. exists [], []. rewrite (app_nil_r before). split; [done|]. split; [done|by left]. }
  destruct acc as [[[n l] pg] gs]. steps.
  - zprop. destruct (QueueDataStore (queue s) !! g) as [d|] eqn:Hd.
    + apply offers_lookup_Some in Hd as Hd'. rewrite (si_offers s Hs) in Hd'.
      assert (Hr : roles d = roles_of O g) by (unfold roles_of; by rewrite Hd').
      eapply wp_mono; [eapply (IH (before ++ [g]) (count_guid g d (n, l, pg, gs))); apply count_guid_spec;
        try done; by eexists| |done].
      intros [acc'|] s'; [|done]. intros (-> & l1 & l2 & -> & Hc & Hl). split; [done|].
      exists (g :: l1), l2. split; [done|]. split; [|done]. by rewrite <- app_assoc in Hc.
    + steps. apply (returns_mono _ _ _ _ (RemoveFromQueue_spec g s Hs (proj1 (no_entry s g Hs) Hd))).
      intros [] s' Hm. done.
  - steps. split; [done|]. exists [], (g :: check). rewrite (app_nil_r before). split; [done|]. split; [done|]. right.
    cbn [fst snd]. zprop. unfold MAXGROUPSIZE in *.
    match goal with Hb : _ && _ = false |- _ => apply andb_false_iff in Hb as [Hb|Hb] end; zprop; lia.
Qed.

(** *** Roles and dungeons *)

Lemma gather_roles_spec check m s :
  sinv s -> Forall (fun g => is_Some (O !! g)) check ->
  gather_roles check m s = Ok (fold_left (fun m g => add_roles m (roles_of O g)) check m) s.
Proof.
  intros Hs Hall. revert m. induction Hall as [|g check Hg Hall IH]; intros m; [done|].
  cbn [gather_roles fold_left]. destruct (queue_data_spec s g Hs Hg) as (d & Hd & Hr & _).
  rewrite (bind_run _ _ _ _ _ Hd), Hr. apply IH.
Qed.

Lemma common_dungeons_spec check ds s :
  sinv s -> Forall (fun g => is_Some (O !! g)) check ->
  common_dungeons check ds s = Ok (in_common O check ds) s.
Proof.
  intros Hs Hall. unfold in_common. revert ds. induction Hall as [|g check Hg Hall IH]; intros ds; [done|].
  cbn [common_dungeons fold_left]. destruct (queue_data_spec s g Hs Hg) as (d & Hd & _ & Hr).
  rewrite (bind_run _ _ _ _ _ Hd), Hr. apply IH.
Qed.

Lemma check_roles_spec m s :
  bytes_ok m -> Z.of_nat (base.size m) <= MAXGROUPSIZE ->
  exists b m', check_roles m s = Ok (b, m') s /\ (m <> ∅ -> answers (remove_leader m) b m').
Proof.
  intros Hb Hm. unfold check_roles. destruct (decide (m = ∅)) as [->|Hne].
  - exists false, ∅. by split.
  - unfold MAXGROUPSIZE in Hm. destruct (CheckGroupRoles_spec m Hne Hb) as (b & m' & -> & Ha); [lia|].
    by exists b, m'.
Qed.
End Search.
