(* ===== verification/LFGPropose.v ===== *)
(** * Making a proposal

    The end of [LFGQueue::CheckCompatibility]: a dungeon, a leader and the data
    of the players are chosen, and the entries leave the lists. *)

From S2P Require Import Prelude Maps Guid Text LFG LFGRoles LFGKeys LFGOffers LFGSearch.

Section Propose.
Context `{QueueView}.
Context (O : gmap Z offer) (P0 : list LfgProposal) (calm : Prop).
(** [urand] is documented to give a number of the closed interval. *)
Context (urand_range : forall n lo hi, lo <= hi -> lo <= urand n lo hi <= hi).

(** ** Random choices *)

Definition drawn (s s' : QState) : Prop := exists n, s' = s <| draws := n |>.

Lemma drawn_refl s : drawn s s.
Proof. exists (draws s). by destruct s. Qed.

Lemma drawn_trans s1 s2 s3 : drawn s1 s2 -> drawn s2 s3 -> drawn s1 s3.
Proof. intros [n ->] [m ->]. by exists m. Qed.

Lemma draw_spec lo hi s : lo <= hi -> returns (draw lo hi) (fun x s' => drawn s s' /\ lo <= x <= hi) s.
Proof using urand_range. intros Hlh. unfold draw. steps. split; [by eexists|by apply urand_range]. Qed.

Lemma select_dungeon_spec ds s :
  ds <> ∅ -> returns (select_dungeon ds) (fun d s' => drawn s s' /\ d ∈ ds) s.
Proof using urand_range.
  intros Hne. unfold select_dungeon.
  assert (Hlen : 0 < zlen (in_order ds)).
  { unfold zlen. destruct (in_order ds) eqn:He; [by apply in_order_nil in He|cbn; lia]. }
  assert (Hu : 0 <= u32 (zlen (in_order ds) - 1) <= zlen (in_order ds) - 1).
  { unfold wrap. split; [apply Z.mod_pos_bound; lia|apply Z.mod_le; lia]. }
  eapply returns_bind; [apply draw_spec; lia|]. intros i s' [Hd Hi].
  destruct (lookup_lt_is_Some_2 (in_order ds) (Z.to_nat i)) as [d Hl]; [unfold zlen in *; lia|].
  rewrite Hl. steps. split; [done|]. apply elem_of_in_order. by eapply list_elem_of_lookup_2.
Qed.

(** ** Players *)

Definition chosen_role (f : LfgRolesMap) (k : Z) : Z := default 0 (f !! k).

(** What the choice of a leader and the data of players keep of a proposal. *)
Definition same_terms (p p' : LfgProposal) : Prop :=
  queues p' = queues p /\ dungeonId p' = dungeonId p /\ state p' = state p /\ cancelTime p' = cancelTime p.

(** Nobody has the flag of a leader at this point. *)
Lemma propose_player_spec gs k r p x s :
  has_flag r PLAYER_ROLE_LEADER = false -> gs !! k = Some x ->
  returns (propose_player gs k r (p, false))
    (fun st s' => drawn s s' /\ snd st = false /\ same_terms p (fst st) /\
       (leader (fst st) = k \/ leader (fst st) = leader p) /\ (leader p = 0 -> leader (fst st) = k) /\
       exists a, players (fst st) = <[k := mkLfgProposalPlayer r a x]> (players p)) s.
Proof using urand_range.
  intros Hr Hx. unfold propose_player. rewrite Hr, Hx. cbn [negb].
  apply returns_bind with (P := fun st s' => drawn s s' /\ exists b : bool,
    st = (if b then p <| leader := k |> else p, false) /\ (leader p = 0 -> b = true)).
  - steps.
    + split; [apply drawn_refl|]. by exists true.
    + eapply wp_mono; [apply draw_spec; lia| |done]. intros n s' [Hd _]. steps. split; [done|].
      exists (negb (n =? 0)). split; [done|]. zprop. lia.
  - intros [p' hl] s' (Hd & b & [= -> ->] & Hb). steps. split_and!; try done; destruct b; cbn; auto; try by eexists.
    intros Hl. by apply Hb in Hl.
Qed.

Lemma propose_players_spec f gs ks p s :
  (forall k, k ∈ ks -> has_flag (chosen_role f k) PLAYER_ROLE_LEADER = false /\ is_Some (gs !! k)) ->
  returns (propose_players ks f gs (p, false))
    (fun st s' => drawn s s' /\ same_terms p (fst st) /\
       (leader (fst st) ∈ ks \/ leader (fst st) = leader p) /\
       (leader p = 0 -> ks <> [] -> leader (fst st) ∈ ks) /\
       (forall k, k ∉ ks -> players (fst st) !! k = players p !! k) /\
       (forall k, k ∈ ks -> exists d, players (fst st) !! k = Some d /\ role d = chosen_role f k /\
                                      gs !! k = Some (group d))) s.
Proof using urand_range.
  revert p s. induction ks as [|k ks IH]; intros p s Hks; cbn [propose_players].
  { steps. split_and!; try done; [apply drawn_refl|by right|by intros k ?%elem_of_nil]. }
  destruct (Hks k) as [Hr [x Hx]]; [by left|].
  eapply returns_bind; [by apply (propose_player_spec gs k _ p x)|].
  intros [p1 hl] s1 (Hd & Hhl & (Hq & Hu & Hst & Hc) & Hl & Hl0 & a & Hp). cbn [fst snd] in *. subst hl.
  eapply returns_mono; [apply IH; intros j Hj; apply Hks; by right|].
  intros [p2 hl] s2 (Hd' & (Hq' & Hu' & Hst' & Hc') & Hl' & Hl0' & Hout & Hin). cbn [fst snd] in *.
  split; [by eapply drawn_trans|]. split; [split_and!; congruence|]. split_and!.
  - destruct Hl' as [|Hl']; [left; by right|]. rewrite Hl'. destruct Hl as [->| ->]; [left; by left|by right].
  - intros H0 _. destruct Hl' as [|Hl']; [by right|]. rewrite Hl', (Hl0 H0). by left.
  - intros j Hj. rewrite not_elem_of_cons in Hj. destruct Hj as [Hne Hj].
    rewrite Hout, Hp by done. by rewrite lookup_insert_ne.
  - intros j Hj. destruct (decide (j ∈ ks)) as [Hjk|Hjk]; [by apply Hin|].
    apply elem_of_cons in Hj as [->|]; [|done]. rewrite Hout, Hp, lookup_insert_eq by done. by eexists.
Qed.

(** ** A group that can be proposed *)

Record fills (check : LfgGuidList) (ds : LfgDungeonSet) (f : LfgRolesMap) (gs : gmap Z Z) : Prop := {
  fi_distinct : NoDup (players_of O check).*1;
  fi_five : length (players_of O check) = 5%nat;
  fi_roles : assigns (remove_leader (list_to_map (players_of O check))) f;
  fi_party : party f;
  fi_peace : length check <> 1%nat -> peaceful (list_to_map (players_of O check));
  fi_some : ds <> ∅;
  fi_common : forall d g, d ∈ ds -> g ∈ check -> d ∈ dungeons_of O g;
  fi_groups : groups_right O check gs;
  fi_lfg : lfg_groups check <= 1
}.

Lemma fills_keys check ds f gs : fills check ds f gs -> keys f ≡ₚ (players_of O check).*1.
Proof.
  intros Hf. rewrite (assigns_keys _ _ (fi_roles _ _ _ _ Hf)). unfold remove_leader. rewrite keys_fmap.
  apply NoDup_Permutation; [apply NoDup_keys|apply Hf|]. intros k. rewrite elem_of_keys. split.
  - intros [r Hr]. apply elem_of_list_to_map in Hr; [|apply Hf]. apply list_elem_of_fmap. by exists (k, r).
  - intros Hk. destruct (list_to_map (players_of O check) !! k) eqn:He; [by eexists|].
    by apply not_elem_of_list_to_map in He.
Qed.

Lemma assigned_no_leader m f k :
  assigns m f -> k ∈ keys f -> has_flag (chosen_role f k) PLAYER_ROLE_LEADER = false.
Proof.
  intros Ha [x Hx]%elem_of_keys. unfold chosen_role. rewrite Hx. specialize (Ha k). rewrite Hx in Ha.
  destruct (m !! k) as [r|]; [|done]. unfold plays in Ha. zprop. cbn [default].
  unfold is_role in *. repeat match goal with H : _ || _ = true |- _ => apply orb_true_iff in H as [H|H] end;
    apply Z.eqb_eq in H0; by subst.
Qed.

Lemma proposal_good check ds f gs p :
  fills check ds f gs -> (forall g, g ∈ check -> GetState g = LFG_STATE_QUEUED) ->
  queues p = check -> dungeonId p ∈ ds -> state p = LFG_PROPOSAL_INITIATING ->
  cancelTime p = time_now + LFG_TIME_PROPOSAL -> leader p ∈ keys f ->
  (forall k, k ∉ keys f -> players p !! k = None) ->
  (forall k, k ∈ keys f -> exists d, players p !! k = Some d /\ role d = chosen_role f k /\
                                     gs !! k = Some (group d)) ->
  proposal_ok O p.
Proof.
  intros Hf Hst <- Hd Hs Hc Hl Hout Hin.
  assert (Hroles : role <$> players p = f).
  { apply map_eq. intros k. rewrite lookup_fmap. destruct (decide (k ∈ keys f)) as [Hk|Hk].
    - destruct (Hin k Hk) as (d & -> & Hr & _). cbn. rewrite Hr. apply elem_of_keys in Hk as [x Hx].
      unfold chosen_role. by rewrite Hx.
    - rewrite (Hout k Hk). cbn. rewrite elem_of_keys in Hk. destruct (f !! k); [|done]. by destruct Hk. }
  assert (Hkeys : keys (players p) = keys f) by (by rewrite <- Hroles, keys_fmap).
  pose proof (fills_keys _ _ _ _ Hf) as Hperm. split; try done.
  - rewrite <- length_keys, Hkeys, Hperm, length_fmap. apply Hf.
  - by rewrite Hkeys.
  - rewrite Hroles. apply Hf.
  - rewrite Hroles. apply Hf.
  - intros g Hg. by apply (fi_common _ _ _ _ Hf).
  - intros Hne i j Hi Hj. apply (fi_peace _ _ _ _ Hf Hne).
    + apply elem_of_keys in Hi. rewrite Hkeys, Hperm in Hi.
      apply list_elem_of_fmap in Hi as ([i' r] & -> & Hi). exists r. apply elem_of_list_to_map; [apply Hf|done].
    + apply elem_of_keys in Hj. rewrite Hkeys, Hperm in Hj.
      apply list_elem_of_fmap in Hj as ([j' r] & -> & Hj). exists r. apply elem_of_list_to_map; [apply Hf|done].
  - destruct (Hin _ Hl) as (d & Hd' & _). by eexists.
  - intros k d Hk. destruct (decide (k ∈ keys f)) as [Hkf|Hkf]; [|by rewrite Hout in Hk].
    destruct (Hin k Hkf) as (d' & Hk' & _ & Hg). rewrite Hk in Hk'. injection Hk' as <-.
    by apply (fi_groups _ _ _ _ Hf).
  - apply Hf.
Qed.

(** ** Leaving the lists *)

Definition unlist (guid : Z) : QM () := on_queue (fun q => RemoveFromCurrentQueue guid (RemoveFromNewQueue guid q)).

Lemma unlist_spec l s :
  returns (for_each l unlist) (fun _ s' =>
    offers (queue s') = offers (queue s) /\ proposals s' = proposals s /\
    CompatibleMapStore (queue s') = CompatibleMapStore (queue s) /\
    newToQueueStore (queue s') = filter (fun g => g ∉ l) (newToQueueStore (queue s)) /\
    currentQueueStore (queue s') = filter (fun g => g ∉ l) (currentQueueStore (queue s))) s.
Proof.
  assert (Hall : forall k : list Z, filter (fun g => g ∉ []) k = k).
  { induction k as [|x k IH]; [done|]. rewrite filter_cons, decide_True; [by rewrite IH|apply not_elem_of_nil]. }
  assert (Hcons : forall (x : Z) (l k : list Z), filter (fun g => g ∉ l) (filter (fun g => g <> x) k) =
                                      filter (fun g => g ∉ x :: l) k).
  { intros x l' k. rewrite list_filter_filter. apply list_filter_iff. intros g. rewrite not_elem_of_cons. tauto. }
  revert s. induction l as [|x l IH]; intros s; cbn [for_each].
  { steps. by rewrite !Hall. }
  eapply returns_bind with (P := fun _ s1 => s1 = s <| queue ::= fun q => RemoveFromCurrentQueue x (RemoveFromNewQueue x q) |>).
  { done. }
  intros [] s1 ->. eapply returns_mono; [apply IH|]. intros [] s2 (Ho & Hp & Hm & Hn & Hc).
  rewrite Ho, Hp, Hm, Hn, Hc. cbn. by rewrite !Hcons.
Qed.
End Propose.
