(* ===== verification/LFGFind.v ===== *)
(** * What the search of the dungeon finder finds

    [LFGQueue::CheckCompatibility], [FindNewGroups] and [FindGroups] against the
    invariant of LFGSearch.v, and the theorems about a whole search. *)

From S2P Require Import Prelude Maps Guid Text LFG LFGRoles LFGKeys LFGOffers LFGSearch LFGPropose.

Section Find.
Context `{QueueView}.
Context (O : gmap Z offer) (P0 : list LfgProposal) (calm : Prop).
Context (HO : offers_ok O).
Context (urand_range : forall n lo hi, lo <= hi -> lo <= urand n lo hi <= hi).

Abbreviation sinv := (sinv O P0 calm).
Abbreviation moves := (moves O P0 calm).
Abbreviation quiet := (quiet O P0 calm).
Abbreviation proposed := (proposed P0).
Abbreviation fresh := (fresh P0).

(** What looking at the entries [check] may end in: those of a match are
    proposed; what is newly proposed does not involve the first entry otherwise. *)
Record found (check : LfgGuidList) (s : QState) (c : LfgCompatibility) (s' : QState) : Prop := {
  fo_moves : moves s s';
  fo_match : calm -> c = LFG_COMPATIBLES_MATCH -> forall g, g ∈ check -> g ∈ proposed s';
  fo_others : forall g, g ∈ proposed s' ->
    g ∈ proposed s \/ g ∈ tail check \/ (c = LFG_COMPATIBLES_MATCH /\ g ∈ check);
  fo_good : calm -> c <> LFG_COMPATIBLES_BAD_STATES
}.

Lemma found_quiet check s c s' : quiet s s' -> harmless c -> found check s c s'.
Proof.
  intros [Hm Hp] [Hb Hc]. split; try done. unfold LFGSearch.proposed, LFGSearch.fresh. rewrite Hp. by left.
Qed.

Lemma found_after check s1 s2 c s3 : quiet s1 s2 -> found check s2 c s3 -> found check s1 c s3.
Proof.
  intros [Hm Hp] [H1 H2 H3 H4]. split; try done; [by eapply moves_trans|].
  intros g Hg. destruct (H3 g Hg) as [Hg'|?]; [left|by right].
  unfold LFGSearch.proposed, LFGSearch.fresh in *. by rewrite <- Hp.
Qed.

Lemma AllQueued_true check : AllQueued check = true -> forall g, g ∈ check -> GetState g = LFG_STATE_QUEUED.
Proof.
  unfold AllQueued. intros [_ Hall]%andb_true_iff g Hg. rewrite forallb_forall in Hall.
  rewrite list_elem_of_In in Hg. apply Hall in Hg. by apply bool_decide_eq_true in Hg.
Qed.

Lemma AllQueued_waits check : check <> [] -> Forall waits check -> AllQueued check = true.
Proof.
  intros Hne Hw. unfold AllQueued. rewrite bool_decide_eq_false_2 by done. cbn [negb andb].
  apply forallb_forall. intros g Hg. rewrite Forall_forall in Hw. apply bool_decide_eq_true.
  apply Hw. by rewrite list_elem_of_In.
Qed.

(** *** Proposing *)

(** A good proposal is appended, its entries leave the lists, its match enters the cache. *)
Lemma proposing p check s s4 :
  sinv s -> proposal_ok O p -> queues p = check -> (calm -> Forall waits check) ->
  offers (queue s4) = offers (queue s) -> proposals s4 = proposals s ++ [p] ->
  newToQueueStore (queue s4) = filter (fun g => g ∉ check) (newToQueueStore (queue s)) ->
  currentQueueStore (queue s4) = filter (fun g => g ∉ check) (currentQueueStore (queue s)) ->
  (exists d, CompatibleMapStore (queue s4) = <[ConcatenateGuids check := d]> (CompatibleMapStore (queue s)) /\
             compatibility d = LFG_COMPATIBLES_MATCH) ->
  found check s LFG_COMPATIBLES_MATCH s4.
Proof.
  intros Hs Hgood Hpq Hw Ho4 Hp4 Hn4 Hc4 Hm4.
  assert (Hlen : (length P0 <= length (proposals s))%nat).
  { rewrite (si_old _ _ _ _ Hs), length_app. lia. }
  assert (Hfresh : fresh s4 = fresh s ++ [p]).
  { unfold LFGSearch.fresh. by rewrite Hp4, drop_app_le. }
  assert (Hprop : proposed s4 = proposed s ++ check).
  { unfold LFGSearch.proposed. rewrite Hfresh, map_app, concat_app. cbn. by rewrite app_nil_r, Hpq. }
  destruct Hs as [Hs1 Hs2 Hs3 Hs4 Hs5].
  split; [split; split|..]; rewrite ?Hprop, ?Hfresh, ?Ho4, ?Hp4, ?Hn4, ?Hc4.
  - done.
  - rewrite Hs2 at 1. by rewrite app_assoc.
  - apply Forall_app. split; [exact Hs3|]. constructor; [exact Hgood|constructor].
  - intros Hc key d'. rewrite Hfresh. destruct Hm4 as (dm & -> & Hdm).
    intros [[<- <-]|[_ Hk]]%lookup_insert_Some.
    + rewrite Hdm. split; [done|]. intros _. exists p. rewrite Hpq. split; [|split; [by apply Hw|done]].
      apply elem_of_app. right. by left.
    + destruct (Hs4 Hc key d' Hk) as [Hb Hx]. split; [done|]. intros (p0 & Hp0 & Hx')%Hx.
      exists p0. split; [|done]. apply elem_of_app. by left.
  - intros Hc g. unfold listed. rewrite Hn4, Hc4, not_elem_of_app.
    intros [[Hg1 Hg2]%list_elem_of_filter|[Hg1 Hg2]%list_elem_of_filter]%elem_of_app;
      (split; [apply Hs5; [done|]; unfold listed; apply elem_of_app; auto|done]).
  - apply sublist_filter.
  - apply sublist_filter.
  - intros g Hg _. rewrite list_elem_of_filter, elem_of_app. destruct (decide (g ∈ check)); auto.
  - intros g Hg _. rewrite list_elem_of_filter, elem_of_app. destruct (decide (g ∈ check)); auto.
  - intros g Hg. apply elem_of_app. by left.
  - intros _ _ g Hg. apply elem_of_app. by right.
  - intros g [Hg|Hg]%elem_of_app; auto.
  - done.
Qed.

Lemma make_proposal_spec check l pg gs ds f s :
  sinv s -> check <> [] -> fills O check ds f gs -> (calm -> Forall waits check) ->
  returns (make_proposal check (ConcatenateGuids check) l pg gs ds f) (found check s) s.
Proof using urand_range.
  intros Hs Hne Hf Hw. unfold make_proposal. destruct (AllQueued check) eqn:Hq; cbn [negb].
  2:{ unfold answer, on_queue. steps. split; [|done|by left|].
      - apply moves_quiet; try done. intros Hc. by rewrite AllQueued_waits in Hq by auto.
      - intros Hc. by rewrite AllQueued_waits in Hq by auto. }
  eapply returns_bind; [apply select_dungeon_spec; [done|apply Hf]|]. intros d s1 [[n1 ->] Hd].
  match goal with |- returns (propose_players _ _ _ (?p0, false) ≫= _) _ _ => set (p := p0) end.
  eapply returns_bind.
  { apply propose_players_spec; [done|]. intros k Hk. split; [by eapply assigned_no_leader, Hk; apply Hf|].
    rewrite (fills_keys _ _ _ _ _ Hf) in Hk. apply list_elem_of_fmap in Hk as ([k' r] & -> & Hk).
    by eapply (fi_groups _ _ _ _ _ Hf). }
  intros [p' hl] s2 ([n2 ->] & (Hpq & Hpd & Hps & Hpc) & _ & Hl & Hout & Hin). cbn [fst] in *.
  rewrite Hpq. change (queues p) with check.
  eapply returns_bind; [apply (unlist_spec check)|].
  intros [] s3 (Ho & Hp & Hm & Hn & Hcur). unfold answer, on_queue. steps.
  assert (Hgood : proposal_ok O p').
  { apply (proposal_good O check ds f gs p' Hf).
    - by apply AllQueued_true.
    - exact Hpq.
    - rewrite Hpd. exact Hd.
    - exact Hps.
    - exact Hpc.
    - apply Hl; [reflexivity|]. intros Hk. pose proof (fills_keys _ _ _ _ _ Hf) as Hperm. rewrite Hk in Hperm.
      apply Permutation_length in Hperm. by rewrite length_fmap, (fi_five _ _ _ _ _ Hf) in Hperm.
    - intros k Hk. rewrite Hout by exact Hk. apply lookup_empty.
    - exact Hin. }
  match goal with |- found _ _ _ ?s' => set (s4 := s') end.
  assert (Ho4 : offers (queue s4) = offers (queue s)) by exact Ho.
  assert (Hp4 : proposals s4 = proposals s ++ [p']) by exact (f_equal (fun l => l ++ [p']) Hp).
  assert (Hn4 : newToQueueStore (queue s4) = filter (fun g => g ∉ check) (newToQueueStore (queue s))) by exact Hn.
  assert (Hc4 : currentQueueStore (queue s4) = filter (fun g => g ∉ check) (currentQueueStore (queue s))) by exact Hcur.
  assert (Hm4 : exists d', CompatibleMapStore (queue s4) =
            <[ConcatenateGuids check := d']> (CompatibleMapStore (queue s)) /\
            compatibility d' = LFG_COMPATIBLES_MATCH).
  { eexists. split; [exact (f_equal (insert _ _) Hm)|reflexivity]. }
  by apply (proposing p').
Qed.

(** *** Roles and dungeons in common *)

(** What a party of distinct players has to show. *)
Lemma fills_intro check n l pg gs ds f :
  counted O check (n, l, pg, gs) -> n = MAXGROUPSIZE -> l <= 1 -> NoDup (players_of O check).*1 ->
  assigns (remove_leader (list_to_map (players_of O check))) f -> party f ->
  (length check <> 1%nat -> peaceful (list_to_map (players_of O check))) ->
  ds <> ∅ -> (forall d g, d ∈ ds -> g ∈ check -> d ∈ dungeons_of O g) -> fills O check ds f gs.
Proof.
  intros (Hall & Hn & Hl & Hgs) Hfive Hl1 Hd Ha Hp Hpp Hne Hc. split; try done; [|lia].
  unfold MAXGROUPSIZE, zlen in *. lia.
Qed.

Lemma one_fills g n l pg gs d b f :
  counted O [g] (n, l, pg, gs) -> n = MAXGROUPSIZE -> l <= 1 ->
  roles d = roles_of O g -> dungeons d = dungeons_of O g ->
  (roles d <> ∅ -> answers (remove_leader (roles d)) b f) -> fills O [g] (dungeons d) f gs.
Proof using HO.
  intros Hc Hn Hl Hr Hd Ha. pose proof Hc as (Hall & Hlen & _). rewrite Hr in Ha. rewrite Hd.
  assert (Hm : list_to_map (players_of O [g]) = roles_of O g).
  { unfold players_of. cbn. rewrite app_nil_r. apply pairs_to_map. }
  assert (Hsize : Z.of_nat (base.size (roles_of O g)) = MAXGROUPSIZE).
  { rewrite Hlen in Hn. unfold players_of, zlen in Hn. cbn in Hn. by rewrite app_nil_r, length_pairs in Hn. }
  apply Forall_inv in Hall as [o Ho]. destruct (HO g o Ho) as [_ _ Hdo Hf].
  unfold roles_of, dungeons_of in *. rewrite Ho in *. specialize (Hf Hsize).
  assert (Hne : fst o <> ∅) by (intros He; rewrite He, map_size_empty in Hsize; done).
  specialize (Ha Hne). unfold answers in Ha. destruct b; [|tauto].
  apply (fills_intro _ n l pg); rewrite ?Hm; try done; [|tauto|tauto|].
  - unfold players_of, roles_of. cbn. rewrite Ho, app_nil_r, pairs_fst. apply NoDup_keys.
  - intros d' g' Hd' Hg'. apply elem_of_cons in Hg' as [->|?%elem_of_nil]; [|done].
    unfold dungeons_of. by rewrite Ho.
Qed.

Lemma several_fills g others n l pg gs f :
  counted O (g :: others) (n, l, pg, gs) -> n = MAXGROUPSIZE -> l <= 1 ->
  base.size (gathered O (g :: others)) = length (players_of O (g :: others)) ->
  in_common O others (dungeons_of O g) <> ∅ ->
  (gathered O (g :: others) <> ∅ -> answers (remove_leader (gathered O (g :: others))) true f) ->
  fills O (g :: others) (in_common O others (dungeons_of O g)) f gs.
Proof.
  intros Hc Hn Hl Hs Hne Ha. pose proof Hc as (_ & Hlen & _).
  destruct (gathered_all O _ Hs) as (Hnd & Hm & Hp). specialize (Ha ltac:(
    intros He; rewrite He, map_size_empty in Hs; unfold MAXGROUPSIZE, zlen in *; lia)).
  rewrite Hm in Ha, Hp. apply (fills_intro _ n l pg); try done; [by apply Ha..|].
  intros d g' [Hd Hall]%elem_of_in_common [->|Hg]%elem_of_cons; [done|by apply Hall].
Qed.

Lemma roles_check g d s :
  roles d = roles_of O g -> is_Some (O !! g) ->
  exists b f, check_roles (roles d) s = Ok (b, f) s /\ (roles d <> ∅ -> answers (remove_leader (roles d)) b f).
Proof using HO.
  intros -> [o Ho]. unfold roles_of. rewrite Ho. destruct (HO g o Ho). by apply check_roles_spec.
Qed.

Lemma match_guids_spec check n l pg gs s :
  sinv s -> check <> [] -> counted O check (n, l, pg, gs) -> n <= MAXGROUPSIZE -> l <= 1 ->
  returns (match_guids check (ConcatenateGuids check) n)
    (fun m s' => match m with
                 | inl c => harmless c /\ quiet s s'
                 | inr (ds, f) => s' = s /\ (n = MAXGROUPSIZE -> fills O check ds f gs)
                 end) s.
Proof using HO.
  intros Hs Hne Hc Hn Hl. pose proof Hc as (Hall & Hlen & _). unfold match_guids.
  destruct check as [|g check]; [done|]. destruct check as [|g2 check].
  - apply Forall_inv in Hall as Hg. destruct (queue_data_spec O P0 calm s g Hs Hg) as (d & Hd & Hr & Hds).
    unfold returns. steps. unfold wp at 1. rewrite Hd.
    destruct (roles_check g d s Hr Hg) as (b & f & Hb & Ha). steps. unfold wp at 1. rewrite Hb. steps.
    split; [done|]. intros Hfive. by eapply one_fills.
  - set (all := g :: g2 :: check) in *. unfold returns. steps. unfold wp at 1.
    rewrite (gather_roles_spec O P0 calm all ∅ s Hs Hall). fold (gathered O all). steps.
    + eapply wp_mono; [by apply (answer_spec O P0 calm)| |done]. intros c s' [-> Hq]. by steps.
    + pose proof (size_gathered O all) as Hsize. rewrite Hlen in *. zprop.
      assert (Hall' : base.size (gathered O all) = length (players_of O all)).
      { unfold MAXGROUPSIZE, zlen in *. rewrite wrap_small in *; unfold in_width; lia. }
      destruct (check_roles_spec (gathered O all) s) as (b & f & Hb & Ha).
      { by apply gathered_bytes. }
      { unfold zlen in *. lia. }
      unfold wp at 1. rewrite Hb. steps.
      { eapply wp_mono; [by apply (answer_spec O P0 calm)| |done]. intros c s' [-> Hq]. by steps. }
      destruct b; [|done]. apply Forall_inv in Hall as Hg.
      destruct (queue_data_spec O P0 calm s g Hs Hg) as (d & Hd & Hr & Hds). unfold wp at 1. rewrite Hd. steps.
      apply Forall_inv_tail in Hall as Htl. unfold wp at 1. rewrite (common_dungeons_spec O P0 calm _ _ s Hs Htl). steps.
      { eapply wp_mono; [by apply (answer_spec O P0 calm)| |done]. intros c s' [-> Hq]. by steps. }
      split; [done|]. intros Hfive. rewrite Hds.
      match goal with Hb : bool_decide _ = false |- _ => apply bool_decide_eq_false in Hb; rewrite Hds in Hb end.
      by eapply several_fills.
Qed.

(** *** The check of some entries *)

Lemma several_updates check key f s :
  sinv s -> Forall (fun g => is_Some (O !! g)) check ->
  returns (for_each check (fun g => update_best g key f)) (fun _ s' => quiet s s') s.
Proof.
  intros Hs Hall. apply (wp_for_each _ _ (fun s' => quiet s s')).
  - by apply (quiet_refl O P0 calm).
  - intros g s' Hg Hq. rewrite Forall_forall in Hall.
    eapply returns_mono; [apply (update_best_spec O P0 calm g key f s')|].
    + by apply (quiet_inv O P0 calm s).
    + by apply Hall.
    + intros [] s2 Hq2. by eapply (quiet_trans O P0 calm).
Qed.

Lemma set_data_found check key f s s1 :
  quiet s s1 ->
  returns (on_queue (SetCompatibilityData key (mkLfgCompatibilityData LFG_COMPATIBLES_WITH_LESS_PLAYERS f));;
           mret LFG_COMPATIBLES_WITH_LESS_PLAYERS) (found check s) s1.
Proof.
  intros Hq. eapply returns_bind; [apply (set_data_spec O P0 calm), (quiet_inv O P0 calm s s1 Hq)|].
  intros [] s2 Hq2. steps. apply found_quiet; [by eapply (quiet_trans O P0 calm)|done].
Qed.

Lemma answer_found check key c s :
  sinv s -> harmless c -> returns (answer key c) (found check s) s.
Proof.
  intros Hs Hc. eapply returns_mono; [by apply (answer_spec O P0 calm)|].
  intros a s' [-> Hq]. by apply found_quiet.
Qed.

Lemma check_these_spec check s :
  sinv s -> check <> [] -> (calm -> Forall waits check) -> returns (check_these check) (found check s) s.
Proof using HO urand_range.
  intros Hs Hne Hw. unfold check_these.
  eapply returns_bind; [apply (count_players_spec O P0 calm HO check [] _ s Hs), counted_nil|].
  intros [[[[n l] pg] gs]|] s1; [|intros Hq; steps; by apply found_quiet].
  intros (-> & l1 & l2 & -> & Hc & Hstop). cbn [fst snd app] in *. pose proof Hc as (Hall & Hn & Hl & _).
  assert (H0 : l1 = [] -> l2 = []).
  { intros ->. change (l = 0) in Hl. change (n = 0) in Hn. unfold MAXGROUPSIZE in *. destruct Hstop; [done|lia]. }
  unfold returns. steps.
  - zprop. assert (Hone : exists g, l1 = [g] /\ l2 = []).
    { destruct l1 as [|g l1], l2 as [|g2 l2]; [done|by specialize (H0 eq_refl)|..];
        unfold zlen in *; rewrite ?length_app in *; cbn [length] in *; [|lia].
      destruct l1; [by exists g|cbn [length] in *; lia]. }
    destruct Hone as (g & -> & ->). cbn [app List.hd] in *. apply Forall_inv in Hall as Hg.
    destruct (entry_data O P0 calm s g Hs Hg) as (d & Hd & Hr & _). rewrite Hd. steps.
    destruct (roles_check g d s Hr Hg) as (b & f & Hb & _). unfold wp at 1. rewrite Hb.
    eapply returns_bind; [by apply (update_best_spec O P0 calm)|]. intros [] s2 Hq. by apply set_data_found.
  - by apply answer_found.
  - by apply answer_found.
  - zprop. assert (l2 = []) as -> by (destruct Hstop as [|[|]]; [done|lia..]). rewrite app_nil_r in *.
    eapply wp_mono; [by eapply (match_guids_spec l1 n l pg gs s)| |done].
    intros [c|[ds f]] s2; [intros [Hh Hq]; steps; by apply found_quiet|]. intros [-> Hf]. unfold returns. steps.
    + eapply wp_mono; [by apply several_updates| |done]. intros [] s3 Hq. by apply set_data_found.
    + zprop. by apply make_proposal_spec; auto.
Qed.

Lemma found_child x others s c1 s1 c s2 :
  found others s c1 s1 -> found (x :: others) s1 c s2 -> found (x :: others) s c s2.
Proof.
  intros [H1 H2 H3 H4] [H1' H2' H3' H4']. split; try done; [by eapply (moves_trans O P0 calm)|].
  intros g [Hg|?]%H3'; [|by right]. destruct (H3 g Hg) as [|[Ht|[_ Ht]]]; [by left|..]; right; left; cbn; [|done].
  destruct others; [done|]. by right.
Qed.

Lemma found_inv check s c s' : found check s c s' -> sinv s'.
Proof. intros [[Hs _] _ _ _]. done. Qed.

Lemma CheckCompatibility_spec check s :
  sinv s -> (calm -> Forall waits check) -> returns (CheckCompatibility check) (found check s) s.
Proof using HO urand_range.
  revert s. induction check as [|x others IH]; intros s Hs Hw; cbn [CheckCompatibility].
  { steps. apply found_quiet; [by apply (quiet_refl O P0 calm)|done]. }
  unfold returns. steps.
  - apply found_quiet; [by apply (quiet_refl O P0 calm)|done].
  - eapply wp_mono; [apply IH; [done|]; intros Hc; by eapply Forall_inv_tail, Hw| |done].
    intros c s1 Hf. apply found_inv in Hf as Hs1. unfold returns. steps.
    + eapply returns_mono; [apply (answer_found (x :: others)); [done|]|].
      * by destruct c.
      * intros a s2 Hf2. by eapply found_child.
    + eapply returns_mono; [by apply check_these_spec|]. intros a s2 Hf2. by eapply found_child.
  - by apply check_these_spec.
Qed.

(** *** The cache in front of it *)

Lemma elem_of_proposed g s : g ∈ proposed s <-> exists p, p ∈ fresh s /\ g ∈ queues p.
Proof.
  unfold LFGSearch.proposed. rewrite list_elem_of_In, in_concat. split.
  - intros (l & (p & <- & Hp)%in_map_iff & Hg). exists p. by rewrite !list_elem_of_In.
  - intros (p & Hp & Hg). exists (queues p). split; [|by rewrite <- list_elem_of_In].
    apply in_map. by rewrite <- list_elem_of_In.
Qed.

Lemma waits_nonneg l : Forall waits l -> Forall (fun x => 0 <= x) l.
Proof. intros Hl. eapply Forall_impl; [exact Hl|]. by intros ? [_ ?]. Qed.

Lemma cached_found check s :
  sinv s -> (calm -> Forall waits check) -> GetCompatibles (ConcatenateGuids check) (queue s) <> LFG_COMPATIBILITY_PENDING ->
  found check s (GetCompatibles (ConcatenateGuids check) (queue s)) s.
Proof.
  intros Hs Hw. unfold GetCompatibles.
  destruct (CompatibleMapStore (queue s) !! ConcatenateGuids check) as [d|] eqn:Hd; [|done]. intros _.
  split; [by apply (quiet_refl O P0 calm)| |by left|].
  - intros Hc Hm g Hg. destruct (si_cache O P0 calm s Hs Hc _ _ Hd) as [_ Hx].
    destruct (Hx Hm) as (p & Hp & Hwp & Hk). apply elem_of_proposed. exists p. split; [done|].
    by apply (ConcatenateGuids_inj _ _ (waits_nonneg _ (Hw Hc)) (waits_nonneg _ Hwp) Hk).
  - intros Hc. by apply (si_cache O P0 calm s Hs Hc _ _ Hd).
Qed.

Lemma bad_states check c s s1 :
  check <> [] -> (calm -> Forall waits check) -> found check s c s1 ->
  returns (if bool_decide (c = LFG_COMPATIBLES_BAD_STATES) && AllQueued check
           then answer (ConcatenateGuids check) LFG_COMPATIBLES_MATCH else mret c) (found check s) s1.
Proof.
  intros Hne Hw Hf. apply wp_if; [|by steps]. intros [Hb Hq]%andb_true_iff. apply bool_decide_eq_true in Hb.
  assert (Hnc : ~ calm) by (intros Hc; by apply (fo_good _ _ _ _ Hf)).
  destruct Hf as [Hm _ Ho _]. unfold answer, on_queue. steps. split; try tauto.
  - eapply (moves_trans O P0 calm); [exact Hm|]. apply moves_quiet; try done. apply Hm.
  - intros g Hg. destruct (Ho g Hg) as [|[|[? _]]]; [auto|auto|congruence].
Qed.

Lemma enter_spec check s :
  sinv s -> check <> [] -> (calm -> Forall waits check) -> returns (enter check) (found check s) s.
Proof using HO urand_range.
  intros Hs Hne Hw. unfold enter.
  eapply returns_bind with (P := fun q s' => q = queue s /\ s' = s); [done|]. intros q s' [-> ->].
  eapply returns_bind with (P := found check s); [|intros c s1 Hf; by apply bad_states].
  apply wp_if; intros Hb.
  - by apply CheckCompatibility_spec.
  - apply wp_ret, cached_found; [done|done|]. by apply bool_decide_eq_false in Hb.
Qed.

(** *** Trying the others *)

(** What trying the entries [all] besides [check] comes to. *)
Record tried_all (check all : LfgGuidList) (s : QState) (r : LfgCompatibility * LfgGuidList) (s' : QState) : Prop := {
  ta_moves : moves s s';
  ta_match : calm -> fst r = LFG_COMPATIBLES_MATCH -> forall g, g ∈ check -> g ∈ proposed s';
  ta_others : forall g, g ∈ proposed s' ->
    g ∈ proposed s \/ g ∈ tail check ++ all \/ (fst r = LFG_COMPATIBLES_MATCH /\ g ∈ check);
  ta_left : snd r `suffix_of` all
}.

Lemma in_tail_snoc (check : LfgGuidList) g all x :
  check <> [] -> x ∈ tail (check ++ [g]) ++ all <-> x ∈ tail check ++ g :: all.
Proof. destruct check; [done|]. cbn [tail app]. by rewrite <- app_assoc. Qed.

(** The first of the others is tried with [check], and perhaps some of the rest. *)
Lemma tried_one check g all s c s1 r s2 :
  check <> [] -> found (check ++ [g]) s c s1 ->
  (r = (c, all) /\ s2 = s1) \/ (c <> LFG_COMPATIBLES_MATCH /\ tried_all (check ++ [g]) all s1 r s2) ->
  tried_all (check ++ [g]) all s r s2.
Proof.
  intros Hne [H1 H2 H3 H4] [[-> ->]|[Hc [H1' H2' H3' H4']]].
  - split; try done. intros x [?|[?|?]]%H3; [auto|rewrite elem_of_app; auto|auto].
  - split; try done; [by eapply (moves_trans O P0 calm)|].
    intros x [[?|[?|[? _]]]%H3|?]%H3'; [auto|rewrite elem_of_app; auto|done|auto].
Qed.

Lemma tried_match check g all s r s1 :
  check <> [] -> tried_all (check ++ [g]) all s r s1 -> fst r = LFG_COMPATIBLES_MATCH ->
  tried_all check (g :: all) s (LFG_COMPATIBLES_MATCH, snd r) s1.
Proof.
  intros Hne [H1 H2 H3 H4] Hm. split; cbn [fst snd]; [done| | |by apply suffix_cons_r].
  - intros Hc _ x Hx. apply H2; [done|done|]. apply elem_of_app. by left.
  - intros x Hx. destruct (H3 x Hx) as [|[Ht|[_ Ht]]]; [by left| |].
    + right. left. by apply in_tail_snoc.
    + apply elem_of_app in Ht as [|Ht]; [by right; right|]. right. left. apply elem_of_app. right.
      apply list_elem_of_singleton in Ht as ->. by left.
Qed.

Lemma tried_next check g all s r s1 r' s' :
  check <> [] -> tried_all (check ++ [g]) all s r s1 -> fst r <> LFG_COMPATIBLES_MATCH ->
  tried_all check (snd r) s1 r' s' -> tried_all check (g :: all) s r' s'.
Proof.
  intros Hne [H1 H2 H3 H4] Hm [H1' H2' H3' H4']. split; [by eapply (moves_trans O P0 calm)|done| |].
  - intros x Hx. destruct (H3' x Hx) as [Hx'|[Ht|?]]; [|right; left|by right; right].
    + destruct (H3 x Hx') as [|[Ht|[? _]]]; [by left| |done]. right. left. by apply in_tail_snoc.
    + rewrite elem_of_app in *. destruct Ht as [|Ht]; [by left|]. right. right. by eapply elem_of_suffix.
  - apply suffix_cons_r. by etrans.
Qed.

Lemma try_all_spec fuel check compatibles all s :
  (length all < fuel)%nat -> compatibles <> LFG_COMPATIBLES_MATCH -> sinv s -> check <> [] ->
  (calm -> Forall waits check /\ Forall waits all) ->
  returns (try_all fuel check compatibles all) (tried_all check all s) s.
Proof using HO urand_range.
  revert check compatibles all s. induction fuel as [|fuel IH]; intros check compatibles all s Hfuel Hc Hs Hne Hw; [lia|].
  destruct all as [|g all]; cbn [try_all length] in *.
  { steps. split; try done; [by apply (quiet_refl O P0 calm)|by left]. }
  assert (Hw' : calm -> Forall waits (check ++ [g])).
  { intros [H1 H2]%Hw. apply Forall_app. split; [done|]. constructor; [by apply Forall_inv in H2|constructor]. }
  assert (Hne' : check ++ [g] <> []) by (by destruct check).
  eapply returns_bind; [by apply (enter_spec (check ++ [g]) s)|]. intros sub s1 Hf.
  pose proof (found_inv _ _ _ _ Hf) as Hs1.
  eapply returns_bind with (P := tried_all (check ++ [g]) all s).
  - apply wp_if; intros Hb.
    + apply bool_decide_eq_true in Hb. subst sub.
      eapply wp_mono; [apply IH; try done; [lia|]| |done].
      * intros Hcalm. split; [by apply Hw'|]. by eapply Forall_inv_tail, Hw.
      * intros r s2 Ht. eapply tried_one; [done|done|]. by right.
    + apply wp_ret. eapply tried_one; [done|done|]. by left.
  - intros [sub' all'] s2 Ht. apply wp_if; intros Hb.
    + apply bool_decide_eq_true in Hb. apply wp_ret. by apply (tried_match check g all s _ s2 Hne Ht).
    + apply bool_decide_eq_false in Hb.
      pose proof (ta_left _ _ _ _ _ Ht) as Hsuf. cbn [snd] in Hsuf. apply suffix_length in Hsuf as Hlen.
      eapply wp_mono; [apply IH; try done| |done].
      * lia.
      * apply Ht.
      * intros Hcalm. split; [by apply Hw|]. destruct (Hw Hcalm) as [_ Hwa]. apply Forall_inv_tail in Hwa.
        rewrite Forall_forall in *. intros x Hx. apply Hwa. by eapply elem_of_suffix.
      * intros r s3 Ht3. by eapply tried_next.
Qed.

Lemma FindNewGroups_spec g all s :
  sinv s -> (calm -> waits g /\ Forall waits all) -> returns (FindNewGroups [g] all) (tried_all [g] all s) s.
Proof using HO urand_range.
  intros Hs Hw. unfold FindNewGroups.
  assert (Hw' : calm -> Forall waits [g]) by (intros [? _]%Hw; by apply Forall_singleton).
  eapply returns_bind; [by apply (enter_spec [g] s)|]. intros c s1 Hf.
  pose proof (found_inv _ _ _ _ Hf) as Hs1. apply wp_if; intros Hb.
  - apply bool_decide_eq_true in Hb. subst c.
    eapply wp_mono; [apply try_all_spec; try done; [lia|]| |done].
    { intros Hcalm. split; [by apply Hw'|by apply Hw]. }
    intros r s2 [H1 H2 H3 H4]. destruct Hf as [H1' H2' H3' H4'].
    split; try done; [by eapply (moves_trans O P0 calm)|].
    intros x Hx. destruct (H3 x Hx) as [Hx'|]; [|by right].
    destruct (H3' x Hx') as [|[?%elem_of_nil|[? _]]]; [by left|done|done].
  - apply wp_ret. destruct Hf as [H1 H2 H3 H4]. split; try done. intros x Hx.
    destruct (H3 x Hx) as [|[?%elem_of_nil|?]]; [by left|done|by right; right].
Qed.

(** *** All new entries *)

(** Each entry is listed once, and is in the state of waiting. *)
Definition in_order_lists (q : LFGQueue) : Prop := NoDup (listed q) /\ Forall waits (listed q).

Record settled (s s' : QState) : Prop := {
  se_inv : sinv s';
  se_new : newToQueueStore (queue s') = [];
  se_lists : calm -> in_order_lists (queue s');
  se_kept : calm -> forall g, g ∈ listed (queue s) -> is_Some (O !! g) ->
    g ∈ currentQueueStore (queue s') \/ g ∈ proposed s';
  se_proposed : forall g, g ∈ proposed s -> g ∈ proposed s'
}.

Lemma sublist_listed q q' :
  newToQueueStore q' `sublist_of` newToQueueStore q -> currentQueueStore q' `sublist_of` currentQueueStore q ->
  listed q' `sublist_of` listed q.
Proof. apply sublist_app. Qed.

Lemma in_order_sublist q q' : listed q' `sublist_of` listed q -> in_order_lists q -> in_order_lists q'.
Proof.
  intros Hs [H1 H2]. split; [by eapply sublist_NoDup|]. rewrite Forall_forall in *. intros g Hg.
  apply H2. by eapply elem_of_sublist.
Qed.

Lemma taken_front s front rest :
  sinv s -> newToQueueStore (queue s) = front :: rest ->
  let s1 := s <| queue ::= RemoveFromNewQueue front |> in
  sinv s1 /\ listed (queue s1) `sublist_of` listed (queue s) /\ front ∉ newToQueueStore (queue s1) /\
  (length (newToQueueStore (queue s1)) <= length rest)%nat /\
  (forall g, g ∈ listed (queue s) -> g = front \/ g ∈ listed (queue s1)).
Proof.
  intros Hs Hn s1. assert (Hn1 : newToQueueStore (queue s1) = filter (fun g => g <> front) rest).
  { unfold s1. cbn. rewrite Hn, filter_cons, decide_False; [done|tauto]. }
  assert (Hsub : listed (queue s1) `sublist_of` listed (queue s)).
  { apply sublist_listed; [|done]. unfold s1. cbn. apply sublist_filter. }
  split_and!; [|done| | |].
  - destruct Hs as [H1 H2 H3 H4 H5]. split; try done. intros Hc g Hg. apply H5; [done|].
    by eapply elem_of_sublist.
  - rewrite Hn1. by intros [? _]%list_elem_of_filter.
  - rewrite Hn1. apply length_filter.
  - intros g. unfold listed. rewrite Hn, Hn1, !elem_of_app, elem_of_cons, list_elem_of_filter.
    destruct (decide (g = front)); [by left|]. intros [[?|?]|?]; auto.
Qed.

(** One round: the front entry is proposed, or put back behind the others. *)
Record round_done (s s' : QState) (n : nat) : Prop := {
  rd_inv : sinv s';
  rd_lists : calm -> in_order_lists (queue s');
  rd_new : (length (newToQueueStore (queue s')) <= n)%nat;
  rd_kept : calm -> forall g, g ∈ listed (queue s) -> is_Some (O !! g) ->
    g ∈ listed (queue s') \/ g ∈ proposed s';
  rd_proposed : forall g, g ∈ proposed s -> g ∈ proposed s'
}.

Lemma kept_listed s s' g :
  shrinks O P0 s s' -> g ∈ listed (queue s) -> is_Some (O !! g) -> g ∈ listed (queue s') \/ g ∈ proposed s'.
Proof.
  intros Hs. unfold listed. rewrite !elem_of_app. intros [Hg|Hg] Ho.
  - destruct (sh_kept_new _ _ _ _ Hs g Hg Ho); auto.
  - destruct (sh_kept_current _ _ _ _ Hs g Hg Ho); auto.
Qed.

Lemma listed_back front s :
  listed (queue (s <| queue ::= AddToCurrentQueue front |>)) = listed (queue s) ++ [front].
Proof. unfold listed. cbn. by rewrite app_assoc. Qed.

Lemma put_back front s n :
  sinv s -> (calm -> in_order_lists (queue s)) -> (calm -> waits front) -> (calm -> front ∉ listed (queue s)) ->
  (calm -> front ∉ proposed s) -> (length (newToQueueStore (queue s)) <= n)%nat ->
  let s' := s <| queue ::= AddToCurrentQueue front |> in
  sinv s' /\ (calm -> in_order_lists (queue s')) /\ (length (newToQueueStore (queue s')) <= n)%nat.
Proof.
  intros Hs Hl Hw Hn Hp Hlen s'. split_and!; [|intros Hc; split|done]; [|unfold s'; rewrite listed_back..].
  - destruct Hs as [H1 H2 H3 H4 H5]. split; try done. intros Hc g. unfold s'. rewrite listed_back.
    intros [Hg| ->%list_elem_of_singleton]%elem_of_app; [by apply H5|by apply Hp].
  - apply NoDup_app. split; [by apply Hl|]. split; [|apply NoDup_singleton].
    intros x Hx ->%list_elem_of_singleton. by apply (Hn Hc).
  - apply Forall_app. split; [by apply Hl|]. apply Forall_singleton. by apply Hw.
Qed.

Lemma round_ends s front rest c all s2 :
  sinv s -> (calm -> in_order_lists (queue s)) -> newToQueueStore (queue s) = front :: rest ->
  let s1 := s <| queue ::= RemoveFromNewQueue front |> in
  tried_all [front] (currentQueueStore (queue s1)) s1 (c, all) s2 ->
  round_done s (if bool_decide (c = LFG_COMPATIBLES_MATCH) then s2
                else s2 <| queue ::= AddToCurrentQueue front |>) (length rest).
Proof.
  intros Hs Hl Hn s1 [H1 H2 H3 _]. destruct (taken_front s front rest Hs Hn) as (Hs1 & Hsub & Hf & Hlen & Htake).
  fold s1 in Hs1, Hsub, Hf, Hlen, Htake. destruct H1 as [Hs2 Hsh].
  assert (Hsub2 : listed (queue s2) `sublist_of` listed (queue s1)) by (apply sublist_listed; apply Hsh).
  assert (Hl2 : calm -> in_order_lists (queue s2)).
  { intros Hc. eapply in_order_sublist, Hl, Hc. by etrans. }
  assert (Hlen2 : (length (newToQueueStore (queue s2)) <= length rest)%nat).
  { etrans; [apply sublist_length, Hsh|done]. }
  assert (Hfl : calm -> front ∉ listed (queue s1)).
  { intros Hc. unfold listed. rewrite not_elem_of_app. split; [done|]. destruct (Hl Hc) as [Hnd _].
    unfold listed in Hnd. rewrite Hn in Hnd. apply NoDup_cons in Hnd as [Hx _].
    intros Hcur. apply Hx, elem_of_app. by right. }
  assert (Hkept : forall g, g ∈ listed (queue s) -> is_Some (O !! g) ->
            g = front \/ g ∈ listed (queue s2) \/ g ∈ proposed s2).
  { intros g [->|Hg]%Htake Ho; [by left|right]. by eapply kept_listed. }
  case_bool_decide as Hm.
  - split; try done; [|by apply Hsh]. intros Hc g Hg Ho. destruct (Hkept g Hg Ho) as [->|]; [right|done].
    apply (H2 Hc Hm). by left.
  - destruct (put_back front s2 (length rest)) as (Hs3 & Hl3 & Hlen3); try done.
    + intros Hc. destruct (Hl Hc) as [_ Hw]. unfold listed in Hw. rewrite Hn in Hw. by apply Forall_inv in Hw.
    + intros Hc Hx. apply (Hfl Hc). by eapply elem_of_sublist.
    + intros Hc [Hx|[Hx|[? _]]]%H3; [|by apply (Hfl Hc), elem_of_app; right|done].
      apply (si_apart _ _ _ _ Hs Hc front); [|done]. unfold listed. rewrite Hn. by left.
    + split; [done|done|done| |by apply Hsh].
      intros Hc g Hg Ho. rewrite listed_back, elem_of_app.
      destruct (Hkept g Hg Ho) as [->|[|]]; [left; right; by left|by left; left|by right].
Qed.

Lemma FindGroups_loop_spec fuel found0 s :
  (length (newToQueueStore (queue s)) < fuel)%nat -> sinv s -> (calm -> in_order_lists (queue s)) ->
  returns (FindGroups_loop fuel found0) (fun _ => settled s) s.
Proof using HO urand_range.
  revert found0 s. induction fuel as [|fuel IH]; intros found0 s Hfuel Hs Hl; [lia|]. cbn [FindGroups_loop].
  eapply returns_bind with (P := fun q s' => q = queue s /\ s' = s); [done|]. intros q s' [-> ->].
  destruct (newToQueueStore (queue s)) as [|front rest] eqn:Hn.
  { steps. split; try done. intros Hc g. unfold listed. rewrite Hn. by left. }
  set (s1 := s <| queue ::= RemoveFromNewQueue front |>).
  eapply returns_bind with (P := fun _ s' => s' = s1); [done|]. intros [] s' ->.
  eapply returns_bind with (P := fun q s' => q = queue s1 /\ s' = s1); [done|]. intros q s' [-> ->].
  destruct (taken_front s front rest Hs Hn) as (Hs1 & Hsub & _). fold s1 in Hs1, Hsub.
  eapply returns_bind; [apply (FindNewGroups_spec front (currentQueueStore (queue s1)) s1 Hs1)|].
  { intros Hc. destruct (Hl Hc) as [_ Hw]. unfold listed in Hw. rewrite Hn in Hw. split; [by apply Forall_inv in Hw|].
    destruct (in_order_sublist _ _ Hsub (Hl Hc)) as [_ Hw1]. by apply Forall_app in Hw1 as [_ ?]. }
  intros [c all] s2 Ht. pose proof (round_ends s front rest c all s2 Hs Hl Hn Ht) as [H1 H2 H3 H4 H5].
  assert (Hend : forall n, returns (FindGroups_loop fuel n) (fun _ => settled s)
            (if bool_decide (c = LFG_COMPATIBLES_MATCH) then s2 else s2 <| queue ::= AddToCurrentQueue front |>)).
  { intros n. cbn [length] in Hfuel. eapply returns_mono; [apply IH; [lia|done|done]|].
    intros _ s4 [H1' H2' H3' H4' H5']. split; try done; [|auto]. intros Hc g Hg Ho.
    destruct (H4 Hc g Hg Ho); auto. }
  destruct (bool_decide (c = LFG_COMPATIBLES_MATCH)); [apply Hend|].
  eapply returns_bind with (P := fun _ s' => s' = s2 <| queue ::= AddToCurrentQueue front |>); [done|].
  intros [] s' ->. apply Hend.
Qed.
End Find.
