(* ===== verification/LFGProps.v ===== *)
(** * A whole search of the dungeon finder

    The theorems about [LFGQueue::FindGroups]: what it proposes is good, it
    loses nobody; and searches whose outcome is not what one would expect. *)

From S2P Require Import Prelude Maps Guid Text LFG LFGRoles LFGKeys LFGOffers LFGSearch LFGPropose LFGFind.

(** ** The start of a search *)

Section Start.
Context `{QueueView}.

Lemma start_fresh s : fresh (proposals s) s = [].
Proof. apply drop_all. Qed.

Lemma start_inv (calm : Prop) s :
  (calm -> cache_ok (proposals s) s) -> sinv (offers (queue s)) (proposals s) calm s.
Proof.
  intros Hc. split; try done.
  - by rewrite start_fresh, app_nil_r.
  - by rewrite start_fresh.
  - intros _ g _. unfold proposed. rewrite start_fresh. apply not_elem_of_nil.
Qed.

(** No match is left in the cache by an earlier search. *)
Definition clean_cache (q : LFGQueue) : Prop :=
  map_Forall (fun _ d => harmless (compatibility d)) (CompatibleMapStore q).

Lemma clean_cache_ok s : clean_cache (queue s) -> cache_ok (proposals s) s.
Proof. intros Hc key d [Hb Hm]%Hc. split; [done|]. by intros ?%Hm. Qed.

Lemma FindGroups_spec (calm : Prop) s :
  (forall n lo hi, lo <= hi -> lo <= urand n lo hi <= hi) -> offers_ok (offers (queue s)) ->
  (calm -> clean_cache (queue s) /\ in_order_lists (queue s)) ->
  returns FindGroups (fun _ => settled (offers (queue s)) (proposals s) calm s) s.
Proof.
  intros Hu HO Hc. unfold FindGroups. eapply returns_bind with (P := fun q s' => q = queue s /\ s' = s); [done|].
  intros q s' [-> ->]. apply FindGroups_loop_spec; [done|done|lia| |by apply Hc].
  apply start_inv. intros Hcalm. by apply clean_cache_ok, Hc.
Qed.
End Start.

(** ** The theorems *)

(** C9.  What the dungeon finder proposes is a group that can play.  When the
    offers of the entries are well formed, [FindGroups] returns, examines all
    new entries, leaves the offers as they are, and only appends proposals; each
    is of five distinct players, those of its entries, all of whom still wait;
    everybody has a role he chose, one is the tank, one the healer and three deal
    damage; every entry asked for the dungeon; entries that did not come alone
    have nobody who ignores another; the leader is one of the five. *)
Theorem proposals_good `{QueueView} (s : QState) :
  (forall n lo hi, lo <= hi -> lo <= urand n lo hi <= hi) -> offers_ok (offers (queue s)) ->
  returns FindGroups (fun _ s' =>
    newToQueueStore (queue s') = [] /\ offers (queue s') = offers (queue s) /\
    exists new, proposals s' = proposals s ++ new /\ Forall (proposal_ok (offers (queue s))) new) s.
Proof.
  intros Hu HO. eapply returns_mono; [by apply (FindGroups_spec False)|].
  intros n s' [[H1 H2 H3 _ _] Hn _ _ _]. split_and!; [done|done|]. by eexists.
Qed.

(** C14.  The dungeon finder loses nobody.  When the entries on the two lists are
    distinct and wait, and the cache has no match of an earlier search, each
    of them that has data ends either on the list of those looked at, or in a
    proposal of this search, and not in both. *)
Theorem nobody_lost `{QueueView} (s : QState) :
  (forall n lo hi, lo <= hi -> lo <= urand n lo hi <= hi) -> offers_ok (offers (queue s)) ->
  clean_cache (queue s) -> in_order_lists (queue s) ->
  returns FindGroups (fun _ s' =>
    newToQueueStore (queue s') = [] /\ NoDup (currentQueueStore (queue s')) /\
    forall g, g ∈ listed (queue s) -> is_Some (QueueDataStore (queue s) !! g) ->
      let new := concat (map queues (drop (length (proposals s)) (proposals s'))) in
      (g ∈ currentQueueStore (queue s') /\ g ∉ new) \/ (g ∉ currentQueueStore (queue s') /\ g ∈ new)) s.
Proof.
  intros Hu HO Hc Hl. eapply returns_mono; [by apply (FindGroups_spec True)|].
  intros n s' [Hs Hn Hlists Hkept _]. destruct (Hlists I) as [Hnd _]. unfold listed in Hnd. rewrite Hn in Hnd.
  split_and!; [done|done|]. intros g Hg [d Hd] new. fold (proposed (proposals s) s') in new.
  assert (Hex : g ∈ currentQueueStore (queue s') -> g ∉ new).
  { intros Hcur. apply (si_apart _ _ _ _ Hs I). unfold listed. by rewrite Hn. }
  destruct (Hkept I g Hg) as [Hcur|Hp]; [|auto|].
  - apply offers_lookup_Some in Hd. by eexists.
  - right. split; [|done]. intros Hcur. by apply Hex.
Qed.

(** ** Examples *)

(** Everybody is online and waits, nobody ignores anybody, every draw gives its
    least value. *)
Definition quiet_world : QueueView := {|
  FindPlayer := fun _ => true;
  social_HasIgnore := fun _ _ => false;
  GetState := fun _ => LFG_STATE_QUEUED;
  GetOldState := fun _ => LFG_STATE_NONE;
  data_IsLfgGroup := fun _ => false;
  time_now := 1000;
  urand := fun _ lo _ => lo
|}.

(** Entries join one after the other. *)
Definition joining (l : list (Z * (list Z * list (Z * Z)))) : QState :=
  mkQState (fold_left (fun q e => AddQueueData (fst e) 0 (list_to_set (fst (snd e))) (list_to_map (snd (snd e))) q)
    l LFGQueue_new) [] [] 0.

Definition run (s : QState) : option (Z * QState) :=
  match @FindGroups quiet_world s with Ok n s' => Some (n, s') | _ => None end.

Definition G (low : Z) : Z := MAKE_NEW_GUID low 0 HIGHGUID_GROUP.

(** A group of three and two players alone. *)
Definition three_entries : QState :=
  joining [(G 7, ([4; 5], [(11, 8); (12, 12); (13, 8)])); (14, ([5; 6], [(14, 2)])); (15, ([5], [(15, 0x0D)]))].

Definition summary (p : LfgProposal) : Z * Z * list Z * list (Z * Z) :=
  (dungeonId p, leader p, queues p, pairs (role <$> players p)).

(** They are proposed dungeon 5.  Player 15 asked to lead, but the draw makes 11
    the leader: [CheckGroupRoles] has removed the flag. *)
Example three_entries_run :
  (fun r => (fst r, listed (queue (snd r)), map summary (proposals (snd r)))) <$> run three_entries
  = Some (1, [], [(5, 11, [15; G 7; 14], [(11, 8); (12, 4); (13, 8); (14, 2); (15, 8)])]).
Proof. vm_compute. reflexivity. Qed.

Definition offer_okb (o : offer) : bool :=
  bool_decide (bytes_ok (fst o)) && (Z.of_nat (base.size (fst o)) <? MAXGROUPSIZE) && bool_decide (snd o <> ∅).

Lemma offers_okb O : bool_decide (map_Forall (fun _ o => offer_okb o = true) O) = true -> offers_ok O.
Proof.
  intros Hall%bool_decide_eq_true. intros g o Ho. specialize (Hall g o Ho). unfold offer_okb in Hall. zprop.
  split; [by eapply bool_decide_eq_true|lia|by eapply bool_decide_eq_true|lia].
Qed.

Lemma proposals_good_witness :
  offers_ok (offers (queue three_entries)) /\
  returns (@FindGroups quiet_world) (fun _ s' =>
    newToQueueStore (queue s') = [] /\ offers (queue s') = offers (queue three_entries) /\
    exists new, proposals s' = proposals three_entries ++ new /\
                Forall (@proposal_ok quiet_world (offers (queue three_entries))) new) three_entries.
Proof.
  assert (HO : offers_ok (offers (queue three_entries))) by (apply offers_okb; vm_compute; reflexivity).
  split; [exact HO|]. apply (@proposals_good quiet_world three_entries); [|exact HO].
  intros n lo hi Hlh. cbn. lia.
Defined.

Lemma nobody_lost_witness :
  in_order_lists (H := quiet_world) (queue three_entries) /\
  returns (@FindGroups quiet_world) (fun _ s' =>
    newToQueueStore (queue s') = [] /\ NoDup (currentQueueStore (queue s')) /\
    forall g, g ∈ listed (queue three_entries) -> is_Some (QueueDataStore (queue three_entries) !! g) ->
      let new := concat (map queues (drop (length (proposals three_entries)) (proposals s'))) in
      (g ∈ currentQueueStore (queue s') /\ g ∉ new) \/ (g ∉ currentQueueStore (queue s') /\ g ∈ new)) three_entries.
Proof.
  assert (HO : offers_ok (offers (queue three_entries))) by (apply offers_okb; vm_compute; reflexivity).
  assert (Hl : in_order_lists (H := quiet_world) (queue three_entries)).
  { split; [apply (bool_decide_unpack _); vm_compute; reflexivity|].
    change (listed (queue three_entries)) with [G 7; 14; 15].
    repeat constructor; vm_compute; discriminate. }
  split; [exact Hl|]. apply (@nobody_lost quiet_world three_entries); [|exact HO| |exact Hl].
  - intros n lo hi Hlh. cbn. lia.
  - apply map_Forall_empty.
Defined.

(** ** Searches with a surprise *)

(** A call of [FindNewGroups] consumes the list of its caller.  Here 6 can play
    with 2, 3, 4 and 5 in dungeon 2; but 6 and 1 fit as well, so the others are
    tried with both, in vain, and never without 1. *)
Definition distracted : QState :=
  joining [(1, ([1], [(1, 4)])); (2, ([2], [(2, 4)])); (3, ([2], [(3, 8)])); (4, ([2], [(4, 8)]));
           (5, ([2], [(5, 8)])); (6, ([1; 2], [(6, 2)]))].

Example match_missed :
  (fun r => (fst r, listed (queue (snd r)), map summary (proposals (snd r)))) <$> run distracted
  = Some (0, [1; 2; 3; 4; 5; 6], []).
Proof. vm_compute. reflexivity. Qed.

Example match_possible :
  match @CheckCompatibility quiet_world [6; 2; 3; 4; 5] distracted with
  | Ok c s' => (c, map summary (proposals s'))
  | _ => (LFG_COMPATIBILITY_PENDING, [])
  end = (LFG_COMPATIBLES_MATCH, [(2, 2, [6; 2; 3; 4; 5], [(2, 4); (3, 8); (4, 8); (5, 8); (6, 2)])]).
Proof. vm_compute. reflexivity. Qed.

(** So entries that match may both be on the list; the check of a third one with
    them then proposes the two on the way, and goes on: the group of three is in
    two proposals at once. *)
Definition rediscovered : QState :=
  joining [(1, ([1], [(1, 8)])); (G 2, ([2], [(21, 8); (22, 8); (23, 8)])); (G 3, ([1; 2], [(31, 2); (32, 4)]));
           (G 4, ([1; 2], [(41, 2); (42, 4)])); (5, ([2], [(5, 4)]))].

Example proposed_twice :
  (fun r => (fst r, listed (queue (snd r)), map queues (proposals (snd r)))) <$> run rediscovered
  = Some (0, [1; 5], [[G 2; G 3]; [G 2; G 4]]).
Proof. vm_compute. reflexivity. Qed.

(** A match that could not be proposed is in the cache; when the entry is tried
    again, it counts as matched and leaves the lists, but nothing is proposed. *)
Definition remembered : QState :=
  (joining [(G 2, ([2], [(21, 8); (22, 8); (23, 8); (24, 2); (25, 4)]))])
    <| queue ::= SetCompatibles (ConcatenateGuids [G 2]) LFG_COMPATIBLES_BAD_STATES |>.

Example match_forgotten :
  (fun r => (fst r, listed (queue (snd r)), map queues (proposals (snd r)))) <$> run remembered
  = Some (1, [], []).
Proof. vm_compute. reflexivity. Qed.
