(* ===== verification/LFGData.v ===== *)
(** * The dungeon finder: data of players and groups

    [LFGPlayerData.cpp], [LFGGroupData.cpp]: the state of a player or a group,
    the last state that was not a passing one, and what goes with them. *)

From S2P Require Import Prelude Maps LFG.

(** ** Locks *)

Inductive LfgLockStatusType :=
| LFG_LOCKSTATUS_NONE
| LFG_LOCKSTATUS_INSUFFICIENT_EXPANSION
| LFG_LOCKSTATUS_TOO_LOW_LEVEL
| LFG_LOCKSTATUS_TOO_HIGH_LEVEL
| LFG_LOCKSTATUS_TOO_LOW_GEAR_SCORE
| LFG_LOCKSTATUS_TOO_HIGH_GEAR_SCORE
| LFG_LOCKSTATUS_RAID_LOCKED
| LFG_LOCKSTATUS_ATTUNEMENT_TOO_LOW_LEVEL
| LFG_LOCKSTATUS_ATTUNEMENT_TOO_HIGH_LEVEL
| LFG_LOCKSTATUS_QUEST_NOT_COMPLETED
| LFG_LOCKSTATUS_MISSING_ITEM
| LFG_LOCKSTATUS_NOT_IN_SEASON
| LFG_LOCKSTATUS_MISSING_ACHIEVEMENT.
#[export] Instance LfgLockStatusType_eq_dec : EqDecision LfgLockStatusType.
Proof. solve_decision. Defined.

Record LockData := mkLockData { locktyp : LfgLockStatusType; neededItemlevel : Z; averageItemlevel : Z }.
Abbreviation LfgLockMap := (gmap Z LockData).
Abbreviation LfgLockPartyMap := (gmap Z LfgLockMap).

(** ** Players *)

Record LfgPlayerData := mkLfgPlayerData {
  m_LockedDungeons : LfgLockMap;
  pd_Team : Z;
  pd_Group : Z;
  pd_State : LfgState;
  pd_OldState : LfgState;
  m_Roles : Z;
  m_SelectedDungeons : LfgDungeonSet;
  m_Comment : list Z
}.
#[export] Instance LfgPlayerData_settable : Settable LfgPlayerData :=
  fun d => mkLfgPlayerData (m_LockedDungeons d) (pd_Team d) (pd_Group d) (pd_State d) (pd_OldState d)
    (m_Roles d) (m_SelectedDungeons d) (m_Comment d).

Definition LfgPlayerData_new : LfgPlayerData := mkLfgPlayerData ∅ 0 0 LFG_STATE_NONE LFG_STATE_NONE 0 ∅ [].

(** The cases fall through. *)
Definition player_SetState (st : LfgState) (d : LfgPlayerData) : LfgPlayerData :=
  match st with
  | LFG_STATE_NONE | LFG_STATE_FINISHED_DUNGEON =>
      d <| m_Roles := 0 |> <| m_SelectedDungeons := ∅ |> <| m_Comment := [] |>
        <| pd_OldState := st |> <| pd_State := st |>
  | LFG_STATE_DUNGEON => d <| pd_OldState := st |> <| pd_State := st |>
  | _ => d <| pd_State := st |>
  end.

Definition player_RestoreState (d : LfgPlayerData) : LfgPlayerData :=
  let d := if bool_decide (pd_OldState d = LFG_STATE_NONE)
           then d <| m_SelectedDungeons := ∅ |> <| m_Roles := 0 |> else d in
  d <| pd_State := pd_OldState d |>.

(** ** Groups *)

Definition LFG_GROUP_MAX_KICKS : Z := 3.

Record LfgGroupData := mkLfgGroupData {
  gd_State : LfgState;
  gd_OldState : LfgState;
  m_Leader : Z;
  m_Players : gset Z;
  m_Dungeon : Z;
  m_KicksLeft : Z
}.
#[export] Instance LfgGroupData_settable : Settable LfgGroupData :=
  fun d => mkLfgGroupData (gd_State d) (gd_OldState d) (m_Leader d) (m_Players d) (m_Dungeon d) (m_KicksLeft d).

Definition LfgGroupData_new : LfgGroupData :=
  mkLfgGroupData LFG_STATE_NONE LFG_STATE_NONE 0 ∅ 0 LFG_GROUP_MAX_KICKS.

Definition group_IsLfgGroup (d : LfgGroupData) : bool := negb (bool_decide (gd_OldState d = LFG_STATE_NONE)).

Definition group_SetState (st : LfgState) (d : LfgGroupData) : LfgGroupData :=
  match st with
  | LFG_STATE_NONE =>
      d <| m_Dungeon := 0 |> <| m_KicksLeft := LFG_GROUP_MAX_KICKS |> <| gd_OldState := st |> <| gd_State := st |>
  | LFG_STATE_FINISHED_DUNGEON | LFG_STATE_DUNGEON => d <| gd_OldState := st |> <| gd_State := st |>
  | _ => d <| gd_State := st |>
  end.

Definition group_RestoreState (d : LfgGroupData) : LfgGroupData := d <| gd_State := gd_OldState d |>.

Definition group_AddPlayer (guid : Z) (d : LfgGroupData) : LfgGroupData := d <| m_Players ::= union {[guid]} |>.
(** It answers [uint8(m_Players.size())], of what is left. *)
Definition group_RemovePlayer (guid : Z) (d : LfgGroupData) : Z * LfgGroupData :=
  let d := d <| m_Players ::= fun s => s ∖ {[guid]} |> in
  (u8 (Z.of_nat (base.size (m_Players d))), d).
Definition group_RemoveAllPlayers (d : LfgGroupData) : LfgGroupData := d <| m_Players := ∅ |>.
Definition group_GetPlayerCount (d : LfgGroupData) : Z := u8 (Z.of_nat (base.size (m_Players d))).
Definition group_DecreaseKicksLeft (d : LfgGroupData) : LfgGroupData :=
  if m_KicksLeft d =? 0 then d else d <| m_KicksLeft ::= fun n => u8 (n - 1) |>.
Definition group_GetDungeon (asId : bool) (d : LfgGroupData) : Z :=
  if asId then Z.land (m_Dungeon d) 0x00FFFFFF else m_Dungeon d.

(** ** The state machine *)

(** The states that last; the others are left by [RestoreState]. *)
Definition lasting (st : LfgState) : bool :=
  match st with
  | LFG_STATE_NONE | LFG_STATE_DUNGEON | LFG_STATE_FINISHED_DUNGEON => true
  | _ => false
  end.

(** The old state is a lasting one, and the state itself when that lasts. *)
Definition states_ok (st old : LfgState) : Prop := lasting old = true /\ (lasting st = true -> old = st).

Definition player_ok (d : LfgPlayerData) : Prop := states_ok (pd_State d) (pd_OldState d).
Definition group_ok (d : LfgGroupData) : Prop := states_ok (gd_State d) (gd_OldState d) /\ 0 <= m_KicksLeft d <= LFG_GROUP_MAX_KICKS.

Lemma player_new_ok : player_ok LfgPlayerData_new.
Proof. done. Qed.

Lemma group_new_ok : group_ok LfgGroupData_new.
Proof. done. Qed.

Lemma player_SetState_ok st d : player_ok d -> player_ok (player_SetState st d).
Proof. intros [H1 H2]. destruct st; split; cbn; try done; apply H1. Qed.

Lemma player_RestoreState_ok d : player_ok d -> player_ok (player_RestoreState d).
Proof. intros [H1 H2]. unfold player_RestoreState. case_bool_decide; split; cbn; done. Qed.

Lemma group_SetState_ok st d : group_ok d -> group_ok (group_SetState st d).
Proof.
  intros [[H1 H2] H3]. unfold group_ok, states_ok, LFG_GROUP_MAX_KICKS in *. destruct st; cbn; split_and!; done || lia.
Qed.

Lemma group_RestoreState_ok d : group_ok d -> group_ok (group_RestoreState d).
Proof. intros [[H1 H2] H3]. unfold group_ok, states_ok. cbn. auto. Qed.

Lemma group_DecreaseKicksLeft_ok d : group_ok d -> group_ok (group_DecreaseKicksLeft d).
Proof.
  intros [H1 H2]. unfold group_DecreaseKicksLeft, LFG_GROUP_MAX_KICKS in *. destruct (Z.eqb_spec (m_KicksLeft d) 0); [done|].
  split; [done|]. cbn. unfold LFG_GROUP_MAX_KICKS. no_wrap. lia.
Qed.

(** Leaving a passing state gives back the lasting one. *)
Lemma player_restored st d :
  player_ok d -> lasting (pd_State d) = true -> lasting st = false ->
  pd_State (player_RestoreState (player_SetState st d)) = pd_State d.
Proof. intros [_ H2] Hl Hst. apply H2 in Hl. destruct st; try done; unfold player_RestoreState; cbn; by case_bool_decide. Qed.
