(* ===== verification/LFGMgr.v ===== *)
(** * The dungeon finder: the manager

    [LFGMgr.cpp]: the stores and the access to them, the dungeons a player may
    not enter, role checks, the removal of proposals, leaving, the start of
    votes to kick, and the data of groups.  LFGTick.v has the rest.

    [PlayersStore[guid]] and [GroupsStore[guid]] are read with the value that
    [operator[]] gives to a new entry; the entry itself, which nothing can tell
    from a missing one, appears only when it is written.  A message to a
    player, or an order to the rest of the server, is appended to [sent]. *)

From S2P Require Import Prelude Maps Guid Text LFG LFGData.

(** ** Data *)

Definition LFG_TIME_ROLECHECK : Z := 45 * 1000.
Definition LFG_TIME_BOOT : Z := 120.
Definition LFG_QUEUEUPDATE_INTERVAL : Z := 15 * 1000.
Definition LFG_SPELL_DUNGEON_COOLDOWN : Z := 71328.
Definition LFG_SPELL_DUNGEON_DESERTER : Z := 71041.
Definition LFG_SPELL_LUCK_OF_THE_DRAW : Z := 72221.
Definition LFG_GROUP_KICK_VOTES_NEEDED : Z := 3.
Definition LFG_OPTION_ENABLE_DUNGEON_FINDER : Z := 0x01.
Definition LFG_OPTION_ENABLE_RAID_BROWSER : Z := 0x02.
Definition IN_MILLISECONDS : Z := 1000.

Definition LFG_TYPE_NONE : Z := 0.
Definition LFG_TYPE_DUNGEON : Z := 1.
Definition LFG_TYPE_RAID : Z := 2.
Definition LFG_TYPE_HEROIC : Z := 5.
Definition LFG_TYPE_RANDOM : Z := 6.

Inductive LfgUpdateType :=
| LFG_UPDATETYPE_DEFAULT
| LFG_UPDATETYPE_LEADER_UNK1
| LFG_UPDATETYPE_JOIN_QUEUE
| LFG_UPDATETYPE_ROLECHECK_FAILED
| LFG_UPDATETYPE_REMOVED_FROM_QUEUE
| LFG_UPDATETYPE_PROPOSAL_FAILED
| LFG_UPDATETYPE_PROPOSAL_DECLINED
| LFG_UPDATETYPE_GROUP_FOUND
| LFG_UPDATETYPE_ADDED_TO_QUEUE
| LFG_UPDATETYPE_PROPOSAL_BEGIN
| LFG_UPDATETYPE_UPDATE_STATUS.
#[export] Instance LfgUpdateType_eq_dec : EqDecision LfgUpdateType.
Proof. solve_decision. Defined.

Inductive LfgJoinResult :=
| LFG_JOIN_OK
| LFG_JOIN_FAILED
| LFG_JOIN_INTERNAL_ERROR
| LFG_JOIN_NOT_MEET_REQS
| LFG_JOIN_MIXED_RAID_DUNGEON
| LFG_JOIN_DISCONNECTED
| LFG_JOIN_DUNGEON_INVALID
| LFG_JOIN_DESERTER
| LFG_JOIN_PARTY_DESERTER
| LFG_JOIN_RANDOM_COOLDOWN
| LFG_JOIN_PARTY_RANDOM_COOLDOWN
| LFG_JOIN_TOO_MUCH_MEMBERS
| LFG_JOIN_USING_BG_SYSTEM
| LFG_JOIN_ROLE_CHECK_FAILED.
#[export] Instance LfgJoinResult_eq_dec : EqDecision LfgJoinResult.
Proof. solve_decision. Defined.

Inductive LfgRoleCheckState :=
| LFG_ROLECHECK_DEFAULT
| LFG_ROLECHECK_FINISHED
| LFG_ROLECHECK_INITIALITING
| LFG_ROLECHECK_MISSING_ROLE
| LFG_ROLECHECK_WRONG_ROLES
| LFG_ROLECHECK_ABORTED
| LFG_ROLECHECK_NO_ROLE.
#[export] Instance LfgRoleCheckState_eq_dec : EqDecision LfgRoleCheckState.
Proof. solve_decision. Defined.

Record LfgJoinResultData := mkLfgJoinResultData {
  jr_result : LfgJoinResult; jr_state : LfgRoleCheckState; lockmap : LfgLockPartyMap
}.

Record LfgUpdateData := mkLfgUpdateData {
  updateType : LfgUpdateType; ud_state : LfgState; ud_dungeons : LfgDungeonSet; ud_comment : list Z
}.
Definition LfgUpdateData_type (t : LfgUpdateType) : LfgUpdateData := mkLfgUpdateData t LFG_STATE_NONE ∅ [].
Definition LfgUpdateData_of (t : LfgUpdateType) (ds : LfgDungeonSet) (comment : list Z) : LfgUpdateData :=
  mkLfgUpdateData t LFG_STATE_NONE ds comment.

Record LfgRoleCheck := mkLfgRoleCheck {
  rc_cancelTime : Z; rc_roles : LfgRolesMap; rc_state : LfgRoleCheckState; rc_dungeons : LfgDungeonSet;
  rDungeonId : Z; rc_leader : Z
}.
#[export] Instance LfgRoleCheck_settable : Settable LfgRoleCheck :=
  fun r => mkLfgRoleCheck (rc_cancelTime r) (rc_roles r) (rc_state r) (rc_dungeons r) (rDungeonId r) (rc_leader r).
Definition LfgRoleCheck_new : LfgRoleCheck := mkLfgRoleCheck 0 ∅ LFG_ROLECHECK_DEFAULT ∅ 0 0.

Record LfgPlayerBoot := mkLfgPlayerBoot {
  pb_cancelTime : Z; inProgress : bool; votes : gmap Z LfgAnswer; victim : Z; reason : list Z
}.
#[export] Instance LfgPlayerBoot_settable : Settable LfgPlayerBoot :=
  fun b => mkLfgPlayerBoot (pb_cancelTime b) (inProgress b) (votes b) (victim b) (reason b).
Definition LfgPlayerBoot_new : LfgPlayerBoot := mkLfgPlayerBoot 0 false ∅ 0 [].

(** A dungeon; where its entrance is does not matter here. *)
Record LFGDungeonData := mkLFGDungeonData {
  dd_id : Z; dd_map : Z; dd_type : Z; dd_expansion : Z; dd_group : Z; minlevel : Z; maxlevel : Z;
  difficulty : Z; seasonal : bool; neededILevel : Z
}.
Definition Entry (d : LFGDungeonData) : Z := u32 (dd_id d + Z.shiftl (dd_type d) 24).

Record LfgReward := mkLfgReward { rw_maxLevel : Z; firstQuest : Z; otherQuest : Z }.

(** What goes out: packets to a player, and orders to other parts of the server. *)
Inductive LfgMessage :=
| MRoleChosen (pguid roles : Z)
| MRoleCheckUpdate (rc : LfgRoleCheck)
| MUpdateStatus (data : LfgUpdateData) (party : bool)
| MJoinResult (data : LfgJoinResultData)
| MBootProposalUpdate (boot : LfgPlayerBoot)
| MUpdateProposal (p : LfgProposal)
| MQueueStatus (data : LfgQueueStatusData)
| MOfferContinue (dungeonEntry : Z)
| MLfrList (update : bool)
| MPlayerReward (rdungeonEntry sdungeonEntry : Z) (done : bool) (quest : Z)
| MCastSpell (spell : Z)
| MRemoveAura (spell : Z)
| MNameQuery (member : Z)
| MTeleportHome
| MRewardQuest (quest : Z)
| MHeroicCriteria
| MTeleport (out : bool)
| MSaveToDB (dungeon : Z) (st : LfgState).

(** What the manager asks of a group. *)
Inductive GroupCall :=
| GRemoveMember (group guid : Z)
| GKickLfg (group guid : Z)
| GCreate (guid : Z)
| GAddMember (group guid : Z)
| GSetLfgRoles (group guid roles : Z)
| GSetDungeonDifficulty (group difficulty : Z)
| GSendUpdate (group : Z).

Inductive RemoveMethod :=
| GROUP_REMOVEMETHOD_DEFAULT | GROUP_REMOVEMETHOD_KICK | GROUP_REMOVEMETHOD_LEAVE | GROUP_REMOVEMETHOD_KICK_LFG.
#[export] Instance RemoveMethod_eq_dec : EqDecision RemoveMethod.
Proof. solve_decision. Defined.

(** The hooks of [LFGGroupScript] and [LFGPlayerScript] that reach the manager,
    with what they read of the group or the player. *)
Inductive Hook :=
| OnAddMember (gguid leader guid : Z)
| OnRemoveMember (gguid : Z) (isLFG : bool) (guid : Z) (method : RemoveMethod) (kicker : Z) (why : list Z)
| OnDisband (gguid : Z)
| OnChangeLeader (gguid newLeaderGuid : Z)
| OnInviteMember (gguid leader guid : Z)
| OnLevelChanged (guid : Z)
| OnLogout (guid : Z) (in_group : bool)
| OnLogin (guid : Z) (group : option Z) (team : Z)
| OnBindToInstance (guid : Z) (is_dungeon : bool) (dungeon_difficulty : Z)
| OnMapChanged (guid map map_difficulty : Z) (members : option (list Z)).

Record LFGMgr := mkLFGMgr {
  QueuesStore : gmap Z LFGQueue;
  PlayersStore : gmap Z LfgPlayerData;
  GroupsStore : gmap Z LfgGroupData;
  RoleChecksStore : gmap Z LfgRoleCheck;
  ProposalsStore : gmap Z LfgProposal;
  BootsStore : gmap Z LfgPlayerBoot;
  m_lfgProposalId : Z;
  m_QueueTimer : Z;
  m_options : Z;
  player_groups : gmap Z Z;
  sent : list (Z * LfgMessage);
  m_draws : nat
}.
#[export] Instance LFGMgr_settable : Settable LFGMgr :=
  fun s => mkLFGMgr (QueuesStore s) (PlayersStore s) (GroupsStore s) (RoleChecksStore s) (ProposalsStore s)
    (BootsStore s) (m_lfgProposalId s) (m_QueueTimer s) (m_options s) (player_groups s) (sent s) (m_draws s).
(** [player_groups] is [Player::GetGroup] of each player, which groups change. *)
Definition LFGMgr_new (options : Z) : LFGMgr := mkLFGMgr ∅ ∅ ∅ ∅ ∅ ∅ 1 0 options ∅ [] 0.

Abbreviation MM := (M LFGMgr Empty_set).
Definition ALLIANCE : Z := 469.
Definition HORDE : Z := 67.
Definition DUNGEON_DIFFICULTY_NORMAL : Z := 0.
Definition DUNGEON_DIFFICULTY_HEROIC : Z := 1.
Definition HOLIDAY_FIRE_FESTIVAL : Z := 341.
Definition HOLIDAY_HALLOWS_END : Z := 324.
Definition HOLIDAY_BREWFEST : Z := 372.
Definition HOLIDAY_LOVE_IS_IN_THE_AIR : Z := 423.

Record AccessRequirement := mkAccessRequirement {
  achievement : Z; quest_A : Z; quest_H : Z; item : Z; item2 : Z
}.

(** What the manager reads elsewhere; the world may differ at each call. *)
Class LfgWorld := {
  world_FindPlayer : Z -> bool;
  world_HasIgnore : Z -> Z -> bool;
  world_urand : nat -> Z -> Z -> Z;
  LfgDungeonStore : gmap Z LFGDungeonData;
  CachedDungeonMapStore : Z -> LfgDungeonSet;
  RewardMapStore : Z -> list LfgReward;
  IsHolidayActive : Z -> bool;
  CONFIG_ALLOW_TWO_SIDE_INTERACTION_GROUP : bool;
  (* players *)
  InBattleground : Z -> bool;
  InArena : Z -> bool;
  InBattlegroundQueue : Z -> bool;
  HasAura : Z -> Z -> bool;
  GetMapId : Z -> Z;
  InDungeonMap : Z -> bool;
  IsInWorld : Z -> bool;
  getLevel : Z -> Z;
  CanRewardQuest : Z -> Z -> bool;
  QuestExists : Z -> bool;
  Expansion : Z -> Z;
  (** [needed > player->GetAverageItemLevel()], and that level as a [uint32] *)
  AverageItemLevel_below : Z -> Z -> bool;
  AverageItemLevel : Z -> Z;
  IsMapDisabledFor : Z -> Z -> bool;
  GetBoundInstance : Z -> Z -> Z -> bool;
  GetAccessRequirement : Z -> Z -> option AccessRequirement;
  HasAchieved : Z -> Z -> bool;
  world_GetTeam : Z -> Z;
  GetQuestRewardStatus : Z -> Z -> bool;
  HasItemCount : Z -> Z -> bool;
  (* groups *)
  GetGroupByGUID : Z -> option Z;
  GetDbStoreId : Z -> Z;
  new_group_guid : LFGMgr -> Z;
  group_effect : GroupCall -> gmap Z Z -> gmap Z Z;
  group_hooks : GroupCall -> LFGMgr -> list Hook
}.

Section Mgr.
Context `{LfgWorld}.

(** ** Access to the stores *)

Definition player_data (m : LFGMgr) (guid : Z) : LfgPlayerData := default LfgPlayerData_new (PlayersStore m !! guid).
Definition group_data (m : LFGMgr) (guid : Z) : LfgGroupData := default LfgGroupData_new (GroupsStore m !! guid).

Definition GetState (m : LFGMgr) (guid : Z) : LfgState :=
  if IS_GROUP_GUID guid then gd_State (group_data m guid) else pd_State (player_data m guid).
Definition GetOldState (m : LFGMgr) (guid : Z) : LfgState :=
  if IS_GROUP_GUID guid then gd_OldState (group_data m guid) else pd_OldState (player_data m guid).
Definition GetDungeon (m : LFGMgr) (guid : Z) (asId : bool) : Z := group_GetDungeon asId (group_data m guid).
Definition GetDungeonMapId (m : LFGMgr) (guid : Z) : Z :=
  let dungeonId := GetDungeon m guid true in
  if dungeonId =? 0 then 0 else from_option dd_map 0 (LfgDungeonStore !! dungeonId).
Definition GetRoles (m : LFGMgr) (guid : Z) : Z := m_Roles (player_data m guid).
Definition GetComment (m : LFGMgr) (guid : Z) : list Z := m_Comment (player_data m guid).
Definition GetSelectedDungeons (m : LFGMgr) (guid : Z) : LfgDungeonSet := m_SelectedDungeons (player_data m guid).
Definition GetLockedDungeons (m : LFGMgr) (guid : Z) : LfgLockMap := m_LockedDungeons (player_data m guid).
Definition GetKicksLeft (m : LFGMgr) (guid : Z) : Z := m_KicksLeft (group_data m guid).
Definition GetTeam (m : LFGMgr) (guid : Z) : Z := pd_Team (player_data m guid).
Definition GetGroup (m : LFGMgr) (guid : Z) : Z := pd_Group (player_data m guid).
Definition GetPlayers (m : LFGMgr) (guid : Z) : gset Z := m_Players (group_data m guid).
Definition GetPlayerCount (m : LFGMgr) (guid : Z) : Z := group_GetPlayerCount (group_data m guid).
Definition GetLeader (m : LFGMgr) (guid : Z) : Z := m_Leader (group_data m guid).
Definition mgr_IsLfgGroup (m : LFGMgr) (guid : Z) : bool :=
  negb (guid =? 0) && IS_GROUP_GUID guid && group_IsLfgGroup (group_data m guid).
Definition GetLFGDungeon (id : Z) : option LFGDungeonData := LfgDungeonStore !! id.
Definition GetDungeonType (dungeonId : Z) : Z := from_option dd_type LFG_TYPE_NONE (GetLFGDungeon dungeonId).
Definition GetDungeonsByRandom (randomdungeon : Z) : LfgDungeonSet :=
  CachedDungeonMapStore (from_option dd_group 0 (GetLFGDungeon randomdungeon)).
Definition GetLFGDungeonEntry (id : Z) : Z := if id =? 0 then 0 else from_option Entry 0 (GetLFGDungeon id).

Definition on_player (guid : Z) (f : LfgPlayerData -> LfgPlayerData) : MM () :=
  modify (fun m => m <| PlayersStore ::= <[guid := f (player_data m guid)]> |>).
Definition on_group (guid : Z) (f : LfgGroupData -> LfgGroupData) : MM () :=
  modify (fun m => m <| GroupsStore ::= <[guid := f (group_data m guid)]> |>).

Definition SetState (guid : Z) (st : LfgState) : MM () :=
  if IS_GROUP_GUID guid then on_group guid (group_SetState st) else on_player guid (player_SetState st).
Definition RestoreState (guid : Z) : MM () :=
  if IS_GROUP_GUID guid then on_group guid group_RestoreState else on_player guid player_RestoreState.
Definition SetDungeon (guid dungeon : Z) : MM () := on_group guid (fun d => d <| m_Dungeon := dungeon |>).
Definition SetRoles (guid roles : Z) : MM () := on_player guid (fun d => d <| m_Roles := roles |>).
Definition SetComment (guid : Z) (comment : list Z) : MM () := on_player guid (fun d => d <| m_Comment := comment |>).
Definition SetSelectedDungeons (guid : Z) (ds : LfgDungeonSet) : MM () :=
  on_player guid (fun d => d <| m_SelectedDungeons := ds |>).
Definition SetLockedDungeons (guid : Z) (lock : LfgLockMap) : MM () :=
  on_player guid (fun d => d <| m_LockedDungeons := lock |>).
Definition DecreaseKicksLeft (guid : Z) : MM () := on_group guid group_DecreaseKicksLeft.
Definition RemovePlayerData (guid : Z) : MM () := modify (fun m => m <| PlayersStore ::= delete guid |>).
Definition RemovePlayerFromGroup (gguid guid : Z) : MM Z :=
  m ← getS;
  on_group gguid (fun d => snd (group_RemovePlayer guid d));;
  mret (fst (group_RemovePlayer guid (group_data m gguid))).
Definition AddPlayerToGroup (gguid guid : Z) : MM () := on_group gguid (group_AddPlayer guid).
Definition SetLeader (gguid leader : Z) : MM () := on_group gguid (fun d => d <| m_Leader := leader |>).
Definition SetTeam (guid team : Z) : MM () :=
  on_player guid (fun d => d <| pd_Team := if CONFIG_ALLOW_TWO_SIDE_INTERACTION_GROUP then 0 else team |>).
Definition SetGroup (guid group : Z) : MM () := on_player guid (fun d => d <| pd_Group := group |>).

Definition isOptionEnabled (m : LFGMgr) (option : Z) : bool := has_flag (m_options m) option.
Definition SetOptions (options : Z) : MM () := modify (fun m => m <| m_options := options |>).
Definition Clean : MM () := modify (fun m => m <| QueuesStore := ∅ |>).

Definition tell (guid : Z) (msg : LfgMessage) : MM () := modify (fun m => m <| sent ::= fun l => l ++ [(guid, msg)] |>).
(** The [SendLfg...] functions: to a player who is online. *)
Definition send (guid : Z) (msg : LfgMessage) : MM () := when (world_FindPlayer guid) (tell guid msg).

Definition LfgStatus (m : LFGMgr) (guid : Z) : LfgUpdateData :=
  mkLfgUpdateData LFG_UPDATETYPE_UPDATE_STATUS (pd_State (player_data m guid)) (GetSelectedDungeons m guid) [].

(** *** Queues *)

(** The first player of a group decides. *)
Definition GetQueueId (m : LFGMgr) (guid : Z) : Z :=
  if IS_GROUP_GUID guid then
    match in_order (GetPlayers m guid) with
    | [] => GetTeam m guid
    | pguid :: _ => if pguid =? 0 then GetTeam m guid else GetTeam m pguid
    end
  else GetTeam m guid.
Definition queue_of (m : LFGMgr) (queueId : Z) : LFGQueue := default LFGQueue_new (QueuesStore m !! queueId).
Definition mgr_on_queue (queueId : Z) (f : LFGQueue -> LFGQueue) : MM () :=
  modify (fun m => m <| QueuesStore ::= <[queueId := f (queue_of m queueId)]> |>).
Definition GetQueueJoinTime (m : LFGMgr) (guid : Z) : Z :=
  from_option (GetJoinTime guid) 0 (QueuesStore m !! GetQueueId m guid).

(** ** Dungeons a player may not enter *)

Definition IsSeasonActive (dungeonId : Z) : bool :=
  if dungeonId =? 285 then IsHolidayActive HOLIDAY_HALLOWS_END
  else if dungeonId =? 286 then IsHolidayActive HOLIDAY_FIRE_FESTIVAL
  else if dungeonId =? 287 then IsHolidayActive HOLIDAY_BREWFEST
  else if dungeonId =? 288 then IsHolidayActive HOLIDAY_LOVE_IS_IN_THE_AIR
  else false.

Definition access_lock (guid : Z) (ar : AccessRequirement) : LfgLockStatusType :=
  if negb (achievement ar =? 0) && negb (HasAchieved guid (achievement ar)) then LFG_LOCKSTATUS_MISSING_ACHIEVEMENT
  else if (world_GetTeam guid =? ALLIANCE) && negb (quest_A ar =? 0) && negb (GetQuestRewardStatus guid (quest_A ar))
  then LFG_LOCKSTATUS_QUEST_NOT_COMPLETED
  else if (world_GetTeam guid =? HORDE) && negb (quest_H ar =? 0) && negb (GetQuestRewardStatus guid (quest_H ar))
  then LFG_LOCKSTATUS_QUEST_NOT_COMPLETED
  else if negb (item ar =? 0) then
    if negb (HasItemCount guid (item ar)) && ((item2 ar =? 0) || negb (HasItemCount guid (item2 ar)))
    then LFG_LOCKSTATUS_MISSING_ITEM else LFG_LOCKSTATUS_NONE
  else if negb (item2 ar =? 0) && negb (HasItemCount guid (item2 ar)) then LFG_LOCKSTATUS_MISSING_ITEM
  else LFG_LOCKSTATUS_NONE.

Definition dungeon_lock (guid level : Z) (d : LFGDungeonData) : LfgLockStatusType :=
  if negb (neededILevel d =? 0) && AverageItemLevel_below guid (neededILevel d) then LFG_LOCKSTATUS_TOO_LOW_GEAR_SCORE
  else if Expansion guid <? dd_expansion d then LFG_LOCKSTATUS_INSUFFICIENT_EXPANSION
  else if IsMapDisabledFor (dd_map d) guid then LFG_LOCKSTATUS_RAID_LOCKED
  else if (DUNGEON_DIFFICULTY_NORMAL <? difficulty d) && GetBoundInstance guid (dd_map d) (difficulty d)
  then LFG_LOCKSTATUS_RAID_LOCKED
  else if level <? minlevel d then LFG_LOCKSTATUS_TOO_LOW_LEVEL
  else if maxlevel d <? level then LFG_LOCKSTATUS_TOO_HIGH_LEVEL
  else if seasonal d && negb (IsSeasonActive (dd_id d)) then LFG_LOCKSTATUS_NOT_IN_SEASON
  else from_option (access_lock guid) LFG_LOCKSTATUS_NONE (GetAccessRequirement (dd_map d) (difficulty d)).

Definition locked_dungeons (guid level : Z) : LfgLockMap :=
  fold_left (fun lock id =>
      match GetLFGDungeon id with
      | None => lock
      | Some d =>
          let lockData := dungeon_lock guid level d in
          if bool_decide (lockData = LFG_LOCKSTATUS_NONE) then lock
          else <[Entry d := mkLockData lockData (neededILevel d) (AverageItemLevel guid)]> lock
      end) (in_order (GetDungeonsByRandom 0)) ∅.

Definition InitializeLockedDungeons (guid level : Z) : MM () :=
  SetLockedDungeons guid (locked_dungeons guid (if level =? 0 then getLevel guid else level)).

(** The loop over the locks of a player. *)
Fixpoint lock_player (guid : Z) (cachedLockMap : LfgLockMap) (ks : list Z) (acc : LfgDungeonSet * LfgLockPartyMap)
    : LfgDungeonSet * LfgLockPartyMap :=
  match ks with
  | [] => acc
  | entry :: ks' =>
      let '(ds, lockMap) := acc in
      if bool_decide (ds = ∅) then acc
      else
        let dungeonId := Z.land entry 0x00FFFFFF in
        match cachedLockMap !! entry with
        | Some data =>
            if bool_decide (dungeonId ∈ ds) then
              lock_player guid cachedLockMap ks'
                (ds ∖ {[dungeonId]}, <[guid := <[dungeonId := data]> (default ∅ (lockMap !! guid))]> lockMap)
            else lock_player guid cachedLockMap ks' acc
        | None => lock_player guid cachedLockMap ks' acc
        end
  end.

Fixpoint lock_players (m : LFGMgr) (players : list Z) (acc : LfgDungeonSet * LfgLockPartyMap)
    : LfgDungeonSet * LfgLockPartyMap :=
  match players with
  | [] => acc
  | guid :: players' =>
      if bool_decide (fst acc = ∅) then acc
      else lock_players m players' (lock_player guid (GetLockedDungeons m guid) (keys (GetLockedDungeons m guid)) acc)
  end.

Definition GetCompatibleDungeons (m : LFGMgr) (ds : LfgDungeonSet) (players : gset Z) : LfgDungeonSet * LfgLockPartyMap :=
  let '(ds, lockMap) := lock_players m (in_order players) (ds, ∅) in
  (ds, if bool_decide (ds = ∅) then lockMap else ∅).

(** ** Role checks *)

Definition mgr_check_roles (groles : LfgRolesMap) : MM bool :=
  match CheckGroupRoles groles with
  | Some (ok, _) => mret ok
  | None => abort UndefinedBehaviour
  end.

(** The role check after the answer of the player [guid], who may be nobody. *)
Definition role_chosen (rc : LfgRoleCheck) (guid roles : Z) : MM LfgRoleCheck :=
  if guid =? 0 then mret (rc <| rc_state := LFG_ROLECHECK_ABORTED |>)
  else if roles <? PLAYER_ROLE_TANK then mret (rc <| rc_state := LFG_ROLECHECK_NO_ROLE |>)
  else
    let rc := rc <| rc_roles ::= <[guid := roles]> |> in
    if forallb (fun k => negb (default 0 (rc_roles rc !! k) =? PLAYER_ROLE_NONE)) (keys (rc_roles rc)) then
      ok ← mgr_check_roles (rc_roles rc);
      mret (rc <| rc_state := if (ok : bool) then LFG_ROLECHECK_FINISHED else LFG_ROLECHECK_WRONG_ROLES |>)
    else mret rc.

Definition erase_rolecheck (gguid : Z) : MM () := modify (fun m => m <| RoleChecksStore ::= delete gguid |>).

(** What one player of the group is told, and the state he gets. *)
Definition role_check_notify (rc : LfgRoleCheck) (sendRoleChosen : bool) (guid roles : Z) (ds : LfgDungeonSet)
    (pguid : Z) : MM () :=
  when sendRoleChosen (send pguid (MRoleChosen guid roles));;
  send pguid (MRoleCheckUpdate rc);;
  match rc_state rc with
  | LFG_ROLECHECK_INITIALITING => mret tt
  | LFG_ROLECHECK_FINISHED =>
      SetState pguid LFG_STATE_QUEUED;;
      SetRoles pguid (default 0 (rc_roles rc !! pguid));;
      m ← getS;
      send pguid (MUpdateStatus (LfgUpdateData_of LFG_UPDATETYPE_ADDED_TO_QUEUE ds (GetComment m pguid)) true)
  | _ =>
      when (rc_leader rc =? pguid)
        (send pguid (MJoinResult (mkLfgJoinResultData LFG_JOIN_FAILED (rc_state rc) ∅)));;
      send pguid (MUpdateStatus (LfgUpdateData_type LFG_UPDATETYPE_ROLECHECK_FAILED) true);;
      RestoreState pguid
  end.

Definition UpdateRoleCheck (now gguid guid roles : Z) : MM () :=
  if gguid =? 0 then mret tt
  else
    m ← getS;
    match RoleChecksStore m !! gguid with
    | None => mret tt
    | Some rc0 =>
        let sendRoleChosen := negb (bool_decide (rc_state rc0 = LFG_ROLECHECK_DEFAULT)) && negb (guid =? 0) in
        rc ← role_chosen rc0 guid roles;
        modify (fun m => m <| RoleChecksStore ::= <[gguid := rc]> |>);;
        let ds := if rDungeonId rc =? 0 then rc_dungeons rc else {[rDungeonId rc]} in
        for_each (keys (rc_roles rc)) (role_check_notify rc sendRoleChosen guid roles ds);;
        match rc_state rc with
        | LFG_ROLECHECK_FINISHED =>
            SetState gguid LFG_STATE_QUEUED;;
            m ← getS;
            mgr_on_queue (GetQueueId m gguid) (AddQueueData gguid now (rc_dungeons rc) (rc_roles rc));;
            erase_rolecheck gguid
        | LFG_ROLECHECK_INITIALITING => mret tt
        | _ => RestoreState gguid;; erase_rolecheck gguid
        end
    end.

(** ** Proposals *)

Definition AddProposal (p : LfgProposal) : MM () :=
  m ← getS;
  let id := u32 (m_lfgProposalId m + 1) in
  modify (fun m => m <| m_lfgProposalId := id |>
    <| ProposalsStore ::= <[id := p <| proposal_id := id |>]> |>).

(** Who has to leave when a proposal is removed. *)
Definition denies (type : LfgUpdateType) (d : LfgProposalPlayer) : bool :=
  negb (bool_decide (accept d = LFG_ANSWER_AGREE)) &&
  (bool_decide (accept d = LFG_ANSWER_DENY) || bool_decide (type = LFG_UPDATETYPE_PROPOSAL_FAILED)).

Definition entry_guid (k : Z) (d : LfgProposalPlayer) : Z := if group d =? 0 then k else group d.

Definition to_remove (type : LfgUpdateType) (ps : gmap Z LfgProposalPlayer) : gset Z :=
  list_to_set (map (fun kd => entry_guid kd.1 kd.2) (filter (fun kd => denies type kd.2 = true) (map_to_list ps))).

Definition removal_notify (p : LfgProposal) (type : LfgUpdateType) (toRemove : gset Z) (guid : Z) : MM () :=
  match players p !! guid with
  | None => mret tt
  | Some d =>
      let gguid := entry_guid guid d in
      let party := negb (gguid =? guid) in
      send guid (MUpdateProposal p);;
      if bool_decide (gguid ∈ toRemove) then
        let data := LfgUpdateData_type (if bool_decide (accept d = LFG_ANSWER_DENY) then type
                                        else LFG_UPDATETYPE_REMOVED_FROM_QUEUE) in
        RestoreState guid;;
        when party (RestoreState (group d));;
        send guid (MUpdateStatus data party)
      else
        SetState guid LFG_STATE_QUEUED;;
        when party (SetState gguid LFG_STATE_QUEUED);;
        m ← getS;
        send guid (MUpdateStatus
          (LfgUpdateData_of LFG_UPDATETYPE_ADDED_TO_QUEUE (GetSelectedDungeons m guid) (GetComment m guid)) party)
  end.

(** [itProposal] is given by its key. *)
Definition RemoveProposal (id : Z) (type : LfgUpdateType) : MM () :=
  m ← getS;
  match ProposalsStore m !! id with
  | None => abort UndefinedBehaviour
  | Some p0 =>
      let toRemove := to_remove type (players p0) in
      let deny d := if denies type d then d <| accept := LFG_ANSWER_DENY |> else d in
      let p := p0 <| state := LFG_PROPOSAL_FAILED |> <| players ::= fmap deny |> in
      for_each (keys (players p)) (removal_notify p type toRemove);;
      match keys (players p) with
      | [] => abort UndefinedBehaviour
      | first :: _ =>
          m ← getS;
          let queueId := GetQueueId m first in
          for_each (in_order toRemove) (fun guid => mgr_on_queue queueId (RemoveFromQueue guid));;
          for_each (filter (fun g => g ∉ toRemove) (queues p)) (fun guid => mgr_on_queue queueId (AddToQueue guid));;
          modify (fun m => m <| ProposalsStore ::= delete id |>)
      end
  end.

(** The first proposal with a player. *)
Definition find_proposal (m : LFGMgr) (pguid : Z) : option Z :=
  List.find (fun id => match ProposalsStore m !! id with
                       | Some p => bool_decide (is_Some (players p !! pguid))
                       | None => false
                       end) (keys (ProposalsStore m)).

Definition set_answer (id pguid : Z) (a : LfgAnswer) : MM () :=
  modify (fun m => m <| ProposalsStore ::=
    alter (fun p => p <| players ::= alter (fun d => d <| accept := a |>) pguid |>) id |>).

(** ** Leaving *)

Definition LeaveLfg (now guid : Z) : MM () :=
  m ← getS;
  let gguid := if IS_GROUP_GUID guid then guid else GetGroup m guid in
  match GetState m guid with
  | LFG_STATE_QUEUED =>
      if negb (gguid =? 0) then
        mgr_on_queue (GetQueueId m gguid) (RemoveFromQueue gguid);;
        SetState gguid LFG_STATE_NONE;;
        m ← getS;
        for_each (in_order (GetPlayers m gguid)) (fun pguid =>
          SetState pguid LFG_STATE_NONE;;
          send pguid (MUpdateStatus (LfgUpdateData_type LFG_UPDATETYPE_REMOVED_FROM_QUEUE) true))
      else
        mgr_on_queue (GetQueueId m guid) (RemoveFromQueue guid);;
        send guid (MUpdateStatus (LfgUpdateData_type LFG_UPDATETYPE_REMOVED_FROM_QUEUE) false);;
        SetState guid LFG_STATE_NONE
  | LFG_STATE_ROLECHECK => when (negb (gguid =? 0)) (UpdateRoleCheck now gguid 0 PLAYER_ROLE_NONE)
  | LFG_STATE_PROPOSAL =>
      let pguid := if gguid =? guid then GetLeader m gguid else guid in
      match find_proposal m pguid with
      | None => mret tt
      | Some id => set_answer id pguid LFG_ANSWER_DENY;; RemoveProposal id LFG_UPDATETYPE_PROPOSAL_DECLINED
      end
  | LFG_STATE_NONE | LFG_STATE_RAIDBROWSER => mret tt
  | LFG_STATE_DUNGEON | LFG_STATE_FINISHED_DUNGEON | LFG_STATE_BOOT =>
      when (negb (guid =? gguid)) (SetState guid LFG_STATE_NONE)
  end.

(** ** Votes to kick *)

Definition InitBoot (now gguid kicker boot_victim : Z) (why : list Z) : MM () :=
  SetState gguid LFG_STATE_BOOT;;
  m ← getS;
  let boot := default LfgPlayerBoot_new (BootsStore m !! gguid) in
  let ps := in_order (GetPlayers m gguid) in
  for_each ps (fun guid => SetState guid LFG_STATE_BOOT);;
  let boot := boot <| inProgress := true |> <| pb_cancelTime := now + LFG_TIME_BOOT |> <| reason := why |>
    <| victim := boot_victim |>
    <| votes ::= fun v => <[kicker := LFG_ANSWER_AGREE]> (<[boot_victim := LFG_ANSWER_DENY]>
         (fold_left (fun v guid => <[guid := LFG_ANSWER_PENDING]> v) ps v)) |> in
  modify (fun m => m <| BootsStore ::= <[gguid := boot]> |>);;
  for_each ps (fun guid => send guid (MBootProposalUpdate boot)).

(** ** Groups *)

Definition RemoveGroupData (guid : Z) : MM () :=
  m ← getS;
  match GroupsStore m !! guid with
  | None => mret tt
  | Some d =>
      let st := GetState m guid in
      for_each (in_order (m_Players d)) (fun pguid =>
        SetGroup pguid 0;;
        when (negb (bool_decide (st = LFG_STATE_PROPOSAL)))
          (SetState pguid LFG_STATE_NONE;;
           send pguid (MUpdateStatus (LfgUpdateData_type LFG_UPDATETYPE_REMOVED_FROM_QUEUE) true)));;
      modify (fun m => m <| GroupsStore ::= delete guid |>)
  end.

Definition SetupGroupMember (guid gguid : Z) : MM () :=
  m ← getS;
  SetSelectedDungeons guid {[GetDungeon m gguid true]};;
  m ← getS;
  SetState guid (GetState m gguid);;
  SetGroup guid gguid;;
  AddPlayerToGroup gguid guid.

Definition selectedRandomLfgDungeon (m : LFGMgr) (guid : Z) : bool :=
  if bool_decide (GetState m guid = LFG_STATE_NONE) then false
  else match in_order (GetSelectedDungeons m guid) with
       | [] => false
       | id :: _ => from_option (fun d => (dd_type d =? LFG_TYPE_RANDOM) || seasonal d) false (GetLFGDungeon id)
       end.

Definition inLfgDungeonMap (m : LFGMgr) (guid map map_difficulty : Z) : bool :=
  let guid := if IS_GROUP_GUID guid then guid else GetGroup m guid in
  let dungeonId := GetDungeon m guid true in
  if dungeonId =? 0 then false
  else from_option (fun d => (dd_map d =? map) && (difficulty d =? map_difficulty)) false (GetLFGDungeon dungeonId).

(** [fields] of the group's row: the low GUID of the leader, the dungeon and the state. *)
Definition mgr_LoadFromDB (guid leader_low dungeon : Z) (st : option LfgState) : MM () :=
  if negb (IS_GROUP_GUID guid) then mret tt
  else
    SetLeader guid (MAKE_NEW_GUID leader_low 0 HIGHGUID_PLAYER);;
    match st with
    | Some st' =>
        if (dungeon =? 0) || bool_decide (st' = LFG_STATE_NONE) then mret tt
        else
          SetDungeon guid dungeon;;
          match st' with
          | LFG_STATE_DUNGEON | LFG_STATE_FINISHED_DUNGEON => SetState guid st'
          | _ => mret tt
          end
    | None => when (negb (dungeon =? 0)) (SetDungeon guid dungeon)
    end.

Definition mgr_SaveToDB (guid db_guid : Z) : MM () :=
  if IS_GROUP_GUID guid then m ← getS; tell db_guid (MSaveToDB (GetDungeon m guid true) (GetState m guid)) else mret tt.
End Mgr.
