(* ===== verification/LFGTick.v ===== *)
(** * The dungeon finder: hooks, ticks and joining

    The rest of [LFGMgr.cpp], and [LFGScripts.cpp]: the hooks by which groups and
    players tell the manager what happens to them; the success of a proposal,
    with the new group; the end of a vote; the update of each tick; joining;
    and the end of a dungeon.

    What the code of groups does when it is called is [group_effect] on the
    groups of players and a list of hooks that it runs, [group_hooks]. *)

From S2P Require Import Prelude Maps Guid Text LFG LFGData LFGMgr.

Section Tick.
Context `{LfgWorld}.

(** ** The hooks *)

Definition group_hook_OnAddMember (now gguid leader_guid guid : Z) : MM () :=
  (if leader_guid =? guid then SetLeader gguid guid
   else
     m ← getS;
     let gstate := GetState m gguid in
     let st := GetState m guid in
     when (bool_decide (st = LFG_STATE_QUEUED)) (LeaveLfg now guid);;
     when (bool_decide (gstate = LFG_STATE_QUEUED)) (LeaveLfg now gguid));;
  SetGroup guid gguid;;
  AddPlayerToGroup gguid guid.

Definition group_hook_OnRemoveMember (now gguid : Z) (isLFG : bool) (guid : Z) (method : RemoveMethod) (kicker : Z)
    (why : list Z) : MM () :=
  if isLFG && bool_decide (method = GROUP_REMOVEMETHOD_KICK) then InitBoot now gguid kicker guid why
  else
    m ← getS;
    let st := GetState m gguid in
    if bool_decide (st = LFG_STATE_PROPOSAL) && bool_decide (method = GROUP_REMOVEMETHOD_DEFAULT) then
      SetGroup guid 0;; RemovePlayerFromGroup gguid guid;; mret tt
    else
      LeaveLfg now guid;;
      SetGroup guid 0;;
      left ← RemovePlayerFromGroup gguid guid;
      when (world_FindPlayer guid)
        (when (bool_decide (method = GROUP_REMOVEMETHOD_LEAVE) && bool_decide (st = LFG_STATE_DUNGEON) &&
               (LFG_GROUP_KICK_VOTES_NEEDED <=? left))
           (tell guid (MCastSpell LFG_SPELL_DUNGEON_DESERTER));;
         tell guid (MUpdateStatus (LfgUpdateData_type LFG_UPDATETYPE_LEADER_UNK1) true);;
         when (isLFG && InDungeonMap guid) (tell guid (MTeleport true)));;
      when (isLFG && negb (bool_decide (st = LFG_STATE_FINISHED_DUNGEON)))
        (m ← getS; send (GetLeader m gguid) (MOfferContinue (GetDungeon m gguid false))).

Definition enabled_options : Z := Z.lor LFG_OPTION_ENABLE_DUNGEON_FINDER LFG_OPTION_ENABLE_RAID_BROWSER.

Definition player_hook_OnMapChanged (now guid map map_difficulty : Z) (members : option (list Z)) : MM () :=
  m ← getS;
  if inLfgDungeonMap m guid map map_difficulty then
    match members with
    | None =>
        LeaveLfg now guid;;
        tell guid (MRemoveAura LFG_SPELL_LUCK_OF_THE_DRAW);;
        tell guid MTeleportHome
    | Some l =>
        for_each l (fun member => tell guid (MNameQuery member));;
        m ← getS;
        when (selectedRandomLfgDungeon m guid) (tell guid (MCastSpell LFG_SPELL_LUCK_OF_THE_DRAW))
    end
  else tell guid (MRemoveAura LFG_SPELL_LUCK_OF_THE_DRAW).

(** Two hooks do not ask whether the dungeon finder is enabled. *)
Definition hook (now : Z) (h : Hook) : MM () :=
  m ← getS;
  let enabled := isOptionEnabled m enabled_options in
  match h with
  | OnAddMember gguid leader_guid guid => when enabled (group_hook_OnAddMember now gguid leader_guid guid)
  | OnRemoveMember gguid isLFG guid method kicker why =>
      when enabled (group_hook_OnRemoveMember now gguid isLFG guid method kicker why)
  | OnDisband gguid => when enabled (RemoveGroupData gguid)
  | OnChangeLeader gguid newLeaderGuid => when enabled (SetLeader gguid newLeaderGuid)
  | OnInviteMember gguid leader_guid guid =>
      when (enabled && negb (leader_guid =? 0) && (gguid =? 0)) (LeaveLfg now leader_guid)
  | OnLevelChanged guid => when enabled (InitializeLockedDungeons guid 0)
  | OnLogout guid in_group => when (enabled && negb in_group) (tell guid (MLfrList false);; LeaveLfg now guid)
  | OnLogin guid grp team =>
      when enabled
        (match grp with
         | Some gguid2 => when (negb (GetGroup m guid =? gguid2)) (SetupGroupMember guid gguid2)
         | None => mret tt
         end;;
         InitializeLockedDungeons guid 0;;
         SetTeam guid team)
  | OnBindToInstance guid is_dungeon dungeon_difficulty =>
      when (is_dungeon && (DUNGEON_DIFFICULTY_NORMAL <? dungeon_difficulty)) (InitializeLockedDungeons guid 0)
  | OnMapChanged guid map map_difficulty members => player_hook_OnMapChanged now guid map map_difficulty members
  end.

(** A call of the group code: the groups of players change, and hooks are run. *)
Definition Group_call (now : Z) (c : GroupCall) : MM () :=
  m ← getS;
  modify (fun m => m <| player_groups ::= group_effect c |>);;
  for_each (group_hooks c m) (hook now).

(** ** Success of a proposal *)

(** One player of the new group: [grp] is the group so far. *)
Definition join_new_group (now : Z) (p : LfgProposal) (dungeon : LFGDungeonData) (grp : option Z) (pguid : Z)
    : MM (option Z) :=
  if world_FindPlayer pguid then
    m ← getS;
    let old := player_groups m !! pguid in
    match old with
    | Some g => when (negb (bool_decide (old = grp))) (Group_call now (GRemoveMember g pguid))
    | None => mret tt
    end;;
    gguid ← match grp with
            | None =>
                m ← getS;
                let gguid := new_group_guid m in
                Group_call now (GCreate pguid);;
                SetState gguid LFG_STATE_PROPOSAL;;
                mret gguid
            | Some gguid =>
                when (negb (bool_decide (old = grp))) (Group_call now (GAddMember gguid pguid));; mret gguid
            end;
    match players p !! pguid with
    | None => abort UndefinedBehaviour
    | Some d => Group_call now (GSetLfgRoles gguid pguid (role d))
    end;;
    when (dd_type dungeon =? LFG_TYPE_RANDOM) (tell pguid (MCastSpell LFG_SPELL_DUNGEON_COOLDOWN));;
    mret (Some gguid)
  else mret grp.

Fixpoint join_all (now : Z) (p : LfgProposal) (dungeon : LFGDungeonData) (grp : option Z) (l : list Z) : MM (option Z) :=
  match l with
  | [] => mret grp
  | pguid :: l' => grp ← join_new_group now p dungeon grp pguid; join_all now p dungeon grp l'
  end.

(** The leader first. *)
Definition leader_first (p : LfgProposal) : list Z :=
  filter (fun k => k = leader p) (keys (players p)) ++ filter (fun k => k <> leader p) (keys (players p)).

Definition MakeNewGroup (now : Z) (p : LfgProposal) : MM () :=
  m ← getS;
  let playersToTeleport := filter (fun k => isNew p = true \/ GetGroup m k <> proposal_group p) (keys (players p)) in
  match GetLFGDungeon (dungeonId p) with
  | None => abort AssertFailed
  | Some dungeon =>
      grp ← join_all now p dungeon
              (if proposal_group p =? 0 then None else GetGroupByGUID (GUID_LOPART (proposal_group p))) (leader_first p);
      match grp with
      | None => abort UndefinedBehaviour
      | Some gguid =>
          Group_call now (GSetDungeonDifficulty gguid (difficulty dungeon));;
          SetDungeon gguid (Entry dungeon);;
          SetState gguid LFG_STATE_DUNGEON;;
          mgr_SaveToDB gguid (GetDbStoreId gguid);;
          for_each playersToTeleport (fun k => send k (MTeleport false));;
          Group_call now (GSendUpdate gguid)
      end
  end.

(** A wait time is measured with the role the player had chosen. *)
Definition update_wait_time (queueId r waitTime dungeonId : Z) : MM () :=
  m ← getS;
  let q := queue_of m queueId in
  let upd store := UpdateWaitTime waitTime dungeonId store in
  match (if r =? PLAYER_ROLE_DAMAGE then (fun s => q <| waitTimesDpsStore := s |>) <$> upd (waitTimesDpsStore q)
         else if r =? PLAYER_ROLE_HEALER then
           (fun s => q <| waitTimesHealerStore := s |>) <$> upd (waitTimesHealerStore q)
         else if r =? PLAYER_ROLE_TANK then (fun s => q <| waitTimesTankStore := s |>) <$> upd (waitTimesTankStore q)
         else (fun s => q <| waitTimesAvgStore := s |>) <$> upd (waitTimesAvgStore q)) with
  | Some q' => mgr_on_queue queueId (fun _ => q')
  | None => abort UndefinedBehaviour
  end.

(** [updateData] outlives the loop: only the first player is told GROUP_FOUND. *)
Definition group_found (now queueId : Z) (p : LfgProposal) (sendUpdate first : bool) (pguid : Z) : MM () :=
  match players p !! pguid with
  | None => mret tt
  | Some d =>
      m ← getS;
      match in_order (GetSelectedDungeons m pguid) with
      | [] => abort UndefinedBehaviour
      | dungeon :: _ =>
          when sendUpdate (send pguid (MUpdateProposal p));;
          let waitTime := s32 (Z.quot (now - GetJoinTime (entry_guid pguid d) (queue_of m queueId)) IN_MILLISECONDS) in
          let removed := LfgUpdateData_type LFG_UPDATETYPE_REMOVED_FROM_QUEUE in
          send pguid (MUpdateStatus (if first then LfgUpdateData_type LFG_UPDATETYPE_GROUP_FOUND else removed) false);;
          send pguid (MUpdateStatus removed true);;
          send pguid (MUpdateStatus removed false);;
          update_wait_time queueId (Z.land (GetRoles m pguid) (u8 (Z.lnot PLAYER_ROLE_LEADER))) waitTime dungeon;;
          SetState pguid LFG_STATE_DUNGEON
      end
  end.

Definition UpdateProposal (now id guid : Z) (answer : bool) : MM () :=
  m ← getS;
  match ProposalsStore m !! id with
  | None => mret tt
  | Some p0 =>
      match players p0 !! guid with
      | None => mret tt
      | Some _ =>
          set_answer id guid (LfgAnswer_of answer);;
          if negb answer then RemoveProposal id LFG_UPDATETYPE_PROPOSAL_DECLINED
          else
            let p := p0 <| players ::= alter (fun d => d <| accept := LfgAnswer_of answer |>) guid |> in
            if negb (forallb (fun k => from_option (fun d => bool_decide (accept d = LFG_ANSWER_AGREE)) false
                                         (players p !! k)) (keys (players p)))
            then for_each (keys (players p)) (fun k => send k (MUpdateProposal p))
            else
              let sendUpdate := negb (bool_decide (state p = LFG_PROPOSAL_SUCCESS)) in
              let p := p <| state := LFG_PROPOSAL_SUCCESS |> in
              modify (fun m => m <| ProposalsStore ::= <[id := p]> |>);;
              let queueId := GetQueueId m guid in
              for_each (zip (true :: repeat false (length (keys (players p)))) (keys (players p)))
                (fun fk => group_found now queueId p sendUpdate (fst fk) (snd fk));;
              for_each (queues p) (fun g => mgr_on_queue queueId (RemoveFromQueue g));;
              MakeNewGroup now p;;
              modify (fun m => m <| ProposalsStore ::= delete id |>)
      end
  end.

(** ** The end of a vote *)

Definition count_votes (f : LfgAnswer -> bool) (v : gmap Z LfgAnswer) : Z :=
  u8 (count_if (fun _ a => f a) v).

(** [boot.votes[guid]] gives a stranger the vote [LFG_ANSWER_DENY], whose number is 0. *)
Definition UpdateBoot (now guid : Z) (answer : bool) : MM () :=
  m ← getS;
  let gguid := GetGroup m guid in
  if gguid =? 0 then mret tt
  else
    match BootsStore m !! gguid with
    | None => mret tt
    | Some boot0 =>
        let store b := modify (fun m => m <| BootsStore ::= <[gguid := b]> |>) in
        if negb (bool_decide (default LFG_ANSWER_DENY (votes boot0 !! guid) = LFG_ANSWER_PENDING)) then
          store (boot0 <| votes ::= fun v => <[guid := default LFG_ANSWER_DENY (v !! guid)]> v |>)
        else
          let boot := boot0 <| votes ::= <[guid := LfgAnswer_of answer]> |> in
          store boot;;
          let votesNum := count_votes (fun a => negb (bool_decide (a = LFG_ANSWER_PENDING))) (votes boot) in
          let agreeNum := count_votes (fun a => bool_decide (a = LFG_ANSWER_AGREE)) (votes boot) in
          if (agreeNum <? LFG_GROUP_KICK_VOTES_NEEDED) && (votesNum - agreeNum <? LFG_GROUP_KICK_VOTES_NEEDED)
          then mret tt
          else
            let boot := boot <| inProgress := false |> in
            store boot;;
            for_each (keys (votes boot)) (fun pguid =>
              when (negb (pguid =? victim boot))
                (SetState pguid LFG_STATE_DUNGEON;; send pguid (MBootProposalUpdate boot)));;
            SetState gguid LFG_STATE_DUNGEON;;
            when (agreeNum =? LFG_GROUP_KICK_VOTES_NEEDED)
              (match GetGroupByGUID (GUID_LOPART gguid) with
               | Some g => Group_call now (GKickLfg g (victim boot))
               | None => mret tt
               end;;
               DecreaseKicksLeft gguid);;
            modify (fun m => m <| BootsStore ::= delete gguid |>)
    end.

(** ** The tick *)

(** What a queue sees of the manager. *)
Definition queue_view (now : Z) (m : LFGMgr) : QueueView := {|
  FindPlayer := world_FindPlayer;
  social_HasIgnore := world_HasIgnore;
  LFG.GetState := GetState m;
  LFG.GetOldState := GetOldState m;
  data_IsLfgGroup := fun guid => group_IsLfgGroup (group_data m guid);
  time_now := now;
  urand := world_urand
|}.

Definition on_queue_state {A} (now queueId : Z) (f : forall _ : QueueView, QM A) (after : A -> QState -> MM ()) : MM () :=
  m ← getS;
  match f (queue_view now m) (mkQState (queue_of m queueId) [] [] (m_draws m)) with
  | Ok a s =>
      mgr_on_queue queueId (fun _ => queue s);;
      modify (fun m => m <| m_draws := draws s |>);;
      after a s
  | Throw e _ => match e with end
  | Abort r => abort r
  end.

Definition mgr_FindGroups (now queueId : Z) : MM () :=
  on_queue_state now queueId (fun _ => FindGroups) (fun _ s => for_each (proposals s) AddProposal).

Definition mgr_UpdateQueueTimers (now queueId : Z) : MM () :=
  on_queue_state now queueId (fun _ => UpdateQueueTimers queueId now)
    (fun _ s => for_each (statuses s) (fun gd => send (fst gd) (MQueueStatus (snd gd)))).

Definition expire_rolecheck (now gguid : Z) : MM () :=
  m ← getS;
  match RoleChecksStore m !! gguid with
  | None => mret tt
  | Some rc0 =>
      if now <? rc_cancelTime rc0 then mret tt
      else
        let rc := rc0 <| rc_state := LFG_ROLECHECK_MISSING_ROLE |> in
        for_each (keys (rc_roles rc)) (fun guid =>
          RestoreState guid;;
          send guid (MRoleCheckUpdate rc);;
          when (guid =? rc_leader rc)
            (send guid (MJoinResult (mkLfgJoinResultData LFG_JOIN_ROLE_CHECK_FAILED LFG_ROLECHECK_MISSING_ROLE ∅))));;
        RestoreState gguid;;
        erase_rolecheck gguid
  end.

Definition expire_proposal (now id : Z) : MM () :=
  m ← getS;
  match ProposalsStore m !! id with
  | None => mret tt
  | Some p => when (cancelTime p <? now) (RemoveProposal id LFG_UPDATETYPE_PROPOSAL_FAILED)
  end.

Definition expire_boot (now gguid : Z) : MM () :=
  m ← getS;
  match BootsStore m !! gguid with
  | None => mret tt
  | Some boot0 =>
      if pb_cancelTime boot0 <? now then
        let boot := boot0 <| inProgress := false |> in
        for_each (keys (votes boot)) (fun pguid =>
          when (negb (pguid =? victim boot)) (send pguid (MBootProposalUpdate boot));;
          SetState pguid LFG_STATE_DUNGEON);;
        SetState gguid LFG_STATE_DUNGEON;;
        modify (fun m => m <| BootsStore ::= delete gguid |>)
      else mret tt
  end.

(** The players of a new proposal are asked. *)
Definition begin_player (p : LfgProposal) (guid : Z) : MM () :=
  SetState guid LFG_STATE_PROPOSAL;;
  m ← getS;
  let gguid := GetGroup m guid in
  let status := MUpdateStatus
    (LfgUpdateData_of LFG_UPDATETYPE_PROPOSAL_BEGIN (GetSelectedDungeons m guid) (GetComment m guid)) in
  (if negb (gguid =? 0) then SetState gguid LFG_STATE_PROPOSAL;; send guid (status true)
   else send guid (status false));;
  send guid (MUpdateProposal p).

(** No new proposal is already successful. *)
Definition begin_proposal (now id : Z) : MM () :=
  m ← getS;
  match ProposalsStore m !! id with
  | None => mret tt
  | Some p =>
      for_each (keys (players p)) (begin_player p);;
      when (bool_decide (state p = LFG_PROPOSAL_SUCCESS))
        (UpdateProposal now id (List.last (keys (players p)) 0) true)
  end.

(** [ProposalsStore.find(m_lfgProposalId)] and what follows it. *)
Definition new_proposals (m : LFGMgr) : list Z :=
  match ProposalsStore m !! m_lfgProposalId m with
  | None => []
  | Some _ => filter (fun id => m_lfgProposalId m <= id) (keys (ProposalsStore m))
  end.

Definition mgr_Update (now diff : Z) : MM () :=
  m ← getS;
  when (isOptionEnabled m enabled_options)
    (for_each (keys (RoleChecksStore m)) (expire_rolecheck now);;
     m ← getS;
     for_each (keys (ProposalsStore m)) (expire_proposal now);;
     m ← getS;
     for_each (keys (BootsStore m)) (expire_boot now);;
     m ← getS;
     let lastProposalId := m_lfgProposalId m in
     for_each (keys (QueuesStore m)) (mgr_FindGroups now);;
     m ← getS;
     when (negb (lastProposalId =? m_lfgProposalId m)) (for_each (new_proposals m) (begin_proposal now));;
     m ← getS;
     if LFG_QUEUEUPDATE_INTERVAL <? m_QueueTimer m then
       modify (fun m => m <| m_QueueTimer := 0 |>);;
       for_each (keys (QueuesStore m)) (mgr_UpdateQueueTimers now)
     else modify (fun m => m <| m_QueueTimer ::= fun t => u32 (t + diff) |>)).

(** ** Joining *)

(** A group as [JoinLfg] sees it: its GUID, whether it is a group of the dungeon
    finder, the number of its members, and those who are in the game. *)
Record GroupView := mkGroupView { gv_guid : Z; isLFGGroup : bool; GetMembersCount : Z; gv_members : list Z }.

Definition member_restriction (guid : Z) : LfgJoinResult :=
  if HasAura guid LFG_SPELL_DUNGEON_DESERTER then LFG_JOIN_PARTY_DESERTER
  else if HasAura guid LFG_SPELL_DUNGEON_COOLDOWN then LFG_JOIN_PARTY_RANDOM_COOLDOWN
  else if InBattleground guid || InArena guid || InBattlegroundQueue guid then LFG_JOIN_USING_BG_SYSTEM
  else LFG_JOIN_OK.

(** The loop over the members, which ends at the first who may not join. *)
Fixpoint check_members (members : list Z) (memberCount : Z) (ps : gset Z) : LfgJoinResult * Z * gset Z :=
  match members with
  | [] => (LFG_JOIN_OK, memberCount, ps)
  | guid :: members' =>
      let r := member_restriction guid in
      let memberCount := u8 (memberCount + 1) in
      let ps := ps ∪ {[guid]} in
      if bool_decide (r = LFG_JOIN_OK) then check_members members' memberCount ps else (r, memberCount, ps)
  end.

(** The chain of restrictions, with the players whose locks count; an entry that
    is already queued skips it. *)
Definition join_restrictions (guid : Z) (grp : option GroupView) (ds : LfgDungeonSet) : LfgJoinResult * gset Z :=
  if InBattleground guid || InArena guid || InBattlegroundQueue guid then (LFG_JOIN_USING_BG_SYSTEM, ∅)
  else if HasAura guid LFG_SPELL_DUNGEON_DESERTER then (LFG_JOIN_DESERTER, ∅)
  else if HasAura guid LFG_SPELL_DUNGEON_COOLDOWN then (LFG_JOIN_RANDOM_COOLDOWN, ∅)
  else if bool_decide (ds = ∅) then (LFG_JOIN_NOT_MEET_REQS, ∅)
  else match grp with
       | Some g =>
           if MAXGROUPSIZE <? GetMembersCount g then (LFG_JOIN_TOO_MUCH_MEMBERS, ∅)
           else
             let '(r, memberCount, ps) := check_members (gv_members g) 0 ∅ in
             (if bool_decide (r = LFG_JOIN_OK) && negb (memberCount =? GetMembersCount g)
              then LFG_JOIN_DISCONNECTED else r, ps)
       | None => (LFG_JOIN_OK, {[guid]})
       end.

Record join_types := mkJoinTypes { jt_result : LfgJoinResult; isRaid : bool; isDungeon : bool; jt_random : Z }.
#[export] Instance join_types_settable : Settable join_types :=
  fun j => mkJoinTypes (jt_result j) (isRaid j) (isDungeon j) (jt_random j).

(** One dungeon of the list [ds]; a random one falls through to the others. *)
Definition check_type (ds : LfgDungeonSet) (j : join_types) (id : Z) : join_types :=
  let type := GetDungeonType id in
  let dungeon j := (if isRaid j then j <| jt_result := LFG_JOIN_MIXED_RAID_DUNGEON |> else j) <| isDungeon := true |> in
  if type =? LFG_TYPE_RANDOM then
    dungeon (if (1 <? Z.of_nat (base.size ds)) then j <| jt_result := LFG_JOIN_DUNGEON_INVALID |>
             else j <| jt_random := List.hd 0 (in_order ds) |>)
  else if (type =? LFG_TYPE_HEROIC) || (type =? LFG_TYPE_DUNGEON) then dungeon j
  else if type =? LFG_TYPE_RAID then
    (if isDungeon j then j <| jt_result := LFG_JOIN_MIXED_RAID_DUNGEON |> else j) <| isRaid := true |>
  else j <| jt_result := LFG_JOIN_DUNGEON_INVALID |>.

Fixpoint check_types (ds : LfgDungeonSet) (l : list Z) (j : join_types) : join_types :=
  match l with
  | [] => j
  | id :: l' => if bool_decide (jt_result j = LFG_JOIN_OK) then check_types ds l' (check_type ds j id) else j
  end.

(** Whether an entry may join, with its dungeons, their locks, the random dungeon
    chosen and whether it is for raids. *)
Definition join_check (m : LFGMgr) (r : LfgJoinResult) (grp : option GroupView) (ds : LfgDungeonSet) (ps : gset Z)
    : LfgJoinResult * LfgDungeonSet * LfgLockPartyMap * Z * bool :=
  if bool_decide (r = LFG_JOIN_OK) then
    let j := check_types ds (in_order ds) (mkJoinTypes LFG_JOIN_OK false false 0) in
    if bool_decide (jt_result j = LFG_JOIN_OK) then
      let ds := if jt_random j =? 0 then ds else GetDungeonsByRandom (jt_random j) in
      let '(ds, locks) := GetCompatibleDungeons m ds ps in
      (if bool_decide (ds = ∅)
       then match grp with Some _ => LFG_JOIN_INTERNAL_ERROR | None => LFG_JOIN_NOT_MEET_REQS end
       else LFG_JOIN_OK, ds, locks, jt_random j, isRaid j)
    else (jt_result j, ds, ∅, jt_random j, isRaid j)
  else (r, ds, ∅, 0, false).

(** The role check of a group; the roles of an unfinished one are kept. *)
Definition join_group (now guid : Z) (g : GroupView) (isContinue : bool) (chosen : Z) (ds : LfgDungeonSet)
    (random : Z) (comment : list Z) : MM () :=
  let gguid := gv_guid g in
  m ← getS;
  let shown := if random =? 0 then ds else {[random]} in
  let rc := (default LfgRoleCheck_new (RoleChecksStore m !! gguid))
    <| rc_cancelTime := now + LFG_TIME_ROLECHECK |> <| rc_state := LFG_ROLECHECK_INITIALITING |>
    <| rc_leader := guid |> <| rc_dungeons := ds |> <| rDungeonId := random |>
    <| rc_roles ::= fun roles => fold_left (fun roles pguid => <[pguid := 0]> roles) (gv_members g) roles |> in
  modify (fun m => m <| RoleChecksStore ::= <[gguid := rc]> |>);;
  SetState gguid LFG_STATE_ROLECHECK;;
  for_each (gv_members g) (fun pguid =>
    tell pguid (MUpdateStatus (LfgUpdateData_of LFG_UPDATETYPE_JOIN_QUEUE shown comment) true);;
    SetState pguid LFG_STATE_ROLECHECK;;
    when (negb isContinue) (SetSelectedDungeons pguid shown));;
  UpdateRoleCheck now gguid guid chosen.

Definition join_alone (now guid : Z) (isContinue : bool) (chosen : Z) (ds : LfgDungeonSet) (random : Z)
    (comment : list Z) : MM () :=
  m ← getS;
  mgr_on_queue (GetQueueId m guid) (AddQueueData guid now ds {[guid := chosen]});;
  let shown := if negb isContinue && negb (random =? 0) then {[random]} else ds in
  when (negb isContinue) (SetSelectedDungeons guid shown);;
  tell guid (MJoinResult (mkLfgJoinResultData LFG_JOIN_OK LFG_ROLECHECK_DEFAULT ∅));;
  tell guid (MUpdateStatus (LfgUpdateData_of LFG_UPDATETYPE_JOIN_QUEUE shown comment) false);;
  SetState guid LFG_STATE_QUEUED;;
  SetRoles guid chosen.

Definition JoinLfg (now guid : Z) (grp : option GroupView) (chosen : Z) (wanted : LfgDungeonSet) (comment : list Z)
    : MM () :=
  if bool_decide (wanted = ∅) then mret tt
  else
    m ← getS;
    let gguid := from_option gv_guid guid grp in
    let isContinue := from_option isLFGGroup false grp &&
      negb (bool_decide (GetState m gguid = LFG_STATE_FINISHED_DUNGEON)) in
    let ds := if isContinue then {[GetDungeon m gguid true]} else wanted in
    '(r, ps) ← (if bool_decide (GetState m gguid = LFG_STATE_QUEUED)
                then mgr_on_queue (GetQueueId m gguid) (RemoveFromQueue gguid);; mret (LFG_JOIN_OK, ∅)
                else mret (join_restrictions guid grp ds));
    m ← getS;
    let '(r, ds, locks, random, raid) := join_check m r grp ds ps in
    if negb (bool_decide (r = LFG_JOIN_OK)) then
      tell guid (MJoinResult (mkLfgJoinResultData r LFG_ROLECHECK_DEFAULT (if bool_decide (ds = ∅) then locks else ∅)))
    else
      SetComment guid comment;;
      if (raid : bool) then mret tt
      else match grp with
           | Some g => join_group now guid g isContinue chosen ds random comment
           | None => join_alone now guid isContinue chosen ds random comment
           end.

(** ** Finishing *)

(** The first reward whose level suffices, or the last one. *)
Fixpoint reward_loop (level : Z) (l : list LfgReward) (rew : option LfgReward) : option LfgReward :=
  match l with
  | [] => rew
  | r :: l' => if level <=? rw_maxLevel r then Some r else reward_loop level l' (Some r)
  end.
Definition GetRandomDungeonReward (dungeon level : Z) : option LfgReward :=
  reward_loop level (RewardMapStore (Z.land dungeon 0x00FFFFFF)) None.

Definition give_reward (gguid guid rId : Z) (dungeon : LFGDungeonData) : MM () :=
  when (difficulty dungeon =? DUNGEON_DIFFICULTY_HEROIC) (tell guid MHeroicCriteria);;
  match GetRandomDungeonReward rId (getLevel guid) with
  | None => mret tt
  | Some reward =>
      if negb (QuestExists (firstQuest reward)) then mret tt
      else
        m ← getS;
        let finish done quest :=
          tell guid (MRewardQuest quest);;
          tell guid (MPlayerReward (Entry dungeon) (GetDungeon m gguid false) done quest) in
        if CanRewardQuest guid (firstQuest reward) then finish false (firstQuest reward)
        else when (QuestExists (otherQuest reward)) (finish true (otherQuest reward))
  end.

Definition finish_player (gguid dungeonId guid : Z) : MM () :=
  m ← getS;
  if bool_decide (GetState m guid = LFG_STATE_FINISHED_DUNGEON) then mret tt
  else
    let rId := List.hd 0 (in_order (GetSelectedDungeons m guid)) in
    SetState guid LFG_STATE_FINISHED_DUNGEON;;
    match GetLFGDungeon rId with
    | None => mret tt
    | Some dungeon =>
        when ((dd_type dungeon =? LFG_TYPE_RANDOM) || seasonal dungeon)
          (when (world_FindPlayer guid && IsInWorld guid)
            (when (GetMapId guid =? from_option dd_map 0 (GetLFGDungeon dungeonId))
              (give_reward gguid guid rId dungeon)))
    end.

Definition FinishDungeon (gguid dungeonId : Z) : MM () :=
  m ← getS;
  if negb (GetDungeon m gguid true =? dungeonId) then mret tt
  else if bool_decide (GetState m gguid = LFG_STATE_FINISHED_DUNGEON) then mret tt
  else
    SetState gguid LFG_STATE_FINISHED_DUNGEON;;
    m ← getS;
    for_each (in_order (GetPlayers m gguid)) (finish_player gguid dungeonId).

Definition GetRandomAndSeasonalDungeons (level expansion : Z) : gset Z :=
  list_to_set (map Entry (filter (fun d =>
      ((dd_type d =? LFG_TYPE_RANDOM) || (seasonal d && IsSeasonActive (dd_id d))) && (dd_expansion d <=? expansion) &&
      (minlevel d <=? level) && (level <=? maxlevel d) = true)
    (map snd (map_to_list LfgDungeonStore)))).
End Tick.
