(* ===== verification/LFGInv.v ===== *)
(** * The manager of the dungeon finder never queues or proposes nonsense

    What every operation of the manager keeps: the states of players and groups
    are those of a passing state over a lasting one; the offers in the queues
    are well formed, which is what LFGProps.v asks of a search; the role checks
    will lead to such offers; and the proposals are of five players with the
    roles of a group. *)

From S2P Require Import Prelude Maps Guid Text LFG LFGRoles LFGOffers LFGSearch LFGPropose LFGFind LFGProps LFGData LFGMgr LFGTick.

(** ** Queues *)

(** Offers a search can use, and the roles of a party, which its role check has
    accepted, can fill a group.  The roles of a lone player were never checked. *)
Record queued_ok (O : gmap Z offer) : Prop := {
  qo_offers : offers_ok O;
  qo_parties : map_Forall (fun _ o => 1 < Z.of_nat (base.size (fst o)) -> feasible (remove_leader (fst o))) O
}.

Definition entry_ok (o : offer) : Prop :=
  offer_ok o /\ (1 < Z.of_nat (base.size (fst o)) -> feasible (remove_leader (fst o))).

Lemma queued_ok_subset (O O' : gmap Z offer) : O' ⊆ O -> queued_ok O -> queued_ok O'.
Proof.
  intros Hs [H1 H2]. split; intros g o Hg; [apply (H1 g)|apply (H2 g)]; by eapply lookup_weaken.
Qed.

Lemma RemoveFromQueue_ok g q : queued_ok (offers q) -> queued_ok (offers (RemoveFromQueue g q)).
Proof. rewrite RemoveFromQueue_offers. apply queued_ok_subset, delete_subseteq. Qed.

Lemma AddToQueue_offers g q : offers (AddToQueue g q) = offers q.
Proof. unfold AddToQueue. by destruct (QueueDataStore q !! g). Qed.

Lemma AddQueueData_ok g t ds rs q :
  queued_ok (offers q) -> entry_ok (rs, ds) -> queued_ok (offers (AddQueueData g t ds rs q)).
Proof.
  intros [H1 H2] [Ho Hf]. unfold AddQueueData. rewrite AddToQueue_offers. unfold offers. cbn. rewrite fmap_insert.
  split; by apply map_Forall_insert_2.
Qed.

Lemma new_queue_ok : queued_ok (offers LFGQueue_new).
Proof. unfold offers. cbn. rewrite fmap_empty. split; apply map_Forall_empty. Qed.

Lemma in_order_some (s : gset Z) : s <> ∅ -> exists x l, in_order s = x :: l.
Proof.
  intros Hs. destruct (in_order s) as [|x l] eqn:He; [|by exists x, l].
  by apply LFGKeys.in_order_nil in He.
Qed.

(** *** The status of the entries *)

Section Timers.
Context `{QueueView}.

Definition same_offers (O : gmap Z offer) (P : list LfgProposal) (s : QState) : Prop :=
  offers (queue s) = O /\ proposals s = P.

Lemma timers_data O P g s :
  same_offers O P s -> is_Some (O !! g) ->
  exists d, queue_data g s = Ok d s /\ QueueDataStore (queue s) !! g = Some d /\ O !! g = Some (roles d, dungeons d).
Proof.
  intros [Ho _] [o Hg]. rewrite <- Ho in *. apply offers_lookup in Hg as Hd. destruct Hd as (d & Hd & ->).
  exists d. split_and!; [|done|done]. unfold queue_data. run. by rewrite Hd.
Qed.

Lemma on_queue_same O P f s :
  same_offers O P s -> offers (f (queue s)) = offers (queue s) ->
  returns (on_queue f) (fun _ => same_offers O P) s.
Proof. intros [Ho Hp] Hf. unfold on_queue. steps. split; [|done]. cbn. by rewrite Hf. Qed.

Lemma FindBest_alter_offers g (q : LFGQueue) :
  offers (q <| QueueDataStore ::= alter (FindBestCompatibleInQueue (CompatibleMapStore q) g) g |>) = offers q.
Proof.
  unfold offers. cbn. apply map_eq. intros j. rewrite !lookup_fmap.
  destruct (decide (j = g)) as [->|Hne]; [|by rewrite lookup_alter_ne].
  rewrite lookup_alter_eq. destruct (QueueDataStore q !! g) as [d|]; [|done]. cbn.
  by destruct (FindBest_offer (CompatibleMapStore q) g d) as [-> ->].
Qed.

Lemma timers_entry O P queueId t g s :
  same_offers O P s -> offers_ok O -> is_Some (O !! g) ->
  returns (d ← queue_data g;
    match in_order (dungeons d) with
    | [] => abort UndefinedBehaviour
    | dungeonId :: _ =>
        on_queue (fun q => q <| waitTimesTankStore ::= touch dungeonId |>
          <| waitTimesHealerStore ::= touch dungeonId |> <| waitTimesDpsStore ::= touch dungeonId |>
          <| waitTimesAvgStore ::= touch dungeonId |>);;
        when (bool_decide (bestCompatible d = []))
          (on_queue (fun q => q <| QueueDataStore ::=
             alter (FindBestCompatibleInQueue (CompatibleMapStore q) g) g |>));;
        d ← queue_data g;
        q ← gets queue;
        for_each (keys (roles d)) (fun pguid =>
          modify (fun s => s <| statuses ::= fun l =>
            l ++ [(pguid, queue_status q queueId t dungeonId d)] |>))
    end) (fun _ => same_offers O P) s.
Proof.
  intros Hs HO Hg. destruct (timers_data O P g s Hs Hg) as (d & Hd & _ & Ho).
  eapply returns_bind with (P := fun d' s' => d' = d /\ s' = s); [unfold returns, wp; by rewrite Hd|].
  intros d' s' [-> ->]. destruct (HO g _ Ho) as [_ _ Hne _]. cbn in Hne.
  destruct (in_order_some _ Hne) as (x & l & ->).
  eapply returns_bind; [by apply on_queue_same|]. intros [] s1 Hs1.
  eapply returns_bind with (P := fun _ => same_offers O P).
  { apply wp_when; intros _; [|done]. apply on_queue_same; [done|]. apply FindBest_alter_offers. }
  intros [] s2 Hs2. destruct (timers_data O P g s2 Hs2 Hg) as (d2 & Hd2 & _).
  eapply returns_bind with (P := fun d' s' => d' = d2 /\ s' = s2); [unfold returns, wp; by rewrite Hd2|].
  intros d' s' [-> ->]. eapply returns_bind with (P := fun q s' => s' = s2); [done|]. intros q s' ->.
  apply (wp_for_each _ _ (same_offers O P)); [done|]. intros k s3 _ Hs3. by steps.
Qed.

Lemma UpdateQueueTimers_spec queueId t s :
  offers_ok (offers (queue s)) ->
  returns (UpdateQueueTimers queueId t) (fun _ => same_offers (offers (queue s)) (proposals s)) s.
Proof.
  intros HO. unfold UpdateQueueTimers.
  eapply returns_bind with (P := fun q s' => q = queue s /\ s' = s); [done|]. intros q s' [-> ->].
  apply (wp_for_each _ _ (same_offers (offers (queue s)) (proposals s))); [done|].
  intros g s1 [d Hd]%elem_of_keys Hs1. apply timers_entry; [done|done|].
  apply offers_lookup_Some in Hd. by eexists.
Qed.
End Timers.

(** ** Role checks and proposals *)

(** The players who have a part in the role checks of a group; [CheckGroupRoles]
    compares the number of players with a [uint8]. *)
Class Roster := {
  roster : Z -> gset Z;
  roster_small : forall gguid, Z.of_nat (base.size (roster gguid)) < 256
}.

(** The roles are bytes, of players of the roster, and some dungeon is wanted;
    the roles of a finished check, which is about to be removed, fill a group. *)
Record check_ok `{Roster} (gguid : Z) (rc : LfgRoleCheck) : Prop := {
  ck_finished : rc_state rc = LFG_ROLECHECK_FINISHED -> feasible (remove_leader (rc_roles rc));
  ck_dungeons : rc_dungeons rc <> ∅;
  ck_bytes : bytes_ok (rc_roles rc);
  ck_roster : dom (rc_roles rc) ⊆ roster gguid
}.

Lemma check_size `{Roster} gguid rc : check_ok gguid rc -> Z.of_nat (base.size (rc_roles rc)) < 256.
Proof.
  intros [_ _ _ Hd]. pose proof (roster_small gguid). apply subseteq_size in Hd. rewrite size_dom in Hd. lia.
Qed.

(** Five players, each with one of the three roles, not more of a role than
    needed; the leader is one of them, and they come from some entries. *)
Record group_proposed (p : LfgProposal) : Prop := {
  gp_five : base.size (players p) = 5%nat;
  gp_roles : forall k d, players p !! k = Some d -> is_role (role d) = true;
  gp_party : party (role <$> players p);
  gp_leader : is_Some (players p !! leader p);
  gp_queues : queues p <> []
}.

Lemma proposal_ok_group `{QueueView} O p : proposal_ok O p -> group_proposed p.
Proof.
  intros [H1 H2 H3 H4 _ _ _ H8 _ _ _]. split; try done.
  - intros k d Hk. specialize (H3 k). rewrite lookup_fmap, Hk in H3. cbn in H3.
    destruct (remove_leader _ !! k); [|done]. unfold plays in H3. by zprop.
  - intros Hq. rewrite Hq in H2. apply Permutation_length in H2. rewrite length_keys, H1 in H2. done.
Qed.

Lemma group_proposed_players p ps :
  group_proposed p -> dom ps = dom (players p) -> role <$> ps = role <$> players p ->
  forall st, group_proposed (p <| state := st |> <| players := ps |>).
Proof.
  intros [H1 H2 H3 H4 H5] Hd Hr st. split; cbn; try done.
  - rewrite <- size_dom, Hd, size_dom. exact H1.
  - intros k d Hk. assert (Hk' : (role <$> players p) !! k = Some (role d)) by (rewrite <- Hr, lookup_fmap, Hk; done).
    rewrite lookup_fmap in Hk'. destruct (players p !! k) as [d'|] eqn:Hp; [|done]. cbn in Hk'. injection Hk' as <-.
    by eapply H2.
  - by rewrite Hr.
  - rewrite <- elem_of_dom, Hd, elem_of_dom. exact H4.
Qed.

(** ** The invariant *)

Record mgr_inv `{Roster} (m : LFGMgr) : Prop := {
  mi_players : map_Forall (fun _ d => player_ok d) (PlayersStore m);
  mi_groups : map_Forall (fun _ d => group_ok d) (GroupsStore m);
  mi_queues : map_Forall (fun _ q => queued_ok (offers q)) (QueuesStore m);
  mi_checks : map_Forall check_ok (RoleChecksStore m);
  mi_proposals : map_Forall (fun _ p => group_proposed p) (ProposalsStore m)
}.

Lemma mgr_new_inv `{Roster} options : mgr_inv (LFGMgr_new options).
Proof. split; apply map_Forall_empty. Qed.

(** An operation keeps the invariant if it does so whenever it returns. *)
Definition keeps `{Roster} {A} (c : MM A) : Prop := forall m a m', mgr_inv m -> c m = Ok a m' -> mgr_inv m'.

Lemma keeps_ret `{Roster} {A} (a : A) : keeps (mret a).
Proof. intros m a' m' Hm [= _ <-]. done. Qed.

Lemma keeps_abort `{Roster} {A} r : keeps (abort r : MM A).
Proof. intros m a m' _ [=]. Qed.

Lemma mgr_keeps_bind `{Roster} {A B} (c : MM A) (f : A -> MM B) : keeps c -> (forall a, keeps (f a)) -> keeps (c ≫= f).
Proof.
  intros Hc Hf m b m' Hm. unfold mbind, M_bind. destruct (c m) as [a m1| |] eqn:He; [|done..].
  apply Hf. by eapply Hc.
Qed.

(** What a computation returns may be known. *)
Lemma keeps_bind_spec `{Roster} {A B} (P : A -> Prop) (c : MM A) (f : A -> MM B) :
  (forall m a m', mgr_inv m -> c m = Ok a m' -> mgr_inv m' /\ P a) -> (forall a, P a -> keeps (f a)) ->
  keeps (c ≫= f).
Proof.
  intros Hc Hf m b m' Hm. unfold mbind, M_bind. destruct (c m) as [a m1| |] eqn:He; [|done..].
  destruct (Hc m a m1 Hm He) as [Hm1 Ha]. by apply Hf.
Qed.

(** What is read satisfies the invariant. *)
Lemma mgr_keeps_get `{Roster} {B} (f : LFGMgr -> MM B) : (forall m, mgr_inv m -> keeps (f m)) -> keeps (getS ≫= f).
Proof. intros Hf m b m' Hm Hr. by eapply (Hf m Hm m). Qed.

Lemma mgr_keeps_when `{Roster} b (c : MM ()) : (b = true -> keeps c) -> keeps (when b c).
Proof. destruct b; intros Hc; [by apply Hc|]. apply keeps_ret. Qed.

Lemma keeps_for_each `{Roster} {A} (l : list A) (body : A -> MM ()) : (forall x, x ∈ l -> keeps (body x)) -> keeps (for_each l body).
Proof.
  induction l as [|x l IH]; intros Hb; [apply keeps_ret|]. cbn [for_each].
  apply mgr_keeps_bind; [apply Hb; by left|]. intros _. apply IH. intros y Hy. apply Hb. by right.
Qed.

Lemma keeps_modify `{Roster} f : (forall m, mgr_inv m -> mgr_inv (f m)) -> keeps (modify f).
Proof. intros Hf m a m' Hm [= _ <-]. by apply Hf. Qed.

Create HintDb keeps discriminated.
#[export] Hint Resolve keeps_ret keeps_abort : keeps.

(** Take an operation apart; what is left is for the lemmas of its parts. *)
Ltac keep1 :=
  lazymatch goal with
  | |- keeps (getS ≫= _) => apply mgr_keeps_get; intros ? ?
  | |- keeps (_ ≫= _) => apply mgr_keeps_bind; [|intros ?]
  | |- keeps (when _ _) => apply mgr_keeps_when; intros ?
  | |- keeps (for_each _ _) => apply keeps_for_each; intros ? ?
  | |- keeps (if ?b then _ else _) => destruct b eqn:?
  | |- keeps (match ?x with _ => _ end) => destruct x eqn:?
  | |- keeps (let _ := _ in _) => cbv zeta
  end.
Ltac keep := repeat first [solve [eauto with keeps] | keep1].

(** *** Small steps *)

Lemma keeps_silent `{Roster} f :
  (forall m, PlayersStore (f m) = PlayersStore m /\ GroupsStore (f m) = GroupsStore m /\
     QueuesStore (f m) = QueuesStore m /\ RoleChecksStore (f m) = RoleChecksStore m /\
     ProposalsStore (f m) = ProposalsStore m) -> keeps (modify f).
Proof.
  intros Hf. apply keeps_modify. intros m [H1 H2 H3 H4 H5]. destruct (Hf m) as (E1 & E2 & E3 & E4 & E5).
  split; by rewrite ?E1, ?E2, ?E3, ?E4, ?E5.
Qed.

Section Keeps.
Context `{LfgWorld, Roster}.

Lemma player_data_ok m guid : mgr_inv m -> player_ok (player_data m guid).
Proof.
  intros Hm. unfold player_data. destruct (PlayersStore m !! guid) eqn:Hd; cbn; [|apply player_new_ok].
  by eapply (mi_players m Hm).
Qed.

Lemma group_data_ok m guid : mgr_inv m -> group_ok (group_data m guid).
Proof.
  intros Hm. unfold group_data. destruct (GroupsStore m !! guid) eqn:Hd; cbn; [|apply group_new_ok].
  by eapply (mi_groups m Hm).
Qed.

Lemma queue_of_ok m queueId : mgr_inv m -> queued_ok (offers (queue_of m queueId)).
Proof.
  intros Hm. unfold queue_of. destruct (QueuesStore m !! queueId) eqn:Hd; cbn; [|apply new_queue_ok].
  by eapply (mi_queues m Hm).
Qed.

Lemma keeps_on_player guid f : (forall d, player_ok d -> player_ok (f d)) -> keeps (on_player guid f).
Proof.
  intros Hf. apply keeps_modify. intros m Hm. pose proof (player_data_ok m guid Hm). destruct Hm. split; cbn; try done.
  apply map_Forall_insert_2; auto.
Qed.

Lemma keeps_on_group guid f : (forall d, group_ok d -> group_ok (f d)) -> keeps (on_group guid f).
Proof.
  intros Hf. apply keeps_modify. intros m Hm. pose proof (group_data_ok m guid Hm). destruct Hm. split; cbn; try done.
  apply map_Forall_insert_2; auto.
Qed.

Lemma keeps_on_queue queueId f :
  (forall q, queued_ok (offers q) -> queued_ok (offers (f q))) -> keeps (mgr_on_queue queueId f).
Proof.
  intros Hf. apply keeps_modify. intros m Hm. pose proof (queue_of_ok m queueId Hm). destruct Hm. split; cbn; try done.
  apply map_Forall_insert_2; auto.
Qed.

Lemma keeps_SetState guid st : keeps (SetState guid st).
Proof.
  unfold SetState. destruct (IS_GROUP_GUID guid).
  - apply keeps_on_group. intros d. apply group_SetState_ok.
  - apply keeps_on_player. intros d. apply player_SetState_ok.
Qed.

Lemma keeps_RestoreState guid : keeps (RestoreState guid).
Proof.
  unfold RestoreState. destruct (IS_GROUP_GUID guid).
  - apply keeps_on_group, group_RestoreState_ok.
  - apply keeps_on_player, player_RestoreState_ok.
Qed.

Lemma keeps_player_field guid f :
  (forall d, pd_State (f d) = pd_State d /\ pd_OldState (f d) = pd_OldState d) -> keeps (on_player guid f).
Proof. intros Hf. apply keeps_on_player. intros d Hd. unfold player_ok. by destruct (Hf d) as [-> ->]. Qed.

Lemma keeps_group_field guid f :
  (forall d, gd_State (f d) = gd_State d /\ gd_OldState (f d) = gd_OldState d /\ m_KicksLeft (f d) = m_KicksLeft d) ->
  keeps (on_group guid f).
Proof. intros Hf. apply keeps_on_group. intros d Hd. unfold group_ok. by destruct (Hf d) as (-> & -> & ->). Qed.

Lemma mgr_keeps_tell guid msg : keeps (tell guid msg).
Proof. by apply keeps_silent. Qed.

Lemma keeps_send guid msg : keeps (send guid msg).
Proof. apply mgr_keeps_when. intros _. apply mgr_keeps_tell. Qed.

Lemma keeps_SetDungeon guid d : keeps (SetDungeon guid d).
Proof. by apply keeps_group_field. Qed.
Lemma keeps_SetLeader guid l : keeps (SetLeader guid l).
Proof. by apply keeps_group_field. Qed.
Lemma keeps_AddPlayerToGroup guid l : keeps (AddPlayerToGroup guid l).
Proof. by apply keeps_group_field. Qed.
Lemma keeps_RemovePlayerFromGroup gguid guid : keeps (RemovePlayerFromGroup gguid guid).
Proof. unfold RemovePlayerFromGroup. keep. by apply keeps_group_field. Qed.
Lemma keeps_DecreaseKicksLeft guid : keeps (DecreaseKicksLeft guid).
Proof. apply keeps_on_group, group_DecreaseKicksLeft_ok. Qed.
Lemma keeps_SetRoles guid r : keeps (SetRoles guid r).
Proof. by apply keeps_player_field. Qed.
Lemma keeps_SetComment guid c : keeps (SetComment guid c).
Proof. by apply keeps_player_field. Qed.
Lemma keeps_SetSelectedDungeons guid ds : keeps (SetSelectedDungeons guid ds).
Proof. by apply keeps_player_field. Qed.
Lemma keeps_SetLockedDungeons guid ds : keeps (SetLockedDungeons guid ds).
Proof. by apply keeps_player_field. Qed.
Lemma keeps_SetTeam guid t : keeps (SetTeam guid t).
Proof. by apply keeps_player_field. Qed.
Lemma keeps_SetGroup guid g : keeps (SetGroup guid g).
Proof. by apply keeps_player_field. Qed.

Lemma keeps_RemoveFromQueue queueId guid : keeps (mgr_on_queue queueId (RemoveFromQueue guid)).
Proof. apply keeps_on_queue, RemoveFromQueue_ok. Qed.
Lemma keeps_AddToQueue queueId guid : keeps (mgr_on_queue queueId (AddToQueue guid)).
Proof. apply keeps_on_queue. intros q. by rewrite AddToQueue_offers. Qed.
Lemma keeps_AddQueueData queueId guid t ds rs :
  entry_ok (rs, ds) -> keeps (mgr_on_queue queueId (AddQueueData guid t ds rs)).
Proof. intros Ho. apply keeps_on_queue. intros q Hq. by apply AddQueueData_ok. Qed.

Lemma keeps_erase_rolecheck gguid : keeps (erase_rolecheck gguid).
Proof. apply keeps_modify. intros m []. split; cbn; try done. by apply map_Forall_delete. Qed.
Lemma keeps_set_rolecheck gguid rc :
  check_ok gguid rc -> keeps (modify (fun m => m <| RoleChecksStore ::= <[gguid := rc]> |>)).
Proof. intros Hrc. apply keeps_modify. intros m []. split; cbn; try done. by apply map_Forall_insert_2. Qed.
Lemma keeps_erase_proposal id : keeps (modify (fun m => m <| ProposalsStore ::= delete id |>)).
Proof. apply keeps_modify. intros m []. split; cbn; try done. by apply map_Forall_delete. Qed.
Lemma keeps_set_proposal id p :
  group_proposed p -> keeps (modify (fun m => m <| ProposalsStore ::= <[id := p]> |>)).
Proof. intros Hp. apply keeps_modify. intros m []. split; cbn; try done. by apply map_Forall_insert_2. Qed.
Lemma keeps_boots f : keeps (modify (fun m => m <| BootsStore ::= f |>)).
Proof. by apply keeps_silent. Qed.
End Keeps.

#[export] Hint Resolve keeps_SetState keeps_RestoreState mgr_keeps_tell keeps_send keeps_SetDungeon keeps_SetLeader
  keeps_AddPlayerToGroup keeps_RemovePlayerFromGroup keeps_DecreaseKicksLeft keeps_SetRoles keeps_SetComment
  keeps_SetSelectedDungeons keeps_SetLockedDungeons keeps_SetTeam keeps_SetGroup keeps_RemoveFromQueue
  keeps_AddToQueue keeps_AddQueueData keeps_erase_rolecheck keeps_set_rolecheck keeps_erase_proposal
  keeps_set_proposal keeps_boots : keeps.

(** *** Role checks *)

(** A group has no more than five players. *)
Lemma party_size f : party f -> (forall k x, f !! k = Some x -> is_role x = true) -> Z.of_nat (base.size f) <= MAXGROUPSIZE.
Proof.
  intros (H1 & H2 & H3) Hr. rewrite <- length_keys.
  assert (Hlen : forall l, (forall k, k ∈ l -> is_Some (f !! k)) ->
            zlen l <= zlen (with_role f PLAYER_ROLE_DAMAGE l) + zlen (with_role f PLAYER_ROLE_HEALER l) +
                      zlen (with_role f PLAYER_ROLE_TANK l)).
  { induction l as [|k l IH]; intros Hl; [done|]. specialize (IH (fun j Hj => Hl j (list_elem_of_further _ _ _ Hj))).
    destruct (Hl k) as [x Hx]; [by left|]. pose proof (Hr k x Hx) as Hrole. unfold with_role, zlen in *. rewrite !filter_cons.
    apply is_role_in in Hrole. unfold three_roles in Hrole. rewrite !elem_of_cons, elem_of_nil in Hrole.
    destruct Hrole as [->|[->|[->|[]]]]; rewrite !Hx;
      repeat (first [rewrite decide_True by done|rewrite decide_False by done]); cbn [length]; lia. }
  specialize (Hlen (keys f)). unfold role_count, zlen, MAXGROUPSIZE, LFG_DPS_NEEDED, LFG_HEALERS_NEEDED, LFG_TANKS_NEEDED in *.
  etrans; [apply Hlen; intros k; by apply elem_of_keys|]. lia.
Qed.

Lemma feasible_played m k r : feasible (remove_leader m) -> m !! k = Some r ->
  exists x, plays (Z.land r (u8 (Z.lnot PLAYER_ROLE_LEADER))) x = true.
Proof.
  intros (f & Ha & _) Hk. specialize (Ha k). unfold remove_leader in Ha. rewrite lookup_fmap, Hk in Ha. cbn in Ha.
  destruct (f !! k) as [x|]; [by exists x|done].
Qed.

Lemma feasible_chosen m k r : feasible (remove_leader m) -> m !! k = Some r -> r <> 0.
Proof.
  intros Hf Hk ->. destruct (feasible_played m k 0 Hf Hk) as [x Hx]. rewrite Z.land_0_l in Hx.
  unfold plays, has_flag in Hx. rewrite Z.land_0_l in Hx. cbn in Hx. by rewrite andb_false_r in Hx.
Qed.

Lemma feasible_offer m ds : bytes_ok m -> feasible (remove_leader m) -> ds <> ∅ -> entry_ok (m, ds).
Proof.
  intros Hb Hf Hd. split; [|done]. split; try done. cbn. destruct Hf as (f & Ha & Hp).
  assert (Hs : base.size m = base.size f).
  { rewrite <- (map_size_fmap (fun r => Z.land r (u8 (Z.lnot PLAYER_ROLE_LEADER))) m).
    change (base.size (remove_leader m) = base.size f).
    by rewrite <- !length_keys, (assigns_keys _ _ Ha). }
  rewrite Hs. apply party_size; [done|]. intros k x Hx. specialize (Ha k). rewrite Hx in Ha.
  destruct (remove_leader m !! k); [|done]. unfold plays in Ha. by zprop.
Qed.

Section Checks.
Context `{LfgWorld, Roster}.

(** A player of the group answers with any byte, or nobody does. *)
Definition answer_of (gguid guid chosen : Z) : Prop := guid = 0 \/ (guid ∈ roster gguid /\ in_width 8 chosen).

Lemma role_chosen_ok gguid rc guid chosen m rc' m' :
  check_ok gguid rc -> answer_of gguid guid chosen -> role_chosen rc guid chosen m = Ok rc' m' ->
  m' = m /\ check_ok gguid rc'.
Proof.
  intros [H1 H2 H3 H4] Ha. unfold role_chosen. destruct (Z.eqb_spec guid 0) as [->|Hg].
  { intros [= <- <-]. by split. }
  destruct Ha as [|[Hr Hb]]; [done|]. destruct (chosen <? PLAYER_ROLE_TANK) eqn:Hlow; [intros [= <- <-]; by split|].
  assert (Hbytes : bytes_ok (<[guid := chosen]> (rc_roles rc))) by (by apply map_Forall_insert_2).
  assert (Hdom : dom (<[guid := chosen]> (rc_roles rc)) ⊆ roster gguid) by (rewrite dom_insert_L; set_solver).
  set (rc1 := rc <| rc_roles ::= <[guid := chosen]> |>).
  change (rc_roles rc1) with (<[guid := chosen]> (rc_roles rc)).
  destruct (forallb _ _) eqn:Hall.
  - assert (Hsize : Z.of_nat (base.size (<[guid := chosen]> (rc_roles rc))) < 256).
    { pose proof (roster_small gguid). apply subseteq_size in Hdom. rewrite size_dom in Hdom. lia. }
    destruct (CheckGroupRoles_spec (<[guid := chosen]> (rc_roles rc))) as (b & f & He & Hans); [apply insert_non_empty|done..|].
    unfold mgr_check_roles. rewrite He. run. intros [= <- <-]. split; [done|]. split; cbn; try done.
    destruct b; [|done]. intros _. exists f. by apply Hans.
  - intros [= <- <-]. split; [done|]. split; cbn; try done. intros Hfin. exfalso.
    apply H1 in Hfin. rewrite <- not_true_iff_false in Hall. apply Hall, forallb_forall. intros k Hk.
    rewrite <- list_elem_of_In, elem_of_keys in Hk. destruct Hk as [r Hk]. rewrite Hk. cbn [default].
    apply negb_true_iff, Z.eqb_neq. apply lookup_insert_Some in Hk as [[_ <-]|[_ Hk]].
    + unfold PLAYER_ROLE_TANK, PLAYER_ROLE_NONE, id in *. zprop. lia.
    + by eapply feasible_chosen.
Qed.

Lemma keeps_role_check_notify rc b guid chosen ds pguid : keeps (role_check_notify rc b guid chosen ds pguid).
Proof. unfold role_check_notify. keep. Qed.

Lemma keeps_check_outcome now gguid rc :
  check_ok gguid rc ->
  keeps (match rc_state rc with
         | LFG_ROLECHECK_FINISHED =>
             SetState gguid LFG_STATE_QUEUED;;
             m ← getS;
             mgr_on_queue (GetQueueId m gguid) (AddQueueData gguid now (rc_dungeons rc) (rc_roles rc));;
             erase_rolecheck gguid
         | LFG_ROLECHECK_INITIALITING => mret tt
         | _ => RestoreState gguid;; erase_rolecheck gguid
         end).
Proof.
  intros [H1 H2 H3 H4]. destruct (rc_state rc) eqn:Hst; keep.
  apply keeps_AddQueueData, feasible_offer; auto.
Qed.

Lemma keeps_UpdateRoleCheck now gguid guid chosen :
  answer_of gguid guid chosen -> keeps (UpdateRoleCheck now gguid guid chosen).
Proof.
  intros Ha. unfold UpdateRoleCheck. destruct (gguid =? 0); [apply keeps_ret|].
  apply mgr_keeps_get. intros m Hm. destruct (RoleChecksStore m !! gguid) as [rc0|] eqn:Hrc; [|apply keeps_ret].
  pose proof (mi_checks m Hm _ _ Hrc) as Hok. apply (keeps_bind_spec (check_ok gguid)).
  { intros m1 rc m2 Hm1 Hr. by destruct (role_chosen_ok gguid rc0 guid chosen m1 rc m2 Hok Ha Hr) as [-> Hrc']. }
  intros rc Hrc'. apply mgr_keeps_bind; [by apply keeps_set_rolecheck|]. intros _.
  apply mgr_keeps_bind; [|intros _; by apply keeps_check_outcome].
  apply keeps_for_each. intros x _. apply keeps_role_check_notify.
Qed.
End Checks.

(** *** Proposals *)

Section Operations.
Context `{LfgWorld, Roster}.

Lemma answer_proposed p k a :
  group_proposed p -> group_proposed (p <| players ::= alter (fun d => d <| accept := a |>) k |>).
Proof.
  intros Hp. set (ps := alter (fun d => d <| accept := a |>) k (players p)).
  assert (Hr : role <$> ps = role <$> players p).
  { apply map_eq. intros j. unfold ps. rewrite !lookup_fmap. destruct (decide (j = k)) as [->|Hne].
    - rewrite lookup_alter_eq. by destruct (players p !! k).
    - by rewrite lookup_alter_ne. }
  exact (group_proposed_players p ps Hp (dom_alter_L _ _ _) Hr (state p)).
Qed.

Lemma keeps_UpdateRoleCheck_nobody now gguid : keeps (UpdateRoleCheck now gguid 0 PLAYER_ROLE_NONE).
Proof. apply keeps_UpdateRoleCheck. by left. Qed.
Hint Resolve keeps_UpdateRoleCheck_nobody : keeps.

Lemma keeps_removal_notify p type toRemove guid : keeps (removal_notify p type toRemove guid).
Proof. unfold removal_notify. keep. Qed.
Hint Resolve keeps_removal_notify : keeps.

Lemma keeps_RemoveProposal id type : keeps (RemoveProposal id type).
Proof. unfold RemoveProposal. keep. Qed.
Hint Resolve keeps_RemoveProposal : keeps.

Lemma keeps_set_answer id k a : keeps (set_answer id k a).
Proof.
  apply keeps_modify. intros m []. split; cbn; try done. intros j p Hj.
  apply lookup_alter_Some in Hj as [(-> & p0 & Hp0 & ->)|[_ Hj]]; [|by eapply mi_proposals0].
  apply answer_proposed. by eapply mi_proposals0.
Qed.
Hint Resolve keeps_set_answer : keeps.

Lemma keeps_LeaveLfg now guid : keeps (LeaveLfg now guid).
Proof. unfold LeaveLfg. keep. Qed.
Hint Resolve keeps_LeaveLfg : keeps.

Lemma keeps_InitBoot now gguid kicker v why : keeps (InitBoot now gguid kicker v why).
Proof. unfold InitBoot. keep. Qed.

Lemma keeps_RemoveGroupData guid : keeps (RemoveGroupData guid).
Proof.
  unfold RemoveGroupData. keep. apply keeps_modify. intros m' []. split; cbn; try done. by apply map_Forall_delete.
Qed.

Lemma keeps_SetupGroupMember guid gguid : keeps (SetupGroupMember guid gguid).
Proof. unfold SetupGroupMember. keep. Qed.

Lemma keeps_InitializeLockedDungeons guid level : keeps (InitializeLockedDungeons guid level).
Proof. unfold InitializeLockedDungeons. keep. Qed.

Lemma keeps_LoadFromDB guid low d st : keeps (mgr_LoadFromDB guid low d st).
Proof. unfold mgr_LoadFromDB. keep. Qed.

Lemma keeps_SaveToDB guid db : keeps (mgr_SaveToDB guid db).
Proof. unfold mgr_SaveToDB. keep. Qed.
Hint Resolve keeps_InitBoot keeps_RemoveGroupData keeps_SetupGroupMember keeps_InitializeLockedDungeons
  keeps_SaveToDB : keeps.

(** *** Hooks and groups *)

Lemma keeps_OnAddMember now gguid l guid : keeps (group_hook_OnAddMember now gguid l guid).
Proof. unfold group_hook_OnAddMember. keep. Qed.

Lemma keeps_OnRemoveMember now gguid b guid me k why : keeps (group_hook_OnRemoveMember now gguid b guid me k why).
Proof. unfold group_hook_OnRemoveMember. keep. Qed.

Lemma keeps_OnMapChanged now guid map d l : keeps (player_hook_OnMapChanged now guid map d l).
Proof. unfold player_hook_OnMapChanged. keep. Qed.
Hint Resolve keeps_OnAddMember keeps_OnRemoveMember keeps_OnMapChanged : keeps.

Lemma keeps_hook now h : keeps (hook now h).
Proof. unfold hook. keep. Qed.
Hint Resolve keeps_hook : keeps.

Lemma keeps_Group_call now c : keeps (Group_call now c).
Proof. unfold Group_call. keep. by apply keeps_silent. Qed.
Hint Resolve keeps_Group_call : keeps.

Lemma keeps_join_all now p dungeon grp l : keeps (join_all now p dungeon grp l).
Proof.
  revert grp. induction l as [|pguid l IH]; intros grp; cbn [join_all]; [apply keeps_ret|].
  apply mgr_keeps_bind; [|intros; apply IH]. unfold join_new_group. keep.
Qed.
Hint Resolve keeps_join_all : keeps.

Lemma keeps_MakeNewGroup now p : keeps (MakeNewGroup now p).
Proof. unfold MakeNewGroup. keep. Qed.
Hint Resolve keeps_MakeNewGroup : keeps.

(** *** Answers and votes *)

Lemma keeps_update_wait_time queueId r wait d : keeps (update_wait_time queueId r wait d).
Proof.
  unfold update_wait_time. apply mgr_keeps_get. intros m Hm. pose proof (queue_of_ok m queueId Hm) as Hq.
  match goal with |- context [match ?x with Some _ => _ | None => _ end] => destruct x as [q'|] eqn:He end; [|apply keeps_abort].
  apply keeps_on_queue. intros _ _.
  assert (Ho : offers q' = offers (queue_of m queueId)); [|by rewrite Ho].
  repeat match type of He with (if ?b then _ else _) = _ => destruct b end;
    apply fmap_Some in He as (st & _ & ->); done.
Qed.
Hint Resolve keeps_update_wait_time : keeps.

Lemma keeps_group_found now queueId p b first pguid : keeps (group_found now queueId p b first pguid).
Proof. unfold group_found. keep. Qed.
Hint Resolve keeps_group_found : keeps.

Lemma keeps_UpdateProposal now id guid answer : keeps (UpdateProposal now id guid answer).
Proof.
  unfold UpdateProposal. apply mgr_keeps_get. intros m Hm.
  destruct (ProposalsStore m !! id) as [p0|] eqn:Hp; [|apply keeps_ret]. pose proof (mi_proposals m Hm _ _ Hp) as Hok.
  keep. apply keeps_set_proposal. apply (answer_proposed p0 guid (LfgAnswer_of answer)) in Hok. by destruct Hok.
Qed.

Lemma keeps_UpdateBoot now guid answer : keeps (UpdateBoot now guid answer).
Proof. unfold UpdateBoot. keep. Qed.
Hint Resolve keeps_UpdateProposal keeps_UpdateBoot : keeps.

(** *** The tick *)

Lemma keeps_AddProposal p : group_proposed p -> keeps (AddProposal p).
Proof.
  intros Hp. unfold AddProposal. keep. apply keeps_modify. intros m' []. split; cbn; try done.
  apply map_Forall_insert_2; [|done]. by destruct Hp.
Qed.

(** [urand] gives a number of the closed interval. *)
Definition urand_ok : Prop := forall n lo hi, lo <= hi -> lo <= world_urand n lo hi <= hi.

(** A computation on a queue, by what it does to the queue. *)
Lemma keeps_on_queue_state {A} now queueId (f : forall _ : QueueView, QM A) (Q : A -> QState -> Prop) after :
  (forall (v : QueueView) q n, (forall n lo hi, lo <= hi -> lo <= @urand v n lo hi <= hi) -> offers_ok (offers q) ->
     returns (f v) (fun a s => offers (queue s) = offers q /\ Q a s) (mkQState q [] [] n)) ->
  urand_ok -> (forall a s, Q a s -> keeps (after a s)) -> keeps (on_queue_state now queueId f after).
Proof.
  intros Hf Hu Ha. unfold on_queue_state. apply mgr_keeps_get. intros m Hm.
  pose proof (queue_of_ok m queueId Hm) as Hq.
  specialize (Hf (queue_view now m) (queue_of m queueId) (m_draws m) Hu (qo_offers _ Hq)). unfold returns, wp in Hf.
  destruct (f (queue_view now m) _) as [a s|[]|r]; [|apply keeps_abort]. destruct Hf as [Ho HQ].
  apply mgr_keeps_bind; [|intros _; apply mgr_keeps_bind; [by apply keeps_silent|intros _; by apply Ha]].
  apply keeps_on_queue. intros _ _. by rewrite Ho.
Qed.

Lemma keeps_FindGroups now queueId : urand_ok -> keeps (mgr_FindGroups now queueId).
Proof.
  intros Hu. apply (keeps_on_queue_state _ _ _ (fun _ s => Forall group_proposed (proposals s))); [|done|].
  - intros v q n Hv Hq. eapply returns_mono; [by apply (FindGroups_spec False (mkQState q [] [] n))|].
    intros a s [[H1 H2 H3 _ _] _ _ _ _]. split; [exact H1|]. cbn in H2. rewrite H2. cbn. unfold fresh in *. cbn in *.
    eapply Forall_impl; [exact H3|]. intros p. apply proposal_ok_group.
  - intros _ s Hs. apply keeps_for_each. rewrite Forall_forall in Hs. intros p Hp. by apply keeps_AddProposal, Hs.
Qed.

Lemma keeps_UpdateQueueTimers now queueId : urand_ok -> keeps (mgr_UpdateQueueTimers now queueId).
Proof.
  intros Hu. apply (keeps_on_queue_state _ _ _ (fun _ _ => True)); [|done|].
  - intros v q n Hv Hq. eapply returns_mono; [by apply (UpdateQueueTimers_spec queueId now (mkQState q [] [] n))|].
    intros a s [H1 _]. by split.
  - intros _ s _. keep.
Qed.

Lemma keeps_expire_rolecheck now gguid : keeps (expire_rolecheck now gguid).
Proof. unfold expire_rolecheck. keep. Qed.
Lemma keeps_expire_proposal now id : keeps (expire_proposal now id).
Proof. unfold expire_proposal. keep. Qed.
Lemma keeps_expire_boot now gguid : keeps (expire_boot now gguid).
Proof. unfold expire_boot. keep. Qed.
Lemma keeps_begin_proposal now id : keeps (begin_proposal now id).
Proof. unfold begin_proposal, begin_player. keep. Qed.
Hint Resolve keeps_FindGroups keeps_UpdateQueueTimers keeps_expire_rolecheck keeps_expire_proposal keeps_expire_boot
  keeps_begin_proposal : keeps.

Lemma keeps_Update now diff : urand_ok -> keeps (mgr_Update now diff).
Proof. intros Hu. unfold mgr_Update. keep; by apply keeps_silent. Qed.

(** *** Joining and finishing *)

Lemma join_check_dungeons m r grp ds ps r' ds' locks random raid :
  join_check m r grp ds ps = (r', ds', locks, random, raid) -> r' = LFG_JOIN_OK -> ds' <> ∅.
Proof.
  unfold join_check. case_bool_decide as Hr; [|intros [= -> -> _ _ _]; done].
  cbv zeta. generalize (check_types ds (in_order ds) (mkJoinTypes LFG_JOIN_OK false false 0)). intros j.
  destruct (bool_decide (jt_result j = LFG_JOIN_OK)) eqn:Hj; [|apply bool_decide_eq_false in Hj; by intros [= <- <- _ _ _]].
  clear Hj. destruct (GetCompatibleDungeons _ _ _) as [ds1 locks1].
  case_bool_decide as Hd; intros He Hok; injection He as Hr' <- _ _ _; [destruct grp; congruence|done].
Qed.

Lemma keeps_join_group now guid g c chosen ds random comment :
  (forall k, k ∈ gv_members g -> k ∈ roster (gv_guid g)) -> answer_of (gv_guid g) guid chosen -> ds <> ∅ ->
  keeps (join_group now guid g c chosen ds random comment).
Proof.
  intros Hg Ha Hd. unfold join_group. apply mgr_keeps_get. intros m Hm.
  set (rc := default LfgRoleCheck_new (RoleChecksStore m !! gv_guid g)).
  assert (Hrc : bytes_ok (rc_roles rc) /\ dom (rc_roles rc) ⊆ roster (gv_guid g)).
  { unfold rc. destruct (RoleChecksStore m !! gv_guid g) as [rc0|] eqn:He; cbn.
    - apply (mi_checks m Hm) in He as [_ _ H3 H4]. done.
    - split; [apply map_Forall_empty|]. rewrite dom_empty_L. set_solver. }
  assert (Hfold : forall l rs, (forall k, k ∈ l -> k ∈ roster (gv_guid g)) -> bytes_ok rs -> dom rs ⊆ roster (gv_guid g) ->
            let rs' := fold_left (fun (roles : LfgRolesMap) pguid => <[pguid := 0]> roles) l rs in
            bytes_ok rs' /\ dom rs' ⊆ roster (gv_guid g)).
  { induction l as [|k l IH]; intros rs Hl Hb Hs; [done|]. cbn [fold_left]. apply IH.
    - intros j Hj. apply Hl. by right.
    - by apply map_Forall_insert_2.
    - rewrite dom_insert_L. assert (k ∈ roster (gv_guid g)) by (apply Hl; by left). set_solver. }
  destruct (Hfold (gv_members g) (rc_roles rc) Hg (proj1 Hrc) (proj2 Hrc)) as [Hb Hs].
  apply mgr_keeps_bind; [by apply keeps_set_rolecheck|]. intros _. keep. by apply keeps_UpdateRoleCheck.
Qed.

Lemma keeps_join_alone now guid c chosen ds random comment :
  in_width 8 chosen -> ds <> ∅ -> keeps (join_alone now guid c chosen ds random comment).
Proof.
  intros Hc Hd. unfold join_alone. keep. apply keeps_AddQueueData.
  split; [|cbn; rewrite map_size_singleton; lia]. split; cbn; try done.
  - by apply map_Forall_singleton.
  - rewrite map_size_singleton. unfold MAXGROUPSIZE. lia.
  - rewrite map_size_singleton. unfold MAXGROUPSIZE. lia.
Qed.

(** The client chooses any byte; the group is within its roster. *)
Definition join_ok (guid : Z) (grp : option GroupView) (chosen : Z) : Prop :=
  in_width 8 chosen /\
  match grp with
  | Some g => guid ∈ roster (gv_guid g) /\ forall k, k ∈ gv_members g -> k ∈ roster (gv_guid g)
  | None => True
  end.

Lemma keeps_JoinLfg now guid grp chosen wanted comment :
  join_ok guid grp chosen -> keeps (JoinLfg now guid grp chosen wanted comment).
Proof.
  intros [Hc Hg]. unfold JoinLfg. destruct (bool_decide (wanted = ∅)); [apply keeps_ret|].
  apply mgr_keeps_get. intros m Hm. cbv zeta. apply mgr_keeps_bind; [keep|]. intros [r ps].
  apply mgr_keeps_get. intros m' _.
  match goal with |- context [join_check ?m ?r ?g ?ds ?ps] => destruct (join_check m r g ds ps) as [[[[r' ds'] locks] random] raid] eqn:Hj end.
  destruct (bool_decide (r' = LFG_JOIN_OK)) eqn:Hr; cbn [negb]; [|keep].
  apply bool_decide_eq_true in Hr. pose proof (join_check_dungeons _ _ _ _ _ _ _ _ _ _ Hj Hr) as Hds.
  apply mgr_keeps_bind; [keep|]. intros _. destruct raid; [apply keeps_ret|]. destruct grp as [g|].
  - destruct Hg as [Hg1 Hg2]. apply keeps_join_group; [done| |done]. by right.
  - by apply keeps_join_alone.
Qed.

Lemma keeps_finish_player gguid d guid : keeps (finish_player gguid d guid).
Proof. unfold finish_player, give_reward. keep. Qed.
Hint Resolve keeps_finish_player : keeps.

Lemma keeps_FinishDungeon gguid d : keeps (FinishDungeon gguid d).
Proof. unfold FinishDungeon. keep. Qed.
End Operations.

(** ** Every sequence of operations *)

(** What is called from outside: by the world, by the handlers of packets, by
    the loader and by hooks. *)
Inductive operation :=
| DoUpdate (diff : Z)
| DoJoinLfg (guid : Z) (grp : option GroupView) (chosen : Z) (wanted : LfgDungeonSet) (comment : list Z)
| DoLeaveLfg (guid : Z)
| DoUpdateRoleCheck (gguid guid chosen : Z)
| DoUpdateProposal (id guid : Z) (answer : bool)
| DoInitBoot (gguid kicker boot_victim : Z) (why : list Z)
| DoUpdateBoot (guid : Z) (answer : bool)
| DoFinishDungeon (gguid dungeonId : Z)
| DoLoadFromDB (guid leader_low dungeon : Z) (st : option LfgState)
| DoSetupGroupMember (guid gguid : Z)
| DoRemovePlayerData (guid : Z)
| DoSetOptions (options : Z)
| DoClean
| DoHook (h : Hook).

Definition do_operation `{LfgWorld} (now : Z) (o : operation) : MM () :=
  match o with
  | DoUpdate diff => mgr_Update now diff
  | DoJoinLfg guid grp chosen wanted comment => JoinLfg now guid grp chosen wanted comment
  | DoLeaveLfg guid => LeaveLfg now guid
  | DoUpdateRoleCheck gguid guid chosen => UpdateRoleCheck now gguid guid chosen
  | DoUpdateProposal id guid answer => UpdateProposal now id guid answer
  | DoInitBoot gguid kicker boot_victim why => InitBoot now gguid kicker boot_victim why
  | DoUpdateBoot guid answer => UpdateBoot now guid answer
  | DoFinishDungeon gguid dungeonId => FinishDungeon gguid dungeonId
  | DoLoadFromDB guid leader_low dungeon st => mgr_LoadFromDB guid leader_low dungeon st
  | DoSetupGroupMember guid gguid => SetupGroupMember guid gguid
  | DoRemovePlayerData guid => RemovePlayerData guid
  | DoSetOptions options => SetOptions options
  | DoClean => Clean
  | DoHook h => hook now h
  end.

(** The client sends bytes, and answers role checks of its own group. *)
Definition operation_ok `{Roster} (o : operation) : Prop :=
  match o with
  | DoJoinLfg guid grp chosen _ _ => join_ok guid grp chosen
  | DoUpdateRoleCheck gguid guid chosen => answer_of gguid guid chosen
  | _ => True
  end.

(** What happens to the manager, each operation in a world of its own. *)
Inductive happens `{Roster} : LFGMgr -> LFGMgr -> Prop :=
| happens_nothing m : happens m m
| happens_next m1 m2 m3 (w : LfgWorld) now o :
    happens m1 m2 -> urand_ok -> operation_ok o -> do_operation now o m2 = Ok tt m3 -> happens m1 m3.

Lemma keeps_operation `{LfgWorld, Roster} now o : urand_ok -> operation_ok o -> keeps (do_operation now o).
Proof.
  intros Hu Ho. destruct o; cbn [do_operation operation_ok] in *.
  - by apply keeps_Update.
  - by apply keeps_JoinLfg.
  - apply keeps_LeaveLfg.
  - by apply keeps_UpdateRoleCheck.
  - apply keeps_UpdateProposal.
  - apply keeps_InitBoot.
  - apply keeps_UpdateBoot.
  - apply keeps_FinishDungeon.
  - apply keeps_LoadFromDB.
  - apply keeps_SetupGroupMember.
  - apply keeps_modify. intros m []. split; cbn; try done. by apply map_Forall_delete.
  - by apply keeps_silent.
  - apply keeps_modify. intros m []. by split.
  - apply keeps_hook.
Qed.

(** C8.  Whatever happens to the dungeon finder, in any order and in any world,
    after it has started: the state of a player or group is a lasting one or a
    passing one over a lasting one, to which it can return; every queue holds
    offers that a search can use - some dungeon, at most five players, roles that
    are bytes -, and those of more than one player have roles that can fill a group
    (a lone player joins with whatever roles he sends, none of the three included);
    every role check can lead to nothing else; and every proposal that waits for
    answers is of five players with one of the three roles each, no more than one
    tank, one healer and three damage dealers, with one of them as the leader.  The
    conditions ([operation_ok]): the roles a client sends are a byte, a player
    answers the role check of his own group, groups have the members of their
    roster, fewer than 256, and random numbers lie in their range. *)
Theorem manager_invariant `{Roster} (options : Z) (m : LFGMgr) :
  happens (LFGMgr_new options) m ->
  map_Forall (fun _ d => player_ok d) (PlayersStore m) /\ map_Forall (fun _ d => group_ok d) (GroupsStore m) /\
  map_Forall (fun _ q => queued_ok (offers q)) (QueuesStore m) /\ map_Forall check_ok (RoleChecksStore m) /\
  map_Forall (fun _ p => group_proposed p) (ProposalsStore m).
Proof.
  intros Hm. assert (Hi : mgr_inv m); [|by destruct Hi].
  remember (LFGMgr_new options) as m0 eqn:H0. induction Hm as [m|m1 m2 m3 w now o _ IH Hu Ho Hr].
  - subst. apply mgr_new_inv.
  - eapply keeps_operation; [exact Hu|exact Ho|by apply IH|exact Hr].
Qed.

(** ** An example *)

(** One dungeon, number 5; everybody is online. *)
Definition sample_world : LfgWorld := {|
  world_FindPlayer := fun _ => true;
  world_HasIgnore := fun _ _ => false;
  world_urand := fun _ lo _ => lo;
  LfgDungeonStore := {[5 := mkLFGDungeonData 5 36 LFG_TYPE_DUNGEON 0 1 15 20 0 false 0]};
  CachedDungeonMapStore := fun _ => {[5]};
  RewardMapStore := fun _ => [];
  IsHolidayActive := fun _ => false;
  CONFIG_ALLOW_TWO_SIDE_INTERACTION_GROUP := false;
  InBattleground := fun _ => false;
  InArena := fun _ => false;
  InBattlegroundQueue := fun _ => false;
  HasAura := fun _ _ => false;
  GetMapId := fun _ => 0;
  InDungeonMap := fun _ => false;
  IsInWorld := fun _ => true;
  getLevel := fun _ => 18;
  CanRewardQuest := fun _ _ => true;
  QuestExists := fun _ => true;
  Expansion := fun _ => 0;
  AverageItemLevel_below := fun _ _ => false;
  AverageItemLevel := fun _ => 0;
  IsMapDisabledFor := fun _ _ => false;
  GetBoundInstance := fun _ _ _ => false;
  GetAccessRequirement := fun _ _ => None;
  HasAchieved := fun _ _ => true;
  world_GetTeam := fun _ => ALLIANCE;
  GetQuestRewardStatus := fun _ _ => true;
  HasItemCount := fun _ _ => true;
  GetGroupByGUID := fun _ => None;
  GetDbStoreId := fun _ => 1;
  new_group_guid := fun _ => G 1;
  group_effect := fun _ groups => groups;
  group_hooks := fun c _ => match c with
    | GCreate guid => [OnAddMember (G 1) guid guid]
    | GAddMember g guid => [OnAddMember g 1 guid]
    | _ => []
    end
|}.

Fixpoint do_all `{LfgWorld} (now : Z) (l : list operation) (m : LFGMgr) : option LFGMgr :=
  match l with
  | [] => Some m
  | o :: l' => match do_operation now o m with Ok _ m' => do_all now l' m' | _ => None end
  end.

Lemma do_all_happens `{Roster} (w : LfgWorld) now l m m1 m2 :
  happens m m1 -> urand_ok -> Forall operation_ok l -> do_all now l m1 = Some m2 -> happens m m2.
Proof.
  intros Hm Hu Hl. revert m1 Hm. induction Hl as [|o l Ho Hl IH]; intros m1 Hm; cbn [do_all]; [by intros [= <-]|].
  destruct (do_operation now o m1) as [[] m1'| |] eqn:He; [|done..]. apply IH. by eapply happens_next.
Qed.

#[local] Instance sample_roster : Roster.
Proof. refine {| roster := fun _ => {[1; 2; 3; 4; 5]} |}. intros _. by vm_compute. Defined.

Definition joins : list operation :=
  map (fun gr => DoJoinLfg (fst gr) None (snd gr) {[5]} []) [(1, 2); (2, 4); (3, 9); (4, 8); (5, 8)].

(** Five players join, they are proposed to each other, and agree. *)
Definition evening : list operation :=
  joins ++ [DoUpdate 100] ++ map (fun guid => DoUpdateProposal 2 guid true) [1; 2; 3; 4; 5].

Definition after (l : list operation) : LFGMgr :=
  default (LFGMgr_new 3) (do_all (H := sample_world) 1000 l (LFGMgr_new 3)).

Example five_proposed :
  (fun p => (queues p, leader p, pairs (role <$> players p))) <$> ProposalsStore (after (joins ++ [DoUpdate 100])) !! 2
  = Some ([5; 1; 2; 3; 4], 1, [(1, 2); (2, 4); (3, 8); (4, 8); (5, 8)]).
Proof. vm_compute. reflexivity. Qed.

Example five_in_dungeon :
  (map (GetState (after evening)) [1; 2; 3; 4; 5; G 1], GetDungeon (after evening) (G 1) true,
   bool_decide (ProposalsStore (after evening) = ∅))
  = (repeat LFG_STATE_DUNGEON 6, 5, true).
Proof. vm_compute. reflexivity. Qed.

Lemma manager_invariant_witness :
  happens (LFGMgr_new 3) (after evening) /\
  map_Forall (fun _ d => player_ok d) (PlayersStore (after evening)) /\
  map_Forall (fun _ d => group_ok d) (GroupsStore (after evening)) /\
  map_Forall (fun _ q => queued_ok (offers q)) (QueuesStore (after evening)) /\
  map_Forall check_ok (RoleChecksStore (after evening)) /\
  map_Forall (fun _ p => group_proposed p) (ProposalsStore (after evening)).
Proof.
  assert (Hh : happens (LFGMgr_new 3) (after evening)).
  { apply (do_all_happens sample_world 1000 evening _ (LFGMgr_new 3)).
    - apply happens_nothing.
    - intros n lo hi Hlh. cbn. lia.
    - repeat constructor; by vm_compute.
    - vm_compute. reflexivity. }
  split; [exact Hh|]. exact (manager_invariant 3 (after evening) Hh).
Defined.
