(* ===== verification/LFGMgrProps.v ===== *)
(** * What the manager of the dungeon finder does

    The dungeons a party may enter, the outcome of a role check, the removal of a
    proposal, and votes to kick. *)

From S2P Require Import Prelude Maps Guid Text LFG LFGRoles LFGOffers LFGSearch LFGProps LFGData LFGMgr LFGTick LFGInv.

(** ** Locked dungeons *)

(** A player may not enter a dungeon; the lock has the type of the dungeon in its
    high byte. *)
Definition locked_for (m : LFGMgr) (guid d : Z) : Prop :=
  exists entry data, GetLockedDungeons m guid !! entry = Some data /\ Z.land entry 0x00FFFFFF = d.

(** What the loops have found: dungeons are taken out, each with its lock. *)
Record locks_found (ds ds' : LfgDungeonSet) (bad : Z -> Z -> Prop) (locks locks' : LfgLockPartyMap) : Prop := {
  lf_out : forall d, d ∈ ds' -> d ∈ ds /\ forall guid, ~ bad guid d;
  lf_in : forall d, d ∈ ds -> d ∉ ds' -> exists guid, bad guid d /\ is_Some (locks' !! guid ≫= fun l => l !! d);
  lf_stay : forall guid d, is_Some (locks !! guid ≫= fun l => l !! d) -> is_Some (locks' !! guid ≫= fun l => l !! d)
}.

Lemma lock_added (locks : LfgLockPartyMap) guid d data g e :
  is_Some (locks !! g ≫= fun l => l !! e) \/ (g = guid /\ e = d) ->
  is_Some (<[guid := <[d := data]> (default ∅ (locks !! guid))]> locks !! g ≫= fun l => l !! e).
Proof.
  intros Hor. destruct (decide (g = guid)) as [->|Hg].
  - rewrite lookup_insert_eq. cbn. destruct (decide (e = d)) as [->|He]; [rewrite lookup_insert_eq; by eexists|].
    rewrite lookup_insert_ne by done. destruct Hor as [Hl|[_ ?]]; [|done]. by destruct (locks !! guid).
  - rewrite lookup_insert_ne by done. destruct Hor as [|[? _]]; done.
Qed.

Definition bad_entries (guid : Z) (ks : list Z) (g d : Z) : Prop :=
  g = guid /\ exists e, e ∈ ks /\ Z.land e 0x00FFFFFF = d.

Lemma lock_player_spec guid cached ks ds locks :
  (forall e, e ∈ ks -> is_Some (cached !! e)) ->
  let r := lock_player guid cached ks (ds, locks) in locks_found ds (fst r) (bad_entries guid ks) locks (snd r).
Proof.
  revert ds locks. induction ks as [|entry ks IH]; intros ds locks Hks; cbn [lock_player].
  { split; cbn; try done. intros d Hd. split; [done|]. by intros g (_ & e & ?%elem_of_nil & _). }
  case_bool_decide as He; [split; cbn; [|set_solver|done]; subst; set_solver|].
  destruct (Hks entry) as [data Hdata]; [by left|]. rewrite Hdata. set (id := Z.land entry 0x00FFFFFF).
  assert (Hks' : forall e, e ∈ ks -> is_Some (cached !! e)) by (intros e Hin; apply Hks; by right).
  assert (Hbad : forall g d, bad_entries guid ks g d -> bad_entries guid (entry :: ks) g d).
  { intros g d (-> & e & Hin & Hd). split; [done|]. exists e. split; [by right|done]. }
  case_bool_decide as Hid.
  - destruct (IH (ds ∖ {[id]}) (<[guid := <[id := data]> (default ∅ (locks !! guid))]> locks) Hks') as [H1 H2 H3].
    split; cbn in *.
    + intros d Hd. destruct (H1 d Hd) as [Hds Hno]. split; [set_solver|]. intros g (-> & e & Hin & Hed).
      apply elem_of_cons in Hin as [->|Hin]; [set_solver|]. apply (Hno guid). split; [done|]. by exists e.
    + intros d Hd Hn. destruct (decide (d = id)) as [->|Hne].
      * exists guid. split; [split; [done|]; exists entry; split; [by left|done]|]. apply H3, lock_added. by right.
      * destruct (H2 d) as (g & Hg & Hl); [set_solver|done|]. exists g. split; [by apply Hbad|done].
    + intros g d Hl. apply H3, lock_added. by left.
  - destruct (IH ds locks Hks') as [H1 H2 H3]. split; [| |done].
    + intros d Hd. destruct (H1 d Hd) as [Hds Hno]. split; [done|]. intros g (-> & e & Hin & Hed).
      apply elem_of_cons in Hin as [->|Hin]; [by subst|]. apply (Hno guid). split; [done|]. by exists e.
    + intros d Hd Hn. destruct (H2 d Hd Hn) as (g & Hg & Hl). exists g. split; [by apply Hbad|done].
Qed.

Lemma locks_found_trans ds ds1 ds2 bad1 bad2 locks locks1 locks2 :
  locks_found ds ds1 bad1 locks locks1 -> locks_found ds1 ds2 bad2 locks1 locks2 ->
  locks_found ds ds2 (fun g d => bad1 g d \/ bad2 g d) locks locks2.
Proof.
  intros [H1 H2 H3] [H1' H2' H3']. split.
  - intros d Hd. destruct (H1' d Hd) as [Hd1 Hno2]. destruct (H1 d Hd1) as [Hd0 Hno1]. split; [done|].
    intros g [Hb|Hb]; [by apply (Hno1 g)|by apply (Hno2 g)].
  - intros d Hd Hn. destruct (decide (d ∈ ds1)) as [Hd1|Hd1].
    + destruct (H2' d Hd1 Hn) as (g & Hg & Hl). exists g. auto.
    + destruct (H2 d Hd Hd1) as (g & Hg & Hl). exists g. auto.
  - auto.
Qed.

Lemma lock_players_spec m ps ds locks :
  let r := lock_players m ps (ds, locks) in
  locks_found ds (fst r) (fun g d => g ∈ ps /\ locked_for m g d) locks (snd r).
Proof.
  revert ds locks. induction ps as [|guid ps IH]; intros ds locks; cbn [lock_players fst].
  { split; cbn; try done. intros d Hd. split; [done|]. by intros g [?%elem_of_nil _]. }
  case_bool_decide as He; [split; cbn; [|set_solver|done]; subst; set_solver|].
  pose proof (lock_player_spec guid (GetLockedDungeons m guid) (keys (GetLockedDungeons m guid)) ds locks
                (fun e => proj1 (elem_of_keys _ e))) as Hp.
  destruct (lock_player _ _ _ _) as [ds1 locks1]. cbn in Hp.
  pose proof (locks_found_trans _ _ _ _ _ _ _ _ Hp (IH ds1 locks1)) as [H1 H2 H3].
  assert (Hbad : forall g d, g ∈ guid :: ps /\ locked_for m g d <->
            bad_entries guid (keys (GetLockedDungeons m guid)) g d \/ (g ∈ ps /\ locked_for m g d)).
  { intros g d. rewrite elem_of_cons. unfold bad_entries, locked_for. setoid_rewrite elem_of_keys. unfold is_Some. split.
    - intros [[->|Hg] (e & data & Hl & Hd)]; [left; split; [done|]; eauto|right; eauto].
    - intros [(-> & e & [data Hl] & Hd)|[Hg Hl]]; eauto 6. }
  split.
  - intros d Hd. destruct (H1 d Hd) as [Hd0 Hno]. split; [done|]. intros g Hb%Hbad. by apply (Hno g).
  - intros d Hd Hn. destruct (H2 d Hd Hn) as (g & Hg & Hl). exists g. split; [by apply Hbad|done].
  - done.
Qed.

(** The dungeons a party may enter are those of the list for which no player
    of the party has a lock.  Locks are reported only when nothing is left, and
    then one for every dungeon of the list. *)
Theorem compatible_dungeons (m : LFGMgr) (ds : LfgDungeonSet) (players : gset Z) :
  let '(ds', locks) := GetCompatibleDungeons m ds players in
  (forall d, d ∈ ds' <-> d ∈ ds /\ forall guid, guid ∈ players -> ~ locked_for m guid d) /\
  (ds' <> ∅ -> locks = ∅) /\
  (ds' = ∅ -> forall d, d ∈ ds -> exists guid, guid ∈ players /\ is_Some (locks !! guid ≫= fun l => l !! d)).
Proof.
  unfold GetCompatibleDungeons. pose proof (lock_players_spec m (in_order players) ds ∅) as [H1 H2 _].
  destruct (lock_players _ _ _) as [ds' locks]. cbn [fst snd] in *. split_and!.
  - intros d. split.
    + intros Hd. destruct (H1 d Hd) as [Hd0 Hno]. split; [done|]. intros g Hg Hl. apply (Hno g).
      by rewrite LFGKeys.elem_of_in_order.
    + intros [Hd Hno]. destruct (decide (d ∈ ds')) as [|Hn]; [done|]. destruct (H2 d Hd Hn) as (g & [Hg Hl] & _).
      rewrite LFGKeys.elem_of_in_order in Hg. by destruct (Hno g Hg).
  - intros Hne. by rewrite bool_decide_eq_false_2.
  - intros -> d Hd. rewrite bool_decide_eq_true_2 by done. destruct (H2 d Hd) as (g & [Hg _] & Hl); [set_solver|].
    rewrite LFGKeys.elem_of_in_order in Hg. by exists g.
Qed.

(** ** What an operation does to the data of players and groups *)

(** Nothing else changes, but for the messages. *)
Record rest (m m' : LFGMgr) : Prop := {
  re_queues : QueuesStore m' = QueuesStore m;
  re_checks : RoleChecksStore m' = RoleChecksStore m;
  re_proposals : ProposalsStore m' = ProposalsStore m;
  re_boots : BootsStore m' = BootsStore m
}.

Lemma rest_refl m : rest m m.
Proof. by split. Qed.

Lemma rest_trans m1 m2 m3 : rest m1 m2 -> rest m2 m3 -> rest m1 m3.
Proof. intros [] []. split; congruence. Qed.

Lemma returns_unit (c : MM ()) (Q : LFGMgr -> Prop) m : returns c (fun _ => Q) m -> exists m', c m = Ok tt m' /\ Q m'.
Proof. intros ([] & m' & He & HQ)%returns_Ok. by exists m'. Qed.

Lemma returns_modify f (c : MM ()) Q m : returns c Q (f m) -> returns (modify f;; c) Q m.
Proof. intros Hc. eapply returns_bind with (P := fun _ m' => m' = f m); [by apply wp_modify|]. by intros _ m' ->. Qed.

Lemma returns_get (c : LFGMgr -> MM ()) Q m : returns (c m) Q m -> returns (m ← getS; c m) Q m.
Proof. done. Qed.

Section Acts.
Context `{LfgWorld}.

(** The data of each player changes by [f], that of each group by [g]. *)
Definition acts (f : Z -> LfgPlayerData -> LfgPlayerData) (g : Z -> LfgGroupData -> LfgGroupData) (c : MM ()) : Prop :=
  forall m, returns c (fun _ m' =>
    (forall k, player_data m' k = f k (player_data m k)) /\ (forall k, group_data m' k = g k (group_data m k)) /\
    rest m m') m.

Definition same {D} (_ : Z) (d : D) : D := d.
(** Only where [P] holds. *)
Definition at_ {D} (P : Z -> bool) (h : Z -> D -> D) (j : Z) (d : D) : D := if P j then h j d else d.

Lemma acts_ext f f' g g' c : (forall k d, f k d = f' k d) -> (forall k d, g k d = g' k d) -> acts f g c -> acts f' g' c.
Proof.
  intros Hf Hg Hc m. eapply returns_mono; [apply Hc|]. intros _ m' (H1 & H2 & H3).
  split_and!; [intros k; by rewrite H1, Hf|intros k; by rewrite H2, Hg|done].
Qed.

Lemma acts_seq f1 g1 f2 g2 c1 c2 :
  acts f1 g1 c1 -> acts f2 g2 c2 -> acts (fun k d => f2 k (f1 k d)) (fun k d => g2 k (g1 k d)) (c1;; c2).
Proof.
  intros H1 H2 m. eapply returns_bind; [apply H1|]. intros [] m1 (P1 & G1 & R1).
  eapply returns_mono; [apply H2|]. intros [] m2 (P2 & G2 & R2). split_and!.
  - intros k. by rewrite P2, P1.
  - intros k. by rewrite G2, G1.
  - by eapply rest_trans.
Qed.

Lemma acts_get f g (c : LFGMgr -> MM ()) : (forall m, acts f g (c m)) -> acts f g (m ← getS; c m).
Proof. intros Hc m. apply (Hc m m). Qed.

Lemma acts_ret : acts same same (mret tt).
Proof. intros m. by apply wp_ret. Qed.

Lemma acts_tell guid msg : acts same same (tell guid msg).
Proof. intros m. by apply wp_modify. Qed.

Lemma acts_when (b : bool) c : (b = true -> acts same same c) -> acts same same (when b c).
Proof. destruct b; intros Hc; [by apply Hc|apply acts_ret]. Qed.

Lemma acts_send guid msg : acts same same (send guid msg).
Proof. apply acts_when. intros _. apply acts_tell. Qed.

(** Before or after something that does nothing. *)
Lemma acts_then f g c1 c2 : acts same same c1 -> acts f g c2 -> acts f g (c1;; c2).
Proof. intros H1 H2. eapply acts_ext; [..|by apply (acts_seq _ _ _ _ _ _ H1 H2)]; done. Qed.

Lemma acts_last f g c1 c2 : acts f g c1 -> acts same same c2 -> acts f g (c1;; c2).
Proof. intros H1 H2. eapply acts_ext; [..|by apply (acts_seq _ _ _ _ _ _ H1 H2)]; done. Qed.

Lemma acts_on_player guid h : acts (at_ (Z.eqb guid) (fun _ => h)) same (on_player guid h).
Proof.
  intros m. apply wp_modify. cbn beta. split_and!; [|done|done]. intros k. unfold player_data, at_. cbn.
  destruct (Z.eqb_spec guid k) as [->|Hne]; [by rewrite lookup_insert_eq|by rewrite lookup_insert_ne].
Qed.

Lemma acts_on_group guid h : acts same (at_ (Z.eqb guid) (fun _ => h)) (on_group guid h).
Proof.
  intros m. apply wp_modify. cbn beta. split_and!; [done| |done]. intros k. unfold group_data, at_. cbn.
  destruct (Z.eqb_spec guid k) as [->|Hne]; [by rewrite lookup_insert_eq|by rewrite lookup_insert_ne].
Qed.

Lemma acts_for_each {A} (l : list A) (body : A -> MM ()) Pf (f : Z -> LfgPlayerData -> LfgPlayerData) Pg
    (g : Z -> LfgGroupData -> LfgGroupData) :
  (forall k d, f k (f k d) = f k d) -> (forall k d, g k (g k d) = g k d) ->
  (forall x, x ∈ l -> acts (at_ (Pf x) f) (at_ (Pg x) g) (body x)) ->
  acts (at_ (fun k => existsb (fun x => Pf x k) l) f) (at_ (fun k => existsb (fun x => Pg x k) l) g) (for_each l body).
Proof.
  intros Hf Hg. induction l as [|x l IH]; intros Hb; [apply acts_ret|]. cbn [for_each].
  eapply acts_ext; [| |apply acts_seq; [apply Hb; by left|apply IH; intros y Hy; apply Hb; by right]].
  - intros k d. unfold at_. cbn [existsb]. destruct (Pf x k), (existsb _ l); cbn; auto.
  - intros k d. unfold at_. cbn [existsb]. destruct (Pg x k), (existsb _ l); cbn; auto.
Qed.

Lemma acts_SetState guid st :
  acts (at_ (fun k => negb (IS_GROUP_GUID guid) && (guid =? k)) (fun _ => player_SetState st))
       (at_ (fun k => IS_GROUP_GUID guid && (guid =? k)) (fun _ => group_SetState st)) (SetState guid st).
Proof. unfold SetState. destruct (IS_GROUP_GUID guid); [apply acts_on_group|apply acts_on_player]. Qed.

Lemma acts_RestoreState guid :
  acts (at_ (fun k => negb (IS_GROUP_GUID guid) && (guid =? k)) (fun _ => player_RestoreState))
       (at_ (fun k => IS_GROUP_GUID guid && (guid =? k)) (fun _ => group_RestoreState)) (RestoreState guid).
Proof. unfold RestoreState. destruct (IS_GROUP_GUID guid); [apply acts_on_group|apply acts_on_player]. Qed.
End Acts.

(** ** The outcome of a role check *)

Section RoleCheck.
Context `{LfgWorld}.

(** What becomes of the data of a player of the group. *)
Definition check_player (rc : LfgRoleCheck) (k : Z) (d : LfgPlayerData) : LfgPlayerData :=
  match rc_state rc with
  | LFG_ROLECHECK_INITIALITING => d
  | LFG_ROLECHECK_FINISHED => (player_SetState LFG_STATE_QUEUED d) <| m_Roles := default 0 (rc_roles rc !! k) |>
  | _ => player_RestoreState d
  end.

Lemma player_RestoreState_twice d : player_RestoreState (player_RestoreState d) = player_RestoreState d.
Proof.
  destruct d as [l t g s o r sd c]. by destruct o.
Qed.

Lemma check_player_twice rc k d : check_player rc k (check_player rc k d) = check_player rc k d.
Proof. unfold check_player. destruct (rc_state rc); try apply player_RestoreState_twice; by destruct d. Qed.

Lemma acts_role_check_notify rc b guid chosen ds pguid :
  IS_GROUP_GUID pguid = false ->
  acts (at_ (Z.eqb pguid) (check_player rc)) same (role_check_notify rc b guid chosen ds pguid).
Proof.
  intros Hp. pose proof (acts_SetState pguid LFG_STATE_QUEUED) as Hset.
  pose proof (acts_RestoreState pguid) as Hrest. rewrite Hp in Hset, Hrest. cbn [negb andb] in Hset, Hrest.
  unfold role_check_notify. apply acts_then; [apply acts_when; intros _; apply acts_send|].
  apply acts_then; [apply acts_send|]. unfold check_player.
  destruct (rc_state rc);
    try (apply acts_then; [apply acts_when; intros _; apply acts_send|]; apply acts_then; [apply acts_send|exact Hrest]).
  - eapply acts_ext; [| |apply acts_seq; [exact Hset|apply acts_last; [apply acts_on_player|apply acts_get; intros; apply acts_send]]].
    + intros k d. unfold at_. destruct (Z.eqb_spec pguid k) as [->|]; done.
    + intros k d. unfold at_. done.
  - eapply acts_ext; [..|apply acts_ret]; intros k d; unfold at_, same; [by destruct (pguid =? k)|done].
Qed.

Lemma acts_role_check_notify_all rc b guid chosen ds :
  (forall k, is_Some (rc_roles rc !! k) -> IS_GROUP_GUID k = false) ->
  acts (at_ (fun k => bool_decide (is_Some (rc_roles rc !! k))) (check_player rc)) same
    (for_each (keys (rc_roles rc)) (role_check_notify rc b guid chosen ds)).
Proof.
  intros Hp. eapply acts_ext; [| |apply (acts_for_each _ _ Z.eqb (check_player rc) (fun _ _ => false) same)].
  - intros k d. unfold at_. assert (existsb (fun x => x =? k) (keys (rc_roles rc)) = bool_decide (is_Some (rc_roles rc !! k))) as ->; [|done].
    apply eq_bool_prop_intro. rewrite !Is_true_true, existsb_exists, bool_decide_eq_true.
    setoid_rewrite <- list_elem_of_In. setoid_rewrite elem_of_keys. setoid_rewrite Z.eqb_eq. naive_solver.
  - intros k d. unfold at_. by destruct (existsb _ _).
  - apply check_player_twice.
  - done.
  - intros k Hk%elem_of_keys. eapply acts_ext; [..|apply acts_role_check_notify; by apply Hp]; done.
Qed.

(** The answer, when it is a role: the state of the check. *)
Definition all_chosen (rs : LfgRolesMap) : Prop := forall k r, rs !! k = Some r -> r <> PLAYER_ROLE_NONE.

Lemma role_chosen_spec rc guid chosen m :
  rc_state rc = LFG_ROLECHECK_INITIALITING -> guid <> 0 -> PLAYER_ROLE_TANK <= chosen ->
  let rs := <[guid := chosen]> (rc_roles rc) in
  bytes_ok rs -> Z.of_nat (base.size rs) < 256 ->
  returns (role_chosen rc guid chosen) (fun rc' m' => m' = m /\
    exists st, rc' = rc <| rc_roles := rs |> <| rc_state := st |> /\
      ((st = LFG_ROLECHECK_INITIALITING /\ ~ all_chosen rs) \/
       (st = LFG_ROLECHECK_FINISHED /\ all_chosen rs /\ feasible (remove_leader rs)) \/
       (st = LFG_ROLECHECK_WRONG_ROLES /\ all_chosen rs /\ ~ feasible (remove_leader rs)))) m.
Proof.
  intros Hst Hg Hc rs Hb Hs. unfold role_chosen. rewrite (proj2 (Z.eqb_neq guid 0)) by done.
  rewrite (proj2 (Z.ltb_ge chosen PLAYER_ROLE_TANK)) by done. cbv zeta.
  change (rc_roles (rc <| rc_roles ::= <[guid := chosen]> |>)) with rs.
  assert (Hall : forallb (fun k => negb (default 0 (rs !! k) =? PLAYER_ROLE_NONE)) (keys rs) = true <-> all_chosen rs).
  { rewrite forallb_forall. setoid_rewrite <- list_elem_of_In. setoid_rewrite elem_of_keys. split.
    - intros Hk k r Hr. specialize (Hk k (mk_is_Some _ _ Hr)). rewrite Hr in Hk. cbn in Hk. unfold id in Hk. by zprop.
    - intros Ha k [r Hr]. rewrite Hr. cbn. unfold id. apply negb_true_iff, Z.eqb_neq. by eapply Ha. }
  destruct (forallb _ _).
  - destruct (CheckGroupRoles_spec rs) as (b & f & He & Hans); [apply insert_non_empty|done..|].
    unfold mgr_check_roles. rewrite He. apply returns_bind with (P := fun ok m' => ok = b /\ m' = m); [done|].
    intros ok m' [-> ->]. steps. split; [done|]. eexists. split; [done|]. right.
    destruct b; [left|right]; split_and!; try done; try by apply Hall.
    + exists f. apply Hans.
    + apply Hans.
  - steps. split; [done|]. exists LFG_ROLECHECK_INITIALITING. split; [by destruct rc; cbn in *; subst|]. left.
    split; [done|]. intros Ha%Hall. done.
Qed.

Definition check_group (rc : LfgRoleCheck) (d : LfgGroupData) : LfgGroupData :=
  match rc_state rc with
  | LFG_ROLECHECK_INITIALITING => d
  | LFG_ROLECHECK_FINISHED => group_SetState LFG_STATE_QUEUED d
  | _ => group_RestoreState d
  end.

(** The data of the players of the check change by [f], those of their group by
    [g], and no others. *)
Record group_changes (rs : LfgRolesMap) (gguid : Z) (f : Z -> LfgPlayerData -> LfgPlayerData)
    (g : LfgGroupData -> LfgGroupData) (m m' : LFGMgr) : Prop := {
  gc_player : forall k, is_Some (rs !! k) -> player_data m' k = f k (player_data m k);
  gc_group : group_data m' gguid = g (group_data m gguid);
  gc_others : forall k, rs !! k = None -> player_data m' k = player_data m k;
  gc_groups : forall k, k <> gguid -> group_data m' k = group_data m k;
  gc_proposals : ProposalsStore m' = ProposalsStore m;
  gc_boots : BootsStore m' = BootsStore m
}.

(** Once the players have been told: what becomes of the group and of the check. *)
Definition check_end (now gguid : Z) (rc : LfgRoleCheck) : MM () :=
  match rc_state rc with
  | LFG_ROLECHECK_FINISHED =>
      SetState gguid LFG_STATE_QUEUED;;
      m ← getS;
      mgr_on_queue (GetQueueId m gguid) (AddQueueData gguid now (rc_dungeons rc) (rc_roles rc));;
      erase_rolecheck gguid
  | LFG_ROLECHECK_INITIALITING => mret tt
  | _ => RestoreState gguid;; erase_rolecheck gguid
  end.

Definition check_left (now gguid : Z) (rc : LfgRoleCheck) (m m' : LFGMgr) : Prop :=
  match rc_state rc with
  | LFG_ROLECHECK_INITIALITING =>
      RoleChecksStore m' = RoleChecksStore m /\ QueuesStore m' = QueuesStore m
  | LFG_ROLECHECK_FINISHED =>
      RoleChecksStore m' = delete gguid (RoleChecksStore m) /\
      exists queueId, queueId = GetQueueId m' gguid /\
        QueuesStore m' = <[queueId := AddQueueData gguid now (rc_dungeons rc) (rc_roles rc) (queue_of m queueId)]> (QueuesStore m)
  | _ => RoleChecksStore m' = delete gguid (RoleChecksStore m) /\ QueuesStore m' = QueuesStore m
  end.

Lemma group_only gguid h g m m1 m' :
  (forall k, player_data m1 k = at_ (fun _ => false) h k (player_data m k)) ->
  (forall k, group_data m1 k = at_ (Z.eqb gguid) (fun _ => g) k (group_data m k)) -> rest m m1 ->
  (PlayersStore m', GroupsStore m', ProposalsStore m', BootsStore m')
    = (PlayersStore m1, GroupsStore m1, ProposalsStore m1, BootsStore m1) ->
  group_changes ∅ gguid same g m m'.
Proof.
  intros P1 G1 [Rq Rc Rp Rb] [= E1 E2 E3 E4].
  assert (Hp : forall k, player_data m' k = player_data m1 k) by (intros k; unfold player_data; by rewrite E1).
  assert (Hgr : forall k, group_data m' k = group_data m1 k) by (intros k; unfold group_data; by rewrite E2).
  split; [intros k _|..|intros k _|intros k Hk|congruence|congruence].
  - rewrite Hp. apply P1.
  - rewrite Hgr, G1. unfold at_. by rewrite Z.eqb_refl.
  - rewrite Hp. apply P1.
  - rewrite Hgr, G1. unfold at_. by rewrite (proj2 (Z.eqb_neq gguid k)) by congruence.
Qed.

Lemma check_end_failed gguid m :
  IS_GROUP_GUID gguid = true ->
  returns (RestoreState gguid;; erase_rolecheck gguid) (fun _ m' =>
    group_changes ∅ gguid same group_RestoreState m m' /\
    RoleChecksStore m' = delete gguid (RoleChecksStore m) /\ QueuesStore m' = QueuesStore m) m.
Proof.
  intros Hg. pose proof (acts_RestoreState gguid m) as Hrest. rewrite Hg in Hrest. cbn [negb andb] in Hrest.
  eapply returns_bind; [exact Hrest|]. intros [] m1 (P1 & G1 & R1). pose proof R1 as [Rq Rc _ _].
  unfold erase_rolecheck. apply wp_modify. split; [apply (group_only _ _ _ _ _ _ P1 G1 R1); reflexivity|].
  cbn. rewrite Rc. split; [reflexivity|exact Rq].
Qed.

Lemma check_end_finished now gguid ds rs m :
  IS_GROUP_GUID gguid = true ->
  returns (SetState gguid LFG_STATE_QUEUED;; m ← getS;
           mgr_on_queue (GetQueueId m gguid) (AddQueueData gguid now ds rs);; erase_rolecheck gguid) (fun _ m' =>
    group_changes ∅ gguid same (group_SetState LFG_STATE_QUEUED) m m' /\
    RoleChecksStore m' = delete gguid (RoleChecksStore m) /\
    exists queueId, queueId = GetQueueId m' gguid /\
      QueuesStore m' = <[queueId := AddQueueData gguid now ds rs (queue_of m queueId)]> (QueuesStore m)) m.
Proof.
  intros Hg. pose proof (acts_SetState gguid LFG_STATE_QUEUED m) as Hset. rewrite Hg in Hset. cbn [negb andb] in Hset.
  eapply returns_bind; [exact Hset|]. intros [] m1 (P1 & G1 & R1). pose proof R1 as [Rq Rc _ _].
  unfold mgr_on_queue, erase_rolecheck. steps. split; [apply (group_only _ _ _ _ _ _ P1 G1 R1); reflexivity|].
  cbn. rewrite Rc. split; [reflexivity|]. eexists. split; [reflexivity|]. unfold queue_of. cbn. by rewrite Rq.
Qed.

Lemma check_end_spec now gguid rc m :
  IS_GROUP_GUID gguid = true ->
  returns (check_end now gguid rc) (fun _ m' => group_changes ∅ gguid same (check_group rc) m m' /\ check_left now gguid rc m m') m.
Proof.
  intros Hg. unfold check_end, check_left, check_group. pose proof (check_end_failed gguid m Hg) as Hf.
  pose proof (check_end_finished now gguid (rc_dungeons rc) (rc_roles rc) m Hg) as Hq.
  destruct (rc_state rc); [exact Hf|exact Hq| |exact Hf..].
  apply wp_ret. split; [|split; reflexivity]. split; reflexivity.
Qed.

(** *** The whole of a check *)

(** What [UpdateRoleCheck] does once the answer is noted. *)
Lemma check_told now gguid rc b guid chosen ds m :
  IS_GROUP_GUID gguid = true -> (forall k, is_Some (rc_roles rc !! k) -> IS_GROUP_GUID k = false) ->
  returns (for_each (keys (rc_roles rc)) (role_check_notify rc b guid chosen ds);; check_end now gguid rc)
    (fun _ m' => group_changes (rc_roles rc) gguid (check_player rc) (check_group rc) m m' /\ check_left now gguid rc m m') m.
Proof.
  intros Hg Hp. eapply returns_bind; [exact (acts_role_check_notify_all rc b guid chosen ds Hp m)|].
  intros [] m1 (P1 & G1 & [Rq Rc Rpr Rb]). eapply returns_mono; [exact (check_end_spec now gguid rc m1 Hg)|].
  intros [] m2 [[_ C2 C3 C4 C5 C6] Hl]. split.
  - split; [intros k Hk|..|intros k Hk|intros k Hk|congruence|congruence].
    + rewrite C3 by apply lookup_empty. rewrite P1. unfold at_. by rewrite bool_decide_eq_true_2.
    + by rewrite C2, G1.
    + rewrite C3 by apply lookup_empty. rewrite P1. unfold at_. rewrite bool_decide_eq_false_2; [done|]. rewrite Hk. by intros [].
    + by rewrite C4, G1.
  - unfold check_left in *. rewrite <- Rc, <- Rq. destruct (rc_state rc); try exact Hl.
    destruct Hl as [H1 (q & Hq & H2)]. split; [exact H1|]. exists q. split; [exact Hq|]. rewrite H2. unfold queue_of.
    by rewrite Rq.
Qed.

(** *** What is sent during a check *)

(** [p] sends [l] and leaves the comments, which are [comments], alone. *)
Definition says (comments : Z -> list Z) (l : list (Z * LfgMessage)) (p : MM ()) : Prop := forall m,
  (forall k, GetComment m k = comments k) ->
  returns p (fun _ m' => sent m' = sent m ++ l /\ forall k, GetComment m' k = comments k) m.

(** The messages to a player, when he is found. *)
Definition to (guid : Z) (msgs : list LfgMessage) : list (Z * LfgMessage) :=
  if world_FindPlayer guid then map (pair guid) msgs else [].

Lemma to_app guid l1 l2 : to guid (l1 ++ l2) = to guid l1 ++ to guid l2.
Proof. unfold to. destruct (world_FindPlayer guid); [apply map_app|done]. Qed.

Lemma says_ret c : says c [] (mret tt).
Proof. intros m Hm. apply wp_ret. by rewrite app_nil_r. Qed.

Lemma says_bind c l1 l2 p1 p2 : says c l1 p1 -> says c l2 p2 -> says c (l1 ++ l2) (p1;; p2).
Proof.
  intros H1 H2 m Hm. eapply returns_bind; [by apply H1|]. cbn beta. intros [] m1 [E1 C1].
  eapply returns_mono; [by apply H2|]. cbn beta. intros [] m2 [E2 C2]. by rewrite E2, E1, app_assoc.
Qed.

Lemma says_send c guid msg : says c (to guid [msg]) (send guid msg).
Proof.
  intros m Hm. unfold send, to. destruct (world_FindPlayer guid); [|by apply says_ret]. by apply wp_modify.
Qed.

Lemma says_send_when c (b : bool) guid msg :
  says c (to guid (if b then [msg] else [])) (when b (send guid msg)).
Proof.
  destruct b; [apply says_send|]. unfold to. destruct (world_FindPlayer guid); apply says_ret.
Qed.

Lemma says_on_player c guid f :
  (forall d, m_Comment (f d) = m_Comment d) -> says c [] (on_player guid f).
Proof.
  intros Hf m Hm. apply wp_modify. cbn. rewrite app_nil_r. split; [done|]. intros k. rewrite <- Hm.
  unfold GetComment, player_data. cbn. destruct (decide (k = guid)) as [->|].
  - rewrite lookup_insert_eq. apply Hf.
  - by rewrite lookup_insert_ne.
Qed.

Lemma says_on_group c guid f : says c [] (on_group guid f).
Proof. intros m Hm. apply wp_modify. cbn. by rewrite app_nil_r. Qed.

Lemma says_queued c guid : says c [] (SetState guid LFG_STATE_QUEUED).
Proof. unfold SetState. destruct (IS_GROUP_GUID guid); [apply says_on_group|by apply says_on_player]. Qed.

Lemma says_RestoreState c guid : says c [] (RestoreState guid).
Proof.
  unfold RestoreState. destruct (IS_GROUP_GUID guid); [apply says_on_group|]. apply says_on_player.
  intros d. unfold player_RestoreState. by destruct (bool_decide _).
Qed.

Lemma says_SetRoles c guid roles : says c [] (SetRoles guid roles).
Proof. by apply says_on_player. Qed.

Lemma says_for_each c {A} (f : A -> list (Z * LfgMessage)) (p : A -> MM ()) l :
  (forall x, says c (f x) (p x)) -> says c (concat (map f l)) (for_each l p).
Proof.
  intros Hp. induction l as [|x l IH]; cbn; [apply says_ret|]. by apply says_bind.
Qed.

(** What a player of the group is told of an answer: that it was given; the
    check; and once it is over that he is queued or that it failed. *)
Definition check_messages (rc : LfgRoleCheck) (guid roles : Z) (comments : Z -> list Z) (pguid : Z)
    : list LfgMessage :=
  [MRoleChosen guid roles; MRoleCheckUpdate rc] ++
  match rc_state rc with
  | LFG_ROLECHECK_INITIALITING => []
  | LFG_ROLECHECK_FINISHED =>
      [MUpdateStatus (LfgUpdateData_of LFG_UPDATETYPE_ADDED_TO_QUEUE
         (if rDungeonId rc =? 0 then rc_dungeons rc else {[rDungeonId rc]}) (comments pguid)) true]
  | _ =>
      (if rc_leader rc =? pguid then [MJoinResult (mkLfgJoinResultData LFG_JOIN_FAILED (rc_state rc) ∅)] else []) ++
      [MUpdateStatus (LfgUpdateData_type LFG_UPDATETYPE_ROLECHECK_FAILED) true]
  end.

Lemma says_notify c rc guid roles pguid :
  says c (to pguid (check_messages rc guid roles c pguid))
    (role_check_notify rc true guid roles
       (if rDungeonId rc =? 0 then rc_dungeons rc else {[rDungeonId rc]}) pguid).
Proof.
  unfold role_check_notify, check_messages. set (ds := if _ =? 0 then _ else _).
  change ([MRoleChosen guid roles; MRoleCheckUpdate rc] ++ ?l) with
    ([MRoleChosen guid roles] ++ [MRoleCheckUpdate rc] ++ l).
  rewrite !to_app. apply says_bind; [apply (says_send_when c true)|]. apply says_bind; [apply says_send|].
  assert (Hfail : says c
    (to pguid ((if rc_leader rc =? pguid then [MJoinResult (mkLfgJoinResultData LFG_JOIN_FAILED (rc_state rc) ∅)] else []) ++
               [MUpdateStatus (LfgUpdateData_type LFG_UPDATETYPE_ROLECHECK_FAILED) true]))
    (when (rc_leader rc =? pguid) (send pguid (MJoinResult (mkLfgJoinResultData LFG_JOIN_FAILED (rc_state rc) ∅)));;
     send pguid (MUpdateStatus (LfgUpdateData_type LFG_UPDATETYPE_ROLECHECK_FAILED) true);;
     RestoreState pguid)).
  { rewrite to_app. apply says_bind; [apply says_send_when|]. rewrite <- (app_nil_r (to pguid [_])).
    apply says_bind; [apply says_send|apply says_RestoreState]. }
  revert Hfail. destruct (rc_state rc); intros Hfail; [exact Hfail| | |exact Hfail..]; clear Hfail.
  - rewrite <- (app_nil_l (to pguid _)). apply says_bind; [apply says_queued|].
    rewrite <- (app_nil_l (to pguid _)). apply says_bind; [apply says_SetRoles|].
    intros m Hm. apply wp_bind, wp_getS. rewrite Hm. by apply says_send.
  - unfold to. destruct (world_FindPlayer pguid); apply says_ret.
Qed.

Lemma says_check_end c now gguid rc : says c [] (check_end now gguid rc).
Proof.
  assert (Herase : says c [] (erase_rolecheck gguid)).
  { intros m Hm. apply wp_modify. cbn. by rewrite app_nil_r. }
  assert (Hfail : says c [] (RestoreState gguid;; erase_rolecheck gguid))
    by (apply (says_bind c [] []); [apply says_RestoreState|exact Herase]).
  unfold check_end. destruct (rc_state rc); [exact Hfail| |apply says_ret|exact Hfail..]; clear Hfail.
  apply (says_bind c [] []); [apply says_queued|]. intros m Hm. apply wp_bind, wp_getS.
  revert m Hm. intros m. apply (says_bind c [] []); [|exact Herase].
  intros m' Hm'. apply wp_modify. cbn. by rewrite app_nil_r.
Qed.

(** C15.  A player of a party answers a role check with a role (UpdateRoleCheck of
    LFGMgr.cpp); the check is under way, its players - the one who answers among
    them - are fewer than 256 with roles of a byte each, and their GUIDs are those of
    players.  Every player of the check who is found is told the answer and the check
    as it is now.  While somebody still has to answer, the answer is noted, and no
    player's or group's data and no queue changes.  When the last one answers, the
    check ends: if each can
    play one of the roles he chose without a second tank, a second healer or a
    fourth damage dealer, every player and the group are queued, each player with
    the roles he chose, and the queue of the group's side gets the party as a new
    entry; if they cannot, every player and the group get back the state they had
    and the queues are not touched.  The players are told which, too, and the leader
    that joining failed; nothing else is sent.  In no case is anybody else's data
    changed, and the operation always returns: its search of the roles is long
    enough. *)
Theorem role_check_outcome now gguid guid chosen rc m :
  IS_GROUP_GUID gguid = true -> RoleChecksStore m !! gguid = Some rc ->
  rc_state rc = LFG_ROLECHECK_INITIALITING -> guid <> 0 -> PLAYER_ROLE_TANK <= chosen ->
  let rs := <[guid := chosen]> (rc_roles rc) in
  bytes_ok rs -> Z.of_nat (base.size rs) < 256 -> (forall k, is_Some (rs !! k) -> IS_GROUP_GUID k = false) ->
  exists m' st, UpdateRoleCheck now gguid guid chosen m = Ok tt m' /\
    let rc' := rc <| rc_roles := rs |> <| rc_state := st |> in
    sent m' = sent m ++ concat (map (fun k => to k (check_messages rc' guid chosen (GetComment m) k)) (keys rs)) /\
    (st = LFG_ROLECHECK_INITIALITING /\ ~ all_chosen rs /\ group_changes rs gguid same id m m' /\
       QueuesStore m' = QueuesStore m /\ RoleChecksStore m' = <[gguid := rc']> (RoleChecksStore m)
     \/ all_chosen rs /\ RoleChecksStore m' = delete gguid (RoleChecksStore m) /\
       (st = LFG_ROLECHECK_FINISHED /\ feasible (remove_leader rs) /\
          group_changes rs gguid (fun k d => (player_SetState LFG_STATE_QUEUED d) <| m_Roles := default 0 (rs !! k) |>)
            (group_SetState LFG_STATE_QUEUED) m m' /\
          (exists queueId, queueId = GetQueueId m' gguid /\
             QueuesStore m' = <[queueId := AddQueueData gguid now (rc_dungeons rc) rs (queue_of m queueId)]> (QueuesStore m))
        \/ st = LFG_ROLECHECK_WRONG_ROLES /\ ~ feasible (remove_leader rs) /\
          group_changes rs gguid (fun _ => player_RestoreState) group_RestoreState m m' /\
          QueuesStore m' = QueuesStore m)).
Proof.
  intros Hg Hrc Hst Hgu Hch rs Hb Hs Hp.
  enough (Hr : returns (UpdateRoleCheck now gguid guid chosen) (fun _ m' => exists st,
    let rc' := rc <| rc_roles := rs |> <| rc_state := st |> in
    sent m' = sent m ++ concat (map (fun k => to k (check_messages rc' guid chosen (GetComment m) k)) (keys rs)) /\
    (st = LFG_ROLECHECK_INITIALITING /\ ~ all_chosen rs \/
     st = LFG_ROLECHECK_FINISHED /\ all_chosen rs /\ feasible (remove_leader rs) \/
     st = LFG_ROLECHECK_WRONG_ROLES /\ all_chosen rs /\ ~ feasible (remove_leader rs)) /\
    group_changes rs gguid (check_player rc') (check_group rc') m m' /\
    check_left now gguid rc' (m <| RoleChecksStore ::= <[gguid := rc']> |>) m') m).
  { apply returns_Ok in Hr as ([] & m' & Hrun & st & Hsent & Hwhat & [C1 C2 C3 C4 C5 C6] & Hl).
    exists m', st. split; [exact Hrun|]. split; [exact Hsent|].
    destruct Hwhat as [[-> Hall]|[(-> & Hall & Hf)|(-> & Hall & Hf)]]; destruct Hl as [Hl1 Hl2].
    - left. split_and!; [done|exact Hall|by split|exact Hl2|exact Hl1].
    - right. split_and!; [exact Hall|rewrite Hl1; apply delete_insert_eq|].
      left. split_and!; [done|exact Hf|by split|exact Hl2].
    - right. split_and!; [exact Hall|rewrite Hl1; apply delete_insert_eq|].
      right. split_and!; [done|exact Hf|by split|exact Hl2]. }
  unfold UpdateRoleCheck. rewrite (proj2 (Z.eqb_neq gguid 0)) by (by intros ->). steps. rewrite Hrc. cbv zeta.
  eapply returns_bind; [exact (role_chosen_spec rc guid chosen m Hst Hgu Hch Hb Hs)|].
  intros rc' m' [-> (st & -> & Hwhat)]. apply returns_modify.
  set (rc' := rc <| rc_roles := rs |> <| rc_state := st |>).
  set (m1 := m <| RoleChecksStore ::= <[gguid := rc']> |>).
  rewrite Hst, (proj2 (Z.eqb_neq guid 0)) by done. rewrite bool_decide_eq_false_2 by done. cbn [negb andb].
  assert (Hsay : says (GetComment m)
    (concat (map (fun k => to k (check_messages rc' guid chosen (GetComment m) k)) (keys rs)) ++ [])
    (for_each (keys rs) (role_check_notify rc' true guid chosen
       (if rDungeonId rc' =? 0 then rc_dungeons rc' else {[rDungeonId rc']}));; check_end now gguid rc')).
  { apply says_bind; [|apply says_check_end]. apply says_for_each. intros k. apply says_notify. }
  specialize (Hsay m1 (fun k => eq_refl)). rewrite app_nil_r in Hsay.
  pose proof (check_told now gguid rc' true guid chosen
    (if rDungeonId rc' =? 0 then rc_dungeons rc' else {[rDungeonId rc']}) m1 Hg Hp) as Htold.
  apply returns_Ok in Htold as ([] & m2 & Hrun & [C1 C2 C3 C4 C5 C6] & Hl).
  apply returns_Ok in Hsay as ([] & m2' & Hrun' & Hsent & _).
  assert (m2' = m2) as ->.
  { change (rc_roles rc') with rs in Hrun. rewrite Hrun in Hrun'. by injection Hrun'. }
  apply returns_Ok. exists tt, m2. split; [exact Hrun|].
  exists st. split; [exact Hsent|]. split; [exact Hwhat|]. split; [by split|exact Hl].
Qed.
End RoleCheck.

(** Player 1 leads a party of two and has chosen to tank; player 2 will heal. *)
Definition check_pending : LfgRoleCheck :=
  {| rc_cancelTime := 2000; rc_roles := {[1 := 2; 2 := 0]}; rc_state := LFG_ROLECHECK_INITIALITING;
     rc_dungeons := {[5]}; rDungeonId := 0; rc_leader := 1 |}.

Definition answer_pending : LFGMgr :=
  (LFGMgr_new 3) <| RoleChecksStore := {[G 1 := check_pending]} |>.

Lemma tank_and_healer : feasible (remove_leader (<[2 := 4]> (rc_roles check_pending))).
Proof.
  exists {[1 := 2; 2 := 4]}. split; [|by vm_compute]. intros k.
  destruct (decide (k = 1)) as [->|H1]; [by vm_compute|]. destruct (decide (k = 2)) as [->|H2]; [by vm_compute|].
  unfold remove_leader. rewrite lookup_fmap. cbn [rc_roles check_pending].
  by rewrite !lookup_insert_ne, !lookup_singleton_ne by congruence.
Qed.

Lemma players_answer k : is_Some (<[2 := 4]> (rc_roles check_pending) !! k) -> IS_GROUP_GUID k = false.
Proof.
  assert (Hall : map_Forall (fun k _ => IS_GROUP_GUID k = false) (<[2 := 4]> (rc_roles check_pending)))
    by (refine (bool_decide_unpack _ _); vm_compute; exact I).
  intros [r Hr]. exact (Hall k r Hr).
Qed.

Lemma both_answer : all_chosen (<[2 := 4]> (rc_roles check_pending)).
Proof.
  assert (Hall : map_Forall (fun _ r => r <> PLAYER_ROLE_NONE) (<[2 := 4]> (rc_roles check_pending)))
    by (refine (bool_decide_unpack _ _); vm_compute; exact I).
  exact Hall.
Qed.

Lemma role_check_outcome_witness :
  exists m', UpdateRoleCheck (H := sample_world) 1000 (G 1) 2 4 answer_pending = Ok tt m' /\
    (exists rc', rc_state rc' = LFG_ROLECHECK_FINISHED /\
       sent m' = concat (map (fun k => to (H := sample_world) k (check_messages rc' 2 4 (fun _ => []) k)) [1; 2])) /\
    RoleChecksStore m' = delete (G 1) (RoleChecksStore answer_pending) /\
    group_changes (<[2 := 4]> (rc_roles check_pending)) (G 1)
      (fun k d => (player_SetState LFG_STATE_QUEUED d) <| m_Roles := default 0 (<[2 := 4]> (rc_roles check_pending) !! k) |>)
      (group_SetState LFG_STATE_QUEUED) answer_pending m'.
Proof.
  destruct (role_check_outcome (H := sample_world) 1000 (G 1) 2 4 check_pending answer_pending)
    as (m' & st & He & Hsent & Ho).
  - reflexivity.
  - vm_compute. reflexivity.
  - reflexivity.
  - discriminate.
  - vm_compute. discriminate.
  - refine (bool_decide_unpack _ _). vm_compute. exact I.
  - vm_compute. reflexivity.
  - apply players_answer.
  - exists m'. split; [exact He|]. destruct Ho as [(_ & Hno & _)|(_ & Hd & [(Hst & _ & Hc & _)|(_ & Hno & _)])].
    + destruct (Hno both_answer).
    + subst st. split; [|split; [exact Hd|exact Hc]]. eexists. split; [|exact Hsent]. reflexivity.
    + destruct (Hno tank_and_healer).
Defined.

(** ** The removal of a proposal *)

(** *** Queues *)

Definition remove_all (l : list Z) (q : LFGQueue) : LFGQueue := foldl (fun q g => RemoveFromQueue g q) q l.
Definition add_all (l : list Z) (q : LFGQueue) : LFGQueue := foldl (fun q g => AddToQueue g q) q l.

Lemma filter_not_in_nil (l : list Z) : filter (fun g => g ∉ []) l = l.
Proof. induction l as [|g l IH]; [done|]. rewrite filter_cons, decide_True by apply not_elem_of_nil. by rewrite IH. Qed.

Lemma remove_all_spec l q :
  offers (remove_all l q) = filter (fun kv => kv.1 ∉ l) (offers q) /\
  newToQueueStore (remove_all l q) = filter (fun g => g ∉ l) (newToQueueStore q) /\
  currentQueueStore (remove_all l q) = filter (fun g => g ∉ l) (currentQueueStore q).
Proof.
  revert q. induction l as [|g l IH]; intros q; cbn [remove_all foldl].
  - rewrite !filter_not_in_nil. split_and!; [|done..]. symmetry. apply map_filter_id. intros. apply not_elem_of_nil.
  - destruct (IH (RemoveFromQueue g q)) as (H1 & H2 & H3). unfold remove_all in *. rewrite H1, H2, H3, RemoveFromQueue_offers.
    cbn. rewrite !list_filter_filter. split_and!; [|apply list_filter_iff; set_solver..].
    apply map_eq. intros k. apply option_eq. intros o. rewrite !map_lookup_filter_Some, lookup_delete_Some. cbn. set_solver.
Qed.

Lemma add_all_spec l q :
  offers (add_all l q) = offers q /\
  newToQueueStore (add_all l q) = newToQueueStore q ++ filter (fun g => is_Some (offers q !! g)) l /\
  currentQueueStore (add_all l q) = currentQueueStore q.
Proof.
  revert q. induction l as [|g l IH]; intros q; cbn [add_all foldl].
  - by rewrite filter_nil, app_nil_r.
  - destruct (IH (AddToQueue g q)) as (H1 & H2 & H3). unfold add_all in *. rewrite H1, H2, H3, AddToQueue_offers.
    rewrite filter_cons. unfold AddToQueue. destruct (QueueDataStore q !! g) as [d|] eqn:Hd.
    + rewrite decide_True by (eexists; exact (offers_lookup_Some _ _ _ Hd)). cbn. by rewrite <- app_assoc.
    + rewrite decide_False; [done|]. intros [o Ho]. apply offers_lookup in Ho as (d & Hd' & _). congruence.
Qed.

(** Only a queue changes. *)
Record queue_changes (queueId : Z) (f : LFGQueue -> LFGQueue) (m m' : LFGMgr) : Prop := {
  qc_queue : queue_of m' queueId = f (queue_of m queueId);
  qc_others : forall k, k <> queueId -> queue_of m' k = queue_of m k;
  qc_rest : m' = m <| QueuesStore := QueuesStore m' |>
}.

Lemma for_each_on_queue queueId (f : Z -> LFGQueue -> LFGQueue) l m :
  returns (for_each l (fun g => mgr_on_queue queueId (f g)))
    (fun _ m' => queue_changes queueId (fun q => foldl (fun q g => f g q) q l) m m') m.
Proof.
  revert m. induction l as [|g l IH]; intros m; cbn [for_each foldl].
  - apply wp_ret. split; try reflexivity. by destruct m.
  - eapply returns_bind with (P := fun _ m1 => queue_changes queueId (f g) m m1).
    + apply wp_modify. split; unfold queue_of; cbn; [by rewrite lookup_insert_eq| |by destruct m].
      intros k Hk. by rewrite lookup_insert_ne.
    + intros [] m1 [H1 H2 H3]. eapply returns_mono; [apply IH|]. intros [] m2 [H4 H5 H6]. split.
      * by rewrite H4, H1.
      * intros k Hk. by rewrite H5, H2.
      * rewrite H6 at 1. rewrite H3. by destruct m.
Qed.

(** *** Players and groups *)

Section RemoveProposal.
Context `{LfgWorld}.

(** An entry leaves the queue: one of its players declined or, when the time is
    up, did not answer. *)
Definition leaves (type : LfgUpdateType) (ps : gmap Z LfgProposalPlayer) (g : Z) : Prop :=
  exists k d, ps !! k = Some d /\ entry_guid k d = g /\
    (accept d = LFG_ANSWER_DENY \/ type = LFG_UPDATETYPE_PROPOSAL_FAILED /\ accept d <> LFG_ANSWER_AGREE).

Lemma elem_of_to_remove type ps g : g ∈ to_remove type ps <-> leaves type ps g.
Proof.
  unfold to_remove, leaves. rewrite elem_of_list_to_set, list_elem_of_fmap. split.
  - intros ([k d] & -> & [Hd Hk%elem_of_map_to_list]%list_elem_of_filter). exists k, d. split_and!; [done..|].
    unfold denies in Hd. cbn in Hd. destruct (accept d), type; naive_solver.
  - intros (k & d & Hk & <- & Hd). exists (k, d). split; [done|]. apply list_elem_of_filter.
    split; [|by apply elem_of_map_to_list]. unfold denies. cbn. destruct (accept d), type; naive_solver.
Qed.

Definition removed_player (R : gset Z) (ps : gmap Z LfgProposalPlayer) (k : Z) (d : LfgPlayerData) : LfgPlayerData :=
  match ps !! k with
  | Some pd => if decide (entry_guid k pd ∈ R) then player_RestoreState d else player_SetState LFG_STATE_QUEUED d
  | None => d
  end.
Definition removed_group (R : gset Z) (g : Z) (d : LfgGroupData) : LfgGroupData :=
  if decide (g ∈ R) then group_RestoreState d else group_SetState LFG_STATE_QUEUED d.

(** The group of a player of the proposal. *)
Definition group_of (ps : gmap Z LfgProposalPlayer) (k g : Z) : bool :=
  match ps !! k with Some pd => negb (group pd =? 0) && (group pd =? g) | None => false end.

(** Players and groups have guids of their kind. *)
Definition guids_ok (ps : gmap Z LfgProposalPlayer) : Prop :=
  forall k pd, ps !! k = Some pd -> IS_GROUP_GUID k = false /\ (group pd = 0 \/ IS_GROUP_GUID (group pd) = true).

Lemma party_guid ps k pd :
  guids_ok ps -> ps !! k = Some pd ->
  (group pd = 0 /\ entry_guid k pd = k /\ negb (entry_guid k pd =? k) = false) \/
  (group pd <> 0 /\ IS_GROUP_GUID (group pd) = true /\ entry_guid k pd = group pd /\ negb (entry_guid k pd =? k) = true).
Proof.
  intros Hok Hk. destruct (Hok k pd Hk) as [H1 H2]. unfold entry_guid. destruct (Z.eqb_spec (group pd) 0) as [H0|H0].
  - left. by rewrite Z.eqb_refl.
  - right. destruct H2 as [H2|H2]; [done|]. split_and!; [done..|]. apply negb_true_iff, Z.eqb_neq. congruence.
Qed.

(** The same for a player and, if he has one, his group. *)
Lemma acts_both k g (f : LfgPlayerData -> LfgPlayerData) (h : LfgGroupData -> LfgGroupData) (b : bool) (c1 c2 c3 : MM ()) :
  IS_GROUP_GUID k = false -> (b = true -> IS_GROUP_GUID g = true) ->
  acts (at_ (fun j => negb (IS_GROUP_GUID k) && (k =? j)) (fun _ => f)) (at_ (fun j => IS_GROUP_GUID k && (k =? j)) (fun _ => h)) c1 ->
  acts (at_ (fun j => negb (IS_GROUP_GUID g) && (g =? j)) (fun _ => f)) (at_ (fun j => IS_GROUP_GUID g && (g =? j)) (fun _ => h)) c2 ->
  acts same same c3 ->
  acts (at_ (Z.eqb k) (fun _ => f)) (at_ (fun j => b && (g =? j)) (fun _ => h)) (c1;; when b c2;; c3).
Proof.
  intros Hk Hg H1 H2 H3. rewrite Hk in H1. cbn [negb andb] in H1.
  pose proof (acts_seq _ _ _ _ _ _ H1 (acts_last _ _ _ _ H2 H3)) as H12.
  pose proof (acts_last _ _ _ _ H1 (acts_then _ _ _ _ acts_ret H3)) as H13. destruct b.
  - rewrite Hg in H12 by done. cbn [negb andb] in H12. eapply acts_ext; [| |exact H12]; done.
  - eapply acts_ext; [| |exact H13]; done.
Qed.

Lemma acts_removal_notify p type R k pd :
  guids_ok (players p) -> players p !! k = Some pd ->
  acts (at_ (Z.eqb k) (removed_player R (players p))) (at_ (group_of (players p) k) (removed_group R))
    (removal_notify p type R k).
Proof.
  intros Hok Hk. unfold removal_notify. rewrite Hk. cbv zeta. destruct (Hok k pd Hk) as [Hkp _].
  set (b := negb (entry_guid k pd =? k)). apply acts_then; [apply acts_send|].
  assert (Hb : b = true -> IS_GROUP_GUID (group pd) = true /\ entry_guid k pd = group pd).
  { subst b. destruct (party_guid _ k pd Hok Hk) as [(_ & _ & Hb)|(_ & H1 & H2 & _)]; [by rewrite Hb|done]. }
  assert (Hgrp : forall j, group_of (players p) k j = b && (group pd =? j)).
  { intros j. unfold group_of, b. rewrite Hk.
    destruct (party_guid _ k pd Hok Hk) as [(H0 & _ & Hb')|(H0 & _ & _ & Hb')]; rewrite Hb'; f_equal.
    - by rewrite H0.
    - by apply negb_true_iff, Z.eqb_neq. }
  destruct (bool_decide (entry_guid k pd ∈ R)) eqn:HR;
    [apply bool_decide_eq_true in HR|apply bool_decide_eq_false in HR].
  - eapply acts_ext; [| |apply (acts_both k (group pd) player_RestoreState group_RestoreState b); [exact Hkp|by intros []%Hb| | |]].
    + intros j d. unfold at_, removed_player. destruct (Z.eqb_spec k j) as [<-|]; [|done]. by rewrite Hk, decide_True.
    + intros j d. unfold at_, removed_group. rewrite Hgrp. destruct b; [|done]. cbn. destruct (Hb eq_refl) as [_ He].
      destruct (Z.eqb_spec (group pd) j) as [<-|]; [|done]. by rewrite decide_True by congruence.
    + apply acts_RestoreState.
    + apply acts_RestoreState.
    + apply acts_send.
  - eapply acts_ext; [| |apply (acts_both k (entry_guid k pd) (player_SetState LFG_STATE_QUEUED) (group_SetState LFG_STATE_QUEUED) b);
      [exact Hkp|intros [? ->]%Hb; done| | |]].
    + intros j d. unfold at_, removed_player. destruct (Z.eqb_spec k j) as [<-|]; [|done]. by rewrite Hk, decide_False.
    + intros j d. unfold at_, removed_group. rewrite Hgrp. destruct b; [|done]. cbn. destruct (Hb eq_refl) as [_ He].
      rewrite He in *. destruct (Z.eqb_spec (group pd) j) as [<-|]; [|done]. by rewrite decide_False.
    + apply acts_SetState.
    + apply acts_SetState.
    + apply acts_get. intros m. apply acts_send.
Qed.
Lemma removed_twice R ps k d : removed_player R ps k (removed_player R ps k d) = removed_player R ps k d.
Proof.
  unfold removed_player. destruct (ps !! k) as [pd|]; [|done].
  destruct (decide _); [apply player_RestoreState_twice|by destruct d].
Qed.

Lemma removed_group_twice R g d : removed_group R g (removed_group R g d) = removed_group R g d.
Proof. unfold removed_group. destruct (decide _); by destruct d. Qed.

Lemma acts_removal_all p type R :
  guids_ok (players p) ->
  acts (removed_player R (players p))
    (at_ (fun g => existsb (fun k => group_of (players p) k g) (keys (players p))) (removed_group R))
    (for_each (keys (players p)) (removal_notify p type R)).
Proof.
  intros Hok. eapply acts_ext; [| |apply (acts_for_each _ _ Z.eqb (removed_player R (players p))
    (group_of (players p)) (removed_group R))].
  - intros k d. unfold at_. destruct (existsb _ _) eqn:Hx; [done|]. unfold removed_player.
    destruct (players p !! k) as [pd|] eqn:Hk; [|done]. apply not_true_iff_false in Hx. destruct Hx.
    apply existsb_exists. exists k. rewrite <- list_elem_of_In, elem_of_keys, Hk. split; [by eexists|apply Z.eqb_refl].
  - done.
  - apply removed_twice.
  - apply removed_group_twice.
  - intros k [pd Hk]%elem_of_keys. by eapply acts_removal_notify.
Qed.

(** The entries of [q] but those in [R], which wait no more; those of [back] that
    are left wait for a new search again. *)
Record queue_left (R : gset Z) (back : list Z) (q q' : LFGQueue) : Prop := {
  ql_offers : offers q' = filter (fun kv => kv.1 ∉ R) (offers q);
  ql_new : newToQueueStore q' = (filter (fun g => g ∉ R) (newToQueueStore q)) ++
             filter (fun g => g ∉ R /\ is_Some (offers q !! g)) back;
  ql_current : currentQueueStore q' = filter (fun g => g ∉ R) (currentQueueStore q)
}.

Lemma queue_left_spec R back q :
  queue_left R back q (add_all (filter (fun g => g ∉ R) back) (remove_all (in_order R) q)).
Proof.
  destruct (remove_all_spec (in_order R) q) as (R1 & R2 & R3).
  destruct (add_all_spec (filter (fun g => g ∉ R) back) (remove_all (in_order R) q)) as (A1 & A2 & A3).
  assert (Hin : forall l : list Z, filter (fun g => g ∉ in_order R) l = filter (fun g => g ∉ R) l).
  { intros l. apply list_filter_iff. intros g. by rewrite LFGKeys.elem_of_in_order. }
  split.
  - rewrite A1, R1. apply map_filter_ext. intros k o _. cbn. by rewrite LFGKeys.elem_of_in_order.
  - rewrite A2, R1, R2, Hin, list_filter_filter. f_equal. apply list_filter_iff. intros g. split.
    + intros [[o [Ho _]%map_lookup_filter_Some] Hg]. split; [done|by eexists].
    + intros [Hg [o Ho]]. split; [|done]. exists o. apply map_lookup_filter_Some. split; [done|].
      cbn. by rewrite LFGKeys.elem_of_in_order.
  - by rewrite A3, R3, Hin.
Qed.

(** Who did not answer is noted as having declined; nothing else is changed. *)
Lemma answers_noted (f : LfgProposalPlayer -> LfgProposalPlayer) ps :
  (forall d, group (f d) = group d) ->
  (guids_ok ps -> guids_ok (f <$> ps)) /\
  (forall R k d, removed_player R (f <$> ps) k d = removed_player R ps k d) /\
  (forall k g, group_of (f <$> ps) k g = group_of ps k g).
Proof.
  intros Hf. split_and!.
  - intros Hok k pd (pd0 & <- & Hk)%lookup_fmap_Some. rewrite Hf. by apply Hok.
  - intros R k d. unfold removed_player. rewrite lookup_fmap. destruct (ps !! k) as [pd|]; [|done]. cbn.
    unfold entry_guid. by rewrite Hf.
  - intros k g. unfold group_of. rewrite lookup_fmap. destruct (ps !! k) as [pd|]; [|done]. cbn. by rewrite Hf.
Qed.

(** After the players have been told. *)
Definition removal_end (id : Z) (ks : list Z) (R : gset Z) (back : list Z) : MM () :=
  match ks with
  | [] => abort UndefinedBehaviour
  | first :: _ =>
      m ← getS;
      let queueId := GetQueueId m first in
      for_each (in_order R) (fun guid => mgr_on_queue queueId (RemoveFromQueue guid));;
      for_each (filter (fun g => g ∉ R) back) (fun guid => mgr_on_queue queueId (AddToQueue guid));;
      modify (fun m => m <| ProposalsStore ::= delete id |>)
  end.

Lemma removal_end_spec id first l R back m :
  returns (removal_end id (first :: l) R back) (fun _ m' =>
    queue_changes (GetQueueId m first) (fun q => add_all (filter (fun g => g ∉ R) back) (remove_all (in_order R) q)) m
      (m' <| ProposalsStore := ProposalsStore m |>) /\
    ProposalsStore m' = delete id (ProposalsStore m)) m.
Proof.
  unfold removal_end. apply returns_get. cbv zeta.
  eapply returns_bind; [apply for_each_on_queue|]. intros [] m1 [Q1 O1 E1].
  eapply returns_bind; [apply for_each_on_queue|]. intros [] m2 [Q2 O2 E2]. apply wp_modify.
  assert (Hpr : ProposalsStore m2 = ProposalsStore m) by (rewrite E2, E1; reflexivity).
  split; [|cbn; by rewrite Hpr]. split.
  - unfold queue_of in *. cbn. rewrite Q2, Q1. reflexivity.
  - intros k Hk. unfold queue_of in *. cbn. rewrite O2, O1 by exact Hk. reflexivity.
  - cbn. rewrite E2, E1. by destruct m.
Qed.

Lemma GetQueueId_ext g m m' :
  PlayersStore m' = PlayersStore m -> GroupsStore m' = GroupsStore m -> GetQueueId m' g = GetQueueId m g.
Proof. intros Hp Hg. unfold GetQueueId, GetPlayers, GetTeam, group_data, player_data. by rewrite Hp, Hg. Qed.

(** C20.  A proposal is given up, declined by a player or out of time
    (RemoveProposal of LFGMgr.cpp).  The entries of the queue that leave are just
    those with a player who declined or, when the time is up, did not agree: with
    him goes his whole party.  Each of its players, and the group, gets back the
    lasting state it had before, and the entry is in no list of the queue.
    Every other player and group of the proposal is queued again, and waits for a
    new search if its entry is still there.  No other queue, player, group, role check, vote or proposal changes. *)
Theorem proposal_removed id type p first l m :
  ProposalsStore m !! id = Some p -> guids_ok (players p) -> keys (players p) = first :: l ->
  let R := to_remove type (players p) in
  (forall g, g ∈ R <-> leaves type (players p) g) /\
  exists m', RemoveProposal id type m = Ok tt m' /\
    ProposalsStore m' = delete id (ProposalsStore m) /\
    RoleChecksStore m' = RoleChecksStore m /\ BootsStore m' = BootsStore m /\
    (forall k, player_data m' k = removed_player R (players p) k (player_data m k)) /\
    (forall g, group_data m' g = if existsb (fun k => group_of (players p) k g) (keys (players p))
                                 then removed_group R g (group_data m g) else group_data m g) /\
    queue_left R (queues p) (queue_of m (GetQueueId m' first)) (queue_of m' (GetQueueId m' first)) /\
    (forall j, j <> GetQueueId m' first -> queue_of m' j = queue_of m j).
Proof.
  intros Hp Hok Hkeys R. split; [intros g; apply elem_of_to_remove|]. apply returns_unit.
  unfold RemoveProposal.
  apply returns_get. rewrite Hp. cbv zeta.
  set (deny d := if denies type d then _ else d). set (p' := p <| state := LFG_PROPOSAL_FAILED |> <| players ::= _ |>).
  destruct (answers_noted deny (players p)) as (Hok' & Hpl & Hgr); [intros d; unfold deny; by destruct (denies type d)|].
  eapply returns_bind; [exact (acts_removal_all p' type R (Hok' Hok) m)|]. intros [] m1 (P1 & G1 & [Rq Rc Rpr Rb]).
  assert (Hk' : keys (players p') = first :: l) by (cbn; by rewrite keys_fmap). rewrite Hk' in *.
  eapply returns_mono; [exact (removal_end_spec id first l R (queues p) m1)|]. intros [] m2 ([Q2 O2 E2] & Hpr).
  assert (EP : PlayersStore m2 = PlayersStore m1) by exact (f_equal PlayersStore E2).
  assert (EG : GroupsStore m2 = GroupsStore m1) by exact (f_equal GroupsStore E2).
  assert (EC : RoleChecksStore m2 = RoleChecksStore m1) by exact (f_equal RoleChecksStore E2).
  assert (EB : BootsStore m2 = BootsStore m1) by exact (f_equal BootsStore E2).
  rewrite (GetQueueId_ext first m1 m2 EP EG). unfold queue_of in Q2, O2. cbn in Q2, O2. rewrite Rq in Q2.
  split_and!; [congruence..| | | |].
  - intros k. unfold player_data at 1. rewrite EP. unfold player_data in P1. rewrite P1. apply Hpl.
  - intros g. unfold group_data at 1. rewrite EG. unfold group_data in G1. rewrite G1. unfold at_. rewrite Hkeys.
    assert (existsb (fun k => group_of (players p') k g) (first :: l) = existsb (fun k => group_of (players p) k g) (first :: l))
      as ->; [|reflexivity].
    generalize (first :: l). intros ks. induction ks as [|k ks IH]; [reflexivity|]. cbn [existsb].
    rewrite IH. f_equal. apply Hgr.
  - unfold queue_of. rewrite Q2. apply queue_left_spec.
  - intros j Hj. unfold queue_of. rewrite O2 by exact Hj. by rewrite Rq.
Qed.
End RemoveProposal.

(** Five players are proposed to each other; two of them agree in time. *)
Definition two_agreed : LFGMgr :=
  after (joins ++ [DoUpdate 100; DoUpdateProposal 2 1 true; DoUpdateProposal 2 2 true]).
Definition two_agreed_proposal : LfgProposal := default LfgProposal_new (ProposalsStore two_agreed !! 2).

Lemma two_agreed_guids : guids_ok (players two_agreed_proposal).
Proof.
  assert (Hall : map_Forall (fun k pd => IS_GROUP_GUID k = false /\ (group pd = 0 \/ IS_GROUP_GUID (group pd) = true))
    (players two_agreed_proposal)) by (refine (bool_decide_unpack _ _); vm_compute; exact I).
  exact Hall.
Qed.

Lemma proposal_removed_witness :
  let R := to_remove LFG_UPDATETYPE_PROPOSAL_FAILED (players two_agreed_proposal) in
  exists m', RemoveProposal (H := sample_world) 2 LFG_UPDATETYPE_PROPOSAL_FAILED two_agreed = Ok tt m' /\
    map (fun k => pd_State (player_data m' k)) [1; 2; 3; 4; 5]
      = [LFG_STATE_QUEUED; LFG_STATE_QUEUED; LFG_STATE_NONE; LFG_STATE_NONE; LFG_STATE_NONE] /\
    queue_left R [5; 1; 2; 3; 4] (queue_of two_agreed (GetQueueId m' 1)) (queue_of m' (GetQueueId m' 1)).
Proof.
  intros R. destruct (proposal_removed (H := sample_world) 2 LFG_UPDATETYPE_PROPOSAL_FAILED two_agreed_proposal 1 [2; 3; 4; 5] two_agreed)
    as (_ & m' & He & _ & _ & _ & Hpl & _ & Hq & _).
  - vm_compute. reflexivity.
  - exact two_agreed_guids.
  - vm_compute. reflexivity.
  - exists m'. split; [exact He|]. split; [|exact Hq]. cbn [map]. rewrite !Hpl. vm_compute. reflexivity.
Defined.

(** ** Two matches at once *)

(** Ten players, two parties. *)
Definition two_parties : list operation :=
  map (fun gr => DoJoinLfg (fst gr) None (snd gr) {[5]} [])
    [(1, 2); (2, 4); (3, 8); (4, 8); (5, 8); (6, 2); (7, 4); (8, 8); (9, 8); (10, 8)].

(** Both matches are found in one tick and stored as proposals, but the tick
    begins only the last: the players of the first are still queued, are told of
    nothing, and are in no list of the queue that a search would look at. *)
Example two_matches :
  let m := after (two_parties ++ [DoUpdate 100]) in
  (map (fun id => queues <$> ProposalsStore m !! id) [2; 3], map (GetState m) [1; 2; 3; 4; 5],
   map (GetState m) [6; 7; 8; 9; 10],
   (newToQueueStore (queue_of m (GetQueueId m 1)), currentQueueStore (queue_of m (GetQueueId m 1))))
  = ([Some [5; 1; 2; 3; 4]; Some [10; 6; 7; 8; 9]], repeat LFG_STATE_QUEUED 5, repeat LFG_STATE_PROPOSAL 5, ([], [])).
Proof. vm_compute. reflexivity. Qed.
